(* ===== verification/_CoqProject ===== *)
-Q . S2P
Prelude.v
Tables.v
Json.v
Models.v
Schema.v
Outbox.v
OutboxFacts.v
OutboxSpec.v
OutboxRefine.v
Quiet.v
Fixtures.v
OutboxProps.v
ThreadStore.v
ThreadProps.v
Mailbox.v
Budget.v
Quota.v
Journal.v
Receipts.v
Authority.v
Gateway.v
Retention.v
Admissions.v
Reconcile.v
ReconcileProps.v
Routing.v
Registry.v
Identity.v
PolicyEngine.v
PolicyMerge.v
Authorizer.v
IngestGate.v
GateProps.v
QuietOps.v
System.v
Actor.v
Responder.v
Executor.v
PyFloat.v
Ledger.v
LedgerDelivery.v
Router.v
RouterProps.v
Signals.v
SignalSink.v
SignalProps.v
LedgerProps.v
LedgerRevs.v
Projection.v
Scheduler.v
SchedulerProps.v
Continuation.v
ContinuationProps.v
Judge.v
JudgeGuard.v
JudgeProps.v
GuardProps.v
Inputs.v
Runtime.v
RuntimeFixtures.v
RuntimeSpec.v
RuntimeProps.v
RuntimeLanes.v
RuntimeGuarantees.v
Cron.v
CronProps.v
Bus.v
BusProps.v
