(* ===== verification/Prelude.v ===== *)
(** * Yeoman processing core: a verification library

    Yeoman is a chat assistant gateway. Its durable core, the package
    [src/packages/gateway/yeoman_gateway/processing], decides which inbound messages may be
    answered, what an event belongs to, and makes sure that an outgoing effect (a message,
    a reaction, a voice note, ...) is permitted and executed at most once. The rules come
    from the policy engine in [src/packages/gateway/yeoman_gateway/policy]. This library
    models both as executable functions over the SQLite tables and the in-memory state and
    proves what they promise.

    ** The program and its parts

    - [store.py] ([ProcessingStore]) owns the tables. Each public method is one
      [BEGIN IMMEDIATE] transaction: journal of canonical events, decisions, the effect
      outbox with attempts, evidence, receipts and probes, threads and turns, the mailbox,
      budgets, quotas, admissions, retention.
    - [models.py] holds payloads, targets, envelopes and the effect state machine.
    - [effects.py] ([EffectGateway]) submits effects and executes them: authorize, claim,
      call the transport executor, record the outcome.
    - [reconcile.py] (with the receipt evidence of [signals.py]) settles effects whose
      outcome is unproven.
    - [threads.py], [routing.py], [lifecycle.py] assign events to threads and turns.
    - [budget.py] and [quota.py] limit what is sent and which tools run.
    - [policy/engine.py], [policy/schema.py] and [policy/identity.py] hold the layered chat
      policies and decide who may talk, when to reply and which tools are allowed.
    - [processing/policy.py] applies them twice: the ingest gate before any enrichment, and
      the final authorizer before an effect is dispatched.
    - [actor.py] and [responder.py] run the generations of a thread; [dispatch.py] turns
      what they and other producers want to send into effects ([IntentEffectRouter]), guards
      the bus, and is the executor behind the gateway ([BusEffectExecutor]).
    - [signals.py] maps what the WhatsApp bridge reports to canonical signals and captures
      them in the journal; [invalidation.py] withdraws what an edited or deleted message led
      to.
    - [consciousness/log.py] ([SpeakupLog]) is the ledger of unprompted participation, a
      database of its own; [consciousness/delivery.py] and
      [consciousness/participation_maintenance.py] project transport truth into it.
    - [consciousness/opportunities.py] keeps one pending opportunity per chat and hands them
      to a pool of workers; [processing/participation_runtime.py] evaluates one of them:
      preflight, paid judge ([participation.py]), second check, reservation, drafts,
      reconsideration while the context moves, fences and hand-over.
    - [continuation.py] lets a language model say which delivered reply a message follows
      up on, among the candidates the code offers, and binds it to a thread.
    - [cron/] keeps scheduled jobs in a file and runs the ones that are due.
    - [bus/queue.py] connects the channels and the core by bounded queues.

    An inbound message passes [IngestGate.admit], is assigned by [ThreadRegistry.assign],
    and is answered by [ThreadActorResponder] under [IngestGate.admit_reply]. The answer
    goes through [IntentEffectRouter] to [EffectGateway.submit] and [execute_ready], which
    asks [SnapshotEffectAuthorizer] and calls [BusEffectExecutor]; what stays unproven goes
    to reconciliation.

    ** How the code is modelled

    The database is a record of tables, each a list of rows in insertion order ([Schema]);
    a row is a record with the columns of the schema. SQL statements become the operations
    of [Tables] (SELECT ... ORDER BY, UPDATE ... WHERE with its row count, INSERT OR IGNORE,
    DELETE). A method is a [prog]: a function from the database to a result or an exception
    and a database; a method body under [with self._write()] is a [txn] run by [write], which
    rolls back when the body raises. Python exceptions are values of [py_error]. Integers
    are unbounded in Python and are [Z] here; times are milliseconds. Strings are byte
    strings ([str.lower] and [str.strip] in their ASCII part). JSON documents are values of
    [Json.json]; a float in them is kept as the text Python prints, and where the code
    computes with floats they are exact binary64 numbers ([PyFloat]). SHA-256 is the class [Sha256], a
    parameter of everything that hashes; no theorem assumes anything of it, and witnesses
    use a stand-in. Fresh [uuid4] values and clock readings are arguments. An [await] is a
    point where other code may run: [execute_ready] and [reconcile_candidate] are split
    there, and a run of [System] may put any operations between the two parts.

    ** Files

    - [Prelude]: results, transactions and programs with their notations, record update,
      Python string helpers. [Tables]: tables as lists. [Json]: JSON values, canonical JSON.
    - [Models]: data of [models.py] and the effect state machine. [Schema]: tables, [write].
    - [Outbox]: [record_decision], [enqueue_effect], [enqueue_participation_effect],
      [claim_effect], [release_claim], [transition], [record_evidence],
      [recover_executing], [cancel_stale_effects]. [OutboxFacts]: case analyses.
    - [OutboxSpec]: the abstract outbox, a labelled step relation on effects and attempts
      with its invariant and its at-most-once accounting. [OutboxRefine]: every outbox
      operation is a sequence of abstract steps. [Quiet]: the same as a type class that
      composes through sequencing and case distinctions.
    - [OutboxProps]: idempotent acceptance, faithful storage, exclusive claims,
      compare-and-set transitions, exact recovery and cancellation. [Fixtures]: a small
      concrete store for evaluation.
    - [ThreadStore], [ThreadProps]: threads and turns in the store; revisions, settling and
      the manual reset. [Mailbox]: pending inputs. [Budget]: send budgets. [Quota]: quotas.
    - [Journal]: [append_event]. [Authority]: source authority, revocation of edited and
      deleted messages. [Receipts]: transport receipts and probes.
      [Retention]: [purge]. [Admissions]: direct admissions and short replies.
    - [Gateway]: [EffectGateway]. [Reconcile], [ReconcileProps]: reconciliation.
    - [Routing]: the join rules, continuity and lifecycle as pure functions. [Registry]:
      [ThreadRegistry] on the store.
    - [Identity]: sender identities. [PolicyEngine]: the policy layers, their compilation
      and evaluation. [PolicyMerge]: the layers as the code merges them, mappings dumped,
      deep-merged and validated. [Authorizer]: [SnapshotEffectAuthorizer] as an instance of
      the gateway's interface. [IngestGate], [GateProps]: the fast gate.
    - [QuietOps], [System]: all writing operations as one interleaved transition system.
    - [Actor]: [ThreadActor] with its postbox. [Responder]: the generation loop.
      [Executor]: [BusEffectExecutor]. [Router], [RouterProps]: the router, the producers,
      the outbound guard and the owner acknowledgements ([core/control_ack.py]).
    - [PyFloat]: Python floats. [Signals]: [WhatsAppSignalMapper]. [SignalSink]:
      [SignalJournalSink.capture] and [SignalInvalidator]. [SignalProps]: their guarantees.
    - [Ledger], [LedgerDelivery]: [SpeakupLog], from the reservation to the delivery and the
      history. [LedgerProps], [LedgerRevs]: its guarantees along runs of calls.
      [Projection]: the receipt reconciler, the confirmed anchors and the maintenance pass.
    - [Scheduler], [SchedulerProps]: [ParticipationScheduler] with its workers as a
      transition system. [Continuation], [ContinuationProps]: the continuation resolver and
      the asynchronous front of the gate.
    - [Judge]: what the participation judge is shown and how its answer is read.
      [JudgeGuard]: the exchange and the meme it may be offered, and the second check of its
      decision. [JudgeProps], [GuardProps]: what they promise for every model text.
    - [Inputs]: the readers of settings, freshness and revision tokens. [Runtime]: one
      evaluation of the participation runtime as a program over the ledger that leaves a
      trace of what it causes outside, with the group-notes shadow it may start.
      [RuntimeFixtures]: small environments. [RuntimeSpec]: the abstract protocol of an
      evaluation. [RuntimeProps]: the evaluation refines it. [RuntimeLanes]: the shadow
      lane, what is carried out, the reconsideration loop. [RuntimeGuarantees]: bounds,
      fences and the check before a decision is carried out.
    - [Cron], [CronProps]: [CronService] with its timer task as a transition system over a
      heap of shared jobs; its file; chains, approvals and plain-text jobs.
    - [Bus], [BusProps]: [MessageBus] with its dispatch loops.

    ** What the theorems show

    - Execution: the executor is reached only under a fresh exclusive claim of a queued,
      allowed effect; its outcome is recorded as what it proves; late results change nothing;
      over any interleaving an effect is dispatched at most once more than it was declared
      not executed; decided effects stay decided and are never dispatched again; the
      identity of an accepted effect never changes ([Gateway], [System]).
    - Permission: an effect reaches the transport only with the consent of the loaded
      policy, for the current revision of an open turn ([Authorizer]); the engine decides
      exactly by its layered rules whatever is cached, merging mappings is overriding
      fields, and spellings of a number match exactly when the number is the same
      ([PolicyEngine], [PolicyMerge], [Identity]).
    - Ingest: what policy refuses leaves no work behind, answers need the configured
      action, ambient messages wait for their verdict, the gate's memory stays bounded
      ([GateProps]).
    - Generation and dispatch: the loop ends with a decision, one answer path per thread,
      what the postbox decides; a router run refines the abstract outbox; budgets, retries,
      unbound requests; one fenced transport call, reported honestly ([Actor], [Responder],
      [Router], [Executor]).
    - Outbox: invariant, acceptance, claims, transitions, recovery, cancellation, branch by
      branch with the errors ([OutboxProps]).
    - Reconciliation: what the local probe can conclude, the one consequence of each
      verdict under interference, operator decisions; a crashed send is settled
      ([ReconcileProps]).
    - Conversations: compare-and-set revisions, exact settling and reset, join evidence,
      adjacency, caps, idempotent assignment, resets that stick ([ThreadProps], [Routing],
      [Registry]).
    - Journal, receipts, mailbox, budgets, quotas, retention, admissions: idempotency,
      append-only growth, permanent revocation, sliding windows, cooldowns, first-in-first-out
      order, fences.
    - Signals: the strict boundary fails closed, the lenient mapper never raises on finite
      times, both copies of a membership change are one signal, a captured correction
      revokes every other revision, and the invalidator acts on turns and effects only for
      the author ([SignalProps]).
    - Participation: the delivery states refine a machine that charges a send once and
      never refunds it, the allowance of a chat holds along every punctual run, retries are
      safe ([LedgerProps]); judge attempts per hour, permanent source revisions, material
      offered once, epochs, approvals ([LedgerRevs]); the reconciler charges only on stored
      evidence ([Projection]); a chat never has two handlers and the pool drains
      ([SchedulerProps]); whatever a model answers, a decision stays within what was offered
      ([JudgeProps], [GuardProps]) and a follow-up is attached only to a delivered reply to
      its own sender ([ContinuationProps]).
    - Evaluation: whatever the collaborators answer, one evaluation implements the abstract
      protocol; payments, drafts and hand-overs are bounded; only a checked decision is
      carried out; the fences directly precede a hand-over; the shadow lane only
      deliberates; reconsideration ends ([RuntimeLanes], [RuntimeGuarantees]).
    - Cron: due jobs run once and in order, a one-shot job runs once, saved jobs are read
      back ([CronProps]). Bus: no message is lost uncounted ([BusProps]).

    Almost all functions are total without fuel: loops run over lists that are fixed before
    the loop starts, as in the code. One recursion carries fuel: [deep_merge_fuel] gets the
    nesting depth of the override, and more changes nothing ([deep_merge_fuel_enough]).
    [run_loop] runs the rounds the code allows (one more than the additional generations),
    and [loop_decides] shows that they are always enough for a decision. The reconsideration
    loop of the runtime has no bound of its own in the code; [reconsider_rounds] runs
    [RECONSIDER_ROUNDS] (3) rounds, and [reconsideration_ends] shows that the unbounded loop
    ends with the same answer and state from three rounds on.

    ** What is not modelled

    Schema migrations and connection handling; the builder of the participation context
    with its selection of knowledge, the texts of the prompts, the language models and the
    search of the topic reopener, which are parameters; the producers of opportunities; the
    actor registry's tick and the task loops around reconciliation, retention and
    maintenance; counters and log lines; the stores of knowledge, history and group state;
    the admin service, channels, media, the bridge, the command line and operations tooling,
    which are I/O or glue. [validate_policy] refuses what the schema refuses (unknown keys,
    modes, bounds, guidance, reserve) without the text of the error. A chat policy holds the settings its
    evaluation reads; the ones that are only carried through are left out. Where SQL leaves
    the order of equal keys open the model takes insertion order; no theorem depends on
    it. *)

(** ** Prelude

    Shared vocabulary of the library: the result and transaction monads, record
    update, Python string helpers, and the generic lemmas. *)

From Stdlib Require Import ZArith Lia Ascii.
From stdpp Require Export base list strings pretty gmap sorting.

(** ** Scopes *)

Declare Scope yeoman_scope.
Delimit Scope yeoman_scope with yeoman.
Open Scope Z_scope.
Open Scope yeoman_scope.

Create HintDb yeoman.

(** ** Python exceptions and results

    The exception classes the modelled code raises, each with (the constant part
    of) its message. *)

Inductive py_error :=
| ValueError (msg : string)
| TypeError (msg : string)
| ProcessingError (msg : string)
| JournalConflictError (msg : string)
| EffectConflictError (msg : string)
| InvalidTransitionError (msg : string)
| TurnStateError (msg : string)
| IntegrityError (msg : string)
| IndexError (msg : string)
| EffectPayloadRejectedError (msg : string)
| EffectNotDeliveredError (msg : string)
| ParticipationPreDispatchDenied (msg : string)
| OtherError (type_name msg : string)
| CancelledError.

#[export] Instance py_error_eq_dec : EqDecision py_error.
Proof. solve_decision. Defined.

Inductive result (A : Type) :=
| Ok (a : A)
| Raise (e : py_error).
Arguments Ok {A} a.
Arguments Raise {A} e.

#[export] Instance result_eq_dec {A} `{EqDecision A} : EqDecision (result A).
Proof. solve_decision. Defined.

(** A transaction body: it either yields a value and a new database or raises. *)
Definition txn (S A : Type) : Type := S → result (A * S).

(** A program on the database: it always leaves a database behind, also when it raises. *)
Definition prog (S A : Type) : Type := S → result A * S.

Definition rbind {A B} (m : result A) (k : A → result B) : result B :=
  match m with Ok a => k a | Raise e => Raise e end.

Definition tret {S A} (a : A) : txn S A := λ s, Ok (a, s).
Definition traise {S A} (e : py_error) : txn S A := λ _, Raise e.
Definition tbind {S A B} (m : txn S A) (k : A → txn S B) : txn S B :=
  λ s, match m s with Ok (a, s') => k a s' | Raise e => Raise e end.
Definition tget {S A} (f : S → A) : txn S A := λ s, Ok (f s, s).
Definition tmodify {S} (f : S → S) : txn S unit := λ s, Ok (tt, f s).
Definition tlift {S A} (r : result A) : txn S A :=
  λ s, match r with Ok a => Ok (a, s) | Raise e => Raise e end.

Definition pret {S A} (a : A) : prog S A := λ s, (Ok a, s).
Definition praise {S A} (e : py_error) : prog S A := λ s, (Raise e, s).
Definition pbind {S A B} (m : prog S A) (k : A → prog S B) : prog S B :=
  λ s, match m s with
       | (Ok a, s') => k a s'
       | (Raise e, s') => (Raise e, s')
       end.
Definition pget {S A} (f : S → A) : prog S A := λ s, (Ok (f s), s).

(** A continuation that only reads leaves the state of its first part. *)
Lemma pbind_frame {S A B} (m : prog S A) (k : A → prog S B) s :
  (∀ a s, (k a s).2 = s) → (pbind m k s).2 = (m s).2.
Proof. intros Hk. unfold pbind. destruct (m s) as [[a|e] s']; [apply Hk|done]. Qed.

(** A sequence that returned went through its first part. *)
Lemma pbind_Ok {S A B} (m : prog S A) (k : A → prog S B) s b s' :
  pbind m k s = (Ok b, s') → ∃ a s1, m s = (Ok a, s1) ∧ k a s1 = (Ok b, s').
Proof. unfold pbind. destruct (m s) as [[a|e] s1]; [by eauto|done]. Qed.

Lemma rbind_Ok {A B} (m : result A) (k : A → result B) b : rbind m k = Ok b → ∃ a, m = Ok a ∧ k a = Ok b.
Proof. destruct m as [a|e]; [by eauto|done]. Qed.

(** What a program leaves alone. *)
Definition keeps {S R A} (table : S → R) (p : prog S A) : Prop := ∀ s, table (p s).2 = table s.

Lemma keeps_bind {S R A B} (table : S → R) (m : prog S A) (k : A → prog S B) :
  keeps table m → (∀ a, keeps table (k a)) → keeps table (pbind m k).
Proof.
  intros Hm Hk s. unfold pbind. specialize (Hm s). destruct (m s) as [[a|e] s1]; [|done].
  by rewrite Hk.
Qed.
Lemma keeps_ret {S R A} (table : S → R) (a : A) : keeps table (pret a).
Proof. by intros s. Qed.
Lemma keeps_get {S R A} (table : S → R) (f : S → A) : keeps table (pget f).
Proof. by intros s. Qed.

(** A read that may raise. *)
Definition pread {S A} (f : S → result A) : prog S A := λ s, (f s, s).

Notation "'let!' x ':=' m 'in' k" := (rbind m (λ x, k))
  (at level 10, x pattern, m at level 100, k at level 200) : yeoman_scope.
Notation "'let*' x ':=' m 'in' k" := (pbind m (λ x, k))
  (at level 10, x pattern, m at level 100, k at level 200) : yeoman_scope.
Notation "'do*' m 'in' k" := (pbind m (λ _, k))
  (at level 10, m at level 100, k at level 200) : yeoman_scope.
Notation "'let+' x ':=' m 'in' k" := (tbind m (λ x, k))
  (at level 10, x pattern, m at level 100, k at level 200) : yeoman_scope.
Notation "'do+' m 'in' k" := (tbind m (λ _, k))
  (at level 10, m at level 100, k at level 200) : yeoman_scope.

(** ** Record update

    [r <| f := v |>] replaces field [f] of [r]. The setter of a projection is found by
    abstracting the projection in the eta-expansion of the record, which an instance of
    [Updatable] gives. *)

Class Updatable (R : Type) := eta_record : R → R.
Class FieldSetter {R T : Type} (proj : R → T) := set_field : (T → T) → R → R.
Arguments set_field {R T} proj {_} f r /.

Ltac solve_field_setter :=
  match goal with
  | |- @FieldSetter ?R ?T ?proj =>
      let eta := eval cbv beta delta [eta_record] in (@eta_record R _) in
      let eta' := eval hnf in eta in
      match eval pattern proj in eta' with
      | ?F _ => let s := eval cbv beta in (λ (f : T → T), F (λ r : R, f (proj r))) in exact s
      end
  end.
#[export] Hint Extern 1 (FieldSetter _) => solve_field_setter : typeclass_instances.

Notation "r <| f := v |>" := (set_field f (λ _, v) r)
  (at level 1, left associativity, f at level 0, v at level 99) : yeoman_scope.
Notation "r <| f ::= g |>" := (set_field f g r)
  (at level 1, left associativity, f at level 0, g at level 99) : yeoman_scope.

(** ** Booleans and options *)

Definition str_eqb (a b : string) : bool := String.eqb a b.
Infix "=?s" := str_eqb (at level 70, no associativity) : yeoman_scope.

Lemma str_eqb_eq a b : (a =?s b) = true ↔ a = b.
Proof. apply String.eqb_eq. Qed.
Lemma str_eqb_refl a : (a =?s a) = true.
Proof. by apply str_eqb_eq. Qed.
Lemma str_eqb_neq a b : (a =?s b) = false ↔ a ≠ b.
Proof. apply String.eqb_neq. Qed.
Lemma str_eqb_sym a b : (a =?s b) = (b =?s a).
Proof. apply String.eqb_sym. Qed.

(** Membership in a tuple of strings: [x in (a, b, ...)]. *)
Definition str_in (x : string) (l : list string) : bool := existsb (str_eqb x) l.

Lemma str_in_spec x l : str_in x l = true ↔ x ∈ l.
Proof.
  unfold str_in. rewrite existsb_exists. rewrite list_elem_of_In. split.
  - intros (y & Hy & ->%str_eqb_eq). done.
  - intros Hx. exists x. by rewrite str_eqb_refl.
Qed.

(** Comparison of nullable columns / optional Python values. *)
Definition opt_str_eqb (a b : option string) : bool :=
  match a, b with
  | Some x, Some y => x =?s y
  | None, None => true
  | _, _ => false
  end.

Lemma opt_str_eqb_eq a b : opt_str_eqb a b = true ↔ a = b.
Proof.
  destruct a, b; simpl; rewrite ?str_eqb_eq; split; congruence.
Qed.

Definition is_none {A} (o : option A) : bool := match o with None => true | _ => false end.
Definition is_some {A} (o : option A) : bool := negb (is_none o).

(** Python truthiness of a string: the empty string is false. *)
Definition str_true (s : string) : bool := negb (s =?s "").

Lemma str_true_spec s : str_true s = true ↔ s ≠ "".
Proof. unfold str_true. rewrite negb_true_iff. apply str_eqb_neq. Qed.

(** ** Python string helpers *)

(** Whitespace that [str.strip] removes (the ASCII part). *)
Definition is_space (c : Ascii.ascii) : bool :=
  let n := Ascii.nat_of_ascii c in
  (n =? 32)%nat || ((9 <=? n)%nat && (n <=? 13)%nat) || ((28 <=? n)%nat && (n <=? 31)%nat).

Fixpoint lstrip (s : string) : string :=
  match s with
  | EmptyString => EmptyString
  | String c s' => if is_space c then lstrip s' else s
  end.

Fixpoint rstrip (s : string) : string :=
  match s with
  | EmptyString => EmptyString
  | String c s' =>
      match rstrip s' with
      | EmptyString => if is_space c then EmptyString else String c EmptyString
      | t => String c t
      end
  end.

(** [s.strip()] *)
Definition py_strip (s : string) : string := rstrip (lstrip s).

Definition digit_value (c : Ascii.ascii) : option Z :=
  let n := Ascii.nat_of_ascii c in
  if (48 <=? n)%nat && (n <=? 57)%nat then Some (Z.of_nat n - 48) else None.

Fixpoint parse_digits (s : string) (acc : Z) (prev_digit : bool) : option Z :=
  match s with
  | EmptyString => if prev_digit then Some acc else None
  | String c s' =>
      match digit_value c with
      | Some d => parse_digits s' (acc * 10 + d) true
      | None => if (Ascii.nat_of_ascii c =? 95)%nat && prev_digit
                then parse_digits s' acc false else None
      end
  end.

(** [int(s, 10)] on an already stripped string; [None] is the [ValueError]. *)
Definition py_int (s : string) : option Z :=
  match s with
  | String c s' =>
      if (Ascii.nat_of_ascii c =? 45)%nat then Z.opp <$> parse_digits s' 0 false
      else if (Ascii.nat_of_ascii c =? 43)%nat then parse_digits s' 0 false
      else parse_digits s 0 false
  | EmptyString => None
  end.

Definition lower_char (c : ascii) : ascii :=
  let n := nat_of_ascii c in
  if (65 <=? n)%nat && (n <=? 90)%nat then ascii_of_nat (n + 32) else c.

(** [s.lower()] (the ASCII part) *)
Fixpoint py_lower (s : string) : string :=
  match s with
  | EmptyString => EmptyString
  | String c s' => String (lower_char c) (py_lower s')
  end.

(** [needle in s] *)
Fixpoint py_contains (needle s : string) : bool :=
  String.prefix needle s
  || match s with EmptyString => false | String _ s' => py_contains needle s' end.

(** [s.split(":", 1)[0]] for a one-character separator *)
Fixpoint before_char (n : nat) (s : string) : string :=
  match s with
  | EmptyString => EmptyString
  | String c s' => if (nat_of_ascii c =? n)%nat then EmptyString else String c (before_char n s')
  end.

(** ** The string order *)

Lemma ascii_compare_trans a b c d :
  Ascii.compare a b = d → Ascii.compare b c = d → Ascii.compare a c = d.
Proof.
  unfold Ascii.compare.
  set (x := N_of_ascii a). set (y := N_of_ascii b). set (z := N_of_ascii c).
  destruct d; rewrite ?N.compare_eq_iff, ?N.compare_lt_iff, ?N.compare_gt_iff; lia.
Qed.

Lemma ascii_compare_eq a b : Ascii.compare a b = Eq → a = b.
Proof. apply Ascii.compare_eq_iff. Qed.

Lemma string_leb_cons a s b t :
  String.leb (String a s) (String b t) =
    match Ascii.compare a b with Eq => String.leb s t | Lt => true | Gt => false end.
Proof. unfold String.leb. simpl. by destruct (Ascii.compare a b). Qed.

Lemma ascii_compare_refl a : Ascii.compare a a = Eq.
Proof. unfold Ascii.compare. apply N.compare_refl. Qed.

Lemma string_leb_trans a b c :
  String.leb a b = true → String.leb b c = true → String.leb a c = true.
Proof.
  revert b c. induction a as [|x a IH]; intros [|y b] [|z c]; try done.
  rewrite !string_leb_cons.
  destruct (Ascii.compare x y) eqn:Exy; [|intros _|done];
    destruct (Ascii.compare y z) eqn:Eyz; try done.
  - rewrite (ascii_compare_trans _ _ _ _ Exy Eyz). apply IH.
  - apply ascii_compare_eq in Exy as ->. by rewrite Eyz.
  - apply ascii_compare_eq in Eyz as ->. by rewrite Exy.
  - by rewrite (ascii_compare_trans _ _ _ _ Exy Eyz).
Qed.
