(* ===== verification/Tables.v ===== *)
(** * Tables

    The relational operations of the SQLite store, on a table kept as the list of its
    rows in rowid order: SELECT, INSERT, UPDATE, DELETE, COUNT, ORDER BY and LIMIT, with
    the lemmas about primary keys that the components share. *)

From Stdlib Require Import ZArith Lia.
From S2P Require Import Prelude.

Section Table.
  Context {R : Type}.
  Implicit Types (p q : R → bool) (f : R → R) (t : list R) (r : R).

(** [SELECT * FROM t WHERE p] *)
Definition select (p : R → bool) (t : list R) : list R := List.filter p t.

(** [SELECT ... WHERE p LIMIT 1 / fetchone()] *)
Definition fetchone (p : R → bool) (t : list R) : option R := List.find p t.

(** [EXISTS (SELECT 1 FROM t WHERE p)] *)
Definition row_exists (p : R → bool) (t : list R) : bool := existsb p t.

(** [UPDATE t SET f WHERE p] *)
Definition update (p : R → bool) (f : R → R) (t : list R) : list R :=
  map (λ r, if p r then f r else r) t.

(** [cursor.rowcount] of an UPDATE or DELETE, and [COUNT( * )] *)
Definition rowcount (p : R → bool) (t : list R) : nat := length (select p t).

(** [DELETE FROM t WHERE p] *)
Definition delete_rows (p : R → bool) (t : list R) : list R := List.filter (λ r, negb (p r)) t.

(** [INSERT INTO t VALUES r] *)
Definition insert_row (r : R) (t : list R) : list R := t ++ [r].

(** [INSERT OR IGNORE]: nothing happens when [clash] holds of a stored row. *)
Definition insert_or_ignore (clash : R → bool) (r : R) (t : list R) : list R :=
  if row_exists clash t then t else insert_row r t.

  (** *** Lookup lemmas *)

Lemma fetchone_Some_inv p t r : fetchone p t = Some r → r ∈ t ∧ p r = true.
Proof. intros [H1 H2]%find_some. by rewrite list_elem_of_In. Qed.

Lemma fetchone_None_inv p t r : fetchone p t = None → r ∈ t → p r = false.
Proof. intros H Hr%list_elem_of_In. by eapply find_none. Qed.

Lemma fetchone_None p t : (∀ r, r ∈ t → p r = false) → fetchone p t = None.
Proof.
  intros H. unfold fetchone. destruct (find p t) as [r|] eqn:E; [|done].
  apply find_some in E as [H1%list_elem_of_In H2]. by rewrite (H _ H1) in H2.
Qed.

Lemma fetchone_ext p q t : (∀ r, r ∈ t → p r = q r) → fetchone p t = fetchone q t.
Proof.
  intros H. unfold fetchone. induction t as [|r t IH]; [done|]. simpl.
  rewrite (H r) by set_solver. destruct (q r); [done|]. apply IH. set_solver.
Qed.

Lemma fetchone_app p t1 t2 :
  fetchone p (t1 ++ t2) = match fetchone p t1 with Some r => Some r | None => fetchone p t2 end.
Proof. unfold fetchone. induction t1 as [|r t1 IH]; [done|]. simpl. by destruct (p r). Qed.

Lemma fetchone_insert_row p r t :
  fetchone p (insert_row r t) =
    match fetchone p t with Some r' => Some r' | None => if p r then Some r else None end.
Proof. unfold insert_row. rewrite fetchone_app. simpl. by destruct (p r). Qed.

(** An UPDATE that keeps the looked-up predicate changes the found row in place. *)
Lemma fetchone_update p q f t :
  (∀ r, q r = true → p (f r) = p r) →
  fetchone p (update q f t) = (λ r, if q r then f r else r) <$> fetchone p t.
Proof.
  intros H. unfold fetchone, update. induction t as [|r t IH]; [done|]. simpl.
  destruct (q r) eqn:Hq; [rewrite H by done|]; destruct (p r); simpl; rewrite ?Hq; done.
Qed.

Lemma fetchone_delete_keep p q t :
  (∀ r, r ∈ t → p r = true → q r = false) → fetchone p (delete_rows q t) = fetchone p t.
Proof.
  intros H. unfold fetchone, delete_rows. induction t as [|r t IH]; [done|]. simpl.
  destruct (p r) eqn:Hp.
  - rewrite (H r) by (done || set_solver). simpl. by rewrite Hp.
  - destruct (q r); simpl; rewrite ?Hp; apply IH; set_solver.
Qed.

Lemma row_exists_spec p t : row_exists p t = true ↔ ∃ r, r ∈ t ∧ p r = true.
Proof.
  unfold row_exists. rewrite existsb_exists. by setoid_rewrite list_elem_of_In.
Qed.

Lemma row_exists_false p t : row_exists p t = false ↔ ∀ r, r ∈ t → p r = false.
Proof.
  rewrite <- not_true_iff_false, row_exists_spec. split.
  - intros H r Hr. destruct (p r) eqn:E; [|done]. exfalso. eauto.
  - intros H (r & Hr & Hp). rewrite (H r Hr) in Hp. done.
Qed.

Lemma fetchone_row_exists p t : row_exists p t = is_some (fetchone p t).
Proof.
  unfold row_exists, fetchone. induction t as [|r t IH]; [done|]. simpl. by destruct (p r).
Qed.

  (** *** Membership *)

Lemma elem_of_select p t r : r ∈ select p t ↔ r ∈ t ∧ p r = true.
Proof. unfold select. rewrite !list_elem_of_In. apply filter_In. Qed.

Lemma elem_of_delete_rows p t r : r ∈ delete_rows p t ↔ r ∈ t ∧ p r = false.
Proof.
  unfold delete_rows. rewrite !list_elem_of_In, filter_In. by rewrite negb_true_iff.
Qed.

Lemma elem_of_update p f t r :
  r ∈ update p f t ↔ ∃ r0, r0 ∈ t ∧ r = if p r0 then f r0 else r0.
Proof. unfold update. rewrite list_elem_of_fmap. naive_solver. Qed.

Lemma elem_of_insert_row r r' t : r' ∈ insert_row r t ↔ r' ∈ t ∨ r' = r.
Proof. unfold insert_row. set_solver. Qed.

Lemma elem_of_insert_or_ignore c r r' t :
  r' ∈ insert_or_ignore c r t → r' ∈ t ∨ r' = r.
Proof. unfold insert_or_ignore. destruct row_exists; rewrite ?elem_of_insert_row; auto. Qed.

Lemma insert_or_ignore_keeps c r r' t : r' ∈ t → r' ∈ insert_or_ignore c r t.
Proof. unfold insert_or_ignore. destruct row_exists; rewrite ?elem_of_insert_row; auto. Qed.

  (** *** UPDATE and COUNT *)

Lemma length_update p f t : length (update p f t) = length t.
Proof. apply length_map. Qed.

Lemma update_ext p q f g t :
  (∀ r, r ∈ t → (if p r then f r else r) = (if q r then g r else r)) →
  update p f t = update q g t.
Proof. intros H. unfold update. apply map_ext_in. intros r Hr%list_elem_of_In. auto. Qed.

Lemma update_none p f t : (∀ r, r ∈ t → p r = false) → update p f t = t.
Proof.
  intros H. unfold update. rewrite <- (map_id t) at 2. apply map_ext_in.
  intros r Hr%list_elem_of_In. by rewrite H.
Qed.

Lemma rowcount_zero p t : rowcount p t = 0%nat ↔ ∀ r, r ∈ t → p r = false.
Proof.
  unfold rowcount. split.
  - intros H%nil_length_inv r Hr. destruct (p r) eqn:E; [|done]. exfalso.
    assert (r ∈ select p t) as Hs by (by rewrite elem_of_select). rewrite H in Hs. set_solver.
  - intros H. destruct (select p t) as [|r l] eqn:E; [done|]. exfalso.
    assert (r ∈ select p t) as Hs by (rewrite E; set_solver).
    apply elem_of_select in Hs as [Hs Hp]. by rewrite (H _ Hs) in Hp.
Qed.

Lemma rowcount_app p t1 t2 : rowcount p (t1 ++ t2) = (rowcount p t1 + rowcount p t2)%nat.
Proof. unfold rowcount, select. by rewrite List.filter_app, length_app. Qed.

Lemma rowcount_insert_row p r t :
  rowcount p (insert_row r t) = (rowcount p t + if p r then 1 else 0)%nat.
Proof.
  unfold insert_row. rewrite rowcount_app. unfold rowcount at 2, select. simpl.
  by destruct (p r).
Qed.

Lemma rowcount_le_length p t : (rowcount p t ≤ length t)%nat.
Proof. unfold rowcount, select. apply filter_length_le. Qed.

Lemma select_select p q t : select p (select q t) = select (λ r, q r && p r) t.
Proof.
  unfold select. induction t as [|r t IH]; [done|]. simpl.
  destruct (q r); simpl; [destruct (p r); by rewrite IH|done].
Qed.

End Table.

(** ** Primary keys *)

Section Keyed.
  Context {R K : Type} (key : R → K).
  Implicit Types (p : R → bool) (f : R → R) (t : list R).

(** UNIQUE / PRIMARY KEY on [key]. *)
Definition unique_key (t : list R) : Prop := NoDup (key <$> t).

Lemma unique_key_nil : unique_key [].
Proof. constructor. Qed.

Lemma unique_key_insert r t :
  unique_key t → (∀ r', r' ∈ t → key r' ≠ key r) → unique_key (insert_row r t).
Proof.
  unfold unique_key, insert_row. rewrite fmap_app. intros Ht Hr. apply NoDup_app. split; [done|].
  split; [|apply NoDup_singleton]. intros k Hk Hk'.
  apply list_elem_of_fmap in Hk as (r' & -> & Hr'). simpl in Hk'.
  apply list_elem_of_singleton in Hk'. by eapply Hr.
Qed.

Lemma unique_key_update p f t :
  (∀ r, p r = true → key (f r) = key r) → unique_key t → unique_key (update p f t).
Proof.
  intros Hf. unfold unique_key, update.
  enough (key <$> map (λ r, if p r then f r else r) t = key <$> t) as -> by done.
  induction t as [|r t IH]; [done|]. simpl. f_equal; [|done].
  destruct (p r) eqn:E; auto.
Qed.

Lemma unique_key_filter (p : R → bool) t : unique_key t → unique_key (List.filter p t).
Proof.
  unfold unique_key. induction t as [|r t IH]; [done|]. simpl. rewrite NoDup_cons.
  intros [Hr Ht]. destruct (p r); [|by apply IH]. simpl. apply NoDup_cons. split; [|by apply IH].
  rewrite list_elem_of_fmap. intros (r' & Hk & Hr'). apply Hr. rewrite list_elem_of_fmap.
  exists r'. split; [done|]. apply list_elem_of_In in Hr'. apply filter_In in Hr' as [Hr' _].
  by apply list_elem_of_In.
Qed.

Lemma unique_key_inj t r1 r2 :
  unique_key t → r1 ∈ t → r2 ∈ t → key r1 = key r2 → r1 = r2.
Proof.
  unfold unique_key. induction t as [|r t IH]; [set_solver|]. simpl. rewrite NoDup_cons.
  intros [Hr Ht] [->|H1]%elem_of_cons [->|H2]%elem_of_cons Hk; auto.
  - exfalso. apply Hr. rewrite Hk. by apply list_elem_of_fmap_2.
  - exfalso. apply Hr. rewrite <- Hk. by apply list_elem_of_fmap_2.
Qed.

(** A guarded statement on one key touches at most the row a lookup finds. *)
Lemma rowcount_same k (same q : R → bool) t :
  (∀ r, same r = true ↔ key r = k) → unique_key t →
  rowcount (λ r, same r && q r) t =
    match fetchone same t with Some r => if q r then 1 else 0 | None => 0 end%nat.
Proof.
  unfold unique_key. intros Hsame Hu. unfold rowcount, select, fetchone.
  induction t as [|r t IH]; [done|]. simpl in *. apply NoDup_cons in Hu as [Hr Hu].
  destruct (same r) eqn:Ek; simpl; [|by apply IH].
  apply Hsame in Ek.
  assert (List.filter (λ r', same r' && q r') t = []) as E0.
  { apply nil_length_inv. apply (rowcount_zero (λ r', same r' && q r')).
    intros r' Hr'. apply andb_false_iff. left. apply not_true_iff_false. intros E%Hsame.
    apply Hr. rewrite list_elem_of_fmap. exists r'. split; [congruence|done]. }
  destruct (q r); simpl; by rewrite E0.
Qed.

End Keyed.

(** ** Lookup by a string primary key *)

Section ById.
  Context {R : Type} (key : R → string).
  Implicit Types (p : R → bool) (f : R → R) (t : list R).

Definition has_id (k : string) (r : R) : bool := key r =?s k.
Definition by_id (k : string) (t : list R) : option R := fetchone (has_id k) t.

Lemma by_id_Some_inv k t r : by_id k t = Some r → r ∈ t ∧ key r = k.
Proof. intros [H1 H2]%fetchone_Some_inv. split; [done|]. by apply str_eqb_eq. Qed.

Lemma by_id_None_inv k t r : by_id k t = None → r ∈ t → key r ≠ k.
Proof. intros H Hr. eapply fetchone_None_inv in Hr; [|done]. by apply str_eqb_neq. Qed.

Lemma by_id_elem t r : unique_key key t → r ∈ t → by_id (key r) t = Some r.
Proof.
  intros Hu Hr. unfold by_id. destruct (fetchone _ t) as [r'|] eqn:E.
  - apply fetchone_Some_inv in E as [H1 H2%str_eqb_eq]. f_equal. by eapply unique_key_inj.
  - eapply fetchone_None_inv in E; [|done]. unfold has_id in E. by rewrite str_eqb_refl in E.
Qed.

Lemma by_id_update k p f t :
  (∀ r, p r = true → key (f r) = key r) →
  by_id k (update p f t) = (λ r, if p r then f r else r) <$> by_id k t.
Proof. intros H. apply fetchone_update. intros r Hp. unfold has_id. by rewrite H. Qed.

Lemma by_id_insert k r t :
  by_id k (insert_row r t) =
    match by_id k t with Some r' => Some r' | None => if key r =?s k then Some r else None end.
Proof. unfold by_id. by rewrite fetchone_insert_row. Qed.

Lemma rowcount_by_id k p t :
  unique_key key t →
  rowcount (λ r, has_id k r && p r) t =
    match by_id k t with Some r => if p r then 1 else 0 | None => 0 end%nat.
Proof. intros Hu. apply (rowcount_same key k); [|done]. intros r. apply str_eqb_eq. Qed.

End ById.

(** ** ORDER BY and LIMIT

    A stable insertion sort by a boolean preorder; the SQL queries sort by a total order
    ending in a primary key, Python's [sorted] is stable. *)

Section OrderBy.
  Context {R : Type} (leb : R → R → bool).

Fixpoint insert_sorted (x : R) (l : list R) : list R :=
  match l with
  | [] => [x]
  | y :: l' => if leb x y then x :: l else y :: insert_sorted x l'
  end.

Fixpoint order_by (l : list R) : list R :=
  match l with
  | [] => []
  | x :: l' => insert_sorted x (order_by l')
  end.

Lemma insert_sorted_perm x l : insert_sorted x l ≡ₚ x :: l.
Proof.
  induction l as [|y l IH]; [done|]. simpl. destruct (leb x y); [done|].
  rewrite IH. apply Permutation_swap.
Qed.

Lemma order_by_perm l : order_by l ≡ₚ l.
Proof. induction l as [|x l IH]; [done|]. simpl. by rewrite insert_sorted_perm, IH. Qed.

Lemma elem_of_order_by x l : x ∈ order_by l ↔ x ∈ l.
Proof. by rewrite order_by_perm. Qed.

Lemma length_order_by l : length (order_by l) = length l.
Proof. apply Permutation_length, order_by_perm. Qed.

Lemma order_by_sorted l :
  (∀ x y, leb x y = true ∨ leb y x = true) →
  (∀ x y z, leb x y = true → leb y z = true → leb x z = true) →
  StronglySorted (λ x y, leb x y = true) (order_by l).
Proof.
  intros Htot Htrans. induction l as [|x l IH]; simpl; [constructor|].
  remember (order_by l) as m eqn:E. clear E.
  induction m as [|y m IHm]; simpl; [by repeat constructor|].
  apply StronglySorted_inv in IH as [Hm Hy].
  destruct (leb x y) eqn:Exy.
  - constructor; [by constructor|]. constructor; [done|].
    eapply Forall_impl; [exact Hy|]. simpl. eauto.
  - constructor; [by apply IHm|]. rewrite insert_sorted_perm. constructor; [|done].
    destruct (Htot x y) as [H|H]; [congruence|done].
Qed.

End OrderBy.

(** Lexicographic comparison on (timestamp, id), the ORDER BY of most queries. *)
Definition time_id_leb (a b : Z * string) : bool :=
  (a.1 <? b.1) || ((a.1 =? b.1) && String.leb a.2 b.2).

Lemma time_id_leb_total a b : time_id_leb a b = true ∨ time_id_leb b a = true.
Proof.
  unfold time_id_leb. destruct a as [t x], b as [u y]; simpl.
  destruct (Z.lt_trichotomy t u) as [Hlt|[->|Hlt]].
  - left. apply orb_true_iff. left. lia.
  - rewrite Z.ltb_irrefl, Z.eqb_refl. simpl. apply String.leb_total.
  - right. apply orb_true_iff. left. lia.
Qed.

Lemma time_id_leb_trans a b c :
  time_id_leb a b = true → time_id_leb b c = true → time_id_leb a c = true.
Proof.
  unfold time_id_leb. destruct a as [t x], b as [u y], c as [v z]; simpl.
  rewrite !orb_true_iff, !andb_true_iff. intros [H1|[H1 H1']] [H2|[H2 H2']]; try (left; lia).
  right. split; [lia|]. by eapply string_leb_trans.
Qed.

(** ** Sorting commutes with selecting *)

Section SortSelect.
  Context {R : Type} (leb : R → R → bool) (q : R → bool).
  Context (leb_total : ∀ x y, leb x y = true ∨ leb y x = true).
  Context (leb_trans : ∀ x y z, leb x y = true → leb y z = true → leb x z = true).

Lemma insert_sorted_first x (l : list R) :
  Forall (λ y, leb x y = true) l → insert_sorted leb x l = x :: l.
Proof. destruct 1 as [|y l Hy _]; simpl; [done|]. by rewrite Hy. Qed.

Lemma filter_insert_sorted x (l : list R) :
  StronglySorted (λ x y, leb x y = true) l →
  List.filter q (insert_sorted leb x l) =
    if q x then insert_sorted leb x (List.filter q l) else List.filter q l.
Proof.
  induction l as [|y l IH]; intros Hs; simpl; [by destruct (q x)|].
  apply StronglySorted_inv in Hs as [Hs Hy].
  destruct (leb x y) eqn:Exy.
  - assert (insert_sorted leb x (List.filter q (y :: l)) = x :: List.filter q (y :: l)) as Hf.
    { apply insert_sorted_first. rewrite Forall_forall. intros z Hz.
      apply list_elem_of_In, filter_In in Hz as [[->|Hz] _]; [done|].
      rewrite Forall_forall in Hy. apply (leb_trans _ y); [done|]. by apply Hy, list_elem_of_In. }
    simpl in *. destruct (q x); [by rewrite Hf|done].
  - simpl. rewrite IH by done. destruct (q y), (q x); simpl; rewrite ?Exy; done.
Qed.

Lemma order_by_select (l : list R) : order_by leb (select q l) = select q (order_by leb l).
Proof.
  induction l as [|x l IH]; [done|]. simpl. unfold select in *.
  rewrite filter_insert_sorted by (by apply order_by_sorted). rewrite <- IH.
  by destruct (q x).
Qed.

End SortSelect.

Lemma rowcount_perm {R} (p : R → bool) t t' : t ≡ₚ t' → rowcount p t = rowcount p t'.
Proof.
  unfold rowcount, select. induction 1 as [|x t t' _ IH|x y t|t t1 t2 _ IH1 _ IH2]; simpl.
  - done.
  - destruct (p x); simpl; lia.
  - by destruct (p x), (p y).
  - lia.
Qed.

Lemma rowcount_mono {R} (p q : R → bool) t :
  (∀ r, r ∈ t → p r = true → q r = true) → (rowcount p t ≤ rowcount q t)%nat.
Proof.
  unfold rowcount, select. induction t as [|r t IH]; intros Hpq; simpl; [done|].
  assert (length (List.filter p t) ≤ length (List.filter q t))%nat as Ht
    by (apply IH; intros; apply Hpq; [set_solver|done]).
  destruct (p r) eqn:Ep; [rewrite (Hpq r) by (done || set_solver); simpl; lia|].
  destruct (q r); simpl; lia.
Qed.
