(* ===== verification/Json.v ===== *)
(** * Json

    JSON values as the processing core handles them, Python's [str], [repr] and truth
    test on them, and the canonical text every stored hash is taken over
    ([canonical_json] and [canonical_hash] of [processing/models.py]).

    Strings are UTF-8 byte strings. A float is carried as its [repr] text. SHA-256 is the
    interface [Sha256]: no theorem needs more of it than that it is a function, unless it
    says so. *)

From Stdlib Require Import ZArith Lia Ascii.
From S2P Require Import Prelude Tables.

Inductive json :=
| JNull
| JBool (b : bool)
| JInt (z : Z)
| JFloat (text : string)
| JStr (s : string)
| JArr (items : list json)
| JObj (fields : list (string * json)).

(** A Python dict with string keys, in insertion order. *)
Abbreviation dict := (list (string * json)).

(** [d.get(k)] *)
Fixpoint dict_get (k : string) (d : dict) : option json :=
  match d with
  | [] => None
  | (k', v) :: d' => if k' =?s k then Some v else dict_get k d'
  end.

(** [k in d] *)
Definition dict_has (k : string) (d : dict) : bool := is_some (dict_get k d).

(** Truth value of a JSON value ([bool(x)]); an absent key is [None]. *)
Definition truthy (v : json) : bool :=
  match v with
  | JNull => false
  | JBool b => b
  | JInt z => negb (z =? 0)
  | JFloat t => negb (str_in t ["0.0"; "-0.0"])
  | JStr s => str_true s
  | JArr l => negb (is_none (head l))
  | JObj d => negb (is_none (head d))
  end.

Definition opt_truthy (o : option json) : bool :=
  match o with Some v => truthy v | None => false end.

(** [a or b] on [dict.get] results. *)
Definition py_or (a b : option json) : option json := if opt_truthy a then a else b.

(** ** String rendering *)

Fixpoint join (sep : string) (l : list string) : string :=
  match l with
  | [] => ""
  | [x] => x
  | x :: l' => x +:+ sep +:+ join sep l'
  end.

Definition char (n : nat) : string := String (ascii_of_nat n) EmptyString.
Definition quote_mark : string := char 34.
Definition backslash : string := char 92.

Definition hex_digit (n : nat) : string :=
  nth n ["0"; "1"; "2"; "3"; "4"; "5"; "6"; "7"; "8"; "9"; "a"; "b"; "c"; "d"; "e"; "f"] "".

(** [json.dumps] escaping with [ensure_ascii=False]: quote, backslash and the control
    characters below 0x20. *)
Definition json_escape_char (c : ascii) : string :=
  let n := nat_of_ascii c in
  if (n =? 34)%nat then backslash +:+ quote_mark
  else if (n =? 92)%nat then backslash +:+ backslash
  else if (n =? 10)%nat then backslash +:+ "n"
  else if (n =? 13)%nat then backslash +:+ "r"
  else if (n =? 9)%nat then backslash +:+ "t"
  else if (n =? 8)%nat then backslash +:+ "b"
  else if (n =? 12)%nat then backslash +:+ "f"
  else if (n <? 32)%nat
       then backslash +:+ "u00" +:+ hex_digit (n / 16)%nat +:+ hex_digit (n mod 16)%nat
  else String c EmptyString.

Fixpoint json_escape (s : string) : string :=
  match s with
  | EmptyString => EmptyString
  | String c s' => json_escape_char c +:+ json_escape s'
  end.

Definition json_quote (s : string) : string := quote_mark +:+ json_escape s +:+ quote_mark.

Definition key_leb {A} (a b : string * A) : bool := String.leb a.1 b.1.

Definition json_field (p : string * string) : string := json_quote p.1 +:+ ":" +:+ p.2.

(** [json.dumps(value, sort_keys=True, separators=(",", ":"), ensure_ascii=False)] *)
Fixpoint canonical_json (v : json) : string :=
  match v with
  | JNull => "null"
  | JBool true => "true"
  | JBool false => "false"
  | JInt z => pretty z
  | JFloat t => t
  | JStr s => json_quote s
  | JArr l => "[" +:+ join "," (map canonical_json l) +:+ "]"
  | JObj d =>
      "{" +:+ join "," (map json_field
                          (order_by key_leb (map (λ p, (p.1, canonical_json p.2)) d))) +:+ "}"
  end.

(** Python [repr] of a string and of a JSON value; bytes from 0x80 on belong to printable
    characters. *)
Definition repr_char (q : nat) (c : ascii) : string :=
  let n := nat_of_ascii c in
  if (n =? 92)%nat then backslash +:+ backslash
  else if (n =? q)%nat then backslash +:+ char q
  else if (n =? 10)%nat then backslash +:+ "n"
  else if (n =? 13)%nat then backslash +:+ "r"
  else if (n =? 9)%nat then backslash +:+ "t"
  else if (n <? 32)%nat || (n =? 127)%nat
       then backslash +:+ "x" +:+ hex_digit (n / 16)%nat +:+ hex_digit (n mod 16)%nat
  else String c EmptyString.

Fixpoint has_char (n : nat) (s : string) : bool :=
  match s with
  | EmptyString => false
  | String c s' => (nat_of_ascii c =? n)%nat || has_char n s'
  end.

Definition repr_str (s : string) : string :=
  let q := if has_char 39 s && negb (has_char 34 s) then 34%nat else 39%nat in
  char q +:+ (fix go s := match s with
                          | EmptyString => EmptyString
                          | String c s' => repr_char q c +:+ go s'
                          end) s +:+ char q.

Fixpoint py_repr (v : json) : string :=
  match v with
  | JNull => "None"
  | JBool true => "True"
  | JBool false => "False"
  | JInt z => pretty z
  | JFloat t => t
  | JStr s => repr_str s
  | JArr l => "[" +:+ join ", " (map py_repr l) +:+ "]"
  | JObj d => "{" +:+ join ", " (map (λ p, repr_str p.1 +:+ ": " +:+ py_repr p.2) d) +:+ "}"
  end.

(** [str(x)] *)
Definition py_str (v : json) : string :=
  match v with JStr s => s | _ => py_repr v end.

(** [d[k] = v] *)
Fixpoint dict_set (k : string) (v : json) (d : dict) : dict :=
  match d with
  | [] => [(k, v)]
  | (k', v') :: d' => if k' =?s k then (k', v) :: d' else (k', v') :: dict_set k v d'
  end.

Lemma dict_get_set k v d : dict_get k (dict_set k v d) = Some v.
Proof.
  unfold dict_get. induction d as [|[k' v'] d IH]; cbn; [by rewrite str_eqb_refl|].
  destruct (k' =?s k) eqn:E; cbn; rewrite ?E; [done|exact IH].
Qed.

Lemma dict_get_set_ne k k' v d : k' ≠ k → dict_get k' (dict_set k v d) = dict_get k' d.
Proof.
  intros Hk. induction d as [|[x y] d IH]; cbn.
  - destruct (k =?s k') eqn:E; [apply str_eqb_eq in E; congruence|done].
  - destruct (x =?s k) eqn:E; cbn.
    + apply str_eqb_eq in E as ->. destruct (k =?s k') eqn:E'; [apply str_eqb_eq in E'; congruence|done].
    + by rewrite IH.
Qed.

(** [str(d.get(k) or "")] *)
Definition str_or_empty (o : option json) : string :=
  match o with
  | Some v => if truthy v then py_str v else ""
  | None => ""
  end.

(** [_opt_str] of [processing/models.py]: [None] stays, an empty string becomes [None]. *)
Definition opt_str (o : option json) : option string :=
  match o with
  | None | Some JNull => None
  | Some v => let text := py_str v in if str_true text then Some text else None
  end.

(** ** Hashing *)

Class Sha256 := sha256_hex : string → string.

Definition canonical_hash `{Sha256} (v : json) : string := sha256_hex (canonical_json v).

(** A concrete (injective) stand-in, for evaluating examples. *)
Definition plain_sha256 : Sha256 := λ s, s.

(** [canonical_hash(v)[:n]] *)
Definition hash_prefix `{Sha256} (n : nat) (v : json) : string :=
  String.substring 0 n (canonical_hash v).

(** ** Canonical text does not depend on the insertion order of a dict *)

(** Two sorted permutations of entries with distinct keys are the same list. *)
Lemma sorted_perm_unique {A} (l1 l2 : list (string * A)) :
  StronglySorted (λ x y, key_leb x y = true) l1 →
  StronglySorted (λ x y, key_leb x y = true) l2 →
  NoDup (fst <$> l1) → l1 ≡ₚ l2 → l1 = l2.
Proof.
  revert l2. induction l1 as [|x l1 IH]; intros l2 Hs1 Hs2 Hnd Hp.
  { by apply Permutation_nil in Hp as ->. }
  destruct l2 as [|y l2]; [by symmetry in Hp; apply Permutation_nil in Hp|].
  apply StronglySorted_inv in Hs1 as [Hs1 Hx]. apply StronglySorted_inv in Hs2 as [Hs2 Hy].
  rewrite Forall_forall in Hx. rewrite Forall_forall in Hy.
  simpl in Hnd. apply NoDup_cons in Hnd as [Hnx Hnd].
  assert (x = y) as ->.
  { assert (y ∈ x :: l1) as Hyin by (rewrite Hp; set_solver).
    assert (x ∈ y :: l2) as Hxin by (rewrite <- Hp; set_solver).
    apply elem_of_cons in Hyin as [->|Hyin]; [done|].
    apply elem_of_cons in Hxin as [->|Hxin]; [done|].
    exfalso. apply Hnx. rewrite list_elem_of_fmap. exists y. split; [|done].
    apply String.leb_antisym; [by apply Hx|by apply Hy]. }
  f_equal. apply IH; try done. by eapply Permutation_cons_inv.
Qed.

Lemma order_by_key_perm {A} (l1 l2 : list (string * A)) :
  NoDup (fst <$> l1) → l1 ≡ₚ l2 → order_by key_leb l1 = order_by key_leb l2.
Proof.
  intros Hnd Hp.
  assert (∀ l : list (string * A), StronglySorted (λ x y, key_leb x y = true) (order_by key_leb l))
    as Hs.
  { intros l. apply order_by_sorted.
    - intros x y. apply String.leb_total.
    - intros x y z. apply string_leb_trans. }
  apply sorted_perm_unique; auto.
  - by rewrite order_by_perm.
  - by rewrite !order_by_perm.
Qed.

(** ** Theorems *)

(** The canonical text is independent of insertion order. Two dicts with the same
    entries, in any order, have the same canonical JSON and therefore the same hash. *)
Theorem canonical_json_order d1 d2 :
  NoDup (fst <$> d1) → d1 ≡ₚ d2 → canonical_json (JObj d1) = canonical_json (JObj d2).
Proof.
  intros Hnd Hp. simpl. rewrite (order_by_key_perm (map _ d1) (map (λ p, (p.1, canonical_json p.2)) d2));
    [done| |by apply Permutation_map].
  change (NoDup (fst <$> ((λ p, (p.1, canonical_json p.2)) <$> d1))).
  by rewrite <- list_fmap_compose.
Qed.

Lemma canonical_json_order_witness :
  canonical_json (JObj [("b", JInt 1); ("a", JStr "x")]) =
  canonical_json (JObj [("a", JStr "x"); ("b", JInt 1)]).
Proof.
  apply (canonical_json_order [("b", JInt 1); ("a", JStr "x")]).
  - apply (bool_decide_unpack _). by vm_compute.
  - apply Permutation_swap.
Defined.
