(* ===== verification/Models.v ===== *)
(** * Models

    [processing/models.py]: the effect state machine, the payload variants and their
    mapping form, targets, envelopes, decisions and stored effects. A dataclass whose
    [__post_init__] validates has a smart constructor [<Class>_init] returning a
    [result]. *)

From Stdlib Require Import ZArith Lia.
From S2P Require Import Prelude Tables Json.

(** ** Effect states *)

Inductive EffectState :=
| planned | queued | executing | sent | blocked | expired | failed | cancelled
| unknown | unknown_nonrepeatable.

#[export] Instance EffectState_eq_dec : EqDecision EffectState.
Proof. solve_decision. Defined.

Definition state_eqb (a b : EffectState) : bool := bool_decide (a = b).

Definition state_str (s : EffectState) : string :=
  match s with
  | planned => "planned" | queued => "queued" | executing => "executing" | sent => "sent"
  | blocked => "blocked" | expired => "expired" | failed => "failed"
  | cancelled => "cancelled" | unknown => "unknown"
  | unknown_nonrepeatable => "unknown_nonrepeatable"
  end.

Definition EFFECT_STATES : list EffectState :=
  [planned; queued; executing; sent; blocked; expired; failed; cancelled; unknown;
   unknown_nonrepeatable].

(** Membership of a string in [EFFECT_STATES]: the state it names, if any. *)
Definition state_of_str (s : string) : option EffectState :=
  List.find (λ st, state_str st =?s s) EFFECT_STATES.

Definition TERMINAL_EFFECT_STATES : list EffectState :=
  [sent; expired; failed; cancelled; unknown_nonrepeatable].

Definition CLAIMABLE_EFFECT_STATES : list EffectState := [queued].

Definition REQUEUE_EVIDENCE_KINDS : list string := ["not_executed"; "safe_retry"; "operator"].

(** [_TRANSITIONS] / [allowed_transitions] *)
Definition allowed_transitions (s : EffectState) : list EffectState :=
  match s with
  | planned => [queued; blocked; cancelled; expired]
  | queued => [executing; blocked; cancelled; expired; failed]
  | executing => [sent; failed; unknown]
  | blocked => [queued; cancelled; expired; failed]
  | unknown => [sent; queued; expired; unknown_nonrepeatable]
  | unknown_nonrepeatable => [sent]
  | failed => [queued]
  | sent => []
  | expired => []
  | cancelled => []
  end.

Definition state_in (s : EffectState) (l : list EffectState) : bool := existsb (state_eqb s) l.

(** [validate_transition]: raises unless [current -> target] is allowed. *)
Definition validate_transition (current target : string) (evidence_kinds : list string)
    (worker_id lease_owner : option string) : result unit :=
  match state_of_str target with
  | None => Raise (InvalidTransitionError "unknown effect state")
  | Some t =>
  match state_of_str current with
  | None => Raise (InvalidTransitionError "unknown effect state")
  | Some c =>
  if negb (state_in t (allowed_transitions c))
  then Raise (InvalidTransitionError "illegal effect transition") else
  let! _ :=
    if state_eqb c executing then
      match worker_id with
      | None => Raise (InvalidTransitionError "transition out of executing requires the claiming worker")
      | Some w =>
          match lease_owner with
          | Some o => if negb (w =?s o)
                      then Raise (InvalidTransitionError "only the claiming worker may leave executing")
                      else Ok tt
          | None => Ok tt
          end
      end
    else Ok tt in
  if state_eqb t queued && state_in c [unknown; failed]
     && negb (existsb (λ k, str_in k evidence_kinds) REQUEUE_EVIDENCE_KINDS)
  then Raise (InvalidTransitionError "may only be requeued with evidence")
  else Ok tt
  end
  end.

Lemma state_of_str_of s : state_of_str (state_str s) = Some s.
Proof. by destruct s. Qed.

Lemma state_str_inj a b : state_str a = state_str b → a = b.
Proof.
  intros H. pose proof (state_of_str_of a) as Ha. rewrite H, state_of_str_of in Ha. congruence.
Qed.

Lemma state_of_str_inv x s : state_of_str x = Some s → x = state_str s.
Proof. intros [_ H]%find_some. by apply str_eqb_eq in H. Qed.

Lemma state_eqb_eq a b : state_eqb a b = true ↔ a = b.
Proof. apply bool_decide_eq_true. Qed.

Lemma state_in_spec s l : state_in s l = true ↔ s ∈ l.
Proof.
  unfold state_in. rewrite existsb_exists, list_elem_of_In. split.
  - by intros (x & Hx & ->%state_eqb_eq).
  - intros H. exists s. by rewrite state_eqb_eq.
Qed.

(** ** Revisions *)

(** [normalize_revision]: a positive integer, never a bool or a float. [default] is what
    an absent revision becomes. *)
Definition normalize_revision (value : json) (default : option Z) : result (option Z) :=
  match value with
  | JNull => Ok default
  | JInt z => if 1 <=? z then Ok (Some z)
              else Raise (ValueError "revision must be a positive integer")
  | JStr s =>
      if str_true (py_strip s) then
        match py_int (py_strip s) with
        | None => Raise (ValueError "revision must be a positive integer")
        | Some parsed => if 1 <=? parsed then Ok (Some parsed)
                         else Raise (ValueError "revision must be a positive integer")
        end
      else Raise (ValueError "revision must be a positive integer")
  | _ => Raise (ValueError "revision must be a positive integer")
  end.

(** ** Effect payload variants *)

Inductive EffectPayload :=
| TextPayload (text : string) (reply_to : option string)
| MediaPayload (media : list string) (caption : option string)
| ForwardPayload (source_chat_id source_message_id : string)
| ReactionPayload (message_id emoji : string) (participant_jid reason : option string)
| DeletePayload (message_id : string)
| ExternalActionPayload (action : string) (arguments : dict).

Definition payload_kind (p : EffectPayload) : string :=
  match p with
  | TextPayload _ _ => "text"
  | MediaPayload _ _ => "media"
  | ForwardPayload _ _ => "forward"
  | ReactionPayload _ _ _ _ => "reaction"
  | DeletePayload _ => "delete"
  | ExternalActionPayload _ _ => "external_action"
  end.

(** [if x is not None: data[k] = x] *)
Definition field_if_some (k : string) (x : option string) : dict :=
  match x with Some s => [(k, JStr s)] | None => [] end.

(** [if x: data[k] = x] *)
Definition field_if_true (k : string) (x : option string) : dict :=
  match x with Some s => if str_true s then [(k, JStr s)] else [] | None => [] end.

(** [to_dict] of each payload class *)
Definition payload_to_dict (p : EffectPayload) : dict :=
  match p with
  | TextPayload text reply_to =>
      [("kind", JStr "text"); ("text", JStr text)] ++ field_if_some "reply_to" reply_to
  | MediaPayload media caption =>
      [("kind", JStr "media"); ("media", JArr (map JStr media))]
        ++ field_if_some "caption" caption
  | ForwardPayload chat msg =>
      [("kind", JStr "forward"); ("source_chat_id", JStr chat); ("source_message_id", JStr msg)]
  | ReactionPayload msg emoji jid reason =>
      [("kind", JStr "reaction"); ("message_id", JStr msg); ("emoji", JStr emoji)]
        ++ field_if_true "participant_jid" jid ++ field_if_true "reason" reason
  | DeletePayload msg => [("kind", JStr "delete"); ("message_id", JStr msg)]
  | ExternalActionPayload action arguments =>
      [("kind", JStr "external_action"); ("action", JStr action); ("arguments", JObj arguments)]
  end.

Definition KIND_INFERENCE : list (string * list string) :=
  [("external_action", ["action"]);
   ("forward", ["source_chat_id"; "source_message_id"]);
   ("reaction", ["emoji"]);
   ("delete", ["message_id"]);
   ("media", ["media"]);
   ("text", ["text"])].

(** The explicit kind, or the first kind one of whose keys is present. *)
Definition infer_kind (data : dict) : option json :=
  match dict_get "kind" data with
  | None | Some JNull =>
      (λ c, JStr c.1) <$>
        List.find (λ c : string * list string, existsb (λ k, dict_has k data) c.2) KIND_INFERENCE
  | Some k => Some k
  end.

(** [tuple(str(item) for item in raw)] over an iterable JSON value. *)
Definition media_items (raw : option json) : result (list string) :=
  match raw with
  | None => Ok []
  | Some v =>
      if negb (truthy v) then Ok []
      else match v with
           | JStr s => Ok [s]
           | JArr l => Ok (map py_str l)
           | JObj d => Ok (map fst d)
           | _ => Raise (ValueError "media payload requires a list of media references")
           end
  end.

Definition payload_from_mapping (data : dict) : result EffectPayload :=
  match infer_kind data with
  | Some (JStr kind) =>
      if kind =?s "text" then
        Ok (TextPayload (str_or_empty (dict_get "text" data))
              (opt_str (py_or (dict_get "reply_to" data) (dict_get "replyTo" data))))
      else if kind =?s "media" then
        let! media := media_items (py_or (dict_get "media" data) (dict_get "media_paths" data)) in
        Ok (MediaPayload media (opt_str (dict_get "caption" data)))
      else if kind =?s "forward" then
        Ok (ForwardPayload (str_or_empty (dict_get "source_chat_id" data))
              (str_or_empty (dict_get "source_message_id" data)))
      else if kind =?s "reaction" then
        Ok (ReactionPayload (str_or_empty (dict_get "message_id" data))
              (str_or_empty (dict_get "emoji" data))
              (opt_str (dict_get "participant_jid" data)) (opt_str (dict_get "reason" data)))
      else if kind =?s "delete" then
        Ok (DeletePayload (str_or_empty (dict_get "message_id" data)))
      else if kind =?s "external_action" then
        match dict_get "arguments" data with
        | Some v => if negb (truthy v)
                    then Ok (ExternalActionPayload (str_or_empty (dict_get "action" data)) [])
                    else match v with
                         | JObj args =>
                             Ok (ExternalActionPayload (str_or_empty (dict_get "action" data)) args)
                         | _ => Raise (ValueError "external_action arguments must be a mapping")
                         end
        | None => Ok (ExternalActionPayload (str_or_empty (dict_get "action" data)) [])
        end
      else Raise (ValueError "unsupported effect payload")
  | _ => Raise (ValueError "unsupported effect payload")
  end.

(** A payload as callers hand it over: typed, or a mapping. *)
Inductive payload_arg :=
| TypedPayload (p : EffectPayload)
| MappingPayload (d : dict).

Definition payload_to_mapping (p : payload_arg) : result dict :=
  match p with
  | TypedPayload p => Ok (payload_to_dict p)
  | MappingPayload d => let! p := payload_from_mapping d in Ok (payload_to_dict p)
  end.

Definition payload_hash `{Sha256} (p : EffectPayload) : string :=
  canonical_hash (JObj (payload_to_dict p)).

(** ** Targets and turns *)

Record EffectTarget := MkTarget {
  tgt_channel : string;
  tgt_chat_id : string;
  tgt_thread_id : option string;
  tgt_message_id : option string;
}.

(** [EffectTarget.__post_init__] *)
Definition EffectTarget_init (channel chat_id : string) (thread_id message_id : option string)
    : result EffectTarget :=
  if str_true channel && str_true chat_id then Ok (MkTarget channel chat_id thread_id message_id)
  else Raise (ValueError "effect target requires channel and chat_id").

Definition target_to_dict (t : EffectTarget) : dict :=
  [("channel", JStr (tgt_channel t)); ("chat_id", JStr (tgt_chat_id t))]
    ++ field_if_some "thread_id" (tgt_thread_id t) ++ field_if_some "message_id" (tgt_message_id t).

Definition target_from_mapping (d : dict) : result EffectTarget :=
  EffectTarget_init (str_or_empty (dict_get "channel" d)) (str_or_empty (dict_get "chat_id" d))
    (opt_str (dict_get "thread_id" d)) (opt_str (dict_get "message_id" d)).

Definition target_hash `{Sha256} (t : EffectTarget) : string :=
  canonical_hash (JObj (target_to_dict t)).

(** Canonical [channel:chat] string used in policy decisions. *)
Definition target_key (t : EffectTarget) : string := tgt_channel t +:+ ":" +:+ tgt_chat_id t.

Record TurnRef := MkTurnRef {
  tr_turn_id : string;
  tr_thread_id : string;
  tr_chat_id : string;
  tr_channel : string;
  tr_principal : string;
  tr_revision : Z;
  tr_opened_ms : option Z;
  tr_closed_ms : option Z;
}.

Definition TurnRef_init (turn_id thread_id chat_id channel principal : string) (revision : Z)
    (opened_ms closed_ms : option Z) : result TurnRef :=
  if revision <? 1 then Raise (ValueError "turn revision must be a positive integer")
  else Ok (MkTurnRef turn_id thread_id chat_id channel principal revision opened_ms closed_ms).

(** ** Decisions *)

Record DecisionRecord := MkDecision {
  dec_decision_id : string;
  dec_trace_id : string;
  dec_policy_version : string;
  dec_policy_hash : string;
  dec_principal : string;
  dec_target : string;
  dec_capability : string;
  dec_turn_revision : Z;
  dec_outcome : string;
  dec_reason : string;
  dec_created_ms : Z;
  dec_stage : string;
  dec_effect_id : option string;
}.

(** [DecisionRecord.__post_init__] *)
Definition DecisionRecord_check (d : DecisionRecord) : result DecisionRecord :=
  if negb (str_true (dec_policy_version d))
  then Raise (ValueError "decision record requires a policy version")
  else if negb (str_true (dec_policy_hash d))
  then Raise (ValueError "decision record requires a policy hash")
  else if negb (str_true (dec_decision_id d))
  then Raise (ValueError "decision record requires a decision id")
  else if dec_turn_revision d <? 1
  then Raise (ValueError "turn revision must be a positive integer")
  else if negb (str_in (dec_outcome d) ["allow"; "deny"])
  then Raise (ValueError "unknown decision outcome")
  else Ok d.

(** ** Envelopes, stored effects and receipts *)

Record EffectEnvelope := MkEnvelope {
  env_effect_id : string;
  env_operation_key : string;
  env_payload : EffectPayload;
  env_target : EffectTarget;
  env_trace_id : string;
  env_turn_id : string;
  env_turn_revision : Z;
  env_principal : string;
  env_capability : string;
  env_expires_at_ms : option Z;
  env_policy_version : option string;
  env_policy_hash : option string;
  env_created_ms : option Z;
  env_origin : string;
  env_admission_id : option string;
}.

(** [EffectEnvelope.__post_init__] *)
Definition EffectEnvelope_check (e : EffectEnvelope) : result EffectEnvelope :=
  if negb (str_true (env_effect_id e))
  then Raise (ValueError "effect envelope requires an effect id")
  else if negb (str_true (env_operation_key e))
  then Raise (ValueError "effect envelope requires an operation key")
  else if env_turn_revision e <? 1
  then Raise (ValueError "turn revision must be a positive integer")
  else Ok e.

Record StoredEffect := MkStoredEffect {
  se_effect_id : string;
  se_operation_key : string;
  se_payload_kind : string;
  se_payload_hash : string;
  se_target_hash : string;
  se_state : EffectState;
  se_created_ms : Z;
  se_updated_ms : Z;
  se_trace_id : string;
  se_turn_id : string;
  se_turn_revision : Z;
  se_principal : string;
  se_capability : string;
  se_payload : option EffectPayload;
  se_target : option EffectTarget;
  se_payload_purged_ms : option Z;
  se_expires_at_ms : option Z;
  se_policy_version : option string;
  se_policy_hash : option string;
  se_lease_owner : option string;
  se_lease_until_ms : option Z;
  se_origin : string;
  se_admission_id : option string;
}.

(** [StoredEffect.to_envelope]: a purged or target-less effect refuses. *)
Definition to_envelope (e : StoredEffect) : result EffectEnvelope :=
  match se_payload e with
  | None => Raise (ProcessingError "payload was purged by retention; refusing to execute")
  | Some payload =>
  match se_target e with
  | None => Raise (ProcessingError "has no target; refusing to execute")
  | Some target =>
      EffectEnvelope_check
        {| env_effect_id := se_effect_id e;
           env_operation_key := se_operation_key e;
           env_payload := payload;
           env_target := target;
           env_trace_id := se_trace_id e;
           env_turn_id := se_turn_id e;
           env_turn_revision := se_turn_revision e;
           env_principal := se_principal e;
           env_capability := se_capability e;
           env_expires_at_ms := se_expires_at_ms e;
           env_policy_version := se_policy_version e;
           env_policy_hash := se_policy_hash e;
           env_created_ms := Some (se_created_ms e);
           env_origin := se_origin e;
           env_admission_id := se_admission_id e |}
  end
  end.

Record TransportReceipt := MkTransportReceipt {
  rcp_channel : string;
  rcp_chat_id : string;
  rcp_provider_message_id : option string;
  rcp_confirmed_ms : Z;
  rcp_attempt_id : option string;
  rcp_client_message_id : option string;
  rcp_receipt_id : option string;
  rcp_detail : option string;
}.

(** [state] is a free string in an executor's report ([sent], [not_executed],
    [unknown], ...). *)
Record EffectReceipt := MkEffectReceipt {
  er_effect_id : string;
  er_state : string;
  er_operation_key : string;
  er_attempt_id : option string;
  er_detail : option string;
  er_accepted : bool;
  er_updated_ms : option Z;
  er_transport_receipt : option TransportReceipt;
}.

(** [EffectReceipt.terminal] *)
Definition receipt_terminal (r : EffectReceipt) : bool :=
  existsb (λ s, state_str s =?s er_state r) TERMINAL_EFFECT_STATES.

Record EffectEvidence := MkEvidence {
  evi_kind : string;
  evi_detail : option string;
  evi_observed_ms : option Z;
  evi_worker_id : option string;
  evi_state : option string;
}.

(** ** Retention windows *)

Definition DAY_MS : Z := 86400000.

Record RetentionSettings := MkRetention {
  journal_payload_ms : Z;
  metadata_ms : Z;
  unresolved_ms : Z;
}.

Definition default_retention : RetentionSettings := MkRetention (7 * DAY_MS) (30 * DAY_MS) (90 * DAY_MS).

(** [RetentionSettings.__post_init__] *)
Definition RetentionSettings_check (r : RetentionSettings) : result RetentionSettings :=
  if (journal_payload_ms r <? 0) || (metadata_ms r <? 0) || (unresolved_ms r <? 0)
  then Raise (ValueError "must not be negative")
  else if metadata_ms r <? journal_payload_ms r
  then Raise (ValueError "journal payload retention must not exceed metadata retention")
  else if unresolved_ms r <? metadata_ms r
  then Raise (ValueError "metadata retention must not exceed unresolved retention")
  else Ok r.

(** ** The transition rules *)

(** Evidence that justifies a requeue is present. *)
Definition requeue_evidence (kinds : list string) : Prop :=
  ∃ k, k ∈ kinds ∧ k ∈ REQUEUE_EVIDENCE_KINDS.

(** What [validate_transition] accepts. *)
Definition transition_ok (c t : EffectState) (kinds : list string)
    (worker lease : option string) : Prop :=
  t ∈ allowed_transitions c ∧
  (c = executing → ∃ w, worker = Some w ∧ (lease = None ∨ lease = Some w)) ∧
  (t = queued → c = unknown ∨ c = failed → requeue_evidence kinds).

Lemma requeue_evidence_dec kinds :
  existsb (λ k, str_in k kinds) REQUEUE_EVIDENCE_KINDS = true ↔ requeue_evidence kinds.
Proof.
  unfold requeue_evidence. rewrite existsb_exists. setoid_rewrite list_elem_of_In.
  split; intros (k & H1 & H2); exists k.
  - apply str_in_spec, list_elem_of_In in H2. done.
  - split; [done|]. by apply str_in_spec, list_elem_of_In.
Qed.

Lemma validate_transition_ok c t kinds w l :
  validate_transition (state_str c) (state_str t) kinds w l = Ok tt ↔
  transition_ok c t kinds w l.
Proof.
  unfold validate_transition, transition_ok. rewrite !state_of_str_of.
  destruct (state_in t (allowed_transitions c)) eqn:Ea; cbn [negb].
  2:{ split; [done|]. intros [H%state_in_spec _]. congruence. }
  apply state_in_spec in Ea.
  destruct (state_eqb t queued && state_in c [unknown; failed] &&
            negb (existsb (λ k, str_in k kinds) REQUEUE_EVIDENCE_KINDS)) eqn:Eq.
  - apply andb_true_iff in Eq as [[Et%state_eqb_eq Ec%state_in_spec]%andb_true_iff Ek%negb_true_iff].
    assert (¬ requeue_evidence kinds) as Hno.
    { rewrite <- requeue_evidence_dec. congruence. }
    split; [|intros (_ & _ & H); exfalso; apply Hno, H; set_solver].
    intros H. exfalso. revert H. destruct (state_eqb c executing); cbn [rbind]; [|done].
    destruct w as [w|]; [|done]. destruct l as [l|]; [|done].
    by destruct (w =?s l).
  - assert (t = queued → c = unknown ∨ c = failed → requeue_evidence kinds) as Hrq.
    { intros -> Hc. apply requeue_evidence_dec.
      apply not_false_iff_true. intros Ek. rewrite Ek in Eq.
      revert Eq. by destruct Hc as [-> | ->]. }
    destruct (state_eqb c executing) eqn:Ex.
    + apply state_eqb_eq in Ex as ->. destruct w as [w|]; simpl.
      2:{ split; [done|]. intros (_ & H & _). destruct (H eq_refl) as (? & ? & _). done. }
      destruct l as [l|]; simpl; [|split; [|done]; naive_solver].
      destruct (w =?s l) eqn:El; simpl.
      * apply str_eqb_eq in El as ->. split; [|done]. naive_solver.
      * apply str_eqb_neq in El. split; [done|]. intros (_ & H & _). naive_solver.
    + split; [|done]. intros _. split; [done|]. split; [|done]. intros ->. done.
Qed.

(** ** Payload and target round trips *)

Definition opt_nonempty (o : option string) : Prop := o ≠ Some "".

(** Payloads whose optional strings are absent rather than empty, the form
    [payload_from_mapping] produces. *)
Definition payload_wf (p : EffectPayload) : Prop :=
  match p with
  | TextPayload _ reply_to => opt_nonempty reply_to
  | MediaPayload _ caption => opt_nonempty caption
  | ReactionPayload _ _ jid reason => opt_nonempty jid ∧ opt_nonempty reason
  | _ => True
  end.

Lemma str_or_empty_str s : str_or_empty (Some (JStr s)) = s.
Proof.
  simpl. destruct (str_true s) eqn:E; [done|].
  unfold str_true in E. apply negb_false_iff, str_eqb_eq in E. done.
Qed.

Lemma opt_str_nonempty s : s ≠ "" → opt_str (Some (JStr s)) = Some s.
Proof. intros H. simpl. by apply str_true_spec in H as ->. Qed.

Lemma py_or_str s o : s ≠ "" → py_or (Some (JStr s)) o = Some (JStr s).
Proof. intros H. unfold py_or. simpl. by apply str_true_spec in H as ->. Qed.

Lemma py_str_map_JStr l : map py_str (map JStr l) = l.
Proof. induction l as [|x l IH]; [done|]. simpl. by rewrite IH. Qed.

Lemma media_items_strings media k :
  media_items (py_or (Some (JArr (map JStr media))) k) = Ok media ∨ media = [].
Proof. destruct media as [|m media]; [by right|]. left. simpl. by rewrite py_str_map_JStr. Qed.

Lemma payload_from_mapping_to_dict p :
  payload_wf p → payload_from_mapping (payload_to_dict p) = Ok p.
Proof.
  destruct p as [text rt|media cap|chat msg|msg emoji jid reason|msg|action args];
    unfold payload_from_mapping, payload_wf, opt_nonempty; intros Hwf.
  - destruct rt as [r|]; cbn -[str_or_empty opt_str py_or]; rewrite str_or_empty_str; [|done].
    rewrite !py_or_str, opt_str_nonempty by congruence. done.
  - destruct cap as [c|]; cbn -[str_or_empty opt_str]; destruct media as [|m ms];
      cbn -[opt_str]; rewrite ?py_str_map_JStr; try done;
      (rewrite opt_str_nonempty by congruence); done.
  - cbn -[str_or_empty]. by rewrite !str_or_empty_str.
  - destruct Hwf as [Hj Hr].
    assert (∀ o, opt_nonempty o → ∀ k, field_if_true k o = field_if_some k o) as Hf.
    { intros [s|] Ho k; [|done]. simpl. assert (str_true s = true) as -> by
        (apply str_true_spec; unfold opt_nonempty in Ho; congruence). done. }
    simpl payload_to_dict. rewrite !Hf by done.
    destruct jid as [j|], reason as [r|]; cbn -[str_or_empty opt_str];
      rewrite !str_or_empty_str, ?opt_str_nonempty by congruence; done.
  - cbn -[str_or_empty]. by rewrite str_or_empty_str.
  - cbn -[str_or_empty truthy]. rewrite str_or_empty_str. by destruct args.
Qed.

Definition target_wf (t : EffectTarget) : Prop :=
  tgt_channel t ≠ "" ∧ tgt_chat_id t ≠ "" ∧
  opt_nonempty (tgt_thread_id t) ∧ opt_nonempty (tgt_message_id t).

Lemma target_from_mapping_to_dict t :
  target_wf t → target_from_mapping (target_to_dict t) = Ok t.
Proof.
  destruct t as [ch chat th msg]. unfold target_wf, opt_nonempty; simpl.
  intros (H1 & H2 & H3 & H4). unfold target_from_mapping, EffectTarget_init.
  destruct th as [th|], msg as [msg|]; cbn -[str_or_empty opt_str];
    rewrite !str_or_empty_str, ?opt_str_nonempty by congruence;
    apply str_true_spec in H1 as ->; apply str_true_spec in H2 as ->; done.
Qed.

Lemma target_init_wf ch chat th msg t :
  EffectTarget_init ch chat th msg = Ok t → t = MkTarget ch chat th msg ∧ ch ≠ "" ∧ chat ≠ "".
Proof.
  unfold EffectTarget_init. destruct (str_true ch) eqn:E1; [|done].
  destruct (str_true chat) eqn:E2; [|done]. simpl. intros [= <-].
  split; [done|]. split; by apply str_true_spec.
Qed.

Lemma normalize_revision_positive v d r :
  normalize_revision v d = Ok (Some r) → 1 ≤ r ∨ (v = JNull ∧ d = Some r).
Proof.
  unfold normalize_revision. destruct v as [|b|z|t|s|l|o]; try done.
  - intros [= ->]. by right.
  - destruct (1 <=? z) eqn:E; [|done]. intros [= <-]. left. lia.
  - destruct (str_true _); [|done]. destruct (py_int _) as [z|]; [|done].
    destruct (1 <=? z) eqn:E; [|done]. intros [= <-]. left. lia.
Qed.
