(* ===== verification/Schema.v ===== *)
(** * Schema

    The tables of the processing database ([processing/store.py]: [_SCHEMA],
    [_MIGRATIONS], [_ensure_thread_lifecycle_schema]), one record per row, one field per
    column under its column name with a table prefix, and the database as the record of
    its tables. A nullable column is an [option]; a JSON column holds the decoded
    document; effect states are the ten states of the state machine (the store never
    writes another), while thread, turn and pending states stay strings. *)

From Stdlib Require Import ZArith.
From S2P Require Import Prelude Json Models.


(** One row of [events], a [CanonicalEvent]; [payload_json] is [None] once retention stripped it. *)
Record event_row := MkEvent {
  ev_event_id : string;
  ev_event_key : string;
  ev_trace_id : string;
  ev_kind : string;
  ev_origin : string;
  ev_channel : string;
  ev_chat_id : string;
  ev_principal : string;
  ev_account : string;
  ev_direction : string;
  ev_revision : Z;
  ev_audience_ref : option string;
  ev_source_message_id : option string;
  ev_target_message_id : option string;
  ev_thread_id : option string;
  ev_turn_id : option string;
  ev_occurred_ms : option Z;
  ev_payload_hash : string;
  ev_payload_json : option dict;
  ev_payload_purged_ms : option Z;
  ev_created_ms : Z;
}.

#[export] Instance eta_event_row : Updatable event_row :=
  λ r, MkEvent (ev_event_id r) (ev_event_key r) (ev_trace_id r) (ev_kind r) (ev_origin r)
    (ev_channel r) (ev_chat_id r) (ev_principal r) (ev_account r) (ev_direction r) (ev_revision
    r) (ev_audience_ref r) (ev_source_message_id r) (ev_target_message_id r) (ev_thread_id r)
    (ev_turn_id r) (ev_occurred_ms r) (ev_payload_hash r) (ev_payload_json r)
    (ev_payload_purged_ms r) (ev_created_ms r).

(** One row of [event_relations]. *)
Record relation_row := MkRelation {
  rel_event_id : string;
  rel_relation : string;
  rel_ref_id : string;
  rel_resolved : bool;
  rel_created_ms : Z;
}.

#[export] Instance eta_relation_row : Updatable relation_row :=
  λ r, MkRelation (rel_event_id r) (rel_relation r) (rel_ref_id r) (rel_resolved r)
    (rel_created_ms r).

(** One row of [event_source_authority]. *)
Record authority_row := MkAuthority {
  aut_event_id : string;
  aut_revision : Z;
  aut_author_principal : string;
  aut_source_channel : string;
  aut_source_chat_id : string;
  aut_occurred_at_ms : Z;
  aut_audience_status : string;
  aut_audience_members : list string;
  aut_audience_snapshot_id : option string;
  aut_policy_revision : option string;
  aut_revoked_at_ms : option Z;
  aut_revoking_event_id : option string;
  aut_created_ms : Z;
  aut_updated_ms : Z;
}.

#[export] Instance eta_authority_row : Updatable authority_row :=
  λ r, MkAuthority (aut_event_id r) (aut_revision r) (aut_author_principal r)
    (aut_source_channel r) (aut_source_chat_id r) (aut_occurred_at_ms r) (aut_audience_status
    r) (aut_audience_members r) (aut_audience_snapshot_id r) (aut_policy_revision r)
    (aut_revoked_at_ms r) (aut_revoking_event_id r) (aut_created_ms r) (aut_updated_ms r).

(** One row of [effects], the outbox. *)
Record effect_row := MkEffect {
  eff_effect_id : string;
  eff_operation_key : string;
  eff_trace_id : string;
  eff_turn_id : string;
  eff_turn_revision : Z;
  eff_principal : string;
  eff_capability : string;
  eff_target_json : dict;
  eff_target_hash : string;
  eff_payload_kind : string;
  eff_payload_hash : string;
  eff_payload_json : option dict;
  eff_payload_purged_ms : option Z;
  eff_state : EffectState;
  eff_expires_at_ms : option Z;
  eff_policy_version : option string;
  eff_policy_hash : option string;
  eff_lease_owner : option string;
  eff_lease_until_ms : option Z;
  eff_origin : string;
  eff_admission_id : option string;
  eff_created_ms : Z;
  eff_updated_ms : Z;
}.

#[export] Instance eta_effect_row : Updatable effect_row :=
  λ r, MkEffect (eff_effect_id r) (eff_operation_key r) (eff_trace_id r) (eff_turn_id r)
    (eff_turn_revision r) (eff_principal r) (eff_capability r) (eff_target_json r)
    (eff_target_hash r) (eff_payload_kind r) (eff_payload_hash r) (eff_payload_json r)
    (eff_payload_purged_ms r) (eff_state r) (eff_expires_at_ms r) (eff_policy_version r)
    (eff_policy_hash r) (eff_lease_owner r) (eff_lease_until_ms r) (eff_origin r)
    (eff_admission_id r) (eff_created_ms r) (eff_updated_ms r).

(** One row of [effect_attempts]; open while [finished_ms] is [None]. *)
Record attempt_row := MkAttempt {
  att_attempt_id : string;
  att_effect_id : string;
  att_worker_id : option string;
  att_started_ms : Z;
  att_finished_ms : option Z;
  att_outcome : option string;
  att_policy_version : option string;
  att_detail : option string;
}.

#[export] Instance eta_attempt_row : Updatable attempt_row :=
  λ r, MkAttempt (att_attempt_id r) (att_effect_id r) (att_worker_id r) (att_started_ms r)
    (att_finished_ms r) (att_outcome r) (att_policy_version r) (att_detail r).

(** One row of [effect_evidence]; the AUTOINCREMENT id is the position in the table. *)
Record evidence_row := MkEvidenceRow {
  evd_effect_id : string;
  evd_kind : string;
  evd_state : option string;
  evd_detail : option string;
  evd_observed_ms : Z;
  evd_worker_id : option string;
}.

#[export] Instance eta_evidence_row : Updatable evidence_row :=
  λ r, MkEvidenceRow (evd_effect_id r) (evd_kind r) (evd_state r) (evd_detail r)
    (evd_observed_ms r) (evd_worker_id r).

(** One row of [participation_admissions]. *)
Record admission_row := MkAdmission {
  adm_admission_id : string;
  adm_payload_json : dict;
  adm_created_ms : Z;
}.

#[export] Instance eta_admission_row : Updatable admission_row :=
  λ r, MkAdmission (adm_admission_id r) (adm_payload_json r) (adm_created_ms r).

(** One row of [direct_admissions]. *)
Record direct_row := MkDirect {
  dir_binding_id : string;
  dir_channel : string;
  dir_chat_id : string;
  dir_event_id : string;
  dir_turn_id : string;
  dir_arbitration_revision : Z;
  dir_state : string;
  dir_created_ms : Z;
  dir_finished_ms : option Z;
}.

#[export] Instance eta_direct_row : Updatable direct_row :=
  λ r, MkDirect (dir_binding_id r) (dir_channel r) (dir_chat_id r) (dir_event_id r)
    (dir_turn_id r) (dir_arbitration_revision r) (dir_state r) (dir_created_ms r)
    (dir_finished_ms r).

(** One row of [short_reply_decisions]. *)
Record short_reply_row := MkShortReply {
  sr_channel : string;
  sr_chat_id : string;
  sr_message_id : string;
  sr_mode : string;
  sr_status : string;
  sr_emoji : option string;
  sr_created_ms : Z;
  sr_updated_ms : Z;
}.

#[export] Instance eta_short_reply_row : Updatable short_reply_row :=
  λ r, MkShortReply (sr_channel r) (sr_chat_id r) (sr_message_id r) (sr_mode r) (sr_status r)
    (sr_emoji r) (sr_created_ms r) (sr_updated_ms r).

(** One row of [threads], a [StoredThread]. *)
Record thread_row := MkThread {
  th_thread_id : string;
  th_channel : string;
  th_chat_id : string;
  th_root_principal : string;
  th_kind : string;
  th_state : string;
  th_opened_ms : Z;
  th_last_activity_ms : Z;
  th_closed_ms : option Z;
  th_close_reason : option string;
  th_reopen_count : Z;
  th_turn_seq : Z;
  th_conversation_state : string;
  th_dormant_ms : option Z;
  th_dormant_reason : option string;
}.

#[export] Instance eta_thread_row : Updatable thread_row :=
  λ r, MkThread (th_thread_id r) (th_channel r) (th_chat_id r) (th_root_principal r) (th_kind
    r) (th_state r) (th_opened_ms r) (th_last_activity_ms r) (th_closed_ms r) (th_close_reason
    r) (th_reopen_count r) (th_turn_seq r) (th_conversation_state r) (th_dormant_ms r)
    (th_dormant_reason r).

(** One row of [turns], a [StoredTurn]. *)
Record turn_row := MkTurn {
  tu_turn_id : string;
  tu_thread_id : string;
  tu_principal : string;
  tu_revision : Z;
  tu_context_version : Z;
  tu_state : string;
  tu_opened_ms : Z;
  tu_updated_ms : Z;
  tu_closed_ms : option Z;
  tu_last_generation_id : option string;
}.

#[export] Instance eta_turn_row : Updatable turn_row :=
  λ r, MkTurn (tu_turn_id r) (tu_thread_id r) (tu_principal r) (tu_revision r)
    (tu_context_version r) (tu_state r) (tu_opened_ms r) (tu_updated_ms r) (tu_closed_ms r)
    (tu_last_generation_id r).

(** One row of [turn_sources]. *)
Record turn_source_row := MkTurnSource {
  ts_turn_id : string;
  ts_event_id : string;
  ts_source_message_id : option string;
  ts_role : string;
  ts_revision_at_join : Z;
  ts_added_ms : Z;
  ts_removed_ms : option Z;
}.

#[export] Instance eta_turn_source_row : Updatable turn_source_row :=
  λ r, MkTurnSource (ts_turn_id r) (ts_event_id r) (ts_source_message_id r) (ts_role r)
    (ts_revision_at_join r) (ts_added_ms r) (ts_removed_ms r).

(** One row of [pending_inputs]. *)
Record pending_row := MkPending {
  pi_input_id : string;
  pi_thread_id : string;
  pi_turn_id : option string;
  pi_event_id : string;
  pi_principal : string;
  pi_kind : string;
  pi_decision_id : option string;
  pi_relevance : string;
  pi_state : string;
  pi_enqueued_ms : Z;
  pi_consumed_ms : option Z;
}.

#[export] Instance eta_pending_row : Updatable pending_row :=
  λ r, MkPending (pi_input_id r) (pi_thread_id r) (pi_turn_id r) (pi_event_id r) (pi_principal
    r) (pi_kind r) (pi_decision_id r) (pi_relevance r) (pi_state r) (pi_enqueued_ms r)
    (pi_consumed_ms r).

(** One row of [thread_messages]. *)
Record thread_message_row := MkThreadMessage {
  tm_message_id : option string;
  tm_thread_id : string;
  tm_turn_id : option string;
  tm_direction : string;
  tm_event_id : option string;
  tm_effect_id : option string;
  tm_confirmed_ms : option Z;
  tm_created_ms : Z;
}.

#[export] Instance eta_thread_message_row : Updatable thread_message_row :=
  λ r, MkThreadMessage (tm_message_id r) (tm_thread_id r) (tm_turn_id r) (tm_direction r)
    (tm_event_id r) (tm_effect_id r) (tm_confirmed_ms r) (tm_created_ms r).

(** One row of [generations]. *)
Record generation_row := MkGeneration {
  gen_generation_id : string;
  gen_turn_id : string;
  gen_thread_id : string;
  gen_revision : Z;
  gen_context_version : Z;
  gen_snapshot_hash : string;
  gen_recycle : Z;
  gen_created_ms : Z;
  gen_finished_ms : option Z;
  gen_outcome : option string;
  gen_detail : option string;
}.

#[export] Instance eta_generation_row : Updatable generation_row :=
  λ r, MkGeneration (gen_generation_id r) (gen_turn_id r) (gen_thread_id r) (gen_revision r)
    (gen_context_version r) (gen_snapshot_hash r) (gen_recycle r) (gen_created_ms r)
    (gen_finished_ms r) (gen_outcome r) (gen_detail r).

(** One row of [generation_sources]. *)
Record generation_source_row := MkGenerationSource {
  gs_generation_id : string;
  gs_event_id : string;
  gs_source_message_id : option string;
  gs_role : string;
  gs_revision_at_join : Z;
}.

#[export] Instance eta_generation_source_row : Updatable generation_source_row :=
  λ r, MkGenerationSource (gs_generation_id r) (gs_event_id r) (gs_source_message_id r)
    (gs_role r) (gs_revision_at_join r).

(** One row of [transport_receipts]. *)
Record receipt_row := MkReceipt {
  rc_receipt_id : string;
  rc_effect_id : string;
  rc_attempt_id : option string;
  rc_channel : string;
  rc_chat_id : string;
  rc_provider_message_id : option string;
  rc_client_message_id : option string;
  rc_confirmed_ms : Z;
  rc_detail : option string;
}.

#[export] Instance eta_receipt_row : Updatable receipt_row :=
  λ r, MkReceipt (rc_receipt_id r) (rc_effect_id r) (rc_attempt_id r) (rc_channel r)
    (rc_chat_id r) (rc_provider_message_id r) (rc_client_message_id r) (rc_confirmed_ms r)
    (rc_detail r).

(** One row of [reconciliation_probes], a [ProbeRecord]; open while [outcome] is [None]. *)
Record probe_row := MkProbe {
  pb_probe_id : string;
  pb_effect_id : string;
  pb_attempt_number : Z;
  pb_due_ms : Z;
  pb_lease_owner : option string;
  pb_lease_until_ms : option Z;
  pb_started_ms : option Z;
  pb_finished_ms : option Z;
  pb_outcome : option string;
  pb_evidence_detail : option string;
  pb_created_ms : Z;
}.

#[export] Instance eta_probe_row : Updatable probe_row :=
  λ r, MkProbe (pb_probe_id r) (pb_effect_id r) (pb_attempt_number r) (pb_due_ms r)
    (pb_lease_owner r) (pb_lease_until_ms r) (pb_started_ms r) (pb_finished_ms r) (pb_outcome
    r) (pb_evidence_detail r) (pb_created_ms r).

(** One row of [send_budget_reservations]. *)
Record budget_row := MkBudget {
  bud_attempt_id : string;
  bud_channel : string;
  bud_chat_id : string;
  bud_effect_id : string;
  bud_units : Z;
  bud_reserved_ms : Z;
}.

#[export] Instance eta_budget_row : Updatable budget_row :=
  λ r, MkBudget (bud_attempt_id r) (bud_channel r) (bud_chat_id r) (bud_effect_id r) (bud_units
    r) (bud_reserved_ms r).

(** One row of [voice_send_quota]. *)
Record voice_quota_row := MkVoiceQuota {
  vq_principal : string;
  vq_last_requested_ms : Z;
}.

#[export] Instance eta_voice_quota_row : Updatable voice_quota_row :=
  λ r, MkVoiceQuota (vq_principal r) (vq_last_requested_ms r).

(** One row of [capability_quota]. *)
Record capability_quota_row := MkCapabilityQuota {
  cq_canonical_user_id : string;
  cq_quota_key : string;
  cq_claim_id : string;
  cq_claimed_at_ms : Z;
}.

#[export] Instance eta_capability_quota_row : Updatable capability_quota_row :=
  λ r, MkCapabilityQuota (cq_canonical_user_id r) (cq_quota_key r) (cq_claim_id r)
    (cq_claimed_at_ms r).

(** One row of [thread_topics]. *)
Record topic_row := MkTopic {
  tp_thread_id : string;
  tp_opener_source_id : option string;
  tp_opener : option string;
  tp_latest_source_id : option string;
  tp_latest : option string;
  tp_updated_ms : Z;
}.

#[export] Instance eta_topic_row : Updatable topic_row :=
  λ r, MkTopic (tp_thread_id r) (tp_opener_source_id r) (tp_opener r) (tp_latest_source_id r)
    (tp_latest r) (tp_updated_ms r).

(** ** The database *)

Record db := MkDb {
  events : list event_row;
  event_relations : list relation_row;
  event_source_authority : list authority_row;
  decisions : list DecisionRecord;
  effects : list effect_row;
  effect_attempts : list attempt_row;
  effect_evidence : list evidence_row;
  participation_admissions : list admission_row;
  direct_admissions : list direct_row;
  short_reply_decisions : list short_reply_row;
  threads : list thread_row;
  turns : list turn_row;
  turn_sources : list turn_source_row;
  pending_inputs : list pending_row;
  thread_messages : list thread_message_row;
  generations : list generation_row;
  generation_sources : list generation_source_row;
  transport_receipts : list receipt_row;
  reconciliation_probes : list probe_row;
  send_budget_reservations : list budget_row;
  voice_send_quota : list voice_quota_row;
  capability_quota : list capability_quota_row;
  thread_topics : list topic_row;
}.

#[export] Instance eta_db : Updatable db :=
  λ s, MkDb (events s) (event_relations s) (event_source_authority s) (decisions s) (effects s)
    (effect_attempts s) (effect_evidence s) (participation_admissions s) (direct_admissions s)
    (short_reply_decisions s) (threads s) (turns s) (turn_sources s) (pending_inputs s)
    (thread_messages s) (generations s) (generation_sources s) (transport_receipts s)
    (reconciliation_probes s) (send_budget_reservations s) (voice_send_quota s)
    (capability_quota s) (thread_topics s).

(** A freshly created store. *)
Definition empty_db : db :=
  MkDb [] [] [] [] [] [] [] [] [] [] [] [] [] [] [] [] [] [] [] [] [] [] [].

(** [with self._write() as conn: ...]: one BEGIN IMMEDIATE transaction. It commits when
    the body returns and rolls back when the body raises. *)
Definition write {A} (body : txn db A) : prog db A :=
  λ s, match body s with
       | Ok (a, s') => (Ok a, s')
       | Raise e => (Raise e, s)
       end.

(** A failed transaction leaves no trace. *)
Lemma write_rollback {A} (body : txn db A) s e :
  (write body s).1 = Raise e → (write body s).2 = s.
Proof. unfold write. by destruct (body s) as [[a s']|e']. Qed.
