(* ===== verification/Outbox.v ===== *)
(** * Outbox

    The decision log and the effect outbox of [processing/store.py]: [record_decision],
    [enqueue_effect], [enqueue_participation_effect], [claim_effect], [release_claim],
    [transition], [record_evidence], [recover_executing], [cancel_stale_effects] and the
    reads the gateway uses. Each public method is a [prog] on the database; a method body
    under [with self._write()] is a [txn] passed to [write]. Identifiers the code draws
    from [uuid4] are arguments, and a clash is the [IntegrityError] SQLite raises. *)

From Stdlib Require Import ZArith Lia.
From S2P Require Import Prelude Tables Json Models Schema.

Section Definitions.
  Context `{Sha256}.

(** ** Row access *)

Definition effect_row_of (effect_id : string) (s : db) : option effect_row :=
  by_id eff_effect_id effect_id (effects s).

(** [effect_state] *)
Definition effect_state (effect_id : string) (s : db) : option EffectState :=
  eff_state <$> effect_row_of effect_id s.

(** [_effect_from_row] *)
Definition effect_from_row (r : effect_row) : result StoredEffect :=
  let! payload := match eff_payload_json r with
                  | None => Ok None
                  | Some d => let! p := payload_from_mapping d in Ok (Some p)
                  end in
  let! target := match eff_target_json r with
                 | [] => Ok None
                 | d => let! t := target_from_mapping d in Ok (Some t)
                 end in
  Ok {| se_effect_id := eff_effect_id r;
        se_operation_key := eff_operation_key r;
        se_payload_kind := eff_payload_kind r;
        se_payload_hash := eff_payload_hash r;
        se_target_hash := eff_target_hash r;
        se_state := eff_state r;
        se_created_ms := eff_created_ms r;
        se_updated_ms := eff_updated_ms r;
        se_trace_id := eff_trace_id r;
        se_turn_id := eff_turn_id r;
        se_turn_revision := eff_turn_revision r;
        se_principal := eff_principal r;
        se_capability := eff_capability r;
        se_payload := payload;
        se_target := target;
        se_payload_purged_ms := eff_payload_purged_ms r;
        se_expires_at_ms := eff_expires_at_ms r;
        se_policy_version := eff_policy_version r;
        se_policy_hash := eff_policy_hash r;
        se_lease_owner := eff_lease_owner r;
        se_lease_until_ms := eff_lease_until_ms r;
        se_origin := if str_true (eff_origin r) then eff_origin r else "legacy";
        se_admission_id := eff_admission_id r |}.

(** [get_effect] *)
Definition get_effect (effect_id : string) (s : db) : result (option StoredEffect) :=
  match effect_row_of effect_id s with
  | None => Ok None
  | Some r => let! e := effect_from_row r in Ok (Some e)
  end.

(** [effect_by_operation_key] *)
Definition effect_by_operation_key (operation_key : string) (s : db)
    : result (option StoredEffect) :=
  match by_id eff_operation_key operation_key (effects s) with
  | None => Ok None
  | Some r => let! e := effect_from_row r in Ok (Some e)
  end.

(** [open_attempt_id]: the newest unfinished attempt *)
Definition open_attempt_id (effect_id : string) (s : db) : option string :=
  att_attempt_id <$>
    head (order_by (λ a b, att_started_ms b <=? att_started_ms a)
            (select (λ a, (att_effect_id a =?s effect_id) && is_none (att_finished_ms a))
               (effect_attempts s))).

(** [_attempts_for] *)
Definition attempts_for (effect_id : string) (s : db) : list attempt_row :=
  order_by (λ a b, att_started_ms a <=? att_started_ms b)
    (select (λ a, att_effect_id a =?s effect_id) (effect_attempts s)).

(** [_append_evidence] *)
Definition append_evidence (effect_id kind : string) (state detail : option string)
    (observed_ms : Z) (worker_id : option string) (s : db) : db :=
  s <| effect_evidence ::=
         insert_row (MkEvidenceRow effect_id kind state detail observed_ms worker_id) |>.

(** ** Decisions *)

(** [_decision_signature]: everything but the id *)
Definition decision_signature (d : DecisionRecord) : string :=
  canonical_hash (JObj
    [("trace_id", JStr (dec_trace_id d)); ("stage", JStr (dec_stage d));
     ("policy_version", JStr (dec_policy_version d)); ("policy_hash", JStr (dec_policy_hash d));
     ("principal", JStr (dec_principal d)); ("target", JStr (dec_target d));
     ("capability", JStr (dec_capability d)); ("turn_revision", JInt (dec_turn_revision d));
     ("outcome", JStr (dec_outcome d)); ("reason", JStr (dec_reason d));
     ("effect_id", match dec_effect_id d with Some e => JStr e | None => JNull end);
     ("created_ms", JInt (dec_created_ms d))]).

Definition record_decision (record : DecisionRecord) : prog db string :=
  write (λ s,
    match by_id dec_decision_id (dec_decision_id record) (decisions s) with
    | Some row =>
        if negb (decision_signature row =?s decision_signature record)
        then Raise (ValueError "decision already exists with different content")
        else Ok (dec_decision_id record, s)
    | None => Ok (dec_decision_id record, s <| decisions ::= insert_row record |>)
    end).

(** ** Acceptance *)

Inductive target_arg :=
| NoTarget
| TypedTarget (t : EffectTarget)
| MappingTarget (d : dict).

(** The keyword arguments of [enqueue_effect]. *)
Record effect_args := MkEffectArgs {
  ea_effect_id : string;
  ea_operation_key : string;
  ea_payload : payload_arg;
  ea_now_ms : Z;
  ea_trace_id : string;
  ea_turn_id : string;
  ea_turn_revision : Z;
  ea_principal : string;
  ea_capability : string;
  ea_target : target_arg;
  ea_expires_at_ms : option Z;
  ea_policy_version : option string;
  ea_policy_hash : option string;
  ea_state : EffectState;
  ea_origin : string;
  ea_admission_id : option string;
}.

#[export] Instance eta_effect_args : Updatable effect_args :=
  λ a, MkEffectArgs (ea_effect_id a) (ea_operation_key a) (ea_payload a) (ea_now_ms a)
    (ea_trace_id a) (ea_turn_id a) (ea_turn_revision a) (ea_principal a) (ea_capability a)
    (ea_target a) (ea_expires_at_ms a) (ea_policy_version a) (ea_policy_hash a) (ea_state a)
    (ea_origin a) (ea_admission_id a).

Definition resolve_target (t : target_arg) : result (option EffectTarget) :=
  match t with
  | NoTarget => Ok None
  | TypedTarget t => Ok (Some t)
  | MappingTarget d => let! t := target_from_mapping d in Ok (Some t)
  end.

Definition opt_target_dict (t : option EffectTarget) : dict :=
  match t with Some t => target_to_dict t | None => [] end.

(** A stored JSON member equals a string. *)
Definition field_is (k v : string) (d : dict) : bool :=
  match dict_get k d with Some (JStr x) => x =?s v | _ => false end.

(** The admission checks of [_enqueue_effect_in_connection]. *)
Definition check_admission (origin : string) (admission_id : option string)
    (payload_hash : string) (target : option EffectTarget) (s : db) : result unit :=
  if origin =?s "participation" then
    match admission_id with
    | None => Raise (ProcessingError "participation effect requires an admission")
    | Some aid =>
    if negb (str_true aid)
    then Raise (ProcessingError "participation effect requires an admission") else
    match by_id adm_admission_id aid (participation_admissions s) with
    | None => Raise (ProcessingError "participation effect admission is not persisted")
    | Some adm =>
        let stored := adm_payload_json adm in
        let expected_hash := str_or_empty (dict_get "payload_hash" stored) in
        if negb (str_true expected_hash)
        then Raise (ProcessingError "participation admission payload hash is missing")
        else if negb (expected_hash =?s payload_hash)
        then Raise (EffectConflictError "participation admission payload hash does not match effect")
        else match target with
             | None => Raise (ProcessingError "participation effect target is required")
             | Some t =>
                 if negb (field_is "channel" (tgt_channel t) stored)
                    || negb (field_is "chat_id" (tgt_chat_id t) stored)
                 then Raise (EffectConflictError "participation admission target does not match effect")
                 else Ok tt
             end
    end
    end
  else match admission_id with
       | Some _ => Raise (EffectConflictError "legacy effect cannot carry a participation admission")
       | None => Ok tt
       end.

(** The stored row and the submitted effect have the same identity. *)
Definition same_effect (r : effect_row) (payload_hash target_hash : string) (a : effect_args)
    : bool :=
  (eff_payload_hash r =?s payload_hash) && (eff_target_hash r =?s target_hash)
  && (eff_turn_id r =?s ea_turn_id a) && (eff_turn_revision r =? ea_turn_revision a)
  && (eff_principal r =?s ea_principal a) && (eff_capability r =?s ea_capability a).

(** The row [_enqueue_effect_in_connection] inserts. *)
Definition new_effect_row (a : effect_args) (body target : dict) : effect_row :=
  let created := ea_now_ms a in
  let effective_state :=
    match ea_state a, ea_expires_at_ms a with
    | queued, Some e => if e <=? created then expired else queued
    | st, _ => st
    end in
  {| eff_effect_id := ea_effect_id a;
     eff_operation_key := ea_operation_key a;
     eff_trace_id := ea_trace_id a;
     eff_turn_id := ea_turn_id a;
     eff_turn_revision := ea_turn_revision a;
     eff_principal := ea_principal a;
     eff_capability := ea_capability a;
     eff_target_json := target;
     eff_target_hash := canonical_hash (JObj target);
     eff_payload_kind := let k := str_or_empty (dict_get "kind" body) in
                         if str_true k then k else "text";
     eff_payload_hash := canonical_hash (JObj body);
     eff_payload_json := Some body;
     eff_payload_purged_ms := None;
     eff_state := effective_state;
     eff_expires_at_ms := ea_expires_at_ms a;
     eff_policy_version := ea_policy_version a;
     eff_policy_hash := ea_policy_hash a;
     eff_lease_owner := None;
     eff_lease_until_ms := None;
     eff_origin := ea_origin a;
     eff_admission_id := ea_admission_id a;
     eff_created_ms := created;
     eff_updated_ms := created |}.

(** What an already known [operation_key] means for a submission: the original id, or a
    conflict. *)
Definition resubmit (r : effect_row) (payload_hash target_hash : string) (a : effect_args)
    : result string :=
  let stored_origin := if str_true (eff_origin r) then eff_origin r else "legacy" in
  if negb (stored_origin =?s ea_origin a)
     || negb (opt_str_eqb (eff_admission_id r) (ea_admission_id a))
  then Raise (EffectConflictError "operation_key already exists with different provenance")
  else match eff_payload_json r with
       | None => Ok (eff_effect_id r)
       | Some _ =>
           if same_effect r payload_hash target_hash a then Ok (eff_effect_id r)
           else Raise (EffectConflictError "operation_key already exists with a different effect")
       end.

(** [_enqueue_effect_in_connection] *)
Definition enqueue_effect_in_connection (a : effect_args) : txn db string := λ s,
  let! body := payload_to_mapping (ea_payload a) in
  let payload_hash := canonical_hash (JObj body) in
  let! resolved_target := resolve_target (ea_target a) in
  let target := opt_target_dict resolved_target in
  let target_hash := canonical_hash (JObj target) in
  let! _ := check_admission (ea_origin a) (ea_admission_id a) payload_hash resolved_target s in
  match by_id eff_operation_key (ea_operation_key a) (effects s) with
  | Some r => let! effect_id := resubmit r payload_hash target_hash a in Ok (effect_id, s)
  | None =>
  if (ea_origin a =?s "participation")
     && row_exists (λ r, (eff_origin r =?s "participation")
                         && opt_str_eqb (eff_admission_id r) (ea_admission_id a)) (effects s)
  then Raise (EffectConflictError "admission_id is already bound to effect") else
  match effect_row_of (ea_effect_id a) s with
  | Some _ => Raise (EffectConflictError "effect_id already belongs to another operation key")
  | None =>
      let row := new_effect_row a body target in
      Ok (ea_effect_id a,
          append_evidence (ea_effect_id a) "submitted" (Some (state_str (eff_state row))) None
            (ea_now_ms a) None (s <| effects ::= insert_row row |>))
  end
  end.

(** [enqueue_effect]; [state] is the raw string argument. *)
Definition enqueue_effect (a : effect_args) (state : string) : prog db string :=
  if negb (str_true (ea_effect_id a)) then praise (ValueError "effect_id is required")
  else if negb (str_true (ea_operation_key a)) then praise (ValueError "operation_key is required")
  else match state_of_str state with
  | None => praise (ValueError "unknown effect state")
  | Some st =>
  if ea_turn_revision a <? 1 then praise (ValueError "turn revision must be a positive integer")
  else if negb (str_in (ea_origin a) ["legacy"; "participation"])
  then praise (ValueError "unknown effect origin")
  else write (enqueue_effect_in_connection (a <| ea_state := st |>))
  end.

(** The arguments an envelope is enqueued with. *)
Definition args_of_envelope (e : EffectEnvelope) (now_ms : Z) (origin : string)
    (admission_id : option string) : effect_args :=
  {| ea_effect_id := env_effect_id e;
     ea_operation_key := env_operation_key e;
     ea_payload := TypedPayload (env_payload e);
     ea_now_ms := now_ms;
     ea_trace_id := env_trace_id e;
     ea_turn_id := env_turn_id e;
     ea_turn_revision := env_turn_revision e;
     ea_principal := env_principal e;
     ea_capability := env_capability e;
     ea_target := TypedTarget (env_target e);
     ea_expires_at_ms := env_expires_at_ms e;
     ea_policy_version := env_policy_version e;
     ea_policy_hash := env_policy_hash e;
     ea_state := queued;
     ea_origin := origin;
     ea_admission_id := admission_id |}.

(** [enqueue_participation_effect]; [admission_data] is [_admission_mapping] of the
    admission (its JSON record) and [now_ms] the clock for an envelope without a creation
    time. *)
Definition enqueue_participation_effect (e : EffectEnvelope) (admission_id : string)
    (admission_data : dict) (now_ms : Z) : prog db string :=
  if negb (env_origin e =?s "participation")
  then praise (ProcessingError "participation effect requires origin='participation'")
  else if negb (str_true admission_id)
          || negb (opt_str_eqb (env_admission_id e) (Some admission_id))
  then praise (ProcessingError "participation effect requires a matching admission id")
  else let expected_hash := str_or_empty (dict_get "payload_hash" admission_data) in
  if negb (str_true expected_hash)
  then praise (ProcessingError "participation admission requires a payload hash")
  else if negb (expected_hash =?s payload_hash (env_payload e))
  then praise (EffectConflictError "participation admission payload hash does not match effect")
  else if negb (field_is "channel" (tgt_channel (env_target e)) admission_data)
          || negb (field_is "chat_id" (tgt_chat_id (env_target e)) admission_data)
  then praise (EffectConflictError "participation admission target does not match effect")
  else let created := default now_ms (env_created_ms e) in
  write (λ s,
    let! s1 :=
      match by_id adm_admission_id admission_id (participation_admissions s) with
      | None => Ok (s <| participation_admissions ::=
                           insert_row (MkAdmission admission_id admission_data created) |>)
      | Some row =>
          if canonical_json (JObj (adm_payload_json row)) =?s canonical_json (JObj admission_data)
          then Ok s
          else Raise (EffectConflictError "admission_id already exists with different content")
      end in
    enqueue_effect_in_connection
      (args_of_envelope e created "participation" (Some admission_id)) s1).

(** ** Claims *)

(** [UPDATE effects SET state = 'executing', ... WHERE effect_id = ? AND state = 'queued'],
    then the attempt row and its evidence. *)
Definition claimed_effects (effect_id worker_id : string) (now_ms lease_ms : Z)
    (t : list effect_row) : list effect_row :=
  update (λ r, has_id eff_effect_id effect_id r && state_eqb (eff_state r) queued)
    (λ r, r <| eff_state := executing |> <| eff_lease_owner := Some worker_id |>
            <| eff_lease_until_ms := Some (now_ms + lease_ms) |> <| eff_updated_ms := now_ms |>) t.

Definition commit_claim (effect_id worker_id : string) (now_ms lease_ms : Z)
    (version : option string) (attempt_id : string) (s : db) : db :=
  append_evidence effect_id "claim" (Some "executing") None now_ms (Some worker_id)
    (s <| effects ::= claimed_effects effect_id worker_id now_ms lease_ms |>
       <| effect_attempts ::= insert_row (MkAttempt attempt_id effect_id (Some worker_id) now_ms
                                            None None version None) |>).

(** [claim_effect]; [attempt_id] is the fresh [uuid4]. *)
Definition claim_effect (effect_id worker_id : string) (now_ms lease_ms : Z)
    (policy_version : option string) (attempt_id : string) : prog db bool :=
  if negb (str_true worker_id) then praise (ValueError "worker_id is required")
  else if lease_ms <=? 0 then praise (ValueError "lease_ms must be positive")
  else write (λ s,
    match effect_row_of effect_id s with
    | None => Ok (false, s)
    | Some row =>
    if negb (state_in (eff_state row) CLAIMABLE_EFFECT_STATES) then Ok (false, s) else
    if negb (rowcount (λ r, has_id eff_effect_id effect_id r && state_eqb (eff_state r) queued)
               (effects s) =? 1)%nat
    then Ok (false, s <| effects ::= claimed_effects effect_id worker_id now_ms lease_ms |>) else
    if row_exists (has_id att_attempt_id attempt_id) (effect_attempts s)
    then Raise (IntegrityError "UNIQUE constraint failed: effect_attempts.attempt_id") else
    let version := match policy_version with
                   | Some v => if str_true v then Some v else eff_policy_version row
                   | None => eff_policy_version row
                   end in
    Ok (true, commit_claim effect_id worker_id now_ms lease_ms version attempt_id s)
    end).

(** [release_claim]: the lease goes, the effect stays [executing]. *)
Definition release_claim (effect_id worker_id : string) (now_ms : Z) : prog db bool :=
  write (λ s,
    let p := λ r, has_id eff_effect_id effect_id r && state_eqb (eff_state r) executing
                  && opt_str_eqb (eff_lease_owner r) (Some worker_id) in
    Ok ((rowcount p (effects s) =? 1)%nat,
        s <| effects ::= update p (λ r, r <| eff_lease_owner := None |>
                                           <| eff_lease_until_ms := None |>
                                           <| eff_updated_ms := now_ms |>) |>)).

(** ** Transitions *)

(** What callers pass as [evidence]. *)
Inductive evidence_arg :=
| NoEvidence
| EvidenceRecord (e : EffectEvidence)
| EvidenceKind (kind : string)
| EvidenceMapping (d : dict).

(** [_opt_int] on a JSON value (a float text keeps its integral part). *)
Fixpoint before_dot (s : string) : string :=
  match s with
  | EmptyString => EmptyString
  | String c s' => if (Ascii.nat_of_ascii c =? 46)%nat then EmptyString else String c (before_dot s')
  end.

Definition opt_int (o : option json) : option Z :=
  match o with
  | Some (JInt z) => Some z
  | Some (JBool b) => Some (if b then 1 else 0)
  | Some (JStr s) => py_int (py_strip s)
  | Some (JFloat t) => py_int (before_dot t)
  | _ => None
  end.

(** [_coerce_evidence] *)
Definition coerce_evidence (e : evidence_arg) (now_ms : Z) (worker_id : option string)
    : option EffectEvidence :=
  match e with
  | NoEvidence => None
  | EvidenceRecord e => Some e
  | EvidenceKind k => Some (MkEvidence k None (Some now_ms) worker_id None)
  | EvidenceMapping d =>
      let k := str_or_empty (dict_get "kind" d) in
      Some (MkEvidence (if str_true k then k else "state") (opt_str (dict_get "detail" d))
              (Some (match opt_int (dict_get "observed_ms" d) with
                     | Some z => if z =? 0 then now_ms else z
                     | None => now_ms
                     end))
              (match opt_str (dict_get "worker_id" d) with Some w => Some w | None => worker_id end)
              None)
  end.

(** [{"kind": k, "detail": d}] *)
Definition evidence_map (kind detail : string) : evidence_arg :=
  EvidenceMapping [("kind", JStr kind); ("detail", JStr detail)].

Definition evidence_kinds (e : option EffectEvidence) : list string :=
  match e with Some e => [evi_kind e] | None => [] end.

(** [UPDATE effects SET state = ?, ... WHERE effect_id = ? AND state = ?]; leaving
    [executing] clears the lease. *)
Definition moved_effects (effect_id : string) (current t : EffectState) (now_ms : Z)
    (l : list effect_row) : list effect_row :=
  let clears_lease := state_eqb current executing in
  update (λ r, has_id eff_effect_id effect_id r && state_eqb (eff_state r) current)
    (λ r, r <| eff_state := t |> <| eff_updated_ms := now_ms |>
            <| eff_lease_owner ::= (λ o, if clears_lease then None else o) |>
            <| eff_lease_until_ms ::= (λ o, if clears_lease then None else o) |>) l.

(** [UPDATE effect_attempts SET finished_ms = ?, outcome = ? WHERE effect_id = ? AND
    finished_ms IS NULL] *)
Definition finish_attempts (effect_id outcome : string) (now_ms : Z) (l : list attempt_row)
    : list attempt_row :=
  update (λ a, (att_effect_id a =?s effect_id) && is_none (att_finished_ms a))
    (λ a, a <| att_finished_ms := Some now_ms |> <| att_outcome := Some outcome |>) l.

Definition commit_transition (effect_id : string) (current t : EffectState) (now_ms : Z)
    (record : option EffectEvidence) (worker_id : option string) (s : db) : db :=
  append_evidence effect_id (match record with Some e => evi_kind e | None => "state" end)
    (Some (state_str t)) (match record with Some e => evi_detail e | None => None end)
    now_ms worker_id
    (s <| effects ::= moved_effects effect_id current t now_ms |>
       <| effect_attempts ::= (if state_eqb current executing
                               then finish_attempts effect_id (state_str t) now_ms else id) |>).

(** [transition]: compare-and-set on the effect state. [false] when the expectation
    missed; a structurally illegal change raises. *)
Definition transition (effect_id : string) (expected : list string) (target : string)
    (now_ms : Z) (evidence : evidence_arg) (worker_id : option string) : prog db bool :=
  match expected with
  | [] => praise (ValueError "expected must name at least one state")
  | _ =>
  let record := coerce_evidence evidence now_ms worker_id in
  write (λ s,
    match effect_row_of effect_id s with
    | None => Ok (false, s)
    | Some row =>
    let current := eff_state row in
    if negb (str_in (state_str current) expected) then Ok (false, s) else
    let! _ := validate_transition (state_str current) target (evidence_kinds record) worker_id
                (eff_lease_owner row) in
    let t := default current (state_of_str target) in
    if negb (rowcount (λ r, has_id eff_effect_id effect_id r && state_eqb (eff_state r) current)
               (effects s) =? 1)%nat
    then Ok (false, s <| effects ::= moved_effects effect_id current t now_ms |>)
    else Ok (true, commit_transition effect_id current t now_ms record worker_id s)
    end)
  end.

(** [record_evidence]: evidence without a state change *)
Definition record_evidence (effect_id kind : string) (now_ms : Z) (detail worker_id : option string)
    : prog db unit :=
  write (λ s,
    match effect_state effect_id s with
    | None => Raise (ProcessingError "unknown effect")
    | Some st => Ok (tt, append_evidence effect_id kind (Some (state_str st)) detail now_ms worker_id s)
    end).

(** ** Crash recovery *)

(** One expired claim becomes [unknown]. *)
Definition recover_one (now_ms : Z) (s : db) (effect_id : string) : db :=
  let s1 := s <| effects ::=
                   update (λ r, has_id eff_effect_id effect_id r && state_eqb (eff_state r) executing)
                     (λ r, r <| eff_state := unknown |> <| eff_lease_owner := None |>
                             <| eff_lease_until_ms := None |> <| eff_updated_ms := now_ms |>) |> in
  let s2 := s1 <| effect_attempts ::= finish_attempts effect_id "unknown" now_ms |> in
  append_evidence effect_id "recovery" (Some "unknown")
    (Some "executing claim expired; outcome unproven") now_ms None s2.

(** [state = 'executing' AND (lease_until_ms IS NULL OR lease_until_ms <= now)] *)
Definition claim_expired (now_ms : Z) (r : effect_row) : bool :=
  state_eqb (eff_state r) executing
  && match eff_lease_until_ms r with None => true | Some t => t <=? now_ms end.

Definition recover_executing (now_ms : Z) : prog db (list string) :=
  write (λ s,
    let effect_ids := map eff_effect_id (select (claim_expired now_ms) (effects s)) in
    Ok (effect_ids, foldl (recover_one now_ms) s effect_ids)).

(** ** Stale work *)

(** Run [f] on each item, keeping those for which it returned [true]. *)
Fixpoint filter_prog {S A} (f : A → prog S bool) (l : list A) : prog S (list A) :=
  match l with
  | [] => pret []
  | x :: l' =>
      let* b := f x in
      let* rest := filter_prog f l' in
      pret (if b then x :: rest else rest)
  end.

(** The queued effects of an outdated revision of a turn. *)
Definition stale_effect (turn_id : string) (current_revision : Z) (r : effect_row) : bool :=
  (eff_turn_id r =?s turn_id) && (eff_turn_revision r <? current_revision)
  && state_eqb (eff_state r) queued.

(** [cancel_stale_effects]: one compare-and-set transition per stale effect *)
Definition cancel_stale_effects (turn_id : string) (current_revision now_ms : Z)
    (reason : string) : prog db (list string) :=
  let* ids := pget (λ s, map eff_effect_id
                     (order_by (λ a b, time_id_leb (eff_created_ms a, eff_effect_id a)
                                         (eff_created_ms b, eff_effect_id b))
                        (select (stale_effect turn_id current_revision) (effects s)))) in
  filter_prog (λ effect_id, transition effect_id ["queued"] "cancelled" now_ms
                              (evidence_map "superseded" reason) None) ids.

(** [count_waiting_effects]: [json_extract] on the target columns *)
Definition count_waiting_effects (channel chat_id : string) (states : list EffectState) (s : db)
    : nat :=
  rowcount (λ r, state_in (eff_state r) states && field_is "channel" channel (eff_target_json r)
                 && field_is "chat_id" chat_id (eff_target_json r)) (effects s).

(** [list_effects] (the row projection), optionally filtered by state *)
Definition list_effects (states : option (list EffectState)) (limit : Z) (s : db)
    : list effect_row :=
  match states with
  | Some [] => []
  | _ =>
      take (Z.to_nat (Z.max 1 limit))
        (order_by (λ a b, time_id_leb (eff_created_ms a, eff_effect_id a)
                            (eff_created_ms b, eff_effect_id b))
           (select (λ r, match states with Some l => state_in (eff_state r) l | None => true end)
              (effects s)))
  end.

End Definitions.
