(* ===== verification/OutboxFacts.v ===== *)
(** * OutboxFacts

    The columns of an effect no operation rewrites, and a case analysis of each outbox
    operation: what it returns and the database it leaves, branch by branch. *)

From Stdlib Require Import ZArith Lia.
From S2P Require Import Prelude Tables Json Models Schema Outbox.

(** ** Identity *)

(** The columns no operation ever rewrites. *)
Definition frozen (r : effect_row) : effect_row :=
  r <| eff_state := planned |> <| eff_lease_owner := None |> <| eff_lease_until_ms := None |>
    <| eff_updated_ms := 0 |> <| eff_payload_json := None |> <| eff_payload_purged_ms := None |>.

(** ** Case analyses *)

Section Cases.
  Context `{Sha256}.

Lemma effect_row_of_Some e s r :
  effect_row_of e s = Some r → r ∈ effects s ∧ eff_effect_id r = e.
Proof. apply by_id_Some_inv. Qed.

(** With a primary key, the guarded UPDATE of one effect hits exactly that row. *)
Lemma guarded_rowcount e s r st :
  unique_key eff_effect_id (effects s) → effect_row_of e s = Some r → eff_state r = st →
  rowcount (λ r, has_id eff_effect_id e r && state_eqb (eff_state r) st) (effects s) = 1%nat.
Proof.
  intros Hu Hr <-. rewrite (rowcount_by_id eff_effect_id e (λ r', state_eqb (eff_state r') (eff_state r)))
    by done.
  unfold effect_row_of in Hr. rewrite Hr.
  assert (state_eqb (eff_state r) (eff_state r) = true) as -> by (by apply state_eqb_eq). done.
Qed.

(** What a [transition] does: nothing, or the committed change under its guards. *)
Lemma transition_cases e exp tgt now ev w s :
  unique_key eff_effect_id (effects s) →
  ((transition e exp tgt now ev w s).2 = s ∧ (transition e exp tgt now ev w s).1 ≠ Ok true) ∨
  ∃ row t,
    effect_row_of e s = Some row ∧ state_str (eff_state row) ∈ exp ∧ tgt = state_str t ∧
    transition_ok (eff_state row) t (evidence_kinds (coerce_evidence ev now w)) w
      (eff_lease_owner row) ∧
    transition e exp tgt now ev w s =
      (Ok true, commit_transition e (eff_state row) t now (coerce_evidence ev now w) w s).
Proof.
  intros Hu. unfold transition, write. destruct exp as [|x exp]; [by left|].
  destruct (effect_row_of e s) as [row|] eqn:Er; [|by left].
  destruct (str_in (state_str (eff_state row)) (x :: exp)) eqn:Ein; cbn [negb]; [|by left].
  set (kinds := evidence_kinds _).
  destruct (validate_transition _ _ kinds _ _) as [[]|err] eqn:Ev; cbn [rbind]; [|by left].
  destruct (state_of_str tgt) as [t|] eqn:Et.
  2:{ unfold validate_transition in Ev. by rewrite Et in Ev. }
  apply state_of_str_inv in Et as ->. rewrite (guarded_rowcount _ _ row) by done.
  right. exists row, t. apply str_in_spec in Ein. rewrite validate_transition_ok in Ev.
  do 4 (split; [done|]). done.
Qed.

(** A [claim_effect] wins exactly when it finds the effect [queued]. *)
Lemma claim_cases e w now lease ver aid s :
  unique_key eff_effect_id (effects s) →
  ((claim_effect e w now lease ver aid s).2 = s ∧
   (claim_effect e w now lease ver aid s).1 ≠ Ok true) ∨
  ∃ row v,
    effect_row_of e s = Some row ∧ eff_state row = queued ∧
    row_exists (has_id att_attempt_id aid) (effect_attempts s) = false ∧ w ≠ "" ∧ 0 < lease ∧
    claim_effect e w now lease ver aid s = (Ok true, commit_claim e w now lease v aid s).
Proof.
  intros Hu. unfold claim_effect, write.
  destruct (str_true w) eqn:Ew; cbn [negb]; [|by left].
  destruct (lease <=? 0) eqn:El; [by left|].
  destruct (effect_row_of e s) as [row|] eqn:Er; [|by left].
  destruct (state_in (eff_state row) CLAIMABLE_EFFECT_STATES) eqn:Ein; cbn [negb]; [|by left].
  apply state_in_spec in Ein. assert (eff_state row = queued) as Hq by set_solver.
  rewrite (guarded_rowcount _ _ row) by done. cbn [negb Nat.eqb].
  destruct (row_exists _ (effect_attempts s)) eqn:Ea; [by left|].
  right. eexists row, _. apply str_true_spec in Ew. repeat split; try done. lia.
Qed.

(** [enqueue_effect_in_connection] raises, returns the known effect, or inserts one row. *)
Lemma enqueue_cases a s :
  (∃ err, enqueue_effect_in_connection a s = Raise err) ∨
  (∃ r, by_id eff_operation_key (ea_operation_key a) (effects s) = Some r ∧
        enqueue_effect_in_connection a s = Ok (eff_effect_id r, s)) ∨
  (∃ body target, by_id eff_operation_key (ea_operation_key a) (effects s) = None ∧
     effect_row_of (ea_effect_id a) s = None ∧
     payload_to_mapping (ea_payload a) = Ok body ∧
     (ea_origin a = "participation" →
        row_exists (λ r, (eff_origin r =?s "participation")
                         && opt_str_eqb (eff_admission_id r) (ea_admission_id a)) (effects s) = false) ∧
     enqueue_effect_in_connection a s =
       Ok (ea_effect_id a,
           append_evidence (ea_effect_id a) "submitted"
             (Some (state_str (eff_state (new_effect_row a body target)))) None (ea_now_ms a) None
             (s <| effects ::= insert_row (new_effect_row a body target) |>))).
Proof.
  unfold enqueue_effect_in_connection.
  destruct (payload_to_mapping _) as [body|err]; cbn [rbind]; [|by eauto].
  destruct (resolve_target _) as [tg|err]; cbn [rbind]; [|by eauto].
  destruct (check_admission _ _ _ _ _) as [?|err]; cbn [rbind]; [|by eauto].
  destruct (by_id eff_operation_key _ _) as [r|] eqn:Ek.
  { destruct (resubmit _ _ _ _) as [i|err] eqn:Er; cbn [rbind]; [|by eauto].
    right; left. exists r. split; [done|]. unfold resubmit in Er.
    destruct (_ || _); [done|]. destruct (eff_payload_json r); [destruct (same_effect _ _ _ _)|];
      congruence. }
  destruct ((ea_origin a =?s "participation") && _) eqn:Ep; [by eauto|].
  destruct (effect_row_of _ s) eqn:Ee; [by eauto|].
  right; right. exists body, (opt_target_dict tg). repeat split; try done.
  intros Ho. rewrite Ho in Ep. by rewrite str_eqb_refl in Ep.
Qed.

End Cases.
