(* ===== verification/OutboxSpec.v ===== *)
(** * OutboxSpec

    The abstract outbox: a labelled transition system over the effect and attempt tables
    alone, with its invariant and its at-most-once accounting. Every operation of the
    store is shown elsewhere to be a sequence of these steps, so what is proved here holds
    of the whole store. *)

From Stdlib Require Import ZArith Lia.
From S2P Require Import Prelude Tables Json Models Schema Outbox OutboxFacts.

Inductive label :=
| LSubmit (e : string)
| LClaim (e : string)
| LMove (e : string) (c t : EffectState) (kinds : list string)
| LHouse.

Section Spec.
  Context `{Sha256}.

(** Payload stripping and lease release: nothing a state observer can see. *)
Definition housekeeping (r r' : effect_row) : Prop :=
  frozen r = frozen r' ∧ eff_state r' = eff_state r ∧
  (eff_payload_json r' = eff_payload_json r ∨ eff_payload_json r' = None) ∧
  (eff_lease_owner r = None → eff_lease_owner r' = None) ∧
  (eff_lease_until_ms r = None → eff_lease_until_ms r' = None).

(** A row as the store first inserts it. *)
Definition fresh_effect (row : effect_row) (s : db) : Prop :=
  by_id eff_operation_key (eff_operation_key row) (effects s) = None ∧
  effect_row_of (eff_effect_id row) s = None ∧
  eff_lease_owner row = None ∧ eff_lease_until_ms row = None ∧
  (∀ d, eff_payload_json row = Some d → eff_payload_hash row = canonical_hash (JObj d)) ∧
  (eff_origin row = "participation" →
     ∀ r, r ∈ effects s → eff_origin r = "participation" →
          eff_admission_id r ≠ eff_admission_id row).

Inductive outbox_step : label → db → db → Prop :=
| step_submit s s' row :
    fresh_effect row s →
    effects s' = insert_row row (effects s) →
    effect_attempts s' = effect_attempts s →
    outbox_step (LSubmit (eff_effect_id row)) s s'
| step_claim s s' e row w now lease ver aid :
    effect_row_of e s = Some row → eff_state row = queued →
    row_exists (has_id att_attempt_id aid) (effect_attempts s) = false →
    effects s' = claimed_effects e w now lease (effects s) →
    effect_attempts s' =
      insert_row (MkAttempt aid e (Some w) now None None ver None) (effect_attempts s) →
    outbox_step (LClaim e) s s'
| step_move s s' e row t now kinds :
    effect_row_of e s = Some row →
    t ∈ allowed_transitions (eff_state row) →
    (t = queued → eff_state row = unknown ∨ eff_state row = failed → requeue_evidence kinds) →
    effects s' = moved_effects e (eff_state row) t now (effects s) →
    effect_attempts s' = (if state_eqb (eff_state row) executing
                          then finish_attempts e (state_str t) now (effect_attempts s)
                          else effect_attempts s) →
    outbox_step (LMove e (eff_state row) t kinds) s s'
| step_house s s' (keep : attempt_row → bool) :
    Forall2 housekeeping (effects s) (effects s') →
    effect_attempts s' = List.filter keep (effect_attempts s) →
    outbox_step LHouse s s'.

(** Sequences of steps with their labels. *)
Inductive outbox_steps : list label → db → db → Prop :=
| steps_nil s s' :
    effects s' = effects s → effect_attempts s' = effect_attempts s → outbox_steps [] s s'
| steps_cons l ls s s1 s2 :
    outbox_step l s s1 → outbox_steps ls s1 s2 → outbox_steps (l :: ls) s s2.

(** ** The invariant *)

Definition lease_ok (r : effect_row) : Prop :=
  eff_state r ≠ executing → eff_lease_owner r = None ∧ eff_lease_until_ms r = None.

(** Well-formed effects table: primary key, unique operation keys, leases only on
    executing effects, payloads that match their hashes, one effect per admission. *)
Record rows_inv (t : list effect_row) : Prop := MkRowsInv {
  inv_ids : unique_key eff_effect_id t;
  inv_keys : unique_key eff_operation_key t;
  inv_leases : ∀ r, r ∈ t → lease_ok r;
  inv_hashes : ∀ r d, r ∈ t → eff_payload_json r = Some d →
                 eff_payload_hash r = canonical_hash (JObj d);
  inv_admissions : ∀ r1 r2, r1 ∈ t → r2 ∈ t →
                     eff_origin r1 = "participation" → eff_origin r2 = "participation" →
                     eff_admission_id r1 = eff_admission_id r2 →
                     eff_effect_id r1 = eff_effect_id r2;
}.

(** An open attempt belongs to an executing effect, and to no other open attempt's. *)
Record outbox_inv (s : db) : Prop := MkOutboxInv {
  inv_rows : rows_inv (effects s);
  inv_attempt_ids : unique_key att_attempt_id (effect_attempts s);
  inv_open : ∀ a, a ∈ effect_attempts s → att_finished_ms a = None →
               effect_state (att_effect_id a) s = Some executing;
  inv_open_one : ∀ a b, a ∈ effect_attempts s → b ∈ effect_attempts s →
                   att_finished_ms a = None → att_finished_ms b = None →
                   att_effect_id a = att_effect_id b → a = b;
}.

Lemma outbox_inv_empty : outbox_inv empty_db.
Proof.
  split; [split| | |]; simpl; try apply NoDup_nil_2; intros; exfalso; by eapply not_elem_of_nil.
Qed.

(** The invariant only reads two tables. *)
Lemma outbox_inv_ext s s' :
  effects s' = effects s → effect_attempts s' = effect_attempts s →
  outbox_inv s → outbox_inv s'.
Proof.
  intros He Ha [H1 H2 H3 H4].
  split; unfold effect_state, effect_row_of in *; rewrite ?He, ?Ha; done.
Qed.

(** In-place evolution of one row, as far as [rows_inv] can tell. *)
Definition row_keeps (r r' : effect_row) : Prop :=
  frozen r = frozen r' ∧ (lease_ok r → lease_ok r') ∧
  (eff_payload_json r' = eff_payload_json r ∨ eff_payload_json r' = None).

Lemma row_keeps_refl r : row_keeps r r.
Proof. split; [done|]. split; [done|by left]. Qed.

Lemma frozen_columns r r' :
  frozen r = frozen r' →
  eff_effect_id r' = eff_effect_id r ∧ eff_operation_key r' = eff_operation_key r ∧
  eff_payload_hash r' = eff_payload_hash r ∧ eff_origin r' = eff_origin r ∧
  eff_admission_id r' = eff_admission_id r.
Proof. destruct r, r'. unfold frozen. simpl. intros [=]. subst. done. Qed.

Lemma rows_inv_keeps t t' : Forall2 row_keeps t t' → rows_inv t → rows_inv t'.
Proof.
  intros Ht [H1 H2 H3 H4 H5].
  assert (∀ r', r' ∈ t' → ∃ r, r ∈ t ∧ row_keeps r r') as Hback.
  { intros r' Hr'. apply list_elem_of_lookup in Hr' as [i Hi].
    eapply Forall2_lookup_r in Hi as (r & Hr & Hk); [|done].
    exists r. split; [|done]. apply list_elem_of_lookup. eauto. }
  assert (∀ {K} (key : effect_row → K), (∀ r r', frozen r = frozen r' → key r' = key r) →
            unique_key key t → unique_key key t') as Huniq.
  { intros K key Hkey. unfold unique_key.
    enough (key <$> t' = key <$> t) as -> by done.
    clear -Ht Hkey. induction Ht as [|r r' t t' [Hr _] Ht IH]; [done|]. simpl. f_equal; auto. }
  split.
  - apply Huniq; [|done]. intros r r' Hf%frozen_columns. naive_solver.
  - apply Huniq; [|done]. intros r r' Hf%frozen_columns. naive_solver.
  - intros r' (r & Hr & _ & Hl & _)%Hback. auto.
  - intros r' d (r & Hr & Hf%frozen_columns & _ & Hp)%Hback Hd.
    destruct Hf as (_ & _ & -> & _). apply (H4 _ _ Hr). destruct Hp; congruence.
  - intros r1' r2' (r1 & Hr1 & Hf1%frozen_columns & _)%Hback
      (r2 & Hr2 & Hf2%frozen_columns & _)%Hback.
    destruct Hf1 as (-> & _ & _ & -> & ->), Hf2 as (-> & _ & _ & -> & ->). by apply H5.
Qed.

Lemma keeps_update p f t :
  (∀ r, r ∈ t → p r = true → row_keeps r (f r)) → Forall2 row_keeps t (update p f t).
Proof.
  unfold update. induction t as [|r t IH]; intros Hf; simpl; constructor.
  - destruct (p r) eqn:E; [apply Hf; [set_solver|done]|apply row_keeps_refl].
  - apply IH. intros. apply Hf; set_solver.
Qed.

(** ** States after a step *)

Lemma effect_state_update e x t p f :
  (∀ r, p r = true → has_id eff_effect_id e r = true) →
  (∀ r, p r = true → eff_effect_id (f r) = eff_effect_id r) → x ≠ e →
  by_id eff_effect_id x (update p f t) = by_id eff_effect_id x t.
Proof.
  intros Hp Hf Hx. rewrite by_id_update by done.
  destruct (by_id eff_effect_id x t) as [r|] eqn:E; [|done]. simpl.
  destruct (p r) eqn:Epr; [|done]. apply Hp, str_eqb_eq in Epr.
  apply by_id_Some_inv in E as [_ E]. congruence.
Qed.

Lemma effect_state_moved_other e x c t now s s' :
  effects s' = moved_effects e c t now (effects s) → x ≠ e →
  effect_state x s' = effect_state x s.
Proof.
  intros Hs Hx. unfold effect_state, effect_row_of. rewrite Hs. unfold moved_effects.
  rewrite (effect_state_update e); try done. by intros r [? _]%andb_true_iff.
Qed.

Lemma effect_state_moved e row t now s s' :
  effect_row_of e s = Some row →
  effects s' = moved_effects e (eff_state row) t now (effects s) →
  effect_state e s' = Some t.
Proof.
  intros Hr Hs. unfold effect_state, effect_row_of in *. rewrite Hs. unfold moved_effects.
  rewrite by_id_update by done. rewrite Hr. simpl.
  apply by_id_Some_inv in Hr as [_ Hid]. unfold has_id. rewrite Hid, str_eqb_refl. simpl.
  assert (state_eqb (eff_state row) (eff_state row) = true) as -> by (by apply state_eqb_eq).
  done.
Qed.

Lemma effect_state_claimed_other e x w now lease s s' :
  effects s' = claimed_effects e w now lease (effects s) → x ≠ e →
  effect_state x s' = effect_state x s.
Proof.
  intros Hs Hx. unfold effect_state, effect_row_of. rewrite Hs. unfold claimed_effects.
  rewrite (effect_state_update e); try done. by intros r [? _]%andb_true_iff.
Qed.

Lemma effect_state_claimed e row w now lease s s' :
  effect_row_of e s = Some row → eff_state row = queued →
  effects s' = claimed_effects e w now lease (effects s) →
  effect_state e s' = Some executing.
Proof.
  intros Hr Hq Hs. unfold effect_state, effect_row_of in *. rewrite Hs. unfold claimed_effects.
  rewrite by_id_update by done. rewrite Hr. simpl.
  apply by_id_Some_inv in Hr as [_ Hid]. unfold has_id. rewrite Hid, str_eqb_refl, Hq. done.
Qed.

Lemma effect_state_house s s' x :
  Forall2 housekeeping (effects s) (effects s') → effect_state x s' = effect_state x s.
Proof.
  unfold effect_state, effect_row_of, by_id, fetchone, has_id.
  induction 1 as [|r r' t t' (Hf & Hst & _) Ht IH]; [done|]. simpl.
  apply frozen_columns in Hf as (-> & _). destruct (eff_effect_id r =?s x); [|done].
  simpl. by rewrite Hst.
Qed.

Lemma effect_state_submit row s s' x :
  effects s' = insert_row row (effects s) →
  effect_state x s' =
    match effect_state x s with
    | Some st => Some st
    | None => if eff_effect_id row =?s x then Some (eff_state row) else None
    end.
Proof.
  intros Hs. unfold effect_state, effect_row_of. rewrite Hs, by_id_insert.
  destruct (by_id eff_effect_id x (effects s)); [done|]. simpl. by destruct (_ =?s x).
Qed.

(** ** Every step keeps the invariant *)

Lemma rows_inv_submit row s :
  fresh_effect row s → rows_inv (effects s) → rows_inv (insert_row row (effects s)).
Proof.
  intros (Hk & Hid & Hl1 & Hl2 & Hh & Ha) [H1 H2 H3 H4 H5]. split.
  - apply unique_key_insert; [done|]. intros r Hr. by eapply by_id_None_inv.
  - apply unique_key_insert; [done|]. intros r Hr. by eapply by_id_None_inv.
  - intros r [Hr| ->]%elem_of_insert_row; [auto|]. by intros _.
  - intros r d [Hr| ->]%elem_of_insert_row; eauto.
  - intros r1 r2 [Hr1| ->]%elem_of_insert_row [Hr2| ->]%elem_of_insert_row Ho1 Ho2 Heq; auto.
    + exfalso. by eapply Ha.
    + exfalso. eapply Ha; eauto.
Qed.

Lemma row_keeps_claim r w now lease :
  row_keeps r (r <| eff_state := executing |> <| eff_lease_owner := Some w |>
                 <| eff_lease_until_ms := Some (now + lease) |> <| eff_updated_ms := now |>).
Proof. split; [done|]. split; [|by left]. intros _ Hx. done. Qed.

Lemma moved_keeps e c t now l :
  t ∈ allowed_transitions c → Forall2 row_keeps l (moved_effects e c t now l).
Proof.
  intros Ht. apply keeps_update. intros r _ [_ Hc%state_eqb_eq]%andb_true_iff.
  split; [done|]. split; [|by left]. intros Hl _. simpl.
  destruct (state_eqb c executing) eqn:Ex; [done|]. simpl.
  apply Hl. rewrite Hc. intros ->. done.
Qed.

Lemma housekeeping_keeps r r' : housekeeping r r' → row_keeps r r'.
Proof.
  intros (H1 & H2 & H3 & H4 & H5). split; [done|]. split; [|done].
  unfold lease_ok. rewrite H2. intros Hl Hx. destruct (Hl Hx). auto.
Qed.

Lemma elem_of_finish_attempts a e out now l :
  a ∈ finish_attempts e out now l → att_finished_ms a = None →
  a ∈ l ∧ att_effect_id a ≠ e.
Proof.
  intros (a0 & Ha0 & ->)%elem_of_update Hfin.
  destruct (att_effect_id a0 =?s e) eqn:Ee; simpl in *.
  - destruct (att_finished_ms a0) eqn:Ef; simpl in *; congruence.
  - split; [done|]. by apply str_eqb_neq.
Qed.

Lemma open_attempts_none e s st :
  outbox_inv s → effect_state e s = Some st → st ≠ executing →
  ∀ a, a ∈ effect_attempts s → att_finished_ms a = None → att_effect_id a ≠ e.
Proof. intros Hi Hst Hne a Ha Hf <-. rewrite (inv_open _ Hi a) in Hst by done. congruence. Qed.

Lemma effect_state_of_row e s row :
  effect_row_of e s = Some row → effect_state e s = Some (eff_state row).
Proof. unfold effect_state. by intros ->. Qed.

Lemma claim_step_inv s s' e row w now lease ver aid :
  outbox_inv s → effect_row_of e s = Some row → eff_state row = queued →
  row_exists (has_id att_attempt_id aid) (effect_attempts s) = false →
  effects s' = claimed_effects e w now lease (effects s) →
  effect_attempts s' =
    insert_row (MkAttempt aid e (Some w) now None None ver None) (effect_attempts s) →
  outbox_inv s'.
Proof.
  intros Hi Hrow Hq Hfresh Heff Hatt.
  assert (∀ a, a ∈ effect_attempts s → att_finished_ms a = None → att_effect_id a ≠ e) as Hno.
  { eapply open_attempts_none; [done|by apply effect_state_of_row|congruence]. }
  split.
  - rewrite Heff. eapply rows_inv_keeps; [|apply Hi]. apply keeps_update.
    intros. apply row_keeps_claim.
  - rewrite Hatt. apply unique_key_insert; [apply Hi|]. intros a Ha.
    apply row_exists_false with (r := a) in Hfresh; [|done]. by apply str_eqb_neq in Hfresh.
  - rewrite Hatt. intros a [Ha| ->]%elem_of_insert_row Hf.
    + rewrite (effect_state_claimed_other e _ w now lease s s') by auto. by apply Hi.
    + by eapply effect_state_claimed.
  - rewrite Hatt. intros a b [Ha| ->]%elem_of_insert_row [Hb| ->]%elem_of_insert_row Hfa Hfb Hab;
      try done.
    + by apply (inv_open_one _ Hi).
    + exfalso. by eapply Hno.
    + exfalso. by eapply Hno.
Qed.

Lemma move_step_inv s s' e row t now :
  outbox_inv s → effect_row_of e s = Some row →
  t ∈ allowed_transitions (eff_state row) →
  effects s' = moved_effects e (eff_state row) t now (effects s) →
  effect_attempts s' = (if state_eqb (eff_state row) executing
                        then finish_attempts e (state_str t) now (effect_attempts s)
                        else effect_attempts s) →
  outbox_inv s'.
Proof.
  intros Hi Hrow Ht Heff Hatt.
  assert (∀ a, a ∈ effect_attempts s' → att_finished_ms a = None →
            a ∈ effect_attempts s ∧ att_effect_id a ≠ e) as Hopen.
  { rewrite Hatt. destruct (state_eqb (eff_state row) executing) eqn:Ex.
    - intros a. apply elem_of_finish_attempts.
    - intros a Ha Hf. split; [done|]. eapply open_attempts_none; try done.
      + by apply effect_state_of_row.
      + intros Hx. apply state_eqb_eq in Hx. congruence. }
  split.
  - rewrite Heff. eapply rows_inv_keeps; [by apply moved_keeps|apply Hi].
  - rewrite Hatt. destruct (state_eqb _ _); [|apply Hi].
    apply unique_key_update; [done|apply Hi].
  - intros a Ha Hf. destruct (Hopen a Ha Hf) as [Ha' Hne].
    rewrite (effect_state_moved_other e _ (eff_state row) t now s s') by done. by apply Hi.
  - intros a b Ha Hb Hfa Hfb. destruct (Hopen a Ha Hfa), (Hopen b Hb Hfb).
    by apply (inv_open_one _ Hi).
Qed.

Lemma outbox_step_inv l s s' : outbox_step l s s' → outbox_inv s → outbox_inv s'.
Proof.
  intros [? ? row Hf He Ha|? ? e row w now lease ver aid Hr Hq Hx He Ha
         |? ? e row t now kinds Hr Ht Hrq He Ha|? ? keep He Ha] Hi.
  - split.
    + rewrite He. by apply rows_inv_submit, Hi.
    + rewrite Ha. apply Hi.
    + rewrite Ha. intros a Hain Hfin. rewrite (effect_state_submit row _ _ _ He).
      by rewrite (inv_open _ Hi a).
    + rewrite Ha. apply Hi.
  - by eapply claim_step_inv.
  - by eapply move_step_inv.
  - split.
    + eapply rows_inv_keeps; [|apply Hi]. eapply Forall2_impl; [exact He|]. apply housekeeping_keeps.
    + rewrite Ha. apply unique_key_filter, Hi.
    + rewrite Ha. intros a [Hin _]%list_elem_of_In%filter_In Hfin.
      rewrite (effect_state_house _ _ _ He). apply Hi; [by apply list_elem_of_In|done].
    + rewrite Ha. intros a b [Hina%list_elem_of_In _]%list_elem_of_In%filter_In
        [Hinb%list_elem_of_In _]%list_elem_of_In%filter_In. by apply (inv_open_one _ Hi).
Qed.

Lemma outbox_steps_inv ls s s' : outbox_steps ls s s' → outbox_inv s → outbox_inv s'.
Proof.
  induction 1 as [s s' He Ha|l ls s s1 s2 H1 H2 IH]; intros Hi.
  - by eapply outbox_inv_ext.
  - by eapply IH, outbox_step_inv.
Qed.

Lemma outbox_step_ext l s s1 s2 :
  outbox_step l s s1 → effects s2 = effects s1 → effect_attempts s2 = effect_attempts s1 →
  outbox_step l s s2.
Proof.
  intros [] He Ha; econstructor; rewrite ?He, ?Ha; eauto.
Qed.

Lemma outbox_steps_ext ls s s1 s2 :
  outbox_steps ls s s1 → effects s2 = effects s1 → effect_attempts s2 = effect_attempts s1 →
  outbox_steps ls s s2.
Proof.
  induction 1 as [s s' He Ha|l ls s s0 s1 H1 H2 IH]; intros He' Ha'.
  - constructor; congruence.
  - econstructor; eauto.
Qed.

Lemma outbox_steps_one l s s' : outbox_step l s s' → outbox_steps [l] s s'.
Proof. intros Hs. econstructor; [done|]. by constructor. Qed.

Lemma outbox_step_start l s0 s s' :
  effects s0 = effects s → effect_attempts s0 = effect_attempts s →
  outbox_step l s s' → outbox_step l s0 s'.
Proof.
  intros He Ha Hst.
  assert (∀ x, effect_row_of x s0 = effect_row_of x s) as Hr
    by (intros x; unfold effect_row_of; by rewrite He).
  destruct Hst; econstructor; rewrite ?He, ?Ha, ?Hr; eauto.
  unfold fresh_effect in *. by rewrite He, Hr.
Qed.

Lemma outbox_steps_app ls1 ls2 s s1 s2 :
  outbox_steps ls1 s s1 → outbox_steps ls2 s1 s2 → outbox_steps (ls1 ++ ls2) s s2.
Proof.
  induction 1 as [s s' He Ha|l ls s s0 s1 H1 H2 IH]; intros H3; simpl.
  - destruct H3 as [s1 s2 He2 Ha2|l ls s1 s3 s2 H4 H5]; [constructor; congruence|].
    econstructor; [|done]. by eapply outbox_step_start.
  - econstructor; eauto.
Qed.

(** ** At-most-once accounting *)

Definition is_claim (e : string) (l : label) : bool :=
  match l with LClaim e' => e' =?s e | _ => false end.

(** A move of possibly executed work back to [queued], justified by evidence. *)
Definition is_requeue (e : string) (l : label) : bool :=
  match l with
  | LMove e' c t kinds =>
      (e' =?s e) && state_eqb t queued && state_in c [unknown; failed]
      && existsb (λ k, str_in k kinds) REQUEUE_EVIDENCE_KINDS
  | _ => false
  end.

Definition claims_of (e : string) (ls : list label) : nat := rowcount (is_claim e) ls.
Definition requeues_of (e : string) (ls : list label) : nat := rowcount (is_requeue e) ls.

(** 1 once the effect may have been dispatched or can no longer be. *)
Definition weight (st : option EffectState) : nat :=
  match st with
  | None | Some planned | Some queued | Some blocked => 0
  | _ => 1
  end.

Lemma weight_le_1 st : (weight st ≤ 1)%nat.
Proof. destruct st as [[]|]; simpl; lia. Qed.

Lemma weight_edge c t :
  t ∈ allowed_transitions c →
  (t = queued ∧ (c = unknown ∨ c = failed)) ∨ (weight (Some c) ≤ weight (Some t))%nat.
Proof.
  intros Ht. destruct c; simpl in Ht;
    repeat (apply elem_of_cons in Ht as [->|Ht]; [simpl; auto with lia|]);
    by apply not_elem_of_nil in Ht.
Qed.

Lemma outbox_step_weight e l s s' :
  outbox_step l s s' →
  ((if is_claim e l then 1 else 0) + weight (effect_state e s)
     ≤ (if is_requeue e l then 1 else 0) + weight (effect_state e s'))%nat.
Proof.
  intros [? ? row Hf He Ha|? ? e' row w now lease ver aid Hr Hq Hx He Ha
         |? ? e' row t now kinds Hr Ht Hrq He Ha|? ? keep He Ha]; cbn [is_claim is_requeue].
  - rewrite (effect_state_submit row _ _ _ He). destruct (effect_state e s0); simpl; lia.
  - destruct (e' =?s e) eqn:Ee.
    + apply str_eqb_eq in Ee as <-. rewrite (effect_state_of_row _ _ _ Hr), Hq.
      rewrite (effect_state_claimed e' row w now lease s0 s'0) by done. simpl. lia.
    + apply str_eqb_neq in Ee.
      rewrite (effect_state_claimed_other e' e w now lease s0 s'0) by done. lia.
  - destruct (e' =?s e) eqn:Ee; cbn [andb].
    + apply str_eqb_eq in Ee as <-. rewrite (effect_state_of_row _ _ _ Hr).
      rewrite (effect_state_moved e' row t now s0 s'0) by done.
      destruct (weight_edge _ _ Ht) as [[-> Hc]|Hw].
      * specialize (Hrq eq_refl Hc). apply requeue_evidence_dec in Hrq. rewrite Hrq.
        assert (state_in (eff_state row) [unknown; failed] = true) as Hin.
        { apply state_in_spec. destruct Hc as [-> | ->]; set_solver. }
        rewrite Hin, (proj2 (state_eqb_eq queued queued) eq_refl). cbn [andb].
        pose proof (weight_le_1 (Some (eff_state row))). lia.
      * destruct (_ && _ && _); lia.
    + apply str_eqb_neq in Ee.
      rewrite (effect_state_moved_other e' e (eff_state row) t now s0 s'0) by done. lia.
  - rewrite (effect_state_house _ _ _ He). lia.
Qed.

Lemma effect_state_ext e s s' : effects s' = effects s → effect_state e s' = effect_state e s.
Proof. intros He. unfold effect_state, effect_row_of. by rewrite He. Qed.

Lemma outbox_steps_weight e ls s s' :
  outbox_steps ls s s' →
  (claims_of e ls + weight (effect_state e s)
     ≤ requeues_of e ls + weight (effect_state e s'))%nat.
Proof.
  induction 1 as [s s' He Ha|l ls s s1 s2 H1 H2 IH].
  - rewrite (effect_state_ext _ _ _ He). done.
  - pose proof (outbox_step_weight e _ _ _ H1) as Hw.
    unfold claims_of, requeues_of, rowcount, select in *. simpl.
    destruct (is_claim e l), (is_requeue e l); simpl in *; lia.
Qed.

(** ** Terminal states and identity *)

Definition absorbing (st : EffectState) : Prop := allowed_transitions st = [].

Lemma outbox_step_absorbing e l s s' st :
  absorbing st → outbox_step l s s' → effect_state e s = Some st → effect_state e s' = Some st.
Proof.
  intros Hab Hst Hes. destruct Hst as [? ? row Hf He Ha|? ? e' row w now lease ver aid Hr Hq Hx He Ha
         |? ? e' row t now kinds Hr Ht Hrq He Ha|? ? keep He Ha].
  - by rewrite (effect_state_submit row _ _ _ He), Hes.
  - destruct (decide (e = e')) as [->|Hne].
    + rewrite (effect_state_of_row _ _ _ Hr), Hq in Hes. injection Hes as <-. done.
    + by rewrite (effect_state_claimed_other e' e w now lease s s').
  - destruct (decide (e = e')) as [->|Hne].
    + rewrite (effect_state_of_row _ _ _ Hr) in Hes. injection Hes as <-.
      rewrite Hab in Ht. by apply not_elem_of_nil in Ht.
    + by rewrite (effect_state_moved_other e' e (eff_state row) t now s s').
  - by rewrite (effect_state_house _ _ _ He).
Qed.

Lemma outbox_steps_absorbing e ls s s' st :
  absorbing st → outbox_steps ls s s' → effect_state e s = Some st → effect_state e s' = Some st.
Proof.
  intros Hab. induction 1 as [s s' He Ha|l ls s s1 s2 H1 H2 IH]; intros Hes.
  - by rewrite (effect_state_ext _ _ _ He).
  - eapply IH, outbox_step_absorbing; eauto.
Qed.

Lemma frozen_update e p f t r :
  (∀ r, frozen (f r) = frozen r) → by_id eff_effect_id e t = Some r →
  ∃ r', by_id eff_effect_id e (update p f t) = Some r' ∧ frozen r' = frozen r.
Proof.
  intros Hf Hr. rewrite by_id_update.
  - rewrite Hr. eexists. split; [done|]. by destruct (p r).
  - intros r0 _. symmetry. by apply frozen_columns.
Qed.

(** An accepted effect is never dropped and its identity never rewritten. *)
Lemma outbox_step_identity e l s s' r :
  outbox_step l s s' → effect_row_of e s = Some r →
  ∃ r', effect_row_of e s' = Some r' ∧ frozen r' = frozen r.
Proof.
  unfold effect_row_of.
  intros [? ? row Hf He Ha|? ? e' row w now lease ver aid Hr Hq Hx He Ha
         |? ? e' row t now kinds Hr Ht Hrq He Ha|? ? keep He Ha] Hrow; rewrite ?He.
  - rewrite by_id_insert, Hrow. eauto.
  - by apply frozen_update.
  - by apply frozen_update.
  - clear Ha. revert Hrow. unfold by_id, fetchone, has_id.
    induction He as [|a a' t t' (Hf & _) Ht IH]; [done|]. simpl.
    pose proof (frozen_columns _ _ Hf) as (-> & _). destruct (_ =?s e); [|done].
    intros [= ->]. by eauto.
Qed.

Lemma outbox_steps_identity e ls s s' r :
  outbox_steps ls s s' → effect_row_of e s = Some r →
  ∃ r', effect_row_of e s' = Some r' ∧ frozen r' = frozen r.
Proof.
  intros Hs. revert r. induction Hs as [s s' He Ha|l ls s s1 s2 H1 H2 IH]; intros r Hr.
  - exists r. unfold effect_row_of in *. by rewrite He.
  - destruct (outbox_step_identity _ _ _ _ _ H1 Hr) as (r1 & Hr1 & Hf1).
    destruct (IH _ Hr1) as (r2 & Hr2 & Hf2). exists r2. split; [done|congruence].
Qed.

End Spec.
