(* ===== verification/OutboxRefine.v ===== *)
(** * OutboxRefine

    Every outbox operation of the store is a sequence of abstract outbox steps. *)

From Stdlib Require Import ZArith Lia.
From S2P Require Import Prelude Tables Json Models Schema Outbox OutboxFacts OutboxSpec.

Section Refine.
  Context `{Sha256}.

(** [p] runs as abstract outbox steps, with [Q] relating its outcome to their labels. *)
Definition outbox_prog {A} (p : prog db A) (Q : result A → list label → Prop) : Prop :=
  ∀ s, outbox_inv s → ∃ ls, outbox_steps ls s (p s).2 ∧ Q (p s).1 ls.

Lemma outbox_prog_weaken {A} (p : prog db A) (Q Q' : result A → list label → Prop) :
  outbox_prog p Q → (∀ r ls, Q r ls → Q' r ls) → outbox_prog p Q'.
Proof. intros Hp HQ s Hi. destruct (Hp s Hi) as (ls & ? & ?). eauto. Qed.

(** The two tables stay as they are. *)
Definition outbox_silent {A} (p : prog db A) : Prop :=
  ∀ s, effects (p s).2 = effects s ∧ effect_attempts (p s).2 = effect_attempts s.

Lemma outbox_silent_prog {A} (p : prog db A) :
  outbox_silent p → outbox_prog p (λ _ ls, ls = []).
Proof. intros Hp s _. destruct (Hp s). exists []. split; [by constructor|done]. Qed.

(** Labels of a composite are the concatenation of its parts' labels. *)
Lemma outbox_prog_bind {A B} (m : prog db A) (k : A → prog db B)
    (Q1 : list label → Prop) (Q2 : list label → Prop) :
  outbox_prog m (λ _ ls, Q1 ls) → (∀ a, outbox_prog (k a) (λ _ ls, Q2 ls)) →
  outbox_prog (pbind m k) (λ _ ls, ∃ l1 l2, ls = l1 ++ l2 ∧ Q1 l1 ∧ (Q2 l2 ∨ l2 = [])).
Proof.
  intros Hm Hk s Hi. destruct (Hm s Hi) as (l1 & Hs1 & HQ1). unfold pbind.
  destruct (m s) as [[a|err] s1] eqn:Em; simpl in *.
  - destruct (Hk a s1) as (l2 & Hs2 & HQ2); [by eapply outbox_steps_inv|].
    exists (l1 ++ l2). split; [by eapply outbox_steps_app|]. eauto 10.
  - exists l1. split; [done|]. exists l1, []. rewrite app_nil_r. auto.
Qed.

(** ** The operations *)

Lemma commit_claim_step e w now lease v aid s row :
  effect_row_of e s = Some row → eff_state row = queued →
  row_exists (has_id att_attempt_id aid) (effect_attempts s) = false →
  outbox_step (LClaim e) s (commit_claim e w now lease v aid s).
Proof. intros. by eapply step_claim. Qed.

Lemma claim_effect_prog e w now lease ver aid :
  outbox_prog (claim_effect e w now lease ver aid)
    (λ r ls, (r = Ok true ∧ ls = [LClaim e]) ∨ (r ≠ Ok true ∧ ls = [])).
Proof.
  intros s Hi.
  destruct (claim_cases e w now lease ver aid s) as [[-> Hr]|(row & v & Hrow & Hq & Hf & _ & _ & ->)].
  - apply Hi.
  - exists []. split; [by constructor|auto].
  - exists [LClaim e]. split; [|auto]. apply outbox_steps_one. by eapply commit_claim_step.
Qed.

Lemma transition_prog e exp tgt now ev w :
  outbox_prog (transition e exp tgt now ev w)
    (λ r ls, (r = Ok true ∧ ∃ c t, ls = [LMove e c t (evidence_kinds (coerce_evidence ev now w))]
                                   ∧ tgt = state_str t ∧ t ∈ allowed_transitions c)
             ∨ (r ≠ Ok true ∧ ls = [])).
Proof.
  intros s Hi.
  destruct (transition_cases e exp tgt now ev w s) as
    [[-> Hr]|(row & t & Hrow & Hin & Ht & (H1 & H2 & H3) & ->)].
  - apply Hi.
  - exists []. split; [by constructor|auto].
  - eexists [_]. split.
    + apply outbox_steps_one. eapply step_move; try done. simpl. by destruct (state_eqb _ _).
    + left. split; [done|]. eauto.
Qed.

Lemma release_claim_prog e w now :
  outbox_prog (release_claim e w now) (λ _ ls, ls = [LHouse]).
Proof.
  intros s Hi. exists [LHouse]. split; [|done]. apply outbox_steps_one.
  apply (step_house _ _ (λ _, true)).
  - simpl. unfold update. induction (effects s) as [|r t IH]; simpl; constructor; [|done].
    destruct (_ && _); repeat split; auto.
  - simpl. by rewrite filter_true.
Qed.

Lemma record_evidence_silent e k now d w : outbox_silent (record_evidence e k now d w).
Proof. intros s. unfold record_evidence, write. by destruct (effect_state e s). Qed.

Lemma record_decision_silent d : outbox_silent (record_decision d).
Proof.
  intros s. unfold record_decision, write. destruct (by_id _ _ _); [|done]. by destruct (negb _).
Qed.

Lemma enqueue_conn_prog a s :
  match enqueue_effect_in_connection a s with
  | Ok (e, s') => outbox_steps [] s s' ∨ outbox_step (LSubmit (ea_effect_id a)) s s'
  | Raise _ => True
  end.
Proof.
  destruct (enqueue_cases a s) as [(err & ->)|[(r & _ & ->)|(body & tg & Hk & He & Hb & Hp & ->)]].
  - done.
  - left. by constructor.
  - right. apply (step_submit _ _ (new_effect_row a body tg)); [|done..].
    split; [done|]. split; [done|]. split; [done|]. split; [done|]. split.
    + by intros d [= <-].
    + simpl. intros Ho r Hr Hor Hadm. specialize (Hp Ho).
      apply row_exists_false with (r := r) in Hp; [|done].
      rewrite Hor, str_eqb_refl in Hp. simpl in Hp.
      rewrite (proj2 (opt_str_eqb_eq _ _) Hadm) in Hp. done.
Qed.

Lemma write_enqueue_prog a s0 s :
  effects s0 = effects s → effect_attempts s0 = effect_attempts s →
  ∃ ls, outbox_steps ls s (match enqueue_effect_in_connection a s0 with
                           | Ok (_, s') => s'
                           | Raise _ => s
                           end) ∧ (ls = [] ∨ ls = [LSubmit (ea_effect_id a)]).
Proof.
  intros He Ha. pose proof (enqueue_conn_prog a s0) as Hc.
  destruct (enqueue_effect_in_connection a s0) as [[e s']|err].
  - destruct Hc as [Hc|Hc].
    + exists []. split; [|auto]. inversion Hc; subst. constructor; congruence.
    + exists [LSubmit (ea_effect_id a)]. split; [|auto]. apply outbox_steps_one.
      by eapply outbox_step_start.
  - exists []. split; [by constructor|auto].
Qed.

Lemma enqueue_effect_prog a st :
  outbox_prog (enqueue_effect a st) (λ _ ls, ls = [] ∨ ls = [LSubmit (ea_effect_id a)]).
Proof.
  intros s Hi. unfold enqueue_effect.
  destruct (negb (str_true (ea_effect_id a))); [exists []; split; [by constructor|auto]|].
  destruct (negb (str_true (ea_operation_key a))); [exists []; split; [by constructor|auto]|].
  destruct (state_of_str st) as [st'|]; [|exists []; split; [by constructor|auto]].
  destruct (ea_turn_revision a <? 1); [exists []; split; [by constructor|auto]|].
  destruct (negb (str_in _ _)); [exists []; split; [by constructor|auto]|].
  destruct (write_enqueue_prog (a <| ea_state := st' |>) s s) as (ls & Hs & Hl); [done..|].
  exists ls. split; [|done]. unfold write.
  by destruct (enqueue_effect_in_connection _ s) as [[? ?]|?].
Qed.

Lemma enqueue_participation_prog env aid data now :
  outbox_prog (enqueue_participation_effect env aid data now)
    (λ _ ls, ls = [] ∨ ls = [LSubmit (env_effect_id env)]).
Proof.
  intros s Hi. unfold enqueue_participation_effect.
  destruct (negb (env_origin env =?s _)); [exists []; split; [by constructor|auto]|].
  destruct (_ || _); [exists []; split; [by constructor|auto]|].
  destruct (negb (str_true _)); [exists []; split; [by constructor|auto]|].
  destruct (negb (_ =?s payload_hash _)); [exists []; split; [by constructor|auto]|].
  destruct (_ || _); [exists []; split; [by constructor|auto]|].
  unfold write. set (args := args_of_envelope _ _ _ _).
  assert (∀ s0, effects s0 = effects s → effect_attempts s0 = effect_attempts s →
    ∃ ls, outbox_steps ls s (match enqueue_effect_in_connection args s0 with
                             | Ok (a, s') => (Ok a, s') | Raise e => (Raise e, s) end).2
          ∧ (ls = [] ∨ ls = [LSubmit (env_effect_id env)])) as Hgo.
  { intros s0 He Ha. destruct (write_enqueue_prog args s0 s He Ha) as (ls & Hs & Hl).
    exists ls. split; [|done]. by destruct (enqueue_effect_in_connection args s0) as [[? ?]|?]. }
  destruct (by_id adm_admission_id aid _) as [row|]; simpl.
  - destruct (_ =?s _); simpl; [by apply Hgo|].
    exists []. split; [by constructor|auto].
  - by apply Hgo.
Qed.

(** ** Recovery *)

Lemma recover_one_step now s e row :
  effect_row_of e s = Some row → eff_state row = executing →
  outbox_step (LMove e executing unknown []) s (recover_one now s e).
Proof.
  intros Hr Hx. rewrite <- Hx. apply (step_move s _ e row unknown now []); try done.
  - rewrite Hx. set_solver.
  - rewrite Hx. done.
  - simpl. by rewrite Hx.
Qed.

Lemma recover_one_other now s e x : x ≠ e → effect_row_of x (recover_one now s e) = effect_row_of x s.
Proof.
  intros Hx. unfold effect_row_of. apply (effect_state_update e); try done.
  by intros r [? _]%andb_true_iff.
Qed.

Lemma recover_fold_steps now ids s :
  NoDup ids → (∀ e, e ∈ ids → ∃ row, effect_row_of e s = Some row ∧ eff_state row = executing) →
  outbox_steps ((λ e, LMove e executing unknown []) <$> ids) s (foldl (recover_one now) s ids).
Proof.
  revert s. induction ids as [|e ids IH]; intros s Hnd Hids; simpl.
  - by constructor.
  - apply NoDup_cons in Hnd as [Hne Hnd].
    destruct (Hids e) as (row & Hr & Hx); [set_solver|].
    econstructor; [by eapply recover_one_step|]. apply IH; [done|].
    intros x Hxin. rewrite recover_one_other by (intros ->; done). apply Hids. set_solver.
Qed.

(** The claims a recovery pass takes back. *)
Definition expired_claims (now : Z) (s : db) : list string :=
  map eff_effect_id (select (claim_expired now) (effects s)).

Lemma expired_claims_spec now s :
  outbox_inv s →
  NoDup (expired_claims now s) ∧
  ∀ e, e ∈ expired_claims now s →
       ∃ row, effect_row_of e s = Some row ∧ eff_state row = executing.
Proof.
  intros Hi. split.
  - apply (unique_key_filter eff_effect_id), Hi.
  - intros e (row & -> & [Hrow Hexp]%elem_of_select)%list_elem_of_fmap.
    exists row. split; [by apply by_id_elem; [apply Hi|]|].
    apply andb_true_iff in Hexp as [Hx%state_eqb_eq _]. done.
Qed.

Lemma recover_executing_prog now s :
  outbox_inv s →
  outbox_steps ((λ e, LMove e executing unknown []) <$> expired_claims now s) s
    (recover_executing now s).2.
Proof. intros Hi. destruct (expired_claims_spec now s Hi). by apply recover_fold_steps. Qed.

(** ** Superseded work *)

(** Only cancellations. *)
Definition cancel_labels (ls : list label) : Prop :=
  Forall (λ l, ∃ e c kinds, l = LMove e c cancelled kinds) ls.

Lemma cancel_fold_prog now ev ids :
  outbox_prog (filter_prog (λ e, transition e ["queued"] "cancelled" now ev None) ids)
    (λ _ ls, cancel_labels ls).
Proof.
  induction ids as [|e ids IH]; simpl.
  - intros s Hi. exists []. split; [by constructor|constructor].
  - assert (outbox_prog (transition e ["queued"] "cancelled" now ev None)
              (λ _ ls, cancel_labels ls)) as Ht.
    { eapply outbox_prog_weaken; [apply transition_prog|]. intros r ls [(_ & c & t & -> & Ht & _)|[_ ->]].
      - repeat constructor. assert (t = cancelled) as -> by (by destruct t). eauto.
      - constructor. }
    eapply outbox_prog_weaken; [eapply outbox_prog_bind; [exact Ht|]|].
    + intros b. eapply outbox_prog_weaken; [eapply outbox_prog_bind; [exact IH|]|].
      * intros rest. apply outbox_silent_prog. by intros s.
      * intros r ls (l1 & l2 & -> & Hl1 & [->| ->]); by rewrite app_nil_r.
    + intros r ls (l1 & l2 & -> & Hl1 & [Hl2| ->]).
      * by apply Forall_app.
      * by rewrite app_nil_r.
Qed.

Lemma cancel_stale_prog turn rev now reason :
  outbox_prog (cancel_stale_effects turn rev now reason) (λ _ ls, cancel_labels ls).
Proof. intros s Hi. unfold cancel_stale_effects, pbind, pget. by apply cancel_fold_prog. Qed.

End Refine.
