(* ===== verification/Quiet.v ===== *)
(** * Quiet

    Programs that run as abstract outbox steps without moving possibly executed work back
    to [queued], as a type class: instances for the store operations, and resolution
    through [let*], conditionals and matches for what is composed from them. *)

From Stdlib Require Import ZArith Lia.
From S2P Require Import Prelude Tables Json Models Schema Outbox OutboxFacts OutboxSpec OutboxRefine.

Section Quiet.
  Context `{Sha256}.

Definition no_requeue (ls : list label) : Prop := ∀ e, requeues_of e ls = 0%nat.

(** Runs as outbox steps, none of which is a requeue. *)
Class Quiet {A} (p : prog db A) : Prop := quiet : outbox_prog p (λ _ ls, no_requeue ls).

(** Leaves the effect and attempt tables alone. *)
Class Silent {A} (p : prog db A) : Prop := silent : outbox_silent p.

Lemma no_requeue_nil : no_requeue [].
Proof. by intros e. Qed.

Lemma requeues_of_app e l1 l2 :
  requeues_of e (l1 ++ l2) = (requeues_of e l1 + requeues_of e l2)%nat.
Proof. unfold requeues_of, rowcount, select. by rewrite List.filter_app, length_app. Qed.

Lemma claims_of_app e l1 l2 : claims_of e (l1 ++ l2) = (claims_of e l1 + claims_of e l2)%nat.
Proof. unfold claims_of, rowcount, select. by rewrite List.filter_app, length_app. Qed.

Lemma no_requeue_app l1 l2 : no_requeue l1 → no_requeue l2 → no_requeue (l1 ++ l2).
Proof. intros H1 H2 e. by rewrite requeues_of_app, H1, H2. Qed.

Lemma no_requeue_Forall ls : Forall (λ l, ∀ e, is_requeue e l = false) ls → no_requeue ls.
Proof.
  intros Hl e. induction Hl as [|l ls Hl _ IH]; [done|].
  unfold requeues_of, rowcount, select in *. simpl. by rewrite Hl.
Qed.

Lemma not_requeue_move e c t kinds : t ≠ queued → ∀ x, is_requeue x (LMove e c t kinds) = false.
Proof.
  intros Ht x. cbn [is_requeue]. destruct (state_eqb t queued) eqn:E.
  - by apply state_eqb_eq in E.
  - by rewrite andb_false_r.
Qed.

(** ** Silent programs *)

#[export] Instance silent_quiet {A} (p : prog db A) : Silent p → Quiet p | 100.
Proof.
  intros Hp. eapply outbox_prog_weaken; [by apply outbox_silent_prog|].
  intros r ls ->. apply no_requeue_nil.
Qed.

#[export] Instance silent_ret {A} (a : A) : Silent (pret a).
Proof. by intros s. Qed.
#[export] Instance silent_raise {A} e : Silent (@praise db A e).
Proof. by intros s. Qed.
#[export] Instance silent_get {A} (f : db → A) : Silent (pget f).
Proof. by intros s. Qed.
#[export] Instance silent_read {A} (f : db → result A) : Silent (pread f).
Proof. by intros s. Qed.
#[export] Instance silent_bind {A B} (m : prog db A) (k : A → prog db B) :
  Silent m → (∀ a, Silent (k a)) → Silent (pbind m k).
Proof.
  intros Hm Hk s. unfold pbind. destruct (Hm s) as [H1 H2].
  destruct (m s) as [[a|err] s1]; [|done]. destruct (Hk a s1). simpl in *. split; congruence.
Qed.

(** A transaction that keeps the two tables. *)
#[export] Instance silent_write {A} (body : txn db A) :
  (∀ s a s', body s = Ok (a, s') →
     effects s' = effects s ∧ effect_attempts s' = effect_attempts s) → Silent (write body).
Proof. intros Hb s. unfold write. destruct (body s) as [[a s']|] eqn:E; [by eapply Hb|done]. Qed.

#[export] Instance silent_evidence e k now d w : Silent (record_evidence e k now d w).
Proof. apply record_evidence_silent. Qed.
#[export] Instance silent_decision d : Silent (record_decision d).
Proof. apply record_decision_silent. Qed.

(** ** Quiet programs *)

#[export] Instance quiet_bind {A B} (m : prog db A) (k : A → prog db B) :
  Quiet m → (∀ a, Quiet (k a)) → Quiet (pbind m k).
Proof.
  intros Hm Hk. eapply outbox_prog_weaken.
  - eapply (outbox_prog_bind m k no_requeue no_requeue); [exact Hm|exact Hk].
  - intros r ls (l1 & l2 & -> & H1 & [H2| ->]); apply no_requeue_app; auto using no_requeue_nil.
Qed.

#[export] Instance quiet_claim e w now lease ver aid : Quiet (claim_effect e w now lease ver aid).
Proof.
  eapply outbox_prog_weaken; [apply claim_effect_prog|].
  intros r ls [[_ ->]|[_ ->]]; apply no_requeue_Forall; by repeat constructor.
Qed.

(** A transition to anything but [queued]. *)
Lemma quiet_transition e exp t now ev w :
  t ≠ queued → Quiet (transition e exp (state_str t) now ev w).
Proof.
  intros Ht. eapply outbox_prog_weaken; [apply transition_prog|].
  intros r ls [(_ & c & t' & -> & Hs%state_str_inj & _)|[_ ->]]; [subst t'|apply no_requeue_nil].
  apply no_requeue_Forall. repeat constructor. by apply not_requeue_move.
Qed.

(** The abstract states the code names by literal strings. *)
#[export] Instance quiet_to_sent e exp now ev w : Quiet (transition e exp "sent" now ev w).
Proof. by apply (quiet_transition e exp sent). Qed.
#[export] Instance quiet_to_failed e exp now ev w : Quiet (transition e exp "failed" now ev w).
Proof. by apply (quiet_transition e exp failed). Qed.
#[export] Instance quiet_to_unknown e exp now ev w : Quiet (transition e exp "unknown" now ev w).
Proof. by apply (quiet_transition e exp unknown). Qed.
#[export] Instance quiet_to_expired e exp now ev w : Quiet (transition e exp "expired" now ev w).
Proof. by apply (quiet_transition e exp expired). Qed.
#[export] Instance quiet_to_escalated e exp now ev w :
  Quiet (transition e exp "unknown_nonrepeatable" now ev w).
Proof. by apply (quiet_transition e exp unknown_nonrepeatable). Qed.

#[export] Instance quiet_release e w now : Quiet (release_claim e w now).
Proof.
  eapply outbox_prog_weaken; [apply release_claim_prog|].
  intros r ls ->. apply no_requeue_Forall. by repeat constructor.
Qed.

Lemma no_requeue_submit ls e : ls = [] ∨ ls = [LSubmit e] → no_requeue ls.
Proof. intros [-> | ->]; apply no_requeue_Forall; by repeat constructor. Qed.

#[export] Instance quiet_enqueue a st : Quiet (enqueue_effect a st).
Proof.
  eapply outbox_prog_weaken; [apply enqueue_effect_prog|]. intros r ls Hl. exact (no_requeue_submit _ _ Hl).
Qed.

#[export] Instance quiet_enqueue_participation env aid data now :
  Quiet (enqueue_participation_effect env aid data now).
Proof.
  eapply outbox_prog_weaken; [apply enqueue_participation_prog|]. intros r ls Hl.
  exact (no_requeue_submit _ _ Hl).
Qed.

#[export] Instance quiet_recover now : Quiet (recover_executing now).
Proof.
  intros s Hi. eexists. split; [by apply recover_executing_prog|].
  apply no_requeue_Forall, Forall_fmap, Forall_true. intros e x. by apply not_requeue_move.
Qed.

Lemma no_requeue_cancel ls : cancel_labels ls → no_requeue ls.
Proof.
  intros Hl. apply no_requeue_Forall. eapply Forall_impl; [exact Hl|].
  intros l (e & c & kinds & ->) x. by apply not_requeue_move.
Qed.

#[export] Instance quiet_cancel_stale turn rev now reason :
  Quiet (cancel_stale_effects turn rev now reason).
Proof. eapply outbox_prog_weaken; [apply cancel_stale_prog|]. intros ? ?. apply no_requeue_cancel. Qed.

(** A step that others take in between, as an arbitrary quiet program. *)
#[export] Instance quiet_others {A} (p : prog db A) :
  Quiet p → Quiet (λ s, (Ok tt, (p s).2)).
Proof. intros Hp s Hi. destruct (Hp s Hi) as (ls & H1 & H2). by exists ls. Qed.

End Quiet.

(** Case analysis during resolution. *)
#[export] Hint Extern 5 (Quiet (match ?x with _ => _ end)) => destruct x : typeclass_instances.
#[export] Hint Extern 5 (Silent (match ?x with _ => _ end)) => destruct x : typeclass_instances.

Ltac solve_quiet := intros; cbv beta zeta; apply _.

(** A silent transaction: open it and look at each branch. *)
Ltac solve_silent :=
  intros; apply silent_write; intros ? ? ? Hbody; cbv beta zeta in Hbody;
  repeat (case_match; try discriminate); injection Hbody as; subst; done.
