(* ===== verification/Fixtures.v ===== *)
(** * Fixtures

    A small concrete store used to evaluate the definitions: one text effect, queued, then
    claimed, then unproven. Hashes use the stand-in [plain_sha256]. *)

From Stdlib Require Import ZArith Lia.
From S2P Require Import Prelude Tables Json Models Schema Outbox OutboxFacts OutboxSpec OutboxRefine.

#[local] Existing Instance plain_sha256.

Definition hello_payload : EffectPayload := TextPayload "hello" None.
Definition hello_target : EffectTarget := MkTarget "whatsapp" "c" None None.

Definition hello_envelope : EffectEnvelope :=
  {| env_effect_id := "e1"; env_operation_key := "op1"; env_payload := hello_payload;
     env_target := hello_target; env_trace_id := "t"; env_turn_id := "tu"; env_turn_revision := 1;
     env_principal := "u"; env_capability := "reply"; env_expires_at_ms := Some 5000;
     env_policy_version := Some "v1"; env_policy_hash := Some "h"; env_created_ms := Some 100;
     env_origin := "legacy"; env_admission_id := None |}.

Definition hello_args : effect_args := args_of_envelope hello_envelope 100 "legacy" None.

Definition queued_db : db := (enqueue_effect hello_args "queued" empty_db).2.
Definition executing_db : db := (claim_effect "e1" "w" 200 30000 None "a1" queued_db).2.
Definition unknown_db : db :=
  (transition "e1" ["executing"] "unknown" 300 NoEvidence (Some "w") executing_db).2.

Lemma queued_db_inv : outbox_inv queued_db.
Proof.
  destruct (enqueue_effect_prog hello_args "queued" empty_db outbox_inv_empty) as (ls & Hs & _).
  by eapply outbox_steps_inv, outbox_inv_empty.
Qed.

Lemma executing_db_inv : outbox_inv executing_db.
Proof.
  destruct (claim_effect_prog "e1" "w" 200 30000 None "a1" queued_db queued_db_inv) as (ls & Hs & _).
  by eapply outbox_steps_inv, queued_db_inv.
Qed.

Lemma unknown_db_inv : outbox_inv unknown_db.
Proof.
  destruct (transition_prog "e1" ["executing"] "unknown" 300 NoEvidence (Some "w") executing_db
              executing_db_inv) as (ls & Hs & _).
  by eapply outbox_steps_inv, executing_db_inv.
Qed.
