(* ===== verification/OutboxProps.v ===== *)
(** * OutboxProps

    What the outbox promises its callers: idempotent acceptance, faithful storage,
    exclusive claims, compare-and-set transitions, and a recovery that proves nothing it
    does not know. *)

From Stdlib Require Import ZArith Lia.
From S2P Require Import Prelude Tables Json Models Schema Outbox OutboxFacts OutboxSpec OutboxRefine.
From S2P Require Import Fixtures.

Section Props.
  Context `{Sha256}.

(** ** Facts *)

(** A retry of a submission: same identity, any clock, id and requested state. *)
Definition retry_of (a a2 : effect_args) : Prop :=
  ea_operation_key a2 = ea_operation_key a ∧ ea_payload a2 = ea_payload a ∧
  ea_target a2 = ea_target a ∧ ea_turn_id a2 = ea_turn_id a ∧
  ea_turn_revision a2 = ea_turn_revision a ∧ ea_principal a2 = ea_principal a ∧
  ea_capability a2 = ea_capability a ∧ ea_origin a2 = ea_origin a ∧
  ea_admission_id a2 = ea_admission_id a.

Lemma resubmit_retry r ph th a a2 : retry_of a a2 → resubmit r ph th a2 = resubmit r ph th a.
Proof.
  intros (_ & _ & _ & H4 & H5 & H6 & H7 & H8 & H9). unfold resubmit, same_effect.
  by rewrite H4, H5, H6, H7, H8, H9.
Qed.

Lemma resubmit_own a body target :
  ea_origin a ≠ "" →
  resubmit (new_effect_row a body target) (canonical_hash (JObj body)) (canonical_hash (JObj target)) a
    = Ok (ea_effect_id a).
Proof.
  intros Ho%str_true_spec. unfold resubmit, same_effect, new_effect_row. simpl.
  rewrite Ho, !str_eqb_refl, Z.eqb_refl, (proj2 (opt_str_eqb_eq _ _) eq_refl). done.
Qed.

Lemma enqueue_conn_retry a a2 s id s' :
  ea_origin a ≠ "" → retry_of a a2 → enqueue_effect_in_connection a s = Ok (id, s') →
  enqueue_effect_in_connection a2 s' = Ok (id, s').
Proof.
  intros Ho Hre. pose proof Hre as (Hk & Hp & Ht & _ & _ & _ & _ & Hor & Had).
  unfold enqueue_effect_in_connection. rewrite Hk, Hp, Ht, Hor, Had.
  destruct (payload_to_mapping _) as [body|]; cbn [rbind]; [|done].
  destruct (resolve_target _) as [tg|]; cbn [rbind]; [|done].
  destruct (check_admission _ _ _ _ s) as [u|] eqn:Ec; cbn [rbind]; [|done].
  destruct (by_id eff_operation_key _ (effects s)) as [r|] eqn:Ek.
  - destruct (resubmit r _ _ a) as [i|] eqn:Er; cbn [rbind]; [|done]. intros [= -> ->].
    rewrite Ec. cbn [rbind]. rewrite Ek, (resubmit_retry _ _ _ a a2), Er by done. done.
  - destruct ((_ =?s _) && _); [done|]. destruct (effect_row_of _ s) eqn:Ee; [done|].
    intros Hw. injection Hw as <- <-.
    assert (∀ x, participation_admissions (append_evidence (ea_effect_id a) "submitted" x None
              (ea_now_ms a) None (s <| effects ::= insert_row (new_effect_row a body (opt_target_dict tg)) |>))
            = participation_admissions s) as Hadm by done.
    assert (∀ s1, participation_admissions s1 = participation_admissions s →
              check_admission (ea_origin a) (ea_admission_id a) (canonical_hash (JObj body)) tg s1 = Ok u) as Hc.
    { intros s1 Hs1. rewrite <- Ec. unfold check_admission. by rewrite Hs1. }
    rewrite Hc by apply Hadm. cbn [rbind append_evidence effects set_field].
    rewrite by_id_insert, Ek. cbn [eff_operation_key new_effect_row]. rewrite str_eqb_refl.
    rewrite (resubmit_retry _ _ _ a a2), resubmit_own by done. done.
Qed.

(** ** Acceptance *)

(** Acceptance is idempotent per operation key. Once a submission was accepted, every
    retry with the same identity, whatever its clock, effect id and requested state,
    returns the original effect id and changes nothing. *)
Theorem enqueue_idempotent a a2 st st2 s id s' :
  enqueue_effect a st s = (Ok id, s') → retry_of a a2 →
  ea_effect_id a2 ≠ "" → is_some (state_of_str st2) = true →
  enqueue_effect a2 st2 s' = (Ok id, s').
Proof.
  intros Hx Hre Hid Hst. pose proof Hre as (Hk & _ & _ & _ & Hrev & _ & _ & Hor & _).
  unfold enqueue_effect in *. apply str_true_spec in Hid. rewrite Hid, Hk, Hrev, Hor. cbn [negb].
  destruct (negb (str_true (ea_effect_id a))); [done|].
  destruct (negb (str_true (ea_operation_key a))); [done|].
  destruct (state_of_str st) as [x|]; [|done]. destruct (state_of_str st2) as [y|]; [|done].
  destruct (_ <? 1); [done|].
  destruct (str_in (ea_origin a) ["legacy"; "participation"]) eqn:Eo; [|done]. cbn [negb] in *.
  unfold write in *.
  destruct (enqueue_effect_in_connection (a <| ea_state := x |>) s) as [[i s1]|] eqn:Ec; [|done].
  injection Hx as -> ->.
  rewrite (enqueue_conn_retry (a <| ea_state := x |>) (a2 <| ea_state := y |>) s id s'); [done| |done|done].
  simpl. intros Hnil. rewrite Hnil in Eo. done.
Qed.

(** A known operation key never changes the store. The original effect id is returned
    only when origin and admission agree and the stored effect either lost its payload to
    retention or has the same payload, target, turn, revision, principal and capability;
    everything else raises. A tombstoned operation can therefore never fire twice. *)
Theorem enqueue_known_key a st s row :
  by_id eff_operation_key (ea_operation_key a) (effects s) = Some row →
  (enqueue_effect a st s).2 = s ∧
  ∀ id, (enqueue_effect a st s).1 = Ok id →
    id = eff_effect_id row ∧ eff_admission_id row = ea_admission_id a ∧
    (eff_payload_json row = None ∨
     (∃ body, payload_to_mapping (ea_payload a) = Ok body ∧
        eff_payload_hash row = canonical_hash (JObj body)) ∧
     eff_turn_id row = ea_turn_id a ∧ eff_turn_revision row = ea_turn_revision a ∧
     eff_principal row = ea_principal a ∧ eff_capability row = ea_capability a).
Proof.
  intros Hrow. unfold enqueue_effect.
  destruct (negb _); [done|]. destruct (negb _); [done|].
  destruct (state_of_str st) as [x|]; [|done]. destruct (_ <? 1); [done|]. destruct (negb _); [done|].
  unfold write, enqueue_effect_in_connection.
  cbn [ea_payload ea_target ea_origin ea_admission_id ea_operation_key set_field].
  destruct (payload_to_mapping _) as [body|] eqn:Eb; cbn [rbind]; [|done].
  destruct (resolve_target _) as [tg|]; cbn [rbind]; [|done].
  destruct (check_admission _ _ _ _ s) as [u|]; cbn [rbind]; [|done].
  rewrite Hrow. unfold resubmit. cbn [ea_origin ea_admission_id set_field].
  destruct (_ || _) eqn:Eor; cbn [rbind]; [done|].
  apply orb_false_iff in Eor as [_ Ead%negb_false_iff%opt_str_eqb_eq].
  destruct (eff_payload_json row) as [d|] eqn:Ed; cbn [rbind].
  2:{ split; [done|]. intros id [= <-]. auto. }
  destruct (same_effect _ _ _ _) eqn:Es; cbn [rbind]; [|done]. split; [done|]. intros id [= <-].
  split; [done|]. split; [done|]. right. unfold same_effect in Es.
  cbn [ea_turn_id ea_turn_revision ea_principal ea_capability set_field] in Es.
  apply andb_true_iff in Es as [Es H6%str_eqb_eq]. apply andb_true_iff in Es as [Es H5%str_eqb_eq].
  apply andb_true_iff in Es as [Es H4%Z.eqb_eq]. apply andb_true_iff in Es as [Es H3%str_eqb_eq].
  apply andb_true_iff in Es as [H1%str_eqb_eq _]. eauto 10.
Qed.

(** C27: storage is faithful. A freshly accepted envelope with a well-formed payload and
    target is read back by [get_effect] and [to_envelope] as the same envelope, with its
    acceptance time. *)
Theorem submit_read_roundtrip env now s s' :
  by_id eff_operation_key (env_operation_key env) (effects s) = None →
  payload_wf (env_payload env) → target_wf (env_target env) →
  enqueue_effect (args_of_envelope env now (env_origin env) (env_admission_id env)) "queued" s
    = (Ok (env_effect_id env), s') →
  ∃ stored, get_effect (env_effect_id env) s' = Ok (Some stored) ∧
    to_envelope stored = Ok {| env_effect_id := env_effect_id env;
      env_operation_key := env_operation_key env; env_payload := env_payload env;
      env_target := env_target env; env_trace_id := env_trace_id env; env_turn_id := env_turn_id env;
      env_turn_revision := env_turn_revision env; env_principal := env_principal env;
      env_capability := env_capability env; env_expires_at_ms := env_expires_at_ms env;
      env_policy_version := env_policy_version env; env_policy_hash := env_policy_hash env;
      env_created_ms := Some now; env_origin := env_origin env;
      env_admission_id := env_admission_id env |}.
Proof.
  intros Hk Hp Ht. unfold enqueue_effect. cbn [args_of_envelope ea_effect_id ea_operation_key ea_turn_revision ea_origin].
  destruct (str_true (env_effect_id env)) eqn:E1; [|done].
  destruct (str_true (env_operation_key env)) eqn:E2; [|done]. cbn [negb].
  change (state_of_str "queued") with (Some queued). cbv iota.
  destruct (env_turn_revision env <? 1) eqn:E3; [done|].
  destruct (str_in (env_origin env) _) eqn:E4; [|done]. cbn [negb]. unfold write.
  set (a := (args_of_envelope env now (env_origin env) (env_admission_id env)) <| ea_state := queued |>).
  unfold enqueue_effect_in_connection.
  replace (payload_to_mapping (ea_payload a)) with (@Ok dict (payload_to_dict (env_payload env))) by done.
  cbn [rbind]. replace (resolve_target (ea_target a)) with (@Ok (option EffectTarget) (Some (env_target env))) by done.
  cbn [rbind]. destruct (check_admission _ _ _ _ _); cbn [rbind]; [|done].
  change (ea_operation_key a) with (env_operation_key env). rewrite Hk.
  destruct (_ && _); [done|]. change (ea_effect_id a) with (env_effect_id env).
  destruct (effect_row_of (env_effect_id env) s) eqn:Ee; [done|]. intros [= <-].
  set (row := new_effect_row a (payload_to_dict (env_payload env)) (target_to_dict (env_target env))).
  unfold get_effect, effect_row_of. cbn [append_evidence effects set_field]. rewrite by_id_insert.
  unfold effect_row_of in Ee. rewrite Ee. change (eff_effect_id row) with (env_effect_id env).
  rewrite str_eqb_refl. cbv iota. unfold effect_from_row.
  change (eff_payload_json row) with (Some (payload_to_dict (env_payload env))). cbv iota beta.
  rewrite payload_from_mapping_to_dict by done. cbn [rbind].
  change (eff_target_json row) with (target_to_dict (env_target env)).
  pose proof (target_from_mapping_to_dict _ Ht) as Htm.
  destruct (target_to_dict (env_target env)) as [|p l] eqn:Etd; [done|]. rewrite Htm.
  cbn [rbind]. eexists. split; [done|]. unfold to_envelope. cbn [se_payload se_target].
  unfold EffectEnvelope_check. cbn [env_effect_id env_operation_key env_turn_revision se_effect_id
    se_operation_key se_turn_revision].
  change (eff_effect_id row) with (env_effect_id env). change (eff_operation_key row) with (env_operation_key env).
  change (eff_turn_revision row) with (env_turn_revision env). rewrite E1, E2, E3. cbn [negb].
  f_equal. f_equal. simpl. apply str_in_spec in E4. destruct (str_true (env_origin env)) eqn:Eo; [done|].
  exfalso. unfold str_true in Eo. apply negb_false_iff, str_eqb_eq in Eo. rewrite Eo in E4. set_solver.
Qed.

(** ** Claims and transitions *)

Lemma step_move_state e c t kinds s s' :
  outbox_step (LMove e c t kinds) s s' →
  effect_state e s = Some c ∧ effect_state e s' = Some t ∧
  ∀ x, x ≠ e → effect_state x s' = effect_state x s.
Proof.
  intros Hst. inversion Hst as [| |s0 s1 e0 row t0 now kinds0 Hr _ _ He _|]; subst.
  split; [by apply effect_state_of_row|]. split; [by eapply effect_state_moved|].
  intros x Hx. by eapply effect_state_moved_other.
Qed.

(** Claims are exclusive. A claim with usable arguments and a fresh attempt id wins
    exactly when the effect is queued, and after it every further claim, by any worker at
    any time, fails and changes nothing. *)
Theorem claim_exclusive e w now lease v aid s w2 now2 lease2 v2 aid2 :
  outbox_inv s → w ≠ "" → 0 < lease →
  row_exists (has_id att_attempt_id aid) (effect_attempts s) = false →
  (claim_effect e w now lease v aid s).1 = Ok (bool_decide (effect_state e s = Some queued)) ∧
  ((claim_effect e w now lease v aid s).1 = Ok true →
   let s' := (claim_effect e w now lease v aid s).2 in
   effect_state e s' = Some executing ∧
   (claim_effect e w2 now2 lease2 v2 aid2 s').1 ≠ Ok true ∧
   (claim_effect e w2 now2 lease2 v2 aid2 s').2 = s').
Proof.
  intros Hi Hw Hl Hf.
  destruct (claim_cases e w now lease v aid s) as [[Hs Hne]|(row & v' & Hrow & Hq & _ & _ & _ & Heq)];
    [apply Hi| |].
  - split; [|done].
    assert (effect_state e s ≠ Some queued) as Hnq.
    { intros Hq. apply Hne. unfold effect_state in Hq. unfold claim_effect, write.
      apply str_true_spec in Hw as ->. rewrite (proj2 (Z.leb_gt lease 0)) by lia. cbn [negb].
      destruct (effect_row_of e s) as [row|] eqn:Er; [|done]. simpl in Hq. injection Hq as Hq.
      rewrite Hq. change (state_in queued CLAIMABLE_EFFECT_STATES) with true. cbn [negb].
      rewrite (guarded_rowcount e s row) by (done || apply Hi). cbn [negb Nat.eqb]. by rewrite Hf. }
    rewrite bool_decide_false by done. unfold claim_effect, write in *.
    apply str_true_spec in Hw. rewrite Hw, (proj2 (Z.leb_gt lease 0)) in * by lia. cbn [negb] in *.
    unfold effect_state in Hnq. destruct (effect_row_of e s) as [row|]; [|done]. simpl in Hnq.
    destruct (state_in (eff_state row) CLAIMABLE_EFFECT_STATES) eqn:Ec; [|done].
    apply state_in_spec in Ec. exfalso. apply Hnq. f_equal. set_solver.
  - rewrite Heq. cbn [fst snd]. rewrite (effect_state_of_row _ _ _ Hrow), Hq. split; [done|]. intros _.
    set (s' := commit_claim _ _ _ _ _ _ _).
    assert (outbox_step (LClaim e) s s') as Hstep by (by eapply commit_claim_step).
    assert (effect_state e s' = Some executing) as Hx by (by eapply effect_state_claimed).
    assert (outbox_inv s') as Hi' by (by eapply outbox_step_inv).
    split; [done|].
    destruct (claim_cases e w2 now2 lease2 v2 aid2 s') as [[H1 H2]|(row' & ? & Hr' & Hq' & _)];
      [apply Hi'|done|].
    rewrite (effect_state_of_row _ _ _ Hr'), Hq' in Hx. done.
Qed.

(** [transition] is a compare-and-set under the transition rules. On an unknown effect
    or a missed expectation it returns [False] and writes nothing; on a change the rules
    forbid it raises and writes nothing; otherwise exactly this effect reaches the target
    state with its identity intact, and leaving [executing] gives up the lease and closes
    every open attempt. *)
Theorem transition_cas e exp tgt now ev w s :
  outbox_inv s → exp ≠ [] →
  let '(r, s') := transition e exp tgt now ev w s in
  match effect_row_of e s with
  | None => r = Ok false ∧ s' = s
  | Some row =>
      if str_in (state_str (eff_state row)) exp then
        match validate_transition (state_str (eff_state row)) tgt
                (evidence_kinds (coerce_evidence ev now w)) w (eff_lease_owner row) with
        | Raise err => r = Raise err ∧ s' = s
        | Ok _ => r = Ok true ∧ outbox_inv s' ∧
            (∃ row' t, effect_row_of e s' = Some row' ∧ frozen row' = frozen row ∧
               tgt = state_str t ∧ eff_state row' = t ∧
               (eff_state row = executing → eff_lease_owner row' = None ∧
                  ∀ a, a ∈ effect_attempts s' → att_effect_id a = e → att_finished_ms a ≠ None)) ∧
            ∀ x, x ≠ e → effect_row_of x s' = effect_row_of x s
        end
      else r = Ok false ∧ s' = s
  end.
Proof.
  intros Hi Hexp.
  destruct (transition_cases e exp tgt now ev w s) as
    [[Hs Hr]|(row & t & Hrow & Hin & Ht & Hok & Heq)]; [apply Hi| |].
  - destruct (transition e exp tgt now ev w s) as [r s'] eqn:E. simpl in Hs, Hr. subst s'.
    unfold transition, write in E. destruct exp as [|x exp]; [done|].
    destruct (effect_row_of e s) as [row|] eqn:Er; [|by injection E as <-].
    destruct (str_in _ _); cbn [negb] in E; [|by injection E as <-].
    destruct (validate_transition _ _ _ _ _) as [u|err]; cbn [rbind] in E; [|by injection E as <-].
    rewrite (guarded_rowcount e s row) in E by (done || apply Hi). cbn in E. by injection E as <- _.
  - rewrite Heq, Hrow. apply str_in_spec in Hin. rewrite Hin.
    rewrite Ht in *. rewrite (proj2 (validate_transition_ok _ _ _ _ _) Hok).
    assert (outbox_step (LMove e (eff_state row) t (evidence_kinds (coerce_evidence ev now w))) s
              (commit_transition e (eff_state row) t now (coerce_evidence ev now w) w s)) as Hstep.
    { destruct Hok as (H1 & _ & H3). eapply step_move; try done. simpl. by destruct (state_eqb _ _). }
    split; [done|]. assert (outbox_inv (commit_transition e (eff_state row) t now
      (coerce_evidence ev now w) w s)) as Hi' by (by eapply outbox_step_inv).
    split; [done|]. split.
    + unfold effect_row_of in *. cbn [commit_transition append_evidence effects set_field].
      unfold moved_effects. rewrite by_id_update by done. rewrite Hrow. cbn [fmap option_fmap option_map].
      pose proof Hrow as [_ Hid]%by_id_Some_inv. unfold has_id. rewrite Hid, str_eqb_refl.
      rewrite (proj2 (state_eqb_eq (eff_state row) (eff_state row)) eq_refl). cbn [andb].
      eexists _, t. split; [done|]. split; [done|]. split; [done|]. split; [done|]. intros Hx.
      split; [simpl; by rewrite Hx|]. intros a Ha Hae Hfin.
      pose proof (inv_open _ Hi' a Ha Hfin) as Hopen. rewrite Hae in Hopen.
      destruct (step_move_state _ _ _ _ _ _ Hstep) as (_ & Hst & _). rewrite Hst in Hopen.
      injection Hopen as ->. destruct Hok as (H1 & _). rewrite Hx in H1. set_solver.
    + intros x Hx. unfold effect_row_of. cbn [commit_transition append_evidence effects set_field].
      apply (effect_state_update e); try done. by intros r [? _]%andb_true_iff.
Qed.

(** ** Recovery *)

Lemma recover_fold_state now ids s :
  NoDup ids → (∀ e, e ∈ ids → ∃ row, effect_row_of e s = Some row ∧ eff_state row = executing) →
  ∀ x, effect_state x (foldl (recover_one now) s ids) =
         if str_in x ids then Some unknown else effect_state x s.
Proof.
  revert s. induction ids as [|e ids IH]; intros s Hnd Hids x; [done|]. simpl.
  apply NoDup_cons in Hnd as [Hne Hnd]. destruct (Hids e) as (row & Hr & Hx); [set_solver|].
  destruct (step_move_state _ _ _ _ _ _ (recover_one_step now s e row Hr Hx)) as (_ & Hu & Hother).
  rewrite IH; [|done|].
  - destruct (x =?s e) eqn:Ex; simpl.
    + apply str_eqb_eq in Ex as ->. by destruct (str_in e ids).
    + destruct (str_in x ids); [done|]. apply Hother. by apply str_eqb_neq.
  - intros y Hy. rewrite recover_one_other by (intros ->; done). apply Hids. set_solver.
Qed.

(** Rows outside the recovered set keep their lease. *)
Lemma recover_fold_other now ids s x :
  x ∉ ids → effect_row_of x (foldl (recover_one now) s ids) = effect_row_of x s.
Proof.
  revert s. induction ids as [|e ids IH]; intros s Hx; [done|]. simpl.
  rewrite IH by set_solver. apply recover_one_other. set_solver.
Qed.

Lemma recover_fold_none now s :
  outbox_inv s → outbox_inv (foldl (recover_one now) s (expired_claims now s)) →
  (∀ e, effect_state e (foldl (recover_one now) s (expired_claims now s)) =
        if str_in e (expired_claims now s) then Some unknown else effect_state e s) →
  expired_claims now (foldl (recover_one now) s (expired_claims now s)) = [].
Proof.
  intros Hi Hi' Hst. set (s' := foldl _ _ _) in *. unfold expired_claims at 1.
  enough (select (claim_expired now) (effects s') = []) as -> by done.
  apply nil_length_inv, rowcount_zero. intros r Hr. apply not_true_iff_false. intros Hexp.
  pose proof (by_id_elem eff_effect_id (effects s') r (inv_ids _ (inv_rows _ Hi')) Hr) as Hrow.
  destruct (str_in (eff_effect_id r) (expired_claims now s)) eqn:Ein.
  - specialize (Hst (eff_effect_id r)). rewrite Ein in Hst. unfold effect_state, effect_row_of in Hst.
    rewrite Hrow in Hst. injection Hst as Hst. unfold claim_expired in Hexp. by rewrite Hst in Hexp.
  - assert (eff_effect_id r ∉ expired_claims now s) as Hnin.
    { intros Hin%str_in_spec. congruence. }
    apply Hnin. pose proof (recover_fold_other now (expired_claims now s) s _ Hnin) as Ho.
    fold s' in Ho. unfold effect_row_of in Ho. rewrite Hrow in Ho. symmetry in Ho.
    apply by_id_Some_inv in Ho as [Hin _]. apply list_elem_of_fmap_2, elem_of_select. done.
Qed.

Lemma recovery_facts now s :
  outbox_inv s →
  let '(r, s') := recover_executing now s in
  r = Ok (expired_claims now s) ∧ outbox_inv s' ∧
  (∀ e, e ∈ expired_claims now s ↔
     ∃ row, effect_row_of e s = Some row ∧ eff_state row = executing ∧
            ∀ t, eff_lease_until_ms row = Some t → t ≤ now) ∧
  (∀ e, effect_state e s' =
          if str_in e (expired_claims now s) then Some unknown else effect_state e s) ∧
  expired_claims now s' = [].
Proof.
  intros Hi. destruct (expired_claims_spec now s Hi) as [Hnd Hex].
  assert (∀ e, e ∈ expired_claims now s ↔
     ∃ row, effect_row_of e s = Some row ∧ eff_state row = executing ∧
            ∀ t, eff_lease_until_ms row = Some t → t ≤ now) as Hspec.
  { intros e. split.
    - intros (row & -> & [Hrow Hexp]%elem_of_select)%list_elem_of_fmap. exists row.
      split; [by apply by_id_elem; [apply Hi|]|].
      apply andb_true_iff in Hexp as [Hx%state_eqb_eq Ht]. split; [done|].
      intros t Hl. rewrite Hl in Ht. lia.
    - intros (row & Hrow & Hx & Ht). apply effect_row_of_Some in Hrow as [Hin <-].
      apply list_elem_of_fmap_2, elem_of_select. split; [done|]. unfold claim_expired.
      rewrite (proj2 (state_eqb_eq _ _) Hx). simpl.
      destruct (eff_lease_until_ms row) as [t|]; [|done]. specialize (Ht t eq_refl). lia. }
  assert (outbox_inv (recover_executing now s).2) as Hi'
    by (by eapply outbox_steps_inv; [apply recover_executing_prog|]).
  change (recover_executing now s) with
    (@Ok (list string) (expired_claims now s), foldl (recover_one now) s (expired_claims now s)) in *.
  simpl in Hi'. set (s' := foldl _ _ _) in *.
  split; [done|]. split; [done|]. split; [done|].
  assert (∀ e, effect_state e s' = if str_in e (expired_claims now s) then Some unknown
                                   else effect_state e s) as Hst by (by apply recover_fold_state).
  split; [done|]. apply recover_fold_none; done.
Qed.

(** Crash recovery claims no knowledge. It returns exactly the effects whose executing
    claim has expired, makes each of them [unknown] (never [queued]: nothing is executed
    again without evidence), leaves every other effect's state alone, and leaves no
    expired claim behind. *)
Theorem recovery_exact now s :
  outbox_inv s →
  let '(r, s') := recover_executing now s in
  r = Ok (expired_claims now s) ∧ outbox_inv s' ∧
  (∀ e, e ∈ expired_claims now s ↔
     ∃ row, effect_row_of e s = Some row ∧ eff_state row = executing ∧
            ∀ t, eff_lease_until_ms row = Some t → t ≤ now) ∧
  (∀ e, effect_state e s' =
          if str_in e (expired_claims now s) then Some unknown else effect_state e s) ∧
  expired_claims now s' = [].
Proof. apply recovery_facts. Qed.

(** ** Superseded work *)

Lemma cancel_queued e now reason s :
  outbox_inv s → effect_state e s = Some queued →
  ∃ s', transition e ["queued"] "cancelled" now (evidence_map "superseded" reason) None s = (Ok true, s') ∧
        outbox_inv s' ∧ effect_state e s' = Some cancelled ∧
        ∀ x, x ≠ e → effect_state x s' = effect_state x s.
Proof.
  intros Hi Hq. unfold effect_state in Hq. destruct (effect_row_of e s) as [row|] eqn:Er; [|done].
  simpl in Hq. injection Hq as Hq. set (ev := evidence_map _ _).
  destruct (transition_cases e ["queued"] "cancelled" now ev None s) as
    [[_ Hne]|(row' & t & Hrow' & _ & Ht & (H1 & _ & H3) & Heq)]; [apply Hi| |].
  - exfalso. apply Hne. unfold transition, write. rewrite Er, Hq.
    change (str_in (state_str queued) ["queued"]) with true. cbn [negb].
    rewrite (proj2 (validate_transition_ok queued cancelled _ _ _)).
    + cbn [rbind]. by rewrite (guarded_rowcount e s row) by (done || apply Hi).
    + split; [set_solver|]. split; [done|]. done.
  - rewrite Heq. rewrite Er in Hrow'. injection Hrow' as <-.
    assert (t = cancelled) as -> by (by destruct t). eexists. split; [done|].
    assert (outbox_step (LMove e (eff_state row) cancelled (evidence_kinds (coerce_evidence ev now None))) s
              (commit_transition e (eff_state row) cancelled now (coerce_evidence ev now None) None s)) as Hst.
    { eapply step_move; try done. simpl. by destruct (state_eqb _ _). }
    split; [by eapply outbox_step_inv|].
    destruct (step_move_state _ _ _ _ _ _ Hst) as (_ & ? & ?). done.
Qed.

Lemma cancel_fold_state now reason ids s :
  outbox_inv s → NoDup ids → (∀ e, e ∈ ids → effect_state e s = Some queued) →
  ∃ s', filter_prog (λ e, transition e ["queued"] "cancelled" now (evidence_map "superseded" reason) None)
          ids s = (Ok ids, s') ∧ outbox_inv s' ∧
        ∀ x, effect_state x s' = if str_in x ids then Some cancelled else effect_state x s.
Proof.
  revert s. induction ids as [|e ids IH]; intros s Hi Hnd Hq; [by exists s|].
  apply NoDup_cons in Hnd as [Hne Hnd]. cbn [filter_prog].
  destruct (cancel_queued e now reason s Hi) as (s1 & H1 & Hi1 & Hc & Ho); [apply Hq; set_solver|].
  destruct (IH s1) as (s2 & H2 & Hi2 & Hst); [done|done| |].
  { intros x Hx. rewrite Ho by (intros ->; done). apply Hq. set_solver. }
  exists s2. unfold pbind. rewrite H1, H2. split; [done|]. split; [done|]. intros x. rewrite Hst. simpl.
  destruct (x =?s e) eqn:Ex; simpl.
  - apply str_eqb_eq in Ex as ->. by destruct (str_in e ids).
  - destruct (str_in x ids); [done|]. apply Ho. by apply str_eqb_neq.
Qed.

Lemma cancel_stale_states turn rev now reason s :
  outbox_inv s →
  let '(r, s') := cancel_stale_effects turn rev now reason s in
  ∃ ids, r = Ok ids ∧ outbox_inv s' ∧
    (∀ e, e ∈ ids ↔ ∃ row, effect_row_of e s = Some row ∧ eff_turn_id row = turn ∧
                           eff_turn_revision row < rev ∧ eff_state row = queued) ∧
    ∀ e, effect_state e s' = if str_in e ids then Some cancelled else effect_state e s.
Proof.
  intros Hi. unfold cancel_stale_effects, pbind, pget. set (ids := map _ _).
  assert (∀ e, e ∈ ids ↔ ∃ row, effect_row_of e s = Some row ∧ eff_turn_id row = turn ∧
                           eff_turn_revision row < rev ∧ eff_state row = queued) as Hspec.
  { intros e. unfold ids. rewrite list_elem_of_fmap. setoid_rewrite elem_of_order_by.
    setoid_rewrite elem_of_select. unfold stale_effect. split.
    - intros (row & -> & Hrow & Hst). exists row. split; [by apply by_id_elem; [apply Hi|]|].
      apply andb_true_iff in Hst as [[H1%str_eqb_eq H2%Z.ltb_lt]%andb_true_iff H3%state_eqb_eq]. done.
    - intros (row & Hrow & H1 & H2 & H3). apply effect_row_of_Some in Hrow as [Hin <-].
      exists row. split; [done|]. split; [done|]. rewrite !andb_true_iff.
      split; [split; [by apply str_eqb_eq|by apply Z.ltb_lt]|by apply state_eqb_eq]. }
  assert (NoDup ids) as Hnd.
  { unfold ids. change (map ?f ?l) with (f <$> l). rewrite order_by_perm.
    apply (unique_key_filter eff_effect_id), Hi. }
  destruct (cancel_fold_state now reason ids s Hi Hnd) as (s' & -> & Hi' & Hst).
  { intros e (row & Hrow & _ & _ & Hq)%Hspec. by rewrite (effect_state_of_row _ _ _ Hrow), Hq. }
  by exists ids.
Qed.

(** Superseded work is withdrawn completely and nothing else is. [cancel_stale_effects]
    returns exactly the queued effects of the turn planned under an older revision, makes
    those [cancelled] and leaves every other effect's state alone. *)
Theorem cancel_stale_exact turn rev now reason s :
  outbox_inv s →
  let '(r, s') := cancel_stale_effects turn rev now reason s in
  ∃ ids, r = Ok ids ∧ outbox_inv s' ∧
    (∀ e, e ∈ ids ↔ ∃ row, effect_row_of e s = Some row ∧ eff_turn_id row = turn ∧
                           eff_turn_revision row < rev ∧ eff_state row = queued) ∧
    ∀ e, effect_state e s' = if str_in e ids then Some cancelled else effect_state e s.
Proof. apply cancel_stale_states. Qed.

End Props.

(** ** Witnesses *)

#[local] Existing Instance plain_sha256.

Definition hello_retry : effect_args :=
  hello_args <| ea_effect_id := "e2" |> <| ea_now_ms := 900 |>.

Lemma enqueue_idempotent_witness : enqueue_effect hello_retry "queued" queued_db = (Ok "e1", queued_db).
Proof.
  apply (enqueue_idempotent hello_args hello_retry "queued" "queued" empty_db); [|done..].
  by vm_compute.
Defined.

Definition mallory_args : effect_args := hello_args <| ea_principal := "mallory" |>.

Lemma enqueue_known_key_witness :
  (enqueue_effect mallory_args "queued" queued_db).1
    = Raise (EffectConflictError "operation_key already exists with a different effect") ∧
  (enqueue_effect mallory_args "queued" queued_db).2 = queued_db.
Proof.
  split; [by vm_compute|].
  destruct (by_id eff_operation_key (ea_operation_key mallory_args) (effects queued_db)) as [row|] eqn:Er;
    [|by vm_compute in Er].
  apply (enqueue_known_key mallory_args "queued" queued_db row Er).
Defined.

Lemma submit_read_roundtrip_witness :
  ∃ stored, get_effect "e1" queued_db = Ok (Some stored) ∧ to_envelope stored = Ok hello_envelope.
Proof.
  destruct (submit_read_roundtrip hello_envelope 100 empty_db queued_db) as (st & H1 & H2);
    [done|done|done|by vm_compute|].
  exists st. done.
Defined.

Lemma claim_exclusive_witness :
  (claim_effect "e1" "w" 200 30000 None "a1" queued_db).1 = Ok true ∧
  (claim_effect "e1" "w2" 201 30000 None "a2" executing_db).1 ≠ Ok true.
Proof.
  destruct (claim_exclusive "e1" "w" 200 30000 None "a1" queued_db "w2" 201 30000 None "a2" queued_db_inv)
    as [H1 H2]; [done|done|done|].
  assert ((claim_effect "e1" "w" 200 30000 None "a1" queued_db).1 = Ok true) as Hw by (by vm_compute).
  split; [done|]. by destruct (H2 Hw) as (_ & H3 & _).
Defined.

Lemma transition_cas_witness :
  ∃ row', effect_row_of "e1" unknown_db = Some row' ∧ eff_state row' = unknown ∧
          eff_lease_owner row' = None.
Proof.
  pose proof (transition_cas "e1" ["executing"] "unknown" 300 NoEvidence (Some "w") executing_db
                executing_db_inv ltac:(done)) as H.
  change unknown_db with (transition "e1" ["executing"] "unknown" 300 NoEvidence (Some "w") executing_db).2.
  destruct (transition _ _ _ _ _ _ _) as [r s']. simpl.
  destruct (effect_row_of "e1" executing_db) as [row|] eqn:Er; [|done]. vm_compute in Er.
  injection Er as <-. destruct H as (_ & _ & (row' & t & H1 & _ & H3 & H4 & H5) & _).
  exists row'. split; [done|]. split; [rewrite H4; by destruct t|]. by apply H5.
Defined.

Lemma recovery_exact_witness :
  (recover_executing 40000 executing_db).1 = Ok ["e1"] ∧
  effect_state "e1" (recover_executing 40000 executing_db).2 = Some unknown.
Proof.
  pose proof (recovery_exact 40000 executing_db executing_db_inv) as H.
  destruct (recover_executing 40000 executing_db) as [r s']. destruct H as (-> & _ & _ & Hst & _).
  split; [by vm_compute|]. rewrite Hst. by vm_compute.
Defined.

Lemma cancel_stale_exact_witness :
  effect_state "e1" (cancel_stale_effects "tu" 2 400 "revised" queued_db).2 = Some cancelled.
Proof.
  pose proof (cancel_stale_exact "tu" 2 400 "revised" queued_db queued_db_inv) as H.
  destruct (cancel_stale_effects _ _ _ _ _) as [r s']. destruct H as (ids & _ & _ & Hin & Hst).
  simpl. rewrite Hst. assert (str_in "e1" ids = true) as ->; [|done].
  apply str_in_spec, Hin. destruct (effect_row_of "e1" queued_db) as [row|] eqn:Er; [|done].
  exists row. vm_compute in Er. injection Er as <-. done.
Defined.
