(* ===== verification/ThreadStore.v ===== *)
(** * ThreadStore

    Threads, turns, their sources, messages, generations and topic cards in
    [processing/store.py] (from [open_thread] to [record_generation]). *)

From Stdlib Require Import ZArith Lia.
From S2P Require Import Prelude Tables Json Models Schema Outbox.

Section Definitions.
  Context `{Sha256}.

(** [state IN ('open','awaiting')] *)
Definition turn_open (t : turn_row) : bool := str_in (tu_state t) ["open"; "awaiting"].

Definition TURN_STATES : list string := ["open"; "awaiting"; "closed"; "superseded"].

(** ** Threads *)

Definition thread_id_for (channel chat_id trigger_event_id : string) : string :=
  "th_" +:+ hash_prefix 16 (JArr [JStr channel; JStr chat_id; JStr trigger_event_id]).

(** [open_thread]: open (or re-use) the deterministic thread of a trigger event *)
Definition open_thread (channel chat_id root_principal kind trigger_event_id : string)
    (now_ms : Z) : prog db string :=
  let thread_id := thread_id_for channel chat_id trigger_event_id in
  write (λ s,
    match by_id th_thread_id thread_id (threads s) with
    | None =>
        Ok (thread_id,
            s <| threads ::= insert_row
                   (MkThread thread_id channel chat_id root_principal kind "open" now_ms now_ms
                      None None 0 0 "active" None None) |>)
    | Some _ =>
        Ok (thread_id,
            s <| threads ::= update (has_id th_thread_id thread_id) (λ t,
                   t <| th_state := "open" |> <| th_last_activity_ms := now_ms |>
                     <| th_closed_ms := None |> <| th_close_reason := None |>
                     <| th_reopen_count ::= (λ n, if th_state t =?s "closed" then n + 1 else n) |>) |>)
    end).

Definition get_thread (thread_id : string) (s : db) : option thread_row :=
  by_id th_thread_id thread_id (threads s).

(** [column = ?] for an optional filter *)
Definition opt_filter (v : option string) (x : string) : bool :=
  match v with Some y => x =?s y | None => true end.

(** [list_threads] *)
Definition list_threads (channel chat_id principal state : option string) (limit : option Z)
    (s : db) : list thread_row :=
  let rows :=
    order_by (λ a b, (th_last_activity_ms b <? th_last_activity_ms a)
                     || ((th_last_activity_ms a =? th_last_activity_ms b)
                         && String.leb (th_thread_id a) (th_thread_id b)))
      (select (λ t, opt_filter channel (th_channel t) && opt_filter chat_id (th_chat_id t)
                    && opt_filter principal (th_root_principal t) && opt_filter state (th_state t))
         (threads s)) in
  match limit with
  | Some n => take (Z.to_nat (Z.max 1 n)) rows
  | None => rows
  end.

Definition touch_thread (thread_id : string) (now_ms : Z) : prog db unit :=
  write (λ s, Ok (tt, s <| threads ::= update (has_id th_thread_id thread_id)
                                         (λ t, t <| th_last_activity_ms := now_ms |>) |>)).

Definition reopen_thread (thread_id : string) (now_ms : Z) : prog db bool :=
  write (λ s,
    let p := λ t, has_id th_thread_id thread_id t && negb (th_state t =?s "open") in
    Ok ((rowcount p (threads s) =? 1)%nat,
        s <| threads ::= update p (λ t, t <| th_state := "open" |> <| th_closed_ms := None |>
                                          <| th_close_reason := None |>
                                          <| th_reopen_count ::= Z.add 1 |>
                                          <| th_last_activity_ms := now_ms |>) |>)).

(** The effects joined with the turns of a thread, in the given states. *)
Definition thread_effect (s : db) (thread_id : string) (states : list EffectState)
    (e : effect_row) : bool :=
  state_in (eff_state e) states
  && row_exists (λ t, (tu_turn_id t =?s eff_turn_id e) && (tu_thread_id t =?s thread_id)) (turns s).

(** [_thread_busy]: unsettled generations, inputs or effects *)
Definition thread_busy (thread_id : string) (s : db) : bool :=
  row_exists (λ g, (gen_thread_id g =?s thread_id) && is_none (gen_finished_ms g)) (generations s)
  || row_exists (λ p, (pi_thread_id p =?s thread_id)
                      && str_in (pi_state p) ["waiting"; "deferred"]) (pending_inputs s)
  || row_exists (thread_effect s thread_id [planned; queued; executing; unknown]) (effects s).

(** [dict.fromkeys]: first occurrences, in order *)
Fixpoint dedup (seen l : list string) : list string :=
  match l with
  | [] => []
  | x :: l' => if str_in x seen then dedup seen l' else x :: dedup (x :: seen) l'
  end.

Definition mark_dormant_one (now_ms : Z) (reason : string) (acc : list string * db)
    (thread_id : string) : list string * db :=
  let (changed, s) := acc in
  if thread_busy thread_id s then acc else
  let p := λ t, has_id th_thread_id thread_id t && (th_state t =?s "open")
                && (th_conversation_state t =?s "active") in
  let s' := s <| threads ::= update p (λ t, t <| th_conversation_state := "dormant" |>
                                                <| th_dormant_ms := Some now_ms |>
                                                <| th_dormant_reason := Some reason |>) |> in
  (if (rowcount p (threads s) =? 0)%nat then changed else changed ++ [thread_id], s').

Definition mark_dormant (thread_ids : list string) (now_ms : Z) (reason : string)
    : prog db (list string) :=
  write (λ s, Ok (foldl (mark_dormant_one now_ms reason) ([], s) (dedup [] thread_ids))).

(** [reactivate]: only dormant open conversations *)
Definition reactivate (thread_id : string) (now_ms : Z) : prog db bool :=
  write (λ s,
    let p := λ t, has_id th_thread_id thread_id t && (th_state t =?s "open")
                  && (th_conversation_state t =?s "dormant") in
    Ok ((rowcount p (threads s) =? 1)%nat,
        s <| threads ::= update p (λ t, t <| th_conversation_state := "active" |>
                                          <| th_dormant_ms := None |> <| th_dormant_reason := None |>
                                          <| th_last_activity_ms := now_ms |>) |>)).

(** ** Turns *)

Definition turn_id_for (thread_id trigger_event_id : string) (turn_seq : Z) : string :=
  "tu_" +:+ hash_prefix 16 (JArr [JStr thread_id; JStr trigger_event_id; JInt turn_seq]).

(** [open_turn]: bump the thread's turn sequence and insert the turn, atomically *)
Definition open_turn (thread_id principal trigger_event_id : string) (now_ms : Z) (state : string)
    : prog db string :=
  write (λ s,
    let s1 := s <| threads ::= update (has_id th_thread_id thread_id)
                     (λ t, t <| th_turn_seq ::= Z.add 1 |> <| th_last_activity_ms := now_ms |>) |> in
    match by_id th_thread_id thread_id (threads s1) with
    | None => Raise (ProcessingError "unknown thread")
    | Some t =>
        let turn_id := turn_id_for thread_id trigger_event_id (th_turn_seq t) in
        Ok (turn_id,
            s1 <| turns ::= insert_or_ignore (has_id tu_turn_id turn_id)
                    (MkTurn turn_id thread_id principal 1 1 state now_ms now_ms None None) |>)
    end).

Definition get_turn (turn_id : string) (s : db) : option turn_row :=
  by_id tu_turn_id turn_id (turns s).

(** [active_turn]: newest open or awaiting turn *)
Definition active_turn (thread_id : string) (s : db) : option turn_row :=
  head (order_by (λ a b, (tu_opened_ms b <? tu_opened_ms a)
                         || ((tu_opened_ms a =? tu_opened_ms b)
                             && String.leb (tu_turn_id a) (tu_turn_id b)))
          (select (λ t, (tu_thread_id t =?s thread_id) && turn_open t) (turns s))).

Definition close_turn (turn_id : string) (now_ms : Z) (state : string) : prog db bool :=
  if negb (str_in state TURN_STATES) then praise (TurnStateError "unknown turn state")
  else write (λ s,
    Ok ((rowcount (has_id tu_turn_id turn_id) (turns s) =? 1)%nat,
        s <| turns ::= update (has_id tu_turn_id turn_id)
               (λ t, t <| tu_state := state |> <| tu_closed_ms := Some now_ms |>
                       <| tu_updated_ms := now_ms |>) |>)).

(** [StoredTurn.to_ref] *)
Definition turn_to_ref (t : turn_row) (channel chat_id : string) : result TurnRef :=
  TurnRef_init (tu_turn_id t) (tu_thread_id t) chat_id channel (tu_principal t) (tu_revision t)
    (Some (tu_opened_ms t)) (tu_closed_ms t).

(** [UPDATE turns SET revision = revision + 1, context_version = context_version + 1] *)
Definition bumped_turns (turn_id : string) (expected_revision now_ms : Z) (l : list turn_row)
    : list turn_row :=
  update (λ t, has_id tu_turn_id turn_id t && (tu_revision t =? expected_revision))
    (λ t, t <| tu_revision ::= Z.add 1 |> <| tu_context_version ::= Z.add 1 |>
            <| tu_updated_ms := now_ms |>) l.

(** [bump_turn_revision]: monotonic compare-and-set on the turn revision. [to_ref] runs
    after the commit. *)
Definition bump_turn_revision (turn_id : string) (expected_revision now_ms : Z)
    : prog db TurnRef :=
  let* hit := write (λ s,
    match get_turn turn_id s with
    | None => Raise (TurnStateError "unknown turn")
    | Some row =>
    match get_thread (tu_thread_id row) s with
    | None => Raise (TurnStateError "unknown turn")
    | Some th =>
    if str_in (tu_state row) ["closed"; "superseded"]
    then Raise (TurnStateError "turn is closed and cannot be revised")
    else if negb (tu_revision row =? expected_revision)
    then Raise (TurnStateError "turn is at another revision")
    else let s' := s <| turns ::= bumped_turns turn_id expected_revision now_ms |> in
         Ok ((get_turn turn_id s', th), s')
    end
    end) in
  match hit with
  | (Some t, th) => λ s, (turn_to_ref t (th_channel th) (th_chat_id th), s)
  | (None, _) => praise (TypeError "'NoneType' object is not subscriptable")
  end.

(** [bump_context_version]: new context, same revision *)
Definition bump_context_version (turn_id : string) (now_ms : Z) : prog db Z :=
  let* row := write (λ s,
    let s' := s <| turns ::= update (has_id tu_turn_id turn_id)
                     (λ t, t <| tu_context_version ::= Z.add 1 |> <| tu_updated_ms := now_ms |>) |> in
    Ok (get_turn turn_id s', s')) in
  match row with
  | Some t => pret (tu_context_version t)
  | None => praise (TurnStateError "unknown turn")
  end.

(** [settle_idle_turns] *)
Definition settle_candidates (now_ms idle_ms limit : Z) (s : db) : list turn_row :=
  take (Z.to_nat (Z.max 0 limit))
    (order_by (λ a b, time_id_leb (tu_updated_ms a, tu_turn_id a) (tu_updated_ms b, tu_turn_id b))
       (select (λ t, turn_open t && (tu_updated_ms t <=? now_ms - idle_ms)) (turns s))).

Record settle_acc := MkSettle {
  sa_busy : list (string * bool);
  sa_closed : list string;
  sa_db : db;
}.

Definition settle_turn (now_ms idle_ms : Z) (skip : list string) (acc : settle_acc) (row : turn_row)
    : settle_acc :=
  let thread_id := tu_thread_id row in
  if str_in thread_id skip then acc else
  let (busy, memo) :=
    match List.find (λ p : string * bool, p.1 =?s thread_id) (sa_busy acc) with
    | Some (_, b) => (b, sa_busy acc)
    | None => let b := thread_busy thread_id (sa_db acc) in (b, (thread_id, b) :: sa_busy acc)
    end in
  if busy then MkSettle memo (sa_closed acc) (sa_db acc) else
  let s := sa_db acc in
  let p := λ t, has_id tu_turn_id (tu_turn_id row) t && turn_open t
                && (tu_updated_ms t <=? now_ms - idle_ms) in
  MkSettle memo
    (if (rowcount p (turns s) =? 0)%nat then sa_closed acc else sa_closed acc ++ [tu_turn_id row])
    (s <| turns ::= update p (λ t, t <| tu_state := "closed" |> <| tu_closed_ms := Some now_ms |>
                                     <| tu_updated_ms := now_ms |>) |>).

Definition settle_idle_turns (now_ms idle_ms : Z) (skip : list string) (limit : Z)
    : prog db (list string) :=
  write (λ s,
    let acc := foldl (settle_turn now_ms idle_ms skip) (MkSettle [] [] s)
                 (settle_candidates now_ms idle_ms limit s) in
    Ok (sa_closed acc, sa_db acc)).

(** [close_idle_threads] *)
Definition thread_idle (now_ms idle_ms : Z) (s : db) (t : thread_row) : bool :=
  (th_state t =?s "open") && (th_last_activity_ms t <=? now_ms - idle_ms)
  && negb (row_exists (λ u, (tu_thread_id u =?s th_thread_id t) && turn_open u
                            && (now_ms - idle_ms <? tu_updated_ms u)) (turns s))
  && negb (row_exists (thread_effect s (th_thread_id t) [queued; executing]) (effects s)).

Definition close_idle_one (now_ms : Z) (s : db) (thread_id : string) : db :=
  s <| threads ::= update (λ t, has_id th_thread_id thread_id t && (th_state t =?s "open"))
         (λ t, t <| th_state := "closed" |> <| th_closed_ms := Some now_ms |>
                 <| th_close_reason := Some "idle" |>) |>
    <| turns ::= update (λ t, (tu_thread_id t =?s thread_id) && turn_open t)
         (λ t, t <| tu_state := "closed" |> <| tu_closed_ms := Some now_ms |>) |>.

Definition close_idle_threads (now_ms idle_ms : Z) : prog db (list string) :=
  write (λ s,
    let ids := map th_thread_id (select (thread_idle now_ms idle_ms s) (threads s)) in
    Ok (ids, foldl (close_idle_one now_ms) s ids)).

(** ** Manual reset of a chat *)

(** [UPDATE effects SET state = 'cancelled' WHERE effect_id = ? AND state IN
    ('planned','queued')] and its evidence *)
Definition cancel_effect (now_ms : Z) (s : db) (effect_id : string) : db :=
  append_evidence effect_id "superseded" (Some "cancelled") (Some "manual_new") now_ms None
    (s <| effects ::= update (λ r, has_id eff_effect_id effect_id r
                                   && state_in (eff_state r) [planned; queued])
           (λ r, r <| eff_state := cancelled |> <| eff_updated_ms := now_ms |>) |>).

(** One thread of [close_chat_threads]: effects, inputs, generations, turns, thread. *)
Definition close_chat_thread (now_ms : Z) (s : db) (thread_id : string) : db :=
  let ids := map eff_effect_id (select (thread_effect s thread_id [planned; queued]) (effects s)) in
  let s1 := foldl (cancel_effect now_ms) s ids in
  s1 <| pending_inputs ::= update (λ p, (pi_thread_id p =?s thread_id)
                                        && str_in (pi_state p) ["waiting"; "deferred"])
          (λ p, p <| pi_state := "cancelled" |> <| pi_consumed_ms := Some now_ms |>) |>
     <| generations ::= update (λ g, (gen_thread_id g =?s thread_id) && is_none (gen_finished_ms g))
          (λ g, g <| gen_finished_ms := Some now_ms |> <| gen_outcome := Some "cancelled" |>
                  <| gen_detail := Some "manual_new" |>) |>
     <| turns ::= update (λ t, (tu_thread_id t =?s thread_id) && turn_open t)
          (λ t, t <| tu_state := "superseded" |> <| tu_closed_ms := Some now_ms |>
                  <| tu_updated_ms := now_ms |>) |>
     <| threads ::= update (has_id th_thread_id thread_id)
          (λ t, t <| th_state := "closed" |> <| th_closed_ms := Some now_ms |>
                  <| th_close_reason := Some "manual_new" |>) |>.

Definition close_chat_threads (channel chat_id : string) (now_ms : Z) : prog db (list string) :=
  write (λ s,
    let ids := map th_thread_id
      (order_by (λ a b, time_id_leb (th_last_activity_ms a, th_thread_id a)
                          (th_last_activity_ms b, th_thread_id b))
         (select (λ t, (th_channel t =?s channel) && (th_chat_id t =?s chat_id)
                       && str_in (th_state t) ["open"; "idle"]) (threads s))) in
    Ok (ids, foldl (close_chat_thread now_ms) s ids)).

(** ** Turn sources and event assignment *)

(** [add_turn_source]: a known source stays; a new one needs its turn (foreign key) *)
Definition add_turn_source (turn_id event_id : string) (source_message_id : option string)
    (role : string) (revision_at_join now_ms : Z) : prog db unit :=
  write (λ s,
    if row_exists (λ r, (ts_turn_id r =?s turn_id) && (ts_event_id r =?s event_id)) (turn_sources s)
    then Ok (tt, s)
    else if negb (row_exists (has_id tu_turn_id turn_id) (turns s))
    then Raise (IntegrityError "FOREIGN KEY constraint failed")
    else Ok (tt, s <| turn_sources ::= insert_row
           (MkTurnSource turn_id event_id source_message_id role revision_at_join now_ms None) |>)).

Definition mark_turn_source_removed (turn_id event_id : string) (now_ms : Z) : prog db bool :=
  write (λ s,
    let p := λ r, (ts_turn_id r =?s turn_id) && (ts_event_id r =?s event_id)
                  && is_none (ts_removed_ms r) in
    Ok ((rowcount p (turn_sources s) =? 1)%nat,
        s <| turn_sources ::= update p (λ r, r <| ts_removed_ms := Some now_ms |>) |>)).

Definition get_turn_sources (turn_id : string) (s : db) : list turn_source_row :=
  order_by (λ a b, time_id_leb (ts_added_ms a, ts_event_id a) (ts_added_ms b, ts_event_id b))
    (select (λ r, ts_turn_id r =?s turn_id) (turn_sources s)).

(** [thread_sources_available]: the thread has sources and none lost its payload *)
Definition thread_source (s : db) (thread_id : string) (r : turn_source_row) : bool :=
  row_exists (λ t, (tu_turn_id t =?s ts_turn_id r) && (tu_thread_id t =?s thread_id)) (turns s).

Definition thread_sources_available (thread_id : string) (s : db) : bool :=
  let missing := rowcount (λ r, thread_source s thread_id r
                   && row_exists (λ e, (ev_event_id e =?s ts_event_id r)
                                       && is_none (ev_payload_json e)) (events s)) (turn_sources s) in
  let total := rowcount (thread_source s thread_id) (turn_sources s) in
  negb (total =? 0)%nat && (missing =? 0)%nat.

Definition attach_event_assignment (event_id : string) (thread_id turn_id : option string)
    : prog db unit :=
  write (λ s, Ok (tt, s <| events ::= update (has_id ev_event_id event_id)
                             (λ e, e <| ev_thread_id := thread_id |> <| ev_turn_id := turn_id |>) |>)).

(** [event_assignment]: by event id, else the newest assigned event of that provider id *)
Definition event_assignment (event_id : string) (s : db) : option (option string * option string) :=
  let assigned := λ e, is_some (ev_thread_id e) || is_some (ev_turn_id e) in
  let fallback :=
    head (order_by (λ a b, time_id_leb (ev_created_ms b, ev_event_id b) (ev_created_ms a, ev_event_id a))
            (select (λ e, opt_str_eqb (ev_source_message_id e) (Some event_id) && assigned e)
               (events s))) in
  let row := by_id ev_event_id event_id (events s) in
  let row := match row with
             | Some e => if assigned e then Some e
                         else match fallback with Some f => Some f | None => Some e end
             | None => fallback
             end in
  (λ e, (ev_thread_id e, ev_turn_id e)) <$> row.

(** [_opt_str] on a column *)
Definition nonempty (o : option string) : option string :=
  match o with Some s => if str_true s then Some s else None | None => None end.

(** [resolve_reference]: confirmed outgoing ids, journaled message ids, known turns *)
Definition resolve_reference (reference : option string) (s : db)
    : option (string * option string) :=
  match reference with
  | None => None
  | Some ref =>
  if negb (str_true ref) then None else
  match fetchone (λ m, opt_str_eqb (tm_message_id m) (Some ref) && is_some (tm_confirmed_ms m))
          (thread_messages s) with
  | Some m => Some (tm_thread_id m, nonempty (tm_turn_id m))
  | None =>
  match head (order_by (λ a b, ev_created_ms a <=? ev_created_ms b)
                (select (λ e, opt_str_eqb (ev_source_message_id e) (Some ref)
                              && is_some (ev_thread_id e)) (events s))) with
  | Some e => match ev_thread_id e with
              | Some th => Some (th, nonempty (ev_turn_id e))
              | None => None
              end
  | None =>
  match get_turn ref s with
  | Some t => Some (tu_thread_id t, Some (tu_turn_id t))
  | None => None
  end
  end
  end
  end.

(** ** Thread messages *)

Definition register_thread_message (thread_id : string) (now_ms : Z) (direction : string)
    (turn_id event_id effect_id message_id : option string) : prog db unit :=
  write (λ s,
    let same_effect := λ m, is_some effect_id && opt_str_eqb (tm_effect_id m) effect_id in
    let same_message := λ m, is_some message_id && opt_str_eqb (tm_message_id m) message_id in
    if row_exists same_effect (thread_messages s) then Ok (tt, s)
    else if row_exists same_message (thread_messages s)
    then Raise (IntegrityError "UNIQUE constraint failed: thread_messages.message_id")
    else Ok (tt, s <| thread_messages ::= insert_row
           (MkThreadMessage message_id thread_id turn_id direction event_id effect_id
              (match message_id with
               | Some m => if str_true m then Some now_ms else None
               | None => None
               end) now_ms) |>)).

Definition attach_confirmed_message_id (effect_id provider_message_id : string) (now_ms : Z)
    : prog db bool :=
  if negb (str_true provider_message_id) then praise (ValueError "provider_message_id is required")
  else write (λ s,
    let p := λ m, opt_str_eqb (tm_effect_id m) (Some effect_id) && is_none (tm_message_id m) in
    if row_exists p (thread_messages s)
       && row_exists (λ m, opt_str_eqb (tm_message_id m) (Some provider_message_id)) (thread_messages s)
    then Raise (IntegrityError "UNIQUE constraint failed: thread_messages.message_id")
    else Ok ((rowcount p (thread_messages s) =? 1)%nat,
             s <| thread_messages ::= update p (λ m,
                    m <| tm_message_id := Some provider_message_id |>
                      <| tm_confirmed_ms := Some now_ms |>) |>)).

(** ** Generations *)

(** [GenerationSnapshot] with its source references. *)
Record GenerationSnapshot := MkSnapshot {
  gsn_generation_id : string;
  gsn_turn_id : string;
  gsn_thread_id : string;
  gsn_revision : Z;
  gsn_context_version : Z;
  gsn_sources : list (string * option string * string * Z);
  gsn_snapshot_hash : string;
}.

Definition record_generation (g : GenerationSnapshot) (created : Z) : prog db string :=
  write (λ s,
    let gid := gsn_generation_id g in
    let s1 := s <| generations ::= insert_or_ignore (has_id gen_generation_id gid)
                     (MkGeneration gid (gsn_turn_id g) (gsn_thread_id g) (gsn_revision g)
                        (gsn_context_version g) (gsn_snapshot_hash g) 0 created None None None) |> in
    let s2 := foldl (λ s '(event_id, source_message_id, role, rev),
                 s <| generation_sources ::=
                        insert_or_ignore (λ r, (gs_generation_id r =?s gid) && (gs_event_id r =?s event_id))
                          (MkGenerationSource gid event_id source_message_id role rev) |>)
                s1 (gsn_sources g) in
    Ok (gid, s2 <| turns ::= update (has_id tu_turn_id (gsn_turn_id g))
                     (λ t, t <| tu_last_generation_id := Some gid |> <| tu_updated_ms := created |>) |>)).

Definition finish_generation (generation_id : string) (now_ms : Z) (outcome : string)
    (detail : option string) : prog db bool :=
  write (λ s,
    Ok ((rowcount (has_id gen_generation_id generation_id) (generations s) =? 1)%nat,
        s <| generations ::= update (has_id gen_generation_id generation_id)
               (λ g, g <| gen_finished_ms := Some now_ms |> <| gen_outcome := Some outcome |>
                       <| gen_detail := detail |>) |>)).

End Definitions.
