(* ===== verification/ThreadProps.v ===== *)
(** * ThreadProps

    What the thread and turn tables promise: revisions are compared and set, idle turns
    settle exactly when nothing of their thread is pending, and a manual reset cancels
    exactly the undelivered work of the chat. *)

From Stdlib Require Import ZArith Lia.
From S2P Require Import Prelude Tables Json Models Schema Outbox OutboxFacts OutboxSpec OutboxRefine.
From S2P Require Import Quiet Fixtures ThreadStore.

Section Props.
  Context `{Sha256}.

(** ** Revisions *)

Definition revised (t : turn_row) (now : Z) : turn_row :=
  t <| tu_revision ::= Z.add 1 |> <| tu_context_version ::= Z.add 1 |> <| tu_updated_ms := now |>.

(** The turn may be revised from revision [exp]. *)
Definition revisable (turn : string) (exp : Z) (s : db) (t : turn_row) (th : thread_row) : Prop :=
  get_turn turn s = Some t ∧ get_thread (tu_thread_id t) s = Some th ∧
  str_in (tu_state t) ["closed"; "superseded"] = false ∧ tu_revision t = exp.

Lemma bumped_turn turn exp now s t :
  get_turn turn s = Some t → tu_revision t = exp →
  by_id tu_turn_id turn (bumped_turns turn exp now (turns s)) = Some (revised t now).
Proof.
  intros Ht He. unfold bumped_turns. rewrite by_id_update by done. unfold get_turn in Ht. rewrite Ht.
  cbn [fmap option_fmap option_map]. apply by_id_Some_inv in Ht as [_ Hid].
  unfold has_id. by rewrite Hid, str_eqb_refl, He, Z.eqb_refl.
Qed.

Lemma bump_accepts turn exp now s t th :
  revisable turn exp s t th → 1 ≤ exp →
  ∃ ref, bump_turn_revision turn exp now s =
           (Ok ref, s <| turns ::= bumped_turns turn exp now |>) ∧ tr_revision ref = exp + 1.
Proof.
  intros (Ht & Hth & Hst & Hrev) He. unfold bump_turn_revision, pbind, write.
  rewrite Ht, Hth, Hst, Hrev, Z.eqb_refl. cbn [negb].
  unfold get_turn at 1. cbn [turns set_field].
  rewrite (bumped_turn turn exp now s t) by done. cbv beta iota.
  unfold turn_to_ref, TurnRef_init. cbn. rewrite Hrev.
  rewrite (proj2 (Z.ltb_ge (1 + exp) 1)) by lia. eexists. split; [done|]. cbn. lia.
Qed.

Lemma bump_refuses turn exp now s :
  (∀ t th, ¬ revisable turn exp s t th) →
  ∃ msg, bump_turn_revision turn exp now s = (Raise (TurnStateError msg), s).
Proof.
  intros Hno. unfold bump_turn_revision, pbind, write.
  destruct (get_turn turn s) as [t|] eqn:Et; [|by eauto].
  destruct (get_thread _ s) as [th|] eqn:Eth; [|by eauto].
  destruct (str_in (tu_state t) _) eqn:Est; [by eauto|].
  destruct (tu_revision t =? exp) eqn:Er; cbn [negb]; [|by eauto].
  exfalso. apply (Hno t th). repeat split; try done. lia.
Qed.

(** Turn revisions are a compare-and-set. [bump_turn_revision] succeeds exactly on a
    live turn at the expected revision; then the revision and the context version go up by
    one, no other turn changes, and a second caller that expects the old revision is refused
    with nothing written, as is every caller that does not match. *)
Theorem bump_revision_cas turn exp now s :
  1 ≤ exp →
  ((∃ t th, revisable turn exp s t th ∧
      ∃ ref s', bump_turn_revision turn exp now s = (Ok ref, s') ∧ tr_revision ref = exp + 1 ∧
        get_turn turn s' = Some (revised t now) ∧
        (∀ x, x ≠ turn → get_turn x s' = get_turn x s) ∧
        ∀ now2, ∃ msg, bump_turn_revision turn exp now2 s' = (Raise (TurnStateError msg), s')) ∨
   (∀ t th, ¬ revisable turn exp s t th) ∧
      ∃ msg, bump_turn_revision turn exp now s = (Raise (TurnStateError msg), s)).
Proof.
  intros He.
  assert ((∃ t th, revisable turn exp s t th) ∨ ∀ t th, ¬ revisable turn exp s t th) as [(t & th & Hr)|Hno].
  { unfold revisable. destruct (get_turn turn s) as [t|] eqn:Et; [|right; by intros ? ? [? _]].
    destruct (get_thread (tu_thread_id t) s) as [th|] eqn:Eth;
      [|right; intros ? ? ([= <-] & ? & _); congruence].
    destruct (str_in (tu_state t) ["closed"; "superseded"]) eqn:Est;
      [right; intros ? ? ([= <-] & _ & ? & _); congruence|].
    destruct (decide (tu_revision t = exp)); [left; by exists t, th|].
    right. by intros ? ? ([= <-] & _ & _ & ?). }
  2:{ right. split; [done|]. by apply bump_refuses. }
  left. exists t, th. split; [done|].
  destruct (bump_accepts turn exp now s t th Hr He) as (ref & Hb & Href).
  destruct Hr as (Ht & _ & _ & Hrev). eexists ref, _. split; [done|]. split; [done|].
  assert (get_turn turn (s <| turns ::= bumped_turns turn exp now |>) = Some (revised t now)) as Hnew
    by (by apply bumped_turn).
  split; [done|]. split.
  - intros x Hx. unfold get_turn. cbn [turns set_field]. unfold bumped_turns.
    rewrite by_id_update by done. destruct (by_id tu_turn_id x (turns s)) as [u|] eqn:Eu; [|done].
    apply by_id_Some_inv in Eu as [_ Hid]. cbn. unfold has_id. rewrite Hid.
    by rewrite (proj2 (str_eqb_neq x turn)).
  - intros now2. apply bump_refuses. intros t2 th2 (Ht2 & _ & _ & Hr2).
    rewrite Hnew in Ht2. injection Ht2 as <-. cbn in Hr2. lia.
Qed.

(** ** Settling idle turns *)

(** What [_thread_busy] can see of a turn. *)
Definition turn_index (t : turn_row) : string * string := (tu_turn_id t, tu_thread_id t).

Lemma row_exists_map {R S} (f : R → S) (q : S → bool) (l : list R) :
  row_exists (λ r, q (f r)) l = existsb q (map f l).
Proof. unfold row_exists. induction l as [|r l IH]; [done|]. simpl. by rewrite IH. Qed.

Lemma thread_effect_ext s s' th states e :
  map turn_index (turns s') = map turn_index (turns s) →
  thread_effect s' th states e = thread_effect s th states e.
Proof.
  intros Hi. unfold thread_effect. f_equal.
  set (q := λ i : string * string, (i.1 =?s eff_turn_id e) && (i.2 =?s th)).
  transitivity (existsb q (map turn_index (turns s'))); [exact (row_exists_map turn_index q _)|].
  rewrite Hi. symmetry. exact (row_exists_map turn_index q _).
Qed.

Lemma thread_busy_ext s s' th :
  map turn_index (turns s') = map turn_index (turns s) →
  generations s' = generations s → pending_inputs s' = pending_inputs s → effects s' = effects s →
  thread_busy th s' = thread_busy th s.
Proof.
  intros Hi Hg Hp He. unfold thread_busy. rewrite Hg, Hp, He. f_equal. unfold row_exists.
  clear He. induction (effects s) as [|e l IH]; [done|]. cbn [existsb].
  by rewrite IH, (thread_effect_ext s s').
Qed.

Definition closed_turn (now : Z) (t : turn_row) : turn_row :=
  t <| tu_state := "closed" |> <| tu_closed_ms := Some now |> <| tu_updated_ms := now |>.

(** The turns table after the listed turns were settled. *)
Definition settled (now : Z) (ids : list string) (l : list turn_row) : list turn_row :=
  update (λ t, str_in (tu_turn_id t) ids) (closed_turn now) l.

Lemma settled_index now ids l : map turn_index (settled now ids l) = map turn_index l.
Proof.
  unfold settled, update. rewrite List.map_map. apply map_ext. intros t.
  by destruct (str_in _ _).
Qed.

Definition settles (skip : list string) (s : db) (t : turn_row) : bool :=
  negb (str_in (tu_thread_id t) skip) && negb (thread_busy (tu_thread_id t) s).

Lemma str_in_app x l1 l2 : str_in x (l1 ++ l2) = str_in x l1 || str_in x l2.
Proof. apply existsb_app. Qed.

(** Settling one more turn that is open and idle in the original table. *)
Lemma settled_snoc now idle ids l c :
  unique_key tu_turn_id l → c ∈ l → turn_open c = true → tu_updated_ms c <= now - idle →
  update (λ t, has_id tu_turn_id (tu_turn_id c) t && turn_open t && (tu_updated_ms t <=? now - idle))
    (closed_turn now) (settled now ids l) = settled now (ids ++ [tu_turn_id c]) l.
Proof.
  intros Hu Hc Ho Hi. unfold settled, update. rewrite List.map_map. apply map_ext_in.
  intros t Ht%list_elem_of_In. rewrite str_in_app. destruct (str_in (tu_turn_id t) ids) eqn:E; simpl.
  - by rewrite andb_false_r.
  - unfold has_id. rewrite orb_false_r. destruct (tu_turn_id t =?s tu_turn_id c) eqn:Eid; [|done].
    apply str_eqb_eq in Eid. rewrite (unique_key_inj _ _ t c Hu Ht Hc Eid), Ho. simpl.
    by rewrite (proj2 (Z.leb_le _ _) Hi).
Qed.

Definition settle_state (now : Z) (s : db) (memo : list (string * bool)) (ids : list string)
    : settle_acc :=
  MkSettle memo ids (s <| turns := settled now ids (turns s) |>).

Definition memo_ok (s : db) (memo : list (string * bool)) : Prop :=
  ∀ p, p ∈ memo → p.2 = thread_busy p.1 s.

Lemma settle_step now idle skip s c memo ids :
  unique_key tu_turn_id (turns s) → memo_ok s memo →
  c ∈ turns s → turn_open c = true → tu_updated_ms c <= now - idle → tu_turn_id c ∉ ids →
  ∃ memo', memo_ok s memo' ∧
    settle_turn now idle skip (settle_state now s memo ids) c =
    settle_state now s memo' (if settles skip s c then ids ++ [tu_turn_id c] else ids).
Proof.
  intros Hu Hm Hc Hopen Hidle Hfresh.
  assert (thread_busy (tu_thread_id c) (s <| turns := settled now ids (turns s) |>)
          = thread_busy (tu_thread_id c) s) as Hb.
  { apply thread_busy_ext; try done. apply settled_index. }
  unfold settle_turn, settles, settle_state. cbv zeta. cbn [sa_busy sa_closed sa_db].
  destruct (str_in (tu_thread_id c) skip); cbn [negb andb]; [by exists memo|].
  assert (∃ memo', memo_ok s memo' ∧
      (match List.find (λ p : string * bool, p.1 =?s tu_thread_id c) memo with
       | Some (_, b) => (b, memo)
       | None => (thread_busy (tu_thread_id c) (s <| turns := settled now ids (turns s) |>),
                  (tu_thread_id c, thread_busy (tu_thread_id c)
                                     (s <| turns := settled now ids (turns s) |>)) :: memo)
       end) = (thread_busy (tu_thread_id c) s, memo')) as (memo' & Hm' & ->).
  { destruct (List.find _ memo) as [[th b]|] eqn:Ef.
    - apply find_some in Ef as [Hin%list_elem_of_In Hth%str_eqb_eq]. simpl in Hth. subst th.
      exists memo. split; [done|]. apply Hm in Hin. simpl in Hin. by rewrite Hin.
    - rewrite Hb. eexists. split; [|done]. intros p [->|Hp]%elem_of_cons; [done|auto]. }
  exists memo'. split; [done|]. destruct (thread_busy (tu_thread_id c) s); cbn [negb]; [done|].
  cbn [turns set_field].
  destruct (rowcount _ (settled now ids (turns s)) =? 0)%nat eqn:Ez.
  { exfalso. apply Nat.eqb_eq, rowcount_zero with (r := c) in Ez.
    - unfold has_id in Ez. rewrite str_eqb_refl, Hopen in Ez. simpl in Ez. lia.
    - apply elem_of_update. exists c. split; [done|].
      rewrite <- str_in_spec in Hfresh. by apply not_true_iff_false in Hfresh as ->. }
  rewrite <- (settled_snoc now idle ids (turns s) c) by done. done.
Qed.

Lemma settle_fold now idle skip s cs memo ids :
  unique_key tu_turn_id (turns s) → memo_ok s memo →
  (∀ c, c ∈ cs → c ∈ turns s ∧ turn_open c = true ∧ tu_updated_ms c <= now - idle) →
  NoDup (ids ++ map tu_turn_id cs) →
  ∃ memo', foldl (settle_turn now idle skip) (settle_state now s memo ids) cs =
           settle_state now s memo' (ids ++ map tu_turn_id (select (settles skip s) cs)).
Proof.
  intros Hu. revert memo ids. induction cs as [|c cs IH]; intros memo ids Hm Hcs Hnd.
  { exists memo. simpl. by rewrite app_nil_r. }
  destruct (Hcs c) as (Hc & Hopen & Hidle); [set_solver|].
  cbn [map] in Hnd. apply NoDup_app in Hnd as (H1 & H2 & [H3 H4]%NoDup_cons).
  destruct (settle_step now idle skip s c memo ids) as (memo' & Hm' & Hstep); try done.
  { intros Hin. apply (H2 _ Hin). set_solver. }
  cbn [foldl]. rewrite Hstep. cbn [select List.filter].
  destruct (settles skip s c).
  - destruct (IH memo' (ids ++ [tu_turn_id c])) as (memo2 & ->); [done|set_solver| |].
    + rewrite <- app_assoc. apply NoDup_app. split; [done|]. split; [set_solver|].
      by apply NoDup_cons.
    + exists memo2. cbn [map]. by rewrite <- app_assoc.
  - apply IH; [done|set_solver|]. apply NoDup_app. set_solver.
Qed.

Lemma NoDup_take_map {A B} (f : A → B) n l : NoDup (map f l) → NoDup (map f (take n l)).
Proof.
  rewrite <- (take_drop n l) at 1. rewrite map_app. intros Hd. by apply NoDup_app in Hd as (? & _).
Qed.

(** Settling is exact. [settle_idle_turns] closes precisely the open turns that were
    idle long enough (the oldest [limit] of them), whose thread is not being skipped and has
    no unfinished generation, waiting input or undelivered effect; it returns their ids
    and changes nothing else. The memo of busy threads is never stale. *)
Theorem settle_exact now idle skip limit s :
  unique_key tu_turn_id (turns s) →
  let due := map tu_turn_id (select (settles skip s) (settle_candidates now idle limit s)) in
  settle_idle_turns now idle skip limit s =
    (Ok due, s <| turns := settled now due (turns s) |>).
Proof.
  intros Hu due.
  assert (s = s <| turns := settled now [] (turns s) |>) as Hs0.
  { assert (settled now [] (turns s) = turns s) as -> by (by apply update_none). by destruct s. }
  assert (∀ c, c ∈ settle_candidates now idle limit s →
            c ∈ turns s ∧ turn_open c = true ∧ tu_updated_ms c <= now - idle) as Hcs.
  { intros c Hc%elem_of_take. destruct Hc as (i & Hc%list_elem_of_lookup_2 & _).
    apply elem_of_order_by, elem_of_select in Hc as (Hc & [Ho Hi%Z.leb_le]%andb_true_iff). done. }
  destruct (settle_fold now idle skip s (settle_candidates now idle limit s) [] []) as (memo & Hf); try done.
  { intros p Hp. by apply not_elem_of_nil in Hp. }
  { simpl. apply NoDup_take_map. rewrite order_by_perm. by apply (unique_key_filter tu_turn_id). }
  unfold settle_state in Hf at 1. rewrite <- Hs0 in Hf. unfold settle_idle_turns, write.
  by rewrite Hf.
Qed.

(** ** Manual reset of a chat *)

(** Successive updates with one idempotent change are one update. *)
Lemma update_fold {R} (p : string → R → bool) (f : R → R) ids l :
  (∀ r, f (f r) = f r) →
  foldl (λ l i, update (p i) f l) l ids = update (λ r, existsb (λ i, p i r) ids) f l.
Proof.
  intros Hf. revert l. induction ids as [|i ids IH]; intros l; simpl.
  - symmetry. by apply update_none.
  - rewrite IH. unfold update. rewrite List.map_map. apply map_ext. intros r.
    destruct (p i r); simpl; [|done]. destruct (existsb _ ids); [apply Hf|done].
Qed.

Definition cancelled_effect (now : Z) (r : effect_row) : effect_row :=
  r <| eff_state := cancelled |> <| eff_updated_ms := now |>.

Definition pending_states : list EffectState := [planned; queued].

Lemma foldl_table {R} (table : db → list R) (step : db → string → db) (g : string → list R → list R) :
  (∀ s i, table (step s i) = g i (table s)) →
  ∀ ids s, table (foldl step s ids) = foldl (λ l i, g i l) (table s) ids.
Proof. intros Hs ids. induction ids as [|i ids IH]; intros s; simpl; [done|]. by rewrite IH, Hs. Qed.

Lemma cancel_fold_effects now ids s :
  effects (foldl (cancel_effect now) s ids) =
    update (λ r, existsb (λ i, has_id eff_effect_id i r && state_in (eff_state r) pending_states) ids)
      (cancelled_effect now) (effects s).
Proof.
  rewrite (foldl_table effects _ (λ i, update (λ r, has_id eff_effect_id i r
             && state_in (eff_state r) pending_states) (cancelled_effect now))) by done.
  by apply (update_fold (λ i r, has_id eff_effect_id i r && state_in (eff_state r) pending_states)).
Qed.

(** The cancellations leave every other table but the evidence alone. *)
Lemma cancel_fold_other {R} (table : db → list R) now ids s :
  (∀ s i, table (cancel_effect now s i) = table s) → table (foldl (cancel_effect now) s ids) = table s.
Proof.
  intros Ht. rewrite (foldl_table table _ (λ _ l, l)) by auto.
  generalize (table s). by induction ids.
Qed.

(** One thread's pending effects are cancelled, and only they. *)
Lemma close_chat_thread_effects now s th :
  unique_key eff_effect_id (effects s) →
  effects (close_chat_thread now s th) =
    update (thread_effect s th pending_states) (cancelled_effect now) (effects s).
Proof.
  intros Hu. unfold close_chat_thread. cbn [effects set_field]. rewrite cancel_fold_effects.
  apply update_ext. intros r Hr.
  enough (∀ b c : bool, (b = true ↔ c = true) → (if b then cancelled_effect now r else r) =
            (if c then cancelled_effect now r else r)) as Hgo.
  2:{ intros [] [] Hbc; try done; exfalso; naive_solver. }
  apply Hgo. rewrite existsb_exists. split.
  - intros (i & (r' & Hi & Hr')%list_elem_of_In%list_elem_of_fmap & [Hid%str_eqb_eq _]%andb_true_iff).
    apply elem_of_select in Hr' as [Hr' Hp]. by rewrite (unique_key_inj _ _ r r' Hu) by congruence.
  - intros Hp. exists (eff_effect_id r). split.
    + apply list_elem_of_In, list_elem_of_fmap. exists r. split; [done|]. by apply elem_of_select.
    + unfold has_id. rewrite str_eqb_refl. by apply andb_true_iff in Hp as [? _].
Qed.

Lemma close_chat_thread_index now s th :
  map turn_index (turns (close_chat_thread now s th)) = map turn_index (turns s).
Proof.
  unfold close_chat_thread. cbn [turns set_field]. rewrite (cancel_fold_other turns) by done.
  unfold update. rewrite List.map_map. apply map_ext. intros t. by destruct (_ && _).
Qed.

Lemma thread_effect_cancelled s th now r :
  thread_effect s th pending_states (cancelled_effect now r) = false.
Proof. done. Qed.

(** All pending effects of the listed threads are cancelled. *)
Lemma close_chat_fold_effects now ids s :
  unique_key eff_effect_id (effects s) →
  effects (foldl (close_chat_thread now) s ids) =
    update (λ r, existsb (λ th, thread_effect s th pending_states r) ids)
      (cancelled_effect now) (effects s).
Proof.
  revert s. induction ids as [|th ids IH]; intros s Hu; cbn [foldl existsb].
  - symmetry. by apply update_none.
  - rewrite IH.
    2:{ rewrite close_chat_thread_effects by done. by apply unique_key_update. }
    rewrite close_chat_thread_effects by done. unfold update. rewrite List.map_map. apply map_ext.
    intros r.
    assert (∀ r', existsb (λ i, thread_effect (close_chat_thread now s th) i pending_states r') ids =
                  existsb (λ i, thread_effect s i pending_states r') ids) as Hx.
    { intros r'. clear IH. induction ids as [|i ids IH]; [done|]. cbn [existsb].
      by rewrite IH, (thread_effect_ext s (close_chat_thread now s th)) by apply close_chat_thread_index. }
    rewrite Hx. destruct (thread_effect s th pending_states r); cbn [orb]; [|done].
    by destruct (existsb _ ids).
Qed.

(** The threads a reset closes. *)
Definition reset_threads (channel chat_id : string) (s : db) : list string :=
  map th_thread_id
    (order_by (λ a b, time_id_leb (th_last_activity_ms a, th_thread_id a)
                        (th_last_activity_ms b, th_thread_id b))
       (select (λ t, (th_channel t =?s channel) && (th_chat_id t =?s chat_id)
                     && str_in (th_state t) ["open"; "idle"]) (threads s))).

(** A table of the reset threads after one pass per thread. *)
Lemma close_chat_fold_table {R} (table : db → list R) (p : string → R → bool) (f : R → R) now ids s :
  (∀ s th, table (close_chat_thread now s th) = update (p th) f (table s)) → (∀ r, f (f r) = f r) →
  table (foldl (close_chat_thread now) s ids) = update (λ r, existsb (λ th, p th r) ids) f (table s).
Proof. intros Hs Hf. by rewrite (foldl_table table _ (λ th, update (p th) f)), update_fold. Qed.

(** What the pass over a reset thread was looking for is gone. *)
Lemma close_chat_fold_none {R} (table : db → list R) (key : R → string) (q : R → bool) (f : R → R)
    now ids s th r :
  (∀ s th, table (close_chat_thread now s th) = update (λ r, (key r =?s th) && q r) f (table s)) →
  (∀ r, f (f r) = f r) → (∀ r, q (f r) = false) →
  th ∈ ids → r ∈ table (foldl (close_chat_thread now) s ids) → key r = th → q r = false.
Proof.
  intros Hs Hf Hq Hth. rewrite (close_chat_fold_table table (λ th r, (key r =?s th) && q r) f) by done.
  intros (r0 & _ & ->)%elem_of_update Hid. destruct (existsb _ ids) eqn:E; [done|].
  apply not_true_iff_false. intros Ho. apply not_true_iff_false in E. apply E, existsb_exists.
  exists th. split; [by apply list_elem_of_In|]. by rewrite Hid, str_eqb_refl.
Qed.

(** A manual reset is exact. [close_chat_threads] returns the open or idle threads of
    the chat; every planned or queued effect of their turns becomes [cancelled] and every
    other effect, executing and unproven ones included, stays as it is; and afterwards none
    of these threads has an open turn, a waiting or deferred input or an unfinished
    generation, and each is closed. *)
Theorem reset_exact channel chat_id now s :
  unique_key eff_effect_id (effects s) →
  let ids := reset_threads channel chat_id s in
  let '(r, s') := close_chat_threads channel chat_id now s in
  r = Ok ids ∧
  effects s' = update (λ e, existsb (λ th, thread_effect s th pending_states e) ids)
                 (cancelled_effect now) (effects s) ∧
  effect_attempts s' = effect_attempts s ∧
  ∀ th, th ∈ ids →
    (∀ t, t ∈ turns s' → tu_thread_id t = th → turn_open t = false) ∧
    (∀ i, i ∈ pending_inputs s' → pi_thread_id i = th →
          str_in (pi_state i) ["waiting"; "deferred"] = false) ∧
    (∀ g, g ∈ generations s' → gen_thread_id g = th → gen_finished_ms g ≠ None) ∧
    (∀ t, t ∈ threads s' → th_thread_id t = th → th_state t = "closed").
Proof.
  intros Hu ids. unfold close_chat_threads, write. fold (reset_threads channel chat_id s). fold ids.
  split; [done|]. split; [by apply close_chat_fold_effects|]. split.
  { rewrite (foldl_table effect_attempts _ (λ _ l, l)).
    - generalize (effect_attempts s). by induction ids.
    - intros s0 i. unfold close_chat_thread. cbn [effect_attempts set_field].
      by apply (cancel_fold_other effect_attempts). }
  intros th Hth. split_and!.
  - intros t Ht Hid. eapply (close_chat_fold_none turns tu_thread_id turn_open
      (λ t, t <| tu_state := "superseded" |> <| tu_closed_ms := Some now |> <| tu_updated_ms := now |>)); try done.
    intros. unfold close_chat_thread. cbn [turns set_field]. by rewrite (cancel_fold_other turns).
  - intros i Hi' Hid. eapply (close_chat_fold_none pending_inputs pi_thread_id
      (λ p, str_in (pi_state p) ["waiting"; "deferred"])
      (λ p, p <| pi_state := "cancelled" |> <| pi_consumed_ms := Some now |>)); try done.
    intros. unfold close_chat_thread. cbn [pending_inputs set_field].
    by rewrite (cancel_fold_other pending_inputs).
  - intros g Hg Hid Hfin. assert (is_none (gen_finished_ms g) = false) as Hn; [|by rewrite Hfin in Hn].
    eapply (close_chat_fold_none generations gen_thread_id (λ g, is_none (gen_finished_ms g))
      (λ g, g <| gen_finished_ms := Some now |> <| gen_outcome := Some "cancelled" |>
              <| gen_detail := Some "manual_new" |>)); try done.
    intros. unfold close_chat_thread. cbn [generations set_field].
    by rewrite (cancel_fold_other generations).
  - intros t. rewrite (close_chat_fold_table threads (has_id th_thread_id)
      (λ t, t <| th_state := "closed" |> <| th_closed_ms := Some now |>
              <| th_close_reason := Some "manual_new" |>)).
    3:{ done. } 2:{ intros. unfold close_chat_thread. cbn [threads set_field].
                    by rewrite (cancel_fold_other threads). }
    intros (t0 & _ & ->)%elem_of_update Hid. destruct (existsb _ ids) eqn:E; [done|].
    exfalso. apply not_true_iff_false in E. apply E, existsb_exists. exists th.
    split; [by apply list_elem_of_In|]. by apply str_eqb_eq.
Qed.

(** ** Refinement *)

(** Cancelling pending work is an abstract move. *)
Lemma cancel_effect_step now s e row :
  unique_key eff_effect_id (effects s) → effect_row_of e s = Some row →
  eff_state row ∈ pending_states →
  outbox_step (LMove e (eff_state row) cancelled []) s (cancel_effect now s e).
Proof.
  intros Hu Hr Hst.
  assert (state_eqb (eff_state row) executing = false) as Hx.
  { apply not_true_iff_false. rewrite state_eqb_eq. intros Hx. rewrite Hx in Hst. set_solver. }
  apply (step_move s _ e row cancelled now []); try done.
  - unfold pending_states in Hst. destruct (eff_state row); set_solver.
  - cbn [cancel_effect append_evidence effects set_field]. apply update_ext. intros r Hin.
    rewrite Hx. unfold has_id. destruct (eff_effect_id r =?s e) eqn:Eid; [|done]. cbn [andb].
    apply str_eqb_eq in Eid. apply effect_row_of_Some in Hr as [Hr <-].
    rewrite (unique_key_inj _ _ r row Hu Hin Hr Eid).
    assert (state_in (eff_state row) [planned; queued] = true) as -> by (by apply state_in_spec).
    rewrite (proj2 (state_eqb_eq _ _) eq_refl). by destruct row.
  - by rewrite Hx.
Qed.

Lemma cancel_fold_steps now ids s :
  unique_key eff_effect_id (effects s) → NoDup ids →
  (∀ e, e ∈ ids → ∃ row, effect_row_of e s = Some row ∧ eff_state row ∈ pending_states) →
  ∃ ls, outbox_steps ls s (foldl (cancel_effect now) s ids) ∧ cancel_labels ls.
Proof.
  revert s. induction ids as [|e ids IH]; intros s Hu Hnd Hids; simpl.
  - exists []. split; [by constructor|constructor].
  - apply NoDup_cons in Hnd as [Hne Hnd]. destruct (Hids e) as (row & Hr & Hst); [set_solver|].
    destruct (IH (cancel_effect now s e)) as (ls & Hs & Hl); [|done|..].
    + by apply unique_key_update.
    + intros x Hx. destruct (Hids x) as (rx & Hrx & Hsx); [set_solver|]. exists rx. split; [|done].
      rewrite <- Hrx. unfold effect_row_of. apply (effect_state_update e); try done.
      * by intros r [? _]%andb_true_iff.
      * intros ->. done.
    + exists (LMove e (eff_state row) cancelled [] :: ls). split.
      * econstructor; [by apply cancel_effect_step|done].
      * constructor; [by eauto|done].
Qed.

Lemma close_chat_thread_steps now s th :
  unique_key eff_effect_id (effects s) →
  ∃ ls, outbox_steps ls s (close_chat_thread now s th) ∧ cancel_labels ls.
Proof.
  intros Hu. unfold close_chat_thread.
  destruct (cancel_fold_steps now
    (map eff_effect_id (select (thread_effect s th [planned; queued]) (effects s))) s)
    as (ls & Hs & Hl); [done|by apply (unique_key_filter eff_effect_id)| |].
  - intros e (row & -> & [Hrow Hp]%elem_of_select)%list_elem_of_fmap. exists row.
    split; [by apply by_id_elem|]. apply andb_true_iff in Hp as [Hst _]. by apply state_in_spec.
  - exists ls. split; [|done]. by eapply outbox_steps_ext.
Qed.

#[export] Instance quiet_close_chat channel chat_id now : Quiet (close_chat_threads channel chat_id now).
Proof.
  enough (∀ ids s, outbox_inv s →
    ∃ ls, outbox_steps ls s (foldl (close_chat_thread now) s ids) ∧ cancel_labels ls) as Hgo.
  { intros s Hi. destruct (Hgo (reset_threads channel chat_id s) s Hi) as (ls & Hs & Hl).
    exists ls. split; [done|]. by apply no_requeue_cancel. }
  induction ids as [|th ids IH]; intros s Hi; simpl.
  - exists []. split; [by constructor|constructor].
  - destruct (close_chat_thread_steps now s th) as (l1 & Hs1 & Hl1); [apply Hi|].
    destruct (IH (close_chat_thread now s th)) as (l2 & Hs2 & Hl2); [by eapply outbox_steps_inv|].
    exists (l1 ++ l2). split; [by eapply outbox_steps_app|]. by apply Forall_app.
Qed.

End Props.

#[local] Existing Instance plain_sha256.

(** A chat with one thread, one turn of it and a queued effect of that turn. *)
Definition chat_thread : string := thread_id_for "whatsapp" "c" "ev1".
Definition chat_turn : string := turn_id_for chat_thread "ev1" 1.

Definition chat_db : db :=
  let s1 := (open_thread "whatsapp" "c" "u" "dm" "ev1" 100 empty_db).2 in
  (open_turn chat_thread "u" "ev1" 110 "open" s1).2.

Definition chat_effect_db : db :=
  (enqueue_effect (hello_args <| ea_turn_id := chat_turn |>) "queued" chat_db).2.

Lemma bump_revision_cas_witness :
  ∃ ref s', bump_turn_revision chat_turn 1 200 chat_db = (Ok ref, s') ∧ tr_revision ref = 2 ∧
            ∃ msg, bump_turn_revision chat_turn 1 300 s' = (Raise (TurnStateError msg), s').
Proof.
  destruct (bump_revision_cas chat_turn 1 200 chat_db ltac:(lia)) as
    [(t & th & _ & ref & s' & Hb & Hr & _ & _ & Hagain)|[_ [msg Hb]]].
  - exists ref, s'. eauto.
  - exfalso. by vm_compute in Hb.
Defined.

Lemma settle_exact_witness :
  (settle_idle_turns 5000 1000 [] 50 chat_db).1 = Ok [chat_turn] ∧
  (settle_idle_turns 5000 1000 [] 50 chat_effect_db).1 = Ok [].
Proof.
  rewrite (settle_exact 5000 1000 [] 50 chat_db), (settle_exact 5000 1000 [] 50 chat_effect_db).
  - by vm_compute.
  - apply (bool_decide_unpack _). by vm_compute.
  - apply (bool_decide_unpack _). by vm_compute.
Defined.

Lemma reset_exact_witness :
  effect_state "e1" chat_effect_db = Some queued ∧
  effect_state "e1" (close_chat_threads "whatsapp" "c" 300 chat_effect_db).2 = Some cancelled ∧
  ∀ t, t ∈ turns (close_chat_threads "whatsapp" "c" 300 chat_effect_db).2 →
       tu_thread_id t = chat_thread → turn_open t = false.
Proof.
  pose proof (reset_exact "whatsapp" "c" 300 chat_effect_db
    ltac:(apply (bool_decide_unpack _); by vm_compute)) as Hr.
  split; [by vm_compute|].
  destruct (close_chat_threads "whatsapp" "c" 300 chat_effect_db) as [r s'].
  destruct Hr as (_ & He & _ & Hth). cbn [snd]. split.
  - unfold effect_state, effect_row_of. rewrite He. by vm_compute.
  - apply Hth. apply (bool_decide_unpack _). by vm_compute.
Defined.
