(* ===== verification/Mailbox.v ===== *)
(** * Mailbox

    The postbox of waiting follow-ups of a thread ([pending_inputs] in
    [processing/store.py]): bounded acceptance, arrival-order consumption, promotion of
    deferred inputs. *)

From Stdlib Require Import ZArith Lia.
From S2P Require Import Prelude Tables Json Models Schema.

Definition in_state (thread_id state : string) (p : pending_row) : bool :=
  (pi_thread_id p =?s thread_id) && (pi_state p =?s state).

(** [count_pending] for one thread *)
Definition count_pending (thread_id : string) (states : list string) (s : db) : nat :=
  rowcount (λ p, str_in (pi_state p) states && (pi_thread_id p =?s thread_id)) (pending_inputs s).

(** [ORDER BY enqueued_ms, input_id] *)
Definition arrival_leb (a b : pending_row) : bool :=
  time_id_leb (pi_enqueued_ms a, pi_input_id a) (pi_enqueued_ms b, pi_input_id b).

(** [enqueue_pending_input]: beyond [cap] the input is recorded as deferred. [None] when
    the event is already known. *)
Definition enqueue_pending_input (input_id thread_id event_id principal : string) (now_ms : Z)
    (turn_id : option string) (kind : string) (decision_id : option string) (relevance : string)
    (cap : option Z) : prog db (option string) :=
  write (λ s,
    let waiting := rowcount (in_state thread_id "waiting") (pending_inputs s) in
    let state := match cap with
                 | Some c => if c <=? Z.of_nat waiting then "deferred" else "waiting"
                 | None => "waiting"
                 end in
    if row_exists (λ p, pi_event_id p =?s event_id) (pending_inputs s) then Ok (None, s)
    else if row_exists (has_id pi_input_id input_id) (pending_inputs s)
    then Raise (IntegrityError "UNIQUE constraint failed: pending_inputs.input_id")
    else Ok (Some state,
             s <| pending_inputs ::= insert_row (MkPending input_id thread_id turn_id event_id
                    principal kind decision_id relevance state now_ms None) |>)).

(** Mark one input consumed. *)
Definition consume_input (now_ms : Z) (s : db) (row : pending_row) : db :=
  s <| pending_inputs ::= update (has_id pi_input_id (pi_input_id row))
         (λ p, p <| pi_state := "consumed" |> <| pi_consumed_ms := Some now_ms |>) |>.

(** The rows a drain takes: waiting ones, in arrival order, at most [limit]. *)
Definition drain_rows (thread_id : string) (limit : option Z) (s : db) : list pending_row :=
  let rows := order_by arrival_leb (select (in_state thread_id "waiting") (pending_inputs s)) in
  match limit with
  | Some n => take (Z.to_nat (Z.max 1 n)) rows
  | None => rows
  end.

(** [drain_pending_inputs] *)
Definition drain_pending_inputs (thread_id : string) (now_ms : Z) (limit : option Z)
    : prog db (list pending_row) :=
  write (λ s,
    let rows := drain_rows thread_id limit s in
    Ok (rows, foldl (consume_input now_ms) s rows)).

Definition promote_input (now_ms : Z) (s : db) (row : pending_row) : db :=
  s <| pending_inputs ::= update (has_id pi_input_id (pi_input_id row))
         (λ p, p <| pi_state := "waiting" |> <| pi_enqueued_ms := now_ms |>) |>.

(** The deferred rows that fit into the free room. *)
Definition promote_rows (thread_id : string) (capacity : Z) (s : db) : list pending_row :=
  let used := Z.of_nat (rowcount (in_state thread_id "waiting") (pending_inputs s)) in
  let room := Z.max 0 (capacity - used) in
  take (Z.to_nat room)
    (order_by arrival_leb (select (in_state thread_id "deferred") (pending_inputs s))).

(** [promote_deferred] *)
Definition promote_deferred (thread_id : string) (now_ms capacity : Z) : prog db (list string) :=
  write (λ s,
    let used := Z.of_nat (rowcount (in_state thread_id "waiting") (pending_inputs s)) in
    if Z.max 0 (capacity - used) =? 0 then Ok ([], s)
    else let rows := promote_rows thread_id capacity s in
         Ok (map pi_event_id rows, foldl (promote_input now_ms) s rows)).

(** ** Well-formedness *)

(** PRIMARY KEY [input_id], UNIQUE [event_id]. *)
Record mailbox_inv (s : db) : Prop := MkMailboxInv {
  mb_input_ids : unique_key pi_input_id (pending_inputs s);
  mb_event_ids : unique_key pi_event_id (pending_inputs s);
}.

Definition waiting (thread_id : string) (s : db) : nat :=
  rowcount (in_state thread_id "waiting") (pending_inputs s).

(** ** Bulk updates of a key-distinct set of rows *)

Section Bulk.
  Context (f : pending_row → pending_row).
  Context (f_id : ∀ p, pi_input_id (f p) = pi_input_id p).

Definition bulk (l : list pending_row) (rows : list pending_row) : list pending_row :=
  foldl (λ l row, update (has_id pi_input_id (pi_input_id row)) f l) l rows.

(** With distinct ids a bulk update is one UPDATE ... WHERE id IN (...). *)
Lemma bulk_update l rows :
  NoDup (pi_input_id <$> rows) →
  bulk l rows = update (λ p, str_in (pi_input_id p) (pi_input_id <$> rows)) f l.
Proof.
  unfold bulk. revert l. induction rows as [|r rows IH]; intros l Hnd; simpl.
  - symmetry. apply update_none. done.
  - apply NoDup_cons in Hnd as [Hr Hnd]. rewrite IH by done.
    unfold update. rewrite map_map. apply map_ext. intros p. unfold has_id. simpl.
    destruct (pi_input_id p =?s pi_input_id r) eqn:E; simpl; [|done].
    rewrite f_id. apply str_eqb_eq in E. rewrite E.
    destruct (str_in (pi_input_id r) (pi_input_id <$> rows)) eqn:E2; [|done].
    apply str_in_spec in E2. done.
Qed.

End Bulk.

Lemma unique_key_subset {R K} (key : R → K) l l' :
  unique_key key l → l' ⊆ l → NoDup l' → NoDup (key <$> l').
Proof.
  intros Hu Hsub. induction l' as [|r l' IH]; intros Hnd; simpl; [constructor|].
  apply NoDup_cons in Hnd as [Hr Hnd]. apply NoDup_cons. split.
  - intros (r' & Hk & Hr')%list_elem_of_fmap. apply Hr.
    replace r with r'; [done|]. eapply unique_key_inj; eauto; set_solver.
  - apply IH; [set_solver|done].
Qed.

Lemma unique_key_NoDup {R K} (key : R → K) l : unique_key key l → NoDup l.
Proof. apply NoDup_fmap_1. Qed.

Lemma take_subseteq {A} n (l : list A) : take n l ⊆ l.
Proof. intros x Hx. rewrite <- (take_drop n l). set_solver. Qed.

(** A limited, ordered selection of distinct rows has distinct ids. *)
Lemma selected_ids {R} (key : R → string) leb n p t :
  unique_key key t → NoDup (key <$> take n (order_by leb (select p t))).
Proof.
  intros Hu. apply (unique_key_subset key t); [done| |].
  - intros r Hr%take_subseteq. rewrite elem_of_order_by, elem_of_select in Hr. apply Hr.
  - eapply sublist_NoDup; [|apply sublist_take].
    rewrite order_by_perm. apply (unique_key_NoDup key). by apply unique_key_filter.
Qed.

(** ** The waiting queue *)

Lemma arrival_leb_total a b : arrival_leb a b = true ∨ arrival_leb b a = true.
Proof. apply time_id_leb_total. Qed.

Lemma arrival_leb_trans a b c :
  arrival_leb a b = true → arrival_leb b c = true → arrival_leb a c = true.
Proof. apply time_id_leb_trans. Qed.

(** The inputs of a thread in a state, oldest first. *)
Definition queue (thread_id state : string) (s : db) : list pending_row :=
  order_by arrival_leb (select (in_state thread_id state) (pending_inputs s)).

Lemma queue_ids thread_id state s :
  mailbox_inv s → NoDup (pi_input_id <$> queue thread_id state s).
Proof.
  intros Hi. unfold queue. rewrite <- (firstn_all (order_by _ _)). by apply selected_ids, Hi.
Qed.

Lemma elem_of_queue thread_id state s p :
  p ∈ queue thread_id state s ↔ p ∈ pending_inputs s ∧ pi_thread_id p = thread_id ∧ pi_state p = state.
Proof.
  unfold queue, in_state. rewrite elem_of_order_by, elem_of_select, andb_true_iff.
  by rewrite !str_eqb_eq.
Qed.

Lemma length_queue thread_id state s :
  length (queue thread_id state s) = rowcount (in_state thread_id state) (pending_inputs s).
Proof. unfold queue. by rewrite length_order_by. Qed.

(** The ids of a set of rows. *)
Definition among (rows : list pending_row) (p : pending_row) : bool :=
  str_in (pi_input_id p) (pi_input_id <$> rows).

Lemma drop_by_filter n (l : list pending_row) :
  NoDup (pi_input_id <$> l) → List.filter (λ p, negb (among (take n l) p)) l = drop n l.
Proof.
  revert n. induction l as [|x l IH]; intros [|n] Hnd; simpl; try done.
  - f_equal. specialize (IH 0%nat). unfold among in *. simpl in *. rewrite IH; [done|].
    by apply NoDup_cons in Hnd as [_ Hnd].
  - simpl in Hnd. apply NoDup_cons in Hnd as [Hx Hnd].
    unfold among at 1. simpl. rewrite str_eqb_refl. simpl. rewrite <- (IH n) by done.
    apply List.filter_ext_in. intros y Hy%list_elem_of_In. unfold among. simpl.
    destruct (pi_input_id y =?s pi_input_id x) eqn:E; [|done]. apply str_eqb_eq in E.
    exfalso. apply Hx. rewrite <- E. by apply list_elem_of_fmap_2.
Qed.

(** Taking the first [n] waiting rows out of the state leaves the rest, in order. *)
Lemma queue_leave thread_id state n s s' f :
  mailbox_inv s →
  (∀ p, pi_input_id (f p) = pi_input_id p) → (∀ p, pi_state (f p) ≠ state) →
  pending_inputs s' = update (among (take n (queue thread_id state s))) f (pending_inputs s) →
  select (in_state thread_id state) (pending_inputs s') =
    select (λ p, negb (among (take n (queue thread_id state s)) p))
      (select (in_state thread_id state) (pending_inputs s)).
Proof.
  intros Hi Hid Hst Hs. rewrite Hs. set (rows := take n _). clearbody rows. clear Hs Hi.
  unfold update, select. induction (pending_inputs s) as [|p l IH]; [done|]. simpl.
  destruct (among rows p) eqn:Ea; simpl.
  - unfold in_state at 1. rewrite (proj2 (str_eqb_neq (pi_state (f p)) state)) by done.
    rewrite andb_false_r. destruct (in_state thread_id state p); simpl; rewrite ?Ea; simpl; by rewrite IH.
  - destruct (in_state thread_id state p); simpl; rewrite ?Ea; simpl; by rewrite IH.
Qed.

Lemma queue_take_drop thread_id state n s s' f :
  mailbox_inv s →
  (∀ p, pi_input_id (f p) = pi_input_id p) → (∀ p, pi_state (f p) ≠ state) →
  pending_inputs s' = update (among (take n (queue thread_id state s))) f (pending_inputs s) →
  queue thread_id state s = take n (queue thread_id state s) ++ queue thread_id state s'.
Proof.
  intros Hi Hid Hst Hs. rewrite <- (take_drop n (queue thread_id state s)) at 1. f_equal.
  unfold queue at 2. rewrite (queue_leave _ _ n s s' f) by done.
  rewrite order_by_select by (apply arrival_leb_total || apply arrival_leb_trans).
  symmetry. apply drop_by_filter. by apply queue_ids.
Qed.

Definition consumed (now_ms : Z) (p : pending_row) : pending_row :=
  p <| pi_state := "consumed" |> <| pi_consumed_ms := Some now_ms |>.

Definition promoted (now_ms : Z) (p : pending_row) : pending_row :=
  p <| pi_state := "waiting" |> <| pi_enqueued_ms := now_ms |>.

Lemma fold_pending (step : db → pending_row → db) f rows s :
  (∀ s row, pending_inputs (step s row) =
              update (has_id pi_input_id (pi_input_id row)) f (pending_inputs s)) →
  pending_inputs (foldl step s rows) = bulk f (pending_inputs s) rows.
Proof.
  intros Hstep. unfold bulk. revert s. induction rows as [|r rows IH]; intros s; [done|]. simpl.
  by rewrite IH, Hstep.
Qed.

Lemma drain_rows_take thread_id limit s :
  ∃ n, drain_rows thread_id limit s = take n (queue thread_id "waiting" s) ∧
       (limit = None → (length (queue thread_id "waiting" s) ≤ n)%nat) ∧
       (∀ m, limit = Some m → n = Z.to_nat (Z.max 1 m)).
Proof.
  unfold drain_rows. fold (queue thread_id "waiting" s). destruct limit as [m|].
  - exists (Z.to_nat (Z.max 1 m)). split; [done|]. split; [done|]. by intros m' [= ->].
  - exists (length (queue thread_id "waiting" s)). by rewrite firstn_all.
Qed.

Lemma drain_pending thread_id now limit s :
  mailbox_inv s →
  pending_inputs (drain_pending_inputs thread_id now limit s).2 =
    update (among (drain_rows thread_id limit s)) (consumed now) (pending_inputs s).
Proof.
  intros Hi. unfold drain_pending_inputs, write. cbn [snd].
  rewrite (fold_pending (consume_input now) (consumed now)) by done.
  destruct (drain_rows_take thread_id limit s) as (n & -> & _).
  apply bulk_update; [done|]. unfold queue. by apply selected_ids, Hi.
Qed.

Lemma promote_pending thread_id now cap s :
  mailbox_inv s → 0 < cap - Z.of_nat (waiting thread_id s) →
  pending_inputs (promote_deferred thread_id now cap s).2 =
    update (among (promote_rows thread_id cap s)) (promoted now) (pending_inputs s).
Proof.
  intros Hi Hroom. unfold promote_deferred, write. fold (waiting thread_id s).
  rewrite (proj2 (Z.eqb_neq _ 0)) by lia. cbn [snd].
  rewrite (fold_pending (promote_input now) (promoted now)) by done.
  apply bulk_update; [done|]. unfold promote_rows. by apply selected_ids, Hi.
Qed.

Lemma mailbox_inv_update s s' p f :
  mailbox_inv s → (∀ r, pi_input_id (f r) = pi_input_id r) →
  (∀ r, pi_event_id (f r) = pi_event_id r) →
  pending_inputs s' = update p f (pending_inputs s) → mailbox_inv s'.
Proof. intros [H1 H2] Hf1 Hf2 Hs. split; rewrite Hs; by apply unique_key_update. Qed.

Lemma rowcount_update_le {R} (q p : R → bool) f t :
  (rowcount q (update p f t) ≤ rowcount q t + rowcount (λ r, p r && negb (q r)) t)%nat.
Proof.
  unfold rowcount, select, update. induction t as [|r t IH]; [done|]. simpl.
  destruct (p r), (q r), (q (f r)) eqn:E; simpl; rewrite ?E; simpl; lia.
Qed.

Lemma rowcount_among q (rows t : list pending_row) :
  unique_key pi_input_id t → NoDup (pi_input_id <$> rows) →
  (rowcount (λ p, among rows p && q p) t ≤ length rows)%nat.
Proof.
  intros Hu Hnd. unfold rowcount.
  assert (length (select (λ p, among rows p && q p) t) =
          length (pi_input_id <$> select (λ p, among rows p && q p) t)) as ->
    by (by rewrite length_fmap).
  rewrite <- (length_fmap pi_input_id rows).
  apply submseteq_length, NoDup_submseteq; [by apply unique_key_filter|].
  intros x (p & -> & [_ [Hin _]%andb_true_iff]%elem_of_select)%list_elem_of_fmap.
  by apply str_in_spec.
Qed.

(** ** Theorems *)

Definition two_inputs : db :=
  empty_db <| pending_inputs :=
    [MkPending "i1" "th" None "e1" "u" "follow_up" None "unknown" "waiting" 10 None;
     MkPending "i2" "th" None "e2" "u" "follow_up" None "unknown" "deferred" 20 None;
     MkPending "i3" "th" None "e3" "u" "follow_up" None "unknown" "deferred" 15 None] |>.

Lemma two_inputs_inv : mailbox_inv two_inputs.
Proof. split; apply (bool_decide_unpack _); by vm_compute. Qed.

(** Acceptance is bounded and loses nothing. An unknown event is stored under its own
    id, waiting while the thread has room and deferred otherwise, so the waiting queue
    never grows beyond the cap; a known event changes nothing. *)
Theorem enqueue_bounded input_id th ev principal now turn kind dec rel cap s :
  mailbox_inv s → (∀ p, p ∈ pending_inputs s → pi_input_id p ≠ input_id) →
  let (r, s') := enqueue_pending_input input_id th ev principal now turn kind dec rel (Some cap) s in
  mailbox_inv s' ∧
  if row_exists (λ p, pi_event_id p =?s ev) (pending_inputs s) then r = Ok None ∧ s' = s
  else if cap <=? Z.of_nat (waiting th s)
  then r = Ok (Some "deferred") ∧ waiting th s' = waiting th s ∧
       count_pending th ["deferred"] s' = S (count_pending th ["deferred"] s)
  else r = Ok (Some "waiting") ∧ waiting th s' = S (waiting th s) ∧
       Z.of_nat (waiting th s') ≤ cap.
Proof.
  intros Hi Hfresh. unfold enqueue_pending_input, write. fold (waiting th s).
  destruct (row_exists _ (pending_inputs s)) eqn:Ek; [done|].
  assert (row_exists (has_id pi_input_id input_id) (pending_inputs s) = false) as ->.
  { apply row_exists_false. intros p Hp. apply str_eqb_neq. by apply Hfresh. }
  rewrite row_exists_false in Ek.
  split.
  { split; simpl; (apply unique_key_insert; [apply Hi|]); intros p Hp; simpl; [by apply Hfresh|].
    apply str_eqb_neq. by apply Ek. }
  destruct (cap <=? Z.of_nat (waiting th s)) eqn:Ec; (split; [done|]);
    unfold waiting, count_pending; cbn [pending_inputs set_field];
    rewrite !rowcount_insert_row; unfold waiting in Ec;
    [assert (in_state th "waiting" (MkPending input_id th turn ev principal kind dec rel "deferred"
                                      now None) = false) as ->
       by (unfold in_state; apply andb_false_r)
    |assert (in_state th "waiting" (MkPending input_id th turn ev principal kind dec rel "waiting"
                                      now None) = true) as ->
       by (unfold in_state; simpl; by rewrite str_eqb_refl)];
    simpl; rewrite ?str_eqb_refl; simpl; split; lia.
Qed.

Lemma enqueue_bounded_witness :
  enqueue_pending_input "i4" "th" "e4" "u" 30 None "follow_up" None "unknown" (Some 1) two_inputs
    = (Ok (Some "deferred"),
       two_inputs <| pending_inputs ::= insert_row
         (MkPending "i4" "th" None "e4" "u" "follow_up" None "unknown" "deferred" 30 None) |>) ∧
  mailbox_inv (enqueue_pending_input "i4" "th" "e4" "u" 30 None "follow_up" None "unknown" (Some 1)
                 two_inputs).2.
Proof.
  split; [by vm_compute|].
  apply (enqueue_bounded "i4" "th" "e4" "u" 30 None "follow_up" None "unknown" 1 two_inputs).
  - apply two_inputs_inv.
  - intros p Hp. unfold two_inputs in Hp. simpl in Hp. set_solver.
Defined.

(** A drain takes the oldest waiting inputs and nothing else: the waiting queue of
    the thread is exactly what it returned followed by what is still waiting, every
    returned input is consumed, no other input is touched, and a drain without a limit
    empties the queue. *)
Theorem drain_fifo th now limit s :
  mailbox_inv s →
  let (r, s') := drain_pending_inputs th now limit s in
  ∃ rows, r = Ok rows ∧ mailbox_inv s' ∧
    queue th "waiting" s = rows ++ queue th "waiting" s' ∧
    pending_inputs s' = map (λ p, if among rows p then consumed now p else p) (pending_inputs s) ∧
    (limit = None → queue th "waiting" s' = []) ∧
    (∀ m, limit = Some m → (length rows ≤ Z.to_nat (Z.max 1 m))%nat).
Proof.
  intros Hi. pose proof (drain_pending th now limit s Hi) as Hp.
  destruct (drain_pending_inputs th now limit s) as [r s'] eqn:E.
  unfold drain_pending_inputs, write in E. injection E as <- Hs'. simpl in Hp. clear Hs'.
  destruct (drain_rows_take th limit s) as (n & Hn & Hnone & Hsome).
  exists (drain_rows th limit s). rewrite Hn in *.
  assert (queue th "waiting" s = take n (queue th "waiting" s) ++ queue th "waiting" s') as Hq.
  { by apply (queue_take_drop th "waiting" n s s' (consumed now)). }
  split; [done|]. split; [by apply (mailbox_inv_update s s' _ (consumed now)) in Hp|]. split; [done|]. split; [done|]. split.
  - intros Hl. specialize (Hnone Hl). rewrite take_ge in Hq by done.
    rewrite <- (app_nil_r (queue th "waiting" s)) in Hq at 1. by apply app_inv_head in Hq.
  - intros m Hm. rewrite (Hsome m Hm). apply firstn_le_length.
Qed.

Lemma drain_fifo_witness :
  (drain_pending_inputs "th" 50 None two_inputs).1 = Ok (queue "th" "waiting" two_inputs) ∧
  queue "th" "waiting" (drain_pending_inputs "th" 50 None two_inputs).2 = [].
Proof.
  split; [by vm_compute|].
  pose proof (drain_fifo "th" 50 None two_inputs two_inputs_inv) as H.
  destruct (drain_pending_inputs _ _ _ _) as [r s'].
  destruct H as (rows & _ & _ & _ & _ & Hnil & _). by apply Hnil.
Defined.

(** Promotion moves the oldest deferred inputs into the free room: the deferred queue
    is the promoted inputs followed by what stays deferred, and the waiting queue stays
    within the capacity (unless it was already beyond it, when nothing moves). *)
Theorem promote_fifo th now cap s :
  mailbox_inv s →
  let (r, s') := promote_deferred th now cap s in
  ∃ rows, r = Ok (pi_event_id <$> rows) ∧ mailbox_inv s' ∧
    queue th "deferred" s = rows ++ queue th "deferred" s' ∧
    pending_inputs s' = map (λ p, if among rows p then promoted now p else p) (pending_inputs s) ∧
    Z.of_nat (waiting th s') ≤ Z.max cap (Z.of_nat (waiting th s)).
Proof.
  intros Hi. destruct (decide (0 < cap - Z.of_nat (waiting th s))) as [Hroom|Hfull].
  - pose proof (promote_pending th now cap s Hi Hroom) as Hp.
    destruct (promote_deferred th now cap s) as [r s'] eqn:E. simpl in Hp.
    unfold promote_deferred, write in E. fold (waiting th s) in E.
    rewrite (proj2 (Z.eqb_neq _ 0)) in E by lia. injection E as <- _.
    exists (promote_rows th cap s). split; [done|]. split; [by apply (mailbox_inv_update s s' _ (promoted now)) in Hp|].
    split; [by apply (queue_take_drop th "deferred" _ s s' (promoted now))|]. split; [done|].
    unfold waiting at 1. rewrite Hp.
    pose proof (rowcount_update_le (in_state th "waiting") (among (promote_rows th cap s))
                  (promoted now) (pending_inputs s)) as Hle.
    pose proof (rowcount_among (λ p, negb (in_state th "waiting" p)) (promote_rows th cap s)
                  (pending_inputs s)) as Hra.
    assert (length (promote_rows th cap s) ≤ Z.to_nat (cap - Z.of_nat (waiting th s)))%nat as Hlen.
    { unfold promote_rows. fold (waiting th s). rewrite firstn_le_length. lia. }
    specialize (Hra (mb_input_ids _ Hi) (selected_ids _ _ _ _ _ (mb_input_ids _ Hi))).
    fold (waiting th s) in Hle. lia.
  - unfold promote_deferred, write. fold (waiting th s).
    rewrite (proj2 (Z.eqb_eq (Z.max 0 (cap - Z.of_nat (waiting th s))) 0)) by lia.
    exists []. split; [done|]. split; [done|]. split; [done|]. split; [|lia].
    unfold among. simpl. by rewrite map_id.
Qed.

Lemma promote_fifo_witness :
  (promote_deferred "th" 60 2 two_inputs).1 = Ok ["e3"] ∧
  mailbox_inv (promote_deferred "th" 60 2 two_inputs).2.
Proof.
  split; [by vm_compute|].
  pose proof (promote_fifo "th" 60 2 two_inputs two_inputs_inv) as H.
  destruct (promote_deferred _ _ _ _) as [r s'].
  destruct H as (rows & _ & Hinv & _). exact Hinv.
Defined.
