(* ===== verification/Budget.v ===== *)
(** * Budget

    [processing/budget.py] and the reservation table of [processing/store.py]: the hard
    sliding window per chat ([ChatBudget], [reserve_send_budget]) and the soft deferral
    per thread ([ThreadBudget]). *)

From Stdlib Require Import ZArith Lia.
From S2P Require Import Prelude Tables Json Models Schema.

Definition REACTION_TTL_MS : Z := 30000.
Definition REPLY_TTL_MS : Z := 120000.
Definition CHAT_HARD_UNITS : Z := 6.
Definition CHAT_HARD_WINDOW_MS : Z := 60000.
Definition THREAD_SOFT_UNITS : Z := 2.
Definition THREAD_SOFT_WINDOW_MS : Z := 10000.

(** [sum(units for ...)] *)
Definition zsum (l : list Z) : Z := foldr Z.add 0 l.

(** [now_ms - window_ms < at_ms <= now_ms] *)
Definition in_window (now_ms window_ms at_ms : Z) : bool :=
  (now_ms - window_ms <? at_ms) && (at_ms <=? now_ms).

Definition spent_in (attempts : list (Z * Z)) (now_ms window_ms : Z) : Z :=
  zsum (map snd (select (λ a, in_window now_ms window_ms a.1) attempts)).

Definition available_units (attempts : list (Z * Z)) (now_ms limit window_ms : Z) : Z :=
  Z.max 0 (limit - spent_in attempts now_ms window_ms).

(** Tuple order of [sorted]. *)
Definition pair_leb (a b : Z * Z) : bool := (a.1 <? b.1) || ((a.1 =? b.1) && (a.2 <=? b.2)).

(** The loop of [next_ready_ms]; [spent] is what came before. *)
Fixpoint ready_loop (ordered : list (Z * Z)) (spent now_ms limit window_ms : Z) : Z :=
  match ordered with
  | [] => now_ms + window_ms
  | (at_ms, units) :: rest =>
      if limit <=? spent + units then at_ms + window_ms
      else ready_loop rest (spent + units) now_ms limit window_ms
  end.

Definition next_ready_ms (attempts : list (Z * Z)) (now_ms limit window_ms : Z) : Z :=
  let ordered := order_by pair_leb (select (λ a, in_window now_ms window_ms a.1) attempts) in
  if 0 <? available_units ordered now_ms limit window_ms then now_ms
  else ready_loop ordered 0 now_ms limit window_ms.

Definition effect_ttl_ms (capability : string) : Z :=
  if capability =?s "reaction" then REACTION_TTL_MS else REPLY_TTL_MS.

Definition within_deadline (queued_ms now_ms ttl_ms : Z) : bool := now_ms - queued_ms <? ttl_ms.

(** ** The persisted ledger *)

Definition of_chat (channel chat_id : string) (r : budget_row) : bool :=
  (bud_channel r =?s channel) && (bud_chat_id r =?s chat_id).

(** [send_budget_attempts] *)
Definition send_budget_attempts (channel chat_id : string) (since_ms : Z) (s : db)
    : list (Z * Z) :=
  map (λ r, (bud_reserved_ms r, bud_units r))
    (order_by (λ a b, bud_reserved_ms a <=? bud_reserved_ms b)
       (select (λ r, of_chat channel chat_id r && (since_ms <? bud_reserved_ms r))
          (send_budget_reservations s))).

(** [reserve_send_budget] *)
Definition reserve_send_budget (attempt_id channel chat_id effect_id : string)
    (units now_ms limit window_ms : Z) : prog db bool :=
  let wanted := Z.max 1 units in
  write (λ s,
    if row_exists (has_id bud_attempt_id attempt_id) (send_budget_reservations s)
    then Ok (true, s) else
    let spent := zsum (map bud_units
      (select (λ r, of_chat channel chat_id r && in_window now_ms window_ms (bud_reserved_ms r))
         (send_budget_reservations s))) in
    if limit <? spent + wanted then Ok (false, s)
    else Ok (true, s <| send_budget_reservations ::= insert_row
                          (MkBudget attempt_id channel chat_id effect_id wanted now_ms) |>)).

(** ** ChatBudget *)

Record ChatBudget := MkChatBudget { cb_limit : Z; cb_window_ms : Z; cb_waiting_cap : Z }.

Record BudgetDecision := MkBudgetDecision {
  bd_allowed : bool;
  bd_ready_at_ms : Z;
  bd_reason : string;
}.

Definition budget_attempts (b : ChatBudget) (channel chat_id : string) (now_ms : Z) (s : db)
    : list (Z * Z) :=
  send_budget_attempts channel chat_id (now_ms - cb_window_ms b) s.

Definition budget_available (b : ChatBudget) (channel chat_id : string) (now_ms : Z) (s : db) : Z :=
  available_units (budget_attempts b channel chat_id now_ms s) now_ms (cb_limit b) (cb_window_ms b).

Definition budget_spent (b : ChatBudget) (channel chat_id : string) (now_ms : Z) (s : db) : Z :=
  cb_limit b - budget_available b channel chat_id now_ms s.

(** [ChatBudget.reserve] *)
Definition budget_reserve (b : ChatBudget) (channel chat_id effect_id attempt_id : string)
    (units now_ms : Z) : prog db BudgetDecision :=
  let wanted := Z.max 1 units in
  let* allowed := reserve_send_budget attempt_id channel chat_id effect_id wanted now_ms
                    (cb_limit b) (cb_window_ms b) in
  if allowed : bool then pret (MkBudgetDecision true 0 "")
  else pget (λ s, MkBudgetDecision false
                    (next_ready_ms (budget_attempts b channel chat_id now_ms s) now_ms
                       (cb_limit b) (cb_window_ms b)) "budget_exhausted").

(** ** ThreadBudget *)

Record ThreadBudget := MkThreadBudget {
  tb_limit : Z;
  tb_window_ms : Z;
  tb_recent : gmap string (list Z);
}.

Definition recent_stamps (b : ThreadBudget) (thread_id : string) : list Z :=
  default [] (tb_recent b !! thread_id).

Definition note_send (b : ThreadBudget) (thread_id : string) (now_ms : Z) : ThreadBudget :=
  let stamps := select (λ stamp, now_ms - stamp <? tb_window_ms b) (recent_stamps b thread_id) in
  MkThreadBudget (tb_limit b) (tb_window_ms b)
    (<[thread_id := stamps ++ [now_ms]]> (tb_recent b)).

(** [defer_until]; a non-positive limit makes the index run off the list. *)
Definition defer_until (b : ThreadBudget) (thread_id : string) (now_ms : Z) : result Z :=
  let stamps := order_by Z.leb (select (in_window now_ms (tb_window_ms b))
                                  (recent_stamps b thread_id)) in
  if Z.of_nat (length stamps) <? tb_limit b then Ok now_ms
  else match stamps !! Z.to_nat (Z.of_nat (length stamps) - tb_limit b) with
       | Some stamp => Ok (stamp + tb_window_ms b)
       | None => Raise (IndexError "list index out of range")
       end.

(** A list comprehension whose condition may raise. *)
Fixpoint filter_result {A} (f : A → result bool) (l : list A) : result (list A) :=
  match l with
  | [] => Ok []
  | x :: l' => let! b := f x in
               let! rest := filter_result f l' in
               Ok (if b : bool then x :: rest else rest)
  end.

(** The sort keys of [list.sort(key=...)], each computed once. *)
Fixpoint keyed {A} (f : A → result Z) (l : list A) : result (list (Z * A)) :=
  match l with
  | [] => Ok []
  | x :: l' => let! k := f x in let! rest := keyed f l' in Ok ((k, x) :: rest)
  end.

(** [round_robin] *)
Definition round_robin (b : ThreadBudget) (thread_ids : list string) (now_ms : Z)
    : result (list string) :=
  let! ready := filter_result (λ tid, let! t := defer_until b tid now_ms in Ok (t <=? now_ms))
                  thread_ids in
  let waiting := select (λ tid, negb (str_in tid ready)) thread_ids in
  let! keys := keyed (λ tid, defer_until b tid now_ms) waiting in
  Ok (ready ++ map snd (order_by (λ a b, a.1 <=? b.1) keys)).

(** ** Sums over windows *)

Lemma zsum_app l1 l2 : zsum (l1 ++ l2) = zsum l1 + zsum l2.
Proof. unfold zsum. induction l1 as [|x l1 IH]; simpl; lia. Qed.

Lemma zsum_perm l1 l2 : l1 ≡ₚ l2 → zsum l1 = zsum l2.
Proof. unfold zsum. induction 1; simpl; lia. Qed.

Lemma zsum_nonneg l : (∀ x, x ∈ l → 0 ≤ x) → 0 ≤ zsum l.
Proof.
  unfold zsum. induction l as [|x l IH]; intros Hl; simpl; [lia|].
  assert (0 ≤ x) by (apply Hl; set_solver). specialize (IH ltac:(set_solver)). lia.
Qed.

Section Sums.
  Context {R : Type} (u : R → Z).

Definition sum_where (p : R → bool) (t : list R) : Z := zsum (map u (select p t)).

Lemma sum_where_mono p q t :
  (∀ r, r ∈ t → 0 ≤ u r) → (∀ r, r ∈ t → p r = true → q r = true) →
  sum_where p t ≤ sum_where q t.
Proof.
  unfold sum_where, select, zsum. induction t as [|r t IH]; intros Hu Hpq; simpl; [lia|].
  assert (0 ≤ u r) by (apply Hu; set_solver).
  specialize (IH ltac:(set_solver) ltac:(intros; apply Hpq; [set_solver|done])).
  destruct (p r) eqn:Ep; [rewrite (Hpq r) by (done || set_solver); simpl; lia|].
  destruct (q r); simpl; lia.
Qed.

Lemma sum_where_insert p r t :
  sum_where p (insert_row r t) = sum_where p t + if p r then u r else 0.
Proof.
  unfold sum_where, insert_row, select. rewrite List.filter_app, map_app, zsum_app. simpl.
  destruct (p r); simpl; lia.
Qed.

Lemma sum_where_nonneg p t : (∀ r, r ∈ t → 0 ≤ u r) → 0 ≤ sum_where p t.
Proof.
  intros Hu. unfold sum_where. apply zsum_nonneg.
  intros x (r & -> & [Hr _]%elem_of_select)%list_elem_of_fmap. by apply Hu.
Qed.

End Sums.

(** ** The ledger invariant *)

(** What one chat spent in the window ending at [t]. *)
Definition chat_spent (channel chat_id : string) (t window_ms : Z) (s : db) : Z :=
  sum_where bud_units (λ r, of_chat channel chat_id r && in_window t window_ms (bud_reserved_ms r))
    (send_budget_reservations s).

(** One reservation per attempt, positive amounts, and no window of any chat, wherever it
    is placed, holds more than the limit. *)
Record ledger_inv (limit window_ms : Z) (s : db) : Prop := MkLedgerInv {
  led_ids : unique_key bud_attempt_id (send_budget_reservations s);
  led_units : ∀ r, r ∈ send_budget_reservations s → 1 ≤ bud_units r;
  led_windows : ∀ channel chat_id t, chat_spent channel chat_id t window_ms s ≤ limit;
}.

Lemma ledger_inv_empty limit window_ms : 0 ≤ limit → ledger_inv limit window_ms empty_db.
Proof. intros. split; [apply unique_key_nil|set_solver|done]. Qed.

Lemma of_chat_eq channel chat_id r :
  of_chat channel chat_id r = true ↔ bud_channel r = channel ∧ bud_chat_id r = chat_id.
Proof. unfold of_chat. by rewrite andb_true_iff, !str_eqb_eq. Qed.

(** Moving the window forward past every reservation only drops reservations. *)
Lemma chat_spent_later channel chat_id now t w s :
  (∀ r, r ∈ send_budget_reservations s → 0 ≤ bud_units r ∧ bud_reserved_ms r ≤ now) → now ≤ t →
  chat_spent channel chat_id t w s ≤ chat_spent channel chat_id now w s.
Proof.
  intros Hr Hle. apply sum_where_mono; [intros r Hin; by apply Hr|].
  intros r Hin. rewrite !andb_true_iff. unfold in_window. rewrite !andb_true_iff.
  destruct (Hr r Hin). intros [Hc [Hlo Hhi]]. split; [done|]. lia.
Qed.

Lemma reserve_cases attempt_id channel chat_id effect_id units now limit w s :
  reserve_send_budget attempt_id channel chat_id effect_id units now limit w s =
    if row_exists (has_id bud_attempt_id attempt_id) (send_budget_reservations s) then (Ok true, s)
    else if limit <? chat_spent channel chat_id now w s + Z.max 1 units then (Ok false, s)
    else (Ok true, s <| send_budget_reservations ::= insert_row
                       (MkBudget attempt_id channel chat_id effect_id (Z.max 1 units) now) |>).
Proof.
  unfold reserve_send_budget, write, chat_spent, sum_where.
  destruct (row_exists _ _); [done|]. by destruct (_ <? _).
Qed.

(** ** Windows of attempt lists *)

Lemma send_budget_attempts_perm channel chat_id since s :
  send_budget_attempts channel chat_id since s ≡ₚ
    map (λ r, (bud_reserved_ms r, bud_units r))
      (select (λ r, of_chat channel chat_id r && (since <? bud_reserved_ms r))
         (send_budget_reservations s)).
Proof. unfold send_budget_attempts. by rewrite order_by_perm. Qed.

Lemma spent_in_perm l1 l2 now w : l1 ≡ₚ l2 → spent_in l1 now w = spent_in l2 now w.
Proof.
  intros Hp. unfold spent_in. apply zsum_perm, Permutation_map.
  unfold select. induction Hp; simpl; repeat destruct (in_window _ _ _); eauto using perm_swap, perm_trans.
Qed.

(** What [ChatBudget] computes from the ledger is the spending of the window. *)
Lemma spent_in_attempts channel chat_id since t w s :
  since ≤ t - w →
  spent_in (send_budget_attempts channel chat_id since s) t w = chat_spent channel chat_id t w s.
Proof.
  intros Hle.
  rewrite (spent_in_perm _ _ _ _ (send_budget_attempts_perm channel chat_id since s)).
  unfold spent_in, chat_spent, sum_where. f_equal. unfold select.
  induction (send_budget_reservations s) as [|r l IH]; [done|]. simpl.
  destruct (of_chat channel chat_id r); simpl; [|done].
  destruct (since <? bud_reserved_ms r) eqn:E; simpl.
  - destruct (in_window t w (bud_reserved_ms r)); simpl; [by f_equal|done].
  - rewrite IH. destruct (in_window t w (bud_reserved_ms r)) eqn:Ew; [|done].
    unfold in_window in Ew. lia.
Qed.

Lemma pair_leb_total a b : pair_leb a b = true ∨ pair_leb b a = true.
Proof. unfold pair_leb. rewrite !orb_true_iff, !andb_true_iff. lia. Qed.

Lemma pair_leb_trans a b c : pair_leb a b = true → pair_leb b c = true → pair_leb a c = true.
Proof. unfold pair_leb. rewrite !orb_true_iff, !andb_true_iff. lia. Qed.

(** On an exactly exhausted window the loop stops at the last attempt. *)
Lemma ready_loop_last l spent now limit w :
  (∀ a, a ∈ l → 1 ≤ a.2) → spent + zsum (map snd l) = limit → l ≠ [] →
  StronglySorted (λ x y, pair_leb x y = true) l →
  ∃ a, a ∈ l ∧ ready_loop l spent now limit w = a.1 + w ∧ ∀ b, b ∈ l → b.1 ≤ a.1.
Proof.
  revert spent. induction l as [|[t u] l IH]; intros spent Hu Hsum Hne Hs; [done|].
  apply StronglySorted_inv in Hs as [Hs Ht]. rewrite Forall_forall in Ht. simpl in *.
  destruct (limit <=? spent + u) eqn:E.
  - assert (l = []) as ->.
    { destruct l as [|[t' u'] l]; [done|]. exfalso. simpl in Hsum.
      assert (1 ≤ (t', u').2) as Hu' by (apply Hu; set_solver). simpl in Hu'.
      assert (0 ≤ zsum (map snd l)) by
        (apply zsum_nonneg; intros x (a & -> & Ha)%list_elem_of_fmap;
         assert (1 ≤ a.2) by (apply Hu; set_solver); lia).
      unfold zsum in *. lia. }
    exists (t, u). split; [set_solver|]. split; [done|]. intros b Hb. set_solver by lia.
  - destruct l as [|p l]; [simpl in Hsum; lia|].
    destruct (IH (spent + u)) as (a & Ha & Hr & Hmax); [set_solver|simpl in *; lia|done|done|].
    exists a. split; [set_solver|]. split; [done|]. intros b [->|Hb]%elem_of_cons; [|auto].
    specialize (Ht a Ha). unfold pair_leb in Ht. simpl in *. apply orb_true_iff in Ht.
    rewrite andb_true_iff in Ht. lia.
Qed.

(** At the time [next_ready_ms] names, nothing of an exhausted window counts any more. *)
Lemma next_ready_clears l now limit w :
  (∀ a, a ∈ l → 1 ≤ a.2 ∧ a.1 ≤ now) → 0 < limit → spent_in l now w = limit →
  now ≤ next_ready_ms l now limit w ∧ spent_in l (next_ready_ms l now limit w) w = 0.
Proof.
  intros Hl Hlim Hfull. unfold next_ready_ms. set (sel := select _ l).
  assert (∀ a, a ∈ sel ↔ a ∈ l ∧ in_window now w a.1 = true) as Hsel
    by (intros a; apply (elem_of_select (λ a, in_window now w a.1))).
  assert (spent_in (order_by pair_leb sel) now w = limit) as Hsp.
  { rewrite (spent_in_perm _ sel) by apply order_by_perm. unfold spent_in, sel in *.
    rewrite select_select, <- Hfull. do 2 f_equal. apply List.filter_ext_in.
    intros a _. by destruct (in_window _ _ _). }
  assert (available_units (order_by pair_leb sel) now limit w = 0) as ->
    by (unfold available_units; rewrite Hsp; lia).
  change (0 <? 0) with false. cbv iota.
  assert (zsum (map snd (order_by pair_leb sel)) = limit) as Hsum.
  { rewrite <- Hfull. unfold spent_in. apply zsum_perm, Permutation_map, order_by_perm. }
  destruct (ready_loop_last (order_by pair_leb sel) 0 now limit w) as (a & Ha & -> & Hmax).
  - intros a. rewrite elem_of_order_by, Hsel. intros [Ha _]. by apply Hl.
  - lia.
  - intros Hnil. rewrite Hnil in Hsum. simpl in Hsum. lia.
  - apply order_by_sorted; [apply pair_leb_total|apply pair_leb_trans].
  - rewrite elem_of_order_by, Hsel in Ha. destruct Ha as [Ha Hwin].
    split; [unfold in_window in Hwin; lia|].
    unfold spent_in. enough (select (λ b, in_window (a.1 + w) w b.1) l = []) as -> by done.
    apply nil_length_inv, rowcount_zero. intros b Hb.
    destruct (in_window (a.1 + w) w b.1) eqn:Eb; [|done]. exfalso.
    destruct (Hl b Hb) as [_ Hbn]. unfold in_window in *.
    apply andb_true_iff in Hwin as [? ?], Eb as [? ?].
    assert (b.1 ≤ a.1); [|lia]. apply Hmax. rewrite elem_of_order_by, Hsel.
    split; [done|]. apply andb_true_iff. lia.
Qed.

(** ** Sorted stamps *)

Lemma sorted_above (l : list Z) (k : nat) (v : Z) :
  StronglySorted (λ x y, Z.leb x y = true) l → l !! k = Some v →
  (rowcount (λ x, (v <? x)%Z) l ≤ length l - S k)%nat ∧
  (length l - k ≤ rowcount (λ x, (v <=? x)%Z) l)%nat.
Proof.
  revert k. induction l as [|x l IH]; intros k Hs Hk; [done|].
  apply StronglySorted_inv in Hs as [Hs Hx]. rewrite Forall_forall in Hx.
  destruct k as [|k]; simpl in Hk.
  - injection Hk as ->. unfold rowcount, select. simpl.
    rewrite (proj2 (Z.ltb_ge v v)), (proj2 (Z.leb_le v v)) by lia. simpl.
    pose proof (rowcount_le_length (λ x, v <? x) l). unfold rowcount, select in *. split; [lia|].
    assert (List.filter (λ x, v <=? x) l = l) as ->; [|lia].
    apply forallb_filter_id, forallb_forall. intros y Hy%list_elem_of_In. by apply Hx.
  - destruct (IH k Hs Hk) as [IH1 IH2]. unfold rowcount, select in *. simpl.
    assert (x ≤ v) by (apply Z.leb_le, Hx, list_elem_of_lookup; eauto).
    rewrite (proj2 (Z.ltb_ge v x)) by lia.
    destruct (v <=? x); simpl; lia.
Qed.

Lemma zleb_sorted l : StronglySorted (λ x y, Z.leb x y = true) (order_by Z.leb l).
Proof. apply order_by_sorted; intros; rewrite ?Z.leb_le in *; lia. Qed.

(** Sends of a thread counted in the window ending at [t]. *)
Definition thread_sends (b : ThreadBudget) (thread_id : string) (t : Z) : nat :=
  rowcount (in_window t (tb_window_ms b)) (recent_stamps b thread_id).

Lemma rowcount_select {R} (p q : R → bool) t : rowcount p (select q t) = rowcount (λ r, q r && p r) t.
Proof. unfold rowcount. by rewrite select_select. Qed.

Lemma keyed_map {A} (f : A → result Z) l ks : keyed f l = Ok ks → map snd ks = l.
Proof.
  revert ks. induction l as [|x l IH]; intros ks; simpl; [by intros [= <-]|].
  destruct (f x) as [k|]; simpl; [|done]. destruct (keyed f l) as [r|]; simpl; [|done].
  intros [= <-]. simpl. f_equal. by apply IH.
Qed.

Lemma filter_result_ok {A} (f : A → result bool) (g : A → bool) l :
  (∀ x, x ∈ l → f x = Ok (g x)) → filter_result f l = Ok (select g l).
Proof.
  induction l as [|x l IH]; intros Hf; [done|]. simpl. rewrite Hf by set_solver. simpl.
  rewrite IH by (intros; apply Hf; set_solver). simpl. by destruct (g x).
Qed.

Lemma keyed_ok {A} (f : A → result Z) (g : A → Z) l :
  (∀ x, x ∈ l → f x = Ok (g x)) → keyed f l = Ok (map (λ x, (g x, x)) l).
Proof.
  induction l as [|x l IH]; intros Hf; [done|]. simpl. rewrite Hf by set_solver. simpl.
  rewrite IH by (intros; apply Hf; set_solver). done.
Qed.

Lemma defer_until_total b tid now :
  0 < tb_limit b → ∃ t, defer_until b tid now = Ok t.
Proof.
  intros Hl. unfold defer_until. set (stamps := order_by _ _). destruct (_ <? _) eqn:E; [by eauto|].
  destruct (stamps !! _) eqn:El; [by eauto|]. apply lookup_ge_None in El. lia.
Qed.

Lemma select_split {A} (p : A → bool) l : select p l ++ select (λ x, negb (p x)) l ≡ₚ l.
Proof.
  unfold select. induction l as [|x l IH]; [done|]. simpl. destruct (p x); simpl.
  - by rewrite IH.
  - rewrite <- Permutation_middle. by rewrite IH.
Qed.

(** Reserving keeps every window within the limit. *)
Lemma reserve_windows limit w attempt_id channel chat_id effect_id units now s :
  ledger_inv limit w s → (∀ r, r ∈ send_budget_reservations s → bud_reserved_ms r ≤ now) →
  let (r, s') := reserve_send_budget attempt_id channel chat_id effect_id units now limit w s in
  ledger_inv limit w s' ∧ (∀ r, r ∈ send_budget_reservations s' → bud_reserved_ms r ≤ now) ∧
  r = Ok (row_exists (has_id bud_attempt_id attempt_id) (send_budget_reservations s)
          || (chat_spent channel chat_id now w s + Z.max 1 units <=? limit)).
Proof.
  intros Hi Hclock. rewrite reserve_cases.
  destruct (row_exists _ _) eqn:Ek; [done|]. rewrite row_exists_false in Ek.
  destruct (limit <? _) eqn:El; [split; [done|]; split; [done|]; f_equal; simpl; lia|].
  destruct Hi as [Hu Hpos Hw]. split; [split|split].
  - apply unique_key_insert; [done|]. intros r Hr. simpl. by apply str_eqb_neq, Ek.
  - intros r [Hr| ->]%elem_of_insert_row; [auto|simpl; lia].
  - intros ch' chat' t. unfold chat_spent. cbn [send_budget_reservations set_field].
    rewrite sum_where_insert. fold (chat_spent ch' chat' t w s). specialize (Hw ch' chat' t).
    destruct (of_chat ch' chat' _ && _) eqn:Ein; [|lia].
    apply andb_true_iff in Ein as [[Hc1 Hc2]%of_chat_eq Hin]. simpl in Hc1, Hc2, Hin. subst.
    apply andb_true_iff in Hin as [_ Hle%Z.leb_le].
    pose proof (chat_spent_later ch' chat' now t w s) as Hlater. cbn [bud_units].
    enough (chat_spent ch' chat' t w s ≤ chat_spent ch' chat' now w s) by lia.
    apply Hlater; [|done]. intros r Hr. split; [|auto]. specialize (Hpos r Hr). lia.
  - intros r [Hr| ->]%elem_of_insert_row; [auto|simpl; lia].
  - f_equal. simpl. lia.
Qed.

(** ** Theorems *)

(** The send budget is a true sliding window. Reserving under a clock that does not
    run backwards keeps every window of every chat, wherever placed, within the limit, and
    grants exactly the attempts that already hold a reservation or still fit. *)
Theorem reserve_keeps_windows limit w attempt_id channel chat_id effect_id units now s :
  ledger_inv limit w s → (∀ r, r ∈ send_budget_reservations s → bud_reserved_ms r ≤ now) →
  let (r, s') := reserve_send_budget attempt_id channel chat_id effect_id units now limit w s in
  ledger_inv limit w s' ∧ (∀ r, r ∈ send_budget_reservations s' → bud_reserved_ms r ≤ now) ∧
  r = Ok (row_exists (has_id bud_attempt_id attempt_id) (send_budget_reservations s)
          || (chat_spent channel chat_id now w s + Z.max 1 units <=? limit)).
Proof. apply reserve_windows. Qed.

Definition six_units : db :=
  empty_db <| send_budget_reservations :=
    [MkBudget "a1" "whatsapp" "c" "e1" 3 1000; MkBudget "a2" "whatsapp" "c" "e2" 3 2000] |>.

Lemma six_units_ledger : ledger_inv 6 60000 six_units.
Proof.
  split.
  - apply (bool_decide_unpack _). by vm_compute.
  - intros r Hr. unfold six_units in Hr. simpl in Hr. set_solver by lia.
  - intros ch chat t. unfold chat_spent, sum_where, six_units, select. simpl.
    repeat (destruct (_ && _); simpl); lia.
Qed.

Lemma reserve_keeps_windows_witness :
  (reserve_send_budget "a3" "whatsapp" "c" "e3" 1 2500 6 60000 six_units).1 = Ok false ∧
  ledger_inv 6 60000 (reserve_send_budget "a3" "whatsapp" "c" "e3" 1 61000 6 60000 six_units).2 ∧
  (reserve_send_budget "a3" "whatsapp" "c" "e3" 1 61000 6 60000 six_units).1 = Ok true.
Proof.
  split; [by vm_compute|]. split; [|by vm_compute].
  pose proof (reserve_keeps_windows 6 60000 "a3" "whatsapp" "c" "e3" 1 61000 six_units
                six_units_ledger) as H.
  destruct (reserve_send_budget _ _ _ _ _ _ _ _ _) as [r s']. apply H.
  intros r' Hr. unfold six_units in Hr. simpl in Hr. set_solver by lia.
Defined.

(** An attempt spends at most once. Once its reservation was granted, reserving for
    the same attempt again is granted and leaves the ledger as it is, whatever the time,
    the chat and the amount. *)
Theorem reserve_idempotent attempt_id ch chat eff units now limit w s s'
    ch' chat' eff' units' now' limit' w' :
  reserve_send_budget attempt_id ch chat eff units now limit w s = (Ok true, s') →
  reserve_send_budget attempt_id ch' chat' eff' units' now' limit' w' s' = (Ok true, s').
Proof.
  rewrite !reserve_cases. destruct (row_exists _ (send_budget_reservations s)) eqn:Ek.
  - intros [= <-]. by rewrite Ek.
  - destruct (_ <? _); [done|]. intros [= <-].
    assert (row_exists (has_id bud_attempt_id attempt_id)
              (insert_row (MkBudget attempt_id ch chat eff (Z.max 1 units) now)
                 (send_budget_reservations s)) = true) as Hex.
    { apply row_exists_spec. eexists. rewrite elem_of_insert_row. split; [by right|].
      apply str_eqb_refl. }
    cbn [send_budget_reservations set_field]. by rewrite Hex.
Qed.

Lemma reserve_idempotent_witness :
  reserve_send_budget "a2" "whatsapp" "c" "e2" 5 2600 6 60000 six_units = (Ok true, six_units).
Proof.
  apply (reserve_idempotent "a2" "whatsapp" "c" "e2" 3 2500 6 60000 six_units six_units).
  by vm_compute.
Defined.

(** A refusal on an exhausted window names a time by which the chat's whole budget has
    returned: nothing spent so far counts in the window ending at [ready_at_ms]. *)
Theorem refusal_ready_at b channel chat_id effect_id attempt_id units now s :
  ledger_inv (cb_limit b) (cb_window_ms b) s → 0 < cb_limit b →
  (∀ r, r ∈ send_budget_reservations s → bud_reserved_ms r ≤ now) →
  row_exists (has_id bud_attempt_id attempt_id) (send_budget_reservations s) = false →
  budget_available b channel chat_id now s = 0 →
  ∃ d, budget_reserve b channel chat_id effect_id attempt_id units now s = (Ok d, s) ∧
       bd_allowed d = false ∧ now ≤ bd_ready_at_ms d ∧
       chat_spent channel chat_id (bd_ready_at_ms d) (cb_window_ms b) s = 0.
Proof.
  intros Hi Hlim Hclock Hnew Hfull. pose proof (led_windows _ _ _ Hi channel chat_id now) as Hle.
  unfold budget_available, available_units, budget_attempts in Hfull.
  rewrite spent_in_attempts in Hfull by lia.
  assert (chat_spent channel chat_id now (cb_window_ms b) s = cb_limit b) as Heq by lia.
  unfold budget_reserve, pbind. rewrite reserve_cases, Hnew, Heq.
  replace (cb_limit b <? cb_limit b + Z.max 1 (Z.max 1 units)) with true by lia.
  eexists. split; [done|]. split; [done|]. cbn [bd_ready_at_ms].
  set (l := budget_attempts b channel chat_id now s).
  destruct (next_ready_clears l now (cb_limit b) (cb_window_ms b)) as [Hge Hzero].
  - intros a Ha. unfold l, budget_attempts in Ha. rewrite send_budget_attempts_perm in Ha.
    apply list_elem_of_fmap in Ha as (r & -> & [Hr _]%elem_of_select). simpl.
    split; [by apply Hi|by apply Hclock].
  - done.
  - unfold l, budget_attempts. by rewrite spent_in_attempts by lia.
  - split; [done|]. rewrite <- Hzero. unfold l, budget_attempts.
    rewrite spent_in_attempts; [done|]. fold (budget_attempts b channel chat_id now s). fold l. lia.
Qed.

Lemma refusal_ready_at_witness :
  ∃ d, budget_reserve (MkChatBudget 6 60000 20) "whatsapp" "c" "e3" "a3" 1 2500 six_units
         = (Ok d, six_units) ∧ bd_allowed d = false ∧ 2500 ≤ bd_ready_at_ms d ∧
       chat_spent "whatsapp" "c" (bd_ready_at_ms d) 60000 six_units = 0.
Proof.
  apply (refusal_ready_at (MkChatBudget 6 60000 20)); [apply six_units_ledger|done| |done|done].
  intros r Hr. unfold six_units in Hr. simpl in Hr. set_solver by lia.
Defined.

(** The ready time is later than the documentation says. With three units sent at
    1000 and three at 2000, [next_ready_ms] names 62000, although three units are available
    again at 61000: it waits for the whole exhausted prefix of the window, not for the
    next unit. *)
Theorem next_ready_not_next_unit :
  next_ready_ms [(1000, 3); (2000, 3)] 2500 6 60000 = 62000 ∧
  available_units [(1000, 3); (2000, 3)] 61000 6 60000 = 3.
Proof. by vm_compute. Qed.

(** The soft thread limit defers to the earliest time the thread may speak: at
    [defer_until] fewer than [limit] sends are in the window, and at every earlier time
    from [now] on there are at least [limit]. *)
Theorem defer_until_earliest b tid now :
  0 < tb_limit b → 0 < tb_window_ms b → (∀ t, t ∈ recent_stamps b tid → t ≤ now) →
  ∃ t, defer_until b tid now = Ok t ∧ now ≤ t ∧
       Z.of_nat (thread_sends b tid t) < tb_limit b ∧
       ∀ t', now ≤ t' < t → tb_limit b ≤ Z.of_nat (thread_sends b tid t').
Proof.
  intros Hl Hw Hpast. unfold defer_until. set (w := tb_window_ms b) in *.
  set (sel := select (in_window now w) (recent_stamps b tid)).
  assert (length (order_by Z.leb sel) = thread_sends b tid now) as Hlen
    by (by rewrite length_order_by).
  destruct (_ <? tb_limit b) eqn:E.
  { exists now. split; [done|]. split; [done|]. rewrite <- Hlen. split; [lia|]. lia. }
  set (k := Z.to_nat (Z.of_nat (length (order_by Z.leb sel)) - tb_limit b)).
  destruct (order_by Z.leb sel !! k) as [v|] eqn:Ek.
  2:{ apply lookup_ge_None in Ek. lia. }
  destruct (sorted_above _ _ _ (zleb_sorted sel) Ek) as [Habove Hfrom].
  rewrite (rowcount_perm _ _ sel) in Habove by apply order_by_perm.
  rewrite (rowcount_perm _ _ sel) in Hfrom by apply order_by_perm.
  unfold sel in Habove at 1. rewrite rowcount_select in Habove.
  unfold sel in Hfrom at 2. rewrite rowcount_select in Hfrom.
  assert (v ∈ sel) as [Hv Hvw]%elem_of_select.
  { rewrite <- (elem_of_order_by Z.leb). apply list_elem_of_lookup. eauto. }
  unfold in_window in Hvw. apply andb_true_iff in Hvw as [Hv1 Hv2].
  exists (v + w). split; [done|]. split; [lia|]. split.
  - assert (thread_sends b tid (v + w) ≤
            rowcount (λ x, in_window now w x && (v <? x)%Z) (recent_stamps b tid))%nat; [|lia].
    apply rowcount_mono. intros x Hx. specialize (Hpast x Hx). unfold in_window. fold w. lia.
  - intros t' Ht'.
    assert (rowcount (λ x, in_window now w x && (v <=? x)%Z) (recent_stamps b tid)
            ≤ thread_sends b tid t')%nat; [|lia].
    apply rowcount_mono. intros x Hx. unfold in_window. fold w. lia.
Qed.

Definition two_sends : ThreadBudget :=
  note_send (note_send (MkThreadBudget THREAD_SOFT_UNITS THREAD_SOFT_WINDOW_MS ∅) "th" 1000) "th" 4000.

Lemma defer_until_earliest_witness :
  defer_until two_sends "th" 5000 = Ok 11000 ∧
  ∃ t, defer_until two_sends "th" 5000 = Ok t ∧ 5000 ≤ t ∧
       Z.of_nat (thread_sends two_sends "th" t) < 2 ∧
       ∀ t', 5000 ≤ t' < t → 2 ≤ Z.of_nat (thread_sends two_sends "th" t').
Proof.
  split; [by vm_compute|]. apply (defer_until_earliest two_sends "th" 5000); [done|done|].
  assert (recent_stamps two_sends "th" = [1000; 4000]) as -> by (by vm_compute).
  intros t Ht. set_solver by lia.
Defined.

(** Round robin loses and invents no thread: it returns a permutation of the waiting
    threads, those that may speak now first, in their given order. *)
Theorem round_robin_permutation b tids now :
  0 < tb_limit b →
  ∃ ready deferred, round_robin b tids now = Ok (ready ++ deferred) ∧
    ready ++ deferred ≡ₚ tids ∧
    ready = select (λ tid, match defer_until b tid now with Ok t => t <=? now | _ => false end) tids ∧
    (∀ tid t, tid ∈ deferred → defer_until b tid now = Ok t → now < t).
Proof.
  intros Hl. set (g := λ tid, match defer_until b tid now with Ok t => t | Raise _ => 0 end).
  assert (∀ tid, defer_until b tid now = Ok (g tid)) as Hg.
  { intros tid. unfold g. by destruct (defer_until_total b tid now Hl) as [t ->]. }
  unfold round_robin.
  rewrite (filter_result_ok _ (λ tid, g tid <=? now)) by (intros x _; by rewrite Hg).
  cbn [rbind]. cbv zeta. set (ready := select (λ tid, g tid <=? now) tids).
  assert (select (λ tid, negb (str_in tid ready)) tids = select (λ tid, negb (g tid <=? now)) tids)
    as ->.
  { unfold select. apply List.filter_ext_in. intros x Hx%list_elem_of_In. f_equal.
    apply eq_true_iff_eq. rewrite str_in_spec. unfold ready. rewrite elem_of_select. tauto. }
  set (wait := select (λ tid, negb (g tid <=? now)) tids). rewrite (keyed_ok _ g) by (intros; apply Hg). cbn [rbind].
  set (deferred := map snd _).
  assert (deferred ≡ₚ wait) as Hd.
  { unfold deferred. rewrite order_by_perm, map_map. simpl. by rewrite map_id. }
  exists ready, deferred. split; [done|]. split; [rewrite Hd; apply select_split|]. split.
  - unfold ready, select. apply List.filter_ext_in. intros x _. by rewrite Hg.
  - intros tid t. rewrite Hd. unfold wait. rewrite elem_of_select, Hg. intros [_ Hn] [= <-]. lia.
Qed.

Lemma round_robin_permutation_witness :
  round_robin two_sends ["th"; "other"] 5000 = Ok ["other"; "th"] ∧
  ∃ ready deferred, round_robin two_sends ["th"; "other"] 5000 = Ok (ready ++ deferred) ∧
    ready ++ deferred ≡ₚ ["th"; "other"].
Proof.
  split; [by vm_compute|].
  destruct (round_robin_permutation two_sends ["th"; "other"] 5000 eq_refl)
    as (ready & deferred & H1 & H2 & _). by exists ready, deferred.
Defined.
