(* ===== verification/Quota.v ===== *)
(** * Quota

    Cooldowns: [claim_voice_send], [claim_capability] and [release_capability] of
    [processing/store.py], and the policy-backed [CapabilityQuotaGovernance] of
    [processing/quota.py]. *)

From Stdlib Require Import ZArith Lia.
From S2P Require Import Prelude Tables Json Models Schema Outbox.

(** ** The store *)

(** [INSERT ... ON CONFLICT DO UPDATE]: [same] identifies the conflicting row. *)
Definition upsert {R} (same : R → bool) (set : R → R) (r : R) (t : list R) : list R :=
  if row_exists same t then update same set t else insert_row r t.

(** [claim_voice_send]; [str(principal or "").strip()] on a string is [strip]. *)
Definition claim_voice_send (principal : string) (now_ms cooldown_ms : Z) : prog db bool :=
  let actor := py_strip principal in
  if negb (str_true actor) then pret false else
  write (λ s,
    match by_id vq_principal actor (voice_send_quota s) with
    | Some row =>
        if now_ms - vq_last_requested_ms row <? cooldown_ms then Ok (false, s)
        else Ok (true, s <| voice_send_quota ::=
                              upsert (has_id vq_principal actor)
                                (λ r, r <| vq_last_requested_ms := now_ms |>)
                                (MkVoiceQuota actor now_ms) |>)
    | None => Ok (true, s <| voice_send_quota ::=
                              upsert (has_id vq_principal actor)
                                (λ r, r <| vq_last_requested_ms := now_ms |>)
                                (MkVoiceQuota actor now_ms) |>)
    end).

Definition quota_of (user key : string) (r : capability_quota_row) : bool :=
  (cq_canonical_user_id r =?s user) && (cq_quota_key r =?s key).

(** [claim_capability]: granted, or refused with the time of the next chance. *)
Definition claim_capability (canonical_user_id quota_key claim_id : string)
    (cooldown_ms now_ms : Z) : prog db (bool * Z) :=
  let user := py_strip canonical_user_id in
  let key := py_strip quota_key in
  let claim := py_strip claim_id in
  if negb (str_true user) || negb (str_true key) || negb (str_true claim)
  then praise (ValueError "canonical_user_id, quota_key and claim_id are required")
  else if cooldown_ms <=? 0 then praise (ValueError "cooldown_ms must be positive")
  else write (λ s,
    let granted := s <| capability_quota ::=
                          upsert (quota_of user key)
                            (λ r, r <| cq_claim_id := claim |> <| cq_claimed_at_ms := now_ms |>)
                            (MkCapabilityQuota user key claim now_ms) |> in
    match fetchone (quota_of user key) (capability_quota s) with
    | Some row =>
        let retry_at := cq_claimed_at_ms row + cooldown_ms in
        if now_ms <? retry_at then Ok ((false, retry_at), s) else Ok ((true, 0), granted)
    | None => Ok ((true, 0), granted)
    end).

(** [release_capability]: only the exact claim *)
Definition release_capability (canonical_user_id quota_key claim_id : string) : prog db bool :=
  let user := py_strip canonical_user_id in
  let key := py_strip quota_key in
  let claim := py_strip claim_id in
  if negb (str_true user) || negb (str_true key) || negb (str_true claim)
  then praise (ValueError "canonical_user_id, quota_key and claim_id are required")
  else write (λ s,
    let p := λ r, quota_of user key r && (cq_claim_id r =?s claim) in
    Ok ((rowcount p (capability_quota s) =? 1)%nat,
        s <| capability_quota ::= delete_rows p |>)).

(** ** CapabilityQuotaGovernance *)

(** [quota_key_for]; a list or dict as the skill is not hashable. *)
Definition quota_key_for (tool_name : string) (arguments : dict) : result (option string) :=
  if tool_name =?s "deep_research" then Ok (Some "deep_research")
  else if tool_name =?s "a2a_delegate" then
    match dict_get "skill" arguments with
    | Some (JStr skill) =>
        if skill =?s "research.deep" then Ok (Some "deep_research")
        else if skill =?s "trading.analyze" then Ok (Some "trading_guru")
        else Ok None
    | Some (JArr _) | Some (JObj _) => Raise (TypeError "unhashable type")
    | _ => Ok None
    end
  else Ok None.

Record CapabilityQuotaDecision := MkQuotaDecision {
  qd_allowed : bool;
  qd_quota_key : option string;
  qd_canonical_user_id : string;
  qd_claim_id : string;
  qd_reason : string;
  qd_retry_at_ms : Z;
}.

(** The fields of [ToolInvocationContext] the governance reads. *)
Record quota_context := MkQuotaContext {
  qc_channel : string;
  qc_is_owner : bool;
  qc_canonical_user_id : string;
}.

(** One quota entry: a config object with [cooldown_seconds], or plain JSON. *)
Inductive quota_config :=
| ConfigObject (cooldown_seconds : Z)
| ConfigJson (v : json).

(** [snapshot.policy]: the policy object (with or without its quota table), or a dict. *)
Inductive policy_value :=
| PolicyObject (capability_quotas : option (gmap string quota_config))
| PolicyDict (d : dict).

Record policy_snapshot := MkPolicySnapshot {
  ps_healthy : bool;
  ps_policy : option policy_value;
}.

(** The entry of a key: the quota table is absent, or it is a table with or without the
    key. *)
Definition quota_entry (key : string) (p : policy_value) : option (option quota_config) :=
  match p with
  | PolicyObject None => None
  | PolicyObject (Some quotas) => Some (quotas !! key)
  | PolicyDict d =>
      match dict_get "capabilityQuotas" d with
      | None => Some None
      | Some JNull => None
      | Some (JObj quotas) =>
          Some (match dict_get key quotas with
                | None | Some JNull => None
                | Some v => Some (ConfigJson v)
                end)
      | Some _ => Some None
      end
  end.

(** [int(config.get("cooldownSeconds", config.get("cooldown_seconds", 0)))], or the
    attribute; [None] is an exception. *)
Definition cooldown_seconds (c : quota_config) : option Z :=
  match c with
  | ConfigObject z => Some z
  | ConfigJson (JObj d) =>
      opt_int (match dict_get "cooldownSeconds" d with
               | Some v => Some v
               | None => match dict_get "cooldown_seconds" d with
                         | Some v => Some v
                         | None => Some (JInt 0)
                         end
               end)
  | ConfigJson _ => None
  end.

Definition quota_denied (key reason : string) : CapabilityQuotaDecision :=
  MkQuotaDecision false (Some key) "" "" reason 0.
Definition quota_free (key : option string) : CapabilityQuotaDecision :=
  MkQuotaDecision true key "" "" "" 0.

(** [CapabilityQuotaGovernance.claim] of a wired governance ([store] present). [provider]
    is the snapshot call, absent when no provider is wired; [claim_id] is the fresh
    [uuid4]. Any exception denies. *)
Definition quota_claim (provider : option (result policy_snapshot)) (tool_name : string)
    (arguments : dict) (context : option quota_context) (claim_id : string) (clock : Z)
    : prog db CapabilityQuotaDecision :=
  match quota_key_for tool_name arguments with
  | Raise e => praise e
  | Ok None => pret (quota_free None)
  | Ok (Some key) =>
  match context with
  | None => pret (quota_denied key "identity_unresolved")
  | Some ctx =>
  if negb (qc_channel ctx =?s "whatsapp") || qc_is_owner ctx then pret (quota_free (Some key))
  else if negb (str_true (qc_canonical_user_id ctx))
  then pret (quota_denied key "identity_unresolved")
  else match provider with
  | None | Some (Raise _) => pret (quota_denied key "quota_unavailable")
  | Some (Ok snapshot) =>
  match ps_healthy snapshot, ps_policy snapshot with
  | false, _ | _, None => pret (quota_denied key "quota_unavailable")
  | true, Some policy =>
  match quota_entry key policy with
  | None => pret (quota_denied key "quota_unavailable")
  | Some None => pret (quota_free (Some key))
  | Some (Some config) =>
  match cooldown_seconds config with
  | None => pret (quota_denied key "quota_unavailable")
  | Some seconds => λ s,
      match claim_capability (qc_canonical_user_id ctx) key claim_id (seconds * 1000) clock s with
      | (Raise _, s') => (Ok (quota_denied key "quota_unavailable"), s')
      | (Ok (false, retry_at), s') =>
          (Ok (MkQuotaDecision false (Some key) (qc_canonical_user_id ctx) "" "quota_exhausted"
                 retry_at), s')
      | (Ok (true, _), s') =>
          (Ok (MkQuotaDecision true (Some key) (qc_canonical_user_id ctx) claim_id "" 0), s')
      end
  end
  end
  end
  end
  end
  end.

(** [CapabilityQuotaGovernance.release] *)
Definition quota_release (d : CapabilityQuotaDecision) : prog db bool :=
  match qd_quota_key d with
  | None => pret false
  | Some key =>
      if negb (str_true (qd_claim_id d)) || negb (str_true key)
         || negb (str_true (qd_canonical_user_id d))
      then pret false
      else λ s, match release_capability (qd_canonical_user_id d) key (qd_claim_id d) s with
                | (Raise _, s') => (Ok false, s')
                | r => r
                end
  end.

(** ** Facts *)

Lemma fetchone_upsert {R} (same : R → bool) set r t :
  (∀ r, same r = true → same (set r) = true) → same r = true →
  ∃ r', fetchone same (upsert same set r t) = Some r' ∧
        (r' = r ∨ ∃ r0, r0 ∈ t ∧ same r0 = true ∧ r' = set r0).
Proof.
  intros Hset Hr. unfold upsert. rewrite fetchone_row_exists.
  destruct (fetchone same t) as [r0|] eqn:E; cbn [is_some is_none negb].
  - rewrite fetchone_update by (intros x Hx; by rewrite Hset).
    rewrite E. apply fetchone_Some_inv in E as [Hin Hs].
    exists (set r0). simpl. rewrite Hs. split; [done|]. right. eauto.
  - exists r. rewrite fetchone_insert_row, E, Hr. auto.
Qed.

Lemma fetchone_upsert_other {R} (same p : R → bool) set r t :
  (∀ r, same r = true → p (set r) = false ∧ p r = false) → p r = false →
  fetchone p (upsert same set r t) = fetchone p t.
Proof.
  intros Hp Hr. unfold upsert. destruct (row_exists same t).
  - rewrite fetchone_update by (intros x Hx; destruct (Hp x Hx); congruence).
    destruct (fetchone p t) as [x|] eqn:E; [|done]. simpl. destruct (same x) eqn:Es; [|done].
    apply fetchone_Some_inv in E as [_ E]. destruct (Hp x Es). congruence.
  - rewrite fetchone_insert_row, Hr. by destruct (fetchone p t).
Qed.

Lemma quota_of_spec user key r :
  quota_of user key r = true ↔ cq_canonical_user_id r = user ∧ cq_quota_key r = key.
Proof. unfold quota_of. by rewrite andb_true_iff, !str_eqb_eq. Qed.

(** The time a user last claimed a capability. *)
Definition claimed_at (user key : string) (s : db) : option Z :=
  cq_claimed_at_ms <$> fetchone (quota_of user key) (capability_quota s).

(** A grant records its time for that user and capability, and no other's. *)
Lemma claim_capability_grant user key claim cooldown now s t s' :
  claim_capability user key claim cooldown now s = (Ok (true, t), s') →
  claimed_at (py_strip user) (py_strip key) s' = Some now ∧
  ∀ u k, (u, k) ≠ (py_strip user, py_strip key) → claimed_at u k s' = claimed_at u k s.
Proof.
  unfold claim_capability. destruct (_ || _ || _); [done|]. destruct (_ <=? _); [done|].
  unfold write. set (g := s <| capability_quota ::= _ |>). intros Hg.
  assert (s' = g) as ->.
  { destruct (fetchone _ _) as [row|]; [destruct (_ <? _); [done|]|]; congruence. }
  unfold claimed_at, g. cbn [capability_quota set_field]. split.
  - edestruct (fetchone_upsert (quota_of (py_strip user) (py_strip key)))
      as (r' & Hr' & [-> |(r0 & _ & _ & ->)]); [..|by rewrite Hr'|by rewrite Hr'].
    + done.
    + by apply quota_of_spec.
  - intros u k Huk. rewrite fetchone_upsert_other; [done| |].
    + intros r [H1 H2]%quota_of_spec. split; apply not_true_iff_false;
        intros [H3 H4]%quota_of_spec; simpl in *; congruence.
    + apply not_true_iff_false. intros [H3 H4]%quota_of_spec. simpl in *. congruence.
Qed.

Definition quota_key_of (r : capability_quota_row) : string * string :=
  (cq_canonical_user_id r, cq_quota_key r).

Lemma quota_of_key user key r : quota_of user key r = true ↔ quota_key_of r = (user, key).
Proof. rewrite quota_of_spec. unfold quota_key_of. split; [by intros [-> ->]|by intros [=]]. Qed.

(** A grant leaves one row for the user and capability, holding its claim id. *)
Lemma claim_capability_row user key claim cooldown now s t s' :
  unique_key quota_key_of (capability_quota s) →
  claim_capability user key claim cooldown now s = (Ok (true, t), s') →
  unique_key quota_key_of (capability_quota s') ∧
  ∃ r, fetchone (quota_of (py_strip user) (py_strip key)) (capability_quota s') = Some r ∧
       cq_claim_id r = py_strip claim.
Proof.
  intros Hu. unfold claim_capability. destruct (_ || _ || _); [done|]. destruct (_ <=? _); [done|].
  unfold write. set (g := s <| capability_quota ::= _ |>). intros Hg.
  assert (s' = g) as ->.
  { destruct (fetchone _ _) as [row|]; [destruct (_ <? _); [done|]|]; congruence. }
  unfold g. cbn [capability_quota set_field]. split.
  - unfold upsert. destruct (row_exists _ _) eqn:E; [by apply unique_key_update|].
    apply unique_key_insert; [done|]. intros r Hr Hk.
    apply row_exists_false with (r := r) in E; [|done].
    apply not_true_iff_false in E. by apply E, quota_of_key.
  - edestruct (fetchone_upsert (quota_of (py_strip user) (py_strip key)))
      as (r' & Hr' & [-> |(r0 & _ & _ & ->)]); [..|by rewrite Hr'; eauto|by rewrite Hr'; eauto].
    + done.
    + by apply quota_of_spec.
Qed.

(** With usable arguments a claim is decided by the last claim alone. *)
Lemma claim_capability_cases user key claim cooldown now s :
  py_strip user ≠ "" → py_strip key ≠ "" → py_strip claim ≠ "" → 0 < cooldown →
  match claimed_at (py_strip user) (py_strip key) s with
  | Some at_ms =>
      if now <? at_ms + cooldown
      then claim_capability user key claim cooldown now s = (Ok (false, at_ms + cooldown), s)
      else (claim_capability user key claim cooldown now s).1 = Ok (true, 0)
  | None => (claim_capability user key claim cooldown now s).1 = Ok (true, 0)
  end.
Proof.
  intros Hu%str_true_spec Hk%str_true_spec Hc%str_true_spec Hcd.
  unfold claim_capability, claimed_at. rewrite Hu, Hk, Hc. cbn [negb orb].
  rewrite (proj2 (Z.leb_gt cooldown 0)) by lia. unfold write.
  destruct (fetchone _ _) as [row|]; simpl; [|done]. by destruct (_ <? _).
Qed.

(** ** Theorems *)

(** A capability is granted at most once per cooldown. After a grant at [now1], every
    claim of that user and capability before [now1 + cooldown] is refused with exactly
    that retry time and changes nothing; from then on it is granted again. *)
Theorem capability_cooldown user key c1 c2 cooldown now1 now2 s s' t :
  claim_capability user key c1 cooldown now1 s = (Ok (true, t), s') →
  py_strip c2 ≠ "" →
  if now2 <? now1 + cooldown
  then claim_capability user key c2 cooldown now2 s' = (Ok (false, now1 + cooldown), s')
  else (claim_capability user key c2 cooldown now2 s').1 = Ok (true, 0).
Proof.
  intros Hg Hc2. destruct (claim_capability_grant _ _ _ _ _ _ _ _ Hg) as [Hat _].
  assert (py_strip user ≠ "" ∧ py_strip key ≠ "" ∧ 0 < cooldown) as (Hu & Hk & Hcd).
  { unfold claim_capability in Hg. destruct (str_true (py_strip user)) eqn:E1; [|done].
    destruct (str_true (py_strip key)) eqn:E2; [|done].
    destruct (negb _ || _ || _); [done|]. destruct (cooldown <=? 0) eqn:E3; [done|].
    split; [by apply str_true_spec|]. split; [by apply str_true_spec|lia]. }
  pose proof (claim_capability_cases user key c2 cooldown now2 s' Hu Hk Hc2 Hcd) as Hd.
  by rewrite Hat in Hd.
Qed.

Lemma capability_cooldown_witness :
  claim_capability "u" "deep_research" "c2" 1000 1500
    (claim_capability "u" "deep_research" "c1" 1000 1000 empty_db).2
  = (Ok (false, 2000), (claim_capability "u" "deep_research" "c1" 1000 1000 empty_db).2).
Proof.
  refine (capability_cooldown "u" "deep_research" "c1" "c2" 1000 1000 1500 empty_db _ 0 _ _);
    [by vm_compute|done].
Defined.

Lemma claim_capability_args user key claim cooldown now s b s' :
  claim_capability user key claim cooldown now s = (Ok b, s') →
  str_true (py_strip user) = true ∧ str_true (py_strip key) = true ∧
  str_true (py_strip claim) = true ∧ 0 < cooldown.
Proof.
  unfold claim_capability. destruct (str_true (py_strip user)); [|done].
  destruct (str_true (py_strip key)); [|done]. destruct (str_true (py_strip claim)); [|done].
  cbn [negb orb]. destruct (cooldown <=? 0) eqn:E; [done|]. intros _. repeat split; lia.
Qed.

(** A release undoes exactly its own claim. Releasing the claim that was just granted
    frees the capability for that user again, and a release naming another claim id
    changes nothing. *)
Theorem release_exact_claim user key c1 c2 cooldown now s s' t :
  unique_key quota_key_of (capability_quota s) →
  claim_capability user key c1 cooldown now s = (Ok (true, t), s') →
  ((release_capability user key c1 s').1 = Ok true ∧
   claimed_at (py_strip user) (py_strip key) (release_capability user key c1 s').2 = None) ∧
  (py_strip c2 ≠ py_strip c1 → py_strip c2 ≠ "" → release_capability user key c2 s' = (Ok false, s')).
Proof.
  intros Hu Hg. destruct (claim_capability_row _ _ _ _ _ _ _ _ Hu Hg) as (Hu' & r & Hr & Hc).
  destruct (claim_capability_args _ _ _ _ _ _ _ _ Hg) as (E1 & E2 & E3 & _).
  unfold release_capability. rewrite E1, E2, E3. cbn [negb orb]. unfold write. cbn [fst snd].
  rewrite (rowcount_same quota_key_of _ _ _ _ (quota_of_key _ _) Hu'), Hr, Hc, str_eqb_refl.
  split; [split; [done|]|].
  - unfold claimed_at. cbn [capability_quota set_field].
    enough (fetchone (quota_of (py_strip user) (py_strip key)) (delete_rows
      (λ r0, quota_of (py_strip user) (py_strip key) r0 && (cq_claim_id r0 =?s py_strip c1))
      (capability_quota s')) = None) as -> by done.
    apply fetchone_None. intros r' [Hin Hp]%elem_of_delete_rows. apply not_true_iff_false. intros Hq.
    assert (r' = r) as ->.
    { apply fetchone_Some_inv in Hr as [Hrin Hrq]. apply (unique_key_inj quota_key_of _ _ _ Hu' Hin Hrin).
      rewrite (proj1 (quota_of_key _ _ _) Hq). symmetry. by apply quota_of_key. }
    rewrite Hq, Hc, str_eqb_refl in Hp. done.
  - intros Hne Hc2%str_true_spec. rewrite Hc2. cbn [negb]. f_equal.
    + rewrite (rowcount_same quota_key_of _ _ _ _ (quota_of_key _ _) Hu'), Hr, Hc.
      by rewrite (proj2 (str_eqb_neq (py_strip c1) (py_strip c2))) by congruence.
    + unfold delete_rows. destruct s'; simpl in *. f_equal. apply forallb_filter_id.
      apply forallb_forall. intros r' Hin%list_elem_of_In. apply negb_true_iff, not_true_iff_false.
      intros [Hq Hcl%str_eqb_eq]%andb_true_iff.
      apply fetchone_Some_inv in Hr as [Hrin Hrq].
      assert (r' = r) as -> by (apply (unique_key_inj quota_key_of _ _ _ Hu' Hin Hrin);
        rewrite (proj1 (quota_of_key _ _ _) Hq); symmetry; by apply quota_of_key).
      congruence.
Qed.

Lemma release_exact_claim_witness :
  (release_capability "u" "deep_research" "c1"
     (claim_capability "u" "deep_research" "c1" 1000 1000 empty_db).2).1 = Ok true.
Proof.
  refine (proj1 (proj1 (release_exact_claim "u" "deep_research" "c1" "c2" 1000 1000 empty_db _ 0
                          (unique_key_nil _) _))); by vm_compute.
Defined.

(** Quota governance fails closed. For a protected tool called by a non-owner WhatsApp
    user, an allowed decision comes either with a claim persisted for that user at the
    current time, or from a healthy policy that puts no quota on the capability; a denial
    writes nothing. *)
Theorem governance_fails_closed provider tool args ctx claim_id clock key s :
  quota_key_for tool args = Ok (Some key) →
  qc_channel ctx = "whatsapp" → qc_is_owner ctx = false →
  let (r, s') := quota_claim provider tool args (Some ctx) claim_id clock s in
  ∃ d, r = Ok d ∧ qd_quota_key d = Some key ∧
    if qd_allowed d
    then (qd_claim_id d = claim_id ∧
          claimed_at (py_strip (qc_canonical_user_id ctx)) (py_strip key) s' = Some clock) ∨
         (s' = s ∧ ∃ snap p, provider = Some (Ok snap) ∧ ps_healthy snap = true ∧
                             ps_policy snap = Some p ∧ quota_entry key p = Some None)
    else s' = s.
Proof.
  intros Hkey Hch Hown. unfold quota_claim. rewrite Hkey, Hch, Hown. cbn [negb orb str_eqb].
  change (negb ("whatsapp" =?s "whatsapp") || false) with false. cbv iota.
  destruct (str_true _); cbn [negb]; [|by eexists].
  destruct provider as [[snap|e]|]; [|by eexists|by eexists].
  destruct (ps_healthy snap) eqn:Eh; [|by eexists].
  destruct (ps_policy snap) as [p|] eqn:Ep; [|by eexists].
  destruct (quota_entry key p) as [[config|]|] eqn:Eq; [| |by eexists].
  2:{ eexists. split; [done|]. split; [done|]. simpl. right. split; [done|]. by exists snap, p. }
  destruct (cooldown_seconds config) as [sec|]; [|by eexists].
  destruct (claim_capability _ _ _ _ _ s) as [[[[] retry]|e] s'] eqn:Ec.
  - eexists. split; [done|]. split; [done|]. left. split; [done|].
    by destruct (claim_capability_grant _ _ _ _ _ _ _ _ Ec).
  - eexists. split; [done|]. split; [done|]. simpl.
    unfold claim_capability in Ec. destruct (_ || _ || _); [done|]. destruct (_ <=? _); [done|].
    unfold write in Ec. destruct (fetchone _ _); [destruct (_ <? _)|]; congruence.
  - eexists. split; [done|]. split; [done|]. simpl.
    unfold claim_capability in Ec. destruct (_ || _ || _); [by injection Ec|].
    destruct (_ <=? _); [by injection Ec|].
    unfold write in Ec. destruct (fetchone _ _); [destruct (_ <? _)|]; congruence.
Qed.

Definition research_policy : policy_snapshot :=
  MkPolicySnapshot true (Some (PolicyObject (Some {[ "deep_research" := ConfigObject 60 ]}))).

Lemma governance_fails_closed_witness :
  ∃ d, (quota_claim (Some (Ok research_policy)) "deep_research" [] (Some (MkQuotaContext "whatsapp" false "u"))
          "c1" 1000 empty_db).1 = Ok d ∧ qd_allowed d = true.
Proof.
  pose proof (governance_fails_closed (Some (Ok research_policy)) "deep_research" []
    (MkQuotaContext "whatsapp" false "u") "c1" 1000 "deep_research" empty_db eq_refl eq_refl eq_refl) as H.
  destruct (quota_claim _ _ _ _ _ _ _) as [r s'] eqn:E. destruct H as (d & -> & _).
  exists d. split; [done|]. by vm_compute in E; injection E as <- _.
Defined.
