(* ===== verification/Journal.v ===== *)
(** * Journal

    The canonical event journal of [processing/store.py]: [append_event] with its
    coercion, identity-based deduplication, relation bookkeeping and source-authority
    projection, and the payload canonicalisation the stored hashes are taken over. *)

From Stdlib Require Import ZArith Lia.
From S2P Require Import Prelude Tables Json Models Schema Outbox.

(** ** Payload canonicalisation *)

Definition VOLATILE_EVENT_PAYLOAD_KEYS : list string :=
  ["observedAt"; "observed_at_ms"; "ingestedAt"; "ingested_at_ms"; "ingestionAt";
   "ingestion_at_ms"; "receivedAt"; "received_at_ms"; "committedAt"; "committed_at_ms";
   "commit_ms"; "confirmed_ms"].

Definition TIMING_EVENT_PAYLOAD_KEYS : list string :=
  VOLATILE_EVENT_PAYLOAD_KEYS ++ ["occurred_ms"; "occurredAt"; "timestamp"; "ts"].

(** A timed group update: its observation time is not content. A [kind] that is a list or
    an object, on which the code's set test raises, counts as another kind here. *)
Definition timed_group_update (d : dict) : bool :=
  match dict_get "kind" d with
  | Some (JStr k) => str_in k ["group_subject"; "group_description"]
  | _ => false
  end
  && match dict_get "snapshot" d with Some (JBool false) => true | _ => false end
  && dict_has "occurredMs" d.

Definition volatile_key (timed : bool) (key : string) : bool :=
  str_in key VOLATILE_EVENT_PAYLOAD_KEYS || (timed && (key =?s "observedAtMs")).

(** [_canonical_event_value] *)
Fixpoint canonical_event_value (v : json) : json :=
  match v with
  | JArr l => JArr (map canonical_event_value l)
  | JObj d =>
      JObj (List.filter (λ p, negb (volatile_key (timed_group_update d) p.1))
              (order_by key_leb (map (λ p, (p.1, canonical_event_value p.2)) d)))
  | _ => v
  end.

(** Numbers as Python compares them: [True == 1 == 1.0]. *)
Definition py_num (v : json) : option (Z + string) :=
  match v with
  | JBool b => Some (inl (if b then 1 else 0))
  | JInt z => Some (inl z)
  | JFloat t => match py_int (before_dot t) with
                | Some z => if t =?s pretty z +:+ ".0" then Some (inl z) else Some (inr t)
                | None => Some (inr t)
                end
  | _ => None
  end.

Definition num_eqb (a b : Z + string) : bool :=
  match a, b with
  | inl x, inl y => x =? y
  | inr x, inr y => x =?s y
  | _, _ => false
  end.

(** [==] on decoded JSON: dicts as finite maps *)
Fixpoint py_eq (a b : json) {struct a} : bool :=
  match a, b with
  | JNull, JNull => true
  | JStr x, JStr y => x =?s y
  | JArr l, JArr m =>
      (fix go l m := match l, m with
                     | [], [] => true
                     | x :: l', y :: m' => py_eq x y && go l' m'
                     | _, _ => false
                     end) l m
  | JObj d, JObj e =>
      (length d =? length e)%nat
      && (fix go d := match d with
                      | [] => true
                      | (k, v) :: d' =>
                          match dict_get k e with
                          | Some w => py_eq v w
                          | None => false
                          end && go d'
                      end) d
  | _, _ => match py_num a, py_num b with
            | Some x, Some y => num_eqb x y
            | _, _ => false
            end
  end.

(** [_differs_only_in_timing] on two mappings *)
Definition strip_timing (d : dict) : dict :=
  map (λ p, (p.1, canonical_event_value p.2))
    (List.filter (λ p, negb (str_in p.1 TIMING_EVENT_PAYLOAD_KEYS)) d).

Definition differs_only_in_timing (stored incoming : dict) : bool :=
  py_eq (JObj (strip_timing stored)) (JObj (strip_timing incoming)).

(** ** Events *)

Definition EVENT_KINDS : list string :=
  ["message"; "edit"; "reaction"; "delete"; "receipt"; "membership_change";
   "membership_snapshot"; "group_subject"; "group_description"].

Definition CANONICAL_WHATSAPP_ORIGIN : string := "whatsapp_canonical".

Record CanonicalEvent := MkCanonicalEvent {
  ce_event_id : string;
  ce_event_key : string;
  ce_trace_id : string;
  ce_kind : string;
  ce_origin : string;
  ce_principal : string;
  ce_channel : string;
  ce_chat_id : string;
  ce_account : string;
  ce_direction : string;
  ce_revision : Z;
  ce_audience_ref : option string;
  ce_occurred_ms : option Z;
  ce_created_ms : option Z;
  ce_source_message_id : option string;
  ce_target_message_id : option string;
  ce_thread_id : option string;
  ce_turn_id : option string;
  ce_payload : option dict;
  ce_payload_hash : string;
}.

(** [CanonicalEvent.__post_init__] *)
Definition CanonicalEvent_check (e : CanonicalEvent) : result CanonicalEvent :=
  if negb (str_in (ce_kind e) EVENT_KINDS) then Raise (ValueError "unknown canonical event kind")
  else if negb (str_in (ce_direction e) ["in"; "out"])
  then Raise (ValueError "unknown canonical event direction")
  else if 1 <=? ce_revision e then Ok e
  else Raise (ValueError "revision must be a positive integer").

Definition event_payload (e : CanonicalEvent) : dict := default [] (ce_payload e).

(** [CanonicalEvent.relations]: declared references, first occurrences in order *)
Definition ref_of (relation : string) (o : option string) : list (string * string) :=
  match o with Some r => if str_true r then [(relation, r)] else [] | None => [] end.

Definition payload_ref (d : dict) (key relation : string) : list (string * string) :=
  match dict_get key d with
  | Some v => if truthy v then [(relation, py_str v)] else []
  | None => []
  end.

Fixpoint dedup_pairs (seen l : list (string * string)) : list (string * string) :=
  match l with
  | [] => []
  | x :: l' =>
      if existsb (λ y, (y.1 =?s x.1) && (y.2 =?s x.2)) seen then dedup_pairs seen l'
      else x :: dedup_pairs (x :: seen) l'
  end.

Definition relations (e : CanonicalEvent) : list (string * string) :=
  dedup_pairs []
    (ref_of "source" (ce_source_message_id e) ++ ref_of "target" (ce_target_message_id e)
     ++ payload_ref (event_payload e) "reply_to_event_id" "reply_to"
     ++ payload_ref (event_payload e) "parent_event_id" "parent"
     ++ payload_ref (event_payload e) "reply_to_message_id" "reply_to").

Section Journal.
  Context `{Sha256}.

(** [_event_payload_hash] *)
Definition event_payload_hash (d : dict) : string := canonical_hash (canonical_event_value (JObj d)).

(** What [append_event] accepts as payload. *)
Inductive event_arg :=
| TypedEvent (e : CanonicalEvent)
| EventMapping (d : dict).

Definition str_or (o : option json) (default : string) : string :=
  match o with
  | Some v => if truthy v then py_str v else default
  | None => default
  end.

(** [normalize_revision(v, default=1) or 1] *)
Definition revision_or_one (v : json) : result Z :=
  let! r := normalize_revision v (Some 1) in Ok (default 1 r).

Definition opt_rev (o : option Z) (other : json) : json :=
  match o with Some z => JInt z | None => other end.

(** [_coerce_event] *)
Definition coerce_event (event_key event_id trace_id : string) (payload : event_arg)
    (created_ms : Z) (account direction : option string) (revision : option Z)
    (audience_ref : option string) : result CanonicalEvent :=
  match payload with
  | TypedEvent p =>
      let body := event_payload p in
      let! rev := revision_or_one (opt_rev revision (JInt (ce_revision p))) in
      CanonicalEvent_check
        {| ce_event_id := event_id; ce_event_key := event_key; ce_trace_id := trace_id;
           ce_kind := ce_kind p; ce_origin := ce_origin p; ce_principal := ce_principal p;
           ce_channel := ce_channel p; ce_chat_id := ce_chat_id p;
           ce_account := default (ce_account p) account;
           ce_direction := default (ce_direction p) direction;
           ce_revision := rev;
           ce_audience_ref := match audience_ref with Some a => Some a | None => ce_audience_ref p end;
           ce_occurred_ms := ce_occurred_ms p; ce_created_ms := Some created_ms;
           ce_source_message_id := ce_source_message_id p;
           ce_target_message_id := ce_target_message_id p;
           ce_thread_id := ce_thread_id p; ce_turn_id := ce_turn_id p;
           ce_payload := Some body; ce_payload_hash := event_payload_hash body |}
  | EventMapping d =>
      let! normalized := revision_or_one (default JNull (dict_get "revision" d)) in
      let body := if dict_has "revision" d then dict_set "revision" (JInt normalized) d else d in
      let! rev := revision_or_one (opt_rev revision (default JNull (dict_get "revision" body))) in
      CanonicalEvent_check
        {| ce_event_id := event_id; ce_event_key := event_key; ce_trace_id := trace_id;
           ce_kind := str_or (dict_get "kind" body) "message";
           ce_origin := str_or (dict_get "origin" body) "unknown";
           ce_principal := str_or_empty (dict_get "principal" body);
           ce_channel := str_or_empty (dict_get "channel" body);
           ce_chat_id := str_or_empty (dict_get "chat_id" body);
           ce_account := match account with
                         | Some a => a
                         | None => str_or_empty (py_or (dict_get "account" body)
                                                   (dict_get "account_id" body))
                         end;
           ce_direction := match direction with
                           | Some x => x
                           | None => str_or (dict_get "direction" body) "in"
                           end;
           ce_revision := rev;
           ce_audience_ref := match audience_ref with
                              | Some a => Some a
                              | None => opt_str (py_or (dict_get "audience_ref" body)
                                                   (dict_get "audienceRef" body))
                              end;
           ce_occurred_ms := opt_int (py_or (dict_get "occurred_ms" body)
                                        (dict_get "timestamp_ms" body));
           ce_created_ms := Some created_ms;
           ce_source_message_id := opt_str (py_or (dict_get "source_message_id" body)
                                              (dict_get "message_id" body));
           ce_target_message_id := opt_str (dict_get "target_message_id" body);
           ce_thread_id := opt_str (dict_get "thread_id" body);
           ce_turn_id := opt_str (dict_get "turn_id" body);
           ce_payload := Some body; ce_payload_hash := event_payload_hash body |}
  end.

(** ** The append *)

(** [_ensure_event_source_authority_connection]: created once per (event, revision) *)
Definition ensure_authority (e : CanonicalEvent) (s : db) : db :=
  let created := default 0 (ce_created_ms e) in
  s <| event_source_authority ::=
         insert_or_ignore (λ r, (aut_event_id r =?s ce_event_id e) && (aut_revision r =? ce_revision e))
           (MkAuthority (ce_event_id e) (ce_revision e) (ce_principal e) (ce_channel e) (ce_chat_id e)
              (match ce_occurred_ms e with Some t => t | None => created end)
              "unknown" [] None None None None created created) |>.

(** [_ref_known] *)
Definition ref_known (ref_id : string) (s : db) : bool :=
  row_exists (λ e, (ev_event_id e =?s ref_id) || opt_str_eqb (ev_source_message_id e) (Some ref_id))
    (events s).

Definition record_relation (event_id : string) (created : Z) (s : db) (rel : string * string) : db :=
  s <| event_relations ::=
         insert_or_ignore (λ r, (rel_event_id r =?s event_id) && (rel_relation r =?s rel.1)
                                && (rel_ref_id r =?s rel.2))
           (MkRelation event_id rel.1 rel.2 (ref_known rel.2 s) created) |>.

(** The ids that become resolvable with an event. *)
Definition resolved_ids (e : CanonicalEvent) : list string :=
  List.filter str_true
    (ce_event_id e :: match ce_source_message_id e with Some m => [m] | None => [] end
                   ++ match ce_target_message_id e with Some m => [m] | None => [] end).

(** [_record_relations] *)
Definition record_relations (e : CanonicalEvent) (s : db) : db :=
  let s1 := foldl (record_relation (ce_event_id e) (default 0 (ce_created_ms e))) s (relations e) in
  s1 <| event_relations ::=
          update (λ r, negb (rel_resolved r) && str_in (rel_ref_id r) (resolved_ids e))
            (λ r, r <| rel_resolved := true |>) |>.

Definition same_metadata (row : event_row) (e : CanonicalEvent) : bool :=
  (ev_account row =?s ce_account e)
  && ((if str_true (ev_direction row) then ev_direction row else "in") =?s ce_direction e)
  && ((if ev_revision row =? 0 then 1 else ev_revision row) =? ce_revision e)
  && opt_str_eqb (ev_audience_ref row) (ce_audience_ref e).

(** The inserted row. *)
Definition event_row_of (e : CanonicalEvent) : event_row :=
  {| ev_event_id := ce_event_id e; ev_event_key := ce_event_key e; ev_trace_id := ce_trace_id e;
     ev_kind := ce_kind e; ev_origin := ce_origin e; ev_channel := ce_channel e;
     ev_chat_id := ce_chat_id e; ev_principal := ce_principal e; ev_account := ce_account e;
     ev_direction := ce_direction e; ev_revision := ce_revision e;
     ev_audience_ref := ce_audience_ref e; ev_source_message_id := ce_source_message_id e;
     ev_target_message_id := ce_target_message_id e; ev_thread_id := ce_thread_id e;
     ev_turn_id := ce_turn_id e; ev_occurred_ms := ce_occurred_ms e;
     ev_payload_hash := ce_payload_hash e; ev_payload_json := Some (event_payload e);
     ev_payload_purged_ms := None; ev_created_ms := default 0 (ce_created_ms e) |}.

(** [_append_event_connection] *)
Definition append_event_connection (e : CanonicalEvent) : txn db string := λ s,
  match by_id ev_event_key (ce_event_key e) (events s) with
  | Some row =>
      match ev_payload_json row with
      | None => Ok (ev_event_id row, ensure_authority e s)
      | Some stored =>
          if (event_payload_hash stored =?s ce_payload_hash e) && same_metadata row e
          then Ok (ev_event_id row, ensure_authority e s)
          else if same_metadata row e && differs_only_in_timing stored (event_payload e)
          then Ok (ev_event_id row, ensure_authority e s)
          else Raise (JournalConflictError "event_key already exists with different content")
      end
  | None =>
      if row_exists (has_id ev_event_id (ce_event_id e)) (events s)
      then Raise (JournalConflictError "event_id already belongs to another event_key")
      else let s1 := s <| events ::= insert_row (event_row_of e) |> in
           Ok (ce_event_id e, ensure_authority e (record_relations e s1))
  end.

(** [append_event] *)
Definition append_event (event_key event_id trace_id : string) (payload : event_arg) (now_ms : Z)
    (account direction : option string) (revision : option Z) (audience_ref : option string)
    : prog db string :=
  if negb (str_true event_key) then praise (ValueError "event_key is required")
  else match coerce_event event_key event_id trace_id payload now_ms account direction revision
               audience_ref with
       | Raise e => praise e
       | Ok e => write (append_event_connection e)
       end.

(** ** Facts *)

Lemma ensure_authority_frame e s :
  events (ensure_authority e s) = events s ∧ event_relations (ensure_authority e s) = event_relations s.
Proof. done. Qed.

Lemma record_relations_events e s : events (record_relations e s) = events s.
Proof.
  unfold record_relations. simpl. generalize (ce_event_id e) (default 0 (ce_created_ms e)).
  intros eid t. revert s. induction (relations e) as [|r l IH]; intros s; [done|]. simpl.
  by rewrite IH.
Qed.

Lemma append_frame e s id s' :
  append_event_connection e s = Ok (id, s') →
  events s' = events s ∨
  (by_id ev_event_key (ce_event_key e) (events s) = None ∧
   row_exists (has_id ev_event_id (ce_event_id e)) (events s) = false ∧
   events s' = insert_row (event_row_of e) (events s)).
Proof.
  unfold append_event_connection. destruct (by_id _ _ _) as [row|] eqn:Ek.
  - destruct (ev_payload_json row) as [d|].
    + destruct (_ && _); [by intros [= <- <-]; left|].
      destruct (_ && _); [by intros [= <- <-]; left|done].
    + by intros [= <- <-]; left.
  - destruct (row_exists _ _) eqn:Ex; [done|]. intros [= <- <-]. right.
    split; [done|]. split; [done|].
    by rewrite (proj1 (ensure_authority_frame e _)), record_relations_events.
Qed.

(** The event came out of [coerce_event]: its hash is its payload's, and it passed the
    dataclass checks. *)
Definition event_wf (e : CanonicalEvent) : Prop :=
  ce_payload_hash e = event_payload_hash (event_payload e) ∧
  (ce_direction e = "in" ∨ ce_direction e = "out") ∧ 1 ≤ ce_revision e.

Lemma CanonicalEvent_check_ok e e' :
  CanonicalEvent_check e = Ok e' →
  e' = e ∧ (ce_direction e = "in" ∨ ce_direction e = "out") ∧ 1 ≤ ce_revision e.
Proof.
  unfold CanonicalEvent_check. destruct (str_in (ce_kind e) _); [|done].
  destruct (str_in (ce_direction e) _) eqn:E; [|done]. cbn [negb].
  destruct (1 <=? ce_revision e) eqn:E2; [|done]. intros [= <-].
  apply str_in_spec in E. split; [done|]. split; [set_solver|lia].
Qed.

Lemma coerce_event_wf key id tr p now acc dir rev aud e :
  coerce_event key id tr p now acc dir rev aud = Ok e →
  event_wf e ∧ ce_event_key e = key ∧ ce_event_id e = id.
Proof.
  unfold coerce_event. destruct p as [p|d].
  - destruct (revision_or_one _) as [r|]; [|done]. cbn [rbind].
    intros (-> & ? & ?)%CanonicalEvent_check_ok. done.
  - destruct (revision_or_one _) as [r|]; [|done]. cbn [rbind].
    destruct (revision_or_one _) as [r'|]; [|done]. cbn [rbind].
    intros (-> & ? & ?)%CanonicalEvent_check_ok. done.
Qed.

Lemma same_metadata_self e : event_wf e → same_metadata (event_row_of e) e = true.
Proof.
  intros (_ & Hd & Hr). unfold same_metadata, event_row_of. simpl.
  rewrite str_eqb_refl, (proj2 (opt_str_eqb_eq _ _) eq_refl), (proj2 (Z.eqb_neq _ 0)), Z.eqb_refl by lia.
  by destruct Hd as [-> | ->].
Qed.

(** The same provider event, seen at another time. *)
Definition same_event (e e2 : CanonicalEvent) : Prop :=
  ce_event_key e2 = ce_event_key e ∧ ce_event_id e2 = ce_event_id e ∧
  ce_payload e2 = ce_payload e ∧ ce_payload_hash e2 = ce_payload_hash e ∧
  ce_account e2 = ce_account e ∧ ce_direction e2 = ce_direction e ∧
  ce_revision e2 = ce_revision e ∧ ce_audience_ref e2 = ce_audience_ref e.

Lemma ensure_authority_same e e2 s :
  same_event e e2 → ensure_authority e2 (ensure_authority e s) = ensure_authority e s.
Proof.
  intros (_ & Hid & _ & _ & _ & _ & Hrev & _). unfold ensure_authority. rewrite Hid, Hrev.
  simpl. f_equal. unfold insert_or_ignore.
  destruct (row_exists _ (event_source_authority s)) eqn:E; [by rewrite E|].
  assert (∀ r t (c : authority_row → bool), c r = true → row_exists c (insert_row r t) = true) as Hx.
  { intros r t c Hc. apply row_exists_spec. exists r. rewrite elem_of_insert_row. auto. }
  rewrite Hx; [done|]. simpl. by rewrite str_eqb_refl, Z.eqb_refl.
Qed.

Lemma same_metadata_same row e e2 : same_event e e2 → same_metadata row e2 = same_metadata row e.
Proof. intros (_ & _ & _ & _ & Ha & Hd & Hr & Hu). unfold same_metadata. by rewrite Ha, Hd, Hr, Hu. Qed.

Lemma append_again e e2 s id s' :
  event_wf e → same_event e e2 → append_event_connection e s = Ok (id, s') →
  append_event_connection e2 s' = Ok (id, s').
Proof.
  intros Hwf Hsame. unfold append_event_connection.
  pose proof Hsame as (-> & _ & Hpl & -> & _). unfold event_payload. rewrite Hpl.
  fold (event_payload e). destruct (by_id _ _ (events s)) as [row|] eqn:Ek.
  - assert (Ok (ev_event_id row, ensure_authority e s) = Ok (id, s') →
              by_id ev_event_key (ce_event_key e) (events s') = Some row ∧
              ensure_authority e2 s' = s' ∧ id = ev_event_id row) as Hgo.
    { intros [= <- <-]. rewrite ensure_authority_same by done. done. }
    destruct (ev_payload_json row) as [d|] eqn:Ep.
    + destruct (_ && same_metadata row e) eqn:E1; [|destruct (same_metadata row e && _) eqn:E2; [|done]];
        intros Heq; destruct (Hgo Heq) as (-> & Hs & ->);
        rewrite Ep, (same_metadata_same _ e e2), E1, ?E2, Hs by done; done.
    + intros Heq; destruct (Hgo Heq) as (-> & Hs & ->); rewrite Ep, Hs; done.
  - destruct (row_exists _ _) eqn:Ex; [done|]. intros Heq. injection Heq as <- Hs'.
    assert (by_id ev_event_key (ce_event_key e) (events s') = Some (event_row_of e)) as ->.
    { rewrite <- Hs', (proj1 (ensure_authority_frame e _)), record_relations_events. simpl.
      rewrite by_id_insert, Ek. simpl. by rewrite str_eqb_refl. }
    cbn [ev_payload_json event_row_of]. pose proof Hwf as (Hh & _ & _).
    rewrite <- Hh, str_eqb_refl, (same_metadata_same _ e e2), same_metadata_self by done. cbn [andb].
    by rewrite <- Hs', ensure_authority_same.
Qed.

(** Coercion at another time gives the same event. *)
Lemma coerce_event_time key id tr p now now2 acc dir rev aud e :
  coerce_event key id tr p now acc dir rev aud = Ok e →
  ∃ e2, coerce_event key id tr p now2 acc dir rev aud = Ok e2 ∧ same_event e e2.
Proof.
  unfold coerce_event, CanonicalEvent_check. destruct p as [p|d].
  - destruct (revision_or_one _) as [r|]; [|done]. cbn -[str_in str_or event_payload_hash].
    destruct (negb _); [done|]. destruct (negb _); [done|]. destruct (1 <=? _); [|done].
    intros [= <-]. eexists. split; [done|]. done.
  - destruct (revision_or_one _) as [r|]; [|done]. cbn [rbind].
    destruct (revision_or_one _) as [r'|]; [|done]. cbn -[str_in str_or event_payload_hash dict_set].
    destruct (negb _); [done|]. destruct (negb _); [done|]. destruct (1 <=? _); [|done].
    intros [= <-]. eexists. split; [done|]. done.
Qed.

(** ** The journal invariant *)

Record journal_inv (s : db) : Prop := MkJournalInv {
  jr_ids : unique_key ev_event_id (events s);
  jr_keys : unique_key ev_event_key (events s);
}.

Lemma journal_inv_empty : journal_inv empty_db.
Proof. split; apply unique_key_nil. Qed.

Lemma append_journal_inv e s id s' :
  append_event_connection e s = Ok (id, s') → journal_inv s → journal_inv s'.
Proof.
  intros [Heq|(Hk & Hx & Heq)]%append_frame [H1 H2]; split; rewrite Heq; try done.
  - apply unique_key_insert; [done|]. intros r Hr. rewrite row_exists_false in Hx.
    by apply str_eqb_neq, Hx.
  - apply unique_key_insert; [done|]. intros r Hr. by eapply by_id_None_inv.
Qed.

(** Every relation to a message the journal knows is marked resolved. *)
Definition relations_resolved (s : db) : Prop :=
  ∀ r, r ∈ event_relations s → ref_known (rel_ref_id r) s = true → rel_resolved r = true.

Lemma record_relation_resolved eid t s rel :
  relations_resolved s → relations_resolved (record_relation eid t s rel).
Proof.
  intros Hr r Hin Hk. unfold record_relation in Hin. simpl in Hin.
  apply elem_of_insert_or_ignore in Hin as [Hin| ->]; [by apply Hr|done].
Qed.

Lemma record_relation_events eid t s rel : events (record_relation eid t s rel) = events s.
Proof. done. Qed.

(** Relations of an event whose journal row is already in, given that relations to other
    messages were resolved. *)
Lemma record_relations_resolved e s :
  (∀ r, r ∈ event_relations s → ref_known (rel_ref_id r) s = true →
        rel_resolved r = true ∨ rel_ref_id r ∈ resolved_ids e) →
  relations_resolved (record_relations e s).
Proof.
  intros Hs. unfold record_relations. remember (foldl _ _ _) as s1 eqn:Es1.
  assert (events s1 = events s ∧
          ∀ r, r ∈ event_relations s1 → ref_known (rel_ref_id r) s = true →
               rel_resolved r = true ∨ rel_ref_id r ∈ resolved_ids e) as [He H1].
  { rewrite Es1. clear Es1 s1. generalize (ce_event_id e) (default 0 (ce_created_ms e)). intros eid t.
    revert s Hs. induction (relations e) as [|rel l IH]; intros s Hs; [done|]. simpl.
    destruct (IH (record_relation eid t s rel)) as [IH1 IH2]; [|by split].
    intros r Hin Hk. unfold record_relation in Hin. simpl in Hin.
    apply elem_of_insert_or_ignore in Hin as [Hin| ->]; [by apply Hs|by left]. }
  intros r (r0 & Hr0 & ->)%elem_of_update Hk. unfold ref_known in *. simpl in Hk. rewrite He in Hk.
  destruct (rel_resolved r0) eqn:Er; simpl; [done|].
  destruct (H1 r0 Hr0) as [Hx|Hx].
  - by destruct (str_in _ _).
  - congruence.
  - apply str_in_spec in Hx. by rewrite Hx.
Qed.

Lemma append_relations_resolved e s id s' :
  ce_event_id e ≠ "" → ce_source_message_id e ≠ Some "" →
  append_event_connection e s = Ok (id, s') → relations_resolved s → relations_resolved s'.
Proof.
  intros Hid Hsrc. unfold append_event_connection. destruct (by_id _ _ _) as [row|] eqn:Ek.
  - destruct (ev_payload_json row) as [d|].
    + destruct (_ && _); [by intros [= <- <-]|]. destruct (_ && _); [by intros [= <- <-]|done].
    + by intros [= <- <-].
  - destruct (row_exists _ _) eqn:Ex; [done|]. intros [= <- <-] Hr.
    apply (record_relations_resolved e). intros r Hin Hk. unfold ref_known in Hk. simpl in Hk, Hin.
    apply row_exists_spec in Hk as (x & [Hx| ->]%elem_of_insert_row & Hp).
    + left. apply Hr; [done|]. apply row_exists_spec. eauto.
    + right. unfold resolved_ids. apply list_elem_of_In, filter_In. simpl in Hp.
      apply orb_true_iff in Hp as [Hp%str_eqb_eq|Hp%opt_str_eqb_eq].
      * rewrite <- Hp. split; [by left|]. by apply str_true_spec.
      * rewrite Hp. split; [right; by left|]. apply str_true_spec. congruence.
Qed.

(** ** Canonicalisation *)

Lemma dict_get_filter k (p : string * json → bool) d :
  (∀ v, p (k, v) = true) → dict_get k (List.filter p d) = dict_get k d.
Proof.
  intros Hp. induction d as [|[k' v] d IH]; [done|]. simpl. destruct (k' =?s k) eqn:E.
  - apply str_eqb_eq in E as ->. rewrite Hp. simpl. by rewrite str_eqb_refl.
  - destruct (p (k', v)); simpl; rewrite ?E; done.
Qed.

Definition drop_volatile (d : dict) : dict :=
  List.filter (λ p, negb (str_in p.1 VOLATILE_EVENT_PAYLOAD_KEYS)) d.

Lemma filter_map_snd {A B} (p : string → bool) (f : A → B) (d : list (string * A)) :
  List.filter (λ x, p x.1) (map (λ x, (x.1, f x.2)) d) =
  map (λ x, (x.1, f x.2)) (List.filter (λ x, p x.1) d).
Proof. induction d as [|x d IH]; [done|]. simpl. destruct (p x.1); simpl; by rewrite IH. Qed.

Lemma key_leb_total {A} (x y : string * A) : key_leb x y = true ∨ key_leb y x = true.
Proof. apply String.leb_total. Qed.
Lemma key_leb_trans {A} (x y z : string * A) :
  key_leb x y = true → key_leb y z = true → key_leb x z = true.
Proof. apply string_leb_trans. Qed.

Lemma canonical_drop_volatile d :
  canonical_event_value (JObj (drop_volatile d)) = canonical_event_value (JObj d).
Proof.
  assert (timed_group_update (drop_volatile d) = timed_group_update d) as Ht.
  { unfold timed_group_update, dict_has, drop_volatile. by rewrite !dict_get_filter. }
  simpl. f_equal. rewrite Ht. set (tm := timed_group_update d). clearbody tm. unfold drop_volatile.
  rewrite <- (filter_map_snd (λ k, negb (str_in k VOLATILE_EVENT_PAYLOAD_KEYS))).
  set (d' := map _ d). rewrite (order_by_select key_leb (λ x, negb (str_in x.1 VOLATILE_EVENT_PAYLOAD_KEYS))
    key_leb_total key_leb_trans). fold (select (λ p : string * json, negb (volatile_key tm p.1))
      (select (λ x : string * json, negb (str_in x.1 VOLATILE_EVENT_PAYLOAD_KEYS)) (order_by key_leb d'))).
  rewrite select_select. unfold select. apply List.filter_ext. intros x. unfold volatile_key.
  by destruct (str_in x.1 VOLATILE_EVENT_PAYLOAD_KEYS).
Qed.

End Journal.

(** ** Theorems *)

Section Theorems.
  Context `{Sha256}.

(** The journal is idempotent. Once an event was accepted, appending it again, at any
    later time, returns the same stable id and changes nothing at all. *)
Theorem append_event_idempotent key id tr p now now2 acc dir rev aud s eid s' :
  append_event key id tr p now acc dir rev aud s = (Ok eid, s') →
  append_event key id tr p now2 acc dir rev aud s' = (Ok eid, s').
Proof.
  unfold append_event. destruct (negb (str_true key)); [done|].
  destruct (coerce_event _ _ _ _ now _ _ _ _) as [e|] eqn:Ec; [|done].
  destruct (coerce_event_time _ _ _ _ _ now2 _ _ _ _ _ Ec) as (e2 & -> & Hsame).
  destruct (coerce_event_wf _ _ _ _ _ _ _ _ _ _ Ec) as (Hwf & _ & _).
  unfold write. destruct (append_event_connection e s) as [[i s1]|] eqn:Ea; [|done].
  intros [= -> ->]. by rewrite (append_again e e2 s eid s').
Qed.

(** A known event key is decided without writing an event. The journal and its
    relations stay as they are; the stored id is returned when the payload was already
    purged, when content and metadata agree, or when only timing fields differ, and every
    other replay is a [JournalConflictError] that leaves the whole store unchanged. *)
Theorem append_known_key key id tr p now acc dir rev aud s row e :
  key ≠ "" → by_id ev_event_key key (events s) = Some row →
  coerce_event key id tr p now acc dir rev aud = Ok e →
  let (r, s') := append_event key id tr p now acc dir rev aud s in
  events s' = events s ∧ event_relations s' = event_relations s ∧
  if match ev_payload_json row with
     | None => true
     | Some d => same_metadata row e
                 && ((event_payload_hash d =?s event_payload_hash (event_payload e))
                     || differs_only_in_timing d (event_payload e))
     end
  then r = Ok (ev_event_id row)
  else r = Raise (JournalConflictError "event_key already exists with different content") ∧ s' = s.
Proof.
  intros Hk Hrow Hc. unfold append_event. apply str_true_spec in Hk as ->. cbn [negb].
  rewrite Hc. destruct (coerce_event_wf _ _ _ _ _ _ _ _ _ _ Hc) as ((Hh & _) & Hkey & _).
  unfold write, append_event_connection. rewrite Hkey, Hrow, Hh.
  destruct (ev_payload_json row) as [d|]; [|done].
  destruct (same_metadata row e); cbn [andb].
  - rewrite andb_true_r. destruct (_ =?s _); cbn [orb]; [done|].
    by destruct (differs_only_in_timing _ _).
  - by rewrite andb_false_r.
Qed.

(** The journal only grows. Whatever an append returns, every journaled event is still
    there, unchanged and in place, at most one event is added at the end, and event ids
    and event keys stay unique. *)
Theorem append_only key id tr p now acc dir rev aud s :
  journal_inv s →
  let (r, s') := append_event key id tr p now acc dir rev aud s in
  journal_inv s' ∧
  (events s' = events s ∨
   ∃ row, events s' = events s ++ [row] ∧ r = Ok (ev_event_id row) ∧ ev_event_key row = key).
Proof.
  intros Hi. unfold append_event. destruct (negb _); [split; [done|by left]|].
  destruct (coerce_event _ _ _ _ _ _ _ _ _) as [e|] eqn:Ec; [|split; [done|by left]].
  destruct (coerce_event_wf _ _ _ _ _ _ _ _ _ _ Ec) as (_ & Hk & _).
  unfold write. destruct (append_event_connection e s) as [[i s']|] eqn:Ea; [|split; [done|by left]].
  split; [by eapply append_journal_inv|].
  pose proof Ea as Ha. apply append_frame in Ha as [Ha|(Hn & Hx & Ha)]; [by left|].
  right. exists (event_row_of e). split; [done|]. split; [|done].
  unfold append_event_connection in Ea. rewrite Hn, Hx in Ea. injection Ea as <- _. done.
Qed.

(** Observation times are not content. Two payloads that agree after removing the
    volatile observation keys have the same event hash. *)
Theorem hash_ignores_volatile d1 d2 :
  drop_volatile d1 = drop_volatile d2 → event_payload_hash d1 = event_payload_hash d2.
Proof.
  intros Hd. unfold event_payload_hash.
  by rewrite <- (canonical_drop_volatile d1), <- (canonical_drop_volatile d2), Hd.
Qed.

(** Late resolution is complete. Appending an event keeps every relation to a
    journaled message marked resolved, including relations recorded before the message
    they refer to arrived. *)
Theorem relations_stay_resolved key id tr p now acc dir rev aud s e :
  relations_resolved s → coerce_event key id tr p now acc dir rev aud = Ok e →
  id ≠ "" → ce_source_message_id e ≠ Some "" →
  relations_resolved (append_event key id tr p now acc dir rev aud s).2.
Proof.
  intros Hr Hc Hid Hsrc. unfold append_event. destruct (negb _); [done|]. rewrite Hc.
  destruct (coerce_event_wf _ _ _ _ _ _ _ _ _ _ Hc) as (_ & _ & Hi).
  unfold write. destruct (append_event_connection e s) as [[i s']|] eqn:Ea; [|done].
  eapply append_relations_resolved; [|done|done|done]. congruence.
Qed.

End Theorems.

(** A message and a reaction to a message the journal has never seen. *)
Definition hello : event_arg :=
  EventMapping [("kind", JStr "message"); ("channel", JStr "whatsapp"); ("chat_id", JStr "c");
                ("message_id", JStr "m1"); ("text", JStr "hello"); ("observedAt", JInt 5)].
Definition hello_later : event_arg :=
  EventMapping [("kind", JStr "message"); ("channel", JStr "whatsapp"); ("chat_id", JStr "c");
                ("message_id", JStr "m1"); ("text", JStr "hello"); ("observedAt", JInt 9)].
Definition stray_reaction : event_arg :=
  EventMapping [("kind", JStr "reaction"); ("target_message_id", JStr "m9")].

Definition after_hello : db :=
  (@append_event plain_sha256 "k1" "e1" "t" hello 100 None None None None empty_db).2.

Lemma append_event_idempotent_witness :
  @append_event plain_sha256 "k1" "e1" "t" hello 900 None None None None after_hello
    = (Ok "e1", after_hello).
Proof.
  apply (@append_event_idempotent plain_sha256 "k1" "e1" "t" hello 100 900 None None None None empty_db).
  by vm_compute.
Defined.

Lemma append_known_key_witness :
  (@append_event plain_sha256 "k1" "e1" "t" hello_later 900 None None None None after_hello).1 = Ok "e1" ∧
  events (@append_event plain_sha256 "k1" "e1" "t" hello_later 900 None None None None after_hello).2
    = events after_hello.
Proof.
  split; [by vm_compute|].
  destruct (by_id ev_event_key "k1" (events after_hello)) as [row|] eqn:Er; [|done].
  destruct (@coerce_event plain_sha256 "k1" "e1" "t" hello_later 900 None None None None) as [e|] eqn:Ec;
    [|done].
  pose proof (@append_known_key plain_sha256 "k1" "e1" "t" hello_later 900 None None None None
                after_hello row e ltac:(done) Er Ec) as Hw.
  destruct (append_event _ _ _ _ _ _ _ _ _ _) as [r s']. apply Hw.
Defined.

Lemma append_only_witness : journal_inv after_hello.
Proof.
  pose proof (@append_only plain_sha256 "k1" "e1" "t" hello 100 None None None None empty_db
                journal_inv_empty) as Hw.
  unfold after_hello. destruct (append_event _ _ _ _ _ _ _ _ _ _) as [r s']. apply Hw.
Defined.

Lemma hash_ignores_volatile_witness :
  @event_payload_hash plain_sha256 [("text", JStr "hi"); ("observedAt", JInt 1)]
  = @event_payload_hash plain_sha256 [("receivedAt", JInt 7); ("text", JStr "hi")].
Proof. apply (@hash_ignores_volatile plain_sha256). by vm_compute. Defined.

Lemma relations_stay_resolved_witness : relations_resolved after_hello.
Proof.
  destruct (@coerce_event plain_sha256 "k1" "e1" "t" hello 100 None None None None) as [e|] eqn:Ec;
    [|done].
  apply (@relations_stay_resolved plain_sha256 "k1" "e1" "t" hello 100 None None None None empty_db e);
    [|done|done|].
  - intros r Hr. by apply not_elem_of_nil in Hr.
  - vm_compute in Ec. by injection Ec as <-.
Defined.

(** The target relation of an event is marked resolved although the journal does not
    know the target: a reaction to an unseen message "m9" leaves the relation to "m9" with
    [resolved = 1], while no journaled event has that id. *)
Theorem unknown_target_marked_resolved :
  let s := (@append_event plain_sha256 "k2" "e2" "t" stray_reaction 100 None None None None empty_db).2 in
  event_relations s = [MkRelation "e2" "target" "m9" true 100] ∧ ref_known "m9" s = false.
Proof. by vm_compute. Qed.

(** A replay of a known event key under another event id is accepted with the stored
    id, and leaves a source-authority row for the id that was never journaled. *)
Theorem replay_orphans_authority :
  let r := @append_event plain_sha256 "k1" "other" "t" hello 900 None None None None after_hello in
  r.1 = Ok "e1" ∧ row_exists (has_id ev_event_id "other") (events r.2) = false ∧
  row_exists (has_id aut_event_id "other") (event_source_authority r.2) = true.
Proof. by vm_compute. Qed.
