(* ===== verification/Receipts.v ===== *)
(** * Receipts

    Transport receipts and reconciliation probes of [processing/store.py]:
    [record_transport_receipt] with the canonical outgoing WhatsApp event it journals, the
    receipt reads, and the lease-protected probe plan. *)

From Stdlib Require Import ZArith Lia.
From S2P Require Import Prelude Tables Json Models Schema Outbox Fixtures Journal.

Section Definitions.
  Context `{Sha256}.

Definition json_opt (o : option string) : json :=
  match o with Some s => JStr s | None => JNull end.

(** [receipt_id]: WhatsApp receipts are identified without the confirmation time. *)
Definition receipt_id_for (effect_id channel chat_id : string)
    (provider_message_id client_message_id : option string) (now_ms : Z) : string :=
  "rc_" +:+ hash_prefix 20
    (JArr (if channel =?s "whatsapp"
           then [JStr effect_id; JStr channel; JStr chat_id; json_opt provider_message_id;
                 json_opt client_message_id]
           else [JStr effect_id; json_opt provider_message_id; json_opt client_message_id;
                 JInt now_ms])).

(** [body[key] = effect_payload[key]] for the keys present *)
Definition copy_keys (keys : list string) (src body : dict) : dict :=
  foldl (λ body key, match dict_get key src with Some v => dict_set key v body | None => body end)
    body keys.

(** The canonical outgoing event of a confirmed WhatsApp send. *)
Definition out_event_key (chat_id effect_id : string) : string :=
  "whatsapp:" +:+ chat_id +:+ ":out:" +:+ effect_id.

Definition out_event (row : effect_row) (effect_id channel chat_id : string) (now_ms : Z)
    (attempt_id provider_message_id client_message_id : option string) : result CanonicalEvent :=
  let event_key := out_event_key chat_id effect_id in
  let effect_payload := default [] (eff_payload_json row) in
  let body := copy_keys ["text"; "caption"; "media"; "message_id"; "reply_to"] effect_payload
    [("kind", JStr "message"); ("origin", JStr CANONICAL_WHATSAPP_ORIGIN);
     ("channel", JStr channel); ("chat_id", JStr chat_id); ("direction", JStr "out");
     ("effect_id", JStr effect_id); ("attempt_id", json_opt attempt_id);
     ("provider_message_id", json_opt provider_message_id);
     ("client_message_id", json_opt client_message_id); ("confirmed_ms", JInt now_ms);
     ("effect_payload", JObj effect_payload)] in
  CanonicalEvent_check
    {| ce_event_id := "out_" +:+ hash_prefix 32 (JStr event_key);
       ce_event_key := event_key;
       ce_trace_id := if str_true (eff_trace_id row) then eff_trace_id row
                      else "effect:" +:+ effect_id;
       ce_kind := "message"; ce_origin := CANONICAL_WHATSAPP_ORIGIN;
       ce_principal := eff_principal row; ce_channel := channel; ce_chat_id := chat_id;
       ce_account := ""; ce_direction := "out"; ce_revision := 1; ce_audience_ref := None;
       ce_occurred_ms := None; ce_created_ms := Some now_ms;
       ce_source_message_id := provider_message_id; ce_target_message_id := None;
       ce_thread_id := None; ce_turn_id := None;
       ce_payload := Some body; ce_payload_hash := event_payload_hash body |}.

(** [record_transport_receipt] *)
Definition record_transport_receipt (effect_id channel chat_id : string) (now_ms : Z)
    (attempt_id provider_message_id client_message_id detail : option string) : prog db string :=
  λ s, match get_effect effect_id s with
  | Raise e => (Raise e, s)
  | Ok None => (Raise (ProcessingError "unknown effect"), s)
  | Ok (Some _) =>
  let receipt_id := receipt_id_for effect_id channel chat_id provider_message_id
                      client_message_id now_ms in
  write (λ s,
    match effect_row_of effect_id s with
    | None => Raise (ProcessingError "unknown effect")
    | Some row =>
    let s1 := s <| transport_receipts ::=
                     insert_or_ignore (has_id rc_receipt_id receipt_id)
                       (MkReceipt receipt_id effect_id attempt_id channel chat_id
                          provider_message_id client_message_id now_ms detail) |> in
    if (channel =?s "whatsapp")
       && negb (row_exists (has_id ev_event_key (out_event_key chat_id effect_id)) (events s1))
    then let! e := out_event row effect_id channel chat_id now_ms attempt_id provider_message_id
                     client_message_id in
         let! r := append_event_connection e s1 in
         Ok (receipt_id, r.2)
    else Ok (receipt_id, s1)
    end) s
  end.

(** [_transport_receipt_from_row] *)
Definition transport_receipt_from_row (r : receipt_row) : TransportReceipt :=
  {| rcp_channel := rc_channel r; rcp_chat_id := rc_chat_id r;
     rcp_provider_message_id := rc_provider_message_id r; rcp_confirmed_ms := rc_confirmed_ms r;
     rcp_attempt_id := rc_attempt_id r; rcp_client_message_id := rc_client_message_id r;
     rcp_receipt_id := Some (rc_receipt_id r); rcp_detail := rc_detail r |}.

(** [transport_receipts] *)
Definition receipts_of (effect_id : string) (s : db) : list TransportReceipt :=
  map transport_receipt_from_row
    (order_by (λ a b, time_id_leb (rc_confirmed_ms a, rc_receipt_id a) (rc_confirmed_ms b, rc_receipt_id b))
       (select (λ r, rc_effect_id r =?s effect_id) (transport_receipts s))).

(** [effect_transport_receipt]: the newest *)
Definition effect_transport_receipt (effect_id : string) (s : db) : option TransportReceipt :=
  last (receipts_of effect_id s).

(** ** Probes *)

Definition probe_id_for (effect_id : string) (attempt_number : Z) : string :=
  "pb_" +:+ hash_prefix 20 (JArr [JStr effect_id; JInt attempt_number]).

(** [schedule_probe]: idempotent per (effect, attempt number) *)
Definition schedule_probe (effect_id : string) (attempt_number due_ms now_ms : Z) : prog db string :=
  if attempt_number <? 1 then praise (ValueError "attempt_number must be positive") else
  λ s, match get_effect effect_id s with
  | Raise e => (Raise e, s)
  | Ok None => (Raise (ProcessingError "unknown effect"), s)
  | Ok (Some _) =>
  let probe_id := probe_id_for effect_id attempt_number in
  write (λ s, Ok (probe_id, s <| reconciliation_probes ::=
    insert_or_ignore (λ p, has_id pb_probe_id probe_id p
                           || ((pb_effect_id p =?s effect_id) && (pb_attempt_number p =? attempt_number)))
      (MkProbe probe_id effect_id attempt_number due_ms None None None None None None now_ms) |>)) s
  end.

Definition get_probe (probe_id : string) (s : db) : option probe_row :=
  by_id pb_probe_id probe_id (reconciliation_probes s).

(** [outcome IS NULL AND (lease_until_ms IS NULL OR lease_until_ms <= ? OR lease_owner = ?)] *)
Definition claimable_probe (worker_id : string) (now_ms : Z) (p : probe_row) : bool :=
  is_none (pb_outcome p)
  && (match pb_lease_until_ms p with None => true | Some t => t <=? now_ms end
      || opt_str_eqb (pb_lease_owner p) (Some worker_id)).

(** [claim_probe] *)
Definition claim_probe (probe_id worker_id : string) (now_ms lease_ms : Z) : prog db bool :=
  if negb (str_true worker_id) then praise (ValueError "worker_id is required")
  else if lease_ms <=? 0 then praise (ValueError "lease_ms must be positive")
  else write (λ s,
    let p := λ r, has_id pb_probe_id probe_id r && claimable_probe worker_id now_ms r in
    Ok ((rowcount p (reconciliation_probes s) =? 1)%nat,
        s <| reconciliation_probes ::= update p (λ r,
               r <| pb_lease_owner := Some worker_id |> <| pb_lease_until_ms := Some (now_ms + lease_ms) |>
                 <| pb_started_ms := Some now_ms |>) |>)).

(** [outcome IS NULL AND lease_owner = ?] *)
Definition finishable_probe (worker_id : string) (p : probe_row) : bool :=
  is_none (pb_outcome p) && opt_str_eqb (pb_lease_owner p) (Some worker_id).

(** [finish_probe]: only the current leaseholder *)
Definition finish_probe (probe_id outcome : string) (now_ms : Z) (worker_id : string)
    (detail : option string) : prog db bool :=
  write (λ s,
    let p := λ r, has_id pb_probe_id probe_id r && finishable_probe worker_id r in
    Ok ((rowcount p (reconciliation_probes s) =? 1)%nat,
        s <| reconciliation_probes ::= update p (λ r,
               r <| pb_outcome := Some outcome |> <| pb_evidence_detail := detail |>
                 <| pb_finished_ms := Some now_ms |> <| pb_lease_owner := None |>
                 <| pb_lease_until_ms := None |>) |>)).

(** [due_probes] *)
Definition due_probes (now_ms limit : Z) (s : db) : list probe_row :=
  take (Z.to_nat (Z.max 1 limit))
    (order_by (λ a b, time_id_leb (pb_due_ms a, pb_probe_id a) (pb_due_ms b, pb_probe_id b))
       (select (λ p, is_none (pb_outcome p) && (pb_due_ms p <=? now_ms)
                     && match pb_lease_until_ms p with None => true | Some t => t <=? now_ms end)
          (reconciliation_probes s))).

(** [open_probe]: the highest unfinished attempt *)
Definition open_probe (effect_id : string) (s : db) : option probe_row :=
  head (order_by (λ a b, pb_attempt_number b <=? pb_attempt_number a)
          (select (λ p, (pb_effect_id p =?s effect_id) && is_none (pb_outcome p))
             (reconciliation_probes s))).

(** [next_probe_number]: [int(MAX(attempt_number) or 0) + 1]; numbers are positive *)
Definition next_probe_number (effect_id : string) (s : db) : Z :=
  foldr Z.max 0 (map pb_attempt_number
                   (select (λ p, pb_effect_id p =?s effect_id) (reconciliation_probes s))) + 1.

(** [count_probes] *)
Definition count_probes (effect_id : string) (outcome : option string) (s : db) : nat :=
  rowcount (λ p, (pb_effect_id p =?s effect_id)
                 && match outcome with
                    | Some o => opt_str_eqb (pb_outcome p) (Some o)
                    | None => true
                    end) (reconciliation_probes s).

(** [delivery_signals]: receipt and reaction events that target one provider message *)
Definition delivery_signals (channel chat_id message_id : string) (limit : Z) (s : db)
    : list event_row :=
  if negb (str_true channel) || negb (str_true chat_id) || negb (str_true message_id) then []
  else take (Z.to_nat (Z.max 1 limit))
    (order_by (λ a b, time_id_leb (ev_created_ms a, ev_event_id a) (ev_created_ms b, ev_event_id b))
       (select (λ e, (ev_channel e =?s channel) && (ev_chat_id e =?s chat_id)
                     && opt_str_eqb (ev_target_message_id e) (Some message_id)
                     && str_in (ev_kind e) ["receipt"; "reaction"]) (events s))).

(** ** Facts *)

Definition probe_key (p : probe_row) : string * Z := (pb_effect_id p, pb_attempt_number p).

(** PRIMARY KEY [probe_id], UNIQUE (effect, attempt). *)
Record probes_inv (s : db) : Prop := MkProbesInv {
  pr_ids : unique_key pb_probe_id (reconciliation_probes s);
  pr_keys : unique_key probe_key (reconciliation_probes s);
}.

(** The unexpired leaseholder of an unfinished probe. *)
Definition probe_held (probe_id worker_id : string) (now_ms : Z) (s : db) : Prop :=
  ∃ p t, get_probe probe_id s = Some p ∧ pb_outcome p = None ∧
         pb_lease_owner p = Some worker_id ∧ pb_lease_until_ms p = Some t ∧ now_ms < t.

Lemma claim_probe_won probe_id w now lease s s' :
  unique_key pb_probe_id (reconciliation_probes s) →
  claim_probe probe_id w now lease s = (Ok true, s') →
  0 < lease ∧ ∃ p, get_probe probe_id s = Some p ∧ pb_outcome p = None ∧
       get_probe probe_id s' = Some (p <| pb_lease_owner := Some w |>
         <| pb_lease_until_ms := Some (now + lease) |> <| pb_started_ms := Some now |>).
Proof.
  intros Hu. unfold claim_probe. destruct (negb _); [done|]. destruct (lease <=? 0) eqn:El; [done|].
  unfold write. intros Hw. injection Hw as Hc <-.
  rewrite (rowcount_by_id pb_probe_id probe_id (claimable_probe w now)) in Hc by done.
  split; [lia|]. unfold get_probe. cbn [reconciliation_probes set_field].
  destruct (by_id pb_probe_id probe_id (reconciliation_probes s)) as [p|] eqn:Ep; [|done].
  destruct (claimable_probe w now p) eqn:Ecl; [|done].
  exists p. split; [done|].
  unfold claimable_probe in Ecl. destruct (pb_outcome p) eqn:Eo; [done|]. split; [done|].
  rewrite by_id_update by done. rewrite Ep. cbn [fmap option_fmap option_map].
  apply by_id_Some_inv in Ep as [_ Hid]. unfold has_id. rewrite Hid, str_eqb_refl.
  unfold claimable_probe. rewrite Eo. cbn [is_none andb] in *. by rewrite Ecl.
Qed.

Lemma claim_probe_refused probe_id w w2 now lease s :
  unique_key pb_probe_id (reconciliation_probes s) →
  probe_held probe_id w now s → w2 ≠ w → w2 ≠ "" → 0 < lease →
  (claim_probe probe_id w2 now lease s).1 = Ok false ∧
  reconciliation_probes (claim_probe probe_id w2 now lease s).2 = reconciliation_probes s.
Proof.
  intros Hu (p & t & Hp & Ho & Hw & Ht & Hlt) Hne Hw2%str_true_spec Hl.
  unfold claim_probe. rewrite Hw2, (proj2 (Z.leb_gt lease 0)) by lia. cbn [negb].
  unfold write. cbn [fst snd reconciliation_probes set_field].
  assert (claimable_probe w2 now p = false) as Hno.
  { unfold claimable_probe. rewrite Ho, Ht, Hw. cbn [is_none andb].
    rewrite (proj2 (Z.leb_gt t now)) by lia. cbn [orb]. apply str_eqb_neq. congruence. }
  rewrite (rowcount_by_id pb_probe_id probe_id (claimable_probe w2 now)) by done.
  unfold get_probe in Hp. rewrite Hp, Hno. split; [done|]. apply update_none.
  intros r Hr. destruct (has_id pb_probe_id probe_id r) eqn:Eid; [|done].
  apply str_eqb_eq in Eid. replace r with p; [done|].
  apply by_id_Some_inv in Hp as [Hpin Hpid]. apply (unique_key_inj _ _ _ _ Hu Hpin Hr). congruence.
Qed.

Lemma finish_probe_other probe_id w2 out now detail s p :
  unique_key pb_probe_id (reconciliation_probes s) →
  get_probe probe_id s = Some p → pb_lease_owner p ≠ Some w2 →
  (finish_probe probe_id out now w2 detail s).1 = Ok false ∧
  reconciliation_probes (finish_probe probe_id out now w2 detail s).2 = reconciliation_probes s.
Proof.
  intros Hu Hp Hne. unfold finish_probe, write. cbn [fst snd reconciliation_probes set_field].
  assert (finishable_probe w2 p = false) as Hno.
  { unfold finishable_probe. apply andb_false_iff. right. apply not_true_iff_false.
    by rewrite opt_str_eqb_eq. }
  rewrite (rowcount_by_id pb_probe_id probe_id (finishable_probe w2)) by done.
  unfold get_probe in Hp. rewrite Hp, Hno. split; [done|]. apply update_none.
  intros r Hr. destruct (has_id pb_probe_id probe_id r) eqn:Eid; [|done].
  apply str_eqb_eq in Eid. replace r with p; [done|].
  apply by_id_Some_inv in Hp as [Hpin Hpid]. apply (unique_key_inj _ _ _ _ Hu Hpin Hr). congruence.
Qed.

Lemma append_conn_outbox e s id s' :
  append_event_connection e s = Ok (id, s') →
  effects s' = effects s ∧ effect_attempts s' = effect_attempts s ∧
  transport_receipts s' = transport_receipts s ∧
  row_exists (has_id ev_event_key (ce_event_key e)) (events s') = true.
Proof.
  unfold append_event_connection. destruct (by_id _ _ _) as [row|] eqn:Ek.
  - assert (row_exists (has_id ev_event_key (ce_event_key e)) (events s) = true) as Hx
      by (rewrite fetchone_row_exists; unfold by_id in Ek; by rewrite Ek).
    destruct (ev_payload_json row) as [d|].
    + destruct (_ && _); [by intros [= <- <-]|]. destruct (_ && _); [by intros [= <- <-]|done].
    + by intros [= <- <-].
  - destruct (row_exists _ _); [done|]. intros Hw. injection Hw as <- <-.
    assert (∀ s, effects (record_relations e s) = effects s ∧
                 effect_attempts (record_relations e s) = effect_attempts s ∧
                 transport_receipts (record_relations e s) = transport_receipts s) as Hf.
    { intros s1. unfold record_relations. simpl.
      generalize (ce_event_id e) (default 0 (ce_created_ms e)). intros i t. revert s1.
      induction (relations e) as [|r l IH]; intros s1; [done|]. simpl.
      by destruct (IH (record_relation i t s1 r)) as (-> & -> & ->). }
    unfold ensure_authority. cbn [effects effect_attempts transport_receipts events set_field].
    match goal with |- context [record_relations e ?x] => destruct (Hf x) as (-> & -> & ->) end.
    rewrite record_relations_events. repeat split. apply row_exists_spec.
    exists (event_row_of e). split; [apply elem_of_insert_row; by right|]. apply str_eqb_refl.
Qed.

(** What a recorded receipt leaves behind. *)
Lemma record_receipt_cases eff ch chat now att prov client detail s :
  (∃ err, record_transport_receipt eff ch chat now att prov client detail s = (Raise err, s)) ∨
  (∃ s', record_transport_receipt eff ch chat now att prov client detail s =
           (Ok (receipt_id_for eff ch chat prov client now), s') ∧
         effects s' = effects s ∧ effect_attempts s' = effect_attempts s ∧
         (∃ e, get_effect eff s = Ok (Some e)) ∧
         transport_receipts s' =
           insert_or_ignore (has_id rc_receipt_id (receipt_id_for eff ch chat prov client now))
             (MkReceipt (receipt_id_for eff ch chat prov client now) eff att ch chat prov client now
                detail) (transport_receipts s) ∧
         (ch = "whatsapp" →
            row_exists (has_id ev_event_key (out_event_key chat eff)) (events s') = true)).
Proof.
  unfold record_transport_receipt. destruct (get_effect eff s) as [[se|]|err] eqn:Eg; [|by eauto..].
  unfold write. destruct (effect_row_of eff s) as [row|] eqn:Er; [|by eauto].
  set (s1 := s <| transport_receipts ::=
    insert_or_ignore (has_id rc_receipt_id (receipt_id_for eff ch chat prov client now))
      (MkReceipt (receipt_id_for eff ch chat prov client now) eff att ch chat prov client now detail) |>).
  cbv zeta.
  destruct ((ch =?s "whatsapp") && _) eqn:Ew.
  - destruct (out_event _ _ _ _ _ _ _ _) as [e|err] eqn:Eo; cbn [rbind]; [|by eauto].
    destruct (append_event_connection e s1) as [[i s2]|err] eqn:Ea; cbn [rbind]; [|by eauto].
    right. exists s2. apply append_conn_outbox in Ea as (-> & -> & -> & Hx).
    repeat split; [by eauto|]. intros _.
    apply CanonicalEvent_check_ok in Eo as (-> & _). done.
  - right. exists s1. repeat split; [by eauto|]. intros ->. rewrite str_eqb_refl in Ew.
    by apply negb_false_iff in Ew.
Qed.

(** ** Theorems *)

(** A probe lease is exclusive. While the lease of the worker that claimed a probe
    runs, no other worker can claim the probe, take its lease over or finish it. *)
Theorem probe_lease_exclusive probe_id w w2 now now2 lease lease2 out detail s s' :
  unique_key pb_probe_id (reconciliation_probes s) →
  claim_probe probe_id w now lease s = (Ok true, s') →
  now2 < now + lease → w2 ≠ w → w2 ≠ "" → 0 < lease2 →
  (claim_probe probe_id w2 now2 lease2 s').1 = Ok false ∧
  reconciliation_probes (claim_probe probe_id w2 now2 lease2 s').2 = reconciliation_probes s' ∧
  (finish_probe probe_id out now2 w2 detail s').1 = Ok false ∧
  reconciliation_probes (finish_probe probe_id out now2 w2 detail s').2 = reconciliation_probes s'.
Proof.
  intros Hu Hc Hlt Hne Hw2 Hl. destruct (claim_probe_won _ _ _ _ _ _ Hu Hc) as (_ & p & Hp & Ho & Hp').
  assert (unique_key pb_probe_id (reconciliation_probes s')) as Hu'.
  { unfold claim_probe in Hc. destruct (negb _); [done|]. destruct (_ <=? _); [done|].
    unfold write in Hc. injection Hc as _ <-. by apply unique_key_update. }
  destruct (claim_probe_refused probe_id w w2 now2 lease2 s') as [H1 H2]; try done.
  { eexists _, (now + lease). split; [exact Hp'|]. done. }
  destruct (finish_probe_other probe_id w2 out now2 detail s' _ Hu' Hp') as [H3 H4]; [|done].
  simpl. congruence.
Qed.

(** A confirmed WhatsApp send is recorded once. Reporting the same provider and client
    message ids for the effect again, at any later time, returns the same receipt id and
    changes nothing: neither a second receipt nor a second outgoing journal event. *)
Theorem whatsapp_receipt_idempotent eff chat now now2 att att2 prov client detail detail2 s rid s' :
  record_transport_receipt eff "whatsapp" chat now att prov client detail s = (Ok rid, s') →
  record_transport_receipt eff "whatsapp" chat now2 att2 prov client detail2 s' = (Ok rid, s').
Proof.
  destruct (record_receipt_cases eff "whatsapp" chat now att prov client detail s)
    as [(err & ->)|(s1 & -> & He & _ & (se & Hg) & Hr & Hx)]; [done|].
  intros Hw. injection Hw as <- <-. specialize (Hx eq_refl).
  assert (receipt_id_for eff "whatsapp" chat prov client now2 =
          receipt_id_for eff "whatsapp" chat prov client now) as Hid by done.
  unfold record_transport_receipt. rewrite Hid. set (rid := receipt_id_for _ _ _ _ _ _) in *.
  assert (get_effect eff s1 = Ok (Some se)) as ->.
  { rewrite <- Hg. unfold get_effect, effect_row_of. by rewrite He. }
  unfold write. unfold get_effect in Hg. unfold effect_row_of at 1. rewrite He.
  fold (effect_row_of eff s). destruct (effect_row_of eff s) as [row|]; [|done].
  cbn [events set_field]. rewrite Hx. cbn [negb andb]. rewrite andb_false_r. f_equal.
  assert (insert_or_ignore (has_id rc_receipt_id rid)
            (MkReceipt rid eff att2 "whatsapp" chat prov client now2 detail2) (transport_receipts s1)
          = transport_receipts s1) as Hsame.
  { rewrite Hr. set (x := MkReceipt _ _ _ _ _ _ _ now2 _). unfold insert_or_ignore at 2.
    destruct (row_exists _ (transport_receipts s)) eqn:E; unfold insert_or_ignore; [by rewrite E|].
    assert (row_exists (has_id rc_receipt_id rid)
              (insert_row (MkReceipt rid eff att "whatsapp" chat prov client now detail)
                 (transport_receipts s)) = true) as Hy.
    { apply row_exists_spec. eexists. split; [apply elem_of_insert_row; by right|]. apply str_eqb_refl. }
    rewrite E, Hy. done. }
  destruct s1; simpl in *. by rewrite Hsame.
Qed.

End Definitions.

#[local] Existing Instance plain_sha256.

Definition probed_db : db := (schedule_probe "e1" 1 300 300 unknown_db).2.

Lemma probe_lease_exclusive_witness :
  let pid := probe_id_for "e1" 1 in
  let s' := (claim_probe pid "w1" 400 1000 probed_db).2 in
  (claim_probe pid "w1" 400 1000 probed_db).1 = Ok true ∧
  (claim_probe pid "w2" 500 1000 s').1 = Ok false ∧
  (finish_probe pid "inconclusive" 500 "w2" None s').1 = Ok false.
Proof.
  cbv zeta. split; [by vm_compute|].
  destruct (probe_lease_exclusive (probe_id_for "e1" 1) "w1" "w2" 400 500 1000 1000 "inconclusive" None
    probed_db (claim_probe (probe_id_for "e1" 1) "w1" 400 1000 probed_db).2) as (H1 & _ & H3 & _);
    try done.
  apply (bool_decide_unpack _). by vm_compute.
Defined.

Lemma whatsapp_receipt_idempotent_witness :
  let r := record_transport_receipt "e1" "whatsapp" "c" 400 (Some "a1") (Some "m1") None None executing_db in
  record_transport_receipt "e1" "whatsapp" "c" 999 None (Some "m1") None (Some "again") r.2 = r.
Proof.
  cbv zeta. set (r := record_transport_receipt _ _ _ 400 _ _ _ _ _).
  destruct r as [res s'] eqn:E. simpl.
  assert (∃ rid, res = Ok rid) as [rid ->].
  { vm_compute in E. injection E as <- _. eauto. }
  by apply (whatsapp_receipt_idempotent "e1" "c" 400 999 (Some "a1") None (Some "m1") None None
              (Some "again") executing_db).
Defined.
