(* ===== verification/Authority.v ===== *)
(** * Authority

    The source authority of [processing/store.py]: who may read a journaled source, and its
    revocation. [upsert_event_source_authority], [revoke_event_source_authority],
    [get_event_source_authority] and [project_source_revocation]. *)

From Stdlib Require Import ZArith Lia.
From S2P Require Import Prelude Tables Json Models Schema Outbox OutboxFacts OutboxSpec OutboxRefine.
From S2P Require Import Quiet Fixtures ThreadStore Journal.

Section Authority.
  Context `{Sha256}.

(** ** Audiences *)

Definition AUDIENCE_STATUSES : list string := ["known"; "author_only"; "unknown"].

(** [_authority_members]: stripped, distinct, sorted *)
Definition authority_members (values : list string) : list string :=
  order_by String.leb (dedup [] (List.filter str_true (map py_strip values))).

(** [_authority_status] *)
Definition authority_status (value : option string) (members : list string) : result string :=
  let status := py_lower (py_strip (default "" value)) in
  let present := List.filter str_true (map py_strip members) in
  let status := if str_true status then status
                else match present with [] => "unknown" | _ => "known" end in
  if str_in status AUDIENCE_STATUSES then Ok status else Raise (ValueError "unknown audience status").

(** ** Rows *)

(** [WHERE event_id = ? AND revision = ?] *)
Definition of_source (event_id : string) (revision : Z) (r : authority_row) : bool :=
  (aut_event_id r =?s event_id) && (aut_revision r =? revision).

Definition authority_of (event_id : string) (revision : Z) (s : db) : option authority_row :=
  fetchone (of_source event_id revision) (event_source_authority s).

(** [get_event_source_authority] (the row) *)
Definition get_event_source_authority (event_id : string) (revision : Z) (s : db)
    : option authority_row := authority_of event_id revision s.

(** ** Registration *)

(** The two objects a caller may pass instead of single values. *)
Record source_ref := MkSourceRef {
  src_event_id : string; src_revision : Z; src_author : string; src_channel : string;
  src_chat_id : string; src_occurred_at_ms : Z;
}.
Record audience_ref := MkAudience {
  aud_status : string; aud_members : list string; aud_snapshot_id : option string;
  aud_policy_revision : option string;
}.

Record authority_args := MkAuthorityArgs {
  aa_event_id : option string;
  aa_revision : Z;
  aa_source : option source_ref;
  aa_audience : option audience_ref;
  aa_author_principal : option string;
  aa_source_channel : option string;
  aa_source_chat_id : option string;
  aa_occurred_at_ms : option Z;
  aa_audience_status : option string;
  aa_audience_members : option (list string);
  aa_audience_snapshot_id : option string;
  aa_policy_revision : option string;
  aa_revoked : bool;
  aa_revoked_at_ms : option Z;
  aa_revoking_event_id : option string;
}.

(** Two recorded values disagree: both are given and differ. *)
Definition disagree (current value : string) : bool :=
  str_true current && str_true value && negb (current =?s value).

Definition revoke_row (at_ms moment : Z) (revoking : option string) (r : authority_row) : authority_row :=
  r <| aut_revoked_at_ms ::= (λ o, match o with None => Some at_ms | Some t => Some t end) |>
    <| aut_revoking_event_id ::= (λ o, match o with None => revoking | Some e => Some e end) |>
    <| aut_updated_ms := moment |>.

(** [upsert_event_source_authority]; [moment] is the clock *)
Definition upsert_event_source_authority (a : authority_args) (moment : Z) : prog db authority_row :=
  let event_id := match aa_source a with Some x => src_event_id x | None => default "" (aa_event_id a) end in
  let revision := match aa_source a with Some x => src_revision x | None => aa_revision a end in
  let author := match aa_source a with Some x => src_author x | None => default "" (aa_author_principal a) end in
  let channel := match aa_source a with Some x => src_channel x | None => default "" (aa_source_channel a) end in
  let chat_id := match aa_source a with Some x => src_chat_id x | None => default "" (aa_source_chat_id a) end in
  let occurred := match aa_source a with Some x => src_occurred_at_ms x | None => default 0 (aa_occurred_at_ms a) end in
  let event_token := py_strip event_id in
  if negb (str_true event_token) then praise (ValueError "event_id is required")
  else if revision <? 1 then praise (ValueError "revision must be positive") else
  let explicit_audience := is_some (aa_audience a) || is_some (aa_audience_status a)
    || is_some (aa_audience_members a) || is_some (aa_audience_snapshot_id a)
    || is_some (aa_policy_revision a) in
  let members := authority_members
    (match aa_audience a with Some x => aud_members x | None => default [] (aa_audience_members a) end) in
  let* status := pread (λ _, authority_status
    (match aa_audience a with Some x => Some (aud_status x) | None => aa_audience_status a end) members) in
  let snapshot := nonempty (match aa_audience a with
                            | Some x => aud_snapshot_id x
                            | None => aa_audience_snapshot_id a
                            end) in
  let policy := nonempty (match aa_policy_revision a with
                          | Some p => Some p
                          | None => match aa_audience a with Some x => aud_policy_revision x | None => None end
                          end) in
  let revoked_at := if aa_revoked a && is_none (aa_revoked_at_ms a) then Some moment
                    else aa_revoked_at_ms a in
  let revoking := nonempty (aa_revoking_event_id a) in
  let same := of_source event_token revision in
  write (λ s,
    match authority_of event_token revision s with
    | None =>
        let row := MkAuthority event_token revision author channel chat_id occurred status members snapshot
                     policy revoked_at revoking moment moment in
        Ok (row, s <| event_source_authority ::= insert_row row |>)
    | Some row =>
        if disagree (aut_author_principal row) author || disagree (aut_source_channel row) channel
           || disagree (aut_source_chat_id row) chat_id
        then Raise (JournalConflictError "source authority conflicts") else
        let s1 := if explicit_audience
                  then s <| event_source_authority ::= update same (λ r,
                         r <| aut_audience_status := status |> <| aut_audience_members := members |>
                           <| aut_audience_snapshot_id := snapshot |> <| aut_policy_revision := policy |>
                           <| aut_updated_ms := moment |>) |>
                  else s in
        let s2 := match revoked_at with
                  | Some t => s1 <| event_source_authority ::= update same (revoke_row t moment revoking) |>
                  | None => s1
                  end in
        Ok (default row (authority_of event_token revision s2), s2)
    end).

(** [revoke_event_source_authority] *)
Definition revoke_event_source_authority (event_id : string) (revision : Z)
    (revoking_event_id : option string) (moment : Z) : prog db bool :=
  write (λ s,
    let p := λ r, of_source event_id revision r && is_none (aut_revoked_at_ms r) in
    Ok ((rowcount p (event_source_authority s) =? 1)%nat,
        s <| event_source_authority ::= update p (revoke_row moment moment (nonempty revoking_event_id)) |>)).

(** ** Projection of an edit or delete *)

(** [_event_from_row] *)
Definition event_from_row (r : event_row) : result CanonicalEvent :=
  CanonicalEvent_check
    {| ce_event_id := ev_event_id r; ce_event_key := ev_event_key r; ce_trace_id := ev_trace_id r;
       ce_kind := ev_kind r; ce_origin := ev_origin r; ce_principal := ev_principal r;
       ce_channel := ev_channel r; ce_chat_id := ev_chat_id r; ce_account := ev_account r;
       ce_direction := if str_true (ev_direction r) then ev_direction r else "in";
       ce_revision := if ev_revision r =? 0 then 1 else ev_revision r;
       ce_audience_ref := ev_audience_ref r; ce_occurred_ms := ev_occurred_ms r;
       ce_created_ms := Some (ev_created_ms r); ce_source_message_id := ev_source_message_id r;
       ce_target_message_id := ev_target_message_id r; ce_thread_id := ev_thread_id r;
       ce_turn_id := ev_turn_id r; ce_payload := ev_payload_json r; ce_payload_hash := ev_payload_hash r |}.

(** The authority of a journal row, created when it is missing. *)
Definition ensure_row_authority (row : event_row) : txn db unit := λ s,
  match authority_of (ev_event_id row) (ev_revision row) s with
  | Some _ => Ok (tt, s)
  | None => let! e := event_from_row row in Ok (tt, ensure_authority e s)
  end.

(** The source revision is registered and revoked. *)
Definition is_revoked (event_id : string) (revision : Z) (s : db) : bool :=
  match authority_of event_id revision s with
  | Some a => is_some (aut_revoked_at_ms a)
  | None => false
  end.

(** One round of the revocation loop. *)
Definition revoke_candidate (event_id : string) (moment : Z) (revoked : list string) (row : event_row)
    : txn db (list string) := λ s,
  let! (_, s1) := ensure_row_authority row s in
  if is_revoked (ev_event_id row) (ev_revision row) s1 then Ok (revoked, s1) else
  let p := λ r, of_source (ev_event_id row) (ev_revision row) r && is_none (aut_revoked_at_ms r) in
  Ok (if (rowcount p (event_source_authority s1) =? 1)%nat then revoked ++ [ev_event_id row] else revoked,
      s1 <| event_source_authority ::= update p (λ r,
              r <| aut_revoked_at_ms := Some moment |> <| aut_revoking_event_id := Some event_id |>
                <| aut_updated_ms := moment |>) |>).

Fixpoint revoke_candidates (event_id : string) (moment : Z) (revoked : list string)
    (rows : list event_row) : txn db (list string) :=
  match rows with
  | [] => tret revoked
  | row :: rows' =>
      let+ revoked' := revoke_candidate event_id moment revoked row in
      revoke_candidates event_id moment revoked' rows'
  end.

(** [ORDER BY revision, created_ms, event_id] *)
Definition revision_leb (a b : event_row) : bool :=
  (ev_revision a <? ev_revision b)
  || ((ev_revision a =? ev_revision b)
      && time_id_leb (ev_created_ms a, ev_event_id a) (ev_created_ms b, ev_event_id b)).

(** The provider id of the message the event is about. *)
Definition provider_of (event : CanonicalEvent) : string :=
  match nonempty (ce_source_message_id event) with
  | Some m => m
  | None => default "" (ce_target_message_id event)
  end.

(** Another journaled revision of the message the event edits or deletes: the query names no
    revision, so a later one counts as well. *)
Definition prior_revision (event : CanonicalEvent) (e : event_row) : bool :=
  (ev_channel e =?s ce_channel event) && (ev_chat_id e =?s ce_chat_id event)
  && opt_str_eqb (ev_source_message_id e) (Some (provider_of event)) && str_in (ev_kind e) ["message"; "edit"]
  && (negb (str_true (ce_account event)) || (ev_account e =?s ce_account event) || (ev_account e =?s "")).

Definition revocation_candidates (event : CanonicalEvent) (s : db) : list event_row :=
  select (λ e, negb (ev_event_id e =?s ce_event_id event))
    (order_by revision_leb (select (prior_revision event) (events s))).

(** An edit inherits the audience of the newest of the other revisions. *)
Definition inherit_audience (event : CanonicalEvent) (prior : event_row) (moment : Z) : txn db bool := λ s,
  let! (_, s1) := ensure_row_authority prior s in
  match authority_of (ev_event_id prior) (ev_revision prior) s1 with
  | None => Ok (false, s1)
  | Some a =>
      Ok (true, s1 <| event_source_authority ::=
        update (of_source (ce_event_id event) (if ce_revision event =? 0 then 1 else ce_revision event)) (λ r,
          r <| aut_audience_status := aut_audience_status a |>
            <| aut_audience_members := aut_audience_members a |>
            <| aut_audience_snapshot_id := aut_audience_snapshot_id a |>
            <| aut_policy_revision := aut_policy_revision a |> <| aut_updated_ms := moment |>) |>)
  end.

(** [project_source_revocation] of a canonical event *)
Definition project_source_revocation (event : CanonicalEvent) (moment : Z) : prog db (list string) :=
  if negb (str_in (ce_kind event) ["edit"; "delete"]) then pret [] else
  if negb (str_true (ce_channel event)) || negb (str_true (ce_chat_id event))
     || negb (str_true (provider_of event)) || negb (str_true (ce_event_id event))
  then pret []
  else write (λ s,
    let candidates := revocation_candidates event s in
    match List.last (map Some candidates) None with
    | None => Ok ([], s)
    | Some prior =>
        if ce_kind event =?s "edit" then
          let! (found, s1) := inherit_audience event prior moment s in
          if found : bool then revoke_candidates (ce_event_id event) moment [] candidates s1
          else Ok ([], s1)
        else revoke_candidates (ce_event_id event) moment [] candidates s
    end).

(** ** The order of authority rows *)

(** A row evolves: its identity stays, and once it is revoked so do the time and the
    event of its revocation. *)
Record row_le (a a' : authority_row) : Prop := MkRowLe {
  le_author : aut_author_principal a' = aut_author_principal a;
  le_channel : aut_source_channel a' = aut_source_channel a;
  le_chat : aut_source_chat_id a' = aut_source_chat_id a;
  le_occurred : aut_occurred_at_ms a' = aut_occurred_at_ms a;
  le_revoked : ∀ t, aut_revoked_at_ms a = Some t → aut_revoked_at_ms a' = Some t;
  le_revoking : ∀ t e, aut_revoked_at_ms a = Some t → aut_revoking_event_id a = Some e →
                       aut_revoking_event_id a' = Some e;
}.

#[export] Instance row_le_preorder : PreOrder row_le.
Proof.
  split.
  - by intros a.
  - intros a b c [H1 H2 H3 H4 H5 H6] [K1 K2 K3 K4 K5 K6]. split; try congruence; eauto.
Qed.

(** No registered source is lost, and every row evolves. *)
Definition authority_le (s s' : db) : Prop :=
  ∀ ev rev a, authority_of ev rev s = Some a → ∃ a', authority_of ev rev s' = Some a' ∧ row_le a a'.

#[export] Instance authority_le_preorder : PreOrder authority_le.
Proof.
  split.
  - intros s ev rev a Ha. by exists a.
  - intros s1 s2 s3 H12 H23 ev rev a Ha. destruct (H12 _ _ _ Ha) as (b & Hb & Hab).
    destruct (H23 _ _ _ Hb) as (c & Hc & Hbc). exists c. split; [done|]. by transitivity b.
Qed.

Definition authority_key (r : authority_row) : string * Z := (aut_event_id r, aut_revision r).

Lemma of_source_spec ev rev r : of_source ev rev r = true ↔ authority_key r = (ev, rev).
Proof.
  unfold of_source, authority_key. rewrite andb_true_iff, str_eqb_eq, Z.eqb_eq. naive_solver.
Qed.

Lemma of_source_key ev rev r r' :
  authority_key r' = authority_key r → of_source ev rev r' = of_source ev rev r.
Proof. unfold authority_key, of_source. by intros [= -> ->]. Qed.

(** Statements that keep keys and let rows evolve. *)
Lemma authority_update p f s ev rev :
  (∀ r, p r = true → authority_key (f r) = authority_key r) →
  authority_of ev rev (s <| event_source_authority ::= update p f |>)
  = (λ r, if p r then f r else r) <$> authority_of ev rev s.
Proof.
  intros Hf. unfold authority_of. cbn [event_source_authority set_field].
  apply fetchone_update. intros r Hr. by apply of_source_key, Hf.
Qed.

Lemma authority_update_le p f s :
  (∀ r, p r = true → authority_key (f r) = authority_key r ∧ row_le r (f r)) →
  authority_le s (s <| event_source_authority ::= update p f |>).
Proof.
  intros Hf ev rev a Ha. rewrite authority_update, Ha by (intros r Hr; by apply Hf).
  eexists. split; [done|]. destruct (p a) eqn:Ep; [by apply Hf|done].
Qed.

Lemma authority_insert_le r s : authority_le s (s <| event_source_authority ::= insert_row r |>).
Proof.
  intros ev rev a Ha. exists a. split; [|done]. unfold authority_of in *.
  cbn [event_source_authority set_field]. by rewrite fetchone_insert_row, Ha.
Qed.

Lemma ensure_authority_le e s : authority_le s (ensure_authority e s).
Proof.
  intros ev rev a Ha. exists a. split; [|done]. unfold authority_of, ensure_authority in *.
  cbn [event_source_authority set_field]. unfold insert_or_ignore.
  destruct (row_exists _ _); [done|]. by rewrite fetchone_insert_row, Ha.
Qed.

Lemma authority_same_table_le s s' :
  event_source_authority s' = event_source_authority s → authority_le s s'.
Proof. intros Heq ev rev a Ha. exists a. unfold authority_of in *. by rewrite Heq. Qed.

(** *** The operations let rows evolve *)

Lemma revoke_row_le at_ms moment revoking r :
  authority_key (revoke_row at_ms moment revoking r) = authority_key r ∧
  row_le r (revoke_row at_ms moment revoking r).
Proof.
  split; [done|]. split; try done; cbn.
  - by intros t ->.
  - by intros t e _ ->.
Qed.

Lemma upsert_le a moment s : authority_le s (upsert_event_source_authority a moment s).2.
Proof.
  unfold upsert_event_source_authority. cbv zeta. destruct (negb _); [done|]. destruct (_ <? 1); [done|].
  unfold pbind, pread. destruct (authority_status _ _) as [status|]; [|done].
  unfold write. destruct (authority_of _ _ s) as [row|]; [|apply authority_insert_le].
  destruct (_ || disagree _ _); [done|]. cbn [snd].
  match goal with |- authority_le s (match ?o with _ => _ end) => destruct o as [t|] end;
    [etransitivity; [|apply authority_update_le; intros; apply revoke_row_le]|];
    (case_match; [|done]); by apply authority_update_le.
Qed.

Lemma revoke_le ev rev revoking moment s :
  authority_le s (revoke_event_source_authority ev rev revoking moment s).2.
Proof. apply authority_update_le. intros r _. apply revoke_row_le. Qed.

Lemma ensure_row_le row s u s' : ensure_row_authority row s = Ok (u, s') → authority_le s s'.
Proof.
  unfold ensure_row_authority. destruct (authority_of _ _ s); [by intros [= _ <-]|].
  destruct (event_from_row row) as [e|]; [|done]. cbn [rbind]. intros [= _ <-]. apply ensure_authority_le.
Qed.

Lemma revoke_candidate_le id moment acc row s acc' s' :
  revoke_candidate id moment acc row s = Ok (acc', s') → authority_le s s'.
Proof.
  unfold revoke_candidate. destruct (ensure_row_authority row s) as [[u s1]|] eqn:E; [|done].
  apply ensure_row_le in E. cbn [rbind]. destruct (is_revoked _ _ s1); [by intros [= _ <-]|].
  intros [= _ <-]. etransitivity; [done|]. apply authority_update_le.
  intros r [_ Hr]%andb_true_iff. split; [done|]. destruct (aut_revoked_at_ms r) eqn:Er; [done|].
  split; try done; cbn; intros; congruence.
Qed.

Lemma revoke_candidates_le id moment rows acc s acc' s' :
  revoke_candidates id moment acc rows s = Ok (acc', s') → authority_le s s'.
Proof.
  revert acc s. induction rows as [|row rows IH]; intros acc s; cbn [revoke_candidates].
  - by intros [= _ <-].
  - unfold tbind. destruct (revoke_candidate _ _ _ row s) as [[acc1 s1]|] eqn:E; [|done].
    intros Hr%IH. apply revoke_candidate_le in E. by transitivity s1.
Qed.

Lemma inherit_audience_le event prior moment s b s' :
  inherit_audience event prior moment s = Ok (b, s') → authority_le s s'.
Proof.
  unfold inherit_audience. destruct (ensure_row_authority prior s) as [[u s1]|] eqn:E; [|done].
  apply ensure_row_le in E. cbn [rbind]. destruct (authority_of _ _ s1); intros [= _ <-]; [|done].
  etransitivity; [done|]. by apply authority_update_le.
Qed.

Lemma project_le event moment s : authority_le s (project_source_revocation event moment s).2.
Proof.
  unfold project_source_revocation. repeat (case_match; [done|]). unfold write. cbv zeta.
  destruct (List.last _ None) as [prior|]; [|done]. destruct (ce_kind event =?s "edit").
  - destruct (inherit_audience event prior moment s) as [[[] s1]|] eqn:E; cbn [rbind]; [|by eapply inherit_audience_le|done].
    destruct (revoke_candidates _ _ _ _ s1) as [[ids s2]|] eqn:Er; [|done].
    apply inherit_audience_le in E. apply revoke_candidates_le in Er. by transitivity s1.
  - destruct (revoke_candidates _ _ _ _ s) as [[ids s2]|] eqn:Er; [|done]. by eapply revoke_candidates_le.
Qed.

Lemma record_relations_authority e s :
  event_source_authority (record_relations e s) = event_source_authority s.
Proof.
  unfold record_relations. simpl. generalize (ce_event_id e) (default 0 (ce_created_ms e)).
  intros eid t. revert s. induction (relations e) as [|r l IH]; intros s; [done|]. simpl. by rewrite IH.
Qed.

Lemma append_event_le k i t p n a d r u s : authority_le s (append_event k i t p n a d r u s).2.
Proof.
  unfold append_event. destruct (negb _); [done|]. destruct (coerce_event _ _ _ _ _ _ _ _ _) as [e|]; [|done].
  unfold write, append_event_connection. destruct (by_id _ _ _) as [row|].
  - repeat case_match; cbn [snd] in *; simplify_eq; apply ensure_authority_le || done.
  - destruct (row_exists _ _); [done|]. cbn [snd]. etransitivity; [|apply ensure_authority_le].
    by apply authority_same_table_le; rewrite record_relations_authority.
Qed.

(** ** The projection of an edit or delete *)

(** A row [append_event] can have written: it decodes, with a positive revision. *)
Definition row_ok (row : event_row) : Prop :=
  1 ≤ ev_revision row ∧ ∃ e, event_from_row row = Ok e.

Definition row_key (row : event_row) : string * Z := (ev_event_id row, ev_revision row).

Definition row_revoked (s : db) (row : event_row) : bool := is_revoked (ev_event_id row) (ev_revision row) s.

(** Nothing changes but the authority of the listed sources. *)
Definition only_at (keys : list (string * Z)) (s s' : db) : Prop :=
  events s' = events s ∧
  ∀ ev rev, (ev, rev) ∉ keys → authority_of ev rev s' = authority_of ev rev s.

Definition authority_unique (s : db) : Prop := unique_key authority_key (event_source_authority s).

Lemma only_at_trans k1 k2 s1 s2 s3 : only_at k1 s1 s2 → only_at k2 s2 s3 → only_at (k1 ++ k2) s1 s3.
Proof.
  intros [H1 H2] [H3 H4]. split; [congruence|]. intros ev rev Hn. rewrite H4, H2; [done|set_solver..].
Qed.

Lemma only_at_weaken k1 k2 s s' : k1 ⊆ k2 → only_at k1 s s' → only_at k2 s s'.
Proof. intros Hk [H1 H2]. split; [done|]. intros ev rev Hn. apply H2. set_solver. Qed.

Lemma only_at_revoked keys s s' row :
  only_at keys s s' → row_key row ∉ keys → row_revoked s' row = row_revoked s row.
Proof. intros [_ Ho] Hn. unfold row_revoked, is_revoked. by rewrite Ho. Qed.

Lemma row_ok_decodes row :
  row_ok row → ∃ e, event_from_row row = Ok e ∧ ce_event_id e = ev_event_id row ∧
                    ce_revision e = ev_revision row.
Proof.
  intros [Hr (e & He)]. exists e. split; [done|]. unfold event_from_row in He.
  apply CanonicalEvent_check_ok in He as [-> _]. cbn. split; [done|].
  by rewrite (proj2 (Z.eqb_neq _ 0)) by lia.
Qed.

(** [ensure_authority] adds a fresh, unrevoked row for an unknown source, and nothing else. *)
Lemma ensure_authority_lookup e s :
  ∃ r0, authority_key r0 = (ce_event_id e, ce_revision e) ∧ aut_revoked_at_ms r0 = None ∧
    ∀ ev rev, authority_of ev rev (ensure_authority e s) =
      match authority_of ev rev s with
      | Some a => Some a
      | None => if of_source ev rev r0 then Some r0 else None
      end.
Proof.
  eexists. split; [|split]; [| |intros ev rev; unfold authority_of, ensure_authority;
    cbn [event_source_authority set_field]; unfold insert_or_ignore;
    destruct (row_exists _ _) eqn:Ex; [|apply fetchone_insert_row]]; [done|done|].
  destruct (fetchone _ _) as [a|] eqn:Ea; [done|]. apply row_exists_spec in Ex as (r & Hr & Hk).
  case_match eqn:Eo; [|done]. apply of_source_spec in Eo. eapply fetchone_None_inv in Ea; [|done].
  unfold authority_key in Eo. cbn in Eo. injection Eo as <- <-. unfold of_source in Ea. by rewrite Ea in Hk.
Qed.

Lemma ensure_authority_unique e s : authority_unique s → authority_unique (ensure_authority e s).
Proof.
  unfold authority_unique, ensure_authority. cbn [event_source_authority set_field]. intros Hu.
  unfold insert_or_ignore. destruct (row_exists _ _) eqn:Ex; [done|]. apply unique_key_insert; [done|].
  intros r Hr Hk. rewrite row_exists_false in Ex. specialize (Ex r Hr).
  apply not_true_iff_false in Ex. apply Ex. by apply of_source_spec.
Qed.

(** The row of a source exists after [ensure_row_authority], and is not revoked by it. *)
Lemma ensure_row_spec row s :
  row_ok row → authority_unique s →
  ∃ s1 a, ensure_row_authority row s = Ok (tt, s1) ∧ authority_unique s1 ∧
    authority_of (ev_event_id row) (ev_revision row) s1 = Some a ∧
    row_revoked s1 row = row_revoked s row ∧ only_at [row_key row] s s1 ∧
    (is_some (authority_of (ev_event_id row) (ev_revision row) s) = true → s1 = s).
Proof.
  intros Hok Hu. unfold ensure_row_authority, row_revoked, is_revoked.
  destruct (authority_of _ _ s) as [a|] eqn:Ea; [exists s, a; by rewrite Ea|].
  destruct (row_ok_decodes row Hok) as (e & He & Hid & Hrev). rewrite He. cbn [rbind].
  destruct (ensure_authority_lookup e s) as (r0 & Hk & Hn & Hl). rewrite Hid, Hrev in Hk.
  exists (ensure_authority e s), r0. rewrite Hl, Ea, (proj2 (of_source_spec _ _ _) Hk).
  split_and!; try done; [by apply ensure_authority_unique|by rewrite Hn|].
  split; [done|]. intros ev rev Hno. rewrite Hl. destruct (authority_of ev rev s); [done|].
  destruct (of_source ev rev r0) eqn:E; [|done]. apply of_source_spec in E. exfalso. apply Hno.
  rewrite <- E, Hk. unfold row_key. set_solver.
Qed.

(** *** One candidate *)

(** The source was revoked by [event_id] at [moment]. *)
Definition revoked_by (event_id : string) (moment : Z) (s : db) (row : event_row) : Prop :=
  ∃ a, authority_of (ev_event_id row) (ev_revision row) s = Some a ∧
       aut_revoked_at_ms a = Some moment ∧ aut_revoking_event_id a = Some event_id.

Lemma revoke_candidate_spec id moment acc row s :
  row_ok row → authority_unique s →
  ∃ s', revoke_candidate id moment acc row s
          = Ok (acc ++ (if row_revoked s row then [] else [ev_event_id row]), s') ∧
    authority_unique s' ∧ row_revoked s' row = true ∧ only_at [row_key row] s s' ∧
    (row_revoked s row = false → revoked_by id moment s' row).
Proof.
  intros Hok Hu. destruct (ensure_row_spec row s Hok Hu) as (s1 & a & He & Hu1 & Ha & Hr & Ho & _).
  unfold revoke_candidate. rewrite He. cbn [rbind]. fold (row_revoked s1 row). rewrite Hr.
  destruct (row_revoked s row) eqn:Es; [exists s1; by rewrite app_nil_r|].
  rewrite (rowcount_same authority_key (ev_event_id row, ev_revision row)) by (try done; apply of_source_spec).
  fold (authority_of (ev_event_id row) (ev_revision row) s1). rewrite Ha.
  unfold row_revoked, is_revoked in Hr. rewrite Ha in Hr.
  destruct (aut_revoked_at_ms a) eqn:Et; [done|]. cbn [is_none Nat.eqb].
  eexists. split; [done|].
  assert (of_source (ev_event_id row) (ev_revision row) a = true) as Hs
    by by apply fetchone_Some_inv in Ha as [_ ?].
  unfold row_revoked, is_revoked, revoked_by. rewrite authority_update, Ha by done. cbn [fmap option_fmap option_map].
  rewrite Hs, Et. cbn [is_none andb]. split_and!; [by apply unique_key_update|done| |eauto].
  destruct Ho as [Hv Ho]. split; [done|]. intros ev rev Hn. rewrite authority_update, <- (Ho ev rev Hn) by done.
  destruct (authority_of ev rev s1) as [b|] eqn:Eb; [|done]. cbn [fmap option_fmap option_map].
  destruct (of_source _ _ b) eqn:E; [|done]. exfalso. apply Hn. apply of_source_spec in E.
  apply fetchone_Some_inv in Eb as [_ Eb%of_source_spec]. rewrite <- Eb, E. unfold row_key. set_solver.
Qed.

(** *** All candidates *)

Lemma revoked_by_only_at id moment keys s s' row :
  only_at keys s s' → row_key row ∉ keys → revoked_by id moment s row → revoked_by id moment s' row.
Proof. intros [_ Ho] Hn (a & Ha & Hb). exists a. by rewrite Ho. Qed.

Lemma revoke_candidates_spec id moment rows acc s :
  Forall row_ok rows → NoDup (row_key <$> rows) → authority_unique s →
  ∃ s', revoke_candidates id moment acc rows s
          = Ok (acc ++ map ev_event_id (select (λ r, negb (row_revoked s r)) rows), s') ∧
    authority_unique s' ∧ only_at (row_key <$> rows) s s' ∧
    Forall (λ r, row_revoked s' r = true) rows ∧
    Forall (λ r, row_revoked s r = false → revoked_by id moment s' r) rows.
Proof.
  intros Hok. revert acc s. induction Hok as [|row rows Hrow _ IH]; intros acc s Hnd Hu.
  { exists s. by rewrite app_nil_r. }
  cbn [revoke_candidates fmap list_fmap] in *. apply NoDup_cons in Hnd as [Hnew Hnd].
  destruct (revoke_candidate_spec id moment acc row s Hrow Hu) as (s1 & E1 & Hu1 & Hr1 & Ho1 & Hb1).
  unfold tbind. rewrite E1.
  destruct (IH (acc ++ (if row_revoked s row then [] else [ev_event_id row])) s1 Hnd Hu1)
    as (s2 & E2 & Hu2 & Ho2 & Hr2 & Hb2).
  assert (∀ r, r ∈ rows → row_revoked s1 r = row_revoked s r) as Hsame.
  { intros r Hr. eapply only_at_revoked; [done|]. intros Hk%list_elem_of_singleton. apply Hnew.
    rewrite <- Hk. by apply list_elem_of_fmap_2. }
  exists s2. rewrite E2. split_and!; [|done|exact (only_at_trans [row_key row] _ _ _ _ Ho1 Ho2)|..].
  - rewrite <- app_assoc. do 3 f_equal. unfold select. cbn [List.filter].
    rewrite (List.filter_ext_in (λ r, negb (row_revoked s1 r)) (λ r, negb (row_revoked s r)))
      by (intros r Hr%list_elem_of_In; by rewrite Hsame).
    by destruct (row_revoked s row).
  - constructor; [|done]. by rewrite (only_at_revoked _ _ _ _ Ho2).
  - constructor; [intros; eapply revoked_by_only_at; eauto|].
    rewrite Forall_forall in Hb2 |- *. intros r Hr Hs. apply Hb2; [done|]. by rewrite Hsame.
Qed.

(** A second round finds everything revoked. *)
Lemma revoke_candidates_again id moment rows acc s :
  Forall (λ r, row_revoked s r = true) rows → revoke_candidates id moment acc rows s = Ok (acc, s).
Proof.
  intros Hr. induction Hr as [|row rows Hrow _ IH]; [done|]. cbn [revoke_candidates]. unfold tbind.
  enough (revoke_candidate id moment acc row s = Ok (acc, s)) as -> by done.
  unfold revoke_candidate, ensure_row_authority, row_revoked, is_revoked in *.
  destruct (authority_of _ _ s) eqn:E; [|done]. cbn [rbind]. by rewrite E, Hrow.
Qed.

(** *** The audience of an edit *)

Definition audience_of (a : authority_row) : string * list string * option string * option string :=
  (aut_audience_status a, aut_audience_members a, aut_audience_snapshot_id a, aut_policy_revision a).

Lemma inherit_audience_spec event prior moment s :
  row_ok prior → authority_unique s → 1 ≤ ce_revision event →
  row_key prior ≠ (ce_event_id event, ce_revision event) →
  ∃ s1 a, inherit_audience event prior moment s = Ok (true, s1) ∧ authority_unique s1 ∧
    only_at [row_key prior; (ce_event_id event, ce_revision event)] s s1 ∧
    row_revoked s1 prior = row_revoked s prior ∧
    authority_of (ev_event_id prior) (ev_revision prior) s1 = Some a ∧
    (∀ a0, authority_of (ev_event_id prior) (ev_revision prior) s = Some a0 → a = a0) ∧
    ∀ o, authority_of (ce_event_id event) (ce_revision event) s1 = Some o → audience_of o = audience_of a.
Proof.
  intros Hok Hu Hrev Hne. destruct (ensure_row_spec prior s Hok Hu) as (s1 & a & He & Hu1 & Ha & Hr & Ho & Hs1).
  unfold inherit_audience. rewrite He. cbn [rbind]. rewrite Ha, (proj2 (Z.eqb_neq _ 0)) by lia.
  assert (of_source (ce_event_id event) (ce_revision event) a = false) as Hs.
  { apply not_true_iff_false. intros Hs%of_source_spec.
    apply fetchone_Some_inv in Ha as [_ Ha%of_source_spec]. unfold row_key in Hne. congruence. }
  eexists _, a. split; [done|].
  split_and!; [by apply unique_key_update| | | | |].
  - destruct Ho as [Hv Ho]. split; [done|]. intros ev rev Hn. rewrite authority_update by done.
    rewrite <- (Ho ev rev) by set_solver. destruct (authority_of ev rev s1) as [b|] eqn:Eb; [|done].
    cbn [fmap option_fmap option_map]. destruct (of_source (ce_event_id event) _ b) eqn:E; [|done].
    apply fetchone_Some_inv in Eb as [_ Eb%of_source_spec]. apply of_source_spec in E.
    exfalso. apply Hn. rewrite <- Eb, E. set_solver.
  - rewrite <- Hr. unfold row_revoked, is_revoked. rewrite authority_update, Ha by done.
    cbn [fmap option_fmap option_map]. by rewrite Hs.
  - rewrite authority_update, Ha by done. cbn [fmap option_fmap option_map]. by rewrite Hs.
  - intros a0 Ha0. rewrite Ha0 in Hs1. rewrite (Hs1 eq_refl) in Ha. congruence.
  - intros o. rewrite authority_update by done.
    destruct (authority_of (ce_event_id event) _ s1) as [b|] eqn:Eb; [|done].
    apply fetchone_Some_inv in Eb as [_ Eb]. cbn [fmap option_fmap option_map]. rewrite Eb. by intros [= <-].
Qed.

(** *** The invariant of journal and authority *)

Record source_inv (s : db) : Prop := MkSourceInv {
  si_journal : journal_inv s;
  si_rows : Forall row_ok (events s);
  si_unique : authority_unique s;
}.

Lemma source_inv_empty : source_inv empty_db.
Proof. split; [apply journal_inv_empty|constructor|apply unique_key_nil]. Qed.

Lemma row_ok_event e : CanonicalEvent_check e = Ok e → row_ok (event_row_of e).
Proof.
  intros Hc. pose proof (CanonicalEvent_check_ok e e Hc) as (_ & Hd & Hr). split; [done|].
  unfold CanonicalEvent_check in Hc. destruct (str_in (ce_kind e) EVENT_KINDS) eqn:Ek; [|done].
  unfold event_from_row, CanonicalEvent_check, event_row_of. cbn -[str_in EVENT_KINDS Z.leb Z.eqb].
  rewrite Ek, (proj2 (Z.eqb_neq _ 0)), (proj2 (Z.leb_le 1 (ce_revision e)) Hr) by lia.
  destruct Hd as [-> | ->]; cbn; eauto.
Qed.

Lemma coerce_event_checked key id tr p now acc dir rev aud e :
  coerce_event key id tr p now acc dir rev aud = Ok e → CanonicalEvent_check e = Ok e.
Proof.
  unfold coerce_event. destruct p as [p|d].
  - destruct (revision_or_one _) as [r|]; [|done]. cbn [rbind].
    intros Hc. by pose proof (CanonicalEvent_check_ok _ _ Hc) as [-> _].
  - destruct (revision_or_one _) as [r|]; [|done]. cbn [rbind].
    destruct (revision_or_one _) as [r'|]; [|done]. cbn [rbind].
    intros Hc. by pose proof (CanonicalEvent_check_ok _ _ Hc) as [-> _].
Qed.

Lemma append_source_inv k i t p n a d r u s :
  source_inv s → source_inv (append_event k i t p n a d r u s).2.
Proof.
  intros [Hj Hr Hu]. unfold append_event. destruct (negb _); [done|].
  destruct (coerce_event _ _ _ _ _ _ _ _ _) as [e|] eqn:Ec; [|done]. apply coerce_event_checked in Ec.
  unfold write. destruct (append_event_connection e s) as [[id s']|] eqn:E; [|done]. cbn [snd].
  split; [by eapply append_journal_inv| |].
  - destruct (append_frame _ _ _ _ E) as [->|(_ & _ & ->)]; [done|].
    unfold insert_row. apply Forall_app. split; [done|]. apply Forall_singleton. by apply row_ok_event.
  - unfold append_event_connection in E. destruct (by_id _ _ _) as [row|].
    + repeat case_match; simplify_eq; by apply ensure_authority_unique.
    + destruct (row_exists _ _); [done|]. injection E as _ <-. apply ensure_authority_unique.
      unfold authority_unique. by rewrite record_relations_authority.
Qed.

Lemma candidates_elem event s r :
  r ∈ revocation_candidates event s ↔
    r ∈ events s ∧ prior_revision event r = true ∧ ev_event_id r ≠ ce_event_id event.
Proof.
  unfold revocation_candidates. rewrite elem_of_select, elem_of_order_by, elem_of_select, negb_true_iff, str_eqb_neq.
  naive_solver.
Qed.

Lemma candidates_nodup event s : journal_inv s → NoDup (row_key <$> revocation_candidates event s).
Proof.
  intros [Hid _]. apply (NoDup_fmap_1 fst). rewrite <- list_fmap_compose.
  change (unique_key ev_event_id (revocation_candidates event s)). apply unique_key_filter.
  unfold unique_key in *. rewrite order_by_perm. by apply unique_key_filter.
Qed.

Lemma candidates_not_own event s :
  (ce_event_id event, ce_revision event) ∉ row_key <$> revocation_candidates event s.
Proof. intros (r & Hk & (_ & _ & Hn)%candidates_elem)%list_elem_of_fmap. by injection Hk. Qed.

Lemma last_elem {A} (l : list A) x : List.last (map Some l) None = Some x → x ∈ l.
Proof.
  induction l as [|y l IH]; [done|]. destruct l as [|z l]; cbn [map List.last] in *.
  - intros [= ->]. set_solver.
  - intros Hx%IH. set_solver.
Qed.

(** *** The whole projection *)

(** The event is an edit or delete that names its chat and message. *)
Definition projects (event : CanonicalEvent) : bool :=
  str_in (ce_kind event) ["edit"; "delete"] && str_true (ce_channel event) && str_true (ce_chat_id event)
  && str_true (provider_of event) && str_true (ce_event_id event).

Definition own_key (event : CanonicalEvent) : string * Z := (ce_event_id event, ce_revision event).

(** The rows an edit prepares before the revocations. *)
Definition prepare (event : CanonicalEvent) (moment : Z) : txn db unit := λ s,
  match List.last (map Some (revocation_candidates event s)) None with
  | Some prior => if ce_kind event =?s "edit"
                  then let! (_, s1) := inherit_audience event prior moment s in Ok (tt, s1)
                  else Ok (tt, s)
  | None => Ok (tt, s)
  end.

Lemma source_inv_only_at keys s s' : only_at keys s s' → authority_unique s' → source_inv s → source_inv s'.
Proof.
  intros [He _] Hu [[Hj1 Hj2] Hr _]. split; [split|..]; rewrite ?He; done.
Qed.

Lemma prepare_spec event moment s :
  source_inv s → 1 ≤ ce_revision event →
  ∃ s1, prepare event moment s = Ok (tt, s1) ∧ source_inv s1 ∧
    only_at (own_key event :: (row_key <$> revocation_candidates event s)) s s1 ∧
    (∀ r, r ∈ revocation_candidates event s → row_revoked s1 r = row_revoked s r) ∧
    (ce_kind event ≠ "edit" → s1 = s) ∧
    (ce_kind event = "edit" → ∀ prior a o,
       List.last (map Some (revocation_candidates event s)) None = Some prior →
       authority_of (ev_event_id prior) (ev_revision prior) s = Some a →
       authority_of (ce_event_id event) (ce_revision event) s1 = Some o → audience_of o = audience_of a).
Proof.
  intros Hi Hrev. unfold prepare. destruct (List.last _ None) as [prior|] eqn:El; [|by exists s].
  destruct (ce_kind event =?s "edit") eqn:Ek; [|exists s; apply str_eqb_neq in Ek; by split_and!].
  apply str_eqb_eq in Ek. pose proof (last_elem _ _ El) as Hp.
  assert (row_key prior ≠ own_key event) as Hne.
  { intros Hk. apply (candidates_not_own event s). fold (own_key event). rewrite <- Hk.
    by apply list_elem_of_fmap_2. }
  assert (row_ok prior) as Hok.
  { apply candidates_elem in Hp as [Hp _]. by eapply (proj1 (Forall_forall _ _) (si_rows s Hi)). }
  destruct (inherit_audience_spec event prior moment s Hok (si_unique s Hi) Hrev Hne)
    as (s1 & a & -> & Hu & Ho & Hr & Ha & Ha0 & Haud). cbn [rbind].
  exists s1. split_and!; [done|by eapply source_inv_only_at| | |done|].
  - eapply only_at_weaken; [|exact Ho]. intros k [->|[->|[]%not_elem_of_nil]%elem_of_cons]%elem_of_cons.
    + right. by apply list_elem_of_fmap_2.
    + left.
  - intros r Hrc. destruct (decide (row_key r = row_key prior)) as [Hk|Hk].
    + unfold row_revoked in *. unfold row_key in Hk. by injection Hk as -> ->.
    + eapply only_at_revoked; [exact Ho|]. intros [Hk2|[Hk2|[]%not_elem_of_nil]%elem_of_cons]%elem_of_cons; [done|].
      apply (candidates_not_own event s). rewrite <- Hk2. by apply list_elem_of_fmap_2.
  - intros _ prior' a0 o [= <-] Hpa Hoo. rewrite <- (Ha0 _ Hpa). by apply Haud.
Qed.

(** An edit or delete is a preparation and a round of revocations. *)
Lemma project_steps event moment s s1 :
  projects event = true → source_inv s → 1 ≤ ce_revision event →
  prepare event moment s = Ok (tt, s1) →
  project_source_revocation event moment s =
    write (λ _, revoke_candidates (ce_event_id event) moment [] (revocation_candidates event s) s1) s.
Proof.
  unfold projects, project_source_revocation, prepare. rewrite !andb_true_iff.
  intros ((((-> & ->) & ->) & ->) & ->) Hi Hrev. cbn [negb orb]. unfold write. cbv beta zeta.
  destruct (List.last _ None) as [prior|] eqn:El.
  - destruct (ce_kind event =?s "edit"); [|by intros [= ->]].
    pose proof (last_elem _ _ El) as Hp.
    destruct (inherit_audience_spec event prior moment s) as (s2 & a & -> & _).
    + apply candidates_elem in Hp as [Hp _]. by eapply (proj1 (Forall_forall _ _) (si_rows s Hi)).
    + apply Hi.
    + done.
    + intros Hk. apply (candidates_not_own event s). rewrite <- Hk. by apply list_elem_of_fmap_2.
    + cbn [rbind]. by intros [= ->].
  - intros [= ->]. destruct (revocation_candidates event s1) as [|r l] eqn:Ec; [done|]. exfalso.
    clear -El. revert r El. induction l as [|x l IH]; intros r El; [done|]. by apply (IH x).
Qed.

(** ** The outbox is left alone *)

(** The effect and attempt tables stay. *)
Definition outbox_kept (s s' : db) : Prop :=
  effects s' = effects s ∧ effect_attempts s' = effect_attempts s.

Lemma ensure_row_kept row s u s' : ensure_row_authority row s = Ok (u, s') → outbox_kept s s'.
Proof.
  unfold ensure_row_authority. destruct (authority_of _ _ s); [by intros [= _ <-]|].
  destruct (event_from_row row); [|done]. cbn [rbind]. by intros [= _ <-].
Qed.

Lemma revoke_candidates_kept id moment rows acc s acc' s' :
  revoke_candidates id moment acc rows s = Ok (acc', s') → outbox_kept s s'.
Proof.
  revert acc s. induction rows as [|row rows IH]; intros acc s; cbn [revoke_candidates]; [by intros [= _ <-]|].
  unfold tbind, revoke_candidate, outbox_kept in *.
  destruct (ensure_row_authority row s) as [[u s1]|] eqn:E; [|done]. apply ensure_row_kept in E as [<- <-]. cbn [rbind]. by destruct (is_revoked _ _ s1); intros [-> ->]%IH.
Qed.

#[export] Instance silent_project_revocation event moment : Silent (project_source_revocation event moment).
Proof.
  unfold project_source_revocation. repeat (case_match; [apply _|]). apply silent_write.
  intros s ids s'. cbv zeta. destruct (List.last _ None) as [prior|]; [|by intros [= _ <-]].
  destruct (ce_kind event =?s "edit"); [|apply revoke_candidates_kept].
  unfold inherit_audience. destruct (ensure_row_authority prior s) as [[u s1]|] eqn:E; [|done].
  apply ensure_row_kept in E as [<- <-]. cbn [rbind].
  destruct (authority_of _ _ s1); cbn [rbind]; [|by intros [= _ <-]]. by intros [-> ->]%revoke_candidates_kept.
Qed.

(** ** Sequences of operations *)

Inductive authority_op :=
| AAppend (event_key event_id trace_id : string) (payload : event_arg) (now : Z)
    (account direction : option string) (revision : option Z) (audience : option string)
| AUpsert (a : authority_args) (moment : Z)
| ARevoke (event_id : string) (revision : Z) (revoking : option string) (moment : Z)
| AProject (event : CanonicalEvent) (moment : Z).

Definition run_authority_op (s : db) (o : authority_op) : db :=
  match o with
  | AAppend k i t p n a d r u => (append_event k i t p n a d r u s).2
  | AUpsert a m => (upsert_event_source_authority a m s).2
  | ARevoke e r v m => (revoke_event_source_authority e r v m s).2
  | AProject e m => (project_source_revocation e m s).2
  end.

Lemma run_authority_le ops s : authority_le s (foldl run_authority_op s ops).
Proof.
  revert s. induction ops as [|o ops IH]; intros s; [done|]. cbn [foldl].
  etransitivity; [|apply IH]. destruct o; cbn [run_authority_op];
    auto using append_event_le, upsert_le, revoke_le, project_le.
Qed.

(** ** Theorems *)

(** C31: A revocation is permanent. Whatever events are journaled, sources registered,
    revoked or projected afterwards, a revoked source stays registered with its author,
    channel and chat, revoked at the first time and by the first event recorded. *)
Theorem revocation_permanent ops s ev rev a t :
  get_event_source_authority ev rev s = Some a → aut_revoked_at_ms a = Some t →
  ∃ a', get_event_source_authority ev rev (foldl run_authority_op s ops) = Some a' ∧
    aut_revoked_at_ms a' = Some t ∧
    (∀ e, aut_revoking_event_id a = Some e → aut_revoking_event_id a' = Some e) ∧
    aut_author_principal a' = aut_author_principal a ∧ aut_source_channel a' = aut_source_channel a ∧
    aut_source_chat_id a' = aut_source_chat_id a.
Proof.
  intros Ha Ht. destruct (run_authority_le ops s ev rev a Ha) as (a' & Ha' & [H1 H2 H3 _ H5 H6]).
  exists a'. split_and!; eauto.
Qed.

(** C30: The projection of an edit or delete is exact. Of the other
    journaled revisions of the message it names, in its chat and account, later ones
    included, it revokes and returns those not revoked yet, in order of revision, and stamps
    them with its moment and event; afterwards all of them are revoked and no other source
    but the event's own is touched. An edit passes the audience of the newest other revision
    on to its own source; a delete changes nothing else. Projecting it again right away
    revokes nothing. *)
Theorem projection_exact event moment s :
  source_inv s → projects event = true → 1 ≤ ce_revision event →
  ∃ s', project_source_revocation event moment s
          = (Ok (map ev_event_id (select (λ r, negb (row_revoked s r)) (revocation_candidates event s))), s') ∧
    source_inv s' ∧
    only_at (own_key event :: (row_key <$> revocation_candidates event s)) s s' ∧
    (∀ r, r ∈ revocation_candidates event s → row_revoked s' r = true) ∧
    (∀ r, r ∈ revocation_candidates event s → row_revoked s r = false →
       revoked_by (ce_event_id event) moment s' r) ∧
    (ce_kind event = "edit" → ∀ prior a o,
       List.last (map Some (revocation_candidates event s)) None = Some prior →
       get_event_source_authority (ev_event_id prior) (ev_revision prior) s = Some a →
       get_event_source_authority (ce_event_id event) (ce_revision event) s' = Some o →
       audience_of o = audience_of a) ∧
    (∀ moment2, (project_source_revocation event moment2 s').1 = Ok []) ∧
    (ce_kind event = "delete" → ∀ moment2, (project_source_revocation event moment2 s').2 = s').
Proof.
  intros Hi Hp Hrev.
  destruct (prepare_spec event moment s Hi Hrev) as (s1 & E1 & Hi1 & Ho1 & Hr1 & Hd1 & He1).
  destruct (revoke_candidates_spec (ce_event_id event) moment (revocation_candidates event s) [] s1)
    as (s' & E2 & Hu2 & Ho2 & Hr2 & Hb2).
  { apply Forall_forall. intros r [Hr _]%candidates_elem. by eapply (proj1 (Forall_forall _ _) (si_rows s Hi)). }
  { by apply candidates_nodup, Hi. }
  { apply Hi1. }
  rewrite Forall_forall in Hr2, Hb2.
  assert (source_inv s') as Hi2 by by eapply source_inv_only_at.
  assert (revocation_candidates event s' = revocation_candidates event s) as Hc.
  { unfold revocation_candidates. by rewrite (proj1 Ho2), (proj1 Ho1). }
  assert (∀ moment2 s2, prepare event moment2 s' = Ok (tt, s2) →
            project_source_revocation event moment2 s' = (Ok [], s2)) as Hagain.
  { intros moment2 s2 E3. rewrite (project_steps event moment2 s' s2) by done. unfold write.
    destruct (prepare_spec event moment2 s' Hi2 Hrev) as (s3 & E4 & _ & _ & Hr3 & _).
    assert (s3 = s2) as -> by congruence.
    rewrite revoke_candidates_again; [done|]. apply Forall_forall. intros r Hr. rewrite Hr3 by done.
    apply Hr2. by rewrite <- Hc. }
  exists s'. split_and!; [|done| |done| | | |].
  - rewrite (project_steps event moment s s1), E2 by done. unfold write. cbn [app]. do 3 f_equal.
    unfold select. apply List.filter_ext_in. intros r Hr%list_elem_of_In. by rewrite Hr1.
  - eapply only_at_weaken; [|exact (only_at_trans _ _ _ _ _ Ho1 Ho2)]. set_solver.
  - intros r Hr Hs. apply Hb2; [done|]. by rewrite Hr1.
  - intros Hk prior a o Hl Ha Ho. eapply He1; [done..|].
    unfold get_event_source_authority in Ho. by rewrite (proj2 Ho2) in Ho by apply candidates_not_own.
  - intros m2. destruct (prepare_spec event m2 s' Hi2 Hrev) as (s2 & E3 & _). by rewrite (Hagain m2 s2).
  - intros Hk m2. destruct (prepare_spec event m2 s' Hi2 Hrev) as (s2 & E3 & _ & _ & _ & Hd & _).
    rewrite (Hagain m2 s2) by done. apply Hd. by rewrite Hk.
Qed.

End Authority.

(** ** Witnesses *)

#[local] Existing Instance plain_sha256.

(** A message, its edit, and a later deletion of the message. *)
Definition edit_arg : event_arg :=
  EventMapping [("kind", JStr "edit"); ("channel", JStr "whatsapp"); ("chat_id", JStr "c");
                ("message_id", JStr "m1"); ("text", JStr "hello, all")].

Definition after_edit : db := (append_event "k2" "e2" "t" edit_arg 200 None None (Some 2) None after_hello).2.

Definition delete_event : CanonicalEvent :=
  {| ce_event_id := "e3"; ce_event_key := "k3"; ce_trace_id := "t"; ce_kind := "delete"; ce_origin := "";
     ce_principal := ""; ce_channel := "whatsapp"; ce_chat_id := "c"; ce_account := ""; ce_direction := "in";
     ce_revision := 1; ce_audience_ref := None; ce_occurred_ms := None; ce_created_ms := Some 300;
     ce_source_message_id := None; ce_target_message_id := Some "m1"; ce_thread_id := None;
     ce_turn_id := None; ce_payload := None; ce_payload_hash := "" |}.

Lemma after_edit_inv : source_inv after_edit.
Proof. apply append_source_inv, append_source_inv, source_inv_empty. Qed.

Lemma projection_exact_witness :
  ∃ s', project_source_revocation delete_event 400 after_edit = (Ok ["e1"; "e2"], s') ∧
        (project_source_revocation delete_event 500 s').1 = Ok [].
Proof.
  destruct (projection_exact delete_event 400 after_edit after_edit_inv eq_refl ltac:(done))
    as (s' & E & _ & _ & _ & _ & _ & Hagain & _).
  exists s'. split; [|apply Hagain]. rewrite E. by vm_compute.
Defined.

Definition after_delete : db := (project_source_revocation delete_event 400 after_edit).2.

Definition registration : authority_args :=
  MkAuthorityArgs (Some "e1") 1 None None None None None None (Some "known") (Some ["bob"]) None None
    false None None.

Lemma after_delete_revoked :
  match get_event_source_authority "e1" 1 after_delete with
  | Some a => aut_revoked_at_ms a = Some 400 ∧ aut_revoking_event_id a = Some "e3"
  | None => False
  end.
Proof. by vm_compute. Qed.

Lemma revocation_permanent_witness :
  ∃ a, get_event_source_authority "e1" 1
         (foldl run_authority_op after_delete [AUpsert registration 600; ARevoke "e1" 1 (Some "e9") 700]) = Some a ∧
       aut_revoked_at_ms a = Some 400 ∧ aut_revoking_event_id a = Some "e3".
Proof.
  pose proof after_delete_revoked as Hr.
  destruct (get_event_source_authority "e1" 1 after_delete) as [a|] eqn:Ea; [|done]. destruct Hr as [Ht He].
  destruct (revocation_permanent [AUpsert registration 600; ARevoke "e1" 1 (Some "e9") 700] after_delete
              "e1" 1 a 400 Ea Ht) as (a' & Ha' & Ht' & He' & _).
  exists a'. auto.
Defined.

(** Repeating the projection of an edit is not a no-op: the audience registered for the
    edit in the meantime is replaced by the earlier revision's again. *)
Definition edit_event : CanonicalEvent :=
  match event_from_row <$> fetchone (has_id ev_event_id "e2") (events after_edit) with
  | Some (Ok e) => e
  | _ => delete_event
  end.

Definition edit_registration : authority_args :=
  MkAuthorityArgs (Some "e2") 2 None None None None None None (Some "known") (Some ["bob"]) None None
    false None None.

Theorem repeated_edit_drops_audience :
  let s1 := run_authority_op after_edit (AProject edit_event 300) in
  let s2 := run_authority_op s1 (AUpsert edit_registration 310) in
  let s3 := run_authority_op s2 (AProject edit_event 320) in
  aut_audience_members <$> get_event_source_authority "e2" 2 s2 = Some ["bob"] ∧
  aut_audience_members <$> get_event_source_authority "e2" 2 s3 = Some [].
Proof. by vm_compute. Qed.

(** The query for the revisions to revoke has no bound: an edit projected after a newer one
    revokes the newer. *)
Definition newer_edit_arg : event_arg :=
  EventMapping [("kind", JStr "edit"); ("channel", JStr "whatsapp"); ("chat_id", JStr "c");
                ("message_id", JStr "m1"); ("text", JStr "hello, everybody")].

Definition after_newer_edit : db :=
  (append_event "k2b" "e2b" "t" newer_edit_arg 250 None None (Some 3) None after_edit).2.

Example older_edit_revokes_newer :
  (project_source_revocation edit_event 300 after_newer_edit).1 = Ok ["e1"; "e2b"] ∧
  ce_revision edit_event = 2 ∧ (get_event_source_authority "e2b" 3
    (project_source_revocation edit_event 300 after_newer_edit).2 ≫= aut_revoked_at_ms) = Some 300.
Proof. by vm_compute. Qed.
