(* ===== verification/Gateway.v ===== *)
(** * Gateway

    [processing/effects.py]: the durable effect gateway. [execute_ready] is split at its
    one [await], the executor call: [execute_begin] authorizes and claims, the executor
    reports an [exec_outcome], [execute_finish] records it. Between the two any other
    program may run on the store ([execute_ready] takes it as an argument). The
    authorizer and the executor are the gateway's own interfaces ([EffectAuthorizer],
    [EffectExecutor]); every result they may give is covered. The history scope
    [execute_ready] enters for WhatsApp targets only reads the history projection and is
    left out. *)

From Stdlib Require Import ZArith Lia.
From S2P Require Import Prelude Tables Json Models Schema Outbox OutboxFacts OutboxSpec OutboxRefine.
From S2P Require Import Fixtures Journal Receipts.

(** [EffectAuthorizer.check(envelope, None)]: the final policy check *)
Class EffectAuthorizer := authorize : EffectEnvelope → db → result DecisionRecord.

(** What awaiting [EffectExecutor.execute] comes to: a report, a cancellation, or an
    exception, with whether it is one of the two typed pre-dispatch refusals. *)
Inductive exec_outcome :=
| Reported (r : option EffectReceipt)
| Cancelled
| Raised (type_name message : string) (typed_refusal : bool).

Definition PRE_DISPATCH_ERROR_MARKERS : list string :=
  ["err_forward_unavailable"; "not connected"; "channel not available";
   "channel does not support"; "unknown channel"; "not running"].

(** [is_pre_dispatch_error] *)
Definition is_pre_dispatch_error (message : string) (typed_refusal : bool) : bool :=
  typed_refusal || existsb (λ m, py_contains m (py_lower message)) PRE_DISPATCH_ERROR_MARKERS.

(** [_state_for_reason] *)
Definition state_for_reason (reason : string) : string :=
  let head := before_char 58 reason in
  if head =?s "superseded" then "cancelled"
  else if head =?s "expired" then "expired"
  else "blocked".

Record EffectGateway := MkGateway {
  gw_worker_id : string;
  gw_lease_ms : Z;
  gw_wired : bool;
}.

(** [EffectGateway.__init__] *)
Definition EffectGateway_init (worker_id : option string) (lease_ms : Z) (wired : bool)
    : result EffectGateway :=
  if lease_ms <=? 0 then Raise (ValueError "lease_ms must be positive")
  else Ok (MkGateway (match worker_id with
                      | Some w => if str_true w then w else "effect-gateway"
                      | None => "effect-gateway"
                      end) lease_ms wired).

Section Gateway.
  Context `{Sha256} `{EffectAuthorizer}.

(** [_receipt] *)
Definition receipt (effect_id state operation_key : string) (attempt_id detail : option string)
    : prog db EffectReceipt :=
  let* stored := pread (get_effect effect_id) in
  pget (λ s, {| er_effect_id := effect_id; er_state := state; er_operation_key := operation_key;
                er_attempt_id := attempt_id; er_detail := detail; er_accepted := true;
                er_updated_ms := se_updated_ms <$> stored;
                er_transport_receipt := effect_transport_receipt effect_id s |}).

(** [submit]: durable acceptance *)
Definition submit (e : EffectEnvelope) (now : Z) : prog db EffectReceipt :=
  let* effect_id := enqueue_effect (args_of_envelope e now (env_origin e) (env_admission_id e))
                      "queued" in
  let* state := pget (effect_state effect_id) in
  pret {| er_effect_id := effect_id;
          er_state := match state with Some st => state_str st | None => "queued" end;
          er_operation_key := env_operation_key e; er_attempt_id := None; er_detail := None;
          er_accepted := effect_id =?s env_effect_id e; er_updated_ms := Some now;
          er_transport_receipt := None |}.

(** [submit_participation] *)
Definition submit_participation (e : EffectEnvelope) (admission_id : string) (admission_data : dict)
    (now : Z) : prog db EffectReceipt :=
  let* effect_id := enqueue_participation_effect e admission_id admission_data now in
  let* state := pget (effect_state effect_id) in
  pret {| er_effect_id := effect_id;
          er_state := match state with Some st => state_str st | None => "queued" end;
          er_operation_key := env_operation_key e; er_attempt_id := None; er_detail := None;
          er_accepted := effect_id =?s env_effect_id e; er_updated_ms := Some now;
          er_transport_receipt := None |}.

(** What the executor is called with, and what is needed after it returns. *)
Record dispatch := MkDispatch {
  dsp_envelope : EffectEnvelope;
  dsp_operation_key : string;
  dsp_attempt_id : option string;
}.

(** [_execute_ready_scoped] up to the executor call. A receipt means that the executor is
    not called at all. *)
Definition execute_begin (g : EffectGateway) (effect_id : string) (now : Z) (attempt_uuid : string)
    : prog db (EffectReceipt + dispatch) :=
  let done_with := λ state key detail,
    let* r := receipt effect_id state key None (Some detail) in pret (inl r) in
  if negb (gw_wired g)
  then praise (ProcessingError "effect gateway is not wired: both an authorizer and an executor are required")
  else
  let* found := pread (get_effect effect_id) in
  match found with
  | None => praise (ProcessingError "unknown effect")
  | Some stored =>
  let key := se_operation_key stored in
  match se_state stored with
  | unknown => done_with "unknown" key "outcome unproven; reconciliation required before any re-execution"
  | unknown_nonrepeatable =>
      done_with "unknown_nonrepeatable" key "escalated: requires operator decision or later evidence"
  | queued =>
      if match se_expires_at_ms stored with Some t => t <=? now | None => false end then
        do* transition effect_id ["queued"] "expired" now
              (evidence_map "expiry" "deadline passed before execution") None in
        done_with "expired" key "expired before execution"
      else
      let* envelope := pread (λ _, to_envelope stored) in
      let* decision := pread (authorize envelope) in
      do* record_decision decision in
      if negb (dec_outcome decision =?s "allow") then
        let target := state_for_reason (dec_reason decision) in
        do* transition effect_id ["queued"] target now
              (evidence_map "policy" (dec_reason decision)) None in
        done_with target key (dec_reason decision)
      else
      let* won := claim_effect effect_id (gw_worker_id g) now (gw_lease_ms g)
                    (Some (dec_policy_version decision)) attempt_uuid in
      if negb won then
        let* current := pget (effect_state effect_id) in
        done_with (match current with Some st => state_str st | None => state_str (se_state stored) end)
          key "claim not acquired"
      else
        let* attempt_id := pget (open_attempt_id effect_id) in
        pret (inr (MkDispatch envelope key attempt_id))
  | st => done_with (state_str st) key "effect is not executable in its current state"
  end
  end.

(** [detail or default] *)
Definition detail_or (detail : option string) (default : string) : string :=
  match detail with Some d => if str_true d then d else default | None => default end.

(** [_execute_ready_scoped] after the executor call; [now_receipt] and [now_end] are the
    two clock readings. *)
Definition execute_finish (g : EffectGateway) (effect_id : string) (d : dispatch)
    (outcome : exec_outcome) (now_receipt now_end : Z) : prog db EffectReceipt :=
  let leave := λ target kind detail,
    transition effect_id ["executing"] target now_end (evidence_map kind detail)
      (Some (gw_worker_id g)) in
  match outcome with
  | Cancelled =>
      do* leave "unknown" "cancelled" "execution cancelled; outcome unproven" in
      praise CancelledError
  | Raised type_name message typed =>
      let proven := is_pre_dispatch_error message typed in
      let target := if proven then "failed" else "unknown" in
      do* leave target (if proven then "not_executed" else "dispatch_unknown")
            (type_name +:+ ": " +:+ String.substring 0 200 message) in
      receipt effect_id target (dsp_operation_key d) (dsp_attempt_id d)
        (Some (if proven then "transport refused before dispatch (" +:+ type_name +:+ ")"
               else "transport raised " +:+ type_name +:+ "; outcome unproven"))
  | Reported result =>
      let reported := match result with Some r => er_state r | None => "unknown" end in
      let detail := match result with Some r => er_detail r | None => None end in
      do*
        if reported =?s "sent" then
          match match result with Some r => er_transport_receipt r | None => None end with
          | None =>
              if env_origin (dsp_envelope d) =?s "participation"
              then leave "unknown" "dispatch_unknown" "executor reported sent without a transport receipt"
              else leave "sent" "transport" (detail_or detail "accepted by transport")
          | Some tr =>
              do* record_transport_receipt effect_id (rcp_channel tr) (rcp_chat_id tr) now_receipt
                    (dsp_attempt_id d) (rcp_provider_message_id tr) (rcp_client_message_id tr)
                    (rcp_detail tr) in
              leave "sent" "transport" (detail_or detail "accepted by transport")
          end
        else if reported =?s "not_executed" then
          leave "failed" "not_executed" (detail_or detail "transport proved the effect did not run")
        else
          leave "unknown" "dispatch_unknown" (detail_or detail ("executor reported " +:+ reported)) in
      let* final := pget (effect_state effect_id) in
      receipt effect_id (match final with Some st => state_str st | None => reported end)
        (dsp_operation_key d) (dsp_attempt_id d) detail
  end.

(** [execute_ready]; [others] is whatever else runs on the store while the executor is
    awaited, and [outcome] what the executor comes to. *)
Definition execute_ready (g : EffectGateway) (effect_id : string) (now now_receipt now_end : Z)
    (attempt_uuid : string) (executor : EffectEnvelope → exec_outcome) (others : prog db unit)
    : prog db EffectReceipt :=
  let* begun := execute_begin g effect_id now attempt_uuid in
  match begun with
  | inl r => pret r
  | inr d =>
      let outcome := executor (dsp_envelope d) in
      do* (λ s, (Ok tt, (others s).2)) in
      execute_finish g effect_id d outcome now_receipt now_end
  end.

(** [recover_expired_claims] *)
Definition recover_expired_claims (now : Z) : prog db (list string) := recover_executing now.

(** ** Facts *)

Lemma transition_state e exp tgt now ev w s :
  outbox_inv s →
  (transition e exp tgt now ev w s).2 = s ∨
  ∃ t, tgt = state_str t ∧ effect_state e (transition e exp tgt now ev w s).2 = Some t ∧
       ∀ x, x ≠ e → effect_state x (transition e exp tgt now ev w s).2 = effect_state x s.
Proof.
  intros Hi. destruct (transition_cases e exp tgt now ev w s) as
    [[-> _]|(row & t & Hrow & _ & Ht & _ & ->)]; [apply Hi|by left|].
  right. exists t. split; [done|]. split.
  - by eapply (effect_state_moved e row t now s).
  - intros x Hx. by eapply (effect_state_moved_other e x (eff_state row) t now s).
Qed.

(** The leaseholder leaves [executing] successfully. *)
Lemma transition_leave e t now ev w s row :
  outbox_inv s → effect_row_of e s = Some row → eff_state row = executing →
  eff_lease_owner row = Some w → t ∈ [sent; failed; unknown] →
  transition e ["executing"] (state_str t) now ev (Some w) s =
    (Ok true, commit_transition e executing t now (coerce_evidence ev now (Some w)) (Some w) s).
Proof.
  intros Hi Hrow Hx Hl Ht. unfold transition, write. rewrite Hrow, Hx.
  change (str_in (state_str executing) ["executing"]) with true. cbn [negb].
  set (kinds := evidence_kinds _).
  assert (validate_transition (state_str executing) (state_str t) kinds (Some w) (eff_lease_owner row)
          = Ok tt) as ->.
  { apply validate_transition_ok. rewrite Hl. split; [|split].
    - set_solver.
    - intros _. exists w. auto.
    - intros _ [|]; done. }
  cbn [rbind]. rewrite state_of_str_of. cbn [default].
  rewrite (guarded_rowcount _ _ row); [done|apply Hi|done|done].
Qed.

Lemma commit_transition_state e t now ev w s row :
  effect_row_of e s = Some row → eff_state row = executing →
  effect_state e (commit_transition e executing t now ev w s) = Some t.
Proof.
  intros Hr Hx. eapply (effect_state_moved e row t now s); [done|]. simpl. by rewrite Hx.
Qed.

Lemma receipt_frame e st k a d s : (receipt e st k a d s).2 = s.
Proof. unfold receipt, pbind, pread, pget. by destruct (get_effect e s). Qed.

(** The state an executor outcome stands for. *)
Definition outcome_state (origin : string) (o : exec_outcome) : EffectState :=
  match o with
  | Cancelled => unknown
  | Raised _ message typed => if is_pre_dispatch_error message typed then failed else unknown
  | Reported None => unknown
  | Reported (Some r) =>
      if er_state r =?s "sent" then
        if (origin =?s "participation") && is_none (er_transport_receipt r) then unknown else sent
      else if er_state r =?s "not_executed" then failed
      else unknown
  end.

(** The receipt an outcome asks to record before the state changes. *)
Definition outcome_receipt (o : exec_outcome) : option TransportReceipt :=
  match o with
  | Reported (Some r) => if er_state r =?s "sent" then er_transport_receipt r else None
  | _ => None
  end.

(** The store after the receipt, if one is to be recorded. *)
Definition recorded (e : string) (d : dispatch) (o : exec_outcome) (now : Z) : prog db unit :=
  match outcome_receipt o with
  | None => pret tt
  | Some tr =>
      do* record_transport_receipt e (rcp_channel tr) (rcp_chat_id tr) now (dsp_attempt_id d)
            (rcp_provider_message_id tr) (rcp_client_message_id tr) (rcp_detail tr) in
      pret tt
  end.

(** [execute_finish] records the receipt, then makes one transition out of [executing]. *)
Lemma execute_finish_shape g e d o now_r now s :
  (∃ err, (recorded e d o now_r s) = (Raise err, s) ∧ execute_finish g e d o now_r now s = (Raise err, s)) ∨
  (∃ s1, recorded e d o now_r s = (Ok tt, s1) ∧ ∃ kind detail,
     (execute_finish g e d o now_r now s).2 =
     (transition e ["executing"] (state_str (outcome_state (env_origin (dsp_envelope d)) o)) now
        (evidence_map kind detail) (Some (gw_worker_id g)) s1).2).
Proof.
  unfold recorded, execute_finish, outcome_receipt, outcome_state.
  assert (∀ st k a det s, (pbind (pget (effect_state e)) (λ f, receipt e (st f) k a det) s).2 = s) as Hf.
  { intros. unfold pbind, pget. apply receipt_frame. }
  destruct o as [[r|]| |ty msg typed].
  - destruct (er_state r =?s "sent") eqn:Es.
    + destruct (er_transport_receipt r) as [tr|] eqn:Et.
      * rewrite andb_false_r.
        destruct (record_receipt_cases e (rcp_channel tr) (rcp_chat_id tr) now_r (dsp_attempt_id d)
          (rcp_provider_message_id tr) (rcp_client_message_id tr) (rcp_detail tr) s)
          as [(err & Hr)|(s1 & Hr & _)].
        { left. exists err. unfold pbind. by rewrite Hr. }
        right. exists s1. unfold pbind at 1. rewrite Hr. split; [done|]. eexists _, _.
        rewrite pbind_frame by (intros; apply Hf). unfold pbind. rewrite Hr. reflexivity.
      * right. exists s. split; [done|]. destruct (env_origin _ =?s "participation"); cbn [andb is_none];
          eexists _, _; rewrite pbind_frame by (intros; apply Hf); reflexivity.
    + right. exists s. split; [done|]. destruct (er_state r =?s "not_executed");
        eexists _, _; rewrite pbind_frame by (intros; apply Hf); reflexivity.
  - right. exists s. split; [done|]. eexists _, _. rewrite pbind_frame by (intros; apply Hf). reflexivity.
  - right. exists s. split; [done|]. eexists _, _. rewrite pbind_frame by done. reflexivity.
  - right. exists s. split; [done|]. destruct (is_pre_dispatch_error msg typed);
      eexists _, _; rewrite pbind_frame by (intros; apply receipt_frame); reflexivity.
Qed.

Lemma record_decision_frame d s :
  effects (record_decision d s).2 = effects s ∧
  effect_attempts (record_decision d s).2 = effect_attempts s.
Proof. apply record_decision_silent. Qed.

(** The newest open attempt of an effect that had none is the one just inserted. *)
Lemma open_attempt_after_claim e w now lease v aid s :
  outbox_inv s → effect_state e s = Some queued →
  open_attempt_id e (commit_claim e w now lease v aid s) = Some aid.
Proof.
  intros Hi Hq. unfold open_attempt_id. cbn [commit_claim append_evidence effect_attempts set_field].
  unfold insert_row, select. rewrite List.filter_app.
  set (p := λ a : attempt_row, (att_effect_id a =?s e) && is_none (att_finished_ms a)).
  assert (List.filter p (effect_attempts s) = []) as Hnil.
  { apply nil_length_inv, (rowcount_zero p). intros a Ha. unfold p.
    destruct (att_finished_ms a) eqn:Ef; simpl; [apply andb_false_r|].
    rewrite andb_true_r. apply str_eqb_neq. by eapply open_attempts_none. }
  rewrite Hnil. unfold p. simpl. by rewrite str_eqb_refl.
Qed.

Lemma get_effect_inv e s st :
  get_effect e s = Ok (Some st) → ∃ row, effect_row_of e s = Some row ∧ effect_from_row row = Ok st.
Proof.
  unfold get_effect. destruct (effect_row_of e s) as [row|]; [|done].
  destruct (effect_from_row row) as [x|] eqn:E; [|done]. cbn [rbind]. intros [= <-]. eauto.
Qed.

(** What decoding a row keeps. *)
Lemma effect_from_row_inv row st :
  effect_from_row row = Ok st →
  se_effect_id st = eff_effect_id row ∧ se_operation_key st = eff_operation_key row ∧
  se_state st = eff_state row ∧ se_expires_at_ms st = eff_expires_at_ms row ∧
  (∀ p, se_payload st = Some p →
        ∃ d, eff_payload_json row = Some d ∧ payload_from_mapping d = Ok p) ∧
  (∀ t, se_target st = Some t → target_from_mapping (eff_target_json row) = Ok t).
Proof.
  unfold effect_from_row. destruct (eff_payload_json row) as [d|] eqn:Ed.
  - destruct (payload_from_mapping d) as [p|] eqn:Ep; [|done]. cbn [rbind].
    destruct (eff_target_json row) as [|x l] eqn:Et; cbn [rbind].
    + intros [= <-]. cbn. do 4 (split; [done|]). split; [|done]. intros q [= <-]. eauto.
    + destruct (target_from_mapping (x :: l)) as [t|] eqn:Etm; [|done]. cbn [rbind].
      intros [= <-]. cbn. do 4 (split; [done|]). split; [intros q [= <-]; eauto|].
      by intros t' [= <-].
  - cbn [rbind]. destruct (eff_target_json row) as [|x l] eqn:Et; cbn [rbind].
    + intros [= <-]. cbn. done.
    + destruct (target_from_mapping (x :: l)) as [t|] eqn:Etm; [|done]. cbn [rbind].
      intros [= <-]. cbn. do 5 (split; [done|]). by intros t' [= <-].
Qed.

Lemma to_envelope_inv st env :
  to_envelope st = Ok env →
  env_effect_id env = se_effect_id st ∧ se_payload st = Some (env_payload env) ∧
  se_target st = Some (env_target env) ∧ env_origin env = se_origin st.
Proof.
  unfold to_envelope. destruct (se_payload st) as [p|]; [|done].
  destruct (se_target st) as [t|]; [|done]. unfold EffectEnvelope_check.
  repeat (destruct (negb _); [done|]). destruct (_ <? _); [done|]. by intros [= <-].
Qed.

(** [execute_begin] reaches the executor only through the queued, allowed, claimed path. *)
Lemma execute_begin_dispatch g e now uuid s d s' :
  execute_begin g e now uuid s = (Ok (inr d), s') →
  gw_wired g = true ∧
  ∃ stored decision s1,
    get_effect e s = Ok (Some stored) ∧ se_state stored = queued ∧
    (∀ t, se_expires_at_ms stored = Some t → now < t) ∧
    to_envelope stored = Ok (dsp_envelope d) ∧ authorize (dsp_envelope d) s = Ok decision ∧
    dec_outcome decision = "allow" ∧ s1 = (record_decision decision s).2 ∧
    claim_effect e (gw_worker_id g) now (gw_lease_ms g) (Some (dec_policy_version decision)) uuid s1
      = (Ok true, s') ∧ dsp_attempt_id d = open_attempt_id e s'.
Proof.
  unfold execute_begin. destruct (gw_wired g); [|done]. cbn [negb]. intros Hx. split; [done|].
  unfold pbind at 1, pread at 1 in Hx. destruct (get_effect e s) as [[st|]|err] eqn:Eg; try done.
  assert (∀ a k d0 s0, pbind (receipt e a k None (Some d0)) (λ r, pret (inl r)) s0 ≠ (Ok (inr d), s')) as Hno.
  { intros. unfold pbind at 1. by destruct (receipt _ _ _ _ _ s0) as [[]]. }
  destruct (se_state st) eqn:Es; try (by apply Hno in Hx).
  destruct (match se_expires_at_ms st with Some t => t <=? now | None => false end) eqn:Eexp.
  { unfold pbind at 1 in Hx. destruct (transition _ _ _ _ _ _ _) as [[?|?] ?]; [|done]. by apply Hno in Hx. }
  unfold pbind at 1, pread at 1 in Hx. destruct (to_envelope st) as [env|] eqn:Ee; [|done].
  unfold pbind at 1, pread at 1 in Hx. destruct (authorize env s) as [dec|] eqn:Ea; [|done].
  unfold pbind at 1 in Hx. destruct (record_decision dec s) as [[i|] s1] eqn:Er; [|done].
  destruct (dec_outcome dec =?s "allow") eqn:Eo; cbn [negb] in Hx.
  2:{ unfold pbind at 1 in Hx. destruct (transition _ _ _ _ _ _ _) as [[?|?] ?]; [|done]. by apply Hno in Hx. }
  unfold pbind at 1 in Hx. destruct (claim_effect _ _ _ _ _ _ s1) as [[[]|] s2] eqn:Ec; cbn [negb] in Hx; [| |done].
  2:{ unfold pbind at 1, pget at 1 in Hx. by apply Hno in Hx. }
  unfold pbind, pget, pret in Hx. injection Hx as <- <-.
  exists st, dec, s1. apply str_eqb_eq in Eo. repeat split; try done.
  - intros t Ht. rewrite Ht in Eexp. lia.
  - by rewrite Er.
Qed.

Lemma recorded_frame e d o now s s1 :
  recorded e d o now s = (Ok tt, s1) →
  effects s1 = effects s ∧ effect_attempts s1 = effect_attempts s ∧
  ∀ tr, outcome_receipt o = Some tr →
    row_exists (has_id rc_receipt_id
      (receipt_id_for e (rcp_channel tr) (rcp_chat_id tr) (rcp_provider_message_id tr)
         (rcp_client_message_id tr) now)) (transport_receipts s1) = true.
Proof.
  unfold recorded. destruct (outcome_receipt o) as [tr|]; [|by intros [= <-]].
  unfold pbind, pret.
  destruct (record_receipt_cases e (rcp_channel tr) (rcp_chat_id tr) now (dsp_attempt_id d)
    (rcp_provider_message_id tr) (rcp_client_message_id tr) (rcp_detail tr) s)
    as [(err & ->)|(s2 & -> & H1 & H2 & _ & H3 & _)]; [done|].
  intros [= <-]. split; [done|]. split; [done|]. intros tr' [= <-]. rewrite H3.
  unfold insert_or_ignore. destruct (row_exists _ (transport_receipts s)) eqn:E; [done|].
  apply row_exists_spec. eexists. split; [apply elem_of_insert_row; by right|]. apply str_eqb_refl.
Qed.

Lemma transition_receipts e exp tgt now ev w s :
  outbox_inv s → transport_receipts (transition e exp tgt now ev w s).2 = transport_receipts s.
Proof.
  intros Hi. by destruct (transition_cases e exp tgt now ev w s) as
    [[-> _]|(row & t & _ & _ & _ & _ & ->)]; [apply Hi| |].
Qed.

(** ** Theorems *)

(** C3: the executor is called only under an exclusive claim. When [execute_ready] gets to
    its transport call, the gateway was wired, the effect was queued and not past its
    deadline, the final policy check on exactly that envelope said allow, the envelope
    carries the stored payload and target, and the effect is now [executing] under this
    worker's running lease with the attempt just opened. *)
Theorem executor_only_after_claim g e now uuid s d s' :
  outbox_inv s → execute_begin g e now uuid s = (Ok (inr d), s') →
  gw_wired g = true ∧
  ∃ row row' decision p,
    effect_row_of e s = Some row ∧ eff_state row = queued ∧
    (∀ t, eff_expires_at_ms row = Some t → now < t) ∧
    authorize (dsp_envelope d) s = Ok decision ∧ dec_outcome decision = "allow" ∧
    env_effect_id (dsp_envelope d) = e ∧
    eff_payload_json row = Some p ∧ payload_from_mapping p = Ok (env_payload (dsp_envelope d)) ∧
    target_from_mapping (eff_target_json row) = Ok (env_target (dsp_envelope d)) ∧
    effect_row_of e s' = Some row' ∧ eff_state row' = executing ∧
    eff_lease_owner row' = Some (gw_worker_id g) ∧ 
    eff_lease_until_ms row' = Some (now + gw_lease_ms g) ∧ now < now + gw_lease_ms g ∧
    dsp_attempt_id d = Some uuid.
Proof.
  intros Hi Hx. destruct (execute_begin_dispatch _ _ _ _ _ _ _ Hx) as
    (Hw & st & dec & s1 & Hg & Hq & Hexp & Henv & Ha & Ho & Hs1 & Hc & Hatt).
  split; [done|]. destruct (get_effect_inv _ _ _ Hg) as (row & Hrow & Hfr).
  destruct (effect_from_row_inv _ _ Hfr) as (Hid & _ & Hst & Hex & Hp & Ht).
  destruct (to_envelope_inv _ _ Henv) as (He & Hpl & Htg & _).
  destruct (record_decision_frame dec s) as [Hf1 Hf2]. rewrite <- Hs1 in Hf1, Hf2.
  assert (outbox_inv s1) as Hi1 by (by eapply outbox_inv_ext).
  destruct (claim_cases e (gw_worker_id g) now (gw_lease_ms g) (Some (dec_policy_version dec)) uuid s1)
    as [[_ Hne]|(row1 & v & Hr1 & Hq1 & _ & _ & Hl & Heq)]; [apply Hi1|by rewrite Hc in Hne|].
  assert (s' = commit_claim e (gw_worker_id g) now (gw_lease_ms g) v uuid s1) as Hs' by congruence.
  assert (row1 = row) as -> by (unfold effect_row_of in *; rewrite Hf1 in Hr1; congruence).
  destruct (Hp _ Hpl) as (pd & Hpd & Hpm).
  exists row, (row <| eff_state := executing |> <| eff_lease_owner := Some (gw_worker_id g) |>
         <| eff_lease_until_ms := Some (now + gw_lease_ms g) |> <| eff_updated_ms := now |>), dec, pd.
  split; [done|]. split; [done|]. split; [by rewrite <- Hex|]. split; [done|]. split; [done|].
  split; [apply effect_row_of_Some in Hrow as [_ Hrid]; congruence|].
  split; [done|]. split; [done|]. split; [by apply Ht|]. split.
  { rewrite Hs'. unfold effect_row_of. cbn [commit_claim append_evidence effects set_field].
    unfold claimed_effects. rewrite by_id_update by done. unfold effect_row_of in Hr1. rewrite Hr1.
    simpl. apply by_id_Some_inv in Hr1 as [_ Hrid]. unfold has_id. rewrite Hrid, str_eqb_refl, Hq1. done. }
  do 3 (split; [done|]). split; [lia|]. rewrite Hatt, Hs'. apply open_attempt_after_claim; [done|].
  by rewrite (effect_state_of_row _ _ _ Hr1), Hq1.
Qed.

(** The recorded outcome is what the executor proved. For the worker that still holds
    the claim, finishing moves the effect to exactly the state the outcome stands for
    ([sent], [failed] when provably not run, [unknown] otherwise) and no other effect's
    state; if the transport receipt cannot be stored, the exception propagates and the
    effect stays claimed. *)
Theorem finish_records_outcome g e d o now_r now s row :
  outbox_inv s → effect_row_of e s = Some row → eff_state row = executing →
  eff_lease_owner row = Some (gw_worker_id g) →
  match recorded e d o now_r s with
  | (Raise err, _) => execute_finish g e d o now_r now s = (Raise err, s)
  | (Ok _, _) =>
      effect_state e (execute_finish g e d o now_r now s).2
        = Some (outcome_state (env_origin (dsp_envelope d)) o) ∧
      ∀ x, x ≠ e → effect_state x (execute_finish g e d o now_r now s).2 = effect_state x s
  end.
Proof.
  intros Hi Hrow Hst Hl.
  destruct (execute_finish_shape g e d o now_r now s) as [(err & -> & ->)|(s1 & Hrec & k & det & ->)]; [done|].
  rewrite Hrec.
  destruct (recorded_frame _ _ _ _ _ _ Hrec) as (He & Ha & _).
  assert (outbox_inv s1) as Hi1 by (by eapply outbox_inv_ext).
  assert (effect_row_of e s1 = Some row) as Hrow1 by (unfold effect_row_of in *; by rewrite He).
  assert (outcome_state (env_origin (dsp_envelope d)) o ∈ [sent; failed; unknown]) as Hin.
  { unfold outcome_state. destruct o as [[r|]| |ty msg typed]; [|set_solver|set_solver|].
    - destruct (_ =?s _); [destruct (_ && _); set_solver|]. destruct (_ =?s _); set_solver.
    - destruct (is_pre_dispatch_error _ _); set_solver. }
  rewrite (transition_leave e _ now _ _ s1 row) by done. cbn [snd]. split.
  - by apply (commit_transition_state _ _ _ _ _ _ row).
  - intros x Hx. rewrite <- (effect_state_ext x s s1) by done.
    eapply (effect_state_moved_other e x executing); [|done]. done.
Qed.

(** Success is never invented. Whatever happened on the store meanwhile, finishing an
    execution makes an effect [sent] only if the executor reported [sent], and for a
    participation effect only with a transport receipt, which is then already stored. *)
Theorem sent_needs_report g e d o now_r now s :
  outbox_inv s → effect_state e s ≠ Some sent →
  effect_state e (execute_finish g e d o now_r now s).2 = Some sent →
  ∃ r, o = Reported (Some r) ∧ er_state r = "sent" ∧
    (env_origin (dsp_envelope d) = "participation" →
     ∃ tr, er_transport_receipt r = Some tr ∧
       row_exists (has_id rc_receipt_id
         (receipt_id_for e (rcp_channel tr) (rcp_chat_id tr) (rcp_provider_message_id tr)
            (rcp_client_message_id tr) now_r))
         (transport_receipts (execute_finish g e d o now_r now s).2) = true).
Proof.
  intros Hi Hns.
  destruct (execute_finish_shape g e d o now_r now s) as [(err & _ & ->)|(s1 & Hrec & k & det & ->)]; [done|].
  destruct (recorded_frame _ _ _ _ _ _ Hrec) as (He & Ha & Hrc).
  assert (outbox_inv s1) as Hi1 by (by eapply outbox_inv_ext).
  destruct (transition_state e ["executing"]
    (state_str (outcome_state (env_origin (dsp_envelope d)) o)) now (evidence_map k det)
    (Some (gw_worker_id g)) s1 Hi1) as [Hsame|(t & Ht & Hst & _)].
  { rewrite Hsame, (effect_state_ext _ s s1) by done. done. }
  rewrite Hst. intros [= ->]. apply state_str_inj in Ht.
  rewrite transition_receipts by done.
  unfold outcome_state in Ht. destruct o as [[r|]| |ty msg typed]; [|done|done|by destruct (is_pre_dispatch_error _ _)].
  destruct (er_state r =?s "sent") eqn:Es; [|by destruct (er_state r =?s "not_executed")].
  exists r. split; [done|]. split; [by apply str_eqb_eq|]. intros Hpart.
  rewrite Hpart in Ht. destruct (er_transport_receipt r) as [tr|] eqn:Etr; [|done].
  exists tr. split; [done|]. apply Hrc. simpl. by rewrite Es.
Qed.

(** A late result never overrides recovery. If the effect left [executing] while the
    executor ran (its lease expired and recovery made it [unknown], say), finishing changes
    no effect and no attempt, whatever the executor reports. *)
Theorem late_result_ignored g e d o now_r now s :
  outbox_inv s → effect_state e s ≠ Some executing →
  effects (execute_finish g e d o now_r now s).2 = effects s ∧
  effect_attempts (execute_finish g e d o now_r now s).2 = effect_attempts s.
Proof.
  intros Hi Hne.
  destruct (execute_finish_shape g e d o now_r now s) as [(err & _ & ->)|(s1 & Hrec & k & det & ->)]; [done|].
  destruct (recorded_frame _ _ _ _ _ _ Hrec) as (He & Ha & _). rewrite <- He, <- Ha.
  assert (outbox_inv s1) as Hi1 by (by eapply outbox_inv_ext).
  set (tgt := state_str _).
  destruct (transition_cases e ["executing"] tgt now (evidence_map k det) (Some (gw_worker_id g)) s1)
    as [[-> _]|(row & t & Hrow & Hin & _)]; [apply Hi1|done|].
  exfalso. apply Hne. rewrite <- (effect_state_ext e s s1) by done.
  rewrite (effect_state_of_row _ _ _ Hrow). f_equal. apply state_str_inj. set_solver.
Qed.

End Gateway.

(** ** Witnesses *)

#[local] Existing Instance plain_sha256.

(** An authorizer that allows everything. *)
Definition allow_all : EffectAuthorizer := λ env _,
  Ok (MkDecision "d1" "t" "v1" "h" (env_principal env) (target_key (env_target env))
        (env_capability env) 1 "allow" "ok" 200 "final" (Some (env_effect_id env))).
#[local] Existing Instance allow_all.

Definition worker : EffectGateway := MkGateway "w" 30000 true.
Definition hello_receipt : EffectReceipt :=
  MkEffectReceipt "e1" "sent" "op1" None None true None
    (Some (MkTransportReceipt "whatsapp" "c" (Some "m1") 250 None None None None)).
Definition hello_dispatch : dispatch := MkDispatch hello_envelope "op1" (Some "a1").

Lemma executor_only_after_claim_witness :
  ∃ d, (execute_begin worker "e1" 200 "a1" queued_db).1 = Ok (inr d) ∧ dsp_attempt_id d = Some "a1".
Proof.
  destruct (execute_begin worker "e1" 200 "a1" queued_db) as [r s'] eqn:E.
  assert (∃ d, r = Ok (inr d)) as [d ->].
  { vm_compute in E. injection E as <- _. eauto. }
  exists d. split; [done|].
  destruct (executor_only_after_claim worker "e1" 200 "a1" queued_db d s' queued_db_inv E)
    as (_ & row & row' & dec & p & H). apply H.
Defined.

Lemma finish_records_outcome_witness :
  effect_state "e1" (execute_finish worker "e1" hello_dispatch (Reported (Some hello_receipt)) 250 260
                       executing_db).2 = Some sent.
Proof.
  destruct (effect_row_of "e1" executing_db) as [row|] eqn:Er; [|done].
  pose proof (finish_records_outcome worker "e1" hello_dispatch (Reported (Some hello_receipt)) 250 260
    executing_db row executing_db_inv Er) as Hw.
  vm_compute in Er. injection Er as <-. specialize (Hw eq_refl eq_refl).
  destruct (recorded _ _ _ _ _) as [[u|err] s1] eqn:Erec; [|by vm_compute in Erec].
  destruct Hw as [Hw _]. rewrite Hw. by vm_compute.
Defined.

Lemma sent_needs_report_witness :
  ∃ r, Reported (Some hello_receipt) = Reported (Some r) ∧ er_state r = "sent".
Proof.
  destruct (sent_needs_report worker "e1" hello_dispatch (Reported (Some hello_receipt)) 250 260
    executing_db executing_db_inv) as (r & H1 & H2 & _); [by vm_compute|by vm_compute|].
  by exists r.
Defined.

Lemma late_result_ignored_witness :
  effects (execute_finish worker "e1" hello_dispatch (Reported (Some hello_receipt)) 350 360 unknown_db).2
    = effects unknown_db.
Proof.
  apply (late_result_ignored worker "e1" hello_dispatch (Reported (Some hello_receipt)) 350 360
           unknown_db unknown_db_inv). by vm_compute.
Defined.
