(* ===== verification/Retention.v ===== *)
(** * Retention

    [ProcessingStore.purge]: payloads are stripped first, metadata later; effects keep
    their tombstones. [ON DELETE CASCADE] removes the relations of a deleted event. *)

From Stdlib Require Import ZArith Lia.
From S2P Require Import Prelude Tables Json Models Schema Outbox OutboxFacts OutboxSpec OutboxRefine.
From S2P Require Import Fixtures Journal.

Record PurgeReport := MkPurgeReport {
  event_payloads_purged : nat;
  effect_payloads_purged : nat;
  events_deleted : nat;
  relations_deleted : nat;
  decisions_deleted : nat;
  attempts_deleted : nat;
  evidence_deleted : nat;
  probes_deleted : nat;
  receipts_deleted : nat;
}.

(** [payload_json IS NOT NULL AND created_ms <= ? AND NOT (channel = 'whatsapp')] *)
Definition purge_event_payload (cutoff : Z) (e : event_row) : bool :=
  is_some (ev_payload_json e) && (ev_created_ms e <=? cutoff) && negb (ev_channel e =?s "whatsapp").

Definition purge_effect_payload (cutoff : Z) (r : effect_row) : bool :=
  is_some (eff_payload_json r) && (eff_updated_ms r <=? cutoff).

(** The WHERE clause of the event deletion; [rels] are the relations at that point. *)
Definition purge_event (metadata unresolved : Z) (rels : list relation_row) (e : event_row) : bool :=
  (ev_created_ms e <=? metadata) && negb (ev_channel e =?s "whatsapp")
  && negb ((unresolved <? ev_created_ms e)
           && row_exists (λ r, (rel_event_id r =?s ev_event_id e) && negb (rel_resolved r)) rels).

(** [purge] *)
Definition purge (retention : RetentionSettings) (now_ms : Z) : prog db PurgeReport :=
  let payload_cutoff := now_ms - journal_payload_ms retention in
  let metadata_cutoff := now_ms - metadata_ms retention in
  let unresolved_cutoff := now_ms - unresolved_ms retention in
  write (λ s,
    let pe := purge_event_payload payload_cutoff in
    let s1 := s <| events ::= update pe (λ e, e <| ev_payload_json := None |>
                                                <| ev_payload_purged_ms := Some now_ms |>) |> in
    let pf := purge_effect_payload payload_cutoff in
    let s2 := s1 <| effects ::= update pf (λ r, r <| eff_payload_json := None |>
                                                  <| eff_payload_purged_ms := Some now_ms |>) |> in
    let pd := purge_event metadata_cutoff unresolved_cutoff (event_relations s2) in
    let gone := map ev_event_id (select pd (events s2)) in
    let s3 := s2 <| events ::= delete_rows pd |>
                 <| event_relations ::= delete_rows (λ r, str_in (rel_event_id r) gone) |> in
    let old_decision := λ d, dec_created_ms d <=? metadata_cutoff in
    let old_attempt := λ a, att_started_ms a <=? metadata_cutoff in
    let old_evidence := λ v, evd_observed_ms v <=? metadata_cutoff in
    let old_probe := λ p, match pb_finished_ms p with
                          | Some t => t <=? metadata_cutoff
                          | None => false
                          end in
    let old_receipt := λ r, rc_confirmed_ms r <=? metadata_cutoff in
    Ok ({| event_payloads_purged := rowcount pe (events s);
           effect_payloads_purged := rowcount pf (effects s);
           events_deleted := rowcount pd (events s2);
           relations_deleted := length (event_relations s2) - length (event_relations s3);
           decisions_deleted := rowcount old_decision (decisions s);
           attempts_deleted := rowcount old_attempt (effect_attempts s);
           evidence_deleted := rowcount old_evidence (effect_evidence s);
           probes_deleted := rowcount old_probe (reconciliation_probes s);
           receipts_deleted := rowcount old_receipt (transport_receipts s) |},
        s3 <| decisions ::= delete_rows old_decision |>
           <| effect_attempts ::= delete_rows old_attempt |>
           <| effect_evidence ::= delete_rows old_evidence |>
           <| reconciliation_probes ::= delete_rows old_probe |>
           <| transport_receipts ::= delete_rows old_receipt |>)).

(** ** Facts *)

Section Facts.
  Context `{Sha256}.

Definition after_purge (ret : RetentionSettings) (now : Z) (s : db) : db := (purge ret now s).2.

Lemma purge_effects ret now s :
  effects (after_purge ret now s) =
    update (purge_effect_payload (now - journal_payload_ms ret))
      (λ r, r <| eff_payload_json := None |> <| eff_payload_purged_ms := Some now |>) (effects s).
Proof. done. Qed.

Lemma purge_events ret now s :
  events (after_purge ret now s) =
    delete_rows (purge_event (now - metadata_ms ret) (now - unresolved_ms ret) (event_relations s))
      (update (purge_event_payload (now - journal_payload_ms ret))
         (λ e, e <| ev_payload_json := None |> <| ev_payload_purged_ms := Some now |>) (events s)).
Proof. done. Qed.

Lemma purge_prog ret now : outbox_prog (purge ret now) (λ _ ls, ls = [LHouse]).
Proof.
  intros s Hi. exists [LHouse]. split; [|done]. apply outbox_steps_one.
  apply (step_house _ _ (λ a, negb (att_started_ms a <=? now - metadata_ms ret))); [|done].
  change (effects (purge ret now s).2) with (effects (after_purge ret now s)).
  rewrite purge_effects. unfold update.
  induction (effects s) as [|r t IH]; simpl; constructor; [|done].
  destruct (purge_effect_payload _ r); repeat split; auto.
Qed.

(** ** Theorems *)

(** Retention never forgets an operation. Every effect survives a purge with its
    identity, hashes and state (at most its payload is stripped), so its operation key
    still refuses a second execution. *)
Theorem purge_keeps_effects ret now s e row :
  effect_row_of e s = Some row →
  ∃ row', effect_row_of e (after_purge ret now s) = Some row' ∧ frozen row' = frozen row ∧
          eff_state row' = eff_state row ∧ eff_lease_owner row' = eff_lease_owner row ∧
          (eff_payload_json row' = eff_payload_json row ∨ eff_payload_json row' = None) ∧
          length (effects (after_purge ret now s)) = length (effects s).
Proof.
  intros Hr. rewrite purge_effects. unfold effect_row_of in *. rewrite purge_effects.
  rewrite by_id_update by done. rewrite Hr. cbn [fmap option_fmap option_map].
  eexists. split; [done|]. rewrite length_update.
  destruct (purge_effect_payload _ row); repeat split; auto.
Qed.

(** The canonical WhatsApp log is exempt. A purge removes neither the row nor the
    payload of a WhatsApp event, whatever its age. *)
Theorem purge_keeps_whatsapp ret now s e :
  e ∈ events s → ev_channel e = "whatsapp" → e ∈ events (after_purge ret now s).
Proof.
  intros He Hch. rewrite purge_events. apply elem_of_delete_rows. split.
  - apply elem_of_update. exists e. split; [done|]. unfold purge_event_payload.
    by rewrite Hch, str_eqb_refl, andb_false_r.
  - unfold purge_event. by rewrite Hch, str_eqb_refl, andb_false_r.
Qed.

(** Retention respects its windows. An event younger than the metadata window is never
    deleted, one younger than the payload window keeps its payload too, and an event with
    an unresolved relation survives until the unresolved window has passed. *)
Theorem purge_respects_windows ret now s e :
  e ∈ events s →
  (now - metadata_ms ret < ev_created_ms e ∨
   (now - unresolved_ms ret < ev_created_ms e ∧
    ∃ r, r ∈ event_relations s ∧ rel_event_id r = ev_event_id e ∧ rel_resolved r = false)) →
  ∃ e', e' ∈ events (after_purge ret now s) ∧ ev_event_id e' = ev_event_id e ∧
        ev_event_key e' = ev_event_key e ∧ ev_payload_hash e' = ev_payload_hash e ∧
        (now - journal_payload_ms ret < ev_created_ms e → e' = e).
Proof.
  intros He Hyoung. rewrite purge_events.
  set (f := λ e : event_row, e <| ev_payload_json := None |> <| ev_payload_purged_ms := Some now |>).
  set (p := purge_event_payload _). exists (if p e then f e else e). split.
  - apply elem_of_delete_rows. split; [apply elem_of_update; eauto|].
    assert (∀ x, ev_event_id x = ev_event_id e → ev_created_ms x = ev_created_ms e →
              ev_channel x = ev_channel e →
              purge_event (now - metadata_ms ret) (now - unresolved_ms ret) (event_relations s) x = false) as Hx.
    { intros x H1 H2 H3. unfold purge_event. rewrite H1, H2. destruct Hyoung as [Hy|(Hy & r & Hr & Hid & Hres)].
      - rewrite (proj2 (Z.leb_gt _ _)) by lia. done.
      - rewrite (proj2 (Z.ltb_lt _ _)) by lia.
        assert (row_exists (λ r0, (rel_event_id r0 =?s ev_event_id e) && negb (rel_resolved r0))
                  (event_relations s) = true) as ->.
        { apply row_exists_spec. exists r. split; [done|]. by rewrite Hid, Hres, str_eqb_refl. }
        cbn [andb negb]. apply andb_false_r. }
    destruct (p e); by apply Hx.
  - destruct (p e) eqn:Ep; simpl; (do 3 (split; [done|])); [|done].
    intros Hp. unfold p, purge_event_payload in Ep. rewrite (proj2 (Z.leb_gt _ _)) in Ep by lia.
    by rewrite andb_false_r in Ep.
Qed.

End Facts.

(** ** Witnesses *)

#[local] Existing Instance plain_sha256.

Lemma purge_keeps_effects_witness :
  ∃ row', effect_row_of "e1" (after_purge default_retention (10 * DAY_MS) queued_db) = Some row' ∧
          eff_state row' = queued ∧ eff_payload_json row' = None.
Proof.
  destruct (effect_row_of "e1" queued_db) as [row|] eqn:Er; [|by vm_compute in Er].
  destruct (purge_keeps_effects default_retention (10 * DAY_MS) queued_db "e1" row Er)
    as (row' & H1 & _ & H3 & _).
  exists row'. split; [done|]. vm_compute in H1. vm_compute in Er.
  injection H1 as <-. injection Er as <-. done.
Defined.

Lemma purge_keeps_whatsapp_witness :
  ∃ e, e ∈ events (after_purge default_retention (400 * DAY_MS) after_hello) ∧ ev_event_id e = "e1".
Proof.
  destruct (events after_hello) as [|e l] eqn:Ee; [by vm_compute in Ee|].
  assert (e ∈ events after_hello) as Hin by (rewrite Ee; set_solver).
  assert (ev_channel e = "whatsapp" ∧ ev_event_id e = "e1") as [Hc Hid].
  { vm_compute in Ee. injection Ee as <- _. done. }
  exists e. split; [by apply (purge_keeps_whatsapp default_retention)|done].
Defined.

Lemma purge_respects_windows_witness :
  ∃ e', e' ∈ events (after_purge default_retention (20 * DAY_MS) after_hello).
Proof.
  destruct (events after_hello) as [|e l] eqn:Ee; [by vm_compute in Ee|].
  assert (e ∈ events after_hello) as Hin by (rewrite Ee; set_solver).
  destruct (purge_respects_windows default_retention (20 * DAY_MS) after_hello e Hin) as (e' & H & _).
  - left. vm_compute in Ee. injection Ee as <- _. by vm_compute.
  - by exists e'.
Defined.
