(* ===== verification/Admissions.v ===== *)
(** * Admissions

    The durable fence of directly admitted turns and the short-reply claims of
    [processing/store.py]: [note_direct_admission], [finish_direct_admission],
    [direct_work_active], [recover_direct_admissions], [claim_short_reply] and
    [complete_short_reply]. *)

From Stdlib Require Import ZArith Lia.
From S2P Require Import Prelude Tables Json Models Schema Outbox ThreadStore.

Section Definitions.
  Context `{Sha256}.

(** ** Direct admissions *)

Definition of_direct_chat (channel chat_id : string) (r : direct_row) : bool :=
  (dir_channel r =?s channel) && (dir_chat_id r =?s chat_id).

(** [direct_arbitration_revision]: [COALESCE(MAX(arbitration_revision), 0)] *)
Definition direct_arbitration_revision (channel chat_id : string) (s : db) : Z :=
  match map dir_arbitration_revision (select (of_direct_chat channel chat_id) (direct_admissions s)) with
  | [] => 0
  | x :: l => foldr Z.max x l
  end.

Definition binding_id_for (channel chat_id event_id turn_id : string) : string :=
  "direct-" +:+ hash_prefix 32 (JArr [JStr channel; JStr chat_id; JStr event_id; JStr turn_id]).

(** [note_direct_admission]: the event identity is the idempotency key. A turn or binding
    id that is already taken violates its UNIQUE constraint. *)
Definition note_direct_admission (channel chat_id event_id turn_id : string) (now_ms : Z)
    : prog db Z :=
  let channel := py_strip channel in
  let chat_id := py_strip chat_id in
  let event_id := py_strip event_id in
  let turn_id := py_strip turn_id in
  if negb (str_true channel) || negb (str_true chat_id) || negb (str_true event_id)
     || negb (str_true turn_id)
  then praise (ValueError "channel, chat_id, event_id and turn_id are required")
  else write (λ s,
    match fetchone (λ r, of_direct_chat channel chat_id r && (dir_event_id r =?s event_id))
            (direct_admissions s) with
    | Some row => Ok (dir_arbitration_revision row, s)
    | None =>
        let revision := direct_arbitration_revision channel chat_id s + 1 in
        let binding_id := binding_id_for channel chat_id event_id turn_id in
        if row_exists (λ r, has_id dir_binding_id binding_id r || has_id dir_turn_id turn_id r)
             (direct_admissions s)
        then Raise (IntegrityError "UNIQUE constraint failed: direct_admissions")
        else Ok (revision, s <| direct_admissions ::= insert_row
               (MkDirect binding_id channel chat_id event_id turn_id revision "active" now_ms None) |>)
    end).

(** [finish_direct_admission] *)
Definition finish_direct_admission (turn_id : string) (now_ms : Z) : prog db unit :=
  let turn_id := py_strip turn_id in
  if negb (str_true turn_id) then pret tt
  else write (λ s, Ok (tt, s <| direct_admissions ::=
    update (λ r, has_id dir_turn_id turn_id r && (dir_state r =?s "active"))
      (λ r, r <| dir_state := "finished" |> <| dir_finished_ms := Some now_ms |>) |>)).

(** [direct_admission_for_event]: the newest binding *)
Definition direct_admission_for_event (event_id : string) (channel chat_id : option string) (s : db)
    : option direct_row :=
  let token := py_strip event_id in
  if negb (str_true token) then None
  else head (order_by (λ a b, time_id_leb (dir_created_ms b, dir_binding_id b)
                                (dir_created_ms a, dir_binding_id a))
               (select (λ r, (dir_event_id r =?s token) && opt_filter channel (dir_channel r)
                             && opt_filter chat_id (dir_chat_id r)) (direct_admissions s))).

(** [direct_work_active]: an active binding whose turn is unknown or still open *)
Definition direct_work_active (channel chat_id : string) (s : db) : bool :=
  row_exists (λ d, of_direct_chat channel chat_id d && (dir_state d =?s "active")
                   && match get_turn (dir_turn_id d) s with
                      | None => true
                      | Some t => turn_open t
                      end) (direct_admissions s).

(** [recover_direct_admissions] *)
Definition recover_direct_one (now_ms : Z) (s : db) (binding_id : string) : db :=
  s <| direct_admissions ::=
         update (λ r, has_id dir_binding_id binding_id r && (dir_state r =?s "active"))
           (λ r, r <| dir_state := "recovered" |> <| dir_finished_ms := Some now_ms |>) |>.

Definition recover_direct_admissions (now_ms : Z) : prog db (list string) :=
  write (λ s,
    let ids := map dir_binding_id (select (λ r, dir_state r =?s "active") (direct_admissions s)) in
    Ok (ids, foldl (recover_direct_one now_ms) s ids)).

(** ** Short replies *)

Definition of_message (channel chat_id message_id : string) (r : short_reply_row) : bool :=
  (sr_channel r =?s channel) && (sr_chat_id r =?s chat_id) && (sr_message_id r =?s message_id).

(** [latest[source] = max(latest.get(source, 0), created)] *)
Fixpoint note_latest (source : string) (created : Z) (d : list (string * Z)) : list (string * Z) :=
  match d with
  | [] => [(source, Z.max 0 created)]
  | (k, v) :: d' => if k =?s source then (k, Z.max v created) :: d'
                    else (k, v) :: note_latest source created d'
  end.

(** The source of a reaction: its message id, or a name made from its time. *)
Definition source_name (message_id : string) (created : Z) : string :=
  if str_true message_id then message_id else "effect@" +:+ pretty created.

Definition REACTION_STATES : list EffectState :=
  [planned; queued; executing; sent; unknown; unknown_nonrepeatable].

(** Reactions already planned or claimed in the chat since the horizon. *)
Definition recent_reactions (channel chat_id : string) (horizon : Z) (s : db) : list (string * Z) :=
  map (λ e, (str_or_empty (dict_get "message_id" (default [] (eff_payload_json e))), eff_created_ms e))
    (select (λ e, (eff_capability e =?s "send_reaction") && state_in (eff_state e) REACTION_STATES
                  && field_is "channel" channel (eff_target_json e)
                  && field_is "chat_id" chat_id (eff_target_json e)
                  && (horizon <=? eff_created_ms e)) (effects s))
  ++ map (λ r, (sr_message_id r, sr_created_ms r))
       (select (λ r, (sr_channel r =?s channel) && (sr_chat_id r =?s chat_id)
                     && (horizon <=? sr_created_ms r)
                     && ((sr_status r =?s "pending")
                         || ((sr_status r =?s "react") && (sr_mode r =?s "live"))))
          (short_reply_decisions s)).

(** [sorted(latest.values(), reverse=True)] *)
Definition reaction_times (rows : list (string * Z)) : list Z :=
  order_by (λ a b, b <=? a)
    (map snd (foldl (λ d r, note_latest (source_name r.1 r.2) r.2 d) [] rows)).

(** The burst test: [count] reactions close together, the newest still cooling. *)
Definition cooling (times : list Z) (count window_seconds cooldown_seconds now : Z) : bool :=
  (1 <=? count) && (count <=? Z.of_nat (length times))
  && match times !! 0%nat, times !! Z.to_nat (count - 1) with
     | Some newest, Some nth => (newest - nth <=? window_seconds * 1000)
                                && (now - newest <? cooldown_seconds * 1000)
     | _, _ => false
     end.

(** [claim_short_reply] *)
Definition claim_short_reply (channel chat_id message_id : string)
    (now count window_seconds cooldown_seconds : Z) (mode : string) : prog db string :=
  let horizon := now - (window_seconds + cooldown_seconds) * 1000 in
  write (λ s,
    if row_exists (of_message channel chat_id message_id) (short_reply_decisions s)
    then Ok ("duplicate", s) else
    let times := reaction_times (recent_reactions channel chat_id horizon s) in
    let cool := cooling times count window_seconds cooldown_seconds now in
    Ok (if cool then "cooldown" else "claimed",
        s <| short_reply_decisions ::= insert_row
               (MkShortReply channel chat_id message_id mode (if cool then "cooldown" else "pending")
                  None now now) |>)).

(** [complete_short_reply] *)
Definition complete_short_reply (channel chat_id message_id outcome : string) (emoji : option string)
    (now_ms : Z) : prog db unit :=
  write (λ s, Ok (tt, s <| short_reply_decisions ::=
    update (λ r, of_message channel chat_id message_id r && (sr_status r =?s "pending"))
      (λ r, r <| sr_status := outcome |> <| sr_emoji := emoji |> <| sr_updated_ms := now_ms |>) |>)).

(** ** Facts *)

Lemma max_revision_ge channel chat_id s r :
  r ∈ direct_admissions s → dir_channel r = channel → dir_chat_id r = chat_id →
  dir_arbitration_revision r ≤ direct_arbitration_revision channel chat_id s.
Proof.
  intros Hr Hc Hch. unfold direct_arbitration_revision.
  assert (dir_arbitration_revision r ∈ map dir_arbitration_revision
            (select (of_direct_chat channel chat_id) (direct_admissions s))) as Hin.
  { apply list_elem_of_fmap_2, elem_of_select. split; [done|]. unfold of_direct_chat.
    by rewrite Hc, Hch, !str_eqb_refl. }
  destruct (map _ _) as [|x l]; [by apply not_elem_of_nil in Hin|]. revert Hin. clear.
  generalize (dir_arbitration_revision r). intros z.
  induction l as [|y l IH]; intros Hin; [set_solver by lia|]. simpl.
  apply elem_of_cons in Hin as [->|[->|Hin]%elem_of_cons]; [|lia|].
  - specialize (IH ltac:(set_solver)). lia.
  - specialize (IH ltac:(set_solver)). lia.
Qed.

(** ** Theorems *)

(** Direct admission is idempotent per event and orders the admissions of a chat. A new
    event gets a revision strictly above every earlier one of its chat; noting the same
    event again, at any time and with any turn, returns that revision and adds nothing. *)
Theorem direct_admission_fence ch chat ev turn now s rev s' turn2 now2 :
  note_direct_admission ch chat ev turn now s = (Ok rev, s') → py_strip turn2 ≠ "" →
  note_direct_admission ch chat ev turn2 now2 s' = (Ok rev, s') ∧
  (s' = s ∨
   ∀ r, r ∈ direct_admissions s → dir_channel r = py_strip ch → dir_chat_id r = py_strip chat →
        dir_arbitration_revision r < rev).
Proof.
  intros Hx Ht2. unfold note_direct_admission in *.
  apply str_true_spec in Ht2. rewrite Ht2.
  destruct (str_true (py_strip ch)); [|done]. destruct (str_true (py_strip chat)); [|done].
  destruct (str_true (py_strip ev)); [|done]. destruct (str_true (py_strip turn)); [|done].
  cbn [negb orb] in *. unfold write in *.
  set (p := λ r, of_direct_chat (py_strip ch) (py_strip chat) r && (dir_event_id r =?s py_strip ev)) in *.
  destruct (fetchone p (direct_admissions s)) as [row|] eqn:Ef.
  - injection Hx as <- <-. rewrite Ef. split; [done|by left].
  - destruct (row_exists _ _); [done|]. injection Hx as <- <-. split.
    + cbn [direct_admissions set_field]. rewrite fetchone_insert_row, Ef.
      unfold p. unfold of_direct_chat. cbn [dir_channel dir_chat_id dir_event_id].
      by rewrite !str_eqb_refl.
    + right. intros r Hr Hc Hch. pose proof (max_revision_ge _ _ _ _ Hr Hc Hch). lia.
Qed.

Lemma recover_direct_fold now ids s :
  direct_admissions (foldl (recover_direct_one now) s ids) =
    update (λ r, str_in (dir_binding_id r) ids && (dir_state r =?s "active"))
      (λ r, r <| dir_state := "recovered" |> <| dir_finished_ms := Some now |>) (direct_admissions s).
Proof.
  revert s. induction ids as [|b ids IH]; intros s; simpl; [symmetry; by apply update_none|].
  rewrite IH. cbn [recover_direct_one direct_admissions set_field]. unfold update. rewrite map_map.
  apply map_ext. intros r. unfold has_id. simpl.
  destruct (dir_binding_id r =?s b) eqn:Eb; simpl; [|done].
  destruct (dir_state r =?s "active") eqn:Es; simpl.
  - by destruct (str_in _ ids).
  - by rewrite Es, andb_false_r.
Qed.

(** Startup recovery lifts every fence. Afterwards no chat has active direct work, so a
    crash never mutes a chat for good, and bindings that were not active are unchanged. *)
Theorem recovery_lifts_fences now s ch chat :
  let s' := (recover_direct_admissions now s).2 in
  direct_work_active ch chat s' = false ∧
  ∀ r, r ∈ direct_admissions s → dir_state r ≠ "active" → r ∈ direct_admissions s'.
Proof.
  unfold recover_direct_admissions, write. cbn [snd]. set (ids := map _ _). split.
  - apply row_exists_false. intros r Hr. rewrite recover_direct_fold in Hr.
    apply elem_of_update in Hr as (r0 & Hr0 & ->).
    destruct (dir_state r0 =?s "active") eqn:Es.
    + assert (str_in (dir_binding_id r0) ids = true) as ->.
      { apply str_in_spec. unfold ids. by apply list_elem_of_fmap_2, elem_of_select. }
      cbn [andb dir_state set_field]. unfold set_field. simpl. by rewrite andb_false_r.
    + rewrite andb_false_r. by rewrite Es, andb_false_r.
  - intros r Hr Hne. rewrite recover_direct_fold. apply elem_of_update. exists r. split; [done|].
    apply str_eqb_neq in Hne. by rewrite Hne, andb_false_r.
Qed.

(** A message is decided at most once by the short-reply path. After a claim, whatever
    it returned, every further claim of the same message is a duplicate and changes
    nothing. *)
Theorem short_reply_once ch chat msg now count win cool mode s now2 count2 win2 cool2 mode2 :
  let s' := (claim_short_reply ch chat msg now count win cool mode s).2 in
  claim_short_reply ch chat msg now2 count2 win2 cool2 mode2 s' = (Ok "duplicate", s').
Proof.
  unfold claim_short_reply, write.
  destruct (row_exists (of_message ch chat msg) (short_reply_decisions s)) eqn:E; cbn [snd]; [by rewrite E|].
  assert (∀ st, row_exists (of_message ch chat msg)
            (insert_row (MkShortReply ch chat msg mode st None now now) (short_reply_decisions s)) = true) as Hx.
  { intros st. apply row_exists_spec. eexists. split; [apply elem_of_insert_row; by right|].
    unfold of_message. simpl. by rewrite !str_eqb_refl. }
  cbn [short_reply_decisions set_field]. by rewrite Hx.
Qed.

End Definitions.

Lemma direct_admission_fence_witness :
  let s' := (@note_direct_admission plain_sha256 "whatsapp" "c" "e1" "t1" 100 empty_db).2 in
  @note_direct_admission plain_sha256 "whatsapp" "c" "e1" "t2" 200 s' = (Ok 1, s').
Proof.
  apply (@direct_admission_fence plain_sha256 "whatsapp" "c" "e1" "t1" 100 empty_db 1); [by vm_compute|done].
Defined.
