(* ===== verification/Reconcile.v ===== *)
(** * Reconcile

    [processing/reconcile.py]: bounded reconciliation of effects whose outcome is
    unproven. The reconciler reads durable evidence and moves the effect through the state
    machine; it never calls a transport. An [await] on a probe is a point where another
    program ([others]) may run on the store. *)

From Stdlib Require Import ZArith Lia.
From S2P Require Import Prelude Tables Json Models Schema Outbox OutboxFacts OutboxSpec OutboxRefine.
From S2P Require Import Fixtures Journal Receipts Gateway.

Definition DELIVERED_STATUSES : list string := ["delivered"; "read"; "played"; "read-self"].

Inductive ProbeOutcome := CONFIRMED | NOT_EXECUTED | INCONCLUSIVE.

Definition outcome_str (o : ProbeOutcome) : string :=
  match o with
  | CONFIRMED => "confirmed" | NOT_EXECUTED => "not_executed" | INCONCLUSIVE => "inconclusive"
  end.

Record ProbeResult := MkProbeResult { prs_outcome : ProbeOutcome; prs_detail : option string }.

(** The effect's metadata with its attempts, its transport receipt and signals. *)
Record ProbeRequest := MkProbeRequest {
  prq_effect : effect_row;
  prq_attempts : list attempt_row;
  prq_transport : option TransportReceipt;
  prq_attempt_number : Z;
  prq_deadline_ms : Z;
  prq_signals : list event_row;
}.

(** [transport is not None and transport.provider_message_id] *)
Definition provider_id (t : option TransportReceipt) : option string :=
  match t with
  | Some t => match rcp_provider_message_id t with
              | Some m => if str_true m then Some m else None
              | None => None
              end
  | None => None
  end.

(** [str(payload.get("status") or signal.kind).lower()] *)
Definition signal_status (e : event_row) : string :=
  let st := str_or_empty (dict_get "status" (default [] (ev_payload_json e))) in
  py_lower (if str_true st then st else ev_kind e).

(** [LocalEvidenceProbe.probe]; [lookup] is the provider lookup when one is enabled, which
    may raise (an exception type name), answer nothing, or answer. *)
Definition local_probe (lookup : option (ProbeRequest → string + option ProbeResult))
    (request : ProbeRequest) : ProbeResult :=
  let pid := provider_id (prq_transport request) in
  let channel := match prq_transport request with Some t => rcp_channel t | None => "" end in
  let stage4 :=
    if existsb (λ a, opt_str_eqb (att_outcome a) (Some "failed")) (prq_attempts request)
    then MkProbeResult NOT_EXECUTED (Some "transport refused before dispatch")
    else MkProbeResult INCONCLUSIVE (Some "no durable evidence for this effect") in
  let stage3 :=
    match pid, lookup with
    | Some _, Some look =>
        match look request with
        | inl name => MkProbeResult INCONCLUSIVE (Some ("provider lookup failed: " +:+ name))
        | inr (Some result) => result
        | inr None => stage4
        end
    | _, _ => stage4
    end in
  let stage2 :=
    match pid with
    | Some _ =>
        match List.find (λ e, str_in (signal_status e) DELIVERED_STATUSES) (prq_signals request) with
        | Some e => MkProbeResult CONFIRMED (Some ("provider signal " +:+ signal_status e))
        | None => stage3
        end
    | None => stage3
    end in
  match pid with
  | Some _ => MkProbeResult CONFIRMED (Some ("transport reported provider id (" +:+ channel +:+ ")"))
  | None => stage2
  end.

Record ReconciliationResult := MkReconciliation {
  rr_effect_id : string;
  rr_outcome : option ProbeOutcome;
  rr_state : option string;
  rr_detail : option string;
}.

Section Reconcile.
  Context `{Sha256}.

(** The signals of an effect's provider message. *)
Definition signals_for (t : option TransportReceipt) (s : db) : list event_row :=
  match t, provider_id t with
  | Some t, Some m => delivery_signals (rcp_channel t) (rcp_chat_id t) m 20 s
  | _, _ => []
  end.

Definition request_for (effect : effect_row) (attempts : list attempt_row) (effect_id : string)
    (attempt_number deadline_ms : Z) (s : db) : ProbeRequest :=
  let transport := effect_transport_receipt effect_id s in
  MkProbeRequest effect attempts transport attempt_number deadline_ms (signals_for transport s).

(** [reconcile_effect] from the probe's answer on: the consequence of the verdict, where
    [st] is the state read before the probe was awaited. *)
Definition reconcile_resume (effect_id : string) (st : EffectState) (result : ProbeResult)
    (moment : Z) (deadline_ms : option Z) : prog db ReconciliationResult :=
  let expected := [state_str st] in
  match prs_outcome result with
  | CONFIRMED =>
      do* transition effect_id expected "sent" moment
            (evidence_map "probe" (detail_or (prs_detail result) "confirmed")) None in
      pret (MkReconciliation effect_id (Some CONFIRMED) (Some "sent") (prs_detail result))
  | NOT_EXECUTED =>
      do* transition effect_id expected "queued" moment
            (evidence_map "not_executed" (detail_or (prs_detail result) "proven not executed")) None in
      pret (MkReconciliation effect_id (Some NOT_EXECUTED) (Some "queued") (prs_detail result))
  | INCONCLUSIVE =>
      if match deadline_ms with Some d => d <=? moment | None => false end then
        do* transition effect_id expected "unknown_nonrepeatable" moment
              (evidence_map "probe" "deadline reached; operator decision required") None in
        do* record_evidence effect_id "operator" moment (Some "pending local operator decision") None in
        pret (MkReconciliation effect_id (Some INCONCLUSIVE) (Some "unknown_nonrepeatable")
                (prs_detail result))
      else pret (MkReconciliation effect_id (Some INCONCLUSIVE) None (prs_detail result))
  end.

(** [reconcile_effect] *)
Definition reconcile_effect (effect_id : string) (probe : ProbeRequest → ProbeResult)
    (others : prog db unit) (moment attempt_number : Z) (deadline_ms : option Z)
    : prog db ReconciliationResult :=
  let* meta := pget (λ s, (effect_row_of effect_id s, attempts_for effect_id s)) in
  match meta with
  | (None, _) => praise (ProcessingError "unknown effect")
  | (Some effect, attempts) =>
  let* state := pget (effect_state effect_id) in
  match state with
  | None => pret (MkReconciliation effect_id None None (Some "not reconcilable"))
  | Some st =>
  if negb (state_in st [unknown; unknown_nonrepeatable])
  then pret (MkReconciliation effect_id None (Some (state_str st)) (Some "not reconcilable"))
  else
  let* request := pget (request_for effect attempts effect_id attempt_number
                          (default moment deadline_ms)) in
  let result := probe request in
  do* (λ s, (Ok tt, (others s).2)) in
  reconcile_resume effect_id st result moment deadline_ms
  end
  end.

(** [operator_decision]; [decision_id] is the fresh [uuid4]. *)
Definition operator_decision (effect_id decision operator_id policy_version policy_hash : string)
    (moment : Z) (decision_id : string) : prog db ReconciliationResult :=
  if negb (str_in decision ["confirmed_sent"; "confirmed_absent"; "abandon"])
  then praise (ValueError "unknown operator decision") else
  let* state := pget (effect_state effect_id) in
  if negb (match state with Some st => state_eqb st unknown_nonrepeatable | None => false end)
  then praise (ProcessingError "effect is not escalated") else
  let* record := pread (λ _, DecisionRecord_check
    {| dec_decision_id := decision_id; dec_trace_id := ""; dec_policy_version := policy_version;
       dec_policy_hash := policy_hash; dec_principal := operator_id; dec_target := "";
       dec_capability := "reconciliation.operator"; dec_turn_revision := 1;
       dec_outcome := if decision =?s "confirmed_sent" then "allow" else "deny";
       dec_reason := "operator_decision:" +:+ decision; dec_created_ms := moment;
       dec_stage := "admin"; dec_effect_id := Some effect_id |}) in
  do* record_decision record in
  do* record_evidence effect_id "operator" moment (Some (decision +:+ " by " +:+ operator_id)) None in
  if decision =?s "confirmed_sent" then
    do* transition effect_id ["unknown_nonrepeatable"] "sent" moment
          (EvidenceRecord (MkEvidence "operator" (Some ("confirmed_sent by " +:+ operator_id)) None None None))
          None in
    pret (MkReconciliation effect_id (Some CONFIRMED) (Some "sent") (Some decision))
  else pret (MkReconciliation effect_id None (state_str <$> state) (Some decision)).

(** [probe_due_ms]: [unknown + sum(backoff[:k]) * 1000] *)
Definition probe_due_ms (unknown_ms attempt_number : Z) (backoff_seconds : list Z) : result Z :=
  if attempt_number <? 1 then Raise (ValueError "attempt_number must be positive")
  else Ok (unknown_ms + foldr Z.add 0 (take (Z.to_nat attempt_number) backoff_seconds) * 1000).

(** ** Late receipt evidence ([processing/signals.py]) *)

(** [receipt_evidence]: (kind, recipient token), first occurrences *)
Definition evidence_of_signal (e : event_row) : list (string * string) :=
  let payload := default [] (ev_payload_json e) in
  let status := py_lower (str_or_empty (dict_get "status" payload)) in
  if str_in status DELIVERED_STATUSES
  then [(status, let t := str_or_empty (dict_get "recipient_token" payload) in
                 if str_true t then t else "unknown")]
  else [].

Definition receipt_evidence (signals : list event_row) : list (string * string) :=
  dedup_pairs [] (concat (map evidence_of_signal signals)).

Definition evidence_text (item : string * string) : string :=
  item.1 +:+ ":recipient=" +:+ item.2.

(** Details already attached to the effect, among the first 500 effects only. *)
Definition known_details (effect_id : string) (s : db) : list string :=
  if row_exists (has_id eff_effect_id effect_id) (list_effects None 500 s)
  then map (λ v, default "" (evd_detail v)) (select (λ v, evd_effect_id v =?s effect_id) (effect_evidence s))
  else [].

Fixpoint attach_items (effect_id : string) (now_ms : Z) (items : list (string * string))
    : prog db nat :=
  match items with
  | [] => pret 0%nat
  | item :: items' =>
      let* known := pget (known_details effect_id) in
      if str_in (evidence_text item) known then attach_items effect_id now_ms items'
      else do* record_evidence effect_id item.1 now_ms (Some (evidence_text item)) None in
           let* n := attach_items effect_id now_ms items' in
           pret (S n)
  end.

(** [attach_receipt_evidence] *)
Definition attach_receipt_evidence (effect_id : string) (now_ms : Z) : prog db nat :=
  let* receipt := pget (effect_transport_receipt effect_id) in
  match provider_id receipt with
  | None => pret 0%nat
  | Some _ =>
      let* signals := pget (signals_for receipt) in
      attach_items effect_id now_ms (receipt_evidence signals)
  end.

(** ** ReconciliationService *)

Record reconcile_config := MkReconcileConfig {
  rcf_max_probes : Z;
  rcf_deadline_seconds : Z;
  rcf_backoff_seconds : list Z;
  rcf_claim_lease_seconds : Z;
}.

(** What awaiting the probe comes to ([asyncio.wait_for]: a timeout is an exception). *)
Inductive probe_await :=
| ProbeReturned (r : ProbeResult)
| ProbeCancelled
| ProbeRaised (type_name : string).

(** [_escalate] *)
Definition escalate (effect_id : string) (now : Z) (reason : string) : prog db ReconciliationResult :=
  let* state := pget (effect_state effect_id) in
  do*
    match state with
    | Some unknown =>
        do* transition effect_id ["unknown"] "unknown_nonrepeatable" now (evidence_map "probe" reason) None in
        record_evidence effect_id "operator" now (Some "pending local operator decision") None
    | Some unknown_nonrepeatable =>
        record_evidence effect_id "operator" now (Some "pending local operator decision") None
    | _ => pret tt
    end in
  pret (MkReconciliation effect_id (Some INCONCLUSIVE) (Some "unknown_nonrepeatable") (Some reason)).

(** What a probe is called with after its claim was won. *)
Record probe_call := MkProbeCall { pc_request : ProbeRequest; pc_probe : probe_row }.

(** [_reconcile_candidate] from the open probe up to the probe call: a result, nothing to
    do yet, or a call under this worker's lease. *)
Definition probe_begin (cfg : reconcile_config) (worker_id : string) (effect : effect_row)
    (attempts : list attempt_row) (effect_id : string) (now deadline_ms : Z) (force : bool)
    (p : probe_row) : prog db (option ReconciliationResult + probe_call) :=
  if deadline_ms <=? now then
    do* finish_probe (pb_probe_id p) "inconclusive" now worker_id (Some "deadline_passed") in
    let* r := escalate effect_id now "probe_deadline" in
    pret (inl (Some r))
  else if negb force && (now <? pb_due_ms p) then pret (inl None) else
  let* won := claim_probe (pb_probe_id p) worker_id now (rcf_claim_lease_seconds cfg * 1000) in
  if negb won then pret (inl None) else
  let* transport := pget (effect_transport_receipt effect_id) in
  do* match provider_id transport with
      | Some _ => do* attach_receipt_evidence effect_id now in pret tt
      | None => pret tt
      end in
  pget (λ s, inr (MkProbeCall (MkProbeRequest effect attempts transport (pb_attempt_number p)
                                 deadline_ms (signals_for transport s)) p)).

(** [_reconcile_candidate] after the probe call. [now_finish] and [now_reconcile] are the
    clock readings after the probe. *)
Definition probe_finish (worker_id effect_id : string) (c : probe_call) (awaited : probe_await)
    (now_finish now_reconcile : Z) : prog db (option ReconciliationResult) :=
  let p := pc_probe c in
  match awaited with
  | ProbeCancelled =>
      do* finish_probe (pb_probe_id p) "inconclusive" now_finish worker_id (Some "cancelled") in
      praise CancelledError
  | awaited =>
      let result := match awaited with
                    | ProbeReturned r => r
                    | ProbeRaised name => MkProbeResult INCONCLUSIVE (Some ("probe raised " +:+ name))
                    | ProbeCancelled => MkProbeResult INCONCLUSIVE None
                    end in
      do* finish_probe (pb_probe_id p) (outcome_str (prs_outcome result)) now_finish worker_id
            (prs_detail result) in
      let* r := reconcile_effect effect_id (λ _, result) (pret tt) now_reconcile (pb_attempt_number p)
                  (Some (prq_deadline_ms (pc_request c))) in
      pret (Some r)
  end.

(** [_reconcile_candidate] of a wired service, up to the probe call *)
Definition candidate_begin (cfg : reconcile_config) (worker_id effect_id : string) (now : Z)
    (force : bool) : prog db (option ReconciliationResult + probe_call) :=
  let* meta := pget (λ s, (effect_row_of effect_id s, attempts_for effect_id s)) in
  match meta with
  | (None, _) => pret (inl None)
  | (Some effect, attempts) =>
  let unknown_ms := if eff_updated_ms effect =? 0 then now else eff_updated_ms effect in
  let deadline_ms := unknown_ms + rcf_deadline_seconds cfg * 1000 in
  let continue := probe_begin cfg worker_id effect attempts effect_id now deadline_ms force in
  let* open := pget (open_probe effect_id) in
  match open with
  | Some p => continue p
  | None =>
      let* attempt := pget (next_probe_number effect_id) in
      let* due_ms := pread (λ _, probe_due_ms unknown_ms attempt (rcf_backoff_seconds cfg)) in
      if (rcf_max_probes cfg <? attempt) || (deadline_ms <=? now) || (deadline_ms <? due_ms) then
        let* r := escalate effect_id now "deadline reached; operator decision required" in
        pret (inl (Some r))
      else
        do* schedule_probe effect_id attempt due_ms now in
        let* found := pget (open_probe effect_id) in
        match found with
        | None => pret (inl None)
        | Some p => continue p
        end
  end
  end.

(** [_reconcile_candidate]; [others] is whatever else runs on the store while the probe is
    awaited. *)
Definition reconcile_candidate (cfg : reconcile_config) (worker_id effect_id : string) (now : Z)
    (force : bool) (probe : ProbeRequest → probe_await) (others : prog db unit)
    (now_finish now_reconcile : Z) : prog db (option ReconciliationResult) :=
  let* begun := candidate_begin cfg worker_id effect_id now force in
  match begun with
  | inl r => pret r
  | inr c =>
      let awaited := probe (pc_request c) in
      do* (λ s, (Ok tt, (others s).2)) in
      probe_finish worker_id effect_id c awaited now_finish now_reconcile
  end.

(** [schedule_probe] for each recovered effect *)
Fixpoint schedule_first_probes (now : Z) (ids : list string) : prog db unit :=
  match ids with
  | [] => pret tt
  | e :: ids' => do* schedule_probe e 1 now now in schedule_first_probes now ids'
  end.

(** The receipt projection at the start of [_tick_once]: [project] is the callback when one
    is wired and due; its failure is only raised by [recover_once]. *)
Definition tick_project (project : option (prog db unit)) (fail_fast : bool) : prog db unit :=
  match project with
  | None => pret tt
  | Some p => λ s, match p s with
                   | (Raise e, s') => if fail_fast then (Raise e, s') else (Ok tt, s')
                   | (Ok _, s') => (Ok tt, s')
                   end
  end.

(** [_tick_once] from the recovery up to the candidates. *)
Definition tick_candidates (now : Z) : prog db (list string) :=
  let* recovered := recover_executing now in
  do* schedule_first_probes now recovered in
  pget (λ s, map eff_effect_id (list_effects (Some [unknown]) 200 s)).

(** [_tick_once]; it then reconciles the candidates concurrently, each one as
    [reconcile_candidate]. *)
Definition tick_once (project : option (prog db unit)) (fail_fast : bool) (now : Z)
    : prog db (list string) :=
  do* tick_project project fail_fast in
  tick_candidates now.

End Reconcile.
