(* ===== verification/ReconcileProps.v ===== *)
(** * ReconcileProps

    What reconciliation promises: the local probe's verdict follows from durable evidence
    alone, each verdict has exactly one consequence for the effect, an escalated effect is
    never sent again, and every operation is a sequence of abstract outbox steps. *)

From Stdlib Require Import ZArith Lia.
From S2P Require Import Prelude Tables Json Models Schema Outbox OutboxFacts OutboxSpec OutboxRefine.
From S2P Require Import Fixtures OutboxProps Journal Receipts Gateway Reconcile.

Section Props.
  Context `{Sha256}.

(** ** Facts *)

(** A compare-and-set whose target is allowed from the state it expects. *)
Lemma transition_allowed e c t now ev s :
  outbox_inv s → c ≠ executing → t ∈ allowed_transitions c →
  (t = queued → requeue_evidence (evidence_kinds (coerce_evidence ev now None))) →
  let out := transition e [state_str c] (state_str t) now ev None s in
  (∃ b, out.1 = Ok b) ∧ outbox_inv out.2 ∧
  effect_state e out.2 = (λ st, if state_eqb st c then t else st) <$> effect_state e s ∧
  ∀ x, x ≠ e → effect_state x out.2 = effect_state x s.
Proof.
  intros Hi Hx Ht Hq out.
  destruct (transition_cases e [state_str c] (state_str t) now ev None s) as
    [[Hs Hr]|(row & t' & Hrow & Hin & Ht' & Hok & Heq)]; [apply Hi| |].
  - fold out in Hs, Hr. rewrite Hs. subst out. unfold transition, write in *.
    unfold effect_state in *. destruct (effect_row_of e s) as [row|] eqn:Er; [|by eauto].
    cbn [str_in existsb] in *. rewrite orb_false_r in *.
    destruct (state_eqb (eff_state row) c) eqn:Ec.
    + apply state_eqb_eq in Ec. rewrite Ec, str_eqb_refl in Hr. cbn [negb] in Hr.
      rewrite (proj2 (validate_transition_ok c t _ None (eff_lease_owner row))) in Hr.
      * cbn [rbind] in Hr. rewrite (guarded_rowcount e s row) in Hr by (done || apply Hi). done.
      * split; [done|]. split; [done|]. auto.
    + assert (state_str (eff_state row) =?s state_str c = false) as ->.
      { apply str_eqb_neq. intros Hs'%state_str_inj. rewrite Hs' in Ec.
        by rewrite (proj2 (state_eqb_eq c c) eq_refl) in Ec. }
      cbn [negb fst fmap option_fmap option_map]. rewrite Ec. eauto.
  - subst out. rewrite Heq. apply list_elem_of_singleton, state_str_inj in Hin.
    apply state_str_inj in Ht' as <-.
    assert (outbox_step (LMove e (eff_state row) t (evidence_kinds (coerce_evidence ev now None))) s
              (commit_transition e (eff_state row) t now (coerce_evidence ev now None) None s)) as Hstep.
    { destruct Hok as (H1 & _ & H3). eapply step_move; try done. simpl. by destruct (state_eqb _ _). }
    destruct (step_move_state _ _ _ _ _ _ Hstep) as (Hbefore & Hafter & Hother).
    split; [by eauto|]. split; [by eapply outbox_step_inv|]. split; [|done].
    cbn [snd]. rewrite Hafter, Hbefore, <- Hin. simpl. by rewrite (proj2 (state_eqb_eq _ _) eq_refl).
Qed.

Lemma transition_decisions e exp tgt now ev w s :
  outbox_inv s → decisions (transition e exp tgt now ev w s).2 = decisions s.
Proof.
  intros Hi. by destruct (transition_cases e exp tgt now ev w s) as
    [[-> _]|(row & t & _ & _ & _ & _ & ->)]; [apply Hi| |].
Qed.

Lemma DecisionRecord_check_same d d' : DecisionRecord_check d = Ok d' → d' = d.
Proof. unfold DecisionRecord_check. repeat (case_match; try done). by intros [= <-]. Qed.

Lemma record_evidence_state e k now d w s x :
  effect_state x (record_evidence e k now d w s).2 = effect_state x s.
Proof. apply effect_state_ext, record_evidence_silent. Qed.

(** ** The local probe *)

(** The local evidence probe confirms an effect exactly when its transport receipt
    carries a provider message id, reports it not executed exactly when there is no such id
    and some attempt ended [failed], and is inconclusive otherwise. Delivery signals and
    the provider lookup never change the verdict. *)
Theorem local_probe_verdict lookup req :
  (prs_outcome (local_probe lookup req) = CONFIRMED ↔ provider_id (prq_transport req) ≠ None) ∧
  (prs_outcome (local_probe lookup req) = NOT_EXECUTED ↔
     provider_id (prq_transport req) = None ∧
     ∃ a, a ∈ prq_attempts req ∧ att_outcome a = Some "failed") ∧
  ∀ lookup' signals',
    local_probe lookup' (MkProbeRequest (prq_effect req) (prq_attempts req) (prq_transport req)
                           (prq_attempt_number req) (prq_deadline_ms req) signals') =
    local_probe lookup req.
Proof.
  destruct req as [eff atts tr n d sig]. unfold local_probe. cbn.
  destruct (provider_id tr) as [m|]; [repeat split; try done; naive_solver|].
  assert (existsb (λ a, opt_str_eqb (att_outcome a) (Some "failed")) atts = true ↔
          ∃ a, a ∈ atts ∧ att_outcome a = Some "failed") as Hex.
  { rewrite existsb_exists. by setoid_rewrite opt_str_eqb_eq; setoid_rewrite list_elem_of_In. }
  destruct (existsb _ atts) eqn:E; (split; [by split|]); (split; [|done]); cbn; split; try done.
  - intros _. split; [done|]. by apply Hex.
  - intros [_ Hy%Hex]. done.
Qed.

(** ** Consequences *)

(** The state a verdict leads an [unknown] effect to. *)
Definition verdict_state (outcome : ProbeOutcome) (moment : Z) (deadline_ms : option Z) : EffectState :=
  match outcome with
  | CONFIRMED => sent
  | NOT_EXECUTED => queued
  | INCONCLUSIVE =>
      if match deadline_ms with Some d => d <=? moment | None => false end
      then unknown_nonrepeatable else unknown
  end.

Lemma reconcile_facts e probe others moment n deadline s row :
  outbox_inv (others s).2 →
  effect_row_of e s = Some row → eff_state row = unknown →
  let verdict := probe (request_for row (attempts_for e s) e n (default moment deadline) s) in
  let s1 := (others s).2 in
  let s' := (reconcile_effect e probe others moment n deadline s).2 in
  effect_state e s' =
    (λ st, if state_eqb st unknown then verdict_state (prs_outcome verdict) moment deadline else st)
      <$> effect_state e s1 ∧
  ∀ x, x ≠ e → effect_state x s' = effect_state x s1.
Proof.
  intros Hi Hrow Hst verdict s1 s'. subst s'. unfold reconcile_effect, pbind, pget.
  assert (effect_state e s = Some unknown) as Hes by (by rewrite (effect_state_of_row _ _ _ Hrow), Hst).
  cbv beta iota. rewrite Hrow. cbv beta iota. rewrite Hes. change (state_in unknown [unknown; unknown_nonrepeatable]) with true.
  cbn [negb fst snd]. fold verdict. fold s1. fold s1 in Hi. unfold reconcile_resume, pbind.
  destruct (prs_outcome verdict); cbn [verdict_state].
  - destruct (transition_allowed e unknown sent moment
      (evidence_map "probe" (detail_or (prs_detail verdict) "confirmed")) s1)
      as ([b Hb] & _ & Hs & Ho); [done|done|set_solver|done|].
    change "sent" with (state_str sent). cbn [state_str] in *.
    destruct (transition _ _ _ _ _ _ _) as [r s2]. simpl in Hb. subst r. done.
  - destruct (transition_allowed e unknown queued moment
      (evidence_map "not_executed" (detail_or (prs_detail verdict) "proven not executed")) s1)
      as ([b Hb] & _ & Hs & Ho); [done|done|set_solver|..].
    { intros _. apply requeue_evidence_dec. done. }
    cbn [state_str] in *.
    destruct (transition _ _ _ _ _ _ _) as [r s2]. simpl in Hb. subst r. done.
  - destruct (match deadline with Some d => d <=? moment | None => false end).
    + destruct (transition_allowed e unknown unknown_nonrepeatable moment
        (evidence_map "probe" "deadline reached; operator decision required") s1)
        as ([b Hb] & _ & Hs & Ho); [done|done|set_solver|done|].
      cbn [state_str] in *.
      destruct (transition _ _ _ _ _ _ _) as [r s2]. simpl in Hb. subst r.
      pose proof (record_evidence_state e "operator" moment (Some "pending local operator decision") None s2)
        as Hev.
      destruct (record_evidence _ _ _ _ _ s2) as [[[]|err] s3]; simpl in *;
        (split; [by rewrite Hev|intros x Hne; rewrite Hev; auto]).
    + simpl. split; [|done]. destruct (effect_state e s1) as [st|]; [|done]. simpl.
      destruct (state_eqb st unknown) eqn:E; [|done]. by apply state_eqb_eq in E as ->.
Qed.

(** Reconciling an [unknown] effect has exactly the consequence of the verdict. When
    the effect is still [unknown] after the probe was awaited, [confirmed] makes it [sent],
    [not_executed] makes it [queued], an inconclusive probe at its deadline escalates it and
    an earlier one leaves it. An effect that others moved meanwhile stays where they put
    it, and no other effect is touched. *)
Theorem reconcile_unknown e probe others moment n deadline s row :
  outbox_inv (others s).2 →
  effect_row_of e s = Some row → eff_state row = unknown →
  let verdict := probe (request_for row (attempts_for e s) e n (default moment deadline) s) in
  let s1 := (others s).2 in
  let s' := (reconcile_effect e probe others moment n deadline s).2 in
  effect_state e s' =
    (λ st, if state_eqb st unknown then verdict_state (prs_outcome verdict) moment deadline else st)
      <$> effect_state e s1 ∧
  ∀ x, x ≠ e → effect_state x s' = effect_state x s1.
Proof. apply reconcile_facts. Qed.

(** C23: No send is left in doubt. An effect whose worker died while executing it is, once its
    lease has run out and recovery has passed and the reconciliation at its deadline has
    run, not [unknown] any more, whatever the probe found and whatever ran meanwhile; if
    nothing else moved it, it is [sent], [queued] again or in front of an operator. *)
Theorem crashed_send_settles e probe others now moment n deadline s row :
  outbox_inv s → effect_row_of e s = Some row → eff_state row = executing →
  (∀ t, eff_lease_until_ms row = Some t → t ≤ now) → deadline ≤ moment →
  (∀ s1, outbox_inv s1 → outbox_inv (others s1).2) →
  let s1 := (recover_executing now s).2 in
  let s2 := (reconcile_effect e probe others moment n (Some deadline) s1).2 in
  effect_state e s2 ≠ Some unknown ∧
  (effect_state e (others s1).2 = effect_state e s1 →
     ∃ st, effect_state e s2 = Some st ∧ st ∈ [sent; queued; unknown_nonrepeatable]).
Proof.
  intros Hi Hrow Hx Hl Hd Ho s1 s2. pose proof (recovery_facts now s Hi) as Hr.
  destruct (recover_executing now s) as [r s'] eqn:Es. subst s1. cbn [snd] in *.
  destruct Hr as (_ & Hi' & Hspec & Hst & _). assert (effect_state e s' = Some unknown) as Hu.
  { rewrite Hst. assert (e ∈ expired_claims now s) as Hin by (apply Hspec; eauto). by rewrite (proj2 (str_in_spec _ _) Hin). }
  assert (∃ row', effect_row_of e s' = Some row' ∧ eff_state row' = unknown) as (row' & Hrow' & Hst').
  { unfold effect_state in Hu. destruct (effect_row_of e s') as [row'|]; [|done]. injection Hu as Hu. eauto. }
  pose proof (reconcile_facts e probe others moment n (Some deadline) s' row' (Ho _ Hi') Hrow' Hst') as [Hs2 _].
  fold s2 in Hs2. set (v := prs_outcome _) in Hs2.
  assert (verdict_state v moment (Some deadline) ∈ [sent; queued; unknown_nonrepeatable]) as Hv.
  { unfold verdict_state. destruct v; [set_solver|set_solver|]. rewrite (proj2 (Z.leb_le _ _) Hd). set_solver. }
  rewrite Hs2. split.
  - destruct (effect_state e (others s').2) as [st|]; [|done]. cbn. destruct (state_eqb st unknown) eqn:E.
    + intros [= Hq]. rewrite Hq in Hv. set_solver.
    + intros [= Hq]. rewrite Hq in E. done.
  - intros ->. rewrite Hu. cbn. eauto.
Qed.

(** An operator decision is recorded before it takes effect and only
    [confirmed_sent] changes the effect. A refused call changes nothing; an accepted one
    concerns an escalated effect, leaves the operator's decision in the log, makes the effect
    [sent] when it confirms the send and leaves it escalated otherwise, and touches no other
    effect. *)
Theorem operator_decision_effect e decision op pv ph now did s :
  outbox_inv s → by_id dec_decision_id did (decisions s) = None →
  let out := operator_decision e decision op pv ph now did s in
  match out.1 with
  | Raise _ => out.2 = s
  | Ok _ =>
      effect_state e s = Some unknown_nonrepeatable ∧
      decision ∈ ["confirmed_sent"; "confirmed_absent"; "abandon"] ∧
      effect_state e out.2 =
        Some (if decision =?s "confirmed_sent" then sent else unknown_nonrepeatable) ∧
      (∀ x, x ≠ e → effect_state x out.2 = effect_state x s) ∧
      ∃ d, d ∈ decisions out.2 ∧ dec_effect_id d = Some e ∧ dec_principal d = op ∧
           dec_outcome d = (if decision =?s "confirmed_sent" then "allow" else "deny")
  end.
Proof.
  intros Hi Hfresh out. subst out. unfold operator_decision, pbind, pget, pread.
  destruct (str_in decision _) eqn:Ed; [|done]. cbn [negb]. apply str_in_spec in Ed.
  destruct (effect_state e s) as [st|] eqn:Es; [|done]. cbv beta iota.
  destruct (state_eqb st unknown_nonrepeatable) eqn:Est; [|done]. cbn [negb].
  apply state_eqb_eq in Est as ->.
  match goal with |- context [DecisionRecord_check ?r] => set (rec := r) end.
  destruct (DecisionRecord_check rec) as [rec'|err] eqn:Ec; [|done].
  assert (rec' = rec) as -> by (by eapply DecisionRecord_check_same).
  set (s1 := s <| decisions ::= insert_row rec |>).
  assert (record_decision rec s = (Ok did, s1)) as ->.
  { unfold record_decision, write. change (dec_decision_id rec) with did. by rewrite Hfresh. }
  cbv beta iota. assert (outbox_inv s1) as Hi1 by (by apply (outbox_inv_ext s)).
  set (s2 := append_evidence e "operator" (Some "unknown_nonrepeatable")
               (Some (decision +:+ " by " +:+ op)) now None s1).
  assert (record_evidence e "operator" now (Some (decision +:+ " by " +:+ op)) None s1 = (Ok tt, s2)) as ->.
  { unfold record_evidence, write. change (effect_state e s1) with (effect_state e s). by rewrite Es. }
  cbv beta iota. assert (outbox_inv s2) as Hi2 by (by apply (outbox_inv_ext s1)).
  assert (rec ∈ decisions s2) as Hrec by (apply elem_of_insert_row; by right).
  destruct (decision =?s "confirmed_sent") eqn:Ecs.
  - destruct (transition_allowed e unknown_nonrepeatable sent now
      (EvidenceRecord (MkEvidence "operator" (Some ("confirmed_sent by " +:+ op)) None None None)) s2)
      as ([b Hb] & _ & Hs & Ho); [done|done|set_solver|done|].
    pose proof (transition_decisions e ["unknown_nonrepeatable"] "sent" now
      (EvidenceRecord (MkEvidence "operator" (Some ("confirmed_sent by " +:+ op)) None None None)) None
      s2 Hi2) as Hdec.
    cbn [state_str] in *. destruct (transition _ _ _ _ _ _ s2) as [r s3]. simpl in Hb. subst r.
    cbn [fst snd] in *. change (effect_state e s2) with (effect_state e s) in Hs. rewrite Es in Hs.
    split_and!; [done|done|done| |].
    + intros x Hx. by rewrite Ho.
    + exists rec. cbn [pret snd]. by rewrite Hdec.
  - cbn [fst snd]. split_and!; [done|done|done|done|]. by exists rec.
Qed.

End Props.

#[local] Existing Instance plain_sha256.

(** The effect escalated at its deadline. *)
Definition escalated_db : db :=
  (reconcile_effect "e1" (local_probe None) (pret tt) 900 1 (Some 900) unknown_db).2.

Lemma escalated_db_inv : outbox_inv escalated_db.
Proof.
  destruct (transition_allowed "e1" unknown unknown_nonrepeatable 900
    (evidence_map "probe" "deadline reached; operator decision required") unknown_db)
    as (_ & Hi & _); [apply unknown_db_inv|done|set_solver|done|].
  eapply outbox_inv_ext; [| |exact Hi]; by vm_compute.
Qed.

Lemma reconcile_unknown_witness :
  effect_state "e1" escalated_db = Some unknown_nonrepeatable.
Proof.
  destruct (effect_row_of "e1" unknown_db) as [row|] eqn:Er; [|by vm_compute in Er].
  destruct (reconcile_unknown "e1" (local_probe None) (pret tt) 900 1 (Some 900) unknown_db row)
    as [Hs _]; [apply unknown_db_inv|done| |].
  - vm_compute in Er. by injection Er as <-.
  - unfold escalated_db. rewrite Hs. vm_compute in Er. injection Er as <-. by vm_compute.
Defined.

Lemma crashed_row : ∃ row, effect_row_of "e1" executing_db = Some row ∧ eff_state row = executing ∧
  eff_lease_until_ms row = Some 30200.
Proof. eexists. split; [vm_compute; reflexivity|split; reflexivity]. Qed.

Lemma crashed_send_settles_witness :
  ∃ st, effect_state "e1" (reconcile_effect "e1" (local_probe None) (pret tt) 90000 1 (Some 80000)
          (recover_executing 40000 executing_db).2).2 = Some st ∧ st ∈ [sent; queued; unknown_nonrepeatable].
Proof.
  destruct crashed_row as (row & Hrow & Hst & Hl).
  assert (∀ t, eff_lease_until_ms row = Some t → t ≤ 40000) as Hexp.
  { intros t Ht. rewrite Hl in Ht. injection Ht as <-. lia. }
  pose proof (crashed_send_settles "e1" (local_probe None) (pret tt) 40000 90000 1 80000 executing_db row executing_db_inv Hrow Hst
    Hexp ltac:(lia) (λ s1 H1, H1)) as H. cbv zeta in H.
  generalize dependent (recover_executing 40000 executing_db).2. intros s1 H. exact (proj2 H (eq_refl (effect_state "e1" s1))).
Defined.

Lemma operator_decision_effect_witness :
  let out := operator_decision "e1" "confirmed_sent" "op" "v1" "h" 950 "d1" escalated_db in
  (∃ r, out.1 = Ok r) ∧ effect_state "e1" out.2 = Some sent.
Proof.
  pose proof (operator_decision_effect "e1" "confirmed_sent" "op" "v1" "h" 950 "d1" escalated_db
    escalated_db_inv ltac:(by vm_compute)) as Hd.
  cbv zeta in *. destruct (operator_decision _ _ _ _ _ _ _ _) as [[r|err] s'] eqn:E;
    [|exfalso; by vm_compute in E].
  split; [by eauto|]. apply Hd.
Defined.

(** ** Observations *)

(** A plan that is still open at the deadline is not closed: [finish_probe] runs without a
    claim, so its lease test fails and the plan stays open after the escalation. *)
Definition stale_plan_db : db := (schedule_probe "e1" 1 300 300 unknown_db).2.
Definition test_config : reconcile_config := MkReconcileConfig 6 600 [5; 15; 45] 30.

Lemma deadline_leaves_plan_open :
  let out := candidate_begin test_config "r1" "e1" 700000 false stale_plan_db in
  effect_state "e1" out.2 = Some unknown_nonrepeatable ∧ is_some (open_probe "e1" out.2) = true.
Proof. by vm_compute. Qed.

(** A failed first attempt outweighs an unproven second one: the probe reports the effect
    as not executed although its latest attempt may have reached the transport. *)
Definition twice_tried_db : db :=
  let failed_db := (transition "e1" ["executing"] "failed" 300 NoEvidence (Some "w") executing_db).2 in
  let requeued_db := (transition "e1" ["failed"] "queued" 310 (EvidenceKind "not_executed") None failed_db).2 in
  let again_db := (claim_effect "e1" "w" 320 30000 None "a2" requeued_db).2 in
  (transition "e1" ["executing"] "unknown" 330 NoEvidence (Some "w") again_db).2.

Lemma old_failure_requeues_unproven :
  map att_outcome (attempts_for "e1" twice_tried_db) = [Some "failed"; Some "unknown"] ∧
  effect_state "e1" (reconcile_effect "e1" (local_probe None) (pret tt) 400 1 None twice_tried_db).2
    = Some queued.
Proof. by vm_compute. Qed.

(** An escalated effect can be probed, but a [not_executed] verdict then raises. *)
Lemma escalated_not_executed_raises :
  (reconcile_effect "e1" (λ _, MkProbeResult NOT_EXECUTED None) (pret tt) 950 1 None escalated_db).1
    = Raise (InvalidTransitionError "illegal effect transition").
Proof. by vm_compute. Qed.
