(* ===== verification/Routing.v ===== *)
(** * Routing

    The pure half of thread assignment: [classify_update], the join rules and
    [TurnAuthority] of [processing/threads.py], [continuity_signal] of
    [processing/routing.py] and [lifecycle_verdicts] of [processing/lifecycle.py]. *)

From Stdlib Require Import ZArith Lia.
From S2P Require Import Prelude Tables Json Models.

(** ** Updates *)

Inductive UpdateEffect := APPEND | SUPERSEDE | OBSERVE.

(** [classify_update] *)
Definition classify_update (kind : string) (explicit_correction authorized : bool) : UpdateEffect :=
  if kind =?s "reaction" then OBSERVE
  else if negb authorized then OBSERVE
  else if str_in kind ["delete"; "edit"] || explicit_correction then SUPERSEDE
  else APPEND.

(** ** Join rules: data *)

Inductive JoinRule :=
| REPLY_KNOWN | EXPLICIT_CORRECTION | REPLY_BOT_NEW_THREAD | FOLLOWUP_SINGLE_ACTIVE
| SEMANTIC_REOPEN | MENTION_NO_REFERENCE | DM_LAST_ACTIVE | AMBIENT.

#[export] Instance JoinRule_eq_dec : EqDecision JoinRule.
Proof. solve_decision. Defined.

Definition JOIN_RULES : list JoinRule :=
  [REPLY_KNOWN; EXPLICIT_CORRECTION; REPLY_BOT_NEW_THREAD; FOLLOWUP_SINGLE_ACTIVE;
   SEMANTIC_REOPEN; MENTION_NO_REFERENCE; DM_LAST_ACTIVE; AMBIENT].

(** [topic_break] is declared as a tri-state string, but callers also pass booleans. *)
Inductive topic_break_value :=
| BreakBool (b : bool)
| BreakText (t : string).

Definition break_truthy (v : topic_break_value) : bool :=
  match v with BreakBool b => b | BreakText t => str_true t end.

Definition break_str (v : topic_break_value) : string :=
  match v with BreakBool true => "True" | BreakBool false => "False" | BreakText t => t end.

Record JoinInput := MkJoinInput {
  ji_event_id : string;
  ji_channel : string;
  ji_chat_id : string;
  ji_principal : string;
  ji_text : string;
  ji_kind : string;
  ji_is_group : bool;
  ji_mentioned_bot : bool;
  ji_reply_to_bot : bool;
  ji_reply_to_message_id : option string;
  ji_target_message_id : option string;
  ji_explicit_correction : bool;
  ji_topic_break : topic_break_value;
  ji_occurred_ms : option Z;
  ji_source_message_id : option string;
  ji_semantic_thread_id : option string;
}.

(** ** The continuity signal *)

Record PreviousMessage := MkPrevious {
  pm_message_id : string;
  pm_from_bot : bool;
  pm_principals : list string;
  pm_thread_ids : list string;
  pm_at_ms : option Z;
}.

Record ContinuitySignal := MkSignal {
  cs_kind : string;
  cs_verdict : string;
  cs_evidence_ids : list string;
  cs_detail : string;
}.

Definition no_signal (detail : string) : ContinuitySignal := MkSignal "none" "none" [] detail.

(** [ContinuitySignal.positive] *)
Definition signal_positive (c : ContinuitySignal) : bool := cs_verdict c =?s "positive".

(** [continuity_signal] *)
Definition continuity_signal (candidate_thread_id principal : string)
    (previous : option PreviousMessage) (now_ms same_sender_gap_ms : option Z)
    (mentioned_bot quotes_elsewhere : bool) : ContinuitySignal :=
  if quotes_elsewhere then no_signal "quote_outside_thread" else
  match previous with
  | None => no_signal "no_previous_message"
  | Some p =>
  if negb (str_in candidate_thread_id (pm_thread_ids p)) then no_signal "previous_in_other_thread" else
  if pm_from_bot p
  then MkSignal "adjacent_bot_reply" "positive" [pm_message_id p] "bot_spoke_last_in_thread" else
  if mentioned_bot then no_signal "mention_starts_new_request" else
  if str_true principal && str_in principal (pm_principals p) then
    if match same_sender_gap_ms, now_ms, pm_at_ms p with
       | Some gap, Some now, Some at_ms => gap <? now - at_ms
       | _, _, _ => false
       end
    then no_signal "sender_gap_too_long"
    else MkSignal "adjacent_same_sender" "positive" [pm_message_id p] "sender_spoke_last_in_thread"
  else no_signal "other_sender_in_between"
  end.

(** ** Join rules: the view and the decision *)

Record JoinView := MkJoinView {
  jv_reply_thread_id : option string;
  jv_reply_turn_id : option string;
  jv_reply_thread_state : option string;
  jv_reply_reopenable : bool;
  jv_correction_targets : list (string * string);
  jv_active_threads : list (string * option string);
  jv_last_active_dm_thread : option string;
  jv_continuum : option ContinuitySignal;
  jv_semantic_target : option string;
}.

(** [JoinView.continuity_positive] *)
Definition continuity_positive (v : JoinView) : bool :=
  match jv_continuum v with Some c => signal_positive c | None => false end.

Record JoinDecision := MkJoinDecision {
  jd_rule : JoinRule;
  jd_thread_id : option string;
  jd_turn_id : option string;
  jd_reason : string;
  jd_new_thread : bool;
  jd_new_turn : bool;
  jd_supersedes : bool;
  jd_observes_only : bool;
  jd_needs_clarification : bool;
  jd_ambiguous_targets : list string;
  jd_quote_ref : option string;
  jd_quote_allowed : bool;
  jd_source_message_ids : list string;
  jd_candidates_checked : nat;
  jd_candidates_eligible : nat;
  jd_topic_break : string;
  jd_continuity_kind : string;
  jd_continuity_verdict : string;
  jd_continuity_evidence : list string;
}.

#[export] Instance eta_join_decision : Updatable JoinDecision :=
  λ d, MkJoinDecision (jd_rule d) (jd_thread_id d) (jd_turn_id d) (jd_reason d) (jd_new_thread d)
    (jd_new_turn d) (jd_supersedes d) (jd_observes_only d) (jd_needs_clarification d)
    (jd_ambiguous_targets d) (jd_quote_ref d) (jd_quote_allowed d) (jd_source_message_ids d)
    (jd_candidates_checked d) (jd_candidates_eligible d) (jd_topic_break d) (jd_continuity_kind d)
    (jd_continuity_verdict d) (jd_continuity_evidence d).

(** [JoinDecision(rule=..., reason=...)]: the field defaults *)
Definition join_decision (rule : JoinRule) (reason : string) : JoinDecision :=
  MkJoinDecision rule None None reason false false false false false [] None false [] 0 0
    "unknown" "none" "none" [].

Record ThreadPolicy := MkThreadPolicy {
  tpol_followup_window_ms : Z;
  tpol_mention_continuation_window_ms : Z;
  tpol_reopen_window_ms : Z;
  tpol_dormant_after_seconds : Z;
  tpol_dormant_after_messages : Z;
  tpol_dormant_after_messages_dm : Z;
  tpol_max_active_per_chat : Z;
  tpol_same_sender_gap_ms : Z;
}.

(** ** Join rules *)

(** [x in (None, "open", "dormant")] *)
Definition live_state (st : option string) : bool :=
  match st with None => true | Some s => str_in s ["open"; "dormant"] end.
Definition asleep_state (st : option string) : bool :=
  match st with None => false | Some s => str_in s ["idle"; "closed"] end.

(** Truthiness of an optional string. *)
Definition opt_true (o : option string) : bool :=
  match o with Some s => str_true s | None => false end.

Definition rule_reply_known (data : JoinInput) (view : JoinView) : option JoinDecision :=
  if negb (opt_true (jv_reply_thread_id view)) then None else
  if asleep_state (jv_reply_thread_state view) && negb (jv_reply_reopenable view)
  then Some ((join_decision REPLY_KNOWN "reply_to_closed_thread")
               <| jd_new_thread := true |> <| jd_quote_ref := ji_reply_to_message_id data |>)
  else
  let reopenable := live_state (jv_reply_thread_state view) || jv_reply_reopenable view in
  Some ((join_decision REPLY_KNOWN "reply_to_known_thread")
          <| jd_thread_id := jv_reply_thread_id view |>
          <| jd_turn_id := if negb reopenable then jv_reply_turn_id view else None |>
          <| jd_new_turn := asleep_state (jv_reply_thread_state view) |>
          <| jd_quote_ref := ji_reply_to_message_id data |>
          <| jd_quote_allowed := reopenable |>).

Definition rule_explicit_correction (data : JoinInput) (view : JoinView) : option JoinDecision :=
  if negb (ji_explicit_correction data || str_in (ji_kind data) ["delete"; "edit"]) then None else
  match jv_correction_targets view with
  | [] => None
  | [(thread_id, turn_id)] =>
      Some ((join_decision EXPLICIT_CORRECTION "explicit_correction")
              <| jd_thread_id := Some thread_id |> <| jd_turn_id := Some turn_id |>
              <| jd_supersedes := true |>)
  | targets =>
      Some ((join_decision EXPLICIT_CORRECTION "ambiguous_reference")
              <| jd_needs_clarification := true |> <| jd_ambiguous_targets := map snd targets |>)
  end.

(** [topic_break_is_certain] *)
Definition topic_break_is_certain (data : JoinInput) : bool :=
  match ji_topic_break data with
  | BreakBool b => b
  | BreakText t => str_in (py_lower (py_strip t)) ["true"; "1"; "yes"]
  end.

Definition rule_followup_single_active (data : JoinInput) (view : JoinView) : option JoinDecision :=
  if topic_break_is_certain data then None else
  match jv_active_threads view with
  | [(thread_id, turn_id)] =>
      if negb (continuity_positive view) then None
      else Some ((join_decision FOLLOWUP_SINGLE_ACTIVE "followup_single_active_thread")
                   <| jd_thread_id := Some thread_id |> <| jd_turn_id := turn_id |>
                   <| jd_new_turn := is_none turn_id |>)
  | _ => None
  end.

Definition rule_semantic_reopen (data : JoinInput) (view : JoinView) : option JoinDecision :=
  if negb (opt_true (jv_semantic_target view)) || topic_break_is_certain data then None
  else Some ((join_decision SEMANTIC_REOPEN "semantic_reopen")
               <| jd_thread_id := jv_semantic_target view |> <| jd_new_turn := true |>).

Definition rule_reply_bot_new_thread (data : JoinInput) (view : JoinView) : option JoinDecision :=
  if negb (ji_reply_to_bot data) || negb (opt_true (ji_reply_to_message_id data))
     || opt_true (jv_reply_thread_id view)
  then None
  else Some ((join_decision REPLY_BOT_NEW_THREAD "reply_to_unknown_bot_anchor")
               <| jd_new_thread := true |> <| jd_new_turn := true |>
               <| jd_quote_ref := ji_reply_to_message_id data |>).

Definition rule_mention_no_reference (data : JoinInput) (view : JoinView) : option JoinDecision :=
  if negb (ji_mentioned_bot data) then None
  else Some ((join_decision MENTION_NO_REFERENCE "mention_without_reference") <| jd_new_thread := true |>).

Definition rule_dm_last_active (data : JoinInput) (view : JoinView) : option JoinDecision :=
  if ji_is_group data then None else
  if break_truthy (ji_topic_break data) || negb (opt_true (jv_last_active_dm_thread view))
  then Some ((join_decision DM_LAST_ACTIVE "dm_new_thread") <| jd_new_thread := true |>)
  else Some ((join_decision DM_LAST_ACTIVE "last_active_dm_thread")
               <| jd_thread_id := jv_last_active_dm_thread view |> <| jd_new_turn := true |>).

Definition rule_ambient (data : JoinInput) (view : JoinView) : option JoinDecision :=
  Some (join_decision AMBIENT "ambient").

(** [_RULES] *)
Definition join_rule (r : JoinRule) : JoinInput → JoinView → option JoinDecision :=
  match r with
  | REPLY_KNOWN => rule_reply_known
  | EXPLICIT_CORRECTION => rule_explicit_correction
  | REPLY_BOT_NEW_THREAD => rule_reply_bot_new_thread
  | FOLLOWUP_SINGLE_ACTIVE => rule_followup_single_active
  | SEMANTIC_REOPEN => rule_semantic_reopen
  | MENTION_NO_REFERENCE => rule_mention_no_reference
  | DM_LAST_ACTIVE => rule_dm_last_active
  | AMBIENT => rule_ambient
  end.

(** The loop of [ThreadRegistry.decide] over the remaining rules. *)
Fixpoint first_answer (rules : list JoinRule) (data : JoinInput) (view : JoinView) : JoinDecision :=
  match rules with
  | [] => join_decision AMBIENT "ambient"
  | r :: rules' =>
      match join_rule r data view with
      | Some decision => decision
      | None => first_answer rules' data view
      end
  end.

(** [ThreadRegistry.decide] *)
Definition decide_join (data : JoinInput) (view : JoinView) : JoinDecision :=
  first_answer JOIN_RULES data view.

(** ** Authority *)

(** [TurnAuthority.may_modify]; [is_operator] is the policy lookup, which may raise. *)
Definition may_modify (is_operator : option (string → string → string → result bool))
    (turn_principal principal channel chat_id : string) : bool * string :=
  if str_true principal && (principal =?s turn_principal) then (true, "orderer") else
  match is_operator with
  | Some lookup =>
      if str_true principal then
        match lookup principal channel chat_id with
        | Ok true => (true, "authorized_operator")
        | Ok false | Raise _ => (false, "foreign_principal_observe")
        end
      else (false, "foreign_principal_observe")
  | None => (false, "foreign_principal_observe")
  end.

(** ** Lifecycle *)

Record LifecycleThread := MkLifecycle { lt_thread_id : string; lt_last_activity_ms : Z }.
Record LifecycleVerdict := MkVerdict { lv_state : string; lv_reason : string }.

(** [verdicts[k] = v] *)
Fixpoint verdict_set (k : string) (v : LifecycleVerdict) (d : list (string * LifecycleVerdict))
    : list (string * LifecycleVerdict) :=
  match d with
  | [] => [(k, v)]
  | (k', v') :: d' => if k' =?s k then (k', v) :: d' else (k', v') :: verdict_set k v d'
  end.

Definition is_dormant (other_messages : list (string * Z)) (now_ms threshold : Z)
    (policy : ThreadPolicy) (t : LifecycleThread) : bool :=
  (tpol_dormant_after_seconds policy * 1000 <=? now_ms - lt_last_activity_ms t)
  && (threshold <=? match List.find (λ p : string * Z, p.1 =?s lt_thread_id t) other_messages with
                    | Some (_, n) => n
                    | None => 0
                    end).

Definition lifecycle_order (l : list LifecycleThread) : list LifecycleThread :=
  order_by (λ a b, time_id_leb (lt_last_activity_ms a, lt_thread_id a)
                     (lt_last_activity_ms b, lt_thread_id b)) l.

(** [lifecycle_verdicts] *)
Definition lifecycle_verdicts (threads : list LifecycleThread) (other_messages : list (string * Z))
    (now_ms : Z) (is_group : bool) (policy : ThreadPolicy) : list (string * LifecycleVerdict) :=
  let threshold := if is_group then tpol_dormant_after_messages policy
                   else tpol_dormant_after_messages_dm policy in
  let sorted := lifecycle_order threads in
  let dormant := is_dormant other_messages now_ms threshold policy in
  let verdicts := foldl (λ d t, verdict_set (lt_thread_id t)
                    (if dormant t then MkVerdict "dormant" "idle_and_quiet" else MkVerdict "active" "active") d)
                    [] sorted in
  let active := map lt_thread_id (select (λ t, negb (dormant t)) sorted) in
  let over := take (Z.to_nat (Z.max 0 (Z.of_nat (length active) - tpol_max_active_per_chat policy))) active in
  foldl (λ d k, verdict_set k (MkVerdict "dormant" "over_cap") d) verdicts over.

(** ** Facts *)

Lemma first_answer_spec rules data view :
  AMBIENT ∈ rules → (∀ r d, join_rule r data view = Some d → jd_rule d = r) →
  let d := first_answer rules data view in
  ∃ pre post, rules = pre ++ jd_rule d :: post ∧ join_rule (jd_rule d) data view = Some d ∧
              Forall (λ r, join_rule r data view = None) pre.
Proof.
  intros Hin Hrule. induction rules as [|r rules IH]; [by apply not_elem_of_nil in Hin|].
  cbn [first_answer]. destruct (join_rule r data view) as [d|] eqn:E.
  - exists [], rules. rewrite (Hrule _ _ E). done.
  - destruct IH as (pre & post & Hs & Ha & Hp).
    { apply elem_of_cons in Hin as [<-|Hin]; [done|done]. }
    exists (r :: pre), post. split; [by rewrite Hs at 1|]. split; [done|]. by constructor.
Qed.

Lemma join_rule_names r data view d : join_rule r data view = Some d → jd_rule d = r.
Proof.
  destruct r; cbn [join_rule].
  - unfold rule_reply_known. repeat (case_match; try done); by intros [= <-].
  - unfold rule_explicit_correction. repeat (case_match; try done); by intros [= <-].
  - unfold rule_reply_bot_new_thread. repeat (case_match; try done); by intros [= <-].
  - unfold rule_followup_single_active. repeat (case_match; try done); by intros [= <-].
  - unfold rule_semantic_reopen. repeat (case_match; try done); by intros [= <-].
  - unfold rule_mention_no_reference. repeat (case_match; try done); by intros [= <-].
  - unfold rule_dm_last_active. repeat (case_match; try done); by intros [= <-].
  - unfold rule_ambient. by intros [= <-].
Qed.

(** What allows a rule to attach the event to the existing thread [t]. *)
Definition attach_evidence (r : JoinRule) (data : JoinInput) (view : JoinView) (t : string) : Prop :=
  match r with
  | REPLY_KNOWN =>
      jv_reply_thread_id view = Some t ∧
      (asleep_state (jv_reply_thread_state view) = true → jv_reply_reopenable view = true)
  | EXPLICIT_CORRECTION =>
      (ji_explicit_correction data = true ∨ ji_kind data ∈ ["delete"; "edit"]) ∧
      ∃ turn, jv_correction_targets view = [(t, turn)]
  | FOLLOWUP_SINGLE_ACTIVE =>
      topic_break_is_certain data = false ∧ continuity_positive view = true ∧
      ∃ turn, jv_active_threads view = [(t, turn)]
  | SEMANTIC_REOPEN => topic_break_is_certain data = false ∧ jv_semantic_target view = Some t
  | DM_LAST_ACTIVE =>
      ji_is_group data = false ∧ break_truthy (ji_topic_break data) = false ∧
      jv_last_active_dm_thread view = Some t
  | REPLY_BOT_NEW_THREAD | MENTION_NO_REFERENCE | AMBIENT => False
  end.

Lemma rule_attaches r data view d t :
  join_rule r data view = Some d → jd_thread_id d = Some t → attach_evidence r data view t.
Proof.
  destruct r; cbn [join_rule attach_evidence].
  - unfold rule_reply_known. destruct (negb _); [done|].
    destruct (_ && _) eqn:E; intros [= <-]; [done|]. cbn. intros Ht. split; [done|].
    intros Ha. rewrite Ha in E. by destruct (jv_reply_reopenable view).
  - unfold rule_explicit_correction. destruct (negb _) eqn:E; [done|].
    apply negb_false_iff, orb_true_iff in E. rewrite str_in_spec in E.
    destruct (jv_correction_targets view) as [|[th tu] [|x l]]; [done| |]; intros [= <-]; [|done].
    intros [= <-]. eauto.
  - unfold rule_reply_bot_new_thread. destruct (_ || _); [done|]. by intros [= <-].
  - unfold rule_followup_single_active. destruct (topic_break_is_certain data); [done|].
    destruct (jv_active_threads view) as [|[th tu] [|x l]]; try done.
    destruct (continuity_positive view); [|done]. intros [= <-] [= <-]. eauto.
  - unfold rule_semantic_reopen. destruct (negb _); [done|].
    destruct (topic_break_is_certain data); [done|]. by intros [= <-].
  - unfold rule_mention_no_reference. destruct (negb _); [done|]. by intros [= <-].
  - unfold rule_dm_last_active. destruct (ji_is_group data); [done|].
    destruct (break_truthy _); [by intros [= <-]|]. destruct (negb _); by intros [= <-].
  - by intros [= <-].
Qed.

Lemma decide_join_answers data view :
  join_rule (jd_rule (decide_join data view)) data view = Some (decide_join data view).
Proof.
  destruct (first_answer_spec JOIN_RULES data view) as (pre & post & _ & Ha & _); [set_solver| |done].
  intros r d. apply join_rule_names.
Qed.

Lemma verdict_set_new k v d : k ∉ map fst d → verdict_set k v d = d ++ [(k, v)].
Proof.
  induction d as [|[k' v'] d IH]; [done|]. cbn. intros Hk.
  rewrite (proj2 (str_eqb_neq k' k)) by set_solver. by rewrite IH by set_solver.
Qed.

(** Writing verdicts for distinct keys one after the other. *)
Lemma verdicts_fold {A} (key : A → string) (v : A → LifecycleVerdict) l d :
  NoDup (map fst d ++ map key l) →
  foldl (λ d t, verdict_set (key t) (v t) d) d l = d ++ map (λ t, (key t, v t)) l.
Proof.
  revert d. induction l as [|t l IH]; intros d Hnd; cbn; [by rewrite app_nil_r|].
  apply NoDup_app in Hnd as (H1 & H2 & [H3 H4]%NoDup_cons).
  rewrite verdict_set_new by (intros Hk; apply (H2 _ Hk); set_solver). rewrite IH.
  - by rewrite <- app_assoc.
  - rewrite map_app. cbn. rewrite <- app_assoc. apply NoDup_app. split; [done|]. split; [set_solver|].
    by apply NoDup_cons.
Qed.

(** Overwriting the verdict of a known key. *)
Lemma verdict_set_known {A} (key : A → string) (v : A → LifecycleVerdict) x k l :
  NoDup (map key l) → k ∈ map key l →
  verdict_set k x (map (λ t, (key t, v t)) l) =
    map (λ t, (key t, if key t =?s k then x else v t)) l.
Proof.
  induction l as [|t l IH]; cbn; [by intros _ ?%not_elem_of_nil|].
  intros [Hn Hnd]%NoDup_cons Hk. destruct (key t =?s k) eqn:E.
  - apply str_eqb_eq in E. f_equal. apply map_ext_in. intros u Hu%list_elem_of_In.
    destruct (key u =?s k) eqn:Eu; [|done]. apply str_eqb_eq in Eu. exfalso. apply Hn.
    apply list_elem_of_fmap. exists u. split; [congruence|done].
  - f_equal. apply IH; [done|]. apply str_eqb_neq in E. set_solver.
Qed.

Lemma verdicts_overwrite {A} (key : A → string) (v : A → LifecycleVerdict) x ks l :
  NoDup (map key l) → (∀ k, k ∈ ks → k ∈ map key l) →
  foldl (λ d k, verdict_set k x d) (map (λ t, (key t, v t)) l) ks =
    map (λ t, (key t, if str_in (key t) ks then x else v t)) l.
Proof.
  revert v. induction ks as [|k ks IH]; intros v Hnd Hks; [done|]. cbn [foldl].
  rewrite verdict_set_known by set_solver. rewrite IH by set_solver. apply map_ext. intros t.
  unfold str_in. cbn [existsb]. destruct (key t =?s k); cbn [orb]; [|done].
  by destruct (existsb _ ks).
Qed.

(** The threads that are not yet dormant, oldest first, and those beyond the cap. *)
Definition awake (other : list (string * Z)) (now : Z) (is_group : bool) (policy : ThreadPolicy)
    (threads : list LifecycleThread) : list LifecycleThread :=
  select (λ t, negb (is_dormant other now (if is_group then tpol_dormant_after_messages policy
                                           else tpol_dormant_after_messages_dm policy) policy t))
    (lifecycle_order threads).

Definition excess (policy : ThreadPolicy) (n : nat) : nat :=
  Z.to_nat (Z.max 0 (Z.of_nat n - tpol_max_active_per_chat policy)).

(** The verdict a thread gets. *)
Definition verdict_of (other : list (string * Z)) (now : Z) (is_group : bool) (policy : ThreadPolicy)
    (threads : list LifecycleThread) (t : LifecycleThread) : LifecycleVerdict :=
  let up := awake other now is_group policy threads in
  if str_in (lt_thread_id t) (map lt_thread_id (take (excess policy (length up)) up))
  then MkVerdict "dormant" "over_cap"
  else if is_dormant other now (if is_group then tpol_dormant_after_messages policy
                                else tpol_dormant_after_messages_dm policy) policy t
       then MkVerdict "dormant" "idle_and_quiet" else MkVerdict "active" "active".

Lemma lifecycle_verdicts_map threads other now is_group policy :
  NoDup (map lt_thread_id threads) →
  lifecycle_verdicts threads other now is_group policy =
    map (λ t, (lt_thread_id t, verdict_of other now is_group policy threads t)) (lifecycle_order threads).
Proof.
  intros Hnd. assert (NoDup (map lt_thread_id (lifecycle_order threads))) as Hnd'.
  { unfold lifecycle_order. by rewrite order_by_perm. }
  unfold lifecycle_verdicts. cbv zeta.
  rewrite (verdicts_fold lt_thread_id (λ t, if is_dormant other now _ policy t then _ else _)) by done.
  cbn [app]. rewrite verdicts_overwrite; [|done|].
  - apply map_ext. intros t. unfold verdict_of, awake, excess. cbv zeta.
    by rewrite length_map, <- firstn_map.
  - intros k Hk. apply elem_of_take in Hk as (i & Hk%list_elem_of_lookup_2 & _).
    apply list_elem_of_fmap in Hk as (t & -> & [Ht _]%elem_of_select).
    apply list_elem_of_fmap. eauto.
Qed.

Definition older (a b : LifecycleThread) : Prop :=
  time_id_leb (lt_last_activity_ms a, lt_thread_id a) (lt_last_activity_ms b, lt_thread_id b) = true.

Lemma awake_sorted other now is_group policy threads :
  StronglySorted older (awake other now is_group policy threads).
Proof.
  unfold awake, lifecycle_order.
  set (leb := λ a b, time_id_leb (lt_last_activity_ms a, lt_thread_id a)
                       (lt_last_activity_ms b, lt_thread_id b)).
  assert (∀ x y, leb x y = true ∨ leb y x = true) as Htot by (intros; apply time_id_leb_total).
  assert (∀ x y z, leb x y = true → leb y z = true → leb x z = true) as Htr
    by (intros x y z; apply time_id_leb_trans).
  rewrite <- (order_by_select leb _ Htot Htr). by apply order_by_sorted.
Qed.

Lemma sorted_take_drop {A} (R : A → A → Prop) n l x y :
  StronglySorted R l → x ∈ take n l → y ∈ drop n l → R x y.
Proof.
  revert n. induction l as [|a l IH]; intros [|n] Hs Hx Hy; cbn in *;
    try (by apply not_elem_of_nil in Hx).
  apply StronglySorted_inv in Hs as [Hs Ha]. apply elem_of_cons in Hx as [->|Hx]; [|by eapply IH].
  rewrite Forall_forall in Ha. apply Ha. rewrite <- (take_drop n l). set_solver.
Qed.

Lemma filter_map_length {A B} (f : A → B) (q : B → bool) l :
  length (List.filter q (map f l)) = length (List.filter (λ x, q (f x)) l).
Proof. induction l as [|x l IH]; [done|]. cbn. destruct (q (f x)); cbn; by rewrite IH. Qed.

(** Which verdict means what, for the threads of the chat. *)
Lemma verdict_of_over other now is_group policy threads t :
  NoDup (map lt_thread_id threads) → t ∈ threads →
  let up := awake other now is_group policy threads in
  verdict_of other now is_group policy threads t = MkVerdict "dormant" "over_cap" →
  t ∈ take (excess policy (length up)) up.
Proof.
  intros Hnd Ht up. unfold verdict_of. fold up. cbv zeta. destruct (str_in _ _) eqn:E; [|by case_match].
  intros _. apply str_in_spec, list_elem_of_fmap in E as (t' & Hid & Ht').
  enough (t' = t) as <- by done. apply (unique_key_inj lt_thread_id threads); [done| |done|done].
  assert (t' ∈ up) as Hup by (rewrite <- (take_drop (excess policy (length up)) up); set_solver).
  apply elem_of_select in Hup as [Hup _]. unfold lifecycle_order in Hup. by apply elem_of_order_by in Hup.
Qed.

Lemma verdict_of_active other now is_group policy threads t :
  t ∈ threads →
  let up := awake other now is_group policy threads in
  verdict_of other now is_group policy threads t = MkVerdict "active" "active" →
  t ∈ drop (excess policy (length up)) up.
Proof.
  intros Ht up. unfold verdict_of. fold up. cbv zeta. destruct (str_in _ _) eqn:E; [done|].
  destruct (is_dormant _ _ _ _ t) eqn:Ed; [done|]. intros _.
  assert (t ∈ up) as Hup.
  { apply elem_of_select. split; [by apply elem_of_order_by|]. by rewrite Ed. }
  rewrite <- (take_drop (excess policy (length up)) up) in Hup. apply elem_of_app in Hup as [Hup|Hup]; [|done].
  apply not_true_iff_false in E. exfalso. apply E, str_in_spec, list_elem_of_fmap. eauto.
Qed.

Lemma active_count other now is_group policy threads :
  let up := awake other now is_group policy threads in
  (rowcount (λ t, lv_state (verdict_of other now is_group policy threads t) =?s "active")
     (lifecycle_order threads) ≤ length (drop (excess policy (length up)) up))%nat.
Proof.
  intros up. set (n := excess policy (length up)).
  set (ok := λ t, negb (str_in (lt_thread_id t) (map lt_thread_id (take n up)))).
  assert (rowcount (λ t, lv_state (verdict_of other now is_group policy threads t) =?s "active")
            (lifecycle_order threads) = rowcount ok up) as ->.
  { unfold up at 1, rowcount, awake. rewrite select_select. f_equal. apply filter_ext. intros t.
    unfold verdict_of, ok. fold up. fold n. cbv zeta. destruct (str_in _ _); cbn [negb].
    - by rewrite andb_false_r.
    - by destruct (is_dormant _ _ _ _ t). }
  rewrite <- (take_drop n up) at 1. rewrite rowcount_app.
  assert (rowcount ok (take n up) = 0%nat) as ->; [|apply rowcount_le_length].
  apply rowcount_zero. intros t Ht. unfold ok. apply negb_false_iff, str_in_spec, list_elem_of_fmap. eauto.
Qed.

(** ** Theorems *)

(** The join rules are applied in their binding order. The decision is the answer of
    one rule, and every rule before it in [JOIN_RULES] declined. *)
Theorem join_priority data view :
  let d := decide_join data view in
  ∃ before after, JOIN_RULES = before ++ jd_rule d :: after ∧
    join_rule (jd_rule d) data view = Some d ∧
    Forall (λ r, join_rule r data view = None) before.
Proof. apply first_answer_spec; [set_solver|]. intros r d. apply join_rule_names. Qed.

(** No event is attached to a thread without evidence. When the decision names an
    existing thread, it is the resolvable thread of the quoted message, the single target
    of a correction, the only active candidate of the sender under a positive continuity
    signal, a re-checked dormant match, or the sender's last direct-message thread, each
    under the conditions of its rule; a mention and an ambient message never attach. *)
Theorem attachment_needs_evidence data view t :
  jd_thread_id (decide_join data view) = Some t →
  attach_evidence (jd_rule (decide_join data view)) data view t.
Proof. apply rule_attaches, decide_join_answers. Qed.

(** Continuity is adjacency. The signal is positive exactly when the event quotes
    nothing outside the candidate, the chat message right before it belongs to the candidate
    thread, and that message is the bot's, or the sender's own one, not longer ago than the
    gap and not followed by a fresh mention of the bot. *)
Theorem continuity_is_adjacency cand principal previous now gap mentioned quotes :
  signal_positive (continuity_signal cand principal previous (Some now) (Some gap) mentioned quotes) = true ↔
  quotes = false ∧ ∃ p, previous = Some p ∧ cand ∈ pm_thread_ids p ∧
    (pm_from_bot p = true ∨
     mentioned = false ∧ principal ≠ "" ∧ principal ∈ pm_principals p ∧
     ∀ at_ms, pm_at_ms p = Some at_ms → now - at_ms ≤ gap).
Proof.
  unfold continuity_signal. destruct quotes; [split; [done|by intros [? _]]|].
  destruct previous as [p|]; [|split; [done|intros (_ & p & ? & _); done]].
  destruct (str_in cand (pm_thread_ids p)) eqn:Ec; cbn [negb].
  2:{ split; [done|]. intros (_ & ? & [= <-] & Hin%str_in_spec & _). congruence. }
  apply str_in_spec in Ec. destruct (pm_from_bot p) eqn:Eb; [split; [naive_solver|done]|].
  destruct mentioned; [split; [done|]; intros (_ & ? & [= <-] & _ & [?|[? _]]); congruence|].
  destruct (str_true principal && str_in principal (pm_principals p)) eqn:Ep.
  - apply andb_true_iff in Ep as [Hp%str_true_spec Hin%str_in_spec].
    destruct (pm_at_ms p) as [at_ms|] eqn:Ea.
    + destruct (gap <? now - at_ms) eqn:Eg.
      * split; [done|]. intros (_ & ? & [= <-] & _ & [?|(_ & _ & _ & Hgap)]); [congruence|].
        specialize (Hgap _ Ea). lia.
      * split; [|done]. intros _. split; [done|]. exists p. split_and!; try done. right.
        split_and!; try done. intros ? Heq. rewrite Ea in Heq. injection Heq as <-. lia.
    + split; [|done]. intros _. split; [done|]. exists p. split_and!; try done. right.
      split_and!; try done. intros ? Heq. congruence.
  - split; [done|]. intros (_ & ? & [= <-] & _ & [?|(_ & Hp%str_true_spec & Hin%str_in_spec & _)]); [congruence|].
    by rewrite Hp, Hin in Ep.
Qed.

(** Lifecycle verdicts are complete and capped. Every thread gets one verdict, at most
    [max_active_per_chat] threads stay active, a quiet idle thread is dormant, and a thread
    demoted by the cap is older than every thread that stays active. *)
Theorem lifecycle_capped threads other now is_group policy :
  NoDup (map lt_thread_id threads) →
  let vs := lifecycle_verdicts threads other now is_group policy in
  map fst vs = map lt_thread_id (lifecycle_order threads) ∧
  Z.of_nat (rowcount (λ p, lv_state p.2 =?s "active") vs) ≤ Z.max 0 (tpol_max_active_per_chat policy) ∧
  (∀ t u, t ∈ threads → u ∈ threads →
     (lt_thread_id t, MkVerdict "dormant" "over_cap") ∈ vs →
     (lt_thread_id u, MkVerdict "active" "active") ∈ vs → older t u).
Proof.
  intros Hnd vs. subst vs. rewrite lifecycle_verdicts_map by done.
  assert (∀ t v, t ∈ threads →
    (lt_thread_id t, v) ∈ map (λ t, (lt_thread_id t, verdict_of other now is_group policy threads t))
                            (lifecycle_order threads) →
    verdict_of other now is_group policy threads t = v) as Hv.
  { intros t v Ht (t' & [= Hid ->] & Ht'%elem_of_order_by)%list_elem_of_fmap.
    by rewrite (unique_key_inj lt_thread_id threads t t' Hnd Ht Ht' Hid). }
  split_and!.
  - by rewrite List.map_map.
  - pose proof (active_count other now is_group policy threads) as Hc. cbv zeta in Hc.
    rewrite length_drop in Hc. unfold rowcount, select in *. rewrite filter_map_length. cbn beta. cbn [snd].
    unfold excess in Hc. lia.
  - intros t u Ht Hu Hot Hau. apply Hv in Hot; [|done]. apply Hv in Hau; [|done].
    eapply sorted_take_drop; [apply awake_sorted| |].
    + by apply verdict_of_over.
    + by apply verdict_of_active.
Qed.

(** ** Witnesses *)

Definition plain_input : JoinInput :=
  MkJoinInput "ev2" "whatsapp" "c" "u" "and tomorrow?" "message" true false false None None false
    (BreakBool false) (Some 2000) (Some "m2") None.
Definition bot_spoke : PreviousMessage := MkPrevious "m1" true [] ["th1"] (Some 1500).
Definition adjacent_view : JoinView :=
  MkJoinView None None None false [] [("th1", Some "tu1")] None
    (Some (continuity_signal "th1" "u" (Some bot_spoke) (Some 2000) (Some 120000) false false)) None.

Lemma attachment_needs_evidence_witness :
  jd_thread_id (decide_join plain_input adjacent_view) = Some "th1" ∧
  continuity_positive adjacent_view = true.
Proof.
  split; [by vm_compute|].
  destruct (attachment_needs_evidence plain_input adjacent_view "th1") as (_ & Hc & _); [by vm_compute|done].
Defined.

Definition four_threads : list LifecycleThread :=
  [MkLifecycle "a" 4000; MkLifecycle "b" 1000; MkLifecycle "c" 3000; MkLifecycle "d" 2000].
Definition cap_two : ThreadPolicy := MkThreadPolicy 15000 7200000 604800000 3600 5 0 2 120000.

Lemma lifecycle_capped_witness :
  older (MkLifecycle "d" 2000) (MkLifecycle "c" 3000) ∧
  map fst (lifecycle_verdicts four_threads [] 5000 true cap_two) = ["b"; "d"; "c"; "a"].
Proof.
  destruct (lifecycle_capped four_threads [] 5000 true cap_two) as (Hids & _ & Hold).
  - apply (bool_decide_unpack _). by vm_compute.
  - split.
    + apply Hold; apply list_elem_of_In; vm_compute; tauto.
    + rewrite Hids. by vm_compute.
Defined.

(** ** Observations *)

(** The declared tri-state values count as a certain break for direct messages: only the
    empty string and the boolean [False] keep the last active thread. *)
Lemma dm_tristate_opens_thread dm t :
  ji_is_group dm = false → ji_topic_break dm = BreakText t → t ≠ "" →
  ∀ view, rule_dm_last_active dm view =
          Some ((join_decision DM_LAST_ACTIVE "dm_new_thread") <| jd_new_thread := true |>).
Proof.
  intros Hg Ht Hne%str_true_spec view. unfold rule_dm_last_active. rewrite Hg, Ht. cbn [break_truthy].
  by rewrite Hne.
Qed.
