(* ===== verification/Registry.v ===== *)
(** * Registry

    The persistent half of thread assignment: the topic cards and [previous_chat_message]
    of [processing/store.py], and [ThreadRegistry] of [processing/threads.py], which builds
    the view the join rules decide on and stores what they decided. *)

From Stdlib Require Import ZArith Lia Ascii.
From S2P Require Import Prelude Tables Json Models Schema Outbox OutboxFacts OutboxSpec OutboxRefine.
From S2P Require Import Quiet Fixtures ThreadStore ThreadProps Journal Routing.

(** ** Strings *)

(** [s.endswith(suffix)] *)
Definition py_endswith (suffix s : string) : bool :=
  let n := String.length s in
  let m := String.length suffix in
  (m <=? n)%nat && (String.substring (n - m) m s =?s suffix).

(** [s.split()]; [word] is the word read so far. *)
Fixpoint split_words (word s : string) : list string :=
  match s with
  | EmptyString => if str_true word then [word] else []
  | String c s' =>
      if is_space c then (if str_true word then [word] else []) ++ split_words "" s'
      else split_words (word +:+ String c "") s'
  end.

Lemma keeps_write {R A} (table : db → R) (body : txn db A) :
  (∀ s a s', body s = Ok (a, s') → table s' = table s) → keeps table (write body).
Proof. intros Hb s. unfold write. destruct (body s) as [[a s']|] eqn:E; [by eapply Hb|done]. Qed.

Ltac solve_keeps :=
  apply keeps_write; intros ? ? ? Hbody; cbv beta zeta in Hbody;
  repeat (case_match; try discriminate); injection Hbody as; subst; done.

Section Registry.
  Context `{Sha256}.

(** ** Topic cards *)

(** [note_thread_topic]: first and latest text of a thread, 240 characters each *)
Definition note_thread_topic (thread_id source_id text : string) (now_ms : Z) : prog db unit :=
  let excerpt := String.substring 0 240 (join " " (split_words "" text)) in
  if negb (str_true thread_id) || negb (str_true excerpt) then pret tt
  else write (λ s,
    Ok (tt, s <| thread_topics ::= λ l,
      if row_exists (has_id tp_thread_id thread_id) l
      then update (has_id tp_thread_id thread_id)
             (λ p, MkTopic (tp_thread_id p)
                     (match tp_opener p with None => Some source_id | Some _ => tp_opener_source_id p end)
                     (match tp_opener p with None => Some excerpt | Some o => Some o end)
                     (Some source_id) (Some excerpt) now_ms) l
      else insert_row (MkTopic thread_id (Some source_id) (Some excerpt) (Some source_id) (Some excerpt)
                         now_ms) l |>)).

(** [forget_topic_source]: no card keeps the text of a deleted or edited message *)
Definition forget_topic_source (source_id : string) (now_ms : Z) : prog db unit :=
  if negb (str_true source_id) then pret tt
  else write (λ s,
    Ok (tt, s <| thread_topics ::= λ l,
      update (λ p, opt_str_eqb (tp_latest_source_id p) (Some source_id))
        (λ p, p <| tp_latest := None |> <| tp_latest_source_id := None |> <| tp_updated_ms := now_ms |>)
        (update (λ p, opt_str_eqb (tp_opener_source_id p) (Some source_id))
           (λ p, p <| tp_opener := None |> <| tp_opener_source_id := None |>
                   <| tp_updated_ms := now_ms |>) l) |>)).

Definition thread_topic (thread_id : string) (s : db) : option (option string * option string) :=
  (λ p, (tp_opener p, tp_latest p)) <$> by_id tp_thread_id thread_id (thread_topics s).

(** ** The message before *)

(** [COALESCE(occurred_ms, created_ms)] *)
Definition event_at (e : event_row) : Z := default (ev_created_ms e) (ev_occurred_ms e).

Definition nonempty_strings (l : list (option string)) : list string :=
  concat (map (λ o, match o with Some x => if str_true x then [x] else [] | None => [] end) l).

(** The newest inbound message of the chat. SQLite fixes no order among rows of one time;
    the model takes the first. *)
Definition previous_human (channel chat_id : string) (before_ms : Z)
    (exclude_event_id exclude_source_id : string) (s : db) : option event_row :=
  head (order_by (λ a b, event_at b <=? event_at a)
          (select (λ e, (ev_channel e =?s channel) && (ev_chat_id e =?s chat_id)
                        && (event_at e <=? before_ms) && (ev_direction e =?s "in")
                        && (ev_kind e =?s "message") && negb (ev_event_id e =?s exclude_event_id)
                        && negb (default "" (ev_source_message_id e) =?s exclude_source_id)) (events s))).

(** The newest confirmed message of the bot in the chat, with its time. *)
Definition previous_bot (channel chat_id : string) (before_ms : Z) (s : db)
    : option (thread_message_row * Z) :=
  let sent := concat (map (λ m, match tm_confirmed_ms m with Some t => [(m, t)] | None => [] end)
                        (thread_messages s)) in
  head (order_by (λ a b : thread_message_row * Z, b.2 <=? a.2)
          (select (λ p : thread_message_row * Z,
                     (tm_direction p.1 =?s "out") && (p.2 <=? before_ms)
                     && row_exists (λ t, (th_thread_id t =?s tm_thread_id p.1)
                                         && (th_channel t =?s channel) && (th_chat_id t =?s chat_id))
                          (threads s)) sent)).

(** [previous_chat_message], as the [PreviousMessage] its caller builds *)
Definition previous_chat_message (channel chat_id : string) (before_ms : Z)
    (exclude_event_id exclude_source_id : string) (s : db) : option PreviousMessage :=
  let human := previous_human channel chat_id before_ms exclude_event_id exclude_source_id s in
  let bot := previous_bot channel chat_id before_ms s in
  let from_human :=
    match human with
    | None => None
    | Some e =>
        let source := nonempty (ev_source_message_id e) in
        let rows := select (λ r, match source with
                                 | Some m => opt_str_eqb (ev_source_message_id r) (Some m)
                                 | None => ev_event_id r =?s ev_event_id e
                                 end) (events s) in
        Some (MkPrevious (default (ev_event_id e) source) false
                (nonempty_strings (map (λ r, Some (ev_principal r)) rows))
                (nonempty_strings (map ev_thread_id rows)) (Some (event_at e)))
    end in
  match bot with
  | Some (m, t) =>
      if match human with None => true | Some e => event_at e <=? t end
      then Some (MkPrevious (default "None" (tm_message_id m)) true [] [tm_thread_id m] (Some t))
      else from_human
  | None => from_human
  end.

(** ** ThreadRegistry: the view *)

Record ThreadRegistry := MkRegistry {
  rg_policy : ThreadPolicy;
  rg_ambient_chats : list string;
}.

(** [_opt]: stripped text, or nothing *)
Definition opt_text (o : option json) : option string :=
  match o with
  | None | Some JNull => None
  | Some v => let text := py_strip (py_str v) in if str_true text then Some text else None
  end.

(** [input_from_event] *)
Definition input_from_event (event : CanonicalEvent) (explicit_correction topic_break : option bool)
    : JoinInput :=
  let payload := event_payload event in
  let flag := λ k, opt_truthy (dict_get k payload) in
  {| ji_event_id := ce_event_id event; ji_channel := ce_channel event; ji_chat_id := ce_chat_id event;
     ji_principal := ce_principal event; ji_text := str_or_empty (dict_get "text" payload);
     ji_kind := ce_kind event;
     ji_is_group := flag "is_group" || py_endswith "@g.us" (ce_chat_id event);
     ji_mentioned_bot := flag "mentioned_bot"; ji_reply_to_bot := flag "reply_to_bot";
     ji_reply_to_message_id := match opt_text (dict_get "reply_to_message_id" payload) with
                               | Some m => Some m
                               | None => opt_text (dict_get "reply_to" payload)
                               end;
     ji_target_message_id := opt_text (dict_get "target_message_id" payload);
     ji_explicit_correction := default (flag "explicit_correction") explicit_correction
                               || str_in (ce_kind event) ["delete"; "edit"];
     ji_topic_break := BreakBool (default (flag "topic_break") topic_break);
     ji_occurred_ms := ce_occurred_ms event; ji_source_message_id := ce_source_message_id event;
     ji_semantic_thread_id := opt_text (dict_get "semantic_thread_id" payload) |}.

(** [x or None] *)
Definition str_or_none (x : string) : option string := if str_true x then Some x else None.

Definition dormant_thread (t : thread_row) : bool :=
  (th_state t =?s "open") && (th_conversation_state t =?s "dormant").

(** [_semantic_target] *)
Definition semantic_target (data : JoinInput) (s : db) : option string :=
  match nonempty (ji_semantic_thread_id data) with
  | None => None
  | Some id =>
      match get_thread id s with
      | None => None
      | Some t =>
          if negb (th_channel t =?s ji_channel data) || negb (th_chat_id t =?s ji_chat_id data)
             || negb (th_state t =?s "open") || negb (th_conversation_state t =?s "dormant")
             || (th_kind t =?s "ambient")
          then None else Some (th_thread_id t)
      end
  end.

(** [_reply_thread] and [_reply_turn] *)
Definition reply_thread (data : JoinInput) (s : db) : option string :=
  fst <$> resolve_reference (ji_reply_to_message_id data) s.
Definition reply_turn (data : JoinInput) (s : db) : option string :=
  match resolve_reference (ji_reply_to_message_id data) s with Some (_, t) => t | None => None end.

(** [_reply_thread_state] *)
Definition reply_thread_state (data : JoinInput) (s : db) : option string :=
  match reply_thread data s with
  | None => None
  | Some id =>
      match get_thread id s with
      | None => None
      | Some t => Some (if dormant_thread t then "dormant" else th_state t)
      end
  end.

(** [_reply_reopenable] *)
Definition reply_reopenable (rg : ThreadRegistry) (data : JoinInput) (now_ms : Z) (s : db) : bool :=
  match reply_thread data s with
  | None => false
  | Some id =>
      match get_thread id s with
      | None => false
      | Some t =>
          if opt_str_eqb (th_close_reason t) (Some "manual_new") then false
          else if dormant_thread t then true
          else if tpol_reopen_window_ms (rg_policy rg) <? now_ms - th_last_activity_ms t then false
          else thread_sources_available id s
      end
  end.

(** [_correction_targets] *)
Definition correction_targets (data : JoinInput) (s : db) : list (string * string) :=
  if negb (ji_explicit_correction data) && negb (str_in (ji_kind data) ["delete"; "edit"]) then [] else
  let ref := match nonempty (ji_target_message_id data) with
             | Some m => Some m
             | None => ji_reply_to_message_id data
             end in
  match nonempty ref with
  | None => []
  | Some m => match resolve_reference (Some m) s with
              | Some (thread_id, Some turn_id) => [(thread_id, turn_id)]
              | _ => []
              end
  end.

Definition active_turn_id (thread_id : string) (s : db) : option string :=
  tu_turn_id <$> active_turn thread_id s.

(** [_active_threads] *)
Definition active_threads (rg : ThreadRegistry) (data : JoinInput) (now_ms : Z) (s : db)
    : list (string * option string) :=
  map (λ t, (th_thread_id t, active_turn_id (th_thread_id t) s))
    (select (λ t, (th_conversation_state t =?s "active") && negb (th_kind t =?s "ambient")
                  && (now_ms - th_last_activity_ms t <=? tpol_followup_window_ms (rg_policy rg)))
       (list_threads (str_or_none (ji_channel data)) (Some (ji_chat_id data)) (Some (ji_principal data))
          (Some "open") None s)).

(** [_continuum] *)
Definition continuum (rg : ThreadRegistry) (data : JoinInput) (now_ms : Z) (s : db)
    : option ContinuitySignal :=
  match active_threads rg data now_ms s with
  | [(thread_id, _)] =>
      let current_ms := default now_ms (ji_occurred_ms data) in
      let previous := previous_chat_message (ji_channel data) (ji_chat_id data) current_ms
                        (ji_event_id data) (default "" (ji_source_message_id data)) s in
      let quotes_elsewhere := opt_true (ji_reply_to_message_id data)
        && (negb (ji_reply_to_bot data) && negb (opt_str_eqb (reply_thread data s) (Some thread_id))) in
      Some (continuity_signal thread_id (ji_principal data) previous (Some current_ms)
              (Some (tpol_same_sender_gap_ms (rg_policy rg))) (ji_mentioned_bot data) quotes_elsewhere)
  | _ => None
  end.

(** [_last_dm_thread]; [list_threads] is newest first, so the maximum is its head. *)
Definition last_dm_thread (data : JoinInput) (s : db) : option string :=
  th_thread_id <$>
    head (select (λ t, th_conversation_state t =?s "active")
            (list_threads None (Some (ji_chat_id data)) (Some (ji_principal data)) (Some "open") None s)).

(** [view_for] *)
Definition view_for (rg : ThreadRegistry) (data : JoinInput) (now_ms : Z) (s : db) : JoinView :=
  {| jv_reply_thread_id := reply_thread data s; jv_reply_turn_id := reply_turn data s;
     jv_reply_thread_state := reply_thread_state data s;
     jv_reply_reopenable := reply_reopenable rg data now_ms s;
     jv_correction_targets := correction_targets data s;
     jv_active_threads := active_threads rg data now_ms s;
     jv_last_active_dm_thread := last_dm_thread data s;
     jv_continuum := continuum rg data now_ms s;
     jv_semantic_target := semantic_target data s |}.

(** ** ThreadRegistry: assignment *)

(** [_observed] *)
Definition observed (d : JoinDecision) (data : JoinInput) (view : JoinView) : JoinDecision :=
  d <| jd_candidates_checked := length (jv_active_threads view) |>
    <| jd_candidates_eligible := if continuity_positive view then 1%nat else 0%nat |>
    <| jd_topic_break := break_str (ji_topic_break data) |>
    <| jd_continuity_kind := match jv_continuum view with
                             | Some c => if str_true (cs_kind c) then cs_kind c else "none"
                             | None => "none"
                             end |>
    <| jd_continuity_verdict := match jv_continuum view with
                                | Some c => if str_true (cs_verdict c) then cs_verdict c else "unknown"
                                | None => "unknown"
                                end |>
    <| jd_continuity_evidence := match jv_continuum view with
                                 | Some c => cs_evidence_ids c
                                 | None => []
                                 end |>.

(** [_ambient_allowed] *)
Definition ambient_allowed (rg : ThreadRegistry) (data : JoinInput) : bool :=
  str_in (ji_channel data +:+ ":" +:+ ji_chat_id data) (rg_ambient_chats rg).

(** [_thread_needs_reopen] *)
Definition thread_needs_reopen (rg : ThreadRegistry) (thread_id : string) (now_ms : Z) (s : db) : bool :=
  match get_thread thread_id s with
  | None => false
  | Some t =>
      if th_state t =?s "open" then false
      else if tpol_reopen_window_ms (rg_policy rg) <? now_ms - th_last_activity_ms t then false
      else thread_sources_available thread_id s
  end.

(** The loop of [_close_previous_ambient_threads] over the listed threads. *)
Fixpoint close_ambient (keep : string) (now_ms : Z) (l : list thread_row) : prog db unit :=
  match l with
  | [] => pret tt
  | t :: l' =>
      do* (if (th_thread_id t =?s keep) || negb (th_kind t =?s "ambient") then pret tt
           else
             let* turn := pget (active_turn (th_thread_id t)) in
             do* match turn with
                 | Some u => do* close_turn (tu_turn_id u) now_ms "closed" in pret tt
                 | None => pret tt
                 end in
             touch_thread (th_thread_id t) now_ms) in
      close_ambient keep now_ms l'
  end.

(** [_close_previous_ambient_threads] *)
Definition close_previous_ambient_threads (data : JoinInput) (keep : string) (now_ms : Z) : prog db unit :=
  let* l := pget (list_threads (str_or_none (ji_channel data)) (Some (ji_chat_id data))
                    (Some (ji_principal data)) (Some "open") None) in
  close_ambient keep now_ms l.

(** [_persist_ambient] *)
Definition persist_ambient (event : CanonicalEvent) (data : JoinInput) (decision : JoinDecision)
    (now_ms : Z) : prog db JoinDecision :=
  let* thread_id := open_thread (ce_channel event) (ce_chat_id event) (ce_principal event) "ambient"
                      (ce_event_id event) now_ms in
  let* turn_id := open_turn thread_id (ce_principal event) (ce_event_id event) now_ms "open" in
  do* add_turn_source turn_id (ce_event_id event) (ce_source_message_id event) "trigger" 1 now_ms in
  do* attach_event_assignment (ce_event_id event) (Some thread_id) (Some turn_id) in
  do* close_previous_ambient_threads data thread_id now_ms in
  pret (decision <| jd_thread_id := Some thread_id |> <| jd_turn_id := Some turn_id |>
          <| jd_new_thread := true |> <| jd_new_turn := true |>
          <| jd_reason := "ambient_answer_with_own_lineage" |>
          <| jd_source_message_ids :=
               [default (ce_event_id event) (nonempty (ce_source_message_id event))] |>).

(** The thread of [_persist]: opened, woken up, reopened or touched. *)
Definition persist_thread (rg : ThreadRegistry) (event : CanonicalEvent) (data : JoinInput)
    (decision : JoinDecision) (now_ms : Z) : prog db (string * bool) :=
  match jd_thread_id decision with
  | None =>
      let* id := open_thread (ce_channel event) (ce_chat_id event) (ce_principal event)
                   (if ji_is_group data then "group" else "dm") (ce_event_id event) now_ms in
      pret (id, true)
  | Some id =>
      let* woken := reactivate id now_ms in
      if woken : bool then pret (id, false) else
      let* reopen := pget (thread_needs_reopen rg id now_ms) in
      if jd_new_turn decision && reopen
      then do* reopen_thread id now_ms in pret (id, false)
      else do* touch_thread id now_ms in pret (id, false)
  end.

(** [_persist] *)
Definition persist (rg : ThreadRegistry) (event : CanonicalEvent) (data : JoinInput)
    (decision : JoinDecision) (now_ms : Z) (allow_turn : bool) : prog db JoinDecision :=
  let* found := persist_thread rg event data decision now_ms in
  let thread_id := found.1 in
  let opened := found.2 in
  let* turn_id :=
    match jd_turn_id decision with
    | Some t => pret (Some t)
    | None =>
        if allow_turn
        then let* t := open_turn thread_id (ce_principal event) (ce_event_id event) now_ms "open" in
             pret (Some t)
        else pret None
    end in
  do* match turn_id with
      | Some t => add_turn_source t (ce_event_id event) (ce_source_message_id event)
                    (if jd_new_turn decision || opened then "trigger" else "context") 1 now_ms
      | None => pret tt
      end in
  do* attach_event_assignment (ce_event_id event) (Some thread_id) turn_id in
  let* sources := pget (λ s, match turn_id with Some t => get_turn_sources t s | None => [] end) in
  pret (decision <| jd_thread_id := Some thread_id |>
          <| jd_turn_id := if jd_observes_only decision then None else turn_id |>
          <| jd_new_thread := opened |>
          <| jd_source_message_ids :=
               nonempty_strings (map ts_source_message_id
                                   (select (λ r, is_none (ts_removed_ms r)) sources)) |>).

(** [_note_topic] *)
Definition note_topic (data : JoinInput) (decision : JoinDecision) (now_ms : Z) : prog db unit :=
  match nonempty (jd_thread_id decision) with
  | Some id =>
      if (ji_kind data =?s "message") && str_true (py_strip (ji_text data))
      then note_thread_topic id (default (ji_event_id data) (nonempty (ji_source_message_id data)))
             (ji_text data) now_ms
      else pret tt
  | None => pret tt
  end.

(** A reaction observes only. *)
Definition as_reaction (event : CanonicalEvent) (d : JoinDecision) : JoinDecision :=
  if ce_kind event =?s "reaction"
  then d <| jd_observes_only := true |> <| jd_turn_id := None |> <| jd_new_turn := false |>
         <| jd_reason := if str_true (jd_reason d) then jd_reason d else "reaction_signal" |>
  else d.

(** [assign] *)
Definition assign (rg : ThreadRegistry) (event : CanonicalEvent) (moment : Z)
    (explicit_correction topic_break : option bool) (allow_turn : bool) : prog db JoinDecision :=
  let data := input_from_event event explicit_correction topic_break in
  do* (if str_in (ji_kind data) ["delete"; "edit"]
       then forget_topic_source (default "" (ji_target_message_id data)) moment else pret tt) in
  let* stored := pget (event_assignment (ce_event_id event)) in
  let* view := pget (view_for rg data moment) in
  let fresh :=
    let decision := as_reaction event (observed (decide_join data view) data view) in
    let unassigned := attach_event_assignment (ce_event_id event) None None in
    if is_none (jd_thread_id decision) && bool_decide (jd_rule decision = AMBIENT) then
      if negb allow_turn || negb (ambient_allowed rg data) then
        do* (if jd_needs_clarification decision then unassigned else pret tt) in
        pret decision
      else persist_ambient event data decision moment
    else if jd_needs_clarification decision then
      do* unassigned in pret decision
    else
      let* persisted := persist rg event data decision moment allow_turn in
      do* note_topic data persisted moment in
      pret persisted in
  match stored with
  | Some (Some thread_id, turn_id) =>
      if is_some turn_id || negb allow_turn
      then pret ((decide_join data view) <| jd_thread_id := Some thread_id |> <| jd_turn_id := turn_id |>
                   <| jd_new_thread := false |> <| jd_new_turn := false |>)
      else fresh
  | _ => fresh
  end.

(** ** Facts *)

Lemma open_thread_events a b c d e n : keeps events (open_thread a b c d e n).
Proof. unfold open_thread. solve_keeps. Qed.
Lemma open_turn_events a b c n st : keeps events (open_turn a b c n st).
Proof. unfold open_turn. solve_keeps. Qed.
Lemma add_turn_source_events a b c d n m : keeps events (add_turn_source a b c d n m).
Proof. unfold add_turn_source. solve_keeps. Qed.
Lemma reactivate_events a n : keeps events (reactivate a n).
Proof. solve_keeps. Qed.
Lemma reopen_thread_events a n : keeps events (reopen_thread a n).
Proof. solve_keeps. Qed.
Lemma touch_thread_events a n : keeps events (touch_thread a n).
Proof. solve_keeps. Qed.
Lemma close_turn_events a n st : keeps events (close_turn a n st).
Proof. unfold close_turn. destruct (negb _); [by intros ?|]. solve_keeps. Qed.

Lemma note_thread_topic_events a b c n : keeps events (note_thread_topic a b c n).
Proof. unfold note_thread_topic. cbv zeta. destruct (_ || _); [by intros ?|]. solve_keeps. Qed.

Lemma note_topic_events data d n : keeps events (note_topic data d n).
Proof.
  unfold note_topic. destruct (nonempty _); [|by intros ?]. destruct (_ && _); [|by intros ?].
  apply note_thread_topic_events.
Qed.

Lemma close_ambient_events keep n l : keeps events (close_ambient keep n l).
Proof.
  induction l as [|t l IH]; [by intros ?|]. cbn [close_ambient]. apply keeps_bind; [|done].
  destruct (_ || _); [by intros ?|]. apply keeps_bind; [by intros ?|]. intros [u|].
  - apply keeps_bind; [|intros; apply touch_thread_events].
    apply keeps_bind; [apply close_turn_events|by intros ? ?].
  - apply keeps_bind; [by intros ?|intros; apply touch_thread_events].
Qed.

Lemma persist_thread_events rg event data d n : keeps events (persist_thread rg event data d n).
Proof.
  unfold persist_thread. destruct (jd_thread_id d) as [id|].
  - apply keeps_bind; [apply reactivate_events|]. intros [|]; [by intros ?|].
    apply keeps_bind; [by intros ?|]. intros r. destruct (_ && _).
    + apply keeps_bind; [apply reopen_thread_events|by intros ? ?].
    + apply keeps_bind; [apply touch_thread_events|by intros ? ?].
  - apply keeps_bind; [apply open_thread_events|by intros ? ?].
Qed.

(** The journal after an event was assigned. *)
Definition assigned (event_id : string) (th turn : option string) (l : list event_row) : list event_row :=
  update (has_id ev_event_id event_id) (λ e, e <| ev_thread_id := th |> <| ev_turn_id := turn |>) l.

Lemma event_assignment_assigned id th turn s s' row :
  by_id ev_event_id id (events s) = Some row → events s' = assigned id (Some th) turn (events s) →
  event_assignment id s' = Some (Some th, turn).
Proof.
  intros Hrow Hs.
  assert (by_id ev_event_id id (events s') =
            Some (row <| ev_thread_id := Some th |> <| ev_turn_id := turn |>)) as Hnew.
  { rewrite Hs. unfold assigned. rewrite by_id_update by done. rewrite Hrow.
    cbn [fmap option_fmap option_map]. pose proof Hrow as [_ Hid]%by_id_Some_inv.
    unfold has_id. by rewrite Hid, str_eqb_refl. }
  unfold event_assignment. rewrite Hnew. done.
Qed.

Lemma kept {R A} (table : db → R) (p : prog db A) s r s' :
  keeps table p → p s = (r, s') → table s' = table s.
Proof. intros Hk Hp. specialize (Hk s). by rewrite Hp in Hk. Qed.

(** What a stored assignment leaves in the journal. *)
Lemma persist_assigns rg event data d n allow s d' s' :
  persist rg event data d n allow s = (Ok d', s') →
  ∃ th turn, jd_thread_id d' = Some th ∧
    jd_turn_id d' = (if jd_observes_only d then None else turn) ∧
    (allow = true → turn ≠ None) ∧
    events s' = assigned (ce_event_id event) (Some th) turn (events s).
Proof.
  unfold persist. intros Hp. apply pbind_Ok in Hp as ([th opened] & s1 & H1 & Hp).
  apply pbind_Ok in Hp as (turn & s2 & H2 & Hp). apply pbind_Ok in Hp as (u & s3 & H3 & Hp).
  apply pbind_Ok in Hp as (u' & s4 & H4 & Hp). apply pbind_Ok in Hp as (src & s5 & H5 & Hp).
  injection Hp as <- <-. injection H5 as _ <-. injection H4 as _ <-. cbn [fst snd] in *.
  exists th, turn. split; [done|]. split; [done|]. split.
  - intros ->. destruct (jd_turn_id d); [by injection H2 as <- _|].
    apply pbind_Ok in H2 as (t & s6 & _ & H2). by injection H2 as <- _.
  - cbn [events set_field]. unfold assigned. f_equal.
    apply kept with (table := events) in H1; [|apply persist_thread_events].
    apply kept with (table := events) in H2.
    2:{ destruct (jd_turn_id d); [by intros ?|]. destruct allow; [|by intros ?].
        apply keeps_bind; [apply open_turn_events|by intros ? ?]. }
    apply kept with (table := events) in H3; [congruence|].
    destruct turn; [apply add_turn_source_events|by intros ?].
Qed.

Lemma persist_ambient_assigns event data d n s d' s' :
  persist_ambient event data d n s = (Ok d', s') →
  ∃ th turn, jd_thread_id d' = Some th ∧ jd_turn_id d' = Some turn ∧
    events s' = assigned (ce_event_id event) (Some th) (Some turn) (events s).
Proof.
  unfold persist_ambient. intros Hp. apply pbind_Ok in Hp as (th & s1 & H1 & Hp).
  apply pbind_Ok in Hp as (turn & s2 & H2 & Hp). apply pbind_Ok in Hp as (u & s3 & H3 & Hp).
  apply pbind_Ok in Hp as (u' & s4 & H4 & Hp). apply pbind_Ok in Hp as (u'' & s5 & H5 & Hp).
  injection Hp as <- <-. injection H4 as _ <-. exists th, turn. split; [done|]. split; [done|].
  apply kept with (table := events) in H1; [|apply open_thread_events].
  apply kept with (table := events) in H2; [|apply open_turn_events].
  apply kept with (table := events) in H3; [|apply add_turn_source_events].
  apply kept with (table := events) in H5.
  2:{ apply keeps_bind; [by intros ?|intros; apply close_ambient_events]. }
  rewrite H5. cbn [events set_field]. unfold assigned. f_equal. congruence.
Qed.

(** The assignment an earlier call stored decides. *)
Lemma assign_stored rg event now corr tb s th turn :
  str_in (ce_kind event) ["delete"; "edit"] = false →
  event_assignment (ce_event_id event) s = Some (Some th, Some turn) →
  ∃ d, assign rg event now corr tb true s = (Ok d, s) ∧ jd_thread_id d = Some th ∧
       jd_turn_id d = Some turn ∧ jd_new_thread d = false ∧ jd_new_turn d = false.
Proof.
  intros Hk Hs. unfold assign, pbind, pget. cbv zeta. cbn [ji_kind input_from_event]. rewrite Hk.
  cbn [pret]. rewrite Hs. cbn [is_some is_none negb orb]. eexists. split; [done|]. done.
Qed.

(** The branch of [assign] for an event without a stored assignment. *)
Lemma fresh_assigns rg event data decision now s row d s' th :
  by_id ev_event_id (ce_event_id event) (events s) = Some row →
  (if is_none (jd_thread_id decision) && bool_decide (jd_rule decision = AMBIENT) then
     if negb true || negb (ambient_allowed rg data) then
       do* (if jd_needs_clarification decision
            then attach_event_assignment (ce_event_id event) None None else pret tt) in
       pret decision
     else persist_ambient event data decision now
   else if jd_needs_clarification decision then
     do* attach_event_assignment (ce_event_id event) None None in pret decision
   else
     let* persisted := persist rg event data decision now true in
     do* note_topic data persisted now in
     pret persisted) s = (Ok d, s') →
  jd_thread_id d = Some th →
  jd_observes_only decision = false ∧ (jd_needs_clarification decision = true → jd_thread_id decision = None) →
  ∃ turn, jd_turn_id d = Some turn ∧
    event_assignment (ce_event_id event) s' = Some (Some th, Some turn).
Proof.
  intros Hrow Ha Hth [Hobs Hclar]. destruct (_ && _) eqn:Eamb.
  - apply andb_true_iff in Eamb as [Hnone _]. destruct (negb true || _).
    + apply pbind_Ok in Ha as (u & s1 & _ & Ha). injection Ha as <- _. by rewrite Hth in Hnone.
    + apply persist_ambient_assigns in Ha as (th' & turn & Hth' & Hturn & Hev).
      exists turn. split; [done|]. rewrite Hth in Hth'. injection Hth' as <-.
      by eapply event_assignment_assigned.
  - destruct (jd_needs_clarification decision).
    + apply pbind_Ok in Ha as (u & s1 & _ & Ha). injection Ha as <- _. rewrite Hclar in Hth; done.
    + apply pbind_Ok in Ha as (p & s1 & Hp & Ha). apply pbind_Ok in Ha as (u & s2 & Hn & Ha).
      injection Ha as <- <-. apply persist_assigns in Hp as (th' & turn & Hth' & Hturn & Hsome & Hev).
      rewrite Hobs in Hturn. rewrite Hth in Hth'. injection Hth' as <-.
      destruct turn as [turn|]; [|by destruct (Hsome eq_refl)].
      exists turn. split; [done|]. eapply event_assignment_assigned; [done|].
      apply kept with (table := events) in Hn; [|apply note_topic_events]. congruence.
Qed.

(** No join rule answers with an observation, and a clarification names no thread. *)
Lemma rule_not_observing r data view d :
  join_rule r data view = Some d →
  jd_observes_only d = false ∧ (jd_needs_clarification d = true → jd_thread_id d = None).
Proof.
  destruct r; cbn [join_rule].
  - unfold rule_reply_known. repeat (case_match; try done); by intros [= <-].
  - unfold rule_explicit_correction. repeat (case_match; try done); by intros [= <-].
  - unfold rule_reply_bot_new_thread. repeat (case_match; try done); by intros [= <-].
  - unfold rule_followup_single_active. repeat (case_match; try done); by intros [= <-].
  - unfold rule_semantic_reopen. repeat (case_match; try done); by intros [= <-].
  - unfold rule_mention_no_reference. repeat (case_match; try done); by intros [= <-].
  - unfold rule_dm_last_active. repeat (case_match; try done); by intros [= <-].
  - unfold rule_ambient. by intros [= <-].
Qed.

Lemma decide_not_observing data view data' view' :
  let d := observed (decide_join data view) data' view' in
  jd_observes_only d = false ∧ (jd_needs_clarification d = true → jd_thread_id d = None).
Proof. exact (rule_not_observing _ _ _ _ (decide_join_answers data view)). Qed.

(** A thread that a manual reset closed. *)
Definition reset_thread (t : thread_row) : Prop :=
  th_state t = "closed" ∧ th_close_reason t = Some "manual_new".

Lemma reset_leaves_closed channel chat_id now s id :
  id ∈ reset_threads channel chat_id s →
  ∃ t, get_thread id (close_chat_threads channel chat_id now s).2 = Some t ∧ reset_thread t.
Proof.
  intros Hid. unfold close_chat_threads, write. cbn [snd].
  fold (reset_threads channel chat_id s). unfold get_thread.
  rewrite (close_chat_fold_table threads (has_id th_thread_id)
    (λ t, t <| th_state := "closed" |> <| th_closed_ms := Some now |>
            <| th_close_reason := Some "manual_new" |>)).
  3:{ done. } 2:{ intros. unfold close_chat_thread. cbn [threads set_field].
                  by rewrite (cancel_fold_other threads). }
  rewrite by_id_update by done.
  destruct (by_id th_thread_id id (threads s)) as [t0|] eqn:E0.
  2:{ exfalso. apply list_elem_of_fmap in Hid as (t & -> & [Ht _]%elem_of_order_by%elem_of_select).
      by apply (by_id_None_inv _ _ _ _ E0 Ht). }
  cbn. apply by_id_Some_inv in E0 as [_ Hid0].
  assert (existsb (λ i, has_id th_thread_id i t0) (reset_threads channel chat_id s) = true) as ->.
  { apply existsb_exists. exists id. split; [by apply list_elem_of_In|]. by apply str_eqb_eq. }
  eexists. split; done.
Qed.

(** A reply into a thread that was reset gets a new one. *)
Lemma reply_to_reset rg data now s id t :
  reply_thread data s = Some id → id ≠ "" → get_thread id s = Some t → reset_thread t →
  rule_reply_known data (view_for rg data now s) =
    Some ((join_decision REPLY_KNOWN "reply_to_closed_thread")
            <| jd_new_thread := true |> <| jd_quote_ref := ji_reply_to_message_id data |>).
Proof.
  intros Hr Hne%str_true_spec Ht [Hst Hwhy]. unfold rule_reply_known.
  cbn [view_for jv_reply_thread_id jv_reply_thread_state jv_reply_reopenable].
  unfold reply_thread_state, reply_reopenable. rewrite Hr. cbn [opt_true]. rewrite Hne, Ht.
  unfold dormant_thread. rewrite Hst, Hwhy. done.
Qed.

(** ** Theorems *)

(** Assignment is idempotent per event. After a message event of the journal was
    assigned to a thread it has a turn, and assigning it again, at any time and with any
    flags, names the same thread and turn, opens nothing and changes nothing. *)
Theorem assign_idempotent rg event now now2 corr corr2 tb tb2 s row d s' th :
  by_id ev_event_id (ce_event_id event) (events s) = Some row →
  ce_kind event ∉ ["delete"; "edit"; "reaction"] →
  assign rg event now corr tb true s = (Ok d, s') → jd_thread_id d = Some th →
  ∃ turn d2, jd_turn_id d = Some turn ∧
    assign rg event now2 corr2 tb2 true s' = (Ok d2, s') ∧
    jd_thread_id d2 = Some th ∧ jd_turn_id d2 = Some turn ∧
    jd_new_thread d2 = false ∧ jd_new_turn d2 = false.
Proof.
  intros Hrow Hkind Ha Hth.
  assert (str_in (ce_kind event) ["delete"; "edit"] = false) as Hk.
  { apply not_true_iff_false. rewrite str_in_spec. set_solver. }
  assert (ce_kind event =?s "reaction" = false) as Hr by (apply str_eqb_neq; set_solver).
  enough (∃ turn, jd_turn_id d = Some turn ∧
            event_assignment (ce_event_id event) s' = Some (Some th, Some turn)) as (turn & Hturn & Hs').
  { destruct (assign_stored rg event now2 corr2 tb2 s' th turn Hk Hs') as (d2 & ? & ? & ? & ? & ?).
    exists turn, d2. done. }
  destruct (event_assignment (ce_event_id event) s) as [[[th0|] [turn0|]]|] eqn:Es.
  { destruct (assign_stored rg event now corr tb s th0 turn0 Hk Es) as (d0 & Ha0 & H1 & H2 & _).
    rewrite Ha0 in Ha. injection Ha as <- <-. exists turn0. split; [done|]. congruence. }
  all: unfold assign in Ha; cbv zeta in Ha; cbn [ji_kind input_from_event] in Ha; rewrite Hk in Ha;
    apply pbind_Ok in Ha as (u & s1 & H1 & Ha); injection H1 as _ <-;
    apply pbind_Ok in Ha as (st & s1 & H1 & Ha); injection H1 as <- <-; rewrite Es in Ha;
    apply pbind_Ok in Ha as (view & s1 & H1 & Ha); injection H1 as <- <-; cbn [is_some is_none negb orb] in Ha;
    unfold as_reaction in Ha; rewrite Hr in Ha;
    eapply fresh_assigns; [done|exact Ha|done|by apply decide_not_observing].
Qed.

(** A manual reset is not undone by a quote. After the threads of a chat were reset,
    an event that quotes a message of one of them, at any later time, is not attached to the
    closed thread: it starts a new one. *)
Theorem reset_sticks rg channel chat_id now s data now2 id :
  let s' := (close_chat_threads channel chat_id now s).2 in
  id ∈ reset_threads channel chat_id s → id ≠ "" → reply_thread data s' = Some id →
  let d := decide_join data (view_for rg data now2 s') in
  jd_rule d = REPLY_KNOWN ∧ jd_thread_id d = None ∧ jd_new_thread d = true.
Proof.
  intros s' Hid Hne Hr.
  destruct (reset_leaves_closed channel chat_id now s id Hid) as (t & Ht & Hreset).
  unfold decide_join. cbn [JOIN_RULES first_answer join_rule].
  by rewrite (reply_to_reset rg data now2 s' id t).
Qed.

(** A follow-up stays where it was said. The thread an unquoted message is attached to
    by the follow-up rule is an open, active, non-ambient thread of the same channel, chat
    and sender whose last activity lies within the follow-up window. *)
Theorem followup_stays_local rg data now s id :
  let d := decide_join data (view_for rg data now s) in
  jd_rule d = FOLLOWUP_SINGLE_ACTIVE → jd_thread_id d = Some id → ji_channel data ≠ "" →
  ∃ t, t ∈ threads s ∧ th_thread_id t = id ∧ th_channel t = ji_channel data ∧
       th_chat_id t = ji_chat_id data ∧ th_root_principal t = ji_principal data ∧
       th_state t = "open" ∧ th_conversation_state t = "active" ∧ th_kind t ≠ "ambient" ∧
       now - th_last_activity_ms t ≤ tpol_followup_window_ms (rg_policy rg).
Proof.
  intros d Hrule Hid Hch%str_true_spec.
  pose proof (rule_attaches _ _ _ _ _ (decide_join_answers data (view_for rg data now s)) Hid) as He.
  fold d in He. rewrite Hrule in He. destruct He as (_ & _ & turn & Hact).
  cbn [view_for jv_active_threads] in Hact.
  assert ((id, turn) ∈ active_threads rg data now s) as Hin by (rewrite Hact; set_solver).
  apply list_elem_of_fmap in Hin as (t & [= -> _] & [Ht Hp]%elem_of_select).
  unfold list_threads in Ht. apply elem_of_order_by, elem_of_select in Ht as [Ht Hq].
  unfold str_or_none in Hq. rewrite Hch in Hq. cbn [opt_filter] in Hq.
  rewrite !andb_true_iff, !str_eqb_eq in Hq. rewrite !andb_true_iff, negb_true_iff, str_eqb_eq in Hp.
  destruct Hq as [[[H1 H2] H3] H4], Hp as [[H5 H6%str_eqb_neq] H7%Z.leb_le].
  exists t. split_and!; done.
Qed.

End Registry.

(** ** Witnesses *)

#[local] Existing Instance plain_sha256.

Definition registry : ThreadRegistry := MkRegistry (MkThreadPolicy 15000 7200000 604800000 3600 5 0 4 120000) [].

(** A direct message, journaled. *)
Definition first_dm : CanonicalEvent :=
  {| ce_event_id := "ev1"; ce_event_key := "k1"; ce_trace_id := "t"; ce_kind := "message";
     ce_origin := "whatsapp"; ce_principal := "u"; ce_channel := "whatsapp"; ce_chat_id := "c";
     ce_account := ""; ce_direction := "in"; ce_revision := 1; ce_audience_ref := None;
     ce_occurred_ms := Some 100; ce_created_ms := Some 100; ce_source_message_id := Some "m1";
     ce_target_message_id := None; ce_thread_id := None; ce_turn_id := None;
     ce_payload := Some [("text", JStr "hi")]; ce_payload_hash := "" |}.
Definition dm_db : db := (append_event "k1" "ev1" "t" (TypedEvent first_dm) 100 None None None None empty_db).2.
Definition assigned_db : db := (assign registry first_dm 110 None None true dm_db).2.

Lemma assign_idempotent_witness :
  ∃ th d2, jd_thread_id d2 = Some th ∧
           assign registry first_dm 500 None (Some true) true assigned_db = (Ok d2, assigned_db).
Proof.
  destruct (by_id ev_event_id (ce_event_id first_dm) (events dm_db)) as [row|] eqn:Erow.
  2:{ exfalso. by vm_compute in Erow. }
  destruct (assign registry first_dm 110 None None true dm_db) as [r s'] eqn:Ea.
  assert (assigned_db = s') as -> by (unfold assigned_db; by rewrite Ea).
  destruct r as [d|err]; [|exfalso; by vm_compute in Ea].
  destruct (jd_thread_id d) as [th|] eqn:Eth.
  2:{ exfalso. vm_compute in Ea. injection Ea as <- _. by vm_compute in Eth. }
  destruct (assign_idempotent registry first_dm 110 500 None None None (Some true) dm_db row d s' th)
    as (turn & d2 & _ & H2 & H3 & _); [done| |done|done|].
  - apply (bool_decide_unpack _). by vm_compute.
  - by exists th, d2.
Defined.

(** A quote of the first message after the reset. *)
Definition quoting : JoinInput :=
  MkJoinInput "ev2" "whatsapp" "c" "u" "what about this" "message" false false false (Some "m1") None
    false (BreakBool false) (Some 900) (Some "m2") None.

Lemma reset_sticks_witness :
  jd_thread_id (decide_join quoting (view_for registry quoting 950
                  (close_chat_threads "whatsapp" "c" 800 assigned_db).2)) = None.
Proof.
  apply (reset_sticks registry "whatsapp" "c" 800 assigned_db quoting 950
           (thread_id_for "whatsapp" "c" "ev1")).
  - apply (bool_decide_unpack _). by vm_compute.
  - by vm_compute.
  - by vm_compute.
Defined.

(** The sender's next message right after the first one. *)
Definition next_dm : JoinInput :=
  MkJoinInput "ev3" "whatsapp" "c" "u" "and" "message" false false false None None false
    (BreakBool false) (Some 2000) (Some "m3") None.

Lemma followup_stays_local_witness :
  ∃ t, t ∈ threads assigned_db ∧ th_thread_id t = thread_id_for "whatsapp" "c" "ev1" ∧
       th_channel t = "whatsapp" ∧ th_chat_id t = "c".
Proof.
  destruct (followup_stays_local registry next_dm 2000 assigned_db (thread_id_for "whatsapp" "c" "ev1"))
    as (t & H1 & H2 & H3 & H4 & _); [by vm_compute|by vm_compute|by vm_compute|].
  by exists t.
Defined.

(** ** Observations *)

(** Unlike the follow-up rule, the rule for direct messages does not look at the channel: a
    message on one channel continues a thread of the same chat id on another. *)
Definition other_channel_dm : JoinInput :=
  MkJoinInput "ev4" "telegram" "c" "u" "hello" "message" false false false None None false
    (BreakBool false) (Some 2000) (Some "x1") None.

Lemma dm_crosses_channels :
  jd_thread_id (decide_join other_channel_dm (view_for registry other_channel_dm 2000 assigned_db))
    = Some (thread_id_for "whatsapp" "c" "ev1").
Proof. by vm_compute. Qed.
