(* ===== verification/Identity.v ===== *)
(** * Identity

    [policy/identity.py]: sender identities normalised for policy matching, their
    channel-aware aliases, sender lists with the [$owner] token, quota identities from
    trusted metadata, and rosters of group members. Frozen sets are finite sets. *)

From Stdlib Require Import ZArith Lia Ascii.
From S2P Require Import Prelude Tables Json Registry.

(** ** Strings *)

(** [s.split(c, 1)[1]], or nothing without the separator *)
Fixpoint after_char (n : nat) (s : string) : option string :=
  match s with
  | EmptyString => None
  | String c s' => if (nat_of_ascii c =? n)%nat then Some s' else after_char n s'
  end.

(** [s.split(c)] for a one-character separator; [word] is the part read so far *)
Fixpoint split_char (n : nat) (word s : string) : list string :=
  match s with
  | EmptyString => [word]
  | String c s' => if (nat_of_ascii c =? n)%nat then word :: split_char n "" s'
                   else split_char n (word +:+ String c "") s'
  end.

Fixpoint all_chars (p : ascii → bool) (s : string) : bool :=
  match s with EmptyString => true | String c s' => p c && all_chars p s' end.

Definition is_digit (c : ascii) : bool := (48 <=? nat_of_ascii c)%nat && (nat_of_ascii c <=? 57)%nat.

(** [s.isdigit()] (the ASCII part) *)
Definition py_isdigit (s : string) : bool := str_true s && all_chars is_digit s.

(** [s[1:] if s.startswith(c) else s] *)
Definition drop_prefix_char (n : nat) (s : string) : string :=
  match s with
  | String c s' => if (nat_of_ascii c =? n)%nat then s' else s
  | EmptyString => s
  end.

Definition starts_char (n : nat) (s : string) : bool :=
  match s with String c _ => (nat_of_ascii c =? n)%nat | EmptyString => false end.

(** [s.lstrip(c)] *)
Fixpoint lstrip_char (n : nat) (s : string) : string :=
  match s with
  | String c s' => if (nat_of_ascii c =? n)%nat then lstrip_char n s' else s
  | EmptyString => s
  end.

(** The separators: at sign, colon, plus, bar *)
Definition AT : nat := 64.
Definition COLON : nat := 58.
Definition PLUS : nat := 43.
Definition BAR : nat := 124.

(** ** Tokens and aliases *)

(** [normalize_identity_token] *)
Definition normalize_identity_token (value : string) : string :=
  let token := py_strip value in
  if negb (str_true token) then "" else py_lower (py_strip (drop_prefix_char AT token)).

(** [_expand_channel_aliases] *)
Definition expand_channel_aliases (channel token : string) : gset string :=
  if negb (str_true token) then ∅ else
  let telegram : gset string :=
    if (channel =?s "telegram") && negb (py_isdigit token) then {["@" +:+ token]} else ∅ in
  let whatsapp : gset string :=
    if channel =?s "whatsapp" then
      let user := before_char AT token in
      let left_base := before_char COLON user in
      {[left_base]} ∪
      match after_char AT token with
      | Some host => if str_true host then {[left_base +:+ "@" +:+ host]} else ∅
      | None => ∅
      end ∪
      (if starts_char PLUS left_base then {[drop_prefix_char PLUS left_base]}
       else if py_isdigit left_base then {["+" +:+ left_base]} else ∅)
    else ∅ in
  {[token]} ∪ telegram ∪ whatsapp.

(** One entry of a policy sender list. *)
Definition sender_entry (channel : string) (owners : option (gset string)) (value : string) : gset string :=
  match owners with
  | Some own => if py_lower (py_strip value) =?s "$owner" then own
                else expand_channel_aliases channel (normalize_identity_token value)
  | None => expand_channel_aliases channel (normalize_identity_token value)
  end.

(** [normalize_sender_list] *)
Definition normalize_sender_list (channel : string) (values : list string) (owners : option (gset string))
    : gset string :=
  ⋃ (sender_entry channel owners <$> values).

(** ** Actors *)

(** [ActorIdentity] *)
Record ActorIdentity := MkIdentity { ai_primary : string; ai_aliases : list string }.

(** [_split_sender_id] *)
Definition split_sender_id (sender_id : string) : list string :=
  List.filter str_true (map py_strip (split_char BAR "" sender_id)).

Definition IDENTITY_KEYS : list string := ["user_id"; "username"; "sender"; "pn"; "sender_id"].

(** The identities a payload names, in order. *)
Definition identity_candidates (sender_id : string) (meta : dict) : list string :=
  split_sender_id sender_id ++
  omap (λ key, match dict_get key meta with
               | Some v => if truthy v then Some (py_str v) else None
               | None => None
               end) IDENTITY_KEYS.

(** [sorted(_expand_channel_aliases(...))] *)
Definition sorted_aliases (channel candidate : string) : list string :=
  let token := normalize_identity_token candidate in
  if negb (str_true token) then []
  else order_by String.leb (elements (expand_channel_aliases channel token)).

(** Keep the first occurrence of each alias. *)
Fixpoint first_seen (seen : list string) (l : list string) : list string :=
  match l with
  | [] => []
  | x :: l' => if str_in x seen then first_seen seen l' else x :: first_seen (x :: seen) l'
  end.

(** [resolve_actor_identity] *)
Definition resolve_actor_identity (channel sender_id : string) (meta : dict) : ActorIdentity :=
  let aliases := first_seen [] (concat (map (sorted_aliases channel) (identity_candidates sender_id meta))) in
  MkIdentity (default "" (head aliases)) aliases.

(** [canonical_user_id]: only trusted bridge metadata names a person *)
Definition canonical_user_id (channel : string) (meta : dict) : string :=
  if negb (channel =?s "whatsapp") then "" else
  if existsb (λ key, opt_truthy (dict_get key meta)) ["lid_conflict"; "lidConflict"; "identity_conflict"]
  then "" else
  let raw := normalize_identity_token (str_or_empty (dict_get "sender_phone_jid" meta)) in
  if negb (str_true raw) then "" else
  let token := lstrip_char PLUS (before_char COLON (before_char AT raw)) in
  if py_isdigit token then "whatsapp:" +:+ token else "".

(** [_native_phone_principal] *)
Definition native_phone_principal (value : string) : option string :=
  let token := py_strip value in
  if negb (py_endswith "@s.whatsapp.net" token || py_endswith "@c.us" token) then None
  else let p := canonical_user_id "whatsapp" [("sender_phone_jid", JStr token)] in
       if str_true p then Some p else None.

(** ** Rosters *)

(** [str(item.get(key) or "").strip()], where it is not empty *)
Definition member_field (item : dict) (key : string) : option string :=
  let v := py_strip (str_or_empty (dict_get key item)) in if str_true v then Some v else None.

Definition NATIVE_KEYS : list string := ["id"; "jid"; "lid"; "user_id"].
Definition PHONE_KEYS : list string := ["phoneNumber"; "phoneJid"; "phone_jid"].

(** The native id, or the phone values, of a member whose phone proof does not hold. *)
Definition native_or_phones (native : option string) (phones : list string) : list string :=
  match native with Some n => [n] | None => phones end.

(** [_registry_member_values] of a string or a mapping *)
Definition registry_member_values (channel : string) (item : json) : list string :=
  match item with
  | JStr s => if str_true (py_strip s) then [py_strip s] else []
  | JObj d =>
      match member_field d "principal_id" with
      | Some p => [p]
      | None =>
      let natives := omap (member_field d) NATIVE_KEYS in
      match List.find (String.prefix (channel +:+ ":")) natives with
      | Some q => [q]
      | None =>
      let native := head natives in
      let phones := omap (member_field d) PHONE_KEYS in
      if (channel =?s "whatsapp") && negb (Nat.eqb (length phones) 0) then
        match mapM native_phone_principal phones with
        | Some (p :: ps) =>
            if forallb (str_eqb p) ps then
              match native ≫= native_phone_principal with
              | Some typed => if typed =?s p then [p] else native_or_phones native phones
              | None => [p]
              end
            else native_or_phones native phones
        | _ => native_or_phones native phones
        end
      else match native with Some n => [n] | None => [] end
      end
      end
  | _ => []
  end.

(** The members of a roster that is a list, a mapping around one, or one name. *)
Definition roster_items (raw : json) : list json :=
  match raw with
  | JArr l => l
  | JStr s => [JStr s]
  | JObj d =>
      let pick := λ key, match dict_get key d with
                         | Some (JArr l) => if truthy (JArr l) then Some l else None
                         | _ => None
                         end in
      match pick "participants" with
      | Some l => l
      | None => default [] (pick "members")
      end
  | _ => []
  end.

(** [registry_member_principals]: one unidentifiable member makes the roster unknown *)
Definition registry_member_principals (channel : string) (raw : json) : gset string :=
  let values := map (registry_member_values channel) (roster_items raw) in
  if existsb (λ v, Nat.eqb (length v) 0) values then ∅ else list_to_set (concat values).

(** ** Matching *)

(** [PolicyEngine._sender_match] *)
Definition sender_match (primary : string) (aliases : list string) (allowed : gset string) : bool :=
  existsb (λ a, let t := normalize_identity_token a in str_true t && bool_decide (t ∈ allowed))
    (primary :: aliases).

(** ** Facts about strings *)

Lemma str_app_cons c s t : String c s +:+ t = String c (s +:+ t).
Proof. done. Qed.

Lemma str_app_assoc (a b c : string) : (a +:+ b) +:+ c = a +:+ (b +:+ c).
Proof. induction a as [|x a IH]; [done|]. by rewrite !str_app_cons, IH. Qed.

Lemma str_app_nil_r (a : string) : a +:+ "" = a.
Proof. induction a as [|x a IH]; [done|]. by rewrite !str_app_cons, IH. Qed.

Lemma before_idem n s : before_char n (before_char n s) = before_char n s.
Proof. induction s as [|c s IH]; [done|]. cbn. destruct (_ =? n)%nat eqn:E; [done|]. cbn. by rewrite E, IH. Qed.

Lemma before_comm n m s : before_char n (before_char m s) = before_char m (before_char n s).
Proof.
  induction s as [|c s IH]; [done|]. cbn.
  destruct (nat_of_ascii c =? m)%nat eqn:Em, (nat_of_ascii c =? n)%nat eqn:En; cbn; rewrite ?Em, ?En; try done.
  by rewrite IH.
Qed.

(** A string without the separator in front of anything. *)
Lemma before_app n s t : before_char n s = s → before_char n (s +:+ t) = s +:+ before_char n t.
Proof.
  induction s as [|c s IH]; [done|]. rewrite !str_app_cons. cbn. destruct (_ =? n)%nat; [done|].
  intros [= Hs]. by rewrite IH.
Qed.

Lemma before_drop n m s : before_char n s = s → before_char n (drop_prefix_char m s) = drop_prefix_char m s.
Proof.
  destruct s as [|c s]; [done|]. cbn. destruct (nat_of_ascii c =? n)%nat eqn:E; [done|]. intros [= Hs].
  destruct (nat_of_ascii c =? m)%nat; [done|]. cbn. by rewrite E, Hs.
Qed.

Lemma lstrip_drop n s : lstrip_char n (drop_prefix_char n s) = lstrip_char n s.
Proof. destruct s as [|c s]; [done|]. cbn. destruct (_ =? n)%nat eqn:E; [done|]. cbn. by rewrite E. Qed.

Lemma all_chars_app p s t : all_chars p (s +:+ t) = all_chars p s && all_chars p t.
Proof. induction s as [|c s IH]; [done|]. rewrite str_app_cons. cbn. by rewrite IH, andb_assoc. Qed.

Lemma all_chars_before p n s : all_chars p s = true → all_chars p (before_char n s) = true.
Proof.
  induction s as [|c s IH]; [done|]. cbn. intros [Hc Hs]%andb_true_iff. destruct (_ =? n)%nat; [done|].
  cbn. by rewrite Hc, IH.
Qed.

Lemma all_chars_after p n s t : after_char n s = Some t → all_chars p s = true → all_chars p t = true.
Proof.
  induction s as [|c s IH]; [done|]. cbn. destruct (_ =? n)%nat; [intros [= ->]|intros Ha];
    intros [_ Hs]%andb_true_iff; auto.
Qed.

Lemma all_chars_drop p n s : all_chars p s = true → all_chars p (drop_prefix_char n s) = true.
Proof. destruct s as [|c s]; [done|]. cbn. destruct (_ =? n)%nat; [|done]. by intros [_ ?]%andb_true_iff. Qed.

Lemma all_chars_impl (p q : ascii → bool) s :
  (∀ c, p c = true → q c = true) → all_chars p s = true → all_chars q s = true.
Proof.
  intros Hpq. induction s as [|c s IH]; [done|]. cbn. intros [Hc Hs]%andb_true_iff. by rewrite (Hpq c Hc), IH.
Qed.

Lemma before_none p n s :
  (∀ c, p c = true → (nat_of_ascii c =? n)%nat = false) → all_chars p s = true → before_char n s = s.
Proof.
  intros Hp. induction s as [|c s IH]; [done|]. cbn. intros [Hc Hs]%andb_true_iff. by rewrite (Hp c Hc), IH.
Qed.

(** Neither white space nor an upper-case letter. *)
Definition plain_char (c : ascii) : bool := negb (is_space c) && Ascii.eqb (lower_char c) c.

Lemma strip_plain s : all_chars plain_char s = true → py_strip s = s.
Proof.
  intros Hs. unfold py_strip.
  assert (lstrip s = s) as ->.
  { destruct s as [|c s]; [done|]. cbn in *. apply andb_true_iff in Hs as [[Hc _]%andb_true_iff _].
    apply negb_true_iff in Hc. by rewrite Hc. }
  induction s as [|c s IH]; [done|]. cbn in *. apply andb_true_iff in Hs as [[Hc _]%andb_true_iff Hs].
  rewrite (IH Hs). apply negb_true_iff in Hc. destruct s; [by rewrite Hc|done].
Qed.

Lemma lower_plain s : all_chars plain_char s = true → py_lower s = s.
Proof.
  induction s as [|c s IH]; [done|]. cbn. intros [[_ Hc]%andb_true_iff Hs]%andb_true_iff.
  apply Ascii.eqb_eq in Hc. by rewrite Hc, IH.
Qed.

Lemma normalize_plain s :
  all_chars plain_char s = true → starts_char AT s = false → normalize_identity_token s = s.
Proof.
  intros Hs Ha. unfold normalize_identity_token. rewrite strip_plain by done.
  destruct (str_true s) eqn:E; cbn [negb]; [|unfold str_true in E; apply negb_false_iff, str_eqb_eq in E; by subst].
  assert (drop_prefix_char AT s = s) as -> by (destruct s as [|c s]; [done|]; cbn in *; by rewrite Ha).
  by rewrite strip_plain, lower_plain.
Qed.

(** ** The number behind an identity *)

Definition phone_base (token : string) : string :=
  lstrip_char PLUS (before_char COLON (before_char AT token)).

(** Every alias of a token stands for the same number. *)
Lemma alias_base t a : a ∈ expand_channel_aliases "whatsapp" t → phone_base a = phone_base t.
Proof.
  unfold expand_channel_aliases. destruct (negb (str_true t)); [set_solver|].
  change ("whatsapp" =?s "telegram") with false. change ("whatsapp" =?s "whatsapp") with true. cbn [andb].
  set (b := before_char COLON (before_char AT t)).
  assert (before_char AT b = b) as Hat by (unfold b; by rewrite before_comm, before_idem).
  assert (before_char COLON b = b) as Hco by (unfold b; by rewrite before_idem).
  assert (phone_base t = lstrip_char PLUS b) as -> by done.
  assert (∀ x, before_char AT x = b → phone_base x = lstrip_char PLUS b) as Hb
    by (intros x Hx; unfold phone_base; by rewrite Hx, Hco).
  intros Ha. rewrite !elem_of_union in Ha. destruct Ha as [[Ha|Ha]|[[Ha|Ha]|Ha]].
  - apply elem_of_singleton in Ha as ->. done.
  - set_solver.
  - apply elem_of_singleton in Ha as ->. by apply Hb.
  - destruct (after_char AT t) as [host|]; [|set_solver]. destruct (str_true host); [|set_solver].
    apply elem_of_singleton in Ha as ->. apply Hb. rewrite before_app by done.
    change ("@" +:+ host) with (String "@" host). cbn. by rewrite str_app_nil_r.
  - destruct (starts_char PLUS b).
    + apply elem_of_singleton in Ha as ->. unfold phone_base.
      rewrite (before_drop AT), (before_drop COLON) by done. apply lstrip_drop.
    + destruct (py_isdigit b); [|set_solver]. apply elem_of_singleton in Ha as ->. unfold phone_base.
      change ("+" +:+ b) with (String "+" b).
      change (before_char AT (String "+" b)) with (String "+" (before_char AT b)). rewrite Hat.
      change (before_char COLON (String "+" b)) with (String "+" (before_char COLON b)). by rewrite Hco.
Qed.

(** ** Forms of one number *)

Definition WHATSAPP_HOSTS : list string := ["s.whatsapp.net"; "c.us"; "lid"].

(** How one number is written: bare, with a plus, as a JID, as a JID of a device. *)
Inductive phone_form (d : string) : string → Prop :=
| form_bare : phone_form d d
| form_plus : phone_form d ("+" +:+ d)
| form_jid host : host ∈ WHATSAPP_HOSTS → phone_form d (d +:+ "@" +:+ host)
| form_device dev host :
    py_isdigit dev = true → host ∈ WHATSAPP_HOSTS → phone_form d (d +:+ ":" +:+ dev +:+ "@" +:+ host).

Lemma digit_other n c : is_digit c = true → (n < 48 ∨ 57 < n)%nat → (nat_of_ascii c =? n)%nat = false.
Proof. unfold is_digit. intros Hc Hn. apply andb_true_iff in Hc as [H1%Nat.leb_le H2%Nat.leb_le]. apply Nat.eqb_neq. lia. Qed.

Lemma digit_plain c : is_digit c = true → plain_char c = true.
Proof. destruct c as [[] [] [] [] [] [] [] []]; by vm_compute. Qed.

Lemma digits_inv d : py_isdigit d = true → d ≠ "" ∧ all_chars is_digit d = true.
Proof. intros [?%str_true_spec ?]%andb_true_iff. done. Qed.

Lemma digits_before n d : py_isdigit d = true → (n < 48 ∨ 57 < n)%nat → before_char n d = d.
Proof. intros [_ Hd]%digits_inv Hn. apply (before_none is_digit); [|done]. intros c Hc. by apply digit_other. Qed.

Lemma digits_plain d : py_isdigit d = true → all_chars plain_char d = true.
Proof. intros [_ Hd]%digits_inv. by eapply all_chars_impl, Hd; apply digit_plain. Qed.

Lemma host_plain host : host ∈ WHATSAPP_HOSTS → all_chars plain_char host = true.
Proof. intros Hh%list_elem_of_In. destruct Hh as [<-|[<-|[<-|[]]]]; by vm_compute. Qed.

Section Forms.
  Context (d : string) (Hd : py_isdigit d = true).

Lemma form_plain f : phone_form d f → all_chars plain_char f = true.
Proof using Hd.
  intros [| |host Hh|dev host Hdev Hh].
  - by apply digits_plain.
  - by rewrite all_chars_app, (digits_plain d).
  - by rewrite !all_chars_app, (digits_plain d), (host_plain host).
  - by rewrite !all_chars_app, (digits_plain d), (digits_plain dev), (host_plain host).
Qed.

Lemma digits_lstrip : lstrip_char PLUS d = d.
Proof using Hd.
  destruct (digits_inv d Hd) as [_ Ha]. destruct d as [|c s]; [done|]. cbn in *.
  apply andb_true_iff in Ha as [Hc _]. rewrite digit_other; [done|done|unfold PLUS; lia].
Qed.

Lemma form_base f : phone_form d f → phone_base f = d.
Proof using Hd.
  assert (before_char AT d = d) as Ha by (apply digits_before; [done|unfold AT; lia]).
  assert (before_char COLON d = d) as Hc by (apply digits_before; [done|unfold COLON; lia]).
  intros [| |host Hh|dev host Hdev Hh]; unfold phone_base.
  - by rewrite Ha, Hc, digits_lstrip.
  - change ("+" +:+ d) with (String "+" d).
    change (before_char AT (String "+" d)) with (String "+" (before_char AT d)). rewrite Ha.
    change (before_char COLON (String "+" d)) with (String "+" (before_char COLON d)). rewrite Hc.
    apply digits_lstrip.
  - rewrite before_app by done. change ("@" +:+ host) with (String "@" host). cbn. rewrite str_app_nil_r.
    by rewrite Hc, digits_lstrip.
  - rewrite before_app by done. change (":" +:+ dev +:+ "@" +:+ host) with (String ":" (dev +:+ "@" +:+ host)).
    change (before_char AT (String ":" (dev +:+ "@" +:+ host))) with (String ":" (before_char AT (dev +:+ "@" +:+ host))).
    rewrite before_app by done. cbn. by rewrite str_app_nil_r, digits_lstrip.
Qed.

Lemma form_nonempty f : phone_form d f → str_true f = true.
Proof using Hd.
  intros Hf. apply str_true_spec. intros ->. apply form_base in Hf. destruct (digits_inv d Hd). by subst.
Qed.

Lemma based_no_at a : phone_base a = d → starts_char AT a = false.
Proof using Hd.
  intros Ha. destruct a as [|c a]; [done|]. cbn. destruct (nat_of_ascii c =? AT)%nat eqn:E; [|done].
  unfold phone_base in Ha. cbn in Ha. rewrite E in Ha. destruct (digits_inv d Hd). by subst.
Qed.

Lemma form_normal f : phone_form d f → normalize_identity_token f = f.
Proof using Hd. intros Hf. apply normalize_plain; [by apply form_plain|by apply based_no_at, form_base]. Qed.

(** The aliases of a form are plain, and normalising leaves them alone. *)
Lemma alias_normal f a :
  phone_form d f → a ∈ expand_channel_aliases "whatsapp" f → normalize_identity_token a = a ∧ phone_base a = d.
Proof using Hd.
  intros Hf Ha. pose proof (alias_base _ _ Ha) as Hb. rewrite (form_base f Hf) in Hb. split; [|done].
  apply normalize_plain; [|by apply based_no_at]. pose proof (form_plain f Hf) as Hp. revert Ha.
  unfold expand_channel_aliases. destruct (negb (str_true f)); [set_solver|]. intros Ha.
  change ("whatsapp" =?s "telegram") with false in Ha. change ("whatsapp" =?s "whatsapp") with true in Ha.
  cbn [andb] in Ha. set (b := before_char COLON (before_char AT f)) in Ha.
  assert (all_chars plain_char b = true) as Hpb by by apply all_chars_before, all_chars_before.
  rewrite !elem_of_union in Ha. destruct Ha as [[Ha|Ha]|[[Ha|Ha]|Ha]].
  - by apply elem_of_singleton in Ha as ->.
  - set_solver.
  - by apply elem_of_singleton in Ha as ->.
  - destruct (after_char AT f) as [host|] eqn:Eh; [|set_solver]. destruct (str_true host); [|set_solver].
    apply elem_of_singleton in Ha as ->. rewrite !all_chars_app, Hpb. cbn. by eapply all_chars_after.
  - destruct (starts_char PLUS b).
    + apply elem_of_singleton in Ha as ->. by apply all_chars_drop.
    + destruct (py_isdigit b); [|set_solver]. apply elem_of_singleton in Ha as ->. by rewrite all_chars_app, Hpb.
Qed.

(** The bare number is an alias of every form. *)
Lemma form_has_number f : phone_form d f → d ∈ expand_channel_aliases "whatsapp" f.
Proof using Hd.
  intros Hf. pose proof (form_nonempty f Hf) as Hn. unfold expand_channel_aliases. rewrite Hn. cbn [negb].
  change ("whatsapp" =?s "telegram") with false. change ("whatsapp" =?s "whatsapp") with true. cbn [andb].
  destruct Hf as [| |host Hh|dev host Hdev Hh]; [set_solver|..].
  all: assert (before_char AT d = d) as Ha by (apply digits_before; [done|unfold AT; lia]).
  all: assert (before_char COLON d = d) as Hc by (apply digits_before; [done|unfold COLON; lia]).
  - change ("+" +:+ d) with (String "+" d).
    change (before_char AT (String "+" d)) with (String "+" (before_char AT d)). rewrite Ha.
    change (before_char COLON (String "+" d)) with (String "+" (before_char COLON d)). rewrite Hc.
    change (starts_char PLUS (String "+" d)) with true. change (drop_prefix_char PLUS (String "+" d)) with d. set_solver.
  - rewrite before_app by done. change (before_char AT ("@" +:+ host)) with "". rewrite str_app_nil_r, Hc. set_solver.
  - assert (before_char COLON (before_char AT (d +:+ ":" +:+ dev +:+ "@" +:+ host)) = d) as ->; [|set_solver].
    rewrite before_app by done. change (":" +:+ dev +:+ "@" +:+ host) with (String ":" (dev +:+ "@" +:+ host)).
    change (before_char AT (String ":" (dev +:+ "@" +:+ host))) with (String ":" (before_char AT (dev +:+ "@" +:+ host))).
    rewrite before_app by done. cbn. by rewrite str_app_nil_r.
Qed.

End Forms.

(** ** Resolving *)

Lemma elem_of_first_seen x seen l : x ∈ first_seen seen l ↔ x ∈ l ∧ x ∉ seen.
Proof.
  revert seen. induction l as [|y l IH]; intros seen; cbn [first_seen]; [set_solver|].
  destruct (str_in y seen) eqn:E.
  - apply str_in_spec in E. rewrite IH. set_solver.
  - apply not_true_iff_false in E. rewrite str_in_spec in E. rewrite !elem_of_cons, IH.
    destruct (decide (x = y)); set_solver.
Qed.

Lemma split_char_one n w s :
  before_char n s = s → split_char n w s = [w +:+ s].
Proof.
  revert w. induction s as [|c s IH]; intros w; cbn; [by rewrite str_app_nil_r|].
  destruct (_ =? n)%nat; [done|]. intros [= Hs]. rewrite IH by done. by rewrite str_app_assoc.
Qed.

Lemma resolve_single channel f :
  before_char BAR f = f → py_strip f = f → str_true f = true → normalize_identity_token f = f →
  ∀ a, a ∈ ai_aliases (resolve_actor_identity channel f []) ↔ a ∈ expand_channel_aliases channel f.
Proof.
  intros Hb Hs Ht Hn a. unfold resolve_actor_identity, identity_candidates, split_sender_id. cbn [ai_aliases].
  rewrite split_char_one by done. change ("" +:+ f) with f. cbn [map]. rewrite Hs. cbn [List.filter]. rewrite Ht.
  cbn. rewrite app_nil_r, elem_of_first_seen. unfold sorted_aliases. rewrite Hn, Ht. cbn [negb].
  rewrite order_by_perm, elem_of_elements. set_solver.
Qed.

Lemma form_no_bar d f : py_isdigit d = true → phone_form d f → before_char BAR f = f.
Proof.
  assert (∀ s, py_isdigit s = true → before_char BAR s = s) as Hdig
    by (intros s Hs; apply digits_before; [done|unfold BAR; lia]).
  assert (∀ host, host ∈ WHATSAPP_HOSTS → before_char BAR host = host) as Hhost
    by (intros host Hh%list_elem_of_In; destruct Hh as [<-|[<-|[<-|[]]]]; by vm_compute).
  intros Hd [| |host Hh|dev host Hdev Hh].
  - by apply Hdig.
  - rewrite before_app by done. by rewrite Hdig.
  - rewrite before_app by (by apply Hdig). rewrite before_app by done. by rewrite Hhost.
  - rewrite before_app by (by apply Hdig). rewrite before_app by done. rewrite before_app by (by apply Hdig).
    rewrite before_app by done. by rewrite Hhost.
Qed.

(** Matching WhatsApp senders is matching numbers. However a sender's number and an entry
    of a policy list are written (bare, with a plus, as a JID with or without a device),
    the sender matches the entry exactly when the two numbers are the same. *)
Theorem whatsapp_match_exact d1 d2 f1 f2 owners :
  py_isdigit d1 = true → py_isdigit d2 = true → phone_form d1 f1 → phone_form d2 f2 →
  let who := resolve_actor_identity "whatsapp" f1 [] in
  sender_match (ai_primary who) (ai_aliases who) (normalize_sender_list "whatsapp" [f2] owners) = true ↔ d1 = d2.
Proof.
  intros H1 H2 Hf1 Hf2. cbv zeta. set (who := resolve_actor_identity "whatsapp" f1 []).
  pose proof (form_normal d1 H1 f1 Hf1) as N1. pose proof (form_normal d2 H2 f2 Hf2) as N2.
  pose proof (form_plain d1 H1 f1 Hf1) as P1. pose proof (form_plain d2 H2 f2 Hf2) as P2.
  assert (normalize_sender_list "whatsapp" [f2] owners = expand_channel_aliases "whatsapp" f2) as ->.
  { unfold normalize_sender_list, sender_entry. cbn. rewrite union_empty_r_L, N2. destruct owners as [own|]; [|done].
    destruct (_ =?s "$owner") eqn:E; [|done]. apply str_eqb_eq in E. rewrite strip_plain, lower_plain in E by done.
    apply (form_base d2 H2) in Hf2. rewrite E in Hf2. vm_compute in Hf2. by subst. }
  assert (∀ a, a ∈ ai_aliases who ↔ a ∈ expand_channel_aliases "whatsapp" f1) as Hwho.
  { apply resolve_single; [by apply (form_no_bar d1)|by apply strip_plain|by apply (form_nonempty d1 H1)|done]. }
  unfold sender_match. rewrite existsb_exists. setoid_rewrite <- list_elem_of_In. split.
  - intros (a & Ha & [Ht Hin%bool_decide_eq_true]%andb_true_iff).
    assert (a ∈ ai_aliases who) as Hal.
    { apply elem_of_cons in Ha as [->|Ha]; [|done]. unfold who, resolve_actor_identity in Ht |- *.
      cbn [ai_primary ai_aliases] in *. destruct (first_seen _ _) as [|x l]; [by vm_compute in Ht|]. cbn. set_solver. }
    apply Hwho in Hal. destruct (alias_normal d1 H1 f1 a Hf1 Hal) as [Hna Hba]. rewrite Hna in Hin.
    destruct (alias_normal d2 H2 f2 a Hf2 Hin) as [_ Hba2]. congruence.
  - intros <-. exists d1. pose proof (form_has_number d1 H1 f1 Hf1) as Hd. split.
    + apply elem_of_cons. right. by apply Hwho.
    + destruct (alias_normal d1 H1 f1 d1 Hf1 Hd) as [-> _]. destruct (digits_inv d1 H1) as [Hne _].
      apply andb_true_iff. split; [by apply str_true_spec|]. apply bool_decide_eq_true. by apply (form_has_number d1 H1).
Qed.

(** A roster with one member that cannot be identified proves nothing, and a complete one
    lists only identified members. *)
Theorem roster_complete_or_unknown channel raw :
  (∃ item, item ∈ roster_items raw ∧ registry_member_values channel item = []) →
  registry_member_principals channel raw = ∅.
Proof.
  intros (item & Hin & Hv). unfold registry_member_principals.
  destruct (existsb _ _) eqn:E; [done|]. exfalso.
  apply not_true_iff_false in E. apply E, existsb_exists. exists (registry_member_values channel item).
  split; [apply in_map; by apply list_elem_of_In|]. by rewrite Hv.
Qed.

(** ** Witnesses *)

Lemma device_form : phone_form "491" "491:7@s.whatsapp.net".
Proof. exact (form_device "491" "7" "s.whatsapp.net" eq_refl (list_elem_of_here _ _)). Qed.

Lemma whatsapp_match_exact_witness :
  let who := resolve_actor_identity "whatsapp" "491:7@s.whatsapp.net" [] in
  (sender_match (ai_primary who) (ai_aliases who) (normalize_sender_list "whatsapp" ["+491"] None) = true
     ↔ "491" = "491") ∧
  (sender_match (ai_primary who) (ai_aliases who) (normalize_sender_list "whatsapp" ["+49"] None) = true
     ↔ "491" = "49").
Proof.
  split.
  - exact (whatsapp_match_exact "491" "491" _ _ None eq_refl eq_refl device_form (form_plus "491")).
  - exact (whatsapp_match_exact "491" "49" _ _ None eq_refl eq_refl device_form (form_plus "49")).
Defined.
