(* ===== verification/PolicyEngine.v ===== *)
(** * PolicyEngine

    [policy/engine.py]: the layered chat policies of [policy/schema.py] (defaults, channel
    default, chat override), their compilation, the cached resolution, and the evaluation
    of an actor: blocked senders, who may talk, when to reply, which tools. Also the
    participation settings with their origins and the activation snapshot.

    A [ChatPolicy] holds the settings that evaluation reads; the ones that are only carried
    through to other components (voice output, cooldowns, reply budget, spontaneity, trends,
    persona and model names besides the persona file) are left out. *)

From Stdlib Require Import ZArith Lia Ascii.
From S2P Require Import Prelude Tables Json Registry Identity.

(** ** Merging layers *)

(** [_deep_merge]: lists and scalars of the override win, mappings merge *)
Fixpoint deep_merge_fuel (fuel : nat) (base override : dict) : dict :=
  foldl (λ merged '(key, v),
    match fuel, v, dict_get key merged with
    | S fuel', JObj o, Some (JObj b) => dict_set key (JObj (deep_merge_fuel fuel' b o)) merged
    | _, _, _ => dict_set key v merged
    end) base override.

(** Nesting depth of a value; one more than the depth is enough fuel. *)
Fixpoint json_depth (v : json) : nat :=
  match v with
  | JObj d => S (foldr (λ p n, Nat.max (json_depth p.2) n) 0%nat d)
  | _ => 0%nat
  end.

Definition deep_merge (base override : dict) : dict :=
  deep_merge_fuel (json_depth (JObj override)) base override.

(** A field of an override: absent fields inherit. *)
Definition over {A} (o : option A) (base : A) : A := default base o.

(** ** Policies *)

(** A mode with its senders: [WhoCanTalkPolicy], [WhenToReplyPolicy], [ToolAccessRule] *)
Record sender_rule := MkRule { rule_mode : string; rule_senders : list string }.
Record sender_rule_override := MkRuleOverride { ro_mode : option string; ro_senders : option (list string) }.

(** [AllowedToolsPolicy] *)
Record tools_policy := MkTools { at_mode : string; at_tools : list string; at_deny : list string }.
Record tools_override := MkToolsOverride {
  to_mode : option string; to_tools : option (list string); to_deny : option (list string);
}.

(** [ChatPolicy] *)
Record ChatPolicy := MkChatPolicy {
  cp_who_can_talk : sender_rule;
  cp_when_to_reply : sender_rule;
  cp_blocked_senders : list string;
  cp_allowed_tools : tools_policy;
  cp_tool_access : list (string * sender_rule);
  cp_persona_file : option string;
  cp_wake_phrases : list string;
  cp_memes : bool;
  cp_polls : bool;
  cp_group_reminders : bool;
  cp_decisions : bool;
  cp_reception_metrics : bool;
  cp_reception_tuning : bool;
  cp_participation : dict;
}.

(** [ChatPolicyOverride] *)
Record ChatPolicyOverride := MkChatOverride {
  co_who_can_talk : option sender_rule_override;
  co_when_to_reply : option sender_rule_override;
  co_blocked_senders : option (option (list string));
  co_allowed_tools : option tools_override;
  co_tool_access : option (list (string * sender_rule_override));
  co_persona_file : option string;
  co_wake_phrases : option (list string);
  co_memes : option bool;
  co_polls : option bool;
  co_group_reminders : option bool;
  co_decisions : option bool;
  co_reception_metrics : option bool;
  co_reception_tuning : option bool;
  co_participation : option dict;
}.

Definition no_override : ChatPolicyOverride :=
  MkChatOverride None None None None None None None None None None None None None None.

Definition merge_rule (base : sender_rule) (o : option sender_rule_override) : sender_rule :=
  match o with
  | None => base
  | Some r => MkRule (over (ro_mode r) (rule_mode base)) (over (ro_senders r) (rule_senders base))
  end.

Definition merge_tools (base : tools_policy) (o : option tools_override) : tools_policy :=
  match o with
  | None => base
  | Some t => MkTools (over (to_mode t) (at_mode base)) (over (to_tools t) (at_tools base))
                (over (to_deny t) (at_deny base))
  end.

(** What a new tool rule starts from: the defaults of [ToolAccessRule]. *)
Definition default_rule : sender_rule := MkRule "everyone" [].

Definition rule_of (tool : string) (l : list (string * sender_rule)) : option sender_rule :=
  snd <$> List.find (λ p, p.1 =?s tool) l.

(** One tool of a [toolAccess] override. *)
Definition merge_access_entry (l : list (string * sender_rule)) (entry : string * sender_rule_override)
    : list (string * sender_rule) :=
  let (tool, o) := entry in
  if row_exists (has_id fst tool) l
  then update (has_id fst tool) (λ p, (p.1, merge_rule p.2 (Some o))) l
  else l ++ [(tool, merge_rule default_rule (Some o))].

Definition merge_access (base : list (string * sender_rule)) (o : option (list (string * sender_rule_override)))
    : list (string * sender_rule) :=
  foldl merge_access_entry base (default [] o).

(** [_deep_merge] of the dumped layers, validated again *)
Definition apply_override (p : ChatPolicy) (o : ChatPolicyOverride) : ChatPolicy :=
  {| cp_who_can_talk := merge_rule (cp_who_can_talk p) (co_who_can_talk o);
     cp_when_to_reply := merge_rule (cp_when_to_reply p) (co_when_to_reply o);
     cp_blocked_senders := over (default None (co_blocked_senders o)) (cp_blocked_senders p);
     cp_allowed_tools := merge_tools (cp_allowed_tools p) (co_allowed_tools o);
     cp_tool_access := merge_access (cp_tool_access p) (co_tool_access o);
     cp_persona_file := match co_persona_file o with Some f => Some f | None => cp_persona_file p end;
     cp_wake_phrases := over (co_wake_phrases o) (cp_wake_phrases p);
     cp_memes := over (co_memes o) (cp_memes p);
     cp_polls := over (co_polls o) (cp_polls p);
     cp_group_reminders := over (co_group_reminders o) (cp_group_reminders p);
     cp_decisions := over (co_decisions o) (cp_decisions p);
     cp_reception_metrics := over (co_reception_metrics o) (cp_reception_metrics p);
     cp_reception_tuning := over (co_reception_tuning o) (cp_reception_tuning p);
     cp_participation := foldl (λ d '(k, v), dict_set k v d) (cp_participation p) (default [] (co_participation o)) |}.

Record ChannelPolicy := MkChannelPolicy {
  ch_default : ChatPolicyOverride;
  ch_chats : gmap string ChatPolicyOverride;
}.

(** [DEFAULT_OWNER_TOOLS] *)
Definition DEFAULT_OWNER_TOOLS : list string :=
  ["web_search"; "web_fetch"; "web_map"; "web_crawl"; "deep_research"; "youtube_transcript";
   "video_understand"; "browse"].

(** [PolicyConfig] *)
Record PolicyConfig := MkPolicyConfig {
  pol_owners : gmap string (list string);
  pol_defaults : ChatPolicy;
  pol_owner_tools : list string;
  pol_channels : gmap string ChannelPolicy;
}.

(** ** Compilation *)

(** [_CompiledPolicy] *)
Record CompiledPolicy := MkCompiled {
  cm_who_can_talk_mode : string;
  cm_who_can_talk_senders : gset string;
  cm_when_to_reply_mode : string;
  cm_when_to_reply_senders : gset string;
  cm_blocked_senders : gset string;
  cm_allowed_tools_mode : string;
  cm_allowed_tools : gset string;
  cm_denied_tools : gset string;
  cm_tool_access : gmap string (string * gset string);
  cm_persona_file : option string;
  cm_wake_phrases : list string;
  cm_memes : bool;
  cm_polls : bool;
  cm_group_reminders : bool;
  cm_decisions : bool;
  cm_reception_metrics : bool;
  cm_reception_tuning : bool;
}.

(** [_normalize_tool_names] *)
Definition normalize_tool_names (values : list string) : gset string :=
  list_to_set (List.filter str_true (map py_strip values)).

(** The characters of a string held as UTF-8. *)
Fixpoint utf8_chars (s : string) : list string :=
  match s with
  | EmptyString => []
  | String c s' =>
      match utf8_chars s' with
      | String b t :: l =>
          let n := nat_of_ascii b in
          if (128 <=? n)%nat && (n <? 192)%nat then String c (String b t) :: l
          else String c "" :: String b t :: l
      | l => String c "" :: l
      end
  end.

Section Wake.
  (** [str.isalnum] of one character *)
  Context (is_alnum : string → bool).

(** [_normalize_wake_text] *)
Definition normalize_wake_text (value : string) : string :=
  join " " (split_words "" (String.concat ""
    (map (λ ch, if is_alnum ch then ch else " ") (utf8_chars (py_lower value))))).

(** [_normalize_wake_phrases] *)
Definition normalize_wake_phrases (values : list string) : list string :=
  List.filter str_true (map normalize_wake_text values).

(** [_wake_phrase_match] *)
Definition wake_phrase_match (content : string) (phrases : list string) : bool :=
  let normalized := normalize_wake_text content in
  if negb (str_true normalized) then false
  else existsb (λ phrase, py_contains (" " +:+ phrase +:+ " ") (" " +:+ normalized +:+ " ")) phrases.

(** [_compile_chat_policy] *)
Definition compile_chat_policy (channel : string) (p : ChatPolicy) (owners : gset string) : CompiledPolicy :=
  let senders := λ l, normalize_sender_list channel l (Some owners) in
  {| cm_who_can_talk_mode := rule_mode (cp_who_can_talk p);
     cm_who_can_talk_senders := senders (rule_senders (cp_who_can_talk p));
     cm_when_to_reply_mode := rule_mode (cp_when_to_reply p);
     cm_when_to_reply_senders := senders (rule_senders (cp_when_to_reply p));
     cm_blocked_senders := senders (cp_blocked_senders p);
     cm_allowed_tools_mode := at_mode (cp_allowed_tools p);
     cm_allowed_tools := normalize_tool_names (at_tools (cp_allowed_tools p));
     cm_denied_tools := normalize_tool_names (at_deny (cp_allowed_tools p));
     cm_tool_access :=
       foldl (λ m '(tool, r),
         if str_true (py_strip tool) then <[py_strip tool := (rule_mode r, senders (rule_senders r))]> m else m)
         ∅ (cp_tool_access p);
     cm_persona_file := cp_persona_file p;
     cm_wake_phrases := normalize_wake_phrases (cp_wake_phrases p);
     cm_memes := cp_memes p;
     cm_polls := cp_polls p;
     cm_group_reminders := cp_group_reminders p;
     cm_decisions := cp_decisions p;
     cm_reception_metrics := cp_reception_metrics p;
     cm_reception_tuning := cp_reception_tuning p |}.

(** [PolicyEngine] *)
Record PolicyEngine := MkEngine {
  pe_policy : PolicyConfig;
  pe_apply_channels : gset string;
  pe_owner_index : gmap string (gset string);
  pe_channel_defaults : gmap string CompiledPolicy;
  pe_chat_rules : gmap string (gmap string CompiledPolicy);
}.

(** The defaults with the override of the channel. *)
Definition channel_layer (p : PolicyConfig) (channel : string) : ChatPolicy :=
  match pol_channels p !! channel with
  | Some cp => apply_override (pol_defaults p) (ch_default cp)
  | None => pol_defaults p
  end.

Definition owners_of (p : PolicyConfig) (channel : string) : gset string :=
  default ∅ ((λ owners, normalize_sender_list channel owners None) <$> pol_owners p !! channel).

(** [_compile] *)
Definition PolicyEngine_init (p : PolicyConfig) (apply_channels : option (gset string)) : PolicyEngine :=
  let apply := default {["telegram"; "whatsapp"]} apply_channels in
  let compiled := λ channel layer, compile_chat_policy channel layer (owners_of p channel) in
  {| pe_policy := p;
     pe_apply_channels := apply;
     pe_owner_index := map_imap (λ channel owners, Some (normalize_sender_list channel owners None)) (pol_owners p);
     pe_channel_defaults :=
       set_to_map (λ channel, (channel, compiled channel (channel_layer p channel)))
         (apply ∪ dom (pol_channels p));
     pe_chat_rules :=
       map_imap (λ channel cp,
         Some ((λ o, compiled channel (apply_override (channel_layer p channel) o)) <$> ch_chats cp))
         (pol_channels p) |}.

(** [ParticipationPolicy._validate_reserve] of a layer *)
Definition field_int (d : dict) (key : string) : Z :=
  match dict_get key d with Some (JInt z) => z | _ => 0 end.

Definition participation_valid (d : dict) : bool :=
  field_int d "continuation_judge_reserve" <=? field_int d "max_unaddressed_judge_calls_per_hour".

(** The constructor validates every layer it compiles. *)
Definition PolicyEngine_new (p : PolicyConfig) (apply_channels : option (gset string)) : result PolicyEngine :=
  let channels := elements (default {["telegram"; "whatsapp"]} apply_channels ∪ dom (pol_channels p)) in
  let layers := concat (map (λ channel,
    channel_layer p channel ::
    match pol_channels p !! channel with
    | Some cp => map (λ o, apply_override (channel_layer p channel) o.2) (map_to_list (ch_chats cp))
    | None => []
    end) channels) in
  if forallb (λ l, participation_valid (cp_participation l)) layers then Ok (PolicyEngine_init p apply_channels)
  else Raise (ValueError "participation.continuationJudgeReserve must not exceed maxUnaddressedJudgeCallsPerHour").

(** ** Resolution *)

(** The compiled policy of a chat, without the cache; an unknown channel is a [KeyError] *)
Definition lookup_policy (e : PolicyEngine) (channel chat_id : string) : result CompiledPolicy :=
  match pe_chat_rules e !! channel ≫= (.!! chat_id) with
  | Some c => Ok c
  | None => match pe_channel_defaults e !! channel with
            | Some c => Ok c
            | None => Raise (OtherError "KeyError" channel)
            end
  end.

(** [_resolved_cache] *)
Definition policy_cache : Type := gmap (string * string) CompiledPolicy.

(** [resolve_compiled_policy] *)
Definition resolve_compiled_policy (e : PolicyEngine) (channel chat_id : string)
    : prog policy_cache CompiledPolicy := λ cache,
  match cache !! (channel, chat_id) with
  | Some c => (Ok c, cache)
  | None =>
      match lookup_policy e channel chat_id with
      | Ok c => (Ok c, <[(channel, chat_id) := c]> cache)
      | Raise err => (Raise err, cache)
      end
  end.

(** [reception_enabled], [reception_tuning_enabled] *)
Definition reception_enabled (e : PolicyEngine) (channel chat_id : string) : prog policy_cache bool :=
  let* c := resolve_compiled_policy e channel chat_id in pret (cm_reception_metrics c).
Definition reception_tuning_enabled (e : PolicyEngine) (channel chat_id : string) : prog policy_cache bool :=
  let* c := resolve_compiled_policy e channel chat_id in pret (cm_reception_metrics c && cm_reception_tuning c).

(** ** Evaluation *)

(** [ActorContext] *)
Record ActorContext := MkActor {
  ac_channel : string;
  ac_chat_id : string;
  ac_sender_primary : string;
  ac_sender_aliases : list string;
  ac_is_group : bool;
  ac_mentioned_bot : bool;
  ac_reply_to_bot : bool;
  ac_content : string;
  ac_is_voice : bool;
}.

(** [PolicyDecision] *)
Record PolicyDecision := MkPolicyDecision {
  pd_accept_message : bool;
  pd_should_respond : bool;
  pd_allowed_tools : gset string;
  pd_persona_file : option string;
  pd_reason : string;
}.

Definition actor_match (a : ActorContext) (allowed : gset string) : bool :=
  sender_match (ac_sender_primary a) (ac_sender_aliases a) allowed.

(** [_owner_match], [is_owner] *)
Definition owner_match (e : PolicyEngine) (a : ActorContext) : bool :=
  actor_match a (default ∅ (pe_owner_index e !! ac_channel a)).

(** [_evaluate_who_can_talk] *)
Definition evaluate_who_can_talk (e : PolicyEngine) (a : ActorContext) (p : CompiledPolicy) : bool * string :=
  let mode := cm_who_can_talk_mode p in
  if mode =?s "everyone" then (true, "who_can_talk:everyone")
  else if mode =?s "allowlist" then (actor_match a (cm_who_can_talk_senders p), "who_can_talk:allowlist")
  else if mode =?s "owner_only" then (owner_match e a, "who_can_talk:owner_only")
  else (false, "who_can_talk:unknown_mode:" +:+ mode).

(** No line break in the text. *)
Definition one_line (s : string) : bool := all_chars (λ c, negb (nat_of_ascii c =? 10)%nat) s.

(** [_FORWARD_COMMAND.fullmatch] of a stripped text: the command, alone or with one line of
    arguments *)
Definition is_forward_command (text : string) : bool :=
  let t := py_lower (drop_prefix_char 47 text) in
  String.prefix "forward" t &&
  (let rest := String.substring 7 (String.length t) t in
   (rest =?s "") ||
   (match rest with String c _ => is_space c | EmptyString => false end && one_line (lstrip rest))).

(** [_evaluate_when_to_reply] *)
Definition evaluate_when_to_reply (e : PolicyEngine) (a : ActorContext) (p : CompiledPolicy) : bool * string :=
  let mode := cm_when_to_reply_mode p in
  if mode =?s "all" then (true, "when_to_reply:all")
  else if mode =?s "off" then (false, "when_to_reply:off")
  else if mode =?s "mention_only" then
    if negb (ac_is_group a) then (true, "when_to_reply:mention_only_dm")
    else if is_forward_command (py_strip (ac_content a)) then (true, "when_to_reply:explicit_command")
    else if ac_mentioned_bot a || ac_reply_to_bot a then (true, "when_to_reply:mention_only_group")
    else if ac_is_voice a && wake_phrase_match (ac_content a) (cm_wake_phrases p)
    then (true, "when_to_reply:mention_only_group_voice_wake_phrase")
    else (false, "when_to_reply:mention_only_group")
  else if mode =?s "allowed_senders"
  then (actor_match a (cm_when_to_reply_senders p), "when_to_reply:allowed_senders")
  else if mode =?s "owner_only" then (owner_match e a, "when_to_reply:owner_only")
  else (false, "when_to_reply:unknown_mode:" +:+ mode).

(** [_is_tool_allowed_for_actor] *)
Definition is_tool_allowed_for_actor (e : PolicyEngine) (a : ActorContext) (p : CompiledPolicy) (tool : string)
    : bool :=
  match cm_tool_access p !! tool with
  | None => true
  | Some (mode, senders) =>
      if mode =?s "everyone" then true
      else if mode =?s "allowlist" then actor_match a senders
      else if mode =?s "owner_only" then owner_match e a
      else false
  end.

(** The tools a chat has to switch on, with its switch. *)
Definition tool_switches (p : CompiledPolicy) : list (string * bool) :=
  [("make_meme", cm_memes p); ("poll", cm_polls p); ("group_reminder", cm_group_reminders p);
   ("decisions", cm_decisions p)].

(** [_resolve_allowed_tools] *)
Definition resolve_allowed_tools (e : PolicyEngine) (a : ActorContext) (p : CompiledPolicy)
    (all_tools : gset string) : gset string :=
  let listed := if cm_allowed_tools_mode p =?s "all" then all_tools else cm_allowed_tools p in
  let allowed := (listed ∖ cm_denied_tools p) ∩ all_tools in
  let allowed := if decide ("exec" ∈ allowed) then allowed else allowed ∖ {["spawn"]} in
  let allowed := filter (λ tool, is_tool_allowed_for_actor e a p tool = true) allowed in
  let owner : gset string := list_to_set (pol_owner_tools (pe_policy e)) in
  let allowed := if owner_match e a then allowed ∪ (owner ∩ all_tools) else allowed in
  foldl (λ (acc : gset string) '(tool, on), if on : bool then acc else acc ∖ {[tool]}) allowed (tool_switches p).

(** The decision under a resolved policy. *)
Definition decide_under (e : PolicyEngine) (a : ActorContext) (all_tools : gset string) (p : CompiledPolicy)
    : PolicyDecision :=
  let refuse := λ accept reason, MkPolicyDecision accept false ∅ (cm_persona_file p) reason in
  if actor_match a (cm_blocked_senders p) then refuse false "blocked_sender" else
  let (accepted, accept_reason) := evaluate_who_can_talk e a p in
  if negb accepted then refuse false accept_reason else
  let (respond, reply_reason) := evaluate_when_to_reply e a p in
  if negb respond then refuse true reply_reason
  else MkPolicyDecision true true (resolve_allowed_tools e a p all_tools) (cm_persona_file p)
         (accept_reason +:+ "|" +:+ reply_reason).

(** [evaluate] *)
Definition evaluate (e : PolicyEngine) (a : ActorContext) (all_tools : gset string)
    : prog policy_cache PolicyDecision :=
  if negb (bool_decide (ac_channel a ∈ pe_apply_channels e))
  then pret (MkPolicyDecision true true all_tools None "policy_not_applied")
  else let* p := resolve_compiled_policy e (ac_channel a) (ac_chat_id a) in
       pret (decide_under e a all_tools p).

(** ** Participation settings *)

(** [_PARTICIPATION_FIELDS] *)
Definition PARTICIPATION_FIELDS : list string :=
  ["enabled"; "guidance"; "allow_initiation"; "allow_continuation"; "allow_reactions";
   "max_unaddressed_judge_calls_per_hour"; "continuation_judge_reserve"; "min_unaddressed_judge_gap_seconds";
   "max_unsolicited_comments_per_window"; "comment_window_minutes"; "max_reactions_per_window";
   "min_messages_between_reactions"; "auto_memes"; "max_memes_per_week"; "max_stickers_per_day";
   "min_messages_between_memes"].

(** The override layers of a target, least specific first. *)
Definition participation_layers (p : PolicyConfig) (channel chat_id : string) : list (string * dict) :=
  match pol_channels p !! channel with
  | None => []
  | Some cp =>
      ("channels." +:+ channel +:+ ".default.participation", default [] (co_participation (ch_default cp)))
      :: match ch_chats cp !! chat_id ≫= co_participation with
         | Some d => [("channels." +:+ channel +:+ ".chats." +:+ chat_id +:+ ".participation", d)]
         | None => []
         end
  end.

(** One layer applied to the values and their origins. *)
Definition apply_participation_layer (acc : dict * list (string * string)) (layer : string * dict)
    : dict * list (string * string) :=
  foldl (λ '(values, sources) field,
    match dict_get field layer.2 with
    | None => (values, sources)
    | Some v => (dict_set field v values, update (has_id fst field) (λ q, (q.1, layer.1)) sources)
    end) acc PARTICIPATION_FIELDS.

(** [_participation_with_sources] *)
Definition participation_with_sources (p : PolicyConfig) (channel chat_id : string)
    : result (dict * list (string * string)) :=
  let values := omap (λ f, pair f <$> dict_get f (cp_participation (pol_defaults p))) PARTICIPATION_FIELDS in
  let sources := map (λ f, (f, "defaults.participation")) PARTICIPATION_FIELDS in
  let (values, sources) := foldl apply_participation_layer (values, sources) (participation_layers p channel chat_id) in
  if participation_valid values then Ok (values, sources)
  else Raise (ValueError "participation.continuationJudgeReserve must not exceed maxUnaddressedJudgeCallsPerHour").

(** [ProcessingParticipationConfig] as far as activation reads it *)
Record ParticipationConfig := MkParticipationConfig { pcfg_enabled : bool; pcfg_shadow : bool; pcfg_judge_route : string }.

(** [ParticipationSnapshot]: the activation state and the resolved settings *)
Record ParticipationSnapshot := MkSnapshotOf {
  ps_enabled : bool;
  ps_shadow : bool;
  ps_participation : dict;
  ps_sources : list (string * string);
  ps_invalid_reason : string;
}.

(** [resolve_participation_snapshot] *)
Definition resolve_participation_snapshot (p : PolicyConfig) (channel chat_id : string)
    (processing_enabled : bool) (c : ParticipationConfig) (managed processing_shadowed : bool)
    : result ParticipationSnapshot :=
  let! resolved := participation_with_sources p channel chat_id in
  let opted := opt_truthy (dict_get "enabled" resolved.1) in
  let reason :=
    if pcfg_enabled c && negb processing_enabled then "processing_disabled"
    else if pcfg_enabled c && negb (str_true (py_strip (pcfg_judge_route c))) then "missing_judge_route"
    else if pcfg_enabled c && opted && negb managed then "target_not_managed"
    else if pcfg_enabled c && opted && processing_shadowed then "processing_shadow_conflict"
    else "" in
  Ok (MkSnapshotOf (pcfg_enabled c) (pcfg_shadow c) resolved.1 resolved.2 reason).

Definition snapshot_opted_in (s : ParticipationSnapshot) : bool := opt_truthy (dict_get "enabled" (ps_participation s)).
Definition snapshot_valid (s : ParticipationSnapshot) : bool := negb (str_true (ps_invalid_reason s)).
Definition snapshot_live (s : ParticipationSnapshot) : bool :=
  snapshot_valid s && ps_enabled s && snapshot_opted_in s && negb (ps_shadow s).
Definition snapshot_observing (s : ParticipationSnapshot) : bool :=
  snapshot_valid s && ps_enabled s && snapshot_opted_in s && ps_shadow s.
Definition snapshot_lane (s : ParticipationSnapshot) : string :=
  if snapshot_observing s then "shadow" else "production".

Definition MEME_WINDOW_MS : Z := 7 * 24 * 60 * 60 * 1000.
Definition STICKER_WINDOW_MS : Z := 24 * 60 * 60 * 1000.

(** [limits_for] *)
Definition limits_for (s : ParticipationSnapshot) (category : string) : result (Z * Z * string) :=
  let i := field_int (ps_participation s) in
  let window := i "comment_window_minutes" * 60000 in
  if str_in category ["initiation"; "comment"]
  then Ok (i "max_unsolicited_comments_per_window", window, "rolling")
  else if category =?s "reaction" then Ok (i "max_reactions_per_window", window, "rolling")
  else if category =?s "meme" then Ok (i "max_memes_per_week", MEME_WINDOW_MS, "rolling")
  else if category =?s "sticker" then Ok (i "max_stickers_per_day", STICKER_WINDOW_MS, "rolling")
  else Raise (ValueError ("unknown participation category: " +:+ category)).

(** ** What the engine decides *)

(** Listed, not denied, permitted for the sender; [spawn] needs [exec]. *)
Definition tool_granted (e : PolicyEngine) (a : ActorContext) (p : CompiledPolicy) (all_tools : gset string)
    (t : string) : Prop :=
  let listed := λ x, (cm_allowed_tools_mode p = "all" ∨ x ∈ cm_allowed_tools p) ∧ x ∉ cm_denied_tools p in
  listed t ∧ is_tool_allowed_for_actor e a p t = true ∧
  (t = "spawn" → listed "exec" ∧ "exec" ∈ all_tools).

Lemma elem_of_switched p (acc : gset string) t :
  t ∈ foldl (λ (acc : gset string) '(tool, on), if on : bool then acc else acc ∖ {[tool]}) acc (tool_switches p) ↔
  t ∈ acc ∧ ∀ on, (t, on) ∈ tool_switches p → on = true.
Proof.
  unfold tool_switches. cbn [foldl]. setoid_rewrite elem_of_cons. setoid_rewrite elem_of_cons.
  setoid_rewrite elem_of_cons. setoid_rewrite elem_of_cons.
  destruct (cm_memes p), (cm_polls p), (cm_group_reminders p), (cm_decisions p); set_solver.
Qed.

(** The tools an actor gets. *)
Lemma tools_exact e a p all_tools t :
  t ∈ resolve_allowed_tools e a p all_tools ↔
  t ∈ all_tools ∧ (∀ on, (t, on) ∈ tool_switches p → on = true) ∧
  ((owner_match e a = true ∧ t ∈ pol_owner_tools (pe_policy e)) ∨ tool_granted e a p all_tools t).
Proof.
  unfold resolve_allowed_tools. cbv zeta. rewrite elem_of_switched. unfold tool_granted.
  set (listed := if cm_allowed_tools_mode p =?s "all" then all_tools else cm_allowed_tools p).
  assert (∀ x, x ∈ all_tools → x ∈ listed ↔ cm_allowed_tools_mode p = "all" ∨ x ∈ cm_allowed_tools p) as Hl.
  { intros x Hx. unfold listed. destruct (_ =?s "all") eqn:E.
    - apply str_eqb_eq in E. set_solver.
    - apply str_eqb_neq in E. set_solver. }
  set (base := (listed ∖ cm_denied_tools p) ∩ all_tools).
  assert (∀ x, x ∈ base ↔ x ∈ all_tools ∧
            (cm_allowed_tools_mode p = "all" ∨ x ∈ cm_allowed_tools p) ∧ x ∉ cm_denied_tools p) as Hbase.
  { intros x. unfold base. rewrite elem_of_intersection, elem_of_difference.
    split; [intros [[H1 H2] H3]; by rewrite Hl in H1|intros [H1 [H2 H3]]; by rewrite Hl]. }
  set (guarded := if decide ("exec" ∈ base) then base else base ∖ {["spawn"]}).
  assert (∀ x, x ∈ guarded ↔ x ∈ base ∧ (x = "spawn" → "exec" ∈ base)) as Hg.
  { intros x. unfold guarded. destruct (decide ("exec" ∈ base)); set_solver. }
  destruct (owner_match e a); rewrite ?elem_of_union, ?elem_of_intersection, ?elem_of_list_to_set, elem_of_filter, Hg, !Hbase;
    naive_solver.
Qed.

Lemma decide_under_cases e a all_tools p :
  let d := decide_under e a all_tools p in
  (pd_accept_message d = true ↔
     actor_match a (cm_blocked_senders p) = false ∧ (evaluate_who_can_talk e a p).1 = true) ∧
  (pd_should_respond d = true ↔ pd_accept_message d = true ∧ (evaluate_when_to_reply e a p).1 = true) ∧
  pd_allowed_tools d = if pd_should_respond d then resolve_allowed_tools e a p all_tools else ∅.
Proof.
  unfold decide_under. cbv zeta. destruct (actor_match a (cm_blocked_senders p)); [cbn; naive_solver|].
  destruct (evaluate_who_can_talk e a p) as [[] r1]; [|cbn; naive_solver].
  destruct (evaluate_when_to_reply e a p) as [[] r2]; cbn; naive_solver.
Qed.

(** ** Resolution through the layers *)

Lemma channel_default_layer p apply channel :
  channel ∈ default {["telegram"; "whatsapp"]} apply ∪ dom (pol_channels p) →
  pe_channel_defaults (PolicyEngine_init p apply) !! channel =
    Some (compile_chat_policy channel (channel_layer p channel) (owners_of p channel)).
Proof.
  intros Hc. cbn [pe_channel_defaults PolicyEngine_init]. apply lookup_set_to_map; [|by exists channel].
  by intros x y _ _ [= ->].
Qed.

(** The layers of one chat: defaults, channel default, chat override. *)
Definition chat_layer (p : PolicyConfig) (channel chat_id : string) : ChatPolicy :=
  match pol_channels p !! channel ≫= λ cp, ch_chats cp !! chat_id with
  | Some o => apply_override (channel_layer p channel) o
  | None => channel_layer p channel
  end.

Lemma lookup_layered p apply channel chat_id :
  channel ∈ default {["telegram"; "whatsapp"]} apply ∪ dom (pol_channels p) →
  lookup_policy (PolicyEngine_init p apply) channel chat_id =
    Ok (compile_chat_policy channel (chat_layer p channel chat_id) (owners_of p channel)).
Proof.
  intros Hc. unfold lookup_policy. rewrite (channel_default_layer p apply channel Hc).
  cbn [pe_chat_rules PolicyEngine_init]. rewrite map_lookup_imap. unfold chat_layer.
  destruct (pol_channels p !! channel) as [cp|]; [|done]. cbn. rewrite lookup_fmap.
  by destruct (ch_chats cp !! chat_id).
Qed.

(** ** The cache *)

(** Everything cached is what the rules say. *)
Definition cache_ok (e : PolicyEngine) (cache : policy_cache) : Prop :=
  ∀ channel chat_id c, cache !! (channel, chat_id) = Some c → lookup_policy e channel chat_id = Ok c.

Lemma resolve_cached e channel chat_id cache :
  cache_ok e cache →
  (resolve_compiled_policy e channel chat_id cache).1 = lookup_policy e channel chat_id ∧
  cache_ok e (resolve_compiled_policy e channel chat_id cache).2.
Proof.
  intros Hc. unfold resolve_compiled_policy. destruct (cache !! _) as [c|] eqn:E.
  - split; [|done]. symmetry. by apply Hc.
  - destruct (lookup_policy e channel chat_id) as [c|err] eqn:El; [|done]. split; [done|].
    intros ch ct c' Hx. cbn [snd] in Hx. apply lookup_insert_Some in Hx as [[[= <- <-] <-]|[_ Hx]]; [done|by apply Hc].
Qed.

(** ** Theorems *)

(** C15: The policy engine fails closed. On a channel it applies to, whatever is cached, the
    decision is the one of the layered rules: a message is accepted only from a sender who
    is not blocked and may talk, answered only if it is accepted and a reply is due, and
    tools are handed out only with an answer; every tool handed out is known, switched on
    for the chat where it needs a switch, and either granted by the chat's rules to this
    sender or an owner tool for an owner. *)
Theorem evaluate_fails_closed p apply a all_tools cache :
  let e := PolicyEngine_init p apply in
  ac_channel a ∈ pe_apply_channels e → cache_ok e cache →
  ∃ d cache',
    let c := compile_chat_policy (ac_channel a) (chat_layer p (ac_channel a) (ac_chat_id a)) (owners_of p (ac_channel a)) in
    evaluate e a all_tools cache = (Ok d, cache') ∧ cache_ok e cache' ∧
    (pd_accept_message d = true ↔
       actor_match a (cm_blocked_senders c) = false ∧ (evaluate_who_can_talk e a c).1 = true) ∧
    (pd_should_respond d = true ↔ pd_accept_message d = true ∧ (evaluate_when_to_reply e a c).1 = true) ∧
    ∀ t, t ∈ pd_allowed_tools d ↔
      pd_should_respond d = true ∧ t ∈ all_tools ∧ (∀ on, (t, on) ∈ tool_switches c → on = true) ∧
      ((owner_match e a = true ∧ t ∈ pol_owner_tools p) ∨ tool_granted e a c all_tools t).
Proof.
  cbv zeta. set (e := PolicyEngine_init p apply). intros Ha Hc. unfold evaluate.
  rewrite bool_decide_eq_true_2 by done. cbn [negb].
  pose proof (resolve_cached e (ac_channel a) (ac_chat_id a) cache Hc) as [Hr Hc'].
  rewrite (lookup_layered p apply) in Hr by (cbn in Ha; set_solver).
  unfold pbind. destruct (resolve_compiled_policy e _ _ cache) as [r cache']. cbn [fst snd] in *. subst r.
  eexists _, cache'. split; [done|]. split; [done|]. set (c := compile_chat_policy _ _ _).
  destruct (decide_under_cases e a all_tools c) as (H1 & H2 & H3). split; [done|]. split; [done|].
  intros t. rewrite H3. destruct (pd_should_respond _); [rewrite tools_exact; naive_solver|set_solver].
Qed.

End Wake.

(** Chat override, else channel default, else global default. *)
Definition pick {A} (chat chan : option A) (glob : A) : A := over chat (over chan glob).

(** The most specific layer wins. Where a chat override sets who may talk, when to reply or
    a switch, that is what counts; otherwise the channel's default; otherwise the global
    default. Lists replace each other and never add up. *)
Theorem layers_most_specific p channel chat_id cp o :
  pol_channels p !! channel = Some cp → ch_chats cp !! chat_id = Some o →
  let l := chat_layer p channel chat_id in
  rule_mode (cp_who_can_talk l) =
    pick (co_who_can_talk o ≫= ro_mode) (co_who_can_talk (ch_default cp) ≫= ro_mode)
      (rule_mode (cp_who_can_talk (pol_defaults p))) ∧
  rule_senders (cp_who_can_talk l) =
    pick (co_who_can_talk o ≫= ro_senders) (co_who_can_talk (ch_default cp) ≫= ro_senders)
      (rule_senders (cp_who_can_talk (pol_defaults p))) ∧
  rule_mode (cp_when_to_reply l) =
    pick (co_when_to_reply o ≫= ro_mode) (co_when_to_reply (ch_default cp) ≫= ro_mode)
      (rule_mode (cp_when_to_reply (pol_defaults p))) ∧
  cp_blocked_senders l =
    pick (default None (co_blocked_senders o)) (default None (co_blocked_senders (ch_default cp)))
      (cp_blocked_senders (pol_defaults p)) ∧
  at_deny (cp_allowed_tools l) =
    pick (co_allowed_tools o ≫= to_deny) (co_allowed_tools (ch_default cp) ≫= to_deny)
      (at_deny (cp_allowed_tools (pol_defaults p))).
Proof.
  intros Hcp Ho. unfold chat_layer, channel_layer. rewrite Hcp. cbn. rewrite Ho. unfold apply_override, merge_rule, merge_tools, pick.
  cbn. by destruct (co_who_can_talk o), (co_who_can_talk (ch_default cp)), (co_when_to_reply o),
    (co_when_to_reply (ch_default cp)), (co_allowed_tools o), (co_allowed_tools (ch_default cp)).
Qed.

(** ** Origins of the participation settings *)

(** The origin recorded for a field. *)
Definition origin_of (f : string) (sources : list (string * string)) : option string :=
  snd <$> by_id fst f sources.

Lemma origin_update f g name l :
  origin_of f (update (has_id fst g) (λ q, (q.1, name)) l) =
    if f =?s g then (λ _, name) <$> by_id fst f l else origin_of f l.
Proof.
  unfold origin_of. rewrite by_id_update by done. destruct (by_id fst f l) as [q|] eqn:E; cbn; [|by destruct (_ =?s _)].
  apply by_id_Some_inv in E as [_ Hq]. unfold has_id. rewrite Hq. by destruct (f =?s g).
Qed.

(** A layer sets exactly its fields, and names itself as their origin. *)
Lemma layer_fields name d fs values sources values' sources' f :
  NoDup fs → (∀ g, g ∈ fs → is_Some (by_id fst g sources)) →
  foldl (λ '(values, sources) field,
    match dict_get field d with
    | None => (values, sources)
    | Some v => (dict_set field v values, update (has_id fst field) (λ q, (q.1, name)) sources)
    end) (values, sources) fs = (values', sources') →
  (∀ g, is_Some (by_id fst g sources) → is_Some (by_id fst g sources')) ∧
  if decide (f ∈ fs ∧ is_Some (dict_get f d))
  then dict_get f values' = dict_get f d ∧ origin_of f sources' = Some name
  else dict_get f values' = dict_get f values ∧ origin_of f sources' = origin_of f sources.
Proof.
  intros Hnd. revert values sources. induction fs as [|g fs IH]; intros values sources Hs; cbn [foldl].
  { intros [= <- <-]. split; [done|]. rewrite decide_False by set_solver. done. }
  apply NoDup_cons in Hnd as [Hg Hnd]. destruct (dict_get g d) as [v|] eqn:Eg.
  - intros Hf. assert (∀ x, is_Some (by_id fst x sources) →
      is_Some (by_id fst x (update (has_id fst g) (λ q, (q.1, name)) sources))) as Hkeep.
    { intros x [q Hq]. rewrite by_id_update by done. rewrite Hq. by eexists. }
    apply IH in Hf as [Hk Hf]; [|done|intros x Hx; apply Hkeep, Hs; set_solver]. split; [auto|].
    destruct (decide (f = g)) as [->|Hne].
    + rewrite decide_False in Hf by set_solver. rewrite decide_True by (split; [set_solver|by rewrite Eg]).
      destruct Hf as [-> ->]. rewrite dict_get_set, origin_update, str_eqb_refl. split; [done|].
      destruct (Hs g) as [q Hq]; [set_solver|]. by rewrite Hq.
    + rewrite dict_get_set_ne, origin_update in Hf by done.
      destruct (f =?s g) eqn:E; [by apply str_eqb_eq in E|].
      destruct (decide (f ∈ fs ∧ _)); destruct (decide (f ∈ g :: fs ∧ _)); set_solver.
  - intros Hf. apply IH in Hf as [Hk Hf]; [|done|set_solver]. split; [done|].
    destruct (decide (f = g)) as [->|Hne].
    + rewrite decide_False in Hf by set_solver. rewrite decide_False by (intros [_ [v Hv]]; congruence). done.
    + destruct (decide (f ∈ fs ∧ _)); destruct (decide (f ∈ g :: fs ∧ _)); set_solver.
Qed.

Lemma participation_fields_nodup : NoDup PARTICIPATION_FIELDS.
Proof. apply (bool_decide_unpack _). by vm_compute. Qed.

(** Default values, before any layer. *)
Lemma default_values f (d : dict) fs :
  NoDup fs → f ∈ fs → dict_get f (omap (λ g, pair g <$> dict_get g d) fs) = dict_get f d.
Proof.
  induction fs as [|g fs IH]; [set_solver|]. intros [Hg Hnd]%NoDup_cons Hf. cbn [omap list_omap].
  assert (∀ l, g ∉ l → dict_get g (omap (λ g, pair g <$> dict_get g d) l) = None) as Hnone.
  { induction l as [|x l IHl]; [done|]. intros Hx. cbn [omap list_omap]. destruct (dict_get x d) as [y|]; cbn; [|apply IHl; set_solver].
    destruct (x =?s g) eqn:E; [apply str_eqb_eq in E; set_solver|]. apply IHl. set_solver. }
  destruct (decide (f = g)) as [->|Hne].
  - destruct (dict_get g d) as [v|] eqn:E; cbn; [by rewrite str_eqb_refl|by apply Hnone].
  - destruct (dict_get g d) as [v|]; cbn; [destruct (g =?s f) eqn:E; [apply str_eqb_eq in E; congruence|]|];
      apply IH; set_solver.
Qed.

(** Every participation setting says truly where it comes from. For each field the
    resolved value and the recorded origin belong together: the chat's override if it sets
    the field, else the channel's default if that sets it, else the global default; and
    the resolved settings keep the judge reserve within its quota. *)
Theorem participation_origin p channel chat_id cp values sources f :
  pol_channels p !! channel = Some cp → f ∈ PARTICIPATION_FIELDS →
  participation_with_sources p channel chat_id = Ok (values, sources) →
  let chat := (ch_chats cp !! chat_id ≫= co_participation) ≫= dict_get f in
  let chan := co_participation (ch_default cp) ≫= dict_get f in
  field_int values "continuation_judge_reserve" ≤ field_int values "max_unaddressed_judge_calls_per_hour" ∧
  match chat, chan with
  | Some v, _ => dict_get f values = Some v ∧
      origin_of f sources = Some ("channels." +:+ channel +:+ ".chats." +:+ chat_id +:+ ".participation")
  | None, Some v => dict_get f values = Some v ∧
      origin_of f sources = Some ("channels." +:+ channel +:+ ".default.participation")
  | None, None => dict_get f values = dict_get f (cp_participation (pol_defaults p)) ∧
      origin_of f sources = Some "defaults.participation"
  end.
Proof.
  intros Hcp Hf. unfold participation_with_sources, participation_layers. rewrite Hcp. cbn [foldl].
  set (v0 := omap _ _). set (s0 := map _ _).
  assert (∀ g, g ∈ PARTICIPATION_FIELDS → is_Some (by_id fst g s0)) as H0.
  { intros g Hg. apply list_elem_of_In in Hg. cbn in Hg. repeat (destruct Hg as [<-|Hg]; [by eexists|]). done. }
  assert (origin_of f s0 = Some "defaults.participation") as Ho0.
  { apply list_elem_of_In in Hf. cbn in Hf. repeat (destruct Hf as [<-|Hf]; [done|]). done. }
  assert (dict_get f v0 = dict_get f (cp_participation (pol_defaults p))) as Hv0
    by (apply default_values; [apply participation_fields_nodup|done]).
  destruct (apply_participation_layer (v0, s0) _) as [v1 s1] eqn:E1.
  unfold apply_participation_layer in E1. cbn [fst snd] in E1.
  eapply (layer_fields _ _ _ _ _ _ _ f participation_fields_nodup H0) in E1 as [Hk1 E1].
  assert (dict_get f (default [] (co_participation (ch_default cp))) = co_participation (ch_default cp) ≫= dict_get f)
    as Hchan by (by destruct (co_participation (ch_default cp))). rewrite Hchan in E1.
  destruct (ch_chats cp !! chat_id ≫= co_participation) as [d|] eqn:Ed; cbn [foldl].
  - destruct (apply_participation_layer (v1, s1) _) as [v2 s2] eqn:E2.
    unfold apply_participation_layer in E2. cbn [fst snd] in E2.
    eapply (layer_fields _ _ _ _ _ _ _ f participation_fields_nodup) in E2 as [_ E2]; [|auto].
    destruct (participation_valid v2) eqn:Ev; [|done]. intros [= <- <-]. cbv zeta.
    split; [by apply Z.leb_le|]. cbn [mbind option_bind].
    destruct (dict_get f d) as [x|] eqn:Ex.
    + rewrite decide_True in E2 by (split; [done|by eexists]). done.
    + rewrite decide_False in E2 by (by intros [_ [??]]). destruct E2 as [-> ->].
      destruct (co_participation (ch_default cp) ≫= dict_get f) as [y|].
      * by rewrite decide_True in E1 by (split; [done|by eexists]).
      * rewrite decide_False in E1 by (by intros [_ [??]]). destruct E1 as [-> ->]. done.
  - destruct (participation_valid v1) eqn:Ev; [|done]. intros [= <- <-]. cbv zeta.
    split; [by apply Z.leb_le|]. cbn [mbind option_bind].
    destruct (co_participation (ch_default cp) ≫= dict_get f) as [y|].
    + by rewrite decide_True in E1 by (split; [done|by eexists]).
    + rewrite decide_False in E1 by (by intros [_ [??]]). destruct E1 as [-> ->]. done.
Qed.

(** ** Witnesses *)

(** A family group: mentions only, nobody but the owner may run commands, polls switched
    on, one sender blocked. *)
Definition house_defaults : ChatPolicy :=
  MkChatPolicy (MkRule "everyone" []) (MkRule "all" []) [] (MkTools "all" [] ["shell"]) [] None [] false false false
    false false false
    [("enabled", JBool false); ("max_unaddressed_judge_calls_per_hour", JInt 20); ("continuation_judge_reserve", JInt 5)].

Definition house_group : ChatPolicyOverride :=
  MkChatOverride None (Some (MkRuleOverride (Some "mention_only") None)) (Some (Some ["491555"])) None None None None
    None (Some true) None None None None (Some [("enabled", JBool true)]).

Definition house_policy : PolicyConfig :=
  MkPolicyConfig {["whatsapp" := ["491111"]]} house_defaults DEFAULT_OWNER_TOOLS
    {["whatsapp" := MkChannelPolicy no_override {["g@g.us" := house_group]}]}.

Definition house_guest : ActorContext :=
  MkActor "whatsapp" "g@g.us" "492222" ["492222"] true true false "@bot hi" false.

Definition ascii_alnum (c : string) : bool := all_chars (λ a, negb (is_space a)) c.

Definition house_engine : PolicyEngine := PolicyEngine_init ascii_alnum house_policy (Some {["whatsapp"]}).

Lemma house_decides :
  (λ d, (pd_accept_message d, pd_should_respond d, bool_decide ("poll" ∈ pd_allowed_tools d),
    bool_decide ("make_meme" ∈ pd_allowed_tools d), bool_decide ("shell" ∈ pd_allowed_tools d))) <$>
  match (evaluate ascii_alnum house_engine house_guest {["poll"; "make_meme"; "shell"]} ∅).1 with Ok d => Some d | _ => None end
  = Some (true, true, true, false, false).
Proof. by vm_compute. Qed.

Lemma evaluate_fails_closed_witness :
  ∃ d cache',
    evaluate ascii_alnum house_engine house_guest {["poll"; "make_meme"; "shell"]} ∅ = (Ok d, cache') ∧
    cache_ok house_engine cache' ∧ pd_should_respond d = true ∧
    "poll" ∈ pd_allowed_tools d ∧ "make_meme" ∉ pd_allowed_tools d.
Proof.
  destruct (evaluate_fails_closed ascii_alnum house_policy (Some {["whatsapp"]}) house_guest
    {["poll"; "make_meme"; "shell"]} ∅) as (d & cache' & He & Hc & _).
  - cbn. set_solver.
  - intros ch ct c Hx. discriminate Hx.
  - exists d, cache'. split; [exact He|]. split; [exact Hc|].
    pose proof house_decides as Hd. unfold house_engine in Hd. rewrite He in Hd. cbn [fst fmap option_fmap option_map] in Hd.
    injection Hd as _ H1 H2 H3 _. split; [done|].
    split; [by apply bool_decide_eq_true in H2|by apply bool_decide_eq_false in H3].
Defined.

Lemma layers_most_specific_witness :
  rule_mode (cp_when_to_reply (chat_layer house_policy "whatsapp" "g@g.us")) = "mention_only" ∧
  cp_blocked_senders (chat_layer house_policy "whatsapp" "g@g.us") = ["491555"].
Proof.
  destruct (layers_most_specific house_policy "whatsapp" "g@g.us" (MkChannelPolicy no_override {["g@g.us" := house_group]})
    house_group) as (_ & _ & H1 & H2 & _); [reflexivity|reflexivity|].
  split; [exact H1|exact H2].
Defined.

Lemma house_settings : ∃ values sources, participation_with_sources house_policy "whatsapp" "g@g.us" = Ok (values, sources).
Proof. do 2 eexists. by vm_compute. Qed.

Lemma participation_origin_witness :
  ∃ values sources, participation_with_sources house_policy "whatsapp" "g@g.us" = Ok (values, sources) ∧
    dict_get "enabled" values = Some (JBool true) ∧
    origin_of "enabled" sources = Some "channels.whatsapp.chats.g@g.us.participation".
Proof.
  destruct house_settings as (values & sources & H). exists values, sources. split; [exact H|].
  destruct (participation_origin house_policy "whatsapp" "g@g.us" (MkChannelPolicy no_override {["g@g.us" := house_group]})
    values sources "enabled") as [_ Ho]; [reflexivity|by left|exact H|]. exact Ho.
Defined.
