(* ===== verification/PolicyMerge.v ===== *)
(** * PolicyMerge

    The policy layers as the code merges them: policies dumped to mappings, [_deep_merge]
    of the mappings, and the validation of the result with its refusals, against the
    field-by-field override of [PolicyEngine].

    The mappings are keyed by field names and typed as [model_dump] writes them, so aliases
    and pydantic's conversions between types (a number given as text) do not arise; a value
    of another type is refused here. Messages of a refusal are left out. *)

From Stdlib Require Import ZArith Lia.
From S2P Require Import Prelude Tables Json Registry Identity PolicyEngine.

(** ** Deep merge *)

Definition is_obj (v : json) : bool := match v with JObj _ => true | _ => false end.

(** One key of the override. *)
Definition merge_step (fuel : nat) (merged : dict) (entry : string * json) : dict :=
  match fuel, entry.2, dict_get entry.1 merged with
  | S fuel', JObj o, Some (JObj b) => dict_set entry.1 (JObj (deep_merge_fuel fuel' b o)) merged
  | _, _, _ => dict_set entry.1 entry.2 merged
  end.

Lemma deep_merge_fuel_eq fuel b o : deep_merge_fuel fuel b o = foldl (merge_step fuel) b o.
Proof.
  destruct fuel as [|fuel]; cbn [deep_merge_fuel]; revert b; induction o as [|[k v] o IH]; intros b;
    cbn [foldl]; try done; rewrite <- IH; done.
Qed.

Lemma depth_entry k v (d : dict) : (k, v) ∈ d → (json_depth v < json_depth (JObj d))%nat.
Proof.
  induction d as [|[x y] d IH]; [set_solver|]. cbn. intros [[= -> ->]|Hin]%elem_of_cons; [lia|].
  specialize (IH Hin). cbn in IH. lia.
Qed.

(** One more than the nesting depth is enough fuel: more changes nothing. *)
Lemma deep_merge_fuel_enough n b o fuel :
  (json_depth (JObj o) ≤ n)%nat → (n ≤ fuel)%nat → deep_merge_fuel fuel b o = deep_merge_fuel n b o.
Proof.
  revert b o fuel. induction n as [|n IH]; intros b o fuel Hn Hf; [cbn in Hn; lia|].
  destruct fuel as [|fuel]; [lia|]. rewrite !deep_merge_fuel_eq.
  assert (∀ e, e ∈ o → ∀ m, merge_step (S fuel) m e = merge_step (S n) m e) as Hstep.
  { intros [k v] He m. unfold merge_step. cbn [fst snd]. pose proof (depth_entry _ _ _ He) as Hd.
    destruct v; try done. destruct (dict_get k m) as [[]|]; try done. by rewrite IH by lia. }
  clear Hn. revert b Hstep. induction o as [|e o IHo]; intros b Hstep; [done|]. cbn [foldl].
  rewrite (Hstep e) by set_solver. apply IHo. intros. apply Hstep. set_solver.
Qed.

(** What one key holds after a merge. *)
Definition merge_value (bv ov : option json) : option json :=
  match ov with
  | None => bv
  | Some (JObj o) => match bv with Some (JObj b) => Some (JObj (deep_merge b o)) | _ => Some (JObj o) end
  | Some v => Some v
  end.

Lemma merge_step_get fuel m k v x :
  (json_depth v < fuel)%nat →
  dict_get x (merge_step fuel m (k, v)) = if k =?s x then merge_value (dict_get k m) (Some v) else dict_get x m.
Proof.
  intros Hf. unfold merge_step. cbn [fst snd].
  assert (∀ y, dict_get x (dict_set k y m) = if k =?s x then Some y else dict_get x m) as Hset.
  { intros y. destruct (k =?s x) eqn:E; [apply str_eqb_eq in E as ->; apply dict_get_set|].
    apply dict_get_set_ne. apply str_eqb_neq in E. congruence. }
  destruct fuel as [|fuel]; [lia|]. destruct v as [| | | | | |o]; rewrite ?Hset; try done.
  destruct (dict_get k m) as [[| | | | | |b]|]; rewrite Hset; try done. destruct (k =?s x); [|done]. cbn [merge_value].
  unfold deep_merge. by rewrite (deep_merge_fuel_enough (json_depth (JObj o))) by lia.
Qed.

Lemma merge_steps_get fuel o : ∀ b x,
  NoDup (map fst o) → (∀ e, e ∈ o → (json_depth e.2 < fuel)%nat) →
  dict_get x (foldl (merge_step fuel) b o) = merge_value (dict_get x b) (dict_get x o).
Proof.
  induction o as [|[k v] o IH]; intros b x Hnd Hf; [done|]. cbn [map fst] in Hnd. apply NoDup_cons in Hnd as [Hk Hnd].
  cbn [foldl]. rewrite IH; [|done|intros; apply Hf; set_solver]. rewrite merge_step_get by (apply (Hf (k, v)); set_solver).
  cbn [dict_get]. destruct (k =?s x) eqn:E; [|done]. apply str_eqb_eq in E as ->.
  assert (dict_get x o = None) as ->; [|done].
  clear -Hk. induction o as [|[y z] o IHo]; [done|]. cbn in *. destruct (y =?s x) eqn:E.
  - apply str_eqb_eq in E as ->. set_solver.
  - apply IHo. set_solver.
Qed.

(** What a merge holds under a key: the override's value, merged with the base's where
    both are mappings; the base's value where the override has none. *)
Lemma deep_merge_get b o x :
  NoDup (map fst o) → dict_get x (deep_merge b o) = merge_value (dict_get x b) (dict_get x o).
Proof.
  intros Hnd. unfold deep_merge. rewrite deep_merge_fuel_eq. apply merge_steps_get; [done|].
  intros [k v] He. by apply (depth_entry k).
Qed.

(** ** Dumping and validating *)

(** [model_dump]: the fields present, in order. *)
Definition present (l : list (string * option json)) : dict := omap (λ e, pair e.1 <$> e.2) l.

Definition dump_strs (l : list string) : json := JArr (map JStr l).

Definition dump_rule (r : sender_rule) : dict :=
  [("mode", JStr (rule_mode r)); ("senders", dump_strs (rule_senders r))].

Definition dump_rule_override (o : sender_rule_override) : dict :=
  present [("mode", JStr <$> ro_mode o); ("senders", dump_strs <$> ro_senders o)].

Definition dump_tools_override (o : tools_override) : dict :=
  present [("mode", JStr <$> to_mode o); ("tools", dump_strs <$> to_tools o); ("deny", dump_strs <$> to_deny o)].

Definition dump_access (l : list (string * sender_rule)) : dict := map (λ e, (e.1, JObj (dump_rule e.2))) l.

Definition dump_access_override (l : list (string * sender_rule_override)) : dict :=
  map (λ e, (e.1, JObj (dump_rule_override e.2))) l.

(** [policy.defaults.model_dump()] *)
Definition dump_policy (p : ChatPolicy) : dict :=
  [("who_can_talk", JObj (dump_rule (cp_who_can_talk p)));
   ("when_to_reply", JObj (dump_rule (cp_when_to_reply p)));
   ("blocked_senders", JObj [("senders", dump_strs (cp_blocked_senders p))]);
   ("allowed_tools", JObj [("mode", JStr (at_mode (cp_allowed_tools p)));
      ("tools", dump_strs (at_tools (cp_allowed_tools p))); ("deny", dump_strs (at_deny (cp_allowed_tools p)))]);
   ("tool_access", JObj (dump_access (cp_tool_access p)));
   ("persona_file", from_option JStr JNull (cp_persona_file p));
   ("voice", JObj [("input", JObj [("wake_phrases", dump_strs (cp_wake_phrases p))])]);
   ("memes", JBool (cp_memes p)); ("polls", JBool (cp_polls p));
   ("group_reminders", JBool (cp_group_reminders p)); ("decisions", JBool (cp_decisions p));
   ("reception_metrics", JBool (cp_reception_metrics p)); ("reception_tuning", JBool (cp_reception_tuning p));
   ("participation", JObj (cp_participation p))].

Definition override_fields (o : ChatPolicyOverride) : list (string * option json) :=
    [("who_can_talk", JObj ∘ dump_rule_override <$> co_who_can_talk o);
     ("when_to_reply", JObj ∘ dump_rule_override <$> co_when_to_reply o);
     ("blocked_senders", (λ s, JObj (present [("senders", dump_strs <$> s)])) <$> co_blocked_senders o);
     ("allowed_tools", JObj ∘ dump_tools_override <$> co_allowed_tools o);
     ("tool_access", JObj ∘ dump_access_override <$> co_tool_access o);
     ("persona_file", JStr <$> co_persona_file o);
     ("voice", (λ w, JObj [("input", JObj [("wake_phrases", dump_strs w)])]) <$> co_wake_phrases o);
     ("memes", JBool <$> co_memes o); ("polls", JBool <$> co_polls o);
     ("group_reminders", JBool <$> co_group_reminders o); ("decisions", JBool <$> co_decisions o);
     ("reception_metrics", JBool <$> co_reception_metrics o);
     ("reception_tuning", JBool <$> co_reception_tuning o);
     ("participation", JObj <$> co_participation o)].

(** [dump_override]: [model_dump(exclude_none=True, ...)] *)
Definition dump_override (o : ChatPolicyOverride) : dict := present (override_fields o).

(** ** Validating *)

(** A refusal of pydantic; its message is left out. *)
Definition ValidationError : py_error := OtherError "ValidationError" "".

(** [extra="forbid"] *)
Definition forbid_extra (fields : list string) (d : dict) : result unit :=
  if forallb (λ e, str_in e.1 fields) d then Ok tt else Raise ValidationError.

(** A field that is absent has its default. *)
Definition valid_field {A} (k : string) (valid : json → result A) (dflt : A) (d : dict) : result A :=
  match dict_get k d with None => Ok dflt | Some v => valid v end.

Definition valid_str (v : json) : result string := match v with JStr s => Ok s | _ => Raise ValidationError end.
Definition valid_opt_str (v : json) : result (option string) :=
  match v with JNull => Ok None | JStr s => Ok (Some s) | _ => Raise ValidationError end.
Definition valid_flag (v : json) : result bool := match v with JBool b => Ok b | _ => Raise ValidationError end.
Fixpoint valid_items (l : list json) : result (list string) :=
  match l with [] => Ok [] | v :: l' => let! s := valid_str v in let! rest := valid_items l' in Ok (s :: rest) end.
Definition valid_strs (v : json) : result (list string) := match v with JArr l => valid_items l | _ => Raise ValidationError end.
Definition valid_mode (modes : list string) (v : json) : result string :=
  let! s := valid_str v in if str_in s modes then Ok s else Raise ValidationError.
(** A nested model *)
Definition valid_model {A} (fields : list string) (valid : dict → result A) (v : json) : result A :=
  match v with JObj d => let! _ := forbid_extra fields d in valid d | _ => Raise ValidationError end.

Definition WHO_CAN_TALK_MODES : list string := ["everyone"; "allowlist"; "owner_only"].
Definition WHEN_TO_REPLY_MODES : list string := ["all"; "mention_only"; "allowed_senders"; "owner_only"; "off"].
Definition ALLOWED_TOOLS_MODES : list string := ["all"; "allowlist"].
Definition TOOL_ACCESS_MODES : list string := ["everyone"; "allowlist"; "owner_only"].

(** [WhoCanTalkPolicy], [WhenToReplyPolicy] and [ToolAccessRule] *)
Definition validate_rule (modes : list string) (dflt : string) : json → result sender_rule :=
  valid_model ["mode"; "senders"] (λ d,
    let! mode := valid_field "mode" (valid_mode modes) dflt d in
    let! senders := valid_field "senders" valid_strs [] d in
    Ok (MkRule mode senders)).

(** [AllowedToolsPolicy] and [BlockedSendersPolicy] *)
Definition validate_tools : json → result tools_policy :=
  valid_model ["mode"; "tools"; "deny"] (λ d,
    let! mode := valid_field "mode" (valid_mode ALLOWED_TOOLS_MODES) "all" d in
    let! tools := valid_field "tools" valid_strs [] d in
    let! deny := valid_field "deny" valid_strs [] d in
    Ok (MkTools mode tools deny)).
Definition validate_blocked : json → result (list string) := valid_model ["senders"] (valid_field "senders" valid_strs []).

(** The rules of [tool_access] *)
Fixpoint validate_access (d : dict) : result (list (string * sender_rule)) :=
  match d with
  | [] => Ok []
  | (tool, v) :: d' =>
      let! rule := validate_rule TOOL_ACCESS_MODES "everyone" v in
      let! rest := validate_access d' in
      Ok ((tool, rule) :: rest)
  end.

(** [VoicePolicy] as far as the model has it: its input *)
Definition validate_voice : json → result (list string) :=
  valid_model ["input"; "output"]
    (valid_field "input" (valid_model ["wake_phrases"] (valid_field "wake_phrases" valid_strs [])) []).

(** The fields of [ParticipationPolicy]: a default with the bounds of a number *)
Inductive field_kind :=
| FFlag (dflt : bool)
| FText (dflt : string)
| FNum (dflt least : Z) (most : option Z).

Definition DEFAULT_PARTICIPATION_GUIDANCE : string :=
  "Join when you can add a specific, relevant contribution or fitting brief social "
  +:+ "response. Consider whether a reply is actually useful even when it relates to you. "
  +:+ "Prefer a reaction for acknowledgment when appropriate. Do not chase unanswered "
  +:+ "posts, explain jokes after laughter, or interrupt an exchange directed at another "
  +:+ "person without a good reason. Yield when the exchange closes or moves on.".
Definition MAX_PARTICIPATION_GUIDANCE_CHARS : nat := 4000.

Definition PARTICIPATION_SCHEMA : list (string * field_kind) :=
  [("enabled", FFlag false); ("guidance", FText DEFAULT_PARTICIPATION_GUIDANCE); ("allow_initiation", FFlag true);
   ("allow_continuation", FFlag true); ("allow_reactions", FFlag true);
   ("max_unaddressed_judge_calls_per_hour", FNum 12 0 (Some 120)); ("continuation_judge_reserve", FNum 4 0 None);
   ("min_unaddressed_judge_gap_seconds", FNum 30 0 (Some 3600)); ("max_unsolicited_comments_per_window", FNum 3 0 (Some 20));
   ("comment_window_minutes", FNum 30 1 (Some 1440)); ("max_reactions_per_window", FNum 6 0 (Some 60));
   ("min_messages_between_reactions", FNum 0 0 (Some 100)); ("auto_memes", FFlag false); ("max_memes_per_week", FNum 3 0 (Some 14));
   ("max_stickers_per_day", FNum 2 0 (Some 10)); ("min_messages_between_memes", FNum 15 0 (Some 500))].

Definition field_default (k : field_kind) : json :=
  match k with FFlag b => JBool b | FText s => JStr s | FNum z _ _ => JInt z end.

(** One value, with the bounds and [_validate_guidance] *)
Definition field_ok (k : field_kind) (v : json) : bool :=
  match k, v with
  | FFlag _, JBool _ => true
  | FText _, JStr s => (length (utf8_chars s) <=? MAX_PARTICIPATION_GUIDANCE_CHARS)%nat
  | FNum _ least most, JInt z => (least <=? z) && match most with Some m => z <=? m | None => true end
  | _, _ => false
  end.

(** Every field with its value or its default. *)
Definition filled (d : dict) : dict := map (λ f, (f.1, default (field_default f.2) (dict_get f.1 d))) PARTICIPATION_SCHEMA.

(** What [ParticipationPolicy] accepts, [_validate_reserve] included *)
Definition participation_ok (d : dict) : bool :=
  forallb (λ e, str_in e.1 (map fst PARTICIPATION_SCHEMA)) d
  && forallb (λ f, match dict_get f.1 d with Some v => field_ok f.2 v | None => true end) PARTICIPATION_SCHEMA
  && participation_valid (filled d).
Definition validate_participation (v : json) : result dict :=
  match v with JObj d => if participation_ok d then Ok (filled d) else Raise ValidationError | _ => Raise ValidationError end.

(** The fields of [ChatPolicy], those that are only carried through included *)
Definition CHAT_POLICY_FIELDS : list string :=
  ["who_can_talk"; "when_to_reply"; "blocked_senders"; "allowed_tools"; "tool_access"; "group_tags"; "persona_file"; "model_profile";
   "voice"; "talkative_cooldown"; "reply_budget"; "spontaneity"; "participation"; "trends"; "contacts_disclosure"; "memes"; "polls";
   "group_reminders"; "decisions"; "reception_metrics"; "reception_tuning"; "session_history_limit"].

(** [ChatPolicy.model_validate] *)
Definition validate_policy (d : dict) : result ChatPolicy :=
  let! _ := forbid_extra CHAT_POLICY_FIELDS d in
  let! who_can_talk := valid_field "who_can_talk" (validate_rule WHO_CAN_TALK_MODES "everyone") (MkRule "everyone" []) d in
  let! when_to_reply := valid_field "when_to_reply" (validate_rule WHEN_TO_REPLY_MODES "all") (MkRule "all" []) d in
  let! blocked := valid_field "blocked_senders" validate_blocked [] d in
  let! tools := valid_field "allowed_tools" validate_tools (MkTools "all" [] []) d in
  let! access := valid_field "tool_access" (λ v, match v with JObj a => validate_access a | _ => Raise ValidationError end) [] d in
  let! persona_file := valid_field "persona_file" valid_opt_str None d in
  let! wake_phrases := valid_field "voice" validate_voice [] d in
  let! memes := valid_field "memes" valid_flag false d in
  let! polls := valid_field "polls" valid_flag false d in
  let! group_reminders := valid_field "group_reminders" valid_flag false d in
  let! decisions := valid_field "decisions" valid_flag false d in
  let! reception_metrics := valid_field "reception_metrics" valid_flag false d in
  let! reception_tuning := valid_field "reception_tuning" valid_flag false d in
  let! participation := valid_field "participation" validate_participation (filled []) d in
  Ok (MkChatPolicy who_can_talk when_to_reply blocked tools access persona_file wake_phrases memes polls group_reminders decisions
        reception_metrics reception_tuning participation).

(** The layers as [_compile] stacks them: every override is merged into the mapping so
    far, and the result is validated once. *)
Definition merge_layers (p : ChatPolicy) (layers : list ChatPolicyOverride) : dict :=
  foldl (λ d o, deep_merge d (dump_override o)) (dump_policy p) layers.

(** What the schema accepts of a policy whose fields have the declared types. *)
Definition rule_ok (modes : list string) (r : sender_rule) : bool := str_in (rule_mode r) modes.
Definition policy_ok (p : ChatPolicy) : bool :=
  rule_ok WHO_CAN_TALK_MODES (cp_who_can_talk p) && rule_ok WHEN_TO_REPLY_MODES (cp_when_to_reply p)
  && str_in (at_mode (cp_allowed_tools p)) ALLOWED_TOOLS_MODES
  && forallb (λ e, rule_ok TOOL_ACCESS_MODES e.2) (cp_tool_access p)
  && participation_ok (cp_participation p).

(** Either the policy or the refusal. *)
Definition accepted_if {A} (ok : bool) (a : A) : result A := if ok then Ok a else Raise ValidationError.

(** ** Mappings with the same keys *)

Lemma dict_set_keys k v d x : x ∈ map fst (dict_set k v d) ↔ x = k ∨ x ∈ map fst d.
Proof.
  induction d as [|[y z] d IH]; [set_solver|]. cbn. destruct (y =?s k) eqn:E; [apply str_eqb_eq in E as ->|]; set_solver.
Qed.
Lemma dict_set_known k v d : k ∈ map fst d → map fst (dict_set k v d) = map fst d.
Proof.
  induction d as [|[y z] d IH]; cbn; [set_solver|]. destruct (y =?s k) eqn:E; [done|]. intros [->|Hin]%elem_of_cons.
  - by rewrite str_eqb_refl in E.
  - cbn. by rewrite IH.
Qed.
Lemma dict_set_nodup k v d : NoDup (map fst d) → NoDup (map fst (dict_set k v d)).
Proof.
  induction d as [|[y z] d IH]; cbn; [intros; apply NoDup_singleton|]. intros [Hy Hnd]%NoDup_cons.
  destruct (y =?s k) eqn:E; cbn; apply NoDup_cons; [done|]. split; [|by apply IH]. rewrite dict_set_keys.
  apply str_eqb_neq in E. set_solver.
Qed.
Lemma merge_step_known fuel d e : e.1 ∈ map fst d → map fst (merge_step fuel d e) = map fst d.
Proof.
  intros He. unfold merge_step. destruct fuel, e.2; try by apply dict_set_known. destruct (dict_get e.1 d) as [[]|]; by apply dict_set_known.
Qed.
Lemma deep_merge_known b o : (∀ k, k ∈ map fst o → k ∈ map fst b) → map fst (deep_merge b o) = map fst b.
Proof.
  unfold deep_merge. rewrite deep_merge_fuel_eq. generalize (json_depth (JObj o)) as n. intros n. revert b.
  induction o as [|e o IH]; intros b Hk; [done|]. cbn [foldl]. assert (map fst (merge_step n b e) = map fst b) as Hs
    by (apply merge_step_known, Hk; set_solver). rewrite IH; [done|]. intros k Hin. rewrite Hs. apply Hk. set_solver.
Qed.

Lemma dict_ext d1 d2 : map fst d1 = map fst d2 → NoDup (map fst d1) → (∀ k, k ∈ map fst d1 → dict_get k d1 = dict_get k d2) → d1 = d2.
Proof.
  revert d2. induction d1 as [|[k v] d1 IH]; intros [|[k2 v2] d2]; try done. cbn. intros [= <- Hk] [Hn Hnd]%NoDup_cons Hg. f_equal.
  - specialize (Hg k). rewrite str_eqb_refl in Hg. assert (Some v = Some v2) by (apply Hg; set_solver). congruence.
  - apply IH; [done|done|]. intros x Hx. specialize (Hg x). destruct (k =?s x) eqn:E; [apply str_eqb_eq in E; set_solver|]. apply Hg. set_solver.
Qed.

(** The value a key has after a merge, when the base has one. *)
Definition merged_with (v : json) (ov : option json) : json := default v (merge_value (Some v) ov).

(** A merge that adds no key, entry by entry. *)
Lemma deep_merge_entries b o :
  NoDup (map fst b) → NoDup (map fst o) → (∀ k, k ∈ map fst o → k ∈ map fst b) →
  deep_merge b o = map (λ e, (e.1, merged_with e.2 (dict_get e.1 o))) b.
Proof.
  intros Hb Ho Hk. pose proof (deep_merge_known b o Hk) as Hkeys.
  apply dict_ext; [by rewrite Hkeys, map_map|by rewrite Hkeys|]. rewrite Hkeys. intros k Hin. rewrite deep_merge_get by done.
  clear Hkeys Hk. induction b as [|[x v] b IH]; [set_solver|]. cbn in *. apply NoDup_cons in Hb as [Hx Hb]. destruct (x =?s k) eqn:E.
  - apply str_eqb_eq in E as ->. rewrite String.eqb_refl. unfold merged_with. by destruct (dict_get k o) as [[]|], v.
  - change ((x =? k)%string) with (x =?s k). rewrite E. apply IH; [done|]. apply str_eqb_neq in E. set_solver.
Qed.

(** ** Each field *)

Ltac keys_differ := cbn [map fst]; apply (bool_decide_unpack _); by vm_compute.

Lemma present_nodup l : NoDup (map fst l) → NoDup (map fst (present l)).
Proof.
  induction l as [|[k [v|]] l IH]; cbn; [done| |]; intros [Hk Hnd]%NoDup_cons; [|by apply IH].
  apply NoDup_cons. split; [|by apply IH]. intros Hin. apply Hk. clear -Hin.
  induction l as [|[x [y|]] l IH]; cbn in *; set_solver.
Qed.
Lemma present_absent k l : k ∉ map fst l → dict_get k (present l) = None.
Proof.
  induction l as [|[y [z|]] l IH]; [done| |]; intros Hx; [|apply IH; set_solver].
  change ((if y =?s k then Some z else dict_get k (present l)) = None).
  destruct (y =?s k) eqn:E; [apply str_eqb_eq in E; set_solver|]. apply IH. set_solver.
Qed.
Lemma present_get k l : NoDup (map fst l) → dict_get k (present l) = by_id fst k l ≫= snd.
Proof.
  unfold by_id, fetchone. induction l as [|[x v] l IH]; [done|]. cbn [map fst]. intros [Hx Hnd]%NoDup_cons.
  specialize (IH Hnd). cbn [find]. change (has_id fst k (x, v)) with (x =?s k). destruct v as [v|].
  - change ((if x =?s k then Some v else dict_get k (present l)) = (if x =?s k then Some (x, Some v) else find (has_id fst k) l) ≫= snd).
    by destruct (x =?s k).
  - change (dict_get k (present l) = (if x =?s k then Some (x, None) else find (has_id fst k) l) ≫= snd).
    destruct (x =?s k) eqn:E; [|done]. apply str_eqb_eq in E as ->. by apply present_absent.
Qed.
Lemma present_keys k l : k ∈ map fst (present l) → k ∈ map fst l.
Proof. induction l as [|[x [y|]] l IH]; cbn; set_solver. Qed.

Lemma override_nodup o : NoDup (map fst (dump_override o)).
Proof. apply present_nodup. keys_differ. Qed.
Lemma override_get k o : dict_get k (dump_override o) = by_id fst k (override_fields o) ≫= snd.
Proof. apply present_get. keys_differ. Qed.

(** The dump of a policy whose tool rules are the mapping [a]. *)
Definition dump_over (a : dict) (p : ChatPolicy) : dict :=
  [("who_can_talk", JObj (dump_rule (cp_who_can_talk p)));
   ("when_to_reply", JObj (dump_rule (cp_when_to_reply p)));
   ("blocked_senders", JObj [("senders", dump_strs (cp_blocked_senders p))]);
   ("allowed_tools", JObj [("mode", JStr (at_mode (cp_allowed_tools p)));
      ("tools", dump_strs (at_tools (cp_allowed_tools p))); ("deny", dump_strs (at_deny (cp_allowed_tools p)))]);
   ("tool_access", JObj a);
   ("persona_file", from_option JStr JNull (cp_persona_file p));
   ("voice", JObj [("input", JObj [("wake_phrases", dump_strs (cp_wake_phrases p))])]);
   ("memes", JBool (cp_memes p)); ("polls", JBool (cp_polls p));
   ("group_reminders", JBool (cp_group_reminders p)); ("decisions", JBool (cp_decisions p));
   ("reception_metrics", JBool (cp_reception_metrics p)); ("reception_tuning", JBool (cp_reception_tuning p));
   ("participation", JObj (cp_participation p))].

Lemma rule_merged r o : deep_merge (dump_rule r) (dump_rule_override o) = dump_rule (merge_rule r (Some o)).
Proof. by destruct o as [[] []]. Qed.

Lemma flat_merged b o : Forall (λ e, is_obj e.2 = false) o → deep_merge b o = foldl (λ d '(k, v), dict_set k v d) b o.
Proof.
  unfold deep_merge. rewrite deep_merge_fuel_eq. generalize (json_depth (JObj o)) as n. intros n.
  revert b. induction o as [|[k v] o IH]; intros b Hf; [done|]. apply Forall_cons in Hf as [Hv Hf]. cbn [foldl].
  rewrite IH by done. f_equal. unfold merge_step. by destruct v, n.
Qed.

(** Participation settings are scalars. *)
Definition flat (o : ChatPolicyOverride) : Prop := Forall (λ e, is_obj e.2 = false) (default [] (co_participation o)).

Definition access_over (a : dict) (o : ChatPolicyOverride) : dict := deep_merge a (default [] (dump_access_override <$> co_tool_access o)).

(** One layer on a dumped policy: the dump of the overridden one. *)
Lemma layer_merged a p o : flat o → deep_merge (dump_over a p) (dump_override o) = dump_over (access_over a o) (apply_override p o).
Proof.
  intros Hf. rewrite deep_merge_entries; [|keys_differ|apply override_nodup|].
  2: { intros k Hin%present_keys. cbn in Hin |- *. set_solver. }
  unfold dump_over. cbn [map fst snd]. rewrite !override_get.
  unfold by_id, fetchone. cbn [override_fields find]. unfold has_id. cbn [fst]. simpl (_ =?s _). cbn [mbind option_bind snd].
  unfold apply_override. cbn [cp_who_can_talk cp_when_to_reply cp_blocked_senders cp_allowed_tools cp_tool_access cp_persona_file
    cp_wake_phrases cp_memes cp_polls cp_group_reminders cp_decisions cp_reception_metrics cp_reception_tuning cp_participation].
  repeat (f_equal; [f_equal|]).
  - destruct (co_who_can_talk o) as [r|]; [|done]. exact (f_equal JObj (rule_merged _ r)).
  - destruct (co_when_to_reply o) as [r|]; [|done]. exact (f_equal JObj (rule_merged _ r)).
  - by destruct (co_blocked_senders o) as [[s|]|].
  - by destruct (co_allowed_tools o) as [[[] [] []]|].
  - unfold access_over. by destruct (co_tool_access o).
  - by destruct (co_persona_file o).
  - by destruct (co_wake_phrases o).
  - by destruct (co_memes o).
  - by destruct (co_polls o).
  - by destruct (co_group_reminders o).
  - by destruct (co_decisions o).
  - by destruct (co_reception_metrics o).
  - by destruct (co_reception_tuning o).
  - do 2 f_equal. unfold flat in Hf. destruct (co_participation o) as [w|]; [|done]. exact (f_equal JObj (flat_merged _ w Hf)).
Qed.

(** ** Tool rules *)

Lemma dict_get_known k d : dict_get k d ≠ None → k ∈ map fst d.
Proof.
  induction d as [|[x v] d IH]; [done|]. unfold dict_get. destruct (x =?s k) eqn:E; [apply str_eqb_eq in E as ->; set_solver|].
  intros Hk%IH. set_solver.
Qed.

(** A mapping that says the rule: no other key, and what is missing is the default. *)
Definition says (d : dict) (r : sender_rule) : Prop :=
  (∀ k, dict_get k d ≠ None → k ∈ ["mode"; "senders"]) ∧
  default (JStr "everyone") (dict_get "mode" d) = JStr (rule_mode r) ∧
  default (JArr []) (dict_get "senders" d) = dump_strs (rule_senders r).

Lemma says_dump r : says (dump_rule r) r.
Proof.
  split; [|done]. intros k. apply dict_get_known.
Qed.
Lemma says_nothing : says [] default_rule.
Proof. done. Qed.

Lemma rule_override_nodup o : NoDup (map fst (dump_rule_override o)).
Proof. apply present_nodup. keys_differ. Qed.

Lemma says_merged d r o : says d r → says (deep_merge d (dump_rule_override o)) (merge_rule r (Some o)).
Proof.
  intros (Hk & Hm & Hs). unfold says. setoid_rewrite deep_merge_get; [|apply rule_override_nodup..]. split.
  - intros k Hin. destruct (dict_get k (dump_rule_override o)) as [v|] eqn:E; [|by apply Hk].
    apply (present_keys k [("mode", JStr <$> ro_mode o); ("senders", dump_strs <$> ro_senders o)]), dict_get_known.
    fold (dump_rule_override o). by rewrite E.
  - destruct o as [[m|] [s|]]; cbn in *; done.
Qed.

Lemma valid_items_dump l : valid_items (map JStr l) = Ok l.
Proof. induction l as [|s l IH]; [done|]. cbn in *. by rewrite IH. Qed.
Lemma valid_strs_dump l : valid_strs (dump_strs l) = Ok l.
Proof. apply valid_items_dump. Qed.

Lemma entry_known k v (d : dict) : (k, v) ∈ d → dict_get k d ≠ None.
Proof.
  induction d as [|[x y] d IH]; [set_solver|]. cbn. intros [[= -> ->]|Hin]%elem_of_cons; [by rewrite String.eqb_refl|].
  destruct (x =?s k); [done|by apply IH].
Qed.

(** Reading such a mapping: the rule, or the refusal of its mode. *)
Lemma says_valid d r : says d r → validate_rule TOOL_ACCESS_MODES "everyone" (JObj d) = accepted_if (rule_ok TOOL_ACCESS_MODES r) r.
Proof.
  intros (Hk & Hm & Hs). unfold validate_rule, valid_model, forbid_extra.
  assert (forallb (λ e, str_in e.1 ["mode"; "senders"]) d = true) as ->.
  { apply forallb_forall. intros [k v] Hin%list_elem_of_In. apply str_in_spec. by eapply Hk, entry_known. }
  unfold rule_ok, valid_field. destruct r as [mode senders]. cbn [rule_mode rule_senders] in *.
  destruct (dict_get "mode" d) as [v|]; cbn in Hm; subst; [|injection Hm as <-];
    (destruct (dict_get "senders" d) as [w|]; cbn in Hs; [subst|destruct senders; [|done]]); cbn [rbind valid_mode valid_str];
    try rewrite valid_strs_dump; unfold accepted_if; try by destruct (str_in mode _).
  all: done.
Qed.

(** A mapping of tools that says the rules of a policy, tool by tool. *)
Definition says_access (a : dict) (l : list (string * sender_rule)) : Prop :=
  NoDup (map fst a) ∧ Forall2 (λ e f, e.1 = f.1 ∧ ∃ d, e.2 = JObj d ∧ says d f.2) a l.

Lemma says_access_dump l : NoDup (map fst l) → says_access (dump_access l) l.
Proof.
  intros Hnd. split; [unfold dump_access; by rewrite map_map|]. clear Hnd.
  induction l as [|[t r] l IH]; constructor; [|done]. split; [done|]. eexists. split; [done|apply says_dump].
Qed.

Lemma says_access_keys a l : says_access a l → map fst l = map fst a.
Proof. intros [_ H]. induction H as [|e f a l [He _] _ IH]; [done|]. cbn. by rewrite IH, He. Qed.

Lemma access_here k r l o :
  k ∉ map fst l → merge_access_entry ((k, r) :: l) (k, o) = (k, merge_rule r (Some o)) :: l.
Proof.
  intros Hk. unfold merge_access_entry, row_exists, has_id, update. cbn [existsb map fst snd]. rewrite str_eqb_refl. cbn [orb]. f_equal.
  apply (update_none (has_id fst k)). intros [x r'] Hx. apply str_eqb_neq. cbn. intros ->. apply Hk.
  apply list_elem_of_fmap. by exists (k, r').
Qed.

Lemma access_there y k r l o :
  y ≠ k → merge_access_entry ((y, r) :: l) (k, o) = (y, r) :: merge_access_entry l (k, o).
Proof.
  intros Hk%str_eqb_neq. unfold merge_access_entry, row_exists, has_id, update. cbn [existsb map fst]. rewrite Hk. cbn [orb].
  by destruct (existsb _ l).
Qed.

(** One tool of the override on the mapping: its rule merged into what is there. *)
Lemma access_merge_step fuel b k o :
  (json_depth (JObj (dump_rule_override o)) < fuel)%nat →
  merge_step fuel b (k, JObj (dump_rule_override o)) =
    dict_set k (JObj (deep_merge (match dict_get k b with Some (JObj c) => c | _ => [] end) (dump_rule_override o))) b.
Proof.
  intros Hf. unfold merge_step. cbn [fst snd]. destruct fuel as [|fuel]; [lia|].
  assert (deep_merge [] (dump_rule_override o) = dump_rule_override o) as Hnil by (by destruct o as [[?|] [?|]]).
  destruct (dict_get k b) as [[| | | | | |c]|]; rewrite ?Hnil; try done.
  unfold deep_merge. by rewrite (deep_merge_fuel_enough (json_depth (JObj (dump_rule_override o)))) by lia.
Qed.

Lemma says_access_set a l k o :
  says_access a l →
  says_access (dict_set k (JObj (deep_merge (match dict_get k a with Some (JObj c) => c | _ => [] end) (dump_rule_override o))) a)
    (merge_access_entry l (k, o)).
Proof.
  intros [Hnd Hr]. split; [by apply dict_set_nodup|]. induction Hr as [|[y v] [t r] a l [Ht (d & Hv & Hd)] Hr IH].
  - repeat constructor. eexists. split; [done|]. apply says_merged, says_nothing.
  - cbn in Ht, Hv, Hd, Hnd. subst. apply NoDup_cons in Hnd as [Hy Hnd]. cbn [dict_get dict_set]. destruct (t =?s k) eqn:E.
    + apply str_eqb_eq in E as ->. rewrite access_here.
      * constructor; [|done]. split; [done|]. eexists. split; [done|]. by apply says_merged.
      * by rewrite (says_access_keys a l) by done.
    + rewrite access_there by (by apply str_eqb_neq). constructor; [|by apply IH]. split; [done|]. by eexists.
Qed.

Lemma access_merged a l o :
  says_access a l → says_access (deep_merge a (dump_access_override o)) (foldl merge_access_entry l o).
Proof.
  unfold deep_merge. rewrite deep_merge_fuel_eq.
  assert (∀ e, e ∈ o → (json_depth (JObj (dump_rule_override e.2)) < json_depth (JObj (dump_access_override o)))%nat) as Hd.
  { intros e He. apply (depth_entry e.1). apply list_elem_of_fmap. by exists e. }
  generalize dependent (json_depth (JObj (dump_access_override o))). intros n Hd.
  revert a l. induction o as [|[k r] o IH]; intros a l Ha; [done|]. cbn [dump_access_override map foldl fst snd].
  rewrite access_merge_step by (apply (Hd (k, r)); set_solver).
  apply IH; [intros; apply Hd; set_solver|]. by apply says_access_set.
Qed.

Lemma says_access_valid a l :
  says_access a l → validate_access a = accepted_if (forallb (λ e, rule_ok TOOL_ACCESS_MODES e.2) l) l.
Proof.
  intros [_ Hr]. induction Hr as [|[y v] [t r] a l [Ht (d & Hv & Hd)] _ IH]; [done|]. cbn in Ht, Hv, Hd. subst.
  cbn [validate_access forallb snd]. rewrite (says_valid d r Hd), IH. unfold accepted_if.
  destruct (rule_ok _ r), (forallb _ l); done.
Qed.

(** ** Participation *)

(** A mapping that has every field, unless it has one that the schema does not know. *)
Definition whole (d : dict) : Prop :=
  forallb (λ e, str_in e.1 (map fst PARTICIPATION_SCHEMA)) d = true → map fst d = map fst PARTICIPATION_SCHEMA.

Lemma known_set fields k v d :
  forallb (λ e, str_in e.1 fields) (dict_set k v d) = str_in k fields && forallb (λ e, str_in e.1 fields) d.
Proof.
  induction d as [|[x y] d IH]; [done|]. cbn [dict_set]. destruct (x =?s k) eqn:E; cbn [forallb fst].
  - apply str_eqb_eq in E as ->. by destruct (str_in k fields).
  - rewrite IH. by destruct (str_in x fields), (str_in k fields).
Qed.

Lemma whole_set k v d : whole d → whole (dict_set k v d).
Proof.
  unfold whole. rewrite known_set. intros Hw [Hk Hd]%andb_true_iff. specialize (Hw Hd). apply str_in_spec in Hk.
  rewrite dict_set_known; [done|]. by rewrite Hw.
Qed.

Lemma whole_over d w : whole d → whole (foldl (λ d '(k, v), dict_set k v d) d w).
Proof. revert d. induction w as [|[k v] w IH]; intros d Hd; [done|]. cbn. by apply IH, whole_set. Qed.

Lemma fill_get (S : list (string * field_kind)) d k :
  k ∈ map fst S → dict_get k d ≠ None →
  dict_get k (map (λ f, (f.1, default (field_default f.2) (dict_get f.1 d))) S) = dict_get k d.
Proof.
  intros Hk Hd. induction S as [|[x y] S IH]; [set_solver|]. cbn [map fst snd dict_get]. destruct (x =?s k) eqn:E.
  - apply str_eqb_eq in E as ->. by destruct (dict_get k d).
  - apply IH. apply str_eqb_neq in E. set_solver.
Qed.

(** Filling a mapping that has every field changes nothing. *)
Lemma filled_whole d : map fst d = map fst PARTICIPATION_SCHEMA → filled d = d.
Proof.
  intros Hk. assert (map fst (filled d) = map fst PARTICIPATION_SCHEMA) as Hf by (unfold filled; by rewrite map_map).
  apply dict_ext; rewrite Hf; [done|keys_differ|]. intros k Hin. apply fill_get; [done|]. rewrite <- Hk in Hin. clear -Hin.
  apply list_elem_of_fmap in Hin as ([x v] & -> & Hin). by eapply entry_known.
Qed.

Lemma participation_valid_whole d : whole d → validate_participation (JObj d) = accepted_if (participation_ok d) d.
Proof.
  intros Hw. unfold validate_participation, accepted_if. destruct (participation_ok d) eqn:E; [|done].
  rewrite filled_whole; [done|]. apply Hw. unfold participation_ok in E. by apply andb_true_iff in E as [[]%andb_true_iff _].
Qed.

(** ** The whole policy *)

(** Validating what a policy dumps to, with its tool rules said by any mapping: the
    policy, or the refusal of what the schema does not accept. *)
Lemma dump_valid a p :
  says_access a (cp_tool_access p) → whole (cp_participation p) →
  validate_policy (dump_over a p) = accepted_if (policy_ok p) p.
Proof.
  intros Ha%says_access_valid Hw%participation_valid_whole. unfold validate_policy.
  destruct p as [[wm ws] [rm rs] bs [tm ts td] ta pf ph me po gr de rm1 rt pa]. unfold policy_ok, rule_ok.
  cbn [cp_who_can_talk cp_when_to_reply cp_blocked_senders cp_allowed_tools cp_tool_access cp_persona_file
    cp_wake_phrases cp_memes cp_polls cp_group_reminders cp_decisions cp_reception_metrics cp_reception_tuning cp_participation
    rule_mode rule_senders at_mode at_tools at_deny] in *.
  cbn -[valid_strs dump_strs str_in validate_access validate_participation forallb accepted_if].
  rewrite Ha, Hw, !valid_strs_dump.
  assert (valid_opt_str (from_option JStr JNull pf) = Ok pf) as -> by (by destruct pf). unfold accepted_if, rule_ok.
  destruct (str_in wm _); [|done]. destruct (str_in rm _); [|done]. destruct (str_in tm _); [|done].
  destruct (forallb _ ta); [|done]. by destruct (participation_ok pa).
Qed.

Lemma merged_valid p layers a :
  says_access a (cp_tool_access p) → whole (cp_participation p) → Forall flat layers →
  validate_policy (foldl (λ d o, deep_merge d (dump_override o)) (dump_over a p) layers) =
    accepted_if (policy_ok (foldl apply_override p layers)) (foldl apply_override p layers).
Proof.
  revert p a. induction layers as [|o layers IH]; intros p a Ha Hw Hf; [by apply dump_valid|].
  apply Forall_cons in Hf as [Ho Hf]. cbn [foldl]. rewrite layer_merged by done. apply IH; [|by apply whole_over|done].
  cbn [cp_tool_access apply_override]. unfold access_over, merge_access. destruct (co_tool_access o); [by apply access_merged|done].
Qed.

(** C26: Merging mappings is overriding fields, refusals included. However many layers are
    stacked on complete global defaults, validating the merged mapping accepts it exactly
    when the policy overridden field by field is one the schema accepts (its modes among the
    allowed ones, its participation settings known, within their bounds, the guidance no
    longer than 4,000 characters and the reserve no larger than the quota), and yields that
    policy, in which each layer has replaced exactly the fields it sets: scalars and lists
    whole, rules and tool lists part by part, tool rules per tool (a new tool's rule starting
    from the schema's defaults), participation settings one by one. *)
Theorem merge_equals_override p layers :
  NoDup (map fst (cp_tool_access p)) → map fst (cp_participation p) = map fst PARTICIPATION_SCHEMA →
  Forall flat layers →
  let overridden := foldl apply_override p layers in
  validate_policy (merge_layers p layers) = accepted_if (policy_ok overridden) overridden.
Proof.
  intros Hnd Hp Hf. exact (merged_valid p layers _ (says_access_dump _ Hnd) (λ _, Hp) Hf).
Qed.

(** The defaults of the house with every participation setting. *)
Definition complete_defaults : ChatPolicy :=
  MkChatPolicy (MkRule "everyone" []) (MkRule "all" []) [] (MkTools "all" [] ["shell"]) [] None [] false false false
    false false false (filled (cp_participation house_defaults)).

(** A chat's tool rule, stacked on a channel default that only sets its senders. *)
Definition layered_channel : ChatPolicyOverride :=
  MkChatOverride None None None None (Some [("poll", MkRuleOverride None (Some ["491111"]))]) None None None None None
    None None None None.

Definition layered_chat : ChatPolicyOverride :=
  MkChatOverride None None (Some (Some ["491555"])) None (Some [("poll", MkRuleOverride (Some "allowlist") None)]) None
    None None None None None None None (Some [("enabled", JBool true)]).

(** Two layers that are fine each and refused together: the reserve of one exceeds the
    quota of the other. *)
Definition quota_channel : ChatPolicyOverride :=
  MkChatOverride None None None None None None None None None None None None None
    (Some [("max_unaddressed_judge_calls_per_hour", JInt 3)]).
Definition reserve_chat : ChatPolicyOverride :=
  MkChatOverride None None None None None None None None None None None None None
    (Some [("continuation_judge_reserve", JInt 4)]).

Lemma layers_flat : Forall flat [layered_channel; layered_chat] ∧ Forall flat [quota_channel; reserve_chat].
Proof. by repeat constructor. Qed.

Lemma merge_equals_override_witness :
  cp_tool_access <$> (match validate_policy (merge_layers complete_defaults [layered_channel; layered_chat]) with
    Ok p => Some p | Raise _ => None end) = Some [("poll", MkRule "allowlist" ["491111"])] ∧
  validate_policy (merge_layers complete_defaults [quota_channel; reserve_chat]) = Raise ValidationError.
Proof.
  pose proof (merge_equals_override complete_defaults [layered_channel; layered_chat]) as H.
  pose proof (merge_equals_override complete_defaults [quota_channel; reserve_chat]) as H'.
  cbv zeta in H, H'. rewrite H, H'; [split; vm_compute; reflexivity|apply NoDup_nil_2|reflexivity|apply layers_flat|
    apply NoDup_nil_2|reflexivity|apply layers_flat].
Defined.

(** A key the schema does not know is refused. *)
Example unknown_setting_refused :
  validate_policy (merge_layers complete_defaults [MkChatOverride None None None None None None None None None None None
    None None (Some [("enable", JBool true)])]) = Raise ValidationError.
Proof. by vm_compute. Qed.
