(* ===== verification/Authorizer.v ===== *)
(** * Authorizer

    The final check of [processing/policy.py] that stands between a queued effect and the
    transport: [effect_guard], [PolicyCapabilityResolver] over the policy engine,
    [SnapshotEffectAuthorizer] with its turn revision and participation checks, and
    [ParticipationEffectAuthorizer] of [processing/participation_runtime.py]. It is an
    instance of the gateway's [EffectAuthorizer] interface.

    What the authorizer is given from outside is in [Authorizer]: the policy snapshot, the
    loaded engine with its cache, the known tools, the clock, the id of the decision, and
    the participation wiring. The request builder and a callable checker are arguments of
    the constructor, so they are fields. *)

From Stdlib Require Import ZArith Lia.
From S2P Require Import Prelude Tables Json Models Schema Outbox OutboxFacts OutboxSpec OutboxRefine Fixtures ThreadStore ThreadProps Gateway.
From S2P Require Import Registry Identity PolicyEngine.

Definition TRANSPORT_CAPABILITIES : list string := ["send_text"; "send_media"; "send_reaction"].
Definition TOOL_CAPABILITIES : list (string * string) :=
  [("send_voice", "send_voice"); ("delete_message", "delete_message"); ("forward_message", "forward_message");
   ("message", "message")].
Definition EXTERNAL_CAPABILITIES : list (string * string) := [].
Definition PARTICIPATION_IMAGE_ACTIONS : list string := ["meme"; "sticker"].

(** [effect_guard] *)
Definition effect_guard (policy_healthy permitted revision_matches unexpired : bool) : string :=
  if negb policy_healthy then "policy_unhealthy"
  else if negb revision_matches then "superseded"
  else if negb unexpired then "expired"
  else if negb permitted then "permission_denied"
  else "allow".

(** [PolicySnapshot] *)
Record PolicySnapshot := MkSnapshot {
  ps_version : string;
  ps_policy_hash : string;
  ps_healthy : bool;
}.

(** [_is_group_chat] *)
Definition is_group_chat (chat_id : string) : bool := py_endswith "@g.us" chat_id.

(** [PolicyCapabilityResolver._actor] *)
Definition resolver_actor (principal : string) (target : EffectTarget) : ActorContext :=
  {| ac_channel := tgt_channel target; ac_chat_id := tgt_chat_id target; ac_sender_primary := principal;
     ac_sender_aliases := []; ac_is_group := is_group_chat (tgt_chat_id target); ac_mentioned_bot := true;
     ac_reply_to_bot := true; ac_content := ""; ac_is_voice := false |}.

(** The tool a capability needs, if the capability is known. *)
Definition capability_tool (capability : string) : option string :=
  match snd <$> by_id fst capability TOOL_CAPABILITIES with
  | Some tool => Some tool
  | None => snd <$> by_id fst capability EXTERNAL_CAPABILITIES
  end.

(** An admission as loaded: its attributes. *)
Abbreviation stored_admission := dict.

(** [ParticipationAuthorizationRequest] *)
Record ParticipationAuthorizationRequest := MkAuthRequest {
  pr_admission : option stored_admission;
  pr_lane : string;
  pr_is_paused : option string;
  pr_is_shadow : bool;
  pr_feature_enabled : bool;
  pr_opted_in : bool;
  pr_current_epoch : Z;
  pr_source_authorized : bool;
  pr_effect_id : string;
  pr_reservation_state : option string;
  pr_payload_hash : string;
  pr_expected_payload_hash : string;
  pr_source_principals_authorized : bool;
}.

(** [str(getattr(admission, name, "") or "")] *)
Definition admission_str (name : string) (a : stored_admission) : string := str_or_empty (dict_get name a).

(** [admission.activation_epoch], an integer *)
Definition admission_epoch (a : stored_admission) : option Z :=
  match dict_get "activation_epoch" a with Some (JInt z) => Some z | _ => None end.

(** [ParticipationEffectAuthorizer.check] *)
Definition participation_check (r : ParticipationAuthorizationRequest) : bool * string :=
  let a := default [] (pr_admission r) in
  let hash_missing := negb (str_true (pr_payload_hash r)) || negb (str_true (pr_expected_payload_hash r)) in
  if pr_is_shadow r || (pr_lane r =?s "shadow") then (false, "shadow_lane")
  else if negb (pr_lane r =?s "production") ||
          negb (match dict_get "lane" a with Some (JStr l) => l =?s "production" | _ => false end)
  then (false, "admission_lane_mismatch")
  else if negb (pr_feature_enabled r) then (false, "feature_disabled")
  else if negb (pr_opted_in r) then (false, "chat_not_opted_in")
  else if negb (bool_decide (admission_epoch a = Some (pr_current_epoch r))) then (false, "epoch_changed")
  else if str_true (default "" (pr_is_paused r)) then (false, default "" (pr_is_paused r))
  else if negb (pr_source_authorized r) then (false, "source_not_authorized")
  else if negb (pr_source_principals_authorized r) then (false, "source_principal_not_authorized")
  else match pr_reservation_state r with
  | None => (false, "no_reservation")
  | Some st =>
      if negb (st =?s "submitted") then
        if negb (str_in st ["failed"; "cancelled"; "expired"]) then (false, "reservation_not_submitted")
        else (false, "reservation_" +:+ st)
      else if hash_missing then (false, "payload_hash_missing")
      else if negb (pr_payload_hash r =?s pr_expected_payload_hash r) then (false, "payload_hash_mismatch")
      else (true, "allow")
  end.

(** What a callable checker answers. *)
Inductive checker_answer :=
| AnswerTuple (allowed : bool) (detail : string)
| AnswerBool (allowed : bool)
| AnswerOther.

(** How participation is wired: [admission_loader], [participation_authorizer] and
    [participation_request_builder] of the constructor. *)
Inductive participation_wiring :=
| Unwired
| AuthorizerWithoutBuilder
| RequestBuilder (build : EffectEnvelope → stored_admission → result ParticipationAuthorizationRequest)
| CallableChecker (checker : EffectEnvelope → stored_admission → result checker_answer).

Record Authorizer := MkAuthorizer {
  az_snapshot : PolicySnapshot;
  az_engine : option PolicyEngine;
  az_cache : policy_cache;
  az_known_tools : gset string;
  az_turn_lookup : bool;
  az_now : Z;
  az_decision_id : string;
  az_participation : participation_wiring;
}.

(** [str(exc)] *)
Definition error_text (e : py_error) : string :=
  match e with
  | ValueError m | TypeError m | ProcessingError m | JournalConflictError m | EffectConflictError m
  | InvalidTransitionError m | TurnStateError m | IntegrityError m | IndexError m | EffectPayloadRejectedError m
  | EffectNotDeliveredError m | ParticipationPreDispatchDenied m | OtherError _ m => m
  | CancelledError => ""
  end.

(** The attributes of [ParticipationAdmission], and those without a default. *)
Definition ADMISSION_REQUIRED : list string :=
  ["opportunity_id"; "channel"; "chat_id"; "activation_epoch"; "lane"; "observed_revision"; "action"; "intent"].
Definition ADMISSION_FIELDS : list string :=
  ADMISSION_REQUIRED ++
  ["purpose"; "emoji"; "target_message_id"; "anchor_message_id"; "admission_id"; "source_event_ids";
   "source_principals"; "policy_version"; "policy_hash"; "arbitration_revision"; "contribution_type";
   "payload_hash"; "approval_revision"; "knowledge_evidence"; "knowledge_evidence_digest"].

(** [get_participation_admission]: the constructor takes exactly its own keywords *)
Definition get_participation_admission (admission_id : string) (s : db) : result (option stored_admission) :=
  match by_id adm_admission_id admission_id (participation_admissions s) with
  | None => Ok None
  | Some row =>
      let values := adm_payload_json row in
      if match dict_get "knowledge_evidence" values with
         | None | Some JNull | Some (JObj _) => false
         | _ => true
         end
      then Raise (ProcessingError "stored participation admission evidence is not an object")
      else if negb (forallb (λ e, str_in e.1 ADMISSION_FIELDS) values)
      then Raise (TypeError "got an unexpected keyword argument")
      else if negb (forallb (λ k, dict_has k values) ADMISSION_REQUIRED)
      then Raise (TypeError "missing required positional arguments")
      else Ok (Some values)
  end.

(** [turn_lookup] of [ThreadRegistry] *)
Definition turn_lookup (turn_id : string) (s : db) : result (option TurnRef) :=
  match get_turn turn_id s with
  | None => Ok None
  | Some turn =>
      match get_thread (tu_thread_id turn) s with
      | None => Ok None
      | Some th => let! r := turn_to_ref turn (th_channel th) (th_chat_id th) in Ok (Some r)
      end
  end.

Section Authorizer.
  Context `{Sha256}.
  (** [str.isalnum] of one character *)
  Context (is_alnum : string → bool).

(** [PolicyCapabilityResolver.resolve] *)
Definition resolve_capability (az : Authorizer) (principal : string) (target : EffectTarget) (capability : string)
    : result (bool * string) :=
  match az_engine az with
  | None => Ok (false, "policy_unavailable")
  | Some engine =>
      let! decision := (evaluate is_alnum engine (resolver_actor principal target) (az_known_tools az) (az_cache az)).1 in
      if negb (pd_accept_message decision) then Ok (false, "permission_denied")
      else if str_in capability TRANSPORT_CAPABILITIES then Ok (true, "allow")
      else match capability_tool capability with
      | None => Ok (false, "unmapped_capability:" +:+ capability)
      | Some tool =>
          if bool_decide (tool ∈ pd_allowed_tools decision) then Ok (true, "allow")
          else Ok (false, "capability_denied:" +:+ tool)
      end
  end.

(** [operator_check] *)
Definition operator_check (engine : option PolicyEngine) (principal channel chat_id : string) : bool :=
  match engine with
  | None => false
  | Some e =>
      str_true principal &&
      owner_match e (resolver_actor principal (MkTarget channel chat_id None None))
  end.

(** [_revision_matches] *)
Definition revision_matches (az : Authorizer) (e : EffectEnvelope) (current : option TurnRef) (s : db)
    : result (bool * string) :=
  let! turn :=
    match current with
    | Some t => Ok (Some t)
    | None => if az_turn_lookup az && str_true (env_turn_id e) then turn_lookup (env_turn_id e) s else Ok None
    end in
  match turn with
  | None => Ok (if str_true (env_turn_id e) then (false, "turn_state_unavailable") else (true, "no_turn_claim"))
  | Some t =>
      Ok (if negb (tr_turn_id t =?s env_turn_id e) then (false, "turn_mismatch")
          else if negb (tr_revision t =? env_turn_revision e) then (false, "revision_stale")
          else if is_some (tr_closed_ms t) then (false, "turn_closed")
          else (true, "match"))
  end.

(** [_participation_request_reason]; a request of the type has all its attributes *)
Definition participation_request_reason (e : EffectEnvelope) (r : ParticipationAuthorizationRequest) : string :=
  if match pr_admission r with
     | None => true
     | Some a => negb (bool_decide (env_admission_id e = Some (admission_str "admission_id" a)))
     end
  then "participation_request_admission_mismatch"
  else if negb (pr_effect_id r =?s env_effect_id e) then "participation_request_effect_mismatch"
  else if negb (str_true (pr_payload_hash r)) || negb (str_true (pr_expected_payload_hash r))
  then "participation_request_payload_hash_missing"
  else if negb (pr_payload_hash r =?s pr_expected_payload_hash r) ||
          negb (pr_payload_hash r =?s payload_hash (env_payload e))
  then "participation_request_payload_mismatch"
  else if negb (pr_source_principals_authorized r) then "participation_source_principal_not_authorized"
  else if negb (bool_decide (pr_reservation_state r = Some "submitted")) then "participation_reservation_not_submitted"
  else "allow".

(** The actions an admission may have for a payload. *)
Definition expected_actions (p : EffectPayload) : list string :=
  match p with
  | ReactionPayload _ _ _ _ => ["react"]
  | MediaPayload _ _ => PARTICIPATION_IMAGE_ACTIONS
  | _ => ["comment"]
  end.

(** The checks of a reaction's target and emoji. *)
Definition reaction_reason (p : EffectPayload) (a : stored_admission) : option string :=
  match p with
  | ReactionPayload message_id emoji _ _ =>
      if negb (str_true (admission_str "target_message_id" a)) ||
         negb (admission_str "target_message_id" a =?s message_id)
      then Some "participation_reaction_target_mismatch"
      else if negb (admission_str "emoji" a =?s emoji) then Some "participation_reaction_emoji_mismatch"
      else None
  | _ => None
  end.

(** The call of the checker at the end of [_participation_reason]. *)
Definition checker_reason (w : participation_wiring) (e : EffectEnvelope) (a : stored_admission) : string :=
  let denied := λ exc, "participation_denied:" +:+ String.substring 0 160 (error_text exc) in
  match w with
  | Unwired | AuthorizerWithoutBuilder => "participation_authorizer_unwired"
  | RequestBuilder build =>
      match build e a with
      | Raise exc => denied exc
      | Ok request =>
          let reason := participation_request_reason e request in
          if negb (reason =?s "allow") then reason
          else let (allowed, detail) := participation_check request in
               if allowed then "allow" else "participation_denied:" +:+ detail
      end
  | CallableChecker checker =>
      match checker e a with
      | Raise exc => denied exc
      | Ok (AnswerTuple allowed detail) => if allowed then "allow" else "participation_denied:" +:+ detail
      | Ok (AnswerBool allowed) => if allowed then "allow" else "participation_denied"
      | Ok AnswerOther => "participation_authorizer_invalid"
      end
  end.

(** [_participation_reason] *)
Definition participation_reason (w : participation_wiring) (e : EffectEnvelope) (s : db) : string :=
  if negb (str_in (env_origin e) ["legacy"; "participation"]) then "unsupported_effect_origin"
  else if env_origin e =?s "legacy" then
    match env_admission_id e with None => "allow" | Some _ => "participation_admission_mismatch" end
  else let admission_id := default "" (env_admission_id e) in
  if negb (str_true admission_id) then "participation_admission_missing"
  else match w with
  | Unwired => "participation_authorizer_unwired"
  | _ =>
  match get_participation_admission admission_id s with
  | Raise _ => "participation_admission_unavailable"
  | Ok None => "participation_admission_missing"
  | Ok (Some a) =>
      if negb (opt_truthy (dict_get "admission_id" a)) then "participation_admission_identity_missing"
      else if negb (admission_str "admission_id" a =?s admission_id) then "participation_admission_mismatch"
      else if negb (admission_str "channel" a =?s tgt_channel (env_target e)) ||
              negb (admission_str "chat_id" a =?s tgt_chat_id (env_target e))
      then "participation_target_mismatch"
      else if negb (str_true (admission_str "payload_hash" a)) then "participation_payload_hash_missing"
      else if negb (admission_str "payload_hash" a =?s payload_hash (env_payload e))
      then "participation_payload_mismatch"
      else if negb (str_true (admission_str "action" a)) then "participation_action_missing"
      else if negb (str_true (admission_str "intent" a)) then "participation_intent_missing"
      else if negb (str_in (admission_str "action" a) (expected_actions (env_payload e)))
      then "participation_action_mismatch"
      else match reaction_reason (env_payload e) a with
           | Some reason => reason
           | None => checker_reason w e a
           end
  end
  end.

(** [SnapshotEffectAuthorizer.check] *)
Definition check (az : Authorizer) (e : EffectEnvelope) (current : option TurnRef) (s : db) : result DecisionRecord :=
  let healthy := ps_healthy (az_snapshot az) in
  let! permission :=
    if healthy then resolve_capability az (env_principal e) (env_target e) (env_capability e)
    else Ok (false, "policy_unhealthy") in
  let! revision := revision_matches az e current s in
  let unexpired := match env_expires_at_ms e with None => true | Some t => az_now az <? t end in
  let guard := effect_guard healthy permission.1 revision.1 unexpired in
  let reason := if guard =?s "allow" then participation_reason (az_participation az) e s else guard in
  let detail :=
    if reason =?s "allow" then "allow"
    else if reason =?s "permission_denied" then reason +:+ ":" +:+ permission.2
    else if reason =?s "superseded" then reason +:+ ":" +:+ revision.2
    else reason in
  DecisionRecord_check
    {| dec_decision_id := az_decision_id az; dec_trace_id := env_trace_id e;
       dec_policy_version := ps_version (az_snapshot az); dec_policy_hash := ps_policy_hash (az_snapshot az);
       dec_principal := env_principal e; dec_target := target_key (env_target e);
       dec_capability := env_capability e; dec_turn_revision := env_turn_revision e;
       dec_outcome := if reason =?s "allow" then "allow" else "deny"; dec_reason := detail;
       dec_created_ms := az_now az; dec_stage := "final"; dec_effect_id := Some (env_effect_id e) |}.

(** The gateway asks without a turn of its own: [authorizer.check(envelope, None)]. *)
Definition snapshot_authorizer (az : Authorizer) : EffectAuthorizer := λ e s, check az e None s.

(** ** What an allowed effect has behind it *)

(** The chat's rules let the principal have the effect. *)
Definition rules_permit (p : PolicyConfig) (apply : option (gset string)) (known_tools : gset string) (e : EffectEnvelope)
    : Prop :=
  let engine := PolicyEngine_init is_alnum p apply in
  let a := resolver_actor (env_principal e) (env_target e) in
  let c := compile_chat_policy is_alnum (ac_channel a) (chat_layer p (ac_channel a) (ac_chat_id a)) (owners_of p (ac_channel a)) in
  let tool_ok := λ tools : gset string,
    env_capability e ∈ TRANSPORT_CAPABILITIES ∨
    ∃ tool, capability_tool (env_capability e) = Some tool ∧ tool ∈ tools in
  if decide (ac_channel a ∈ pe_apply_channels engine)
  then actor_match a (cm_blocked_senders c) = false ∧ (evaluate_who_can_talk engine a c).1 = true ∧
       tool_ok (if (evaluate_when_to_reply is_alnum engine a c).1 then resolve_allowed_tools engine a c known_tools else ∅)
  else tool_ok known_tools.

(** The turn it belongs to, if any, is open and still at the revision it was made for. *)
Definition turn_current (e : EffectEnvelope) (s : db) : Prop :=
  env_turn_id e = "" ∨
  ∃ turn th, get_turn (env_turn_id e) s = Some turn ∧ get_thread (tu_thread_id turn) s = Some th ∧
    tu_revision turn = env_turn_revision e ∧ tu_closed_ms turn = None.

(** The admission on record is for this target, this payload and this kind of action. *)
Definition admission_covers (e : EffectEnvelope) (s : db) (a : stored_admission) : Prop :=
  ∃ id, env_admission_id e = Some id ∧ id ≠ "" ∧ get_participation_admission id s = Ok (Some a) ∧
    admission_str "admission_id" a = id ∧
    admission_str "channel" a = tgt_channel (env_target e) ∧ admission_str "chat_id" a = tgt_chat_id (env_target e) ∧
    admission_str "payload_hash" a = payload_hash (env_payload e) ∧ payload_hash (env_payload e) ≠ "" ∧
    admission_str "action" a ∈ expected_actions (env_payload e) ∧ admission_str "intent" a ≠ "" ∧
    reaction_reason (env_payload e) a = None.

(** ** Facts *)

(** What the engine decides does not depend on its cache. *)
Lemma evaluate_layered p apply a tools cache :
  let engine := PolicyEngine_init is_alnum p apply in
  cache_ok engine cache →
  (evaluate is_alnum engine a tools cache).1 =
    Ok (if decide (ac_channel a ∈ pe_apply_channels engine)
        then decide_under is_alnum engine a tools
               (compile_chat_policy is_alnum (ac_channel a) (chat_layer p (ac_channel a) (ac_chat_id a)) (owners_of p (ac_channel a)))
        else MkPolicyDecision true true tools None "policy_not_applied").
Proof.
  cbv zeta. intros Hc. unfold evaluate. case_decide as Ha; [|by rewrite bool_decide_eq_false_2].
  rewrite bool_decide_eq_true_2 by done. cbn [negb].
  pose proof (resolve_cached _ (ac_channel a) (ac_chat_id a) cache Hc) as [Hr _].
  rewrite (lookup_layered is_alnum p apply) in Hr by (cbn in Ha; set_solver).
  unfold pbind. destruct (resolve_compiled_policy _ _ _ cache) as [r cache']. cbn [fst] in Hr. by subst r.
Qed.

Lemma capability_cases (capability : string) (tools : gset string) :
  ∃ permitted reason,
    (if str_in capability TRANSPORT_CAPABILITIES then Ok (true, "allow")
     else match capability_tool capability with
          | None => Ok (false, "unmapped_capability:" +:+ capability)
          | Some tool =>
              if bool_decide (tool ∈ tools) then Ok (true, "allow") else Ok (false, "capability_denied:" +:+ tool)
          end) = Ok (permitted, reason) ∧
    (permitted = true ↔
       capability ∈ TRANSPORT_CAPABILITIES ∨ ∃ tool, capability_tool capability = Some tool ∧ tool ∈ tools).
Proof.
  destruct (str_in _ _) eqn:E.
  { apply str_in_spec in E. do 2 eexists. split; [done|]. naive_solver. }
  apply not_true_iff_false in E. rewrite str_in_spec in E.
  destruct (capability_tool capability) as [tool|]; [|do 2 eexists; split; [done|]; naive_solver].
  destruct (bool_decide _) eqn:Et; [apply bool_decide_eq_true in Et|apply bool_decide_eq_false in Et];
    do 2 eexists; (split; [done|]); naive_solver.
Qed.

(** [resolve] grants exactly what the rules permit. *)
Lemma resolve_permits az p apply e :
  az_engine az = Some (PolicyEngine_init is_alnum p apply) → cache_ok (PolicyEngine_init is_alnum p apply) (az_cache az) →
  ∃ permitted reason,
    resolve_capability az (env_principal e) (env_target e) (env_capability e) = Ok (permitted, reason) ∧
    (permitted = true ↔ rules_permit p apply (az_known_tools az) e).
Proof.
  intros He Hc. unfold resolve_capability, rules_permit. rewrite He, evaluate_layered by done. cbn [rbind].
  set (a := resolver_actor _ _). case_decide as Ha; [|apply capability_cases].
  set (c := compile_chat_policy _ _ _ _).
  destruct (decide_under_cases is_alnum (PolicyEngine_init is_alnum p apply) a (az_known_tools az) c) as (H1 & H2 & H3).
  destruct (pd_accept_message _) eqn:Eacc; cbn [negb].
  - destruct (proj1 H1 eq_refl) as [Hb Hw]. rewrite H3.
    assert (pd_should_respond (decide_under is_alnum (PolicyEngine_init is_alnum p apply) a (az_known_tools az) c) =
      (evaluate_when_to_reply is_alnum (PolicyEngine_init is_alnum p apply) a c).1) as ->
      by (apply eq_true_iff_eq; rewrite H2; naive_solver).
    destruct (capability_cases (env_capability e) (if (evaluate_when_to_reply is_alnum (PolicyEngine_init is_alnum p apply) a c).1
      then resolve_allowed_tools (PolicyEngine_init is_alnum p apply) a c (az_known_tools az) else ∅)) as (b & r & Hr & Hb').
    exists b, r. split; [exact Hr|]. rewrite Hb'. tauto.
  - do 2 eexists. split; [done|]. split; [done|]. intros (Hb & Hw & _). exfalso.
    assert (false = true) by (apply H1; done). done.
Qed.

Lemma get_turn_key turn_id s turn : get_turn turn_id s = Some turn → tu_turn_id turn = turn_id.
Proof. intros Ht. by apply by_id_Some_inv in Ht as [_ ?]. Qed.

(** Turns in the store carry positive revisions. *)
Lemma revision_current az e s ok reason :
  az_turn_lookup az = true → revision_matches az e None s = Ok (ok, reason) → ok = true ↔ turn_current e s.
Proof.
  intros Hl. unfold revision_matches, turn_current, turn_lookup. rewrite Hl. cbn [andb].
  destruct (str_true (env_turn_id e)) eqn:Et; cbn [rbind].
  2:{ intros [= <- <-]. apply not_true_iff_false in Et. rewrite str_true_spec in Et.
      split; [|done]. intros _. left. by destruct (decide (env_turn_id e = "")). }
  apply str_true_spec in Et.
  destruct (get_turn (env_turn_id e) s) as [turn|] eqn:Eg; cbn [rbind]; [|intros [= <- <-]; naive_solver].
  destruct (get_thread (tu_thread_id turn) s) as [th|] eqn:Eh; cbn [rbind]; [|intros [= <- <-]; naive_solver].
  unfold turn_to_ref, TurnRef_init. destruct (_ <? 1); cbn [rbind]; [done|].
  cbn [tr_turn_id tr_revision tr_closed_ms]. rewrite (get_turn_key _ _ _ Eg), str_eqb_refl. cbn [negb].
  destruct (tu_revision turn =? env_turn_revision e) eqn:Er; cbn [negb].
  2:{ apply Z.eqb_neq in Er. intros [= <- <-]. naive_solver. }
  apply Z.eqb_eq in Er. destruct (tu_closed_ms turn) as [c|] eqn:Ecl; cbn [is_some]; intros [= <- <-]; naive_solver.
Qed.

(** A chain of refusals that ended in [allow] passed every guard. *)
Ltac pass_guards H :=
  repeat match type of H with
  | (if ?b then _ else _) = "allow" => let E := fresh "Hg" in destruct b eqn:E; [discriminate H|]
  end;
  repeat match goal with
  | E : negb _ = false |- _ => apply negb_false_iff in E
  | E : _ || _ = false |- _ => apply orb_false_iff in E as [? ?]
  | E : str_in _ _ = true |- _ => apply str_in_spec in E
  | E : (_ =?s _) = true |- _ => apply str_eqb_eq in E
  | E : str_true _ = true |- _ => apply str_true_spec in E
  end.

Lemma admission_id_truthy a : opt_truthy (dict_get "admission_id" a) = false → admission_str "admission_id" a = "".
Proof. unfold admission_str, str_or_empty, opt_truthy. destruct (dict_get _ _) as [v|]; [|done]. by intros ->. Qed.

Lemma admission_allows w e s :
  env_origin e = "participation" →
  participation_reason w e s = "allow" ↔ ∃ a, admission_covers e s a ∧ checker_reason w e a = "allow".
Proof.
  intros Ho. unfold participation_reason, admission_covers. rewrite Ho. change (str_in "participation" _) with true.
  change ("participation" =?s "legacy") with false. cbn [negb]. split.
  - intros Hx. destruct (str_true (default "" (env_admission_id e))) eqn:Ei; cbn [negb] in Hx; [|done].
    destruct (env_admission_id e) as [id|]; [change (default "" (Some id)) with id in *|done]. apply str_true_spec in Ei.
    destruct (get_participation_admission id s) as [[a|]|err] eqn:Ha; [|destruct w; discriminate Hx..].
    exists a.
    assert (match reaction_reason (env_payload e) a with Some reason => reason | None => checker_reason w e a end = "allow"
      ∧ admission_str "admission_id" a = id ∧ admission_str "channel" a = tgt_channel (env_target e)
      ∧ admission_str "chat_id" a = tgt_chat_id (env_target e) ∧ admission_str "payload_hash" a = payload_hash (env_payload e)
      ∧ admission_str "payload_hash" a ≠ "" ∧ admission_str "action" a ∈ expected_actions (env_payload e)
      ∧ admission_str "intent" a ≠ "") as (Hc & H1 & H2 & H3 & H4 & H5 & H6 & H7)
      by (destruct w; [done|pass_guards Hx; repeat split; done..]).
    assert (reaction_reason (env_payload e) a = None) as Hr.
    { unfold reaction_reason in *. destruct (env_payload e); try done. by repeat destruct (negb _). }
    rewrite Hr in Hc. split; [|done]. exists id. rewrite <- H4. done.
  - intros (a & (id & Hid & Hne & Ha & H1 & H2 & H3 & H4 & H5 & H6 & H7 & H8) & Hw).
    rewrite Hid. change (default "" (Some id)) with id. rewrite (proj2 (str_true_spec id)) by done. cbn [negb].
    rewrite Ha, H1, H2, H3, H4, H8, !str_eqb_refl.
    rewrite (proj2 (str_true_spec _) H5), (proj2 (str_true_spec _) H7), (proj2 (str_in_spec _ _) H6).
    rewrite (proj2 (str_true_spec (admission_str "action" a))) by (intros E; rewrite E in H6; destruct (env_payload e); set_solver).
    destruct (opt_truthy (dict_get "admission_id" a)) eqn:Et; [|apply admission_id_truthy in Et; congruence].
    cbn [negb orb]. destruct w; [done|done..].
Qed.

Lemma participation_allows w e s :
  participation_reason w e s = "allow" ↔
  (env_origin e = "legacy" ∧ env_admission_id e = None) ∨
  (env_origin e = "participation" ∧ ∃ a, admission_covers e s a ∧ checker_reason w e a = "allow").
Proof.
  destruct (decide (env_origin e = "participation")) as [Ho|Ho].
  { rewrite admission_allows by done. rewrite Ho. naive_solver. }
  unfold participation_reason. destruct (decide (env_origin e = "legacy")) as [->|Hl].
  - change (str_in "legacy" _) with true. change ("legacy" =?s "legacy") with true. cbn [negb].
    destruct (env_admission_id e); naive_solver.
  - destruct (str_in _ _) eqn:E; [apply str_in_spec in E; set_solver|]. cbn [negb]. naive_solver.
Qed.

Lemma guard_allows h p r u : effect_guard h p r u = "allow" ↔ h = true ∧ p = true ∧ r = true ∧ u = true.
Proof. destruct h, p, r, u; naive_solver. Qed.

Lemma decision_check_inv d d' : DecisionRecord_check d = Ok d' → d' = d.
Proof. unfold DecisionRecord_check. repeat (destruct (negb _); [done|]). destruct (_ <? 1); [done|]. destruct (negb _); congruence. Qed.

(** Everything an allowed effect must have. *)
Definition authorized (az : Authorizer) (p : PolicyConfig) (apply : option (gset string)) (e : EffectEnvelope) (s : db) : Prop :=
  ps_healthy (az_snapshot az) = true ∧ rules_permit p apply (az_known_tools az) e ∧ turn_current e s ∧
  (∀ t, env_expires_at_ms e = Some t → az_now az < t) ∧
  ((env_origin e = "legacy" ∧ env_admission_id e = None) ∨
   (env_origin e = "participation" ∧
    ∃ a, admission_covers e s a ∧ checker_reason (az_participation az) e a = "allow")).

(** Out of [queued] into a refusal. *)
Lemma transition_from_queued e t now ev s row :
  outbox_inv s → effect_row_of e s = Some row → eff_state row = queued → t ∈ [blocked; cancelled; expired] →
  (transition e ["queued"] (state_str t) now ev None s).1 = Ok true ∧
  effect_state e (transition e ["queued"] (state_str t) now ev None s).2 = Some t.
Proof.
  intros Hi Hrow Hq Ht.
  destruct (transition_cases e ["queued"] (state_str t) now ev None s) as [[_ Hne]|(row' & t' & Hr' & _ & Heq & _ & Hx)];
    [apply Hi| |].
  - exfalso. apply Hne. unfold transition, write. rewrite Hrow, Hq. change (str_in (state_str queued) ["queued"]) with true.
    cbn [negb]. set (kinds := evidence_kinds _).
    assert (validate_transition (state_str queued) (state_str t) kinds None (eff_lease_owner row) = Ok tt) as ->.
    { apply validate_transition_ok. split; [cbn; set_solver|]. split; [done|]. intros _ [|]; done. }
    cbn [rbind]. rewrite state_of_str_of. cbn [default]. rewrite (guarded_rowcount _ _ row); [done|apply Hi|done|done].
  - rewrite Hx. split; [done|]. apply state_str_inj in Heq as <-. by eapply (effect_state_moved e row' t now s).
Qed.

(** After a bump the turn is one revision further. *)
Lemma bumped_revision turn rev t0 s0 ref s :
  bump_turn_revision turn rev t0 s0 = (Ok ref, s) → 1 ≤ rev →
  ∃ t th, get_turn turn s = Some t ∧ get_thread (tu_thread_id t) s = Some th ∧ tu_revision t = rev + 1.
Proof.
  intros Hb Hrev. unfold bump_turn_revision, pbind, write in Hb.
  destruct (get_turn turn s0) as [t|] eqn:Et; [|done]. destruct (get_thread (tu_thread_id t) s0) as [th|] eqn:Eth; [|done].
  destruct (str_in (tu_state t) _) eqn:Est; [done|]. destruct (tu_revision t =? rev) eqn:Er; cbn [negb] in Hb; [|done].
  apply Z.eqb_eq in Er. unfold get_turn at 1 in Hb. cbn [turns set_field] in Hb.
  rewrite (bumped_turn turn rev t0 s0 t) in Hb by done. cbv beta iota in Hb. injection Hb as _ <-.
  exists (revised t t0), th. split; [by apply bumped_turn|]. split; [done|]. cbn. lia.
Qed.

Section Wired.
  (** The engine is the one built from the loaded policy, and its cache is its own. *)
  Context (az : Authorizer) (p : PolicyConfig) (apply : option (gset string)).
  Hypothesis Hengine : az_engine az = Some (PolicyEngine_init is_alnum p apply).
  Hypothesis Hcache : cache_ok (PolicyEngine_init is_alnum p apply) (az_cache az).
  Hypothesis Hlookup : az_turn_lookup az = true.

Lemma check_exact e s d : check az e None s = Ok d → dec_outcome d = "allow" ↔ authorized az p apply e s.
Proof.
  unfold check, authorized.
  destruct (resolve_permits az p apply e Hengine Hcache) as (permitted & preason & Hres & Hperm). rewrite Hres.
  destruct (ps_healthy _) eqn:Eh; cbn [rbind].
  - destruct (revision_matches az e None s) as [[ok rreason]|] eqn:Er; cbn [rbind fst]; [|done].
    pose proof (revision_current az e s ok rreason Hlookup Er) as Hrev.
    set (unexp := match env_expires_at_ms e with None => _ | Some t => _ end).
    assert (unexp = true ↔ ∀ t, env_expires_at_ms e = Some t → az_now az < t) as Hexp.
    { unfold unexp. destruct (env_expires_at_ms e) as [t|]; [rewrite Z.ltb_lt; split; [intros ?? [= <-]; done|auto]|done]. }
    set (reason := if effect_guard _ _ _ _ =?s "allow" then _ else _). intros ->%decision_check_inv. cbn [dec_outcome].
    assert (reason = "allow" ↔ effect_guard true permitted ok unexp = "allow" ∧
      participation_reason (az_participation az) e s = "allow") as Hreason.
    { unfold reason. destruct (effect_guard _ _ _ _ =?s "allow") eqn:Eg.
      - apply str_eqb_eq in Eg. split; [intros Hp; by split|by intros [_ ?]].
      - apply str_eqb_neq in Eg. split; [done|by intros [? _]]. }
    rewrite guard_allows, participation_allows in Hreason.
    destruct (reason =?s "allow") eqn:Ere; [apply str_eqb_eq in Ere|apply str_eqb_neq in Ere].
    + split; [intros _|done]. destruct (proj1 Hreason Ere) as ((_ & H1 & H2 & H3) & H4). tauto.
    + split; [done|]. intros (_ & H1 & H2 & H3 & H4). exfalso. apply Ere, Hreason. tauto.
  - destruct (revision_matches az e None s) as [[ok rreason]|] eqn:Er; cbn [rbind fst]; [|done].
    intros ->%decision_check_inv. split; [intros Hd; vm_compute in Hd; discriminate Hd|intros [Hd _]; discriminate Hd].
Qed.

(** C2: An effect reaches the transport only with the policy's consent at that moment. When
    the gateway goes on to call the executor, the loaded policy was healthy; its rules, as
    layered for the chat, let the effect's principal speak there and use what the
    capability needs; the effect's turn was open and still at the revision the effect was
    made for; the deadline had not passed; and an effect that claims to be a
    participation is covered by a stored admission for exactly this chat, payload and
    action that passed the participation check, while any other carries no admission. *)
Theorem dispatched_effect_authorized g e now uuid s d s' :
  execute_begin (H0 := snapshot_authorizer az) g e now uuid s = (Ok (inr d), s') →
  authorized az p apply (dsp_envelope d) s.
Proof.
  intros Hx. destruct (execute_begin_dispatch (H0 := snapshot_authorizer az) _ _ _ _ _ _ _ Hx) as
    (_ & st & dec & s1 & _ & _ & _ & _ & Ha & Ho & _). by apply (check_exact _ _ _ Ha).
Qed.

(** A queued effect that the check denies goes to the state of the reason. *)
Lemma denied_effect g e now uuid s stored env dec i s1 t :
  outbox_inv s → gw_wired g = true → get_effect e s = Ok (Some stored) → se_state stored = queued →
  (∀ t, se_expires_at_ms stored = Some t → now < t) → to_envelope stored = Ok env →
  check az env None s = Ok dec → dec_outcome dec ≠ "allow" → record_decision dec s = (Ok i, s1) →
  state_for_reason (dec_reason dec) = state_str t → t ∈ [blocked; cancelled; expired] →
  let out := execute_begin (H0 := snapshot_authorizer az) g e now uuid s in
  effect_state e out.2 = Some t ∧ ∀ d, out.1 ≠ Ok (inr d).
Proof.
  intros Hi Hw Hg Hq Hexp Henv Hc Hd Hr Hst Ht. cbv zeta.
  assert (∃ s2, effect_state e s2 = Some t ∧ execute_begin (H0 := snapshot_authorizer az) g e now uuid s =
    pbind (receipt e (state_str t) (se_operation_key stored) None (Some (dec_reason dec))) (λ r, pret (inl r)) s2)
    as (s2 & Hs2 & ->).
  2:{ rewrite pbind_frame, receipt_frame by done. split; [done|]. intros d. unfold pbind, pret.
      destruct (receipt _ _ _ _ _ s2) as [[r|err] s3]; cbn [fst]; congruence. }
  unfold execute_begin. rewrite Hw. cbn [negb].
  unfold pbind at 1, pread at 1. rewrite Hg, Hq.
  destruct (match se_expires_at_ms stored with Some t => t <=? now | None => false end) eqn:Ee.
  { exfalso. destruct (se_expires_at_ms stored) as [x|]; [|done]. specialize (Hexp _ eq_refl). lia. }
  unfold pbind at 1, pread at 1. rewrite Henv. unfold pbind at 1, pread at 1.
  change (authorize env s) with (check az env None s). rewrite Hc. unfold pbind at 1. rewrite Hr.
  rewrite (proj2 (str_eqb_neq _ _) Hd). cbn [negb]. rewrite Hst.
  destruct (record_decision_frame dec s) as [Hf1 Hf2]. rewrite Hr in Hf1, Hf2. cbn [snd] in Hf1, Hf2.
  assert (outbox_inv s1) as Hi1 by (by eapply outbox_inv_ext).
  destruct (get_effect_inv _ _ _ Hg) as (row & Hrow & Hfr).
  assert (effect_row_of e s1 = Some row) as Hrow1 by (unfold effect_row_of in *; by rewrite Hf1).
  assert (eff_state row = queued) as Hrq by (destruct (effect_from_row_inv _ _ Hfr) as (_ & _ & Hs & _); congruence).
  destruct (transition_from_queued e t now (evidence_map "policy" (dec_reason dec)) s1 row Hi1 Hrow1 Hrq Ht) as [Htr Hts].
  unfold pbind at 1. destruct (transition _ _ _ _ _ _ s1) as [r s2]. cbn [fst snd] in Htr, Hts. subst r. by exists s2.
Qed.

(** A revised turn takes its queued effects with it. Once the revision of a turn has been
    bumped, an effect that was queued for the old revision is never handed to the
    transport: whatever the policy says about it, the gateway cancels it. *)
Theorem revised_turn_cancels g e turn rev t0 now uuid s0 ref s stored env :
  outbox_inv s → gw_wired g = true →
  bump_turn_revision turn rev t0 s0 = (Ok ref, s) → 1 ≤ rev →
  get_effect e s = Ok (Some stored) → se_state stored = queued →
  (∀ t, se_expires_at_ms stored = Some t → now < t) → to_envelope stored = Ok env →
  env_turn_id env = turn → turn ≠ "" → env_turn_revision env = rev →
  ps_healthy (az_snapshot az) = true → ps_version (az_snapshot az) ≠ "" → ps_policy_hash (az_snapshot az) ≠ "" →
  az_decision_id az ≠ "" → by_id dec_decision_id (az_decision_id az) (decisions s) = None →
  let out := execute_begin (H0 := snapshot_authorizer az) g e now uuid s in
  effect_state e out.2 = Some cancelled ∧ ∀ d, out.1 ≠ Ok (inr d).
Proof.
  intros Hi Hw Hb Hrev1 Hg Hq Hexp Henv Htid Htne Hrev Hh Hv Hph Hid Hfresh.
  destruct (bumped_revision turn rev t0 s0 ref s Hb Hrev1) as (turn' & th & Hturn & Hth & Hnew).
  assert (revision_matches az env None s = Ok (false, "revision_stale")) as Hstale.
  { unfold revision_matches, turn_lookup. rewrite Hlookup, Htid, (proj2 (str_true_spec _) Htne). cbn [andb].
    rewrite Hturn, Hth. unfold turn_to_ref, TurnRef_init. rewrite Hnew.
    rewrite (proj2 (Z.ltb_ge (rev + 1) 1)) by lia. cbn [rbind tr_turn_id tr_revision].
    rewrite (get_turn_key _ _ _ Hturn), str_eqb_refl, Hrev. cbn [negb].
    by rewrite (proj2 (Z.eqb_neq (rev + 1) rev)) by lia. }
  destruct (resolve_permits az p apply env Hengine Hcache) as (permitted & preason & Hres & _).
  assert (∃ dec, check az env None s = Ok dec ∧ dec_outcome dec = "deny" ∧ dec_reason dec = "superseded:revision_stale" ∧
    dec_decision_id dec = az_decision_id az) as (dec & Hc & Hdo & Hdr & Hdi).
  { unfold check. rewrite Hh, Hres. cbn [rbind]. rewrite Hstale. cbn [rbind fst snd].
    change (effect_guard true permitted false _) with "superseded". unfold DecisionRecord_check.
    cbn [dec_policy_version dec_policy_hash dec_decision_id dec_turn_revision].
    rewrite (proj2 (str_true_spec _) Hv), (proj2 (str_true_spec _) Hph), (proj2 (str_true_spec _) Hid), Hrev.
    rewrite (proj2 (Z.ltb_ge rev 1)) by lia. cbn [negb]. by eexists. }
  assert (∃ i s1, record_decision dec s = (Ok i, s1)) as (i & s1 & Hr).
  { unfold record_decision, write. rewrite Hdi, Hfresh. by do 2 eexists. }
  apply (denied_effect g e now uuid s stored env dec i s1 cancelled Hi Hw Hg Hq Hexp Henv Hc); [|done| |set_solver].
  - by rewrite Hdo.
  - by rewrite Hdr.
Qed.

End Wired.

End Authorizer.

(** ** Witnesses *)
#[local] Existing Instance plain_sha256.

(** A reply by text in the house group, for the open turn of [chat_db]. *)
Definition reply_envelope : EffectEnvelope :=
  {| env_effect_id := "e1"; env_operation_key := "op1"; env_payload := hello_payload;
     env_target := MkTarget "whatsapp" "c" None None; env_trace_id := "t"; env_turn_id := chat_turn; env_turn_revision := 1;
     env_principal := "492222"; env_capability := "send_text"; env_expires_at_ms := Some 5000;
     env_policy_version := Some "v1"; env_policy_hash := Some "h"; env_created_ms := Some 100;
     env_origin := "legacy"; env_admission_id := None |}.

Definition reply_db : db := (enqueue_effect (args_of_envelope reply_envelope 100 "legacy" None) "queued" chat_db).2.

Definition house_authorizer : Authorizer :=
  MkAuthorizer (MkSnapshot "v1" "h" true) (Some house_engine) ∅ {["poll"; "message"]} true 200 "d1" Unwired.

Lemma house_cache : cache_ok house_engine (az_cache house_authorizer).
Proof. intros ch ct c Hx. discriminate Hx. Qed.

Lemma reply_db_inv : outbox_inv reply_db.
Proof.
  assert (outbox_inv chat_db) as Hi by (apply (outbox_inv_ext empty_db); [by vm_compute|by vm_compute|apply outbox_inv_empty]).
  destruct (enqueue_effect_prog (args_of_envelope reply_envelope 100 "legacy" None) "queued" chat_db Hi) as (ls & Hs & _).
  by eapply outbox_steps_inv, Hi.
Qed.

Lemma reply_dispatches :
  ∃ d s', execute_begin (H0 := snapshot_authorizer ascii_alnum house_authorizer) worker "e1" 200 "a1" reply_db = (Ok (inr d), s').
Proof. do 2 eexists. by vm_compute. Qed.

Lemma dispatched_effect_authorized_witness :
  ∃ d s', execute_begin (H0 := snapshot_authorizer ascii_alnum house_authorizer) worker "e1" 200 "a1" reply_db = (Ok (inr d), s') ∧
    authorized ascii_alnum house_authorizer house_policy (Some {["whatsapp"]}) (dsp_envelope d) reply_db.
Proof.
  destruct reply_dispatches as (d & s' & Hx). exists d, s'. split; [exact Hx|].
  exact (dispatched_effect_authorized ascii_alnum house_authorizer house_policy (Some {["whatsapp"]}) eq_refl house_cache eq_refl
    worker "e1" 200 "a1" reply_db d s' Hx).
Defined.

Definition revised_db : db := (bump_turn_revision chat_turn 1 150 reply_db).2.

Lemma revised_db_inv : outbox_inv revised_db.
Proof. apply (outbox_inv_ext reply_db); [by vm_compute|by vm_compute|apply reply_db_inv]. Qed.

Lemma revised_ref : ∃ ref, bump_turn_revision chat_turn 1 150 reply_db = (Ok ref, revised_db).
Proof. eexists. by vm_compute. Qed.

Lemma revised_effect :
  ∃ stored env, get_effect "e1" revised_db = Ok (Some stored) ∧ se_state stored = queued ∧
    se_expires_at_ms stored = Some 5000 ∧ to_envelope stored = Ok env ∧ env_turn_id env = chat_turn ∧ env_turn_revision env = 1.
Proof. do 2 eexists. repeat split; by vm_compute. Qed.

Lemma revised_turn_cancels_witness :
  effect_state "e1" (execute_begin (H0 := snapshot_authorizer ascii_alnum house_authorizer) worker "e1" 200 "a1" revised_db).2
  = Some cancelled.
Proof.
  destruct revised_ref as [ref Hb]. destruct revised_effect as (stored & env & Hg & Hq & He & Henv & Ht & Hr).
  refine (proj1 (revised_turn_cancels ascii_alnum house_authorizer house_policy (Some {["whatsapp"]}) eq_refl house_cache eq_refl
    worker "e1" chat_turn 1 150 200 "a1" reply_db ref revised_db stored env revised_db_inv eq_refl Hb _ Hg Hq _ Henv Ht _ Hr
    eq_refl _ _ _ eq_refl)); [lia| |done..].
  intros t Hx. rewrite He in Hx. injection Hx as <-. lia.
Defined.
