(* ===== verification/IngestGate.v ===== *)
(** * IngestGate

    [IngestGate] of [processing/policy.py]: journal and fast policy before any enrichment,
    the reply actions, the ambient brake, the direct fence, and the last admission of a
    reply.

    The gate is composed with a store. What its constructor is given is in [IngestGate]:
    the configuration, the thread registry, the policy evaluation, the participation
    owner, the direct classifier and fence callbacks, the source registrar and the
    continuation resolver, and [contains_bot_name] of [implicit_addressing.py]. What it
    keeps in memory is in [gate_world] beside the store: the ambient brake state per chat
    and the ambient messages waiting for a verdict. Logging is left out. *)

From Stdlib Require Import ZArith Lia.
From S2P Require Import Prelude Tables Json Models Schema Outbox OutboxFacts OutboxSpec OutboxRefine ThreadStore Journal.
From S2P Require Import Authority Routing Registry Identity PolicyEngine Authorizer.

(** ** Events *)

(** [InboundEvent] of [core/models.py] *)
Record InboundEvent := MkInbound {
  ie_channel : string;
  ie_chat_id : string;
  ie_sender_id : string;
  ie_content : string;
  ie_message_id : option string;
  ie_timestamp_ms : Z;
  ie_is_group : bool;
  ie_mentioned_bot : bool;
  ie_reply_to_bot : bool;
  ie_reply_to_message_id : option string;
  ie_reply_to_participant : option string;
  ie_reply_to_text : option string;
  ie_media : list string;
  ie_raw_metadata : dict;
}.

#[export] Instance eta_inbound : Updatable InboundEvent :=
  λ e, MkInbound (ie_channel e) (ie_chat_id e) (ie_sender_id e) (ie_content e) (ie_message_id e) (ie_timestamp_ms e)
    (ie_is_group e) (ie_mentioned_bot e) (ie_reply_to_bot e) (ie_reply_to_message_id e) (ie_reply_to_participant e)
    (ie_reply_to_text e) (ie_media e) (ie_raw_metadata e).

(** [IngestRequest] *)
Record IngestRequest := MkIngest {
  in_event_key : string;
  in_event_id : string;
  in_trace_id : string;
  in_event : InboundEvent;
  in_payload_extra : dict;
}.

(** [FastGateOutcome] *)
Inductive FastGateOutcome := Deny | Observe | React.

(** [FastGateResult] *)
Record FastGateResult := MkFastGate {
  fg_outcome : FastGateOutcome;
  fg_reason : string;
  fg_snapshot : PolicySnapshot;
  fg_decision : DecisionRecord;
  fg_policy_decision : option PolicyDecision;
  fg_journaled_event_id : string;
  fg_shadow : bool;
  fg_assignment : option JoinDecision;
  fg_reply_action : string;
  fg_react : bool;
  fg_ambient_candidate : bool;
  fg_direct_admitted : bool;
  fg_direct_turn_id : option string;
  fg_arbitration_revision : Z;
  fg_continuation_anchor_id : option string;
}.

(** [ContinuationAnchor] of [processing/continuation.py] *)
Record ContinuationAnchor := MkAnchor {
  can_message_id : string;
  can_effect_id : string;
  can_text : string;
  can_source : CanonicalEvent;
  can_thread_id : option string;
  can_confirmed_ms : Z;
}.

#[export] Instance json_eq_dec : EqDecision json.
Proof.
  refine (fix IH (a b : json) {struct a} : Decision (a = b) :=
    match a, b with
    | JNull, JNull => left eq_refl
    | JBool x, JBool y => cast_if (decide (x = y))
    | JInt x, JInt y => cast_if (decide (x = y))
    | JFloat x, JFloat y => cast_if (decide (x = y))
    | JStr x, JStr y => cast_if (decide (x = y))
    | JArr x, JArr y => cast_if (@list_eq_dec json IH x y)
    | JObj x, JObj y => cast_if (@list_eq_dec (string * json) (@prod_eq_dec string _ json IH) x y)
    | _, _ => right _
    end); abstract congruence.
Defined.

#[export] Instance canonical_event_eq_dec : EqDecision CanonicalEvent.
Proof. solve_decision. Defined.

#[export] Instance anchor_eq_dec : EqDecision ContinuationAnchor.
Proof. solve_decision. Defined.

(** What the gate asks of a continuation resolver. *)
Record Continuation := MkContinuation {
  ct_candidates : CanonicalEvent → list string → Z → bool → db → result (list ContinuationAnchor);
  ct_bind : ContinuationAnchor → string → Z → prog db unit;
}.

(** The gate's part of [ProcessingConfig]. *)
Record GateConfig := MkGateConfig {
  gc_enabled : bool;
  gc_chats : list string;
  gc_shadow_chats : list string;
  gc_reply_actions : list (string * string);
  gc_ambient_chats : list string;
  gc_min_seconds_between_answers : Z;
  gc_min_messages_since_answer : Z;
}.

Record IngestGate := MkIngestGate {
  ig_config : GateConfig;
  ig_threads : option ThreadRegistry;
  ig_evaluate : IngestRequest → result PolicyDecision;
  ig_participation_owns : option (string → string → result bool);
  ig_direct_classifier : option (IngestRequest → PolicyDecision → JoinDecision → result bool);
  ig_note_direct_admission : option (string → string → string → string → Z → prog db Z);
  ig_cancel_chat : option (string → string → prog db bool);
  ig_source_registrar : option (string → prog db bool);
  ig_continuation : option Continuation;
  ig_names_bot : string → bool;
}.

(** The store, the ambient brake per chat (messages, last answer) and the pending ambient
    messages in insertion order. *)
Record gate_world := MkGateWorld {
  gt_store : db;
  gt_ambient : gmap string (Z * Z);
  gt_pending : list (string * Z);
}.

#[export] Instance eta_gate_world : Updatable gate_world :=
  λ w, MkGateWorld (gt_store w) (gt_ambient w) (gt_pending w).

(** A store call of the gate. *)
Definition on_gate {A} (p : prog db A) : prog gate_world A :=
  λ w, let (r, s) := p (gt_store w) in (r, w <| gt_store := s |>).

Definition modify_gate (f : gate_world → gate_world) : prog gate_world unit := λ w, (Ok tt, f w).

(** [try: x = call() except Exception: x = fallback]; what the call wrote stays written *)
Definition or_else {A} (p : prog gate_world A) (fallback : A) : prog gate_world A :=
  λ w, match p w with
       | (Ok a, w') => (Ok a, w')
       | (Raise CancelledError, w') => (Raise CancelledError, w')
       | (Raise _, w') => (Ok fallback, w')
       end.

(** [except Exception as exc: raise ProcessingError(msg)] *)
Definition or_fail {A} (p : prog gate_world A) (msg : string) : prog gate_world A :=
  λ w, match p w with
       | (Ok a, w') => (Ok a, w')
       | (Raise CancelledError, w') => (Raise CancelledError, w')
       | (Raise _, w') => (Raise (ProcessingError msg), w')
       end.

(** ** Chats and actions *)

Definition chat_key (channel chat_id : string) : string := channel +:+ ":" +:+ chat_id.

(** [f"{channel}:{chat_id}" in {entry.strip() for entry in entries if entry.strip()}] *)
Definition listed (entries : list string) (channel chat_id : string) : bool :=
  str_in (chat_key channel chat_id) (List.filter str_true (map py_strip entries)).

(** [enabled_for] *)
Definition enabled_for (g : IngestGate) (channel chat_id : string) : bool :=
  gc_enabled (ig_config g) && listed (gc_chats (ig_config g)) channel chat_id.

(** [shadowed] *)
Definition shadowed (g : IngestGate) (channel chat_id : string) : bool :=
  gc_enabled (ig_config g) && listed (gc_shadow_chats (ig_config g)) channel chat_id.

Definition REPLY_ACTIONS : list string := ["answer"; "react"; "silence"].

(** [_reply_action_for] *)
Definition reply_action_for (g : IngestGate) (channel chat_id : string) : string :=
  let found := default "answer" (snd <$> by_id fst (chat_key channel chat_id) (gc_reply_actions (ig_config g))) in
  let value := py_lower (py_strip (if str_true found then found else "answer")) in
  if str_in value REPLY_ACTIONS then value else "answer".

(** [_legacy_owner_stood_down] *)
Definition legacy_owner_stood_down (g : IngestGate) (channel chat_id : string) : bool :=
  match ig_participation_owns g with
  | None => false
  | Some owns => match owns channel chat_id with Ok b => b | Raise _ => false end
  end.

(** [_is_ambient_chat] *)
Definition is_ambient_chat (g : IngestGate) (channel chat_id : string) : bool :=
  listed (gc_ambient_chats (ig_config g)) channel chat_id.

(** ** The canonical event *)

Definition opt_json (o : option string) : json := from_option JStr JNull o.

(** [_canonical_event] *)
Definition canonical_event (r : IngestRequest) (identity : option CanonicalEvent) : CanonicalEvent :=
  let e := in_event r in
  let payload :=
    [("kind", JStr "message"); ("text", JStr (ie_content e)); ("is_group", JBool (ie_is_group e));
     ("mentioned_bot", JBool (ie_mentioned_bot e)); ("reply_to_bot", JBool (ie_reply_to_bot e));
     ("reply_to_message_id",
        default JNull (py_or (py_or (JStr <$> ie_reply_to_message_id e)
                                (dict_get "reply_to_message_id" (ie_raw_metadata e)))
                         (dict_get "reply_to" (ie_raw_metadata e))));
     ("reply_to_text", opt_json (ie_reply_to_text e));
     ("reply_to_participant", opt_json (ie_reply_to_participant e));
     ("media", JArr (map JStr (ie_media e)))] in
  {| ce_event_id := from_option ce_event_id (in_event_id r) identity;
     ce_event_key := from_option ce_event_key (in_event_key r) identity;
     ce_trace_id := in_trace_id r; ce_kind := "message"; ce_origin := ie_channel e;
     ce_principal := ie_sender_id e; ce_channel := ie_channel e; ce_chat_id := ie_chat_id e;
     ce_account := ""; ce_direction := "in"; ce_revision := 1; ce_audience_ref := None;
     ce_occurred_ms := Some (ie_timestamp_ms e); ce_created_ms := None;
     ce_source_message_id := ie_message_id e; ce_target_message_id := None; ce_thread_id := None;
     ce_turn_id := None;
     ce_payload := Some (foldl (λ d '(k, v), dict_set k v d) payload (in_payload_extra r));
     ce_payload_hash := "" |}.

Fixpoint collect {A B} (f : A → result B) (l : list A) : result (list B) :=
  match l with
  | [] => Ok []
  | x :: l' => let! y := f x in let! ys := collect f l' in Ok (y :: ys)
  end.

(** [ORDER BY revision, created_ms, event_id] *)
Definition provider_leb (a b : event_row) : bool :=
  (ev_revision a <? ev_revision b) ||
  ((ev_revision a =? ev_revision b) && time_id_leb (ev_created_ms a, ev_event_id a) (ev_created_ms b, ev_event_id b)).

(** [events_by_provider_identity] of the store *)
Definition events_by_provider_identity (channel chat_id provider : string) (account : option string)
    (kinds : list string) (s : db) : result (list CanonicalEvent) :=
  let wanted := List.filter str_true kinds in
  if negb (str_true channel) || negb (str_true chat_id) || negb (str_true provider) || is_none (head wanted) then Ok []
  else collect event_from_row (order_by provider_leb (select (λ e,
    (ev_channel e =?s channel) && (ev_chat_id e =?s chat_id) && opt_str_eqb (ev_source_message_id e) (Some provider) &&
    str_in (ev_kind e) wanted &&
    match account with Some a => if str_true a then ev_account e =?s a else true | None => true end) (events s))).

(** [canonical_event_for_provider_message] of the store *)
Definition canonical_event_for_provider_message (channel chat_id provider direction : string) (s : db)
    : result (option CanonicalEvent) :=
  let! candidates := events_by_provider_identity channel chat_id provider None ["message"] s in
  Ok (List.find (λ e, (ce_origin e =?s CANONICAL_WHATSAPP_ORIGIN) &&
                      (negb (str_true direction) || (ce_direction e =?s direction))) candidates).

(** [_bridge_canonical_identity]; a failed lookup counts as no row *)
Definition bridge_canonical_identity (r : IngestRequest) (s : db) : option CanonicalEvent :=
  let provider := default "" (ie_message_id (in_event r)) in
  if negb (str_true provider) then None
  else match canonical_event_for_provider_message (ie_channel (in_event r)) (ie_chat_id (in_event r)) provider "in" s with
       | Ok found => found
       | Raise _ => None
       end.

Section Gate.
  Context `{Sha256}.

(** [_register_observed_source] *)
Definition register_observed_source (g : IngestGate) (event_id : string) : prog gate_world unit :=
  match ig_source_registrar g with
  | None => pret tt
  | Some registrar =>
      if negb (str_true event_id) then pret tt
      else or_else (do* on_gate (registrar event_id) in pret tt) tt
  end.

(** [_journal] *)
Definition journal (g : IngestGate) (r : IngestRequest) (now : Z) : prog gate_world string :=
  let* identity := pget (λ w, bridge_canonical_identity r (gt_store w)) in
  let* event_id :=
    match identity with
    | Some e => pret (ce_event_id e)
    | None =>
        let c := canonical_event r None in
        on_gate (append_event (ce_event_key c) (ce_event_id c) (ce_trace_id c) (TypedEvent c) now None None None None)
    end in
  do* register_observed_source g event_id in
  pret event_id.

(** ** The ambient brake *)

(** [_ambient_rule_without_turn] *)
Definition ambient_rule_without_turn (g : IngestGate) (r : IngestRequest) (now : Z) (s : db) : bool :=
  match ig_threads g with
  | None => false
  | Some rg =>
      let data := input_from_event (canonical_event r None) None None in
      let d := decide_join data (view_for rg data now s) in
      bool_decide (jd_rule d = AMBIENT) && is_none (jd_thread_id d)
  end.

(** [_note_ambient_message] *)
Definition note_ambient_message (channel chat_id : string) : prog gate_world unit :=
  modify_gate (λ w,
    let '(messages, last) := default (0, 0) (gt_ambient w !! chat_key channel chat_id) in
    w <| gt_ambient ::= <[chat_key channel chat_id := (messages + 1, last)]> |>).

(** [_ambient_brake_allows] *)
Definition ambient_brake_allows (g : IngestGate) (channel chat_id : string) (now : Z) : prog gate_world (bool * string) :=
  let min_seconds := gc_min_seconds_between_answers (ig_config g) in
  let min_messages := gc_min_messages_since_answer (ig_config g) in
  λ w,
    let '(messages, last) := default (0, 0) (gt_ambient w !! chat_key channel chat_id) in
    let w' := w <| gt_ambient ::= <[chat_key channel chat_id := (messages, last)]> |> in
    let elapsed := Z.max 0 (now - last) in
    if negb (last =? 0) && negb (min_seconds =? 0) && (elapsed <? min_seconds * 1000)
    then (Ok (false, "waiting:" +:+ pretty ((min_seconds * 1000 - elapsed) / 1000) +:+ "s"), w')
    else if messages <? min_messages
    then (Ok (false, "quiet:" +:+ pretty messages +:+ "/" +:+ pretty min_messages), w')
    else (Ok (true, "due"), w').

(** [d[key] = value] *)
Fixpoint pend_set (k : string) (v : Z) (l : list (string * Z)) : list (string * Z) :=
  match l with
  | [] => [(k, v)]
  | (k', v') :: l' => if k' =?s k then (k', v) :: l' else (k', v') :: pend_set k v l'
  end.

Definition PENDING_LIMIT : nat := 512.
Definition PENDING_EVICTED : nat := 128.

(** [sorted(items, key=lambda item: item[1])[:128]] *)
Definition oldest_pending (l : list (string * Z)) : list string :=
  map fst (take PENDING_EVICTED (order_by (λ a b, a.2 <=? b.2) l)).

(** [_mark_ambient_pending] *)
Definition mark_pending (event_id : string) (now : Z) (l : list (string * Z)) : list (string * Z) :=
  let l' := pend_set event_id now l in
  if (PENDING_LIMIT <? length l')%nat
  then List.filter (λ p, negb (str_in p.1 (oldest_pending l'))) l'
  else l'.

Definition mark_ambient_pending (event_id : string) (now : Z) : prog gate_world unit :=
  modify_gate (λ w, w <| gt_pending ::= mark_pending event_id now |>).

(** [is_ambient_pending] *)
Definition is_ambient_pending (event_id : string) (w : gate_world) : bool := row_exists (has_id fst event_id) (gt_pending w).

(** [_reset_ambient_window]: the windows of all chats *)
Definition reset_ambient_window (now : Z) : prog gate_world unit :=
  modify_gate (λ w, w <| gt_ambient ::= fmap (λ _ : Z * Z, (0, now)) |>).

(** [note_ambient_answer] *)
Definition note_ambient_answer (event_id : string) (now : Z) : prog gate_world unit :=
  do* modify_gate (λ w, w <| gt_pending ::= List.filter (λ p, negb (has_id fst event_id p)) |>) in
  reset_ambient_window now.

(** [note_ambient_declined] and [note_ambient_reacted] *)
Definition note_ambient_declined (event_id : string) (now : Z) : prog gate_world unit := reset_ambient_window now.
Definition note_ambient_reacted (event_id : string) (now : Z) : prog gate_world unit := reset_ambient_window now.

(** ** Assignment and the direct fence *)

(** Clock readings in call order, and the decision id. *)
Record gate_ticks := MkTicks { tk_now : Z; tk_second : Z; tk_decision_id : string }.

(** [_assign] *)
Definition assign_event (g : IngestGate) (r : IngestRequest) (now : Z) (allow_turn : bool)
    : prog gate_world (option JoinDecision) :=
  match ig_threads g with
  | None => pret None
  | Some rg =>
      let* identity := pget (λ w, bridge_canonical_identity r (gt_store w)) in
      or_else (let* d := on_gate (assign rg (canonical_event r identity) now None None allow_turn) in pret (Some d)) None
  end.

(** [_fence_direct] *)
Definition fence_direct (g : IngestGate) (r : IngestRequest) (decision : PolicyDecision)
    (assignment : option JoinDecision) (now : Z) : prog gate_world (bool * option string * Z) :=
  match ig_note_direct_admission g, assignment with
  | Some note, Some a =>
      let turn_id := py_strip (default "" (jd_turn_id a)) in
      if negb (str_true turn_id) then pret (false, None, 0)
      else
      let* direct :=
        match ig_direct_classifier g with
        | Some classify =>
            match classify r decision a with
            | Ok b => pret b
            | Raise CancelledError => praise CancelledError
            | Raise _ => praise (ProcessingError "direct_classification_failed")
            end
        | None => pret (ie_mentioned_bot (in_event r) || ie_reply_to_bot (in_event r))
        end in
      if negb direct then pret (false, None, 0)
      else
      let channel := ie_channel (in_event r) in
      let chat_id := ie_chat_id (in_event r) in
      let* revision := or_fail (
        let* revision := on_gate (note channel chat_id (in_event_id r) turn_id now) in
        do* match ig_cancel_chat g with
            | Some cancel => do* on_gate (cancel channel chat_id) in pret tt
            | None => pret tt
            end in
        pret revision) "direct_fence_failed" in
      pret (true, Some turn_id, revision)
  | _, _ => pret (false, None, 0)
  end.

(** [_record] *)
Definition record (r : IngestRequest) (snapshot : PolicySnapshot) (outcome : FastGateOutcome) (reason : string)
    (policy_decision : option PolicyDecision) (journaled : string) (t : gate_ticks) (shadow : bool)
    (assignment : option JoinDecision) (reply_action : string) (react ambient_candidate : bool)
    (fence : bool * option string * Z) (anchor : option string) : prog gate_world FastGateResult :=
  let e := in_event r in
  let raw :=
    {| dec_decision_id := tk_decision_id t; dec_trace_id := in_trace_id r; dec_policy_version := ps_version snapshot;
       dec_policy_hash := ps_policy_hash snapshot; dec_principal := ie_sender_id e;
       dec_target := chat_key (ie_channel e) (ie_chat_id e); dec_capability := "inbound.message";
       dec_turn_revision := 1; dec_outcome := match outcome with Deny => "deny" | _ => "allow" end;
       dec_reason := reason; dec_created_ms := tk_now t; dec_stage := "fast"; dec_effect_id := None |} in
  let* decision := (λ w, (DecisionRecord_check raw, w)) in
  do* on_gate (record_decision decision) in
  pret {| fg_outcome := outcome; fg_reason := reason; fg_snapshot := snapshot; fg_decision := decision;
          fg_policy_decision := policy_decision; fg_journaled_event_id := journaled; fg_shadow := shadow;
          fg_assignment := assignment; fg_reply_action := reply_action; fg_react := react;
          fg_ambient_candidate := ambient_candidate; fg_direct_admitted := fence.1.1;
          fg_direct_turn_id := fence.1.2; fg_arbitration_revision := fence.2; fg_continuation_anchor_id := anchor |}.

Definition no_fence : bool * option string * Z := (false, None, 0).

(** The promotion of a request to a reply to its continuation anchor. *)
Definition promote (r : IngestRequest) (a : ContinuationAnchor) : IngestRequest :=
  MkIngest (in_event_key r) (in_event_id r) (in_trace_id r)
    ((in_event r) <| ie_reply_to_bot := true |> <| ie_reply_to_message_id := Some (can_message_id a) |>
                <| ie_reply_to_text := Some (can_text a) |>) (in_payload_extra r).

(** The continuation block of [admit]: the request to go on with and the anchor it is
    bound to. *)
Definition continue_from (g : IngestGate) (r : IngestRequest) (continuation : option ContinuationAnchor)
    (healthy shadow : bool) (now : Z) : prog gate_world (IngestRequest * option string) :=
  match continuation, ig_continuation g with
  | Some anchor, Some ct =>
      if negb healthy then pret (r, None)
      else
      let* identity := pget (λ w, bridge_canonical_identity r (gt_store w)) in
      let* current := pread (λ w,
        ct_candidates ct (canonical_event r identity)
          (match identity with Some i => [ce_principal i] | None => [] end) now
          (ie_mentioned_bot (in_event r)) (gt_store w)) in
      let promoted := promote r anchor in
      let* permission := (λ w, (ig_evaluate g promoted, w)) in
      if bool_decide (anchor ∈ current) && pd_accept_message permission && pd_should_respond permission &&
         (reply_action_for g (ie_channel (in_event r)) (ie_chat_id (in_event r)) =?s "answer") && negb shadow
      then do* on_gate (ct_bind ct anchor (ie_sender_id (in_event r)) now) in
           pret (promoted, Some (can_message_id anchor))
      else pret (r, None)
  | _, _ => pret (r, None)
  end.

(** The ambient block of [admit]: the outcome it leaves and whether a judge may be asked. *)
Definition ambient_outcome (g : IngestGate) (r : IngestRequest) (reply_action : string) (now : Z)
    (outcome : FastGateOutcome) : prog gate_world (FastGateOutcome * bool) :=
  let channel := ie_channel (in_event r) in
  let chat_id := ie_chat_id (in_event r) in
  let* unowned := pget (λ w, ambient_rule_without_turn g r now (gt_store w)) in
  match outcome with
  | React =>
      if negb unowned then pret (outcome, false)
      else if legacy_owner_stood_down g channel chat_id then
        do* mark_ambient_pending (in_event_id r) now in pret (Observe, false)
      else if is_ambient_chat g channel chat_id then
        if reply_action =?s "silence" then pret (Observe, false)
        else
        do* note_ambient_message channel chat_id in
        let text := ie_content (in_event r) in
        let* allowed :=
          if str_true text && ig_names_bot g text then pret true
          else let* a := ambient_brake_allows g channel chat_id now in pret a.1 in
        do* mark_ambient_pending (in_event_id r) now in
        pret (Observe, allowed)
      else pret (outcome, false)
  | _ => pret (outcome, false)
  end.

(** The rest of [admit] for an accepted message. *)
Definition admit_accepted (g : IngestGate) (snapshot : PolicySnapshot) (t : gate_ticks) (r : IngestRequest)
    (anchor : option string) (decision : PolicyDecision) (journaled : string) : prog gate_world (option FastGateResult) :=
  let now := tk_now t in
  let reply_action := reply_action_for g (ie_channel (in_event r)) (ie_chat_id (in_event r)) in
  let* ambient := ambient_outcome g r reply_action now (if pd_should_respond decision then React else Observe) in
  let (outcome, ambient_candidate) := ambient in
  let reacting := match outcome with React => true | _ => false end in
  let react := reacting && (reply_action =?s "react") in
  let allow_turn := reacting && (reply_action =?s "answer") in
  let outcome := if reacting && negb (reply_action =?s "answer") then Observe else outcome in
  let* assignment := assign_event g r now allow_turn in
  let* fence := fence_direct g r decision assignment (tk_second t) in
  let reason :=
    match anchor with
    | Some id => "semantic_continuation:" +:+ id
    | None => if pd_should_respond decision then "allow" else "observe"
    end in
  let* result := record r snapshot outcome reason (Some decision) journaled t false assignment reply_action react
                   ambient_candidate fence anchor in
  pret (Some result).

(** [admit]; nothing for a chat the gate does not manage *)
Definition gate_admit (g : IngestGate) (snapshot : PolicySnapshot) (t : gate_ticks) (r : IngestRequest)
    (continuation : option ContinuationAnchor) : prog gate_world (option FastGateResult) :=
  let channel := ie_channel (in_event r) in
  let chat_id := ie_chat_id (in_event r) in
  let shadow := shadowed g channel chat_id in
  let now := tk_now t in
  let healthy := ps_healthy snapshot in
  if negb shadow && negb (enabled_for g channel chat_id) then pret None
  else
  let* journaled := journal g r now in
  let* continued := continue_from g r continuation healthy shadow now in
  let (r, anchor) := continued in
  if shadow then
    let* decision := if healthy then let* d := (λ w, (ig_evaluate g r, w)) in pret (Some d) else pret None in
    let outcome :=
      match decision with
      | Some d => if pd_accept_message d && pd_should_respond d then React else Observe
      | None => Observe
      end in
    let* result := record r snapshot outcome "shadow" decision journaled t true None "answer" false false no_fence None in
    pret (Some result)
  else if negb healthy then
    let* result := record r snapshot Deny "policy_unhealthy" None journaled t false None "answer" false false no_fence None in
    pret (Some result)
  else
  let* decision := (λ w, (ig_evaluate g r, w)) in
  if negb (pd_accept_message decision) then
    let* result := record r snapshot Deny "permission_denied" (Some decision) journaled t false None "answer" false false
                     no_fence None in
    pret (Some result)
  else
  admit_accepted g snapshot t r anchor decision journaled.

(** ** Admission of a reply *)

(** [reconcile_reply] *)
Definition reconcile_reply (g : IngestGate) (e : InboundEvent) (t : gate_ticks) : prog gate_world (option JoinDecision) :=
  match ig_threads g with
  | None => pret None
  | Some _ =>
      let message_id := py_strip (default "" (ie_message_id e)) in
      if negb (str_true message_id) then pret None
      else if negb (reply_action_for g (ie_channel e) (ie_chat_id e) =?s "answer") then pret None
      else
      let key := chat_key (ie_channel e) (ie_chat_id e) +:+ ":" +:+ message_id in
      let r := MkIngest key message_id key e [] in
      let* context_only := pget (λ w,
        legacy_owner_stood_down g (ie_channel e) (ie_chat_id e) && ambient_rule_without_turn g r (tk_now t) (gt_store w)) in
      if context_only then pret None
      else
      let* assignment := assign_event g r (tk_second t) true in
      match assignment with
      | Some a =>
          if str_true (default "" (jd_thread_id a)) && str_true (default "" (jd_turn_id a)) then pret (Some a) else pret None
      | None => pret None
      end
  end.

(** [admit_reply] *)
Definition admit_reply (g : IngestGate) (e : InboundEvent) (t : gate_ticks) : prog gate_world bool :=
  if negb (enabled_for g (ie_channel e) (ie_chat_id e)) || shadowed g (ie_channel e) (ie_chat_id e) then pret true
  else if negb (reply_action_for g (ie_channel e) (ie_chat_id e) =?s "answer") then pret false
  else
  let* waiting := pget (is_ambient_pending (default "" (ie_message_id e))) in
  if waiting then pret false
  else let* found := reconcile_reply g e t in pret (is_some found).

End Gate.
