(* ===== verification/GateProps.v ===== *)
(** * GateProps

    What the ingest gate promises: refusals and shadow chats leave no work behind, an
    answer turn needs the policy's consent and the configured action, ambient messages wait
    for their verdict. *)

From Stdlib Require Import ZArith Lia.
From S2P Require Import Prelude Tables Json Models Schema Outbox OutboxFacts OutboxSpec OutboxRefine ThreadStore Journal.
From S2P Require Import Authority Admissions Routing Registry Identity PolicyEngine Authorizer IngestGate.

(** What the store holds of conversations. *)
Definition conversation (s : db) : list thread_row * list turn_row * list turn_source_row * list effect_row :=
  (threads s, turns s, turn_sources s, effects s).

Section Props.
  Context `{Sha256}.

(** ** Frames *)

Lemma record_relations_conversation e s : conversation (record_relations e s) = conversation s.
Proof.
  unfold record_relations. change (conversation (foldl (record_relation (ce_event_id e) (default 0 (ce_created_ms e))) s (relations e)) =
    conversation s). generalize (relations e) as l. intros l. revert s. induction l as [|r l IH]; intros s; [done|].
  cbn [foldl]. by rewrite IH.
Qed.

Lemma append_event_conversation k i t p n a d r au : keeps conversation (append_event k i t p n a d r au).
Proof.
  unfold append_event. destruct (negb _); [by intros ?|]. destruct (coerce_event _ _ _ _ _ _ _ _ _) as [e|]; [|by intros ?].
  apply keeps_write. unfold append_event_connection. intros s a' s' Hx.
  repeat (case_match; try done); injection Hx as _ <-; try done.
  change (conversation (record_relations e (s <| events ::= insert_row (event_row_of e) |>)) = conversation s).
  by rewrite record_relations_conversation.
Qed.

(** Observing without a turn leaves the turns alone. *)
Lemma persist_thread_turns rg event data d n : keeps turns (persist_thread rg event data d n).
Proof.
  unfold persist_thread. destruct (jd_thread_id d) as [id|].
  - apply keeps_bind; [solve_keeps|]. intros [|]; [by intros ?|].
    apply keeps_bind; [by intros ?|]. intros r. destruct (_ && _).
    + apply keeps_bind; [solve_keeps|by intros ? ?].
    + apply keeps_bind; [solve_keeps|by intros ? ?].
  - apply keeps_bind; [unfold open_thread; solve_keeps|by intros ? ?].
Qed.

Lemma note_topic_turns data d n : keeps turns (note_topic data d n).
Proof.
  unfold note_topic. destruct (nonempty _); [|by intros ?]. destruct (_ && _); [|by intros ?].
  unfold note_thread_topic. cbv zeta. destruct (_ || _); [by intros ?|]. solve_keeps.
Qed.

Lemma persist_turns rg event data d n : keeps turns (persist rg event data d n false).
Proof.
  unfold persist. apply keeps_bind; [apply persist_thread_turns|]. intros [id opened].
  apply keeps_bind; [destruct (jd_turn_id d); by intros ?|]. intros turn.
  apply keeps_bind; [destruct turn; [unfold add_turn_source; solve_keeps|by intros ?]|]. intros _.
  apply keeps_bind; [by intros ?|]. intros _. by apply keeps_bind.
Qed.

Lemma assign_observing rg event now corr tb : keeps turns (assign rg event now corr tb false).
Proof.
  unfold assign. cbv zeta. apply keeps_bind.
  { destruct (str_in _ _); [|by intros ?]. unfold forget_topic_source. repeat (case_match; try by intros ?); solve_keeps. }
  intros _. apply keeps_bind; [by intros ?|]. intros stored. apply keeps_bind; [by intros ?|]. intros view.
  assert (∀ d, keeps turns (let* persisted := persist rg event (input_from_event event corr tb) d now false in
    do* note_topic (input_from_event event corr tb) persisted now in pret persisted)) as Hp.
  { intros d. apply keeps_bind; [apply persist_turns|]. intros p. apply keeps_bind; [apply note_topic_turns|by intros ? ?]. }
  set (decision := as_reaction _ _). cbn [negb orb].
  assert (keeps turns (if is_none (jd_thread_id decision) && bool_decide (jd_rule decision = AMBIENT) then
      do* (if jd_needs_clarification decision then attach_event_assignment (ce_event_id event) None None else pret tt) in
      pret decision
    else if jd_needs_clarification decision then
      do* attach_event_assignment (ce_event_id event) None None in pret decision
    else let* persisted := persist rg event (input_from_event event corr tb) decision now false in
         do* note_topic (input_from_event event corr tb) persisted now in pret persisted)) as Hfresh.
  { destruct (_ && _); [destruct (jd_needs_clarification _); by apply keeps_bind|].
    destruct (jd_needs_clarification _); [by apply keeps_bind|apply Hp]. }
  destruct stored as [[[th|] turn]|]; [|exact Hfresh..]. rewrite orb_true_r. by intros ?.
Qed.
(** ** The gate's own frames *)

(** What a refusal leaves alone: conversations, effects and the ambient memory. *)
Definition idle (w : gate_world) := (conversation (gt_store w), gt_ambient w, gt_pending w).

Lemma keeps_on_gate {R A} (f : db → R) (p : prog db A) : keeps f p → keeps (f ∘ gt_store) (on_gate p).
Proof. intros Hp w. unfold on_gate. specialize (Hp (gt_store w)). by destruct (p (gt_store w)). Qed.

Lemma idle_on_gate {A} (p : prog db A) : keeps conversation p → keeps idle (on_gate p).
Proof.
  intros Hp w. unfold on_gate, idle. specialize (Hp (gt_store w)). destruct (p (gt_store w)) as [r s].
  cbn in *. by rewrite Hp.
Qed.

Lemma keeps_or_else {R A} (f : gate_world → R) (p : prog gate_world A) a : keeps f p → keeps f (or_else p a).
Proof. intros Hp w. unfold or_else. specialize (Hp w). by destruct (p w) as [[?|[]] ?]. Qed.

Lemma keeps_or_fail {R A} (f : gate_world → R) (p : prog gate_world A) m : keeps f p → keeps f (or_fail p m).
Proof. intros Hp w. unfold or_fail. specialize (Hp w). by destruct (p w) as [[?|[]] ?]. Qed.

Lemma kept_gate {R A} (f : gate_world → R) (p : prog gate_world A) w r w' : keeps f p → p w = (r, w') → f w' = f w.
Proof. intros Hk Hp. specialize (Hk w). by rewrite Hp in Hk. Qed.

(** The callbacks do their own bookkeeping, not conversations. *)
Record callbacks_quiet (g : IngestGate) : Prop := {
  quiet_registrar : ∀ f id, ig_source_registrar g = Some f → keeps conversation (f id);
  quiet_note : ∀ f a b c d n, ig_note_direct_admission g = Some f → keeps conversation (f a b c d n);
  quiet_cancel : ∀ f a b, ig_cancel_chat g = Some f → keeps conversation (f a b);
}.

Lemma conversation_turns {A} (p : prog db A) : keeps conversation p → keeps turns p.
Proof. intros Hp s. specialize (Hp s). unfold conversation in Hp. congruence. Qed.

Lemma idle_turns {A} (p : prog gate_world A) : keeps idle p → keeps (turns ∘ gt_store) p.
Proof. intros Hp w. specialize (Hp w). unfold idle, conversation in Hp. cbn. congruence. Qed.

Lemma journal_idle g r now : callbacks_quiet g → keeps idle (journal g r now).
Proof.
  intros Hc. unfold journal. apply keeps_bind; [by intros ?|]. intros identity. apply keeps_bind.
  { destruct identity; [by intros ?|]. apply idle_on_gate, append_event_conversation. }
  intros id. apply keeps_bind; [|by intros ? ?]. unfold register_observed_source.
  destruct (ig_source_registrar g) as [f|] eqn:Ef; [|by intros ?]. destruct (negb _); [by intros ?|].
  apply keeps_or_else, keeps_bind; [|by intros ? ?]. apply idle_on_gate. by apply (quiet_registrar g Hc).
Qed.

Lemma record_idle r sn o rs pd j t sh a ra rc am f an : keeps idle (record r sn o rs pd j t sh a ra rc am f an).
Proof.
  unfold record. apply keeps_bind; [by intros ?|]. intros d. apply keeps_bind; [|by intros ? ?].
  apply idle_on_gate. unfold record_decision. solve_keeps.
Qed.

Lemma fence_idle g r d a now : callbacks_quiet g → keeps idle (fence_direct g r d a now).
Proof.
  intros Hc. unfold fence_direct. destruct (ig_note_direct_admission g) as [note|] eqn:En; [|by intros ?].
  destruct a as [a|]; [|by intros ?]. cbv zeta. destruct (negb _); [by intros ?|]. apply keeps_bind.
  { destruct (ig_direct_classifier g) as [c|]; [destruct (c r d a) as [|[]]|]; by intros ?. }
  intros direct. destruct (negb direct); [by intros ?|]. apply keeps_bind; [|by intros ? ?].
  apply keeps_or_fail, keeps_bind; [apply idle_on_gate; by apply (quiet_note g Hc)|]. intros rev.
  apply keeps_bind; [|by intros ? ?]. destruct (ig_cancel_chat g) as [c|] eqn:Ec; [|by intros ?].
  apply keeps_bind; [|by intros ? ?]. apply idle_on_gate. by apply (quiet_cancel g Hc).
Qed.

Lemma assign_event_turns g r now : keeps (turns ∘ gt_store) (assign_event g r now false).
Proof.
  unfold assign_event. destruct (ig_threads g) as [rg|]; [|by intros ?]. apply keeps_bind; [by intros ?|]. intros i.
  apply keeps_or_else, keeps_bind; [|by intros ? ?]. apply keeps_on_gate, assign_observing.
Qed.

(** The ambient block never touches the store. *)
Lemma ambient_store g r ra now o : keeps gt_store (ambient_outcome g r ra now o).
Proof.
  unfold ambient_outcome. cbv zeta. apply keeps_bind; [by intros ?|]. intros u. destruct o; try by intros ?.
  destruct (negb u); [by intros ?|]. destruct (legacy_owner_stood_down g _ _); [by apply keeps_bind|].
  destruct (is_ambient_chat g _ _); [|by intros ?]. destruct (ra =?s "silence"); [by intros ?|].
  apply keeps_bind; [intros w; unfold note_ambient_message, modify_gate; by destruct (default _ _)|]. intros _.
  apply keeps_bind; [|intros b; by apply keeps_bind]. destruct (_ && _); [by intros ?|].
  apply keeps_bind; [|by intros ? ?]. intros w. unfold ambient_brake_allows. destruct (default _ _) as [m l].
  by repeat case_match.
Qed.

(** The request the policy is asked about: the message itself, or the message as the reply to
    the exchange it was bound to. *)
Definition asked_as (r : IngestRequest) (anchor : option string) (r' : IngestRequest) : Prop :=
  match anchor with None => r' = r | Some m => ∃ a, can_message_id a = m ∧ r' = promote r a end.

(** The turns that binding an exchange leaves. *)
Definition turns_after_binding (g : IngestGate) (m : string) (before after : list turn_row) : Prop :=
  ∃ ct a sender now s u s', ig_continuation g = Some ct ∧ can_message_id a = m ∧ turns s = before
    ∧ ct_bind ct a sender now s = (Ok u, s') ∧ turns s' = after.

(** What the continuation block leaves: either nothing happened, or the exchange was bound
    and the request promoted with the policy's consent. *)
Lemma continue_cases g r c healthy shadow now w r' a w' :
  continue_from g r c healthy shadow now w = (Ok (r', a), w') →
  (r' = r ∧ a = None ∧ w' = w) ∨
  (healthy = true ∧ shadow = false ∧ (∃ m, a = Some m ∧ asked_as r a r' ∧ turns_after_binding g m (turns (gt_store w)) (turns (gt_store w'))) ∧
   ie_channel (in_event r') = ie_channel (in_event r) ∧ ie_chat_id (in_event r') = ie_chat_id (in_event r) ∧
   ∃ d, ig_evaluate g r' = Ok d ∧ pd_accept_message d = true).
Proof.
  unfold continue_from. destruct c as [anchor|]; [|intros [= <- <- <-]; by left].
  destruct (ig_continuation g) as [ct|] eqn:Ect; [|intros [= <- <- <-]; by left].
  destruct healthy; cbn [negb]; [|intros [= <- <- <-]; by left]. cbv zeta. intros Hx.
  apply pbind_Ok in Hx as (i & w1 & [= <- <-] & Hx). apply pbind_Ok in Hx as (cur & w1 & Hcur & Hx). unfold pread in Hcur. injection Hcur as _ <-.
  apply pbind_Ok in Hx as (d & w1 & Hd & Hx). injection Hd as Hd <-.
  destruct (_ && negb shadow) eqn:E; [|injection Hx as <- <- <-; by left].
  apply andb_true_iff in E as [E Es]. apply andb_true_iff in E as [E _]. apply andb_true_iff in E as [E _].
  apply andb_true_iff in E as [_ Ea]. apply pbind_Ok in Hx as (u & w2 & Hbind & Hx). injection Hx as <- <- <-.
  right. split; [done|]. split; [by destruct shadow|]. split; [|split; [done|split; [done|eauto]]].
  exists (can_message_id anchor). split; [done|]. split; [by exists anchor|]. unfold on_gate in Hbind.
  destruct (ct_bind ct anchor _ _ (gt_store w)) as [r2 s2] eqn:Eb. injection Hbind as -> <-.
  exists ct, anchor, (ie_sender_id (in_event r)), now, (gt_store w), u, s2. done.
Qed.

(** In a shadow chat nothing is ever bound. *)
Lemma continue_shadow {R} (f : gate_world → R) g r c healthy now : keeps f (continue_from g r c healthy true now).
Proof.
  unfold continue_from. destruct c; [|by intros ?]. destruct (ig_continuation g); [|by intros ?].
  destruct (negb _); [by intros ?|]. cbv zeta. apply keeps_bind; [by intros ?|]. intros i.
  apply keeps_bind; [by intros ?|]. intros cur. apply keeps_bind; [by intros ?|]. intros d.
  rewrite andb_false_r. by intros ?.
Qed.

(** A recorded result says what it was recorded with. *)
Lemma record_result r sn o rs pd j t sh a ra rc am f an w res w' :
  record r sn o rs pd j t sh a ra rc am f an w = (Ok res, w') →
  fg_outcome res = o ∧ fg_policy_decision res = pd ∧ fg_shadow res = sh ∧ fg_assignment res = a ∧ fg_react res = rc ∧
  fg_direct_admitted res = f.1.1 ∧ fg_continuation_anchor_id res = an ∧ fg_ambient_candidate res = am.
Proof.
  unfold record. intros Hx. apply pbind_Ok in Hx as (d & w1 & _ & Hx). apply pbind_Ok in Hx as (u & w2 & _ & Hx).
  injection Hx as <- _. done.
Qed.

(** An accepted message: never denied; answered only under the answer action with a due
    reply; observed without a turn otherwise. *)
Lemma accepted_cases g sn t r anchor d j w res w' :
  callbacks_quiet g → admit_accepted g sn t r anchor d j w = (Ok (Some res), w') →
  let action := reply_action_for g (ie_channel (in_event r)) (ie_chat_id (in_event r)) in
  fg_outcome res ≠ Deny ∧ fg_policy_decision res = Some d ∧ fg_shadow res = false ∧ fg_continuation_anchor_id res = anchor ∧
  (fg_outcome res = React → pd_should_respond d = true ∧ action = "answer") ∧
  (fg_react res = true → pd_should_respond d = true ∧ action = "react" ∧ fg_outcome res = Observe) ∧
  (fg_outcome res ≠ React → turns (gt_store w') = turns (gt_store w)).
Proof.
  intros Hc Hx. cbv zeta. unfold admit_accepted in Hx. cbv zeta in Hx.
  set (action := reply_action_for _ _ _) in *.
  apply pbind_Ok in Hx as ([o am] & w1 & Ham & Hx). apply pbind_Ok in Hx as (asg & w2 & Has & Hx).
  apply pbind_Ok in Hx as (fence & w3 & Hf & Hx). apply pbind_Ok in Hx as (res' & w4 & Hr & Hx).
  injection Hx as <- <-. pose proof (record_result _ _ _ _ _ _ _ _ _ _ _ _ _ _ _ _ _ Hr) as (Ho & Hpd & Hsh & _ & Hrc & _ & Han & _).
  assert ((o = React → pd_should_respond d = true) ∧ o ≠ Deny) as [Hresp Hnd].
  { unfold ambient_outcome in Ham. cbv zeta in Ham. apply pbind_Ok in Ham as (u & w5 & _ & Ham).
    destruct (pd_should_respond d); [split; [done|]|by injection Ham as <- _ _].
    destruct (negb u); [by injection Ham as <- _ _|].
    destruct (legacy_owner_stood_down g _ _); [apply pbind_Ok in Ham as (? & ? & _ & Ham); by injection Ham as <- _ _|].
    destruct (is_ambient_chat g _ _); [|by injection Ham as <- _ _].
    destruct (action =?s "silence"); [by injection Ham as <- _ _|].
    do 3 (apply pbind_Ok in Ham as (? & ? & _ & Ham)). by injection Ham as <- _ _. }
  rewrite Ho, Hpd, Hsh, Han, Hrc.
  assert (action = "answer" → action ≠ "react") as Hne by (by intros ->).
  split; [destruct o; cbn; [done|done|by destruct (negb _)]|]. do 3 (split; [done|]).
  split; [|split].
  - destruct o; cbn; [done|done|]. destruct (action =?s "answer") eqn:E; cbn; [|done]. apply str_eqb_eq in E. auto.
  - destruct o; cbn; [done|done|]. intros E%str_eqb_eq. rewrite E. auto.
  - intros Hnr. assert (match o with React => true | _ => false end && (action =?s "answer") = false) as Hallow.
    { destruct o; [done|done|]. cbn in *. by destruct (action =?s "answer"). }
    rewrite Hallow in Has.
    apply (kept_gate (turns ∘ gt_store)) in Has; [|apply assign_event_turns].
    apply (kept_gate (turns ∘ gt_store)) in Hf; [|by apply idle_turns, fence_idle].
    apply (kept_gate (turns ∘ gt_store)) in Hr; [|apply idle_turns, record_idle].
    apply (kept_gate gt_store) in Ham; [|apply ambient_store]. cbn in *. congruence.
Qed.
(** ** Theorems *)

(** C4: The fast gate does what policy says, for callbacks that leave conversations alone. The
    policy is asked about the message, or, when the message was bound to an exchange it
    continues, about the message as a reply to it. In a managed chat a message is denied
    exactly when the policy is unhealthy or does not accept it; a denial changes no thread,
    turn, source or effect and no ambient memory, assigns nothing, reacts to nothing and
    fences nothing. An answer needs a policy that accepts the message and wants a reply, and
    the action [answer]; the action [react] turns a due answer into an observed message with a
    reaction. A message that is not answered opens no turn of its own: the turns stay the
    same, or are those that binding the continued exchange leaves. *)
Theorem gate_verdict g sn t r c w res w' :
  callbacks_quiet g → gate_admit g sn t r c w = (Ok (Some res), w') → fg_shadow res = false →
  let action := reply_action_for g (ie_channel (in_event r)) (ie_chat_id (in_event r)) in
  let anchor := fg_continuation_anchor_id res in
  ∃ r', asked_as r anchor r' ∧
  (fg_outcome res = Deny ↔ ps_healthy sn = false ∨ ∃ d, ig_evaluate g r' = Ok d ∧ pd_accept_message d = false) ∧
  (fg_outcome res = Deny →
     idle w' = idle w ∧ fg_assignment res = None ∧ fg_react res = false ∧ fg_direct_admitted res = false) ∧
  (fg_outcome res = React →
     action = "answer" ∧ ∃ d, ig_evaluate g r' = Ok d ∧ pd_accept_message d = true ∧ pd_should_respond d = true) ∧
  (fg_react res = true →
     action = "react" ∧ fg_outcome res = Observe ∧ ∃ d, ig_evaluate g r' = Ok d ∧ pd_accept_message d = true ∧ pd_should_respond d = true) ∧
  (fg_outcome res ≠ React →
     match anchor with
     | None => turns (gt_store w') = turns (gt_store w)
     | Some m => turns_after_binding g m (turns (gt_store w)) (turns (gt_store w'))
     end).
Proof.
  intros Hc Hx Hsh. cbv zeta. unfold gate_admit in Hx. cbv zeta in Hx.
  destruct (negb _ && negb _); [done|].
  apply pbind_Ok in Hx as (j & w1 & Hj & Hx). apply pbind_Ok in Hx as ([r' a] & w2 & Hcont & Hx).
  apply (kept_gate idle) in Hj; [|by apply journal_idle].
  pose proof (continue_cases _ _ _ _ _ _ _ _ _ _ Hcont) as Hcc.
  destruct (shadowed g _ _) eqn:Es.
  { apply pbind_Ok in Hx as (d & w3 & _ & Hx). apply pbind_Ok in Hx as (res' & w4 & Hr & Hx). injection Hx as <- _.
    apply record_result in Hr as (_ & _ & Hs & _). congruence. }
  destruct (ps_healthy sn) eqn:Eh; cbn [negb] in Hx.
  - apply pbind_Ok in Hx as (d & w3 & Hd & Hx). injection Hd as Hd <-.
    destruct (pd_accept_message d) eqn:Ea; cbn [negb] in Hx.
    + apply accepted_cases in Hx as (Hnd & Hpd & _ & Han & Hre & Hrc & Htu); [|done]. rewrite Han. exists r'.
      assert (ie_channel (in_event r') = ie_channel (in_event r) ∧ ie_chat_id (in_event r') = ie_chat_id (in_event r)) as [Hch Hci].
      { destruct Hcc as [(-> & _)|(_ & _ & _ & H1 & H2 & _)]; done. }
      rewrite Hch, Hci in *. assert (turns (gt_store w1) = turns (gt_store w)) as Hw1 by (unfold idle, conversation in Hj; congruence).
      split; [by destruct Hcc as [(-> & -> & _)|(_ & _ & (m & -> & ? & _) & _)]|].
      split; [split; [done|intros [|(x & Hx & ?)]; congruence]|]. split; [done|].
      split; [intros Hr; destruct (Hre Hr); eauto|]. split; [intros Hr; destruct (Hrc Hr) as (? & ? & ?); eauto 8|].
      intros Hnr. rewrite (Htu Hnr), <- Hw1. by destruct Hcc as [(-> & -> & ->)|(_ & _ & (m & -> & _ & ?) & _)].
    + apply pbind_Ok in Hx as (res' & w4 & Hr & Hx). injection Hx as <- <-.
      destruct Hcc as [(-> & -> & ->)|(_ & _ & _ & _ & _ & d' & Hd' & Hacc)]; [|congruence].
      pose proof (record_result _ _ _ _ _ _ _ _ _ _ _ _ _ _ _ _ _ Hr) as (Ho & Hpd & _ & Has & Hrc & Hfe & Han & _).
      apply (kept_gate idle) in Hr; [|apply record_idle]. rewrite Ho, Has, Hrc, Hfe, Han. exists r. split; [done|].
      assert (idle w4 = idle w) as Hw by congruence. split; [split; [intros _; right; by exists d|reflexivity]|].
      split; [intros _; split; [exact Hw|split; [reflexivity|split; reflexivity]]|]. split; [discriminate|]. split; [discriminate|].
      intros _. cbn. unfold idle, conversation in Hw. congruence.
  - apply pbind_Ok in Hx as (res' & w4 & Hr & Hx). injection Hx as <- <-.
    destruct Hcc as [(-> & -> & ->)|(? & _)]; [|done].
    pose proof (record_result _ _ _ _ _ _ _ _ _ _ _ _ _ _ _ _ _ Hr) as (Ho & Hpd & _ & Has & Hrc & Hfe & Han & _).
    apply (kept_gate idle) in Hr; [|apply record_idle]. rewrite Ho, Has, Hrc, Hfe, Han. exists r. split; [done|].
    assert (idle w4 = idle w) as Hw by congruence. split; [split; [by left|reflexivity]|].
    split; [intros _; split; [exact Hw|split; [reflexivity|split; reflexivity]]|]. split; [discriminate|]. split; [discriminate|].
    intros _. unfold idle, conversation in Hw. congruence.
Qed.
(** The gate stays out of chats it does not own. An unmanaged chat is not even journaled
    here; a shadow chat is journaled and decided, but no conversation, effect or ambient
    memory changes and the result carries no assignment, reaction or fence; and in both
    the admission of a reply is left to the classic pipeline. *)
Theorem unowned_chats_untouched g sn t r c w e :
  let channel := ie_channel (in_event r) in
  let chat_id := ie_chat_id (in_event r) in
  callbacks_quiet g → ie_channel e = channel → ie_chat_id e = chat_id →
  shadowed g channel chat_id = true ∨ enabled_for g channel chat_id = false →
  admit_reply g e t w = (Ok true, w) ∧
  (shadowed g channel chat_id = false → gate_admit g sn t r c w = (Ok None, w)) ∧
  (shadowed g channel chat_id = true →
     idle (gate_admit g sn t r c w).2 = idle w ∧
     ∀ res, (gate_admit g sn t r c w).1 = Ok res →
       ∃ x, res = Some x ∧ fg_shadow x = true ∧ fg_assignment x = None ∧ fg_react x = false ∧ fg_direct_admitted x = false).
Proof.
  cbv zeta. intros Hc Hch Hci Hun. split; [|split].
  - unfold admit_reply. rewrite Hch, Hci. destruct Hun as [->| ->]; [by rewrite orb_true_r|done].
  - intros Hs. destruct Hun as [Hs'|He]; [congruence|]. unfold gate_admit. by rewrite Hs, He.
  - intros Hs. split.
    + enough (keeps idle (gate_admit g sn t r c)) as Hk by apply Hk. unfold gate_admit. rewrite Hs. cbn [negb andb]. cbv zeta.
      apply keeps_bind; [by apply journal_idle|]. intros j. apply keeps_bind; [apply continue_shadow|]. intros [r' a].
      apply keeps_bind; [destruct (ps_healthy sn); [apply keeps_bind; by intros ?|by intros ?]|]. intros d.
      apply keeps_bind; [apply record_idle|by intros ? ?].
    + intros res Hx. destruct (gate_admit g sn t r c w) as [o w'] eqn:E. cbn [fst] in Hx. subst o.
      unfold gate_admit in E. rewrite Hs in E. cbn [negb andb] in E. cbv zeta in E.
      apply pbind_Ok in E as (j & w1 & _ & E). apply pbind_Ok in E as ([r' a] & w2 & _ & E).
      apply pbind_Ok in E as (d & w3 & _ & E). apply pbind_Ok in E as (x & w4 & Hr & E). injection E as <- _.
      exists x. apply record_result in Hr as (_ & _ & ? & ? & ? & ? & _). done.
Qed.
(** ** The ambient memory *)

(** Well-formed memory: pending messages are distinct and at most [PENDING_LIMIT], brake
    counters are not negative. *)
Record memory_wf (w : gate_world) : Prop := {
  wf_pending_distinct : NoDup (map fst (gt_pending w));
  wf_pending_bounded : (length (gt_pending w) ≤ PENDING_LIMIT)%nat;
  wf_counters : ∀ k m l, gt_ambient w !! k = Some (m, l) → 0 ≤ m;
}.

Definition memory (w : gate_world) := (gt_ambient w, gt_pending w).

Definition keeps_wf {A} (p : prog gate_world A) : Prop := ∀ w, memory_wf w → memory_wf (p w).2.

Lemma keeps_wf_bind {A B} (m : prog gate_world A) (k : A → prog gate_world B) :
  keeps_wf m → (∀ a, keeps_wf (k a)) → keeps_wf (pbind m k).
Proof.
  intros Hm Hk w Hw. unfold pbind. specialize (Hm w Hw). destruct (m w) as [[a|e] w1]; [by apply Hk|done].
Qed.

Lemma memory_keeps_wf {A} (p : prog gate_world A) : keeps memory p → keeps_wf p.
Proof.
  intros Hp w [H1 H2 H3]. specialize (Hp w). unfold memory in Hp. injection Hp as Ha Hb.
  constructor; rewrite ?Ha, ?Hb; done.
Qed.

Lemma memory_on_gate {A} (p : prog db A) : keeps memory (on_gate p).
Proof. intros w. unfold on_gate. by destruct (p (gt_store w)). Qed.

Lemma pend_set_keys k v l x : x ∈ map fst (pend_set k v l) ↔ x = k ∨ x ∈ map fst l.
Proof.
  induction l as [|[y z] l IH]; [set_solver|]. cbn. destruct (y =?s k) eqn:E; [apply str_eqb_eq in E as ->|]; set_solver.
Qed.

Lemma pend_set_nodup k v l : NoDup (map fst l) → NoDup (map fst (pend_set k v l)).
Proof.
  induction l as [|[y z] l IH]; [intros _; apply NoDup_singleton|]. cbn. intros [Hy Hnd]%NoDup_cons.
  destruct (y =?s k) eqn:E; cbn; apply NoDup_cons; [done|]. split; [|auto]. rewrite pend_set_keys.
  apply str_eqb_neq in E. set_solver.
Qed.

Lemma pend_set_length k v l : (length (pend_set k v l) ≤ S (length l))%nat.
Proof. induction l as [|[y z] l IH]; cbn; [lia|]. destruct (y =?s k); cbn; lia. Qed.

Lemma filter_fst_nodup {A} (f : string * A → bool) l : NoDup (map fst l) → NoDup (map fst (List.filter f l)).
Proof.
  induction l as [|x l IH]; [done|]. cbn. intros [Hx Hnd]%NoDup_cons. destruct (f x); [|auto]. cbn.
  apply NoDup_cons. split; [|auto]. intros (y & Hy & Hin)%list_elem_of_fmap. apply Hx. rewrite Hy.
  apply list_elem_of_fmap. exists y. split; [done|]. apply list_elem_of_In, filter_In in Hin as [Hin _].
  by apply list_elem_of_In.
Qed.

Lemma filter_length_lt {A} (f : A → bool) l x : x ∈ l → f x = false → (length (List.filter f l) < length l)%nat.
Proof.
  induction l as [|y l IH]; [set_solver|]. intros [->|Hx]%elem_of_cons Hf; cbn.
  - rewrite Hf. pose proof (filter_length_le f l). lia.
  - specialize (IH Hx Hf). destruct (f y); cbn; lia.
Qed.

(** Marking keeps the pending messages distinct and within the limit. *)
Lemma mark_pending_wf id now l :
  NoDup (map fst l) → (length l ≤ PENDING_LIMIT)%nat →
  NoDup (map fst (mark_pending id now l)) ∧ (length (mark_pending id now l) ≤ PENDING_LIMIT)%nat.
Proof.
  intros Hnd Hl. unfold mark_pending. pose proof (pend_set_nodup id now l Hnd) as Hs.
  pose proof (pend_set_length id now l) as Hlen. set (l' := pend_set id now l) in *.
  destruct (PENDING_LIMIT <? length l')%nat eqn:E; [|apply Nat.ltb_ge in E; done].
  apply Nat.ltb_lt in E. split; [by apply filter_fst_nodup|].
  set (o := order_by (λ a b : string * Z, a.2 <=? b.2) l').
  assert (length o = length l') as Ho by apply length_order_by.
  destruct o as [|x o'] eqn:Eo; [cbn in Ho; lia|].
  assert (x ∈ l') as Hx by (apply (elem_of_order_by (λ a b : string * Z, a.2 <=? b.2)); fold o; rewrite Eo; set_solver).
  enough (length (List.filter (λ p, negb (str_in p.1 (oldest_pending l'))) l') < length l')%nat by lia.
  apply (filter_length_lt _ _ x Hx). apply negb_false_iff, str_in_spec. unfold oldest_pending. fold o. rewrite Eo.
  change PENDING_EVICTED with (S 127). cbn [take map]. set_solver.
Qed.

Lemma mark_wf id now : keeps_wf (mark_ambient_pending id now).
Proof.
  intros w [H1 H2 H3]. destruct (mark_pending_wf id now (gt_pending w) H1 H2) as [Hd Hb].
  constructor; [exact Hd|exact Hb|exact H3].
Qed.

Lemma counter_wf k m l w : memory_wf w → 0 ≤ m → memory_wf (w <| gt_ambient ::= <[k := (m, l)]> |>).
Proof.
  intros [H1 H2 H3] Hm. constructor; [exact H1|exact H2|]. cbn. intros k' m' l'.
  destruct (decide (k = k')) as [->|Hne].
  - rewrite lookup_insert. case_decide; [|done]. intros [= <- <-]. done.
  - rewrite lookup_insert_ne by done. apply H3.
Qed.

Lemma current_counter w k m l : memory_wf w → default (0, 0) (gt_ambient w !! k) = (m, l) → 0 ≤ m.
Proof.
  intros Hw. destruct (gt_ambient w !! k) as [[m' l']|] eqn:E; cbn; intros [= <- <-]; [by eapply wf_counters|lia].
Qed.

Lemma note_wf channel chat_id : keeps_wf (note_ambient_message channel chat_id).
Proof.
  intros w Hw. unfold note_ambient_message, modify_gate. destruct (default _ _) as [m l] eqn:E. cbn [snd].
  apply counter_wf; [done|]. apply current_counter in E; [lia|done].
Qed.

Lemma brake_wf g channel chat_id now : keeps_wf (ambient_brake_allows g channel chat_id now).
Proof.
  intros w Hw. unfold ambient_brake_allows. destruct (default _ _) as [m l] eqn:E.
  assert (memory_wf (w <| gt_ambient ::= <[chat_key channel chat_id := (m, l)]> |>)) as H'
    by (apply counter_wf; [done|by eapply current_counter]).
  by repeat case_match.
Qed.

Lemma ambient_wf g r ra now o : keeps_wf (ambient_outcome g r ra now o).
Proof.
  assert (∀ A (a : A), keeps_wf (pret a)) as Hret by (by intros A a w).
  unfold ambient_outcome. cbv zeta. apply keeps_wf_bind; [by intros w|]. intros u. destruct o; try apply Hret.
  destruct (negb u); [apply Hret|]. destruct (legacy_owner_stood_down g _ _); [apply keeps_wf_bind; [apply mark_wf|intros; apply Hret]|].
  destruct (is_ambient_chat g _ _); [|apply Hret]. destruct (ra =?s "silence"); [apply Hret|].
  apply keeps_wf_bind; [apply note_wf|]. intros _. apply keeps_wf_bind.
  { destruct (_ && _); [apply Hret|]. apply keeps_wf_bind; [apply brake_wf|intros; apply Hret]. }
  intros b. apply keeps_wf_bind; [apply mark_wf|intros; apply Hret].
Qed.
(** Everything else leaves the memory alone. *)
Lemma memory_ret {A} (a : A) : keeps memory (pret a).
Proof. by intros w. Qed.
Lemma memory_get {A} (f : gate_world → A) : keeps memory (pget f).
Proof. by intros w. Qed.
Lemma memory_lift {A} (r : result A) : keeps memory (λ w, (r, w)).
Proof. by intros w. Qed.
Lemma memory_read {A} (f : gate_world → result A) : keeps memory (pread f).
Proof. by intros w. Qed.
Lemma memory_raise {A} e : keeps memory (@praise gate_world A e).
Proof. by intros w. Qed.

Ltac same_memory :=
  repeat match goal with
  | |- keeps _ (pbind _ _) => apply keeps_bind; [|intros ?]
  | |- keeps _ (or_else _ _) => apply keeps_or_else
  | |- keeps _ (or_fail _ _) => apply keeps_or_fail
  | |- keeps _ (on_gate _) => apply memory_on_gate
  | |- keeps _ (pret _) => apply memory_ret
  | |- keeps _ (pget _) => apply memory_get
  | |- keeps _ (praise _) => apply memory_raise
  | |- keeps _ (pread _) => apply memory_read
  | |- keeps _ (λ _, (_, _)) => apply memory_lift
  end.

Lemma journal_memory g r now : keeps memory (journal g r now).
Proof.
  unfold journal, register_observed_source. same_memory; repeat case_match; same_memory.
Qed.

Lemma continue_memory g r c healthy shadow now : keeps memory (continue_from g r c healthy shadow now).
Proof. unfold continue_from. repeat case_match; cbv zeta; same_memory. by destruct (_ && _); same_memory. Qed.

Lemma assign_event_memory g r now allow : keeps memory (assign_event g r now allow).
Proof. unfold assign_event. case_match; same_memory. Qed.

Lemma fence_memory g r d a now : keeps memory (fence_direct g r d a now).
Proof.
  unfold fence_direct. repeat (case_match; same_memory); cbv zeta; same_memory.
Qed.

Lemma record_memory r sn o rs pd j t sh a ra rc am f an : keeps memory (record r sn o rs pd j t sh a ra rc am f an).
Proof. unfold record. cbv zeta. same_memory. Qed.

Lemma admit_wf g sn t r c : keeps_wf (gate_admit g sn t r c).
Proof.
  unfold gate_admit. cbv zeta. destruct (negb _ && negb _); [by intros w|].
  apply keeps_wf_bind; [apply memory_keeps_wf, journal_memory|]. intros j.
  apply keeps_wf_bind; [apply memory_keeps_wf, continue_memory|]. intros [r' a].
  assert (∀ A B (p : prog gate_world A) (k : A → B), keeps memory p → keeps_wf (let* x := p in pret (k x))) as Hm.
  { intros A B p k Hp. apply memory_keeps_wf. by apply keeps_bind. }
  destruct (shadowed g _ _).
  { apply keeps_wf_bind; [destruct (ps_healthy sn); [apply Hm, memory_lift|by intros w]|]. intros d. apply Hm, record_memory. }
  destruct (negb _); [apply Hm, record_memory|]. apply keeps_wf_bind; [by intros w|]. intros d.
  destruct (negb _); [apply Hm, record_memory|]. unfold admit_accepted. cbv zeta.
  apply keeps_wf_bind; [apply ambient_wf|]. intros [o am].
  apply keeps_wf_bind; [apply memory_keeps_wf, assign_event_memory|]. intros asg.
  apply keeps_wf_bind; [apply memory_keeps_wf, fence_memory|]. intros fence. apply Hm, record_memory.
Qed.

Lemma admit_reply_memory g e t : keeps memory (admit_reply g e t).
Proof.
  unfold admit_reply, reconcile_reply. cbv zeta.
  repeat first [apply assign_event_memory|progress same_memory|case_match].
Qed.

Lemma reset_wf now : keeps_wf (reset_ambient_window now).
Proof.
  intros w [H1 H2 H3]. constructor; [exact H1|exact H2|]. cbn. intros k m l Hx.
  apply lookup_fmap_Some in Hx as (y & [= <- <-] & _). done.
Qed.

(** What the channel does with the gate. *)
Inductive gate_op :=
| OpAdmit (sn : PolicySnapshot) (t : gate_ticks) (r : IngestRequest) (c : option ContinuationAnchor)
| OpAdmitReply (e : InboundEvent) (t : gate_ticks)
| OpAnswered (event_id : string) (now : Z)
| OpDeclined (event_id : string) (now : Z)
| OpReacted (event_id : string) (now : Z).

Definition run_gate_op (g : IngestGate) (w : gate_world) (o : gate_op) : gate_world :=
  match o with
  | OpAdmit sn t r c => (gate_admit g sn t r c w).2
  | OpAdmitReply e t => (admit_reply g e t w).2
  | OpAnswered id now => (note_ambient_answer id now w).2
  | OpDeclined id now => (note_ambient_declined id now w).2
  | OpReacted id now => (note_ambient_reacted id now w).2
  end.

(** C28: The gate's memory is well formed and bounded for ever. From a fresh start, whatever
    messages, replies and verdicts follow in whatever order, the pending ambient messages
    are distinct and never more than [PENDING_LIMIT], and no brake counter is negative. *)
Theorem gate_memory_wf g s ops : memory_wf (foldl (run_gate_op g) (MkGateWorld s ∅ []) ops).
Proof.
  enough (∀ w, memory_wf w → memory_wf (foldl (run_gate_op g) w ops)) as Hall.
  { apply Hall. constructor; [apply NoDup_nil_2|cbn; lia|]. intros k m l Hx. discriminate Hx. }
  induction ops as [|o ops IH]; intros w Hw; [done|]. cbn [foldl]. apply IH.
  destruct o as [sn t r c|e t|id now|id now|id now]; cbn [run_gate_op].
  - by apply admit_wf.
  - by apply (memory_keeps_wf _ (admit_reply_memory g e t)).
  - apply (keeps_wf_bind (modify_gate _) (λ _, reset_ambient_window now)); [|intros; apply reset_wf|done].
    intros w1 [H1 H2 H3]. constructor; [by apply filter_fst_nodup| |exact H3].
    cbn. pose proof (filter_length_le (λ p : string * Z, negb (has_id fst id p)) (gt_pending w1)). lia.
  - by apply reset_wf.
  - by apply reset_wf.
Qed.

(** An ambient message speaks only after a yes. In a managed chat a message that waits for
    its verdict is refused as a reply, and nothing changes; a no, or a reaction as the
    reply, leaves it waiting; and a yes takes exactly that message off the list. *)
Theorem ambient_waits_for_verdict g e t w m now :
  enabled_for g (ie_channel e) (ie_chat_id e) = true → shadowed g (ie_channel e) (ie_chat_id e) = false →
  ie_message_id e = Some m → is_ambient_pending m w = true →
  admit_reply g e t w = (Ok false, w) ∧
  is_ambient_pending m (note_ambient_declined m now w).2 = true ∧
  is_ambient_pending m (note_ambient_reacted m now w).2 = true ∧
  ∀ x, is_ambient_pending x (note_ambient_answer m now w).2 = negb (x =?s m) && is_ambient_pending x w.
Proof.
  intros He Hs Hm Hp. split; [|split; [done|split; [done|]]].
  - unfold admit_reply. rewrite He, Hs. cbn [negb orb]. destruct (negb _); [done|].
    unfold pbind, pget. rewrite Hm. change (default "" (Some m)) with m. by rewrite Hp.
  - intros x. unfold is_ambient_pending, note_ambient_answer. cbn. unfold row_exists, has_id. clear Hp.
    induction (gt_pending w) as [|[k v] l IH]; [by rewrite andb_false_r|]. cbn [List.filter existsb fst].
    destruct (k =?s m) eqn:Ek; cbn [negb existsb fst]; rewrite IH.
    + apply str_eqb_eq in Ek as ->. destruct (m =?s x) eqn:E; [|done]. apply str_eqb_eq in E as ->. by rewrite str_eqb_refl.
    + destruct (k =?s x) eqn:E; [|done]. apply str_eqb_eq in E as ->. by rewrite Ek.
Qed.
End Props.

(** ** Witnesses *)
#[local] Existing Instance plain_sha256.

Definition actor_of_request (r : IngestRequest) : ActorContext :=
  let e := in_event r in
  MkActor (ie_channel e) (ie_chat_id e) (ie_sender_id e) [ie_sender_id e] (ie_is_group e) (ie_mentioned_bot e)
    (ie_reply_to_bot e) (ie_content e) false.

(** The house group, managed, with ambient answers released; a second chat is shadowed. *)
Definition house_gate : IngestGate :=
  {| ig_config := MkGateConfig true ["whatsapp:g@g.us"] ["whatsapp:s@g.us"] [] ["whatsapp:g@g.us"] 300 6;
     ig_threads := Some (MkRegistry (rg_policy registry) ["whatsapp:g@g.us"]);
     ig_evaluate := λ r, (evaluate ascii_alnum house_engine (actor_of_request r) ∅ ∅).1;
     ig_participation_owns := None; ig_direct_classifier := None;
     ig_note_direct_admission := Some note_direct_admission; ig_cancel_chat := None; ig_source_registrar := None;
     ig_continuation := None; ig_names_bot := λ _, false |}.

Lemma note_direct_conversation a b c d n : keeps conversation (note_direct_admission a b c d n).
Proof. unfold note_direct_admission. repeat (case_match; try by intros ?); solve_keeps. Qed.

Lemma house_callbacks : callbacks_quiet house_gate.
Proof.
  constructor.
  - intros f id Hf. discriminate Hf.
  - intros f a b c d n Hf. injection Hf as <-. apply note_direct_conversation.
  - intros f a b Hf. discriminate Hf.
Qed.

Definition message_from (sender chat text message_id : string) (mentioned : bool) : InboundEvent :=
  MkInbound "whatsapp" chat sender text (Some message_id) 100 true mentioned false None None None [] [].

Definition request_of (e : InboundEvent) : IngestRequest :=
  MkIngest ("whatsapp:" +:+ ie_chat_id e +:+ ":" +:+ default "" (ie_message_id e)) (default "" (ie_message_id e)) "t" e [].

Definition house_snapshot : PolicySnapshot := MkSnapshot "v1" "h" true.
Definition fresh_world : gate_world := MkGateWorld empty_db ∅ [].

Lemma blocked_result :
  ∃ res w', gate_admit house_gate house_snapshot (MkTicks 100 110 "d1") (request_of (message_from "491555" "g@g.us" "@bot hi" "m1" true))
    None fresh_world = (Ok (Some res), w') ∧ fg_shadow res = false ∧ fg_outcome res = Deny.
Proof. do 2 eexists. split; [vm_compute; reflexivity|split; reflexivity]. Qed.

Lemma mentioned_result :
  ∃ res w', gate_admit house_gate house_snapshot (MkTicks 100 110 "d1") (request_of (message_from "492222" "g@g.us" "@bot hi" "m1" true))
    None fresh_world = (Ok (Some res), w') ∧ fg_shadow res = false ∧ fg_outcome res = React ∧ fg_direct_admitted res = true ∧
    length (turns (gt_store w')) = 1%nat.
Proof. do 2 eexists. split; [vm_compute; reflexivity|]. do 3 (split; [reflexivity|]). reflexivity. Qed.

Lemma gate_verdict_witness :
  ∃ res w', gate_admit house_gate house_snapshot (MkTicks 100 110 "d1") (request_of (message_from "491555" "g@g.us" "@bot hi" "m1" true))
    None fresh_world = (Ok (Some res), w') ∧ fg_outcome res = Deny ∧ idle w' = idle fresh_world.
Proof.
  destruct blocked_result as (res & w' & Hx & Hs & Ho). exists res, w'. split; [exact Hx|]. split; [exact Ho|].
  destruct (gate_verdict house_gate house_snapshot (MkTicks 100 110 "d1")
    (request_of (message_from "491555" "g@g.us" "@bot hi" "m1" true)) None fresh_world res w' house_callbacks Hx Hs)
    as (r' & _ & _ & Hd & _). exact (proj1 (Hd Ho)).
Defined.

Lemma unowned_chats_untouched_witness :
  let r := request_of (message_from "492222" "s@g.us" "@bot hi" "m1" true) in
  idle (gate_admit house_gate house_snapshot (MkTicks 100 110 "d1") r None fresh_world).2 = idle fresh_world ∧
  admit_reply house_gate (in_event r) (MkTicks 120 130 "d2") fresh_world = (Ok true, fresh_world).
Proof.
  destruct (unowned_chats_untouched house_gate house_snapshot (MkTicks 100 110 "d1")
    (request_of (message_from "492222" "s@g.us" "@bot hi" "m1" true)) None fresh_world
    (message_from "492222" "s@g.us" "@bot hi" "m1" true) house_callbacks eq_refl eq_refl (or_introl eq_refl)) as (H1 & _ & H2).
  split; [exact (proj1 (H2 eq_refl))|exact H1].
Defined.

(** 512 messages of the group wait for their verdict. *)
Definition full_world : gate_world :=
  MkGateWorld empty_db {["whatsapp:g@g.us" := (3, 50); "whatsapp:o@g.us" := (5, 60)]}
    (map (λ n, (pretty n, Z.of_nat n)) (seq 0 512)).

Definition waiting_message : InboundEvent := message_from "492222" "g@g.us" "what do you think?" "0" false.

Lemma waiting_is_pending : is_ambient_pending "0" full_world = true.
Proof. vm_compute. reflexivity. Qed.

Lemma ambient_waits_for_verdict_witness :
  admit_reply house_gate waiting_message (MkTicks 900 910 "d1") full_world = (Ok false, full_world) ∧
  is_ambient_pending "0" (note_ambient_declined "0" 800 full_world).2 = true.
Proof.
  destruct (ambient_waits_for_verdict house_gate waiting_message (MkTicks 900 910 "d1") full_world "0" 800) as (H1 & H2 & _);
    [reflexivity|reflexivity|reflexivity|exact waiting_is_pending|]. split; [exact H1|exact H2].
Defined.

(** A declined message is forgotten after 512 newer ones: the 513th pending message evicts
    the 128 oldest, and what was refused before is then admitted as a reply. *)
Example evicted_message_is_answered :
  let declined := (note_ambient_declined "0" 800 full_world).2 in
  let later := (mark_ambient_pending "512" 850 declined).2 in
  (admit_reply house_gate waiting_message (MkTicks 900 910 "d1") declined).1 = Ok false ∧
  is_ambient_pending "0" later = false ∧
  (admit_reply house_gate waiting_message (MkTicks 900 910 "d1") later).1 = Ok true.
Proof. cbv zeta. split; [vm_compute; reflexivity|]. split; vm_compute; reflexivity. Qed.

(** A verdict in one chat restarts the brake of every chat. *)
Example answer_resets_every_chat :
  gt_ambient (note_ambient_answer "0" 800 full_world).2 !! "whatsapp:o@g.us" = Some (0, 800).
Proof. by vm_compute. Qed.
