(* ===== verification/QuietOps.v ===== *)
(** * QuietOps

    The instances of [Quiet] and [Silent] for every modelled operation of the store, the
    gateway and reconciliation: what runs as abstract outbox steps, and what leaves the
    outbox alone. *)

From Stdlib Require Import ZArith Lia.
From S2P Require Import Prelude Tables Json Models Schema Outbox OutboxFacts OutboxSpec OutboxRefine.
From S2P Require Import Quiet Fixtures OutboxProps ThreadStore ThreadProps Mailbox Budget Quota.
From S2P Require Import Journal Receipts Authority Gateway Retention Admissions Reconcile ReconcileProps Routing Registry.

(** ** Instances: the operations outside the outbox *)

Section Instances.
  Context `{Sha256}.

#[export] Instance silent_open_thread a b c d e n : Silent (open_thread a b c d e n).
Proof. unfold open_thread. solve_silent. Qed.
#[export] Instance silent_touch_thread a n : Silent (touch_thread a n).
Proof. solve_silent. Qed.
#[export] Instance silent_reopen_thread a n : Silent (reopen_thread a n).
Proof. solve_silent. Qed.
#[export] Instance silent_reactivate a n : Silent (reactivate a n).
Proof. solve_silent. Qed.
#[export] Instance silent_open_turn a b c n st : Silent (open_turn a b c n st).
Proof. unfold open_turn. solve_silent. Qed.
#[export] Instance silent_close_turn a n st : Silent (close_turn a n st).
Proof. unfold close_turn. destruct (negb _); [apply _|]. solve_silent. Qed.
#[export] Instance silent_add_source a b c d n m : Silent (add_turn_source a b c d n m).
Proof. unfold add_turn_source. solve_silent. Qed.
#[export] Instance silent_remove_source a b n : Silent (mark_turn_source_removed a b n).
Proof. solve_silent. Qed.
#[export] Instance silent_assignment a b c : Silent (attach_event_assignment a b c).
Proof. solve_silent. Qed.
#[export] Instance silent_register a n b c d e f : Silent (register_thread_message a n b c d e f).
Proof. unfold register_thread_message. solve_silent. Qed.
#[export] Instance silent_confirm a b n : Silent (attach_confirmed_message_id a b n).
Proof. unfold attach_confirmed_message_id. destruct (negb _); [apply _|]. solve_silent. Qed.
#[export] Instance silent_finish_generation a n b c : Silent (finish_generation a n b c).
Proof. solve_silent. Qed.

#[export] Instance silent_bump_revision a n m : Silent (bump_turn_revision a n m).
Proof.
  apply silent_bind; [solve_silent|]. intros [[t|] th]; [by intros s|apply _].
Qed.
#[export] Instance silent_bump_context a n : Silent (bump_context_version a n).
Proof. apply silent_bind; [solve_silent|]. intros [t|]; apply _. Qed.

(** A fold of steps that keep the two tables keeps them. *)
Lemma foldl_keeps {A B} (table : db → B) (step : db → A → db) l s :
  (∀ s x, table (step s x) = table s) → table (foldl step s l) = table s.
Proof. intros Hs. revert s. induction l as [|x l IH]; intros s; simpl; [done|]. by rewrite IH. Qed.

#[export] Instance silent_mark_dormant ids n r : Silent (mark_dormant ids n r).
Proof.
  apply silent_write. intros s a s' Hb. injection Hb as Hb.
  enough (∀ l acc, effects (foldl (mark_dormant_one n r) acc l).2 = effects acc.2 ∧
            effect_attempts (foldl (mark_dormant_one n r) acc l).2 = effect_attempts acc.2) as Hgo.
  { specialize (Hgo (dedup [] ids) ([], s)). by rewrite Hb in Hgo. }
  induction l as [|x l IH]; intros acc; [done|]. cbn [foldl]. destruct (IH (mark_dormant_one n r acc x)) as [-> ->].
  destruct acc as [ch s0]. unfold mark_dormant_one. by destruct (thread_busy x s0).
Qed.

#[export] Instance silent_settle n i sk l : Silent (settle_idle_turns n i sk l).
Proof.
  apply silent_write. intros s a s' Hb. injection Hb as _ <-.
  enough (∀ cs acc, effects (sa_db (foldl (settle_turn n i sk) acc cs)) = effects (sa_db acc) ∧
     effect_attempts (sa_db (foldl (settle_turn n i sk) acc cs)) = effect_attempts (sa_db acc)) as Hgo
    by apply (Hgo _ (MkSettle [] [] s)).
  induction cs as [|c cs IH]; intros acc; [done|]. cbn [foldl].
  destruct (IH (settle_turn n i sk acc c)) as [-> ->]. unfold settle_turn.
  destruct (str_in _ sk); [done|]. destruct (List.find _ _) as [[? []]|]; try done.
  by destruct (thread_busy _ _).
Qed.

#[export] Instance silent_close_idle n i : Silent (close_idle_threads n i).
Proof.
  apply silent_write. intros s a s' Hb. injection Hb as _ <-.
  split; by apply foldl_keeps.
Qed.

#[export] Instance silent_record_generation g n : Silent (record_generation g n).
Proof.
  apply silent_write. intros s a s' Hb. injection Hb as _ <-. cbn [effects effect_attempts set_field].
  rewrite !(foldl_keeps _ _ (gsn_sources g)); [done|by intros s0 [[[? ?] ?] ?]..].
Qed.

#[export] Instance silent_enqueue_input a b c d n e f g h i : Silent (enqueue_pending_input a b c d n e f g h i).
Proof. unfold enqueue_pending_input. solve_silent. Qed.
#[export] Instance silent_reserve a b c d u n l w : Silent (reserve_send_budget a b c d u n l w).
Proof. unfold reserve_send_budget. repeat (case_match; try apply _); solve_silent. Qed.
#[export] Instance silent_voice a n c : Silent (claim_voice_send a n c).
Proof. unfold claim_voice_send. repeat (case_match; try apply _); solve_silent. Qed.
#[export] Instance silent_capability a b c n m : Silent (claim_capability a b c n m).
Proof. unfold claim_capability. repeat (case_match; try apply _); solve_silent. Qed.
#[export] Instance silent_release_capability a b c : Silent (release_capability a b c).
Proof. unfold release_capability. repeat (case_match; try apply _); solve_silent. Qed.

#[export] Instance silent_drain a n l : Silent (drain_pending_inputs a n l).
Proof.
  apply silent_write. intros s r s' Hb. injection Hb as _ <-. split; by apply foldl_keeps.
Qed.
#[export] Instance silent_promote a n c : Silent (promote_deferred a n c).
Proof.
  apply silent_write. intros s r s' Hb. cbv zeta in Hb. destruct (_ =? 0); injection Hb as _ <-; [done|].
  split; by apply foldl_keeps.
Qed.
#[export] Instance silent_budget b c d e f u n : Silent (budget_reserve b c d e f u n).
Proof. unfold budget_reserve. solve_quiet. Qed.

#[export] Instance silent_quota_claim p t a c i n : Silent (quota_claim p t a c i n).
Proof.
  unfold quota_claim. repeat (case_match; try apply _). intros s0.
  match goal with |- context [claim_capability ?u ?k ?c ?n ?m s0] =>
    pose proof ((_ : Silent (claim_capability u k c n m)) s0) as Hs;
    destruct (claim_capability u k c n m s0) as [[[[] ?]|?] ?] end; done.
Qed.
#[export] Instance silent_quota_release d : Silent (quota_release d).
Proof.
  unfold quota_release. repeat (case_match; try apply _). intros s0.
  match goal with |- context [release_capability ?u ?k ?c s0] =>
    pose proof ((_ : Silent (release_capability u k c)) s0) as Hs;
    destruct (release_capability u k c s0) as [[?|?] ?] end; done.
Qed.

#[export] Instance silent_append k i t p n a d r u : Silent (append_event k i t p n a d r u).
Proof.
  unfold append_event. repeat (case_match; try apply _). apply silent_write.
  intros s x s' (? & ? & _)%append_conn_outbox. done.
Qed.
#[export] Instance silent_upsert_authority a n : Silent (upsert_event_source_authority a n).
Proof.
  unfold upsert_event_source_authority. cbv zeta. destruct (negb _); [apply _|]. destruct (_ <? 1); [apply _|].
  apply silent_bind; [apply _|]. solve_silent.
Qed.
#[export] Instance silent_revoke_authority e r v n : Silent (revoke_event_source_authority e r v n).
Proof. solve_silent. Qed.
#[export] Instance silent_receipt e c h n a p i d : Silent (record_transport_receipt e c h n a p i d).
Proof.
  intros s. by destruct (record_receipt_cases e c h n a p i d s) as [(err & ->)|(s' & -> & ? & ? & _)].
Qed.
#[export] Instance silent_schedule e n d m : Silent (schedule_probe e n d m).
Proof.
  unfold schedule_probe. case_match; [apply _|]. intros s. by destruct (get_effect e s) as [[?|]|?].
Qed.
#[export] Instance silent_claim_probe p w n l : Silent (claim_probe p w n l).
Proof. unfold claim_probe. repeat (case_match; try apply _); solve_silent. Qed.
#[export] Instance silent_finish_probe p o n w d : Silent (finish_probe p o n w d).
Proof. solve_silent. Qed.

#[export] Instance quiet_purge ret n : Quiet (purge ret n).
Proof.
  eapply outbox_prog_weaken; [apply purge_prog|]. intros r ls ->.
  apply no_requeue_Forall. by repeat constructor.
Qed.

#[export] Instance silent_note_direct a b c d n : Silent (note_direct_admission a b c d n).
Proof. unfold note_direct_admission. cbv zeta. case_match; [apply _|]. solve_silent. Qed.
#[export] Instance silent_finish_direct a n : Silent (finish_direct_admission a n).
Proof. unfold finish_direct_admission. cbv zeta. case_match; [apply _|]. solve_silent. Qed.
#[export] Instance silent_recover_direct n : Silent (recover_direct_admissions n).
Proof.
  apply silent_write. intros s r s' Hb. injection Hb as _ <-. split; by apply foldl_keeps.
Qed.
#[export] Instance silent_short_reply a b c n k w d m : Silent (claim_short_reply a b c n k w d m).
Proof. unfold claim_short_reply. solve_silent. Qed.
#[export] Instance silent_complete a b c o e n : Silent (complete_short_reply a b c o e n).
Proof. solve_silent. Qed.

#[export] Instance silent_note_topic_card t i x n : Silent (note_thread_topic t i x n).
Proof. unfold note_thread_topic. cbv zeta. destruct (_ || _); [apply _|]. solve_silent. Qed.
#[export] Instance silent_forget_topic i n : Silent (forget_topic_source i n).
Proof. unfold forget_topic_source. destruct (negb _); [apply _|]. solve_silent. Qed.
#[export] Instance silent_close_ambient k n l : Silent (close_ambient k n l).
Proof. induction l as [|t l IH]; cbn [close_ambient]; solve_quiet. Qed.
#[export] Instance silent_assign rg e n c t a : Silent (assign rg e n c t a).
Proof.
  unfold assign, persist_ambient, close_previous_ambient_threads, persist, persist_thread, note_topic.
  solve_quiet.
Qed.

(** ** Instances: the gateway and reconciliation *)

Context `{EffectAuthorizer}.

#[export] Instance silent_receipt_view e st k a d : Silent (receipt e st k a d).
Proof. unfold receipt. solve_quiet. Qed.
#[export] Instance quiet_submit env n : Quiet (submit env n).
Proof. unfold submit. solve_quiet. Qed.
#[export] Instance quiet_submit_participation env a d n : Quiet (submit_participation env a d n).
Proof. unfold submit_participation. solve_quiet. Qed.

Lemma quiet_policy_refusal e exp reason now ev w :
  Quiet (transition e exp (state_for_reason reason) now ev w).
Proof.
  unfold state_for_reason. cbv zeta.
  destruct (_ =?s "superseded"); [by apply (quiet_transition e exp cancelled)|].
  destruct (_ =?s "expired"); [apply _|]. by apply (quiet_transition e exp blocked).
Qed.
#[local] Existing Instance quiet_policy_refusal.

#[export] Instance quiet_to_blocked e exp n ev w : Quiet (transition e exp "blocked" n ev w).
Proof. by apply (quiet_transition e exp blocked). Qed.

#[export] Instance quiet_execute_begin g e n u : Quiet (execute_begin g e n u).
Proof. unfold execute_begin. solve_quiet. Qed.

#[export] Instance quiet_execute_finish g e d o n m : Quiet (execute_finish g e d o n m).
Proof.
  unfold execute_finish. cbv zeta. destruct o as [r| |ty msg typed].
  - solve_quiet.
  - solve_quiet.
  - destruct (is_pre_dispatch_error msg typed); solve_quiet.
Qed.

#[export] Instance quiet_operator e d o p h n i : Quiet (operator_decision e d o p h n i).
Proof. unfold operator_decision. solve_quiet. Qed.
#[export] Instance quiet_escalate e n r : Quiet (escalate e n r).
Proof. unfold escalate. solve_quiet. Qed.

#[export] Instance silent_attach_items e n items : Silent (attach_items e n items).
Proof. induction items as [|item items IH]; cbn [attach_items]; solve_quiet. Qed.
#[export] Instance silent_attach e n : Silent (attach_receipt_evidence e n).
Proof. unfold attach_receipt_evidence. solve_quiet. Qed.

#[export] Instance quiet_candidate_begin c w e n f : Quiet (candidate_begin c w e n f).
Proof. unfold candidate_begin, probe_begin. solve_quiet. Qed.

#[export] Instance silent_first_probes n ids : Silent (schedule_first_probes n ids).
Proof. induction ids as [|e ids IH]; cbn [schedule_first_probes]; solve_quiet. Qed.
#[export] Instance quiet_tick n : Quiet (tick_candidates n).
Proof. unfold tick_candidates. solve_quiet. Qed.

End Instances.
