(* ===== verification/System.v ===== *)
(** * System

    The whole processing store at work: every modelled operation that writes, as one step
    of an interleaved run. A handler that awaits (the executor, a probe) is two steps, so a
    run may put anything between them. The theorems hold of every run from an empty store,
    whoever calls what in which order and with which clock. *)

From Stdlib Require Import ZArith Lia.
From S2P Require Import Prelude Tables Json Models Schema Outbox OutboxFacts OutboxSpec OutboxRefine.
From S2P Require Import Quiet Fixtures OutboxProps ThreadStore ThreadProps Mailbox Budget Quota.
From S2P Require Import Journal Receipts Authority Gateway Retention Admissions Reconcile ReconcileProps Routing Registry QuietOps.

(** ** Runs *)

(** One atomic step of the system, with the arguments its caller chose. *)
Inductive op :=
| OAppendEvent (event_key event_id trace_id : string) (payload : event_arg) (now : Z)
    (account direction : option string) (revision : option Z) (audience : option string)
| OUpsertAuthority (a : authority_args) (now : Z)
| ORevokeAuthority (event : string) (revision : Z) (revoking : option string) (now : Z)
| OProjectRevocation (e : CanonicalEvent) (now : Z)
| ORecordDecision (d : DecisionRecord)
| OEnqueue (a : effect_args) (state : string)
| OSubmit (e : EffectEnvelope) (now : Z)
| OSubmitParticipation (e : EffectEnvelope) (admission_id : string) (data : dict) (now : Z)
| OClaim (e worker : string) (now lease : Z) (version : option string) (attempt_id : string)
| ORelease (e worker : string) (now : Z)
| OTransition (e : string) (expected : list string) (target : string) (now : Z)
    (evidence : evidence_arg) (worker : option string)
| OEvidence (e kind : string) (now : Z) (detail worker : option string)
| ORecover (now : Z)
| OCancelStale (turn : string) (revision now : Z) (reason : string)
| OExecuteBegin (g : EffectGateway) (e : string) (now : Z) (attempt_uuid : string)
| OExecuteFinish (g : EffectGateway) (e : string) (d : dispatch) (o : exec_outcome) (now_r now : Z)
| OReceipt (e channel chat_id : string) (now : Z) (attempt provider client detail : option string)
| OScheduleProbe (e : string) (attempt due now : Z)
| OClaimProbe (probe worker : string) (now lease : Z)
| OFinishProbe (probe outcome : string) (now : Z) (worker : string) (detail : option string)
| OTick (now : Z)
| OCandidateBegin (cfg : reconcile_config) (worker e : string) (now : Z) (force : bool)
| OCandidateFinish (worker e : string) (c : probe_call) (awaited : probe_await) (now_f now_r : Z)
| OReconcile (e : string) (st : EffectState) (r : ProbeResult) (moment : Z) (deadline : option Z)
| OOperator (e decision operator version hash : string) (now : Z) (decision_id : string)
| OAttachEvidence (e : string) (now : Z)
| OOpenThread (channel chat_id principal kind trigger : string) (now : Z)
| OTouchThread (th : string) (now : Z)
| OReopenThread (th : string) (now : Z)
| OMarkDormant (ths : list string) (now : Z) (reason : string)
| OReactivate (th : string) (now : Z)
| OCloseIdle (now idle : Z)
| OReset (channel chat_id : string) (now : Z)
| OOpenTurn (th principal trigger : string) (now : Z) (state : string)
| OCloseTurn (turn : string) (now : Z) (state : string)
| OBumpRevision (turn : string) (expected now : Z)
| OBumpContext (turn : string) (now : Z)
| OSettle (now idle : Z) (skip : list string) (limit : Z)
| OAddSource (turn event : string) (message : option string) (role : string) (revision now : Z)
| ORemoveSource (turn event : string) (now : Z)
| OAssign (event : string) (th turn : option string)
| OAssignEvent (rg : ThreadRegistry) (e : CanonicalEvent) (now : Z) (correction break : option bool)
    (allow_turn : bool)
| ONoteTopic (th source text : string) (now : Z)
| OForgetTopic (source : string) (now : Z)
| ORegisterMessage (th : string) (now : Z) (direction : string) (turn event e message : option string)
| OConfirmMessage (e message : string) (now : Z)
| ORecordGeneration (g : GenerationSnapshot) (now : Z)
| OFinishGeneration (g : string) (now : Z) (outcome : string) (detail : option string)
| OEnqueueInput (input th event principal : string) (now : Z) (turn : option string) (kind : string)
    (decision : option string) (relevance : string) (cap : option Z)
| ODrain (th : string) (now : Z) (limit : option Z)
| OPromote (th : string) (now capacity : Z)
| OReserve (b : ChatBudget) (channel chat_id e attempt : string) (units now : Z)
| OVoice (principal : string) (now cooldown : Z)
| OQuotaClaim (provider : option (result policy_snapshot)) (tool : string) (arguments : dict)
    (context : option quota_context) (claim_id : string) (clock : Z)
| OQuotaRelease (d : CapabilityQuotaDecision)
| OPurge (retention : RetentionSettings) (now : Z)
| ONoteDirect (channel chat_id event turn : string) (now : Z)
| OFinishDirect (turn : string) (now : Z)
| ORecoverDirect (now : Z)
| OShortReply (channel chat_id message : string) (now count window cooldown : Z) (mode : string)
| OCompleteShortReply (channel chat_id message outcome : string) (emoji : option string) (now : Z).

(** What an observer outside the store notes: the executor is called for an effect; an
    effect is declared fit for another execution. *)
Inductive event :=
| Dispatched (e : string)
| Requeued (e : string).

#[export] Instance event_eq_dec : EqDecision event.
Proof. solve_decision. Defined.

Section System.
  Context `{Sha256} `{EffectAuthorizer}.

Definition quietly {A} (p : prog db A) : db → list event * db := λ s, ([], (p s).2).

Definition is_not_executed (o : ProbeOutcome) : bool :=
  match o with NOT_EXECUTED => true | _ => false end.

(** The verdict a returned probe carries. *)
Definition awaited_not_executed (a : probe_await) : bool :=
  match a with ProbeReturned r => is_not_executed (prs_outcome r) | _ => false end.

Definition run_op (o : op) : db → list event * db :=
  match o with
  | OAppendEvent k i t p n a d r u => quietly (append_event k i t p n a d r u)
  | OUpsertAuthority a n => quietly (upsert_event_source_authority a n)
  | ORevokeAuthority e r v n => quietly (revoke_event_source_authority e r v n)
  | OProjectRevocation e n => quietly (project_source_revocation e n)
  | ORecordDecision d => quietly (record_decision d)
  | OEnqueue a st => quietly (enqueue_effect a st)
  | OSubmit e n => quietly (submit e n)
  | OSubmitParticipation e a d n => quietly (submit_participation e a d n)
  | OClaim e w n l v a => quietly (claim_effect e w n l v a)
  | ORelease e w n => quietly (release_claim e w n)
  | OTransition e exp t n ev w => λ s,
      let out := transition e exp t n ev w s in
      (match out.1, effect_state e s with
       | Ok true, Some st => if (t =?s "queued") && state_in st [unknown; failed]
                             then [Requeued e] else []
       | _, _ => []
       end, out.2)
  | OEvidence e k n d w => quietly (record_evidence e k n d w)
  | ORecover n => quietly (recover_expired_claims n)
  | OCancelStale t r n why => quietly (cancel_stale_effects t r n why)
  | OExecuteBegin g e n u => λ s,
      let out := execute_begin g e n u s in
      (match out.1 with Ok (inr _) => [Dispatched e] | _ => [] end, out.2)
  | OExecuteFinish g e d o n m => quietly (execute_finish g e d o n m)
  | OReceipt e c h n a p i d => quietly (record_transport_receipt e c h n a p i d)
  | OScheduleProbe e a d n => quietly (schedule_probe e a d n)
  | OClaimProbe p w n l => quietly (claim_probe p w n l)
  | OFinishProbe p o n w d => quietly (finish_probe p o n w d)
  | OTick n => quietly (tick_candidates n)
  | OCandidateBegin c w e n f => quietly (candidate_begin c w e n f)
  | OCandidateFinish w e c a n m => λ s,
      (if awaited_not_executed a then [Requeued e] else [], (probe_finish w e c a n m s).2)
  | OReconcile e st r n d => λ s,
      (if is_not_executed (prs_outcome r) then [Requeued e] else [], (reconcile_resume e st r n d s).2)
  | OOperator e d o v h n i => quietly (operator_decision e d o v h n i)
  | OAttachEvidence e n => quietly (attach_receipt_evidence e n)
  | OOpenThread c h p k t n => quietly (open_thread c h p k t n)
  | OTouchThread t n => quietly (touch_thread t n)
  | OReopenThread t n => quietly (reopen_thread t n)
  | OMarkDormant l n r => quietly (mark_dormant l n r)
  | OReactivate t n => quietly (reactivate t n)
  | OCloseIdle n i => quietly (close_idle_threads n i)
  | OReset c h n => quietly (close_chat_threads c h n)
  | OOpenTurn t p e n st => quietly (open_turn t p e n st)
  | OCloseTurn t n st => quietly (close_turn t n st)
  | OBumpRevision t e n => quietly (bump_turn_revision t e n)
  | OBumpContext t n => quietly (bump_context_version t n)
  | OSettle n i sk l => quietly (settle_idle_turns n i sk l)
  | OAddSource t e m r v n => quietly (add_turn_source t e m r v n)
  | ORemoveSource t e n => quietly (mark_turn_source_removed t e n)
  | OAssign e t u => quietly (attach_event_assignment e t u)
  | OAssignEvent rg e n c t a => quietly (assign rg e n c t a)
  | ONoteTopic t i x n => quietly (note_thread_topic t i x n)
  | OForgetTopic i n => quietly (forget_topic_source i n)
  | ORegisterMessage t n d u v e m => quietly (register_thread_message t n d u v e m)
  | OConfirmMessage e m n => quietly (attach_confirmed_message_id e m n)
  | ORecordGeneration g n => quietly (record_generation g n)
  | OFinishGeneration g n o d => quietly (finish_generation g n o d)
  | OEnqueueInput i t e p n u k d r c => quietly (enqueue_pending_input i t e p n u k d r c)
  | ODrain t n l => quietly (drain_pending_inputs t n l)
  | OPromote t n c => quietly (promote_deferred t n c)
  | OReserve b c h e a u n => quietly (budget_reserve b c h e a u n)
  | OVoice p n c => quietly (claim_voice_send p n c)
  | OQuotaClaim p t a c i n => quietly (quota_claim p t a c i n)
  | OQuotaRelease d => quietly (quota_release d)
  | OPurge r n => quietly (purge r n)
  | ONoteDirect c h e t n => quietly (note_direct_admission c h e t n)
  | OFinishDirect t n => quietly (finish_direct_admission t n)
  | ORecoverDirect n => quietly (recover_direct_admissions n)
  | OShortReply c h m n k w d mode => quietly (claim_short_reply c h m n k w d mode)
  | OCompleteShortReply c h m o e n => quietly (complete_short_reply c h m o e n)
  end.

(** A run: the events in order, and the store it leaves. *)
Fixpoint run (ops : list op) (s : db) : list event * db :=
  match ops with
  | [] => ([], s)
  | o :: ops' =>
      let (es, s1) := run_op o s in
      let (es', s2) := run ops' s1 in
      (es ++ es', s2)
  end.

Definition dispatches (e : string) (es : list event) : nat :=
  rowcount (λ x, bool_decide (x = Dispatched e)) es.
Definition requeued (e : string) (es : list event) : nat :=
  rowcount (λ x, bool_decide (x = Requeued e)) es.

(** ** Every run is a run of the abstract outbox *)

(** Labels that account for the observed events. *)
Definition accounts (es : list event) (ls : list label) : Prop :=
  ∀ e, (dispatches e es ≤ claims_of e ls)%nat ∧ (requeues_of e ls ≤ requeued e es)%nat.

Lemma accounts_app es1 es2 l1 l2 :
  accounts es1 l1 → accounts es2 l2 → accounts (es1 ++ es2) (l1 ++ l2).
Proof.
  intros H1 H2 e. destruct (H1 e), (H2 e). unfold dispatches, requeued in *.
  rewrite !rowcount_app, claims_of_app, requeues_of_app. lia.
Qed.

Definition op_refines (f : db → list event * db) : Prop :=
  ∀ s, outbox_inv s → ∃ ls, outbox_steps ls s (f s).2 ∧ accounts (f s).1 ls.

Lemma quietly_refines {A} (p : prog db A) `{!Quiet p} : op_refines (quietly p).
Proof.
  intros s Hi. destruct (quiet (p := p) s Hi) as (ls & Hs & Hq). exists ls. split; [done|].
  intros e. rewrite Hq. split; apply Nat.le_0_l.
Qed.

(** Nothing dispatched, and at most one requeue of [e]. *)
Lemma accounts_requeue e es ls :
  es = [] ∧ no_requeue ls ∨ es = [Requeued e] ∧ (∀ x, requeues_of x ls ≤ if e =?s x then 1 else 0)%nat →
  accounts es ls.
Proof.
  intros [[-> Hq]|[-> Hq]] x.
  - rewrite Hq. split; apply Nat.le_0_l.
  - split; [apply Nat.le_0_l|]. etrans; [apply Hq|]. unfold requeued, rowcount, select. cbn [List.filter].
    destruct (e =?s x) eqn:E; [|lia]. apply str_eqb_eq in E as ->. by rewrite bool_decide_true.
Qed.

Lemma requeue_label_bound e c t kinds x :
  (requeues_of x [LMove e c t kinds] ≤ if e =?s x then 1 else 0)%nat.
Proof.
  unfold requeues_of, rowcount, select. cbn [List.filter is_requeue].
  destruct (e =?s x); cbn [andb]; [|simpl; lia]. destruct (_ && _ && _); simpl; lia.
Qed.

Definition one_requeue (e : string) (ls : list label) : Prop :=
  ∀ x, (requeues_of x ls ≤ if e =?s x then 1 else 0)%nat.

(** Runs as outbox steps of which at most one is a requeue, and that of [e]. *)
Definition requeues_once {A} (e : string) (p : prog db A) : Prop :=
  outbox_prog p (λ _ ls, one_requeue e ls).

Lemma requeues_once_transition e exp tgt now ev w : requeues_once e (transition e exp tgt now ev w).
Proof.
  eapply outbox_prog_weaken; [apply transition_prog|].
  intros r ls [(_ & c & t & -> & _)|[_ ->]] x; [apply requeue_label_bound|apply Nat.le_0_l].
Qed.

Lemma requeues_once_quiet {A} e (p : prog db A) : Quiet p → requeues_once e p.
Proof. intros Hq. eapply outbox_prog_weaken; [exact Hq|]. intros r ls Hl x. rewrite Hl. lia. Qed.

Lemma requeues_once_before {A B} e (m : prog db A) (k : A → prog db B) :
  requeues_once e m → (∀ a, Quiet (k a)) → requeues_once e (pbind m k).
Proof.
  intros Hm Hk. eapply outbox_prog_weaken; [exact (outbox_prog_bind m k (one_requeue e) no_requeue Hm Hk)|].
  intros r ls (l1 & l2 & -> & H1 & [H2| ->]) x; rewrite requeues_of_app, ?H2; specialize (H1 x);
    [lia|]. change (requeues_of x []) with 0%nat. lia.
Qed.

Lemma requeues_once_after {A B} e (m : prog db A) (k : A → prog db B) :
  Quiet m → (∀ a, requeues_once e (k a)) → requeues_once e (pbind m k).
Proof.
  intros Hm Hk. eapply outbox_prog_weaken; [exact (outbox_prog_bind m k no_requeue (one_requeue e) Hm Hk)|].
  intros r ls (l1 & l2 & -> & H1 & [H2| ->]) x; rewrite requeues_of_app, H1; [apply H2|].
  change (requeues_of x []) with 0%nat. lia.
Qed.

Lemma reconcile_resume_once e st r now deadline : requeues_once e (reconcile_resume e st r now deadline).
Proof.
  unfold reconcile_resume. cbv zeta. destruct (prs_outcome r).
  - apply requeues_once_quiet. solve_quiet.
  - apply requeues_once_before; [apply requeues_once_transition|solve_quiet].
  - apply requeues_once_quiet. solve_quiet.
Qed.

Lemma reconcile_effect_once e probe now n deadline :
  requeues_once e (reconcile_effect e probe (pret tt) now n deadline).
Proof.
  unfold reconcile_effect. apply requeues_once_after; [apply _|]. intros [[row|] atts].
  2:{ apply requeues_once_quiet, _. }
  apply requeues_once_after; [apply _|]. intros [st|]; [|apply requeues_once_quiet, _].
  destruct (negb _); [apply requeues_once_quiet, _|].
  apply requeues_once_after; [apply _|]. intros req. cbv zeta.
  apply requeues_once_after; [apply _|]. intros _. apply reconcile_resume_once.
Qed.

Lemma requeues_once_refines {A} e (p : prog db A) :
  requeues_once e p → op_refines (λ s, ([Requeued e], (p s).2)).
Proof.
  intros Hp s Hi. destruct (Hp s Hi) as (ls & Hs & Hl). exists ls. split; [done|].
  apply (accounts_requeue e). auto.
Qed.

Lemma transition_refines e exp tgt now ev w :
  op_refines (run_op (OTransition e exp tgt now ev w)).
Proof.
  intros s Hi. cbn [run_op]. cbv zeta. cbn [fst snd].
  destruct (transition_prog e exp tgt now ev w s Hi) as (ls & Hs & Hls). exists ls. split; [done|].
  apply (accounts_requeue e). destruct Hls as [(-> & c & t & -> & -> & Ht)|[Hr ->]].
  - inversion Hs as [|l0 ls0 s0 s1 s2 Hstep Hnil]; subst.
    apply step_move_state in Hstep as (-> & _).
    assert ((state_str t =?s "queued") = state_eqb t queued) as -> by (by destruct t).
    destruct (state_eqb t queued && state_in c [unknown; failed]) eqn:E; [right|left]; (split; [done|]).
    + intros x. apply requeue_label_bound.
    + apply no_requeue_Forall. repeat constructor. intros x. cbn [is_requeue].
      rewrite <- andb_assoc with (b1 := e =?s x), E. by rewrite andb_false_r.
  - left. split; [|apply no_requeue_nil].
    destruct (transition e exp tgt now ev w s).1 as [[]|]; done.
Qed.

Lemma reconcile_resume_refines e st r now deadline :
  op_refines (run_op (OReconcile e st r now deadline)).
Proof.
  cbn [run_op]. destruct (is_not_executed (prs_outcome r)) eqn:E.
  - apply requeues_once_refines, reconcile_resume_once.
  - enough (Quiet (reconcile_resume e st r now deadline)) by apply (quietly_refines _).
    unfold reconcile_resume. cbv zeta. destruct (prs_outcome r); [|done|]; solve_quiet.
Qed.

Lemma execute_begin_refines g e now uuid : op_refines (run_op (OExecuteBegin g e now uuid)).
Proof.
  intros s Hi. cbn [run_op]. cbv zeta. cbn [fst snd].
  destruct (execute_begin g e now uuid s) as [[[r|d]|err] s'] eqn:E; cbn [fst snd].
  2:{ apply execute_begin_dispatch in E as (_ & st & dec & s1 & _ & _ & _ & _ & _ & _ & Hs1 & Hc & _).
      destruct (record_decision_frame dec s) as [He Ha]. rewrite <- Hs1 in He, Ha.
      destruct (claim_effect_prog e (gw_worker_id g) now (gw_lease_ms g) (Some (dec_policy_version dec)) uuid s1)
        as (ls & Hs & Hl); [by apply (outbox_inv_ext s)|]. rewrite Hc in Hs, Hl. cbn [fst snd] in *.
      destruct Hl as [[_ ->]|[? _]]; [|done]. exists [LClaim e]. split.
      - apply (outbox_steps_app [] [LClaim e] s s1); [by constructor|done].
      - intros x. unfold dispatches, claims_of, rowcount, select. cbn [List.filter is_claim].
        split; [|apply Nat.le_0_l]. destruct (e =?s x) eqn:Ex; [|].
        + case_bool_decide; simpl; lia.
        + apply str_eqb_neq in Ex. rewrite bool_decide_false by congruence. simpl. lia. }
  all: destruct (quietly_refines (execute_begin g e now uuid) s Hi) as (ls & Hs & Hl);
    exists ls; unfold quietly in *; rewrite E in *; done.
Qed.

Lemma probe_finish_refines w e c a n m : op_refines (run_op (OCandidateFinish w e c a n m)).
Proof.
  cbn [run_op]. unfold probe_finish. cbv zeta.
  assert (∀ r, is_not_executed (prs_outcome r) = false →
            Quiet (reconcile_effect e (λ _, r) (pret tt) m (pb_attempt_number (pc_probe c))
                     (Some (prq_deadline_ms (pc_request c))))) as Hq.
  { intros r Hr. unfold reconcile_effect, reconcile_resume. cbv zeta.
    destruct (prs_outcome r); [|done|]; solve_quiet. }
  destruct a as [r| |name]; cbn [awaited_not_executed].
  - destruct (is_not_executed (prs_outcome r)) eqn:En.
    + apply requeues_once_refines, requeues_once_after; [apply _|]. intros _.
      apply requeues_once_before; [apply reconcile_effect_once|apply _].
    + specialize (Hq r En). apply (quietly_refines _).
  - apply (quietly_refines _).
  - specialize (Hq (MkProbeResult INCONCLUSIVE (Some ("probe raised " +:+ name))) eq_refl).
    apply (quietly_refines _).
Qed.

(** Each operation refines the abstract outbox. *)
Lemma run_op_refines o : op_refines (run_op o).
Proof.
  destruct o;
    first [ apply transition_refines | apply execute_begin_refines | apply probe_finish_refines
          | apply reconcile_resume_refines | apply (quietly_refines _) ].
Qed.

Lemma run_refines ops s :
  outbox_inv s → ∃ ls, outbox_steps ls s (run ops s).2 ∧ accounts (run ops s).1 ls.
Proof.
  revert s. induction ops as [|o ops IH]; intros s Hi; cbn [run].
  - exists []. split; [by constructor|]. intros e. split; apply Nat.le_0_l.
  - destruct (run_op_refines o s Hi) as (l1 & Hs1 & Ha1).
    destruct (run_op o s) as [es s1]. cbn [fst snd] in *.
    destruct (IH s1) as (l2 & Hs2 & Ha2); [by eapply outbox_steps_inv|].
    destruct (run ops s1) as [es' s2]. cbn [fst snd] in *.
    exists (l1 ++ l2). split; [by eapply outbox_steps_app|]. by apply accounts_app.
Qed.

(** States no run leads back to execution. *)
Definition final_states : list EffectState := [sent; expired; cancelled; unknown_nonrepeatable].

(** Where an effect in a final state may still go. *)
Definition stays_final (st : EffectState) (after : option EffectState) : Prop :=
  after = Some st ∨ st = unknown_nonrepeatable ∧ after = Some sent.

Lemma outbox_step_final e l s s' st :
  st ∈ final_states → outbox_step l s s' → effect_state e s = Some st →
  is_claim e l = false ∧ stays_final st (effect_state e s').
Proof.
  unfold stays_final. intros Hst [? ? row Hf He Ha|? ? e' row w now lease ver aid Hr Hq Hx He Ha
         |? ? e' row t now kinds Hr Ht Hrq He Ha|? ? keep He Ha] Hes; cbn [is_claim].
  - rewrite (effect_state_submit row _ _ _ He), Hes. auto.
  - destruct (e' =?s e) eqn:Ee.
    + apply str_eqb_eq in Ee as ->. rewrite (effect_state_of_row _ _ _ Hr), Hq in Hes.
      injection Hes as <-. exfalso. set_solver.
    + apply str_eqb_neq in Ee. rewrite (effect_state_claimed_other e' e w now lease s0 s'0) by done. auto.
  - split; [done|]. destruct (decide (e = e')) as [->|Hne].
    + rewrite (effect_state_of_row _ _ _ Hr) in Hes. injection Hes as Hes. rewrite Hes in Ht.
      rewrite (effect_state_moved e' row t now s0 s'0) by done.
      right. destruct st; try (exfalso; set_solver); simpl in Ht; try (exfalso; set_solver).
      split; [done|]. set_solver.
    + rewrite (effect_state_moved_other e' e (eff_state row) t now s0 s'0) by done. auto.
  - rewrite (effect_state_house _ _ _ He). auto.
Qed.

Lemma outbox_steps_final e ls s s' st :
  st ∈ final_states → outbox_steps ls s s' → effect_state e s = Some st →
  claims_of e ls = 0%nat ∧ stays_final st (effect_state e s').
Proof.
  intros Hst Hs. revert st Hst. induction Hs as [s s' He Ha|l ls s s1 s2 H1 H2 IH]; intros st Hst Hes.
  - split; [done|]. left. by rewrite (effect_state_ext _ _ _ He).
  - destruct (outbox_step_final e l s s1 st Hst H1 Hes) as [Hc Hst1].
    assert (claims_of e (l :: ls) = claims_of e ls) as ->.
    { unfold claims_of, rowcount, select. cbn [List.filter]. by rewrite Hc. }
    destruct Hst1 as [Hst1|[-> Hst1]]; [by apply IH|].
    destruct (IH sent) as [Hn [Hf|[? _]]]; [set_solver|done| |done].
    split; [done|]. right. auto.
Qed.

(** ** Theorems *)

(** C24: every run keeps the outbox well formed. From an empty store, whatever operations
    run in whatever order, effect ids and operation keys stay unique, leases exist only on
    executing effects, stored payloads match their hashes, an admission is bound to at most
    one effect, and an open attempt belongs to an executing effect that has no other. *)
Theorem run_invariant ops : outbox_inv (run ops empty_db).2.
Proof.
  destruct (run_refines ops empty_db outbox_inv_empty) as (ls & Hs & _).
  by eapply outbox_steps_inv, outbox_inv_empty.
Qed.

(** C1: at-most-once execution. In every run from an empty store the executor is called
    for an effect at most once more often than the effect was declared not executed, by a
    probe verdict or by an evidence-backed return from [unknown] or [failed] to [queued]. *)
Theorem at_most_once ops e :
  (dispatches e (run ops empty_db).1 ≤ 1 + requeued e (run ops empty_db).1)%nat.
Proof.
  destruct (run_refines ops empty_db outbox_inv_empty) as (ls & Hs & Ha).
  destruct (Ha e) as [Hd Hr]. pose proof (outbox_steps_weight e ls _ _ Hs) as Hw.
  pose proof (weight_le_1 (effect_state e (run ops empty_db).2)). lia.
Qed.

(** C21: what is decided stays decided. Once an effect is [sent], [expired] or [cancelled]
    it stays so in every continuation of the run, an escalated one can only become [sent],
    and from then on the executor is never called for it again. *)
Theorem final_is_final ops1 ops2 e st :
  let s := (run ops1 empty_db).2 in
  effect_state e s = Some st → st ∈ [sent; expired; cancelled; unknown_nonrepeatable] →
  dispatches e (run ops2 s).1 = 0%nat ∧
  (effect_state e (run ops2 s).2 = Some st ∨
   st = unknown_nonrepeatable ∧ effect_state e (run ops2 s).2 = Some sent).
Proof.
  intros s Hes Hst.
  destruct (run_refines ops1 empty_db outbox_inv_empty) as (l1 & Hs1 & _).
  destruct (run_refines ops2 s) as (l2 & Hs2 & Ha2); [by eapply outbox_steps_inv, outbox_inv_empty|].
  destruct (outbox_steps_final e l2 _ _ st Hst Hs2 Hes) as [Hc Hf]. split; [|done].
  destruct (Ha2 e) as [Hd _]. lia.
Qed.

(** C25: an accepted effect keeps its identity. In every continuation of the run the
    effect still exists with the operation key, target, hashes, turn, principal, capability,
    policy and provenance it was accepted with, and a payload that is still stored matches
    the hash it was accepted with. *)
Theorem identity_never_changes ops1 ops2 e r :
  let s := (run ops1 empty_db).2 in
  effect_row_of e s = Some r →
  ∃ r', effect_row_of e (run ops2 s).2 = Some r' ∧ frozen r' = frozen r ∧
        ∀ d, eff_payload_json r' = Some d → canonical_hash (JObj d) = eff_payload_hash r.
Proof.
  intros s Hr.
  destruct (run_refines ops1 empty_db outbox_inv_empty) as (l1 & Hs1 & _).
  assert (outbox_inv s) as Hi by (by eapply outbox_steps_inv, outbox_inv_empty).
  destruct (run_refines ops2 s Hi) as (l2 & Hs2 & _).
  destruct (outbox_steps_identity e l2 _ _ r Hs2 Hr) as (r' & Hr' & Hf).
  exists r'. split; [done|]. split; [done|]. intros d Hd.
  assert (outbox_inv (run ops2 s).2) as Hi2 by (by eapply outbox_steps_inv).
  pose proof (effect_row_of_Some _ _ _ Hr') as [Hin _].
  rewrite <- (inv_hashes _ (inv_rows _ Hi2) r' d Hin Hd).
  symmetry in Hf. by apply frozen_columns in Hf as (_ & _ & -> & _).
Qed.

End System.

(** ** Witnesses *)

#[local] Existing Instance plain_sha256.
#[local] Existing Instance allow_all.

(** Submit, dispatch, deliver; then everybody tries again. *)
Definition delivery : list op :=
  [OEnqueue hello_args "queued"; OExecuteBegin worker "e1" 200 "a1";
   OExecuteFinish worker "e1" hello_dispatch (Reported (Some hello_receipt)) 250 260].
Definition retries : list op :=
  [OExecuteBegin worker "e1" 300 "a2"; ORecover 99000; OReset "whatsapp" "c" 400;
   OReconcile "e1" unknown (MkProbeResult NOT_EXECUTED None) 500 None;
   OExecuteBegin worker "e1" 600 "a3"].

Lemma delivery_sent : effect_state "e1" (run delivery empty_db).2 = Some sent.
Proof. vm_compute. reflexivity. Qed.

Lemma delivery_dispatched : dispatches "e1" (run delivery empty_db).1 = 1%nat.
Proof. vm_compute. reflexivity. Qed.

Lemma final_is_final_witness : dispatches "e1" (run retries (run delivery empty_db).2).1 = 0%nat.
Proof.
  destruct (final_is_final delivery retries "e1" sent delivery_sent) as [Hd _]; [set_solver|exact Hd].
Defined.

Lemma identity_never_changes_witness :
  ∃ r r', effect_row_of "e1" (run delivery empty_db).2 = Some r ∧
          effect_row_of "e1" (run retries (run delivery empty_db).2).2 = Some r' ∧ frozen r' = frozen r.
Proof.
  assert (is_some (effect_row_of "e1" (run delivery empty_db).2) = true) as Hk by (by vm_compute).
  pose proof (identity_never_changes delivery retries "e1") as Hid. cbv zeta in Hid.
  revert Hk Hid. generalize (effect_row_of "e1" (run delivery empty_db).2).
  generalize (effect_row_of "e1" (run retries (run delivery empty_db).2).2).
  intros o' [r|] Hk Hid; [|done]. destruct (Hid r eq_refl) as (r' & Hr' & Hf & _). eauto.
Defined.
