(* ===== verification/Actor.v ===== *)
(** * Actor

    [ThreadActor] of [processing/actor.py]: the postbox of one thread, frozen generations,
    the evaluation of the postbox after a provider call, and corrections; the generation
    loop of [processing/responder.py]; the lifecycle tick of [ThreadActorRegistry]. The
    provider call is a suspension point: [run_begin] and [run_finish] are the two halves of
    [run_generation], and anything may happen to the store between them. *)

From Stdlib Require Import ZArith Lia.
From S2P Require Import Prelude Tables Json Models Schema Outbox OutboxFacts OutboxSpec OutboxRefine.
From S2P Require Import Quiet Fixtures OutboxProps ThreadStore ThreadProps Mailbox Journal Routing.

(** ** State *)

Definition MAX_ADDITIONAL_GENERATIONS : Z := 2.

(** [_ActorState] and the in-flight flag of the actor *)
Record ActorState := MkActorState {
  as_additional_generations : Z;
  as_last_snapshot : option GenerationSnapshot;
  as_pending_seen : list string;
  as_in_flight : bool;
}.

#[export] Instance eta_actor_state : Updatable ActorState :=
  λ a, MkActorState (as_additional_generations a) (as_last_snapshot a) (as_pending_seen a) (as_in_flight a).

Definition new_actor_state : ActorState := MkActorState 0 None [] false.

(** The constant part of a [ThreadActor]. *)
Record ThreadActor := MkThreadActor {
  ta_thread_id : string;
  ta_cap : Z;
  ta_is_operator : option (string → string → string → result bool);
}.

Definition ThreadActor_init (thread_id : string) (cap : Z)
    (is_operator : option (string → string → string → result bool)) : ThreadActor :=
  MkThreadActor thread_id (Z.max 1 cap) is_operator.

(** The store and the state of the actor that is running. *)
Record actor_world := MkWorld { aw_store : db; aw_state : ActorState }.

#[export] Instance eta_actor_world : Updatable actor_world := λ w, MkWorld (aw_store w) (aw_state w).

(** A call of the store. *)
Definition on_store {A} (p : prog db A) : prog actor_world A :=
  λ w, let (r, s) := p (aw_store w) in (r, w <| aw_store := s |>).

Definition on_state (f : ActorState → ActorState) : prog actor_world unit :=
  λ w, (Ok tt, w <| aw_state ::= f |>).

Definition ask {A} (f : actor_world → A) : prog actor_world A := pget f.

(** ** Results *)

Record Admission := MkAdmissionResult {
  adm_state : string;
  adm_thread_id : option string;
  adm_waiting : Z;
}.

Record GenerationOutcome := MkOutcome {
  go_state : string;
  go_text : option string;
  go_generation_id : option string;
  go_detail : option string;
  go_pending : list pending_row;
  go_context_version : option Z;
  go_revision : option Z;
  go_followup_turn_id : option string;
}.

Section Actor.
  Context `{Sha256}.
  Implicit Types (a : ThreadActor).

(** ** The postbox *)

(** [accept]; [fresh] is the generated input id, [now] the clock *)
Definition accept (a : ThreadActor) (event : option CanonicalEvent) (input_id event_id : option string)
    (principal kind : string) (decision_id : option string) (explicit_correction authorized : bool)
    (relevance : string) (turn_id : option string) (fresh : string) (now : Z) : prog db Admission :=
  let resolved := match nonempty event_id with
                  | Some e => Some e
                  | None => ce_event_id <$> event
                  end in
  match nonempty resolved with
  | None => praise (ProcessingError "accept requires an event id")
  | Some resolved_event_id =>
  let principal := if str_true principal then principal else default "" (ce_principal <$> event) in
  let kind := if str_true kind then kind else default "message" (ce_kind <$> event) in
  let effect := classify_update kind explicit_correction authorized in
  if (match effect with OBSERVE => true | _ => false end) && negb authorized
  then pret (MkAdmissionResult "observed" (Some (ta_thread_id a)) 0)
  else
    let* state := enqueue_pending_input (default fresh (nonempty input_id)) (ta_thread_id a)
                    resolved_event_id principal now turn_id kind decision_id relevance (Some (ta_cap a)) in
    let* waiting := pget (λ s, Z.of_nat (count_pending (ta_thread_id a) ["waiting"] s)) in
    match state with
    | None => pret (MkAdmissionResult "observed" (Some (ta_thread_id a)) waiting)
    | Some st => pret (MkAdmissionResult (if st =?s "waiting" then "accepted" else st)
                         (Some (ta_thread_id a)) waiting)
    end
  end.

(** ** Snapshots *)

(** The sources of a turn that were not removed. *)
Definition active_sources (turn_id : string) (s : db) : list (string * option string * string * Z) :=
  map (λ r, (ts_event_id r, ts_source_message_id r, ts_role r, ts_revision_at_join r))
    (select (λ r, is_none (ts_removed_ms r)) (get_turn_sources turn_id s)).

Definition snapshot_hash (t : turn_row) (sources : list (string * option string * string * Z)) : string :=
  canonical_hash (JObj
    [("turn_id", JStr (tu_turn_id t)); ("revision", JInt (tu_revision t));
     ("context_version", JInt (tu_context_version t));
     ("source_refs", JArr (map (λ '(e, m, _, r),
        JArr [JStr e; match m with Some x => JStr x | None => JNull end; JInt r]) sources))]).

(** [freeze_snapshot]; [fresh] is the generated generation id *)
Definition freeze_snapshot (a : ThreadActor) (fresh : string) (moment : Z)
    : prog actor_world (option GenerationSnapshot) :=
  let* turn := ask (λ w, active_turn (ta_thread_id a) (aw_store w)) in
  match turn with
  | None => pret None
  | Some t =>
      let* active := ask (λ w, active_sources (tu_turn_id t) (aw_store w)) in
      let snapshot := MkSnapshot fresh (tu_turn_id t) (ta_thread_id a) (tu_revision t)
                        (tu_context_version t) active (snapshot_hash t active) in
      do* on_store (record_generation snapshot moment) in
      do* on_state (λ st, st <| as_last_snapshot := Some snapshot |>) in
      pret (Some snapshot)
  end.

(** ** After the provider call *)

(** [_bump_revision] *)
Definition bump_revision (t : turn_row) (now : Z) : prog db Z :=
  let* ref := bump_turn_revision (tu_turn_id t) (tu_revision t) now in
  pret (tr_revision ref).

(** The loop that makes drained inputs sources of a turn; [clock] gives the readings of
    the successive rounds. *)
Fixpoint add_pending_sources (turn_id : string) (clock : nat → Z) (i : nat) (pending : list pending_row)
    : prog db unit :=
  match pending with
  | [] => pret tt
  | item :: rest =>
      do* add_turn_source turn_id (pi_event_id item) None "context" 1 (clock i) in
      add_pending_sources turn_id clock (S i) rest
  end.

(** [_open_followup_turn] *)
Definition open_followup_turn (a : ThreadActor) (pending : list pending_row) (clock : nat → Z)
    : prog db (option string) :=
  match pending with
  | [] => pret None
  | followup :: _ =>
      let* turn_id := open_turn (ta_thread_id a) (pi_principal followup) (pi_event_id followup)
                        (clock 0%nat) "open" in
      do* add_pending_sources turn_id clock 1 pending in
      do* promote_deferred (ta_thread_id a) (clock (S (length pending))) (ta_cap a) in
      pret (Some turn_id)
  end.

Definition is_superseding (item : pending_row) : bool := str_in (pi_kind item) ["delete"; "edit"].

(** A closed turn takes no more answers. *)
Definition turn_ended (t : turn_row) : bool := str_in (tu_state t) ["closed"; "superseded"].

Definition superseded_outcome (g : GenerationSnapshot) (pending : list pending_row) (revision : Z)
    : GenerationOutcome :=
  MkOutcome "superseded" None (Some (gsn_generation_id g)) (Some "revision_superseded") pending None
    (Some revision) None.

(** The branch of [_evaluate_postbox] for an outdated generation. *)
Definition supersede (g : GenerationSnapshot) (t : turn_row) (pending : list pending_row)
    (superseding : bool) (clock : nat → Z) : prog db GenerationOutcome :=
  let* revision := if superseding then bump_revision t (clock 1%nat) else pret (tu_revision t) in
  let k := if superseding then 2%nat else 1%nat in
  do* cancel_stale_effects (gsn_turn_id g) revision (clock k) "superseded" in
  do* finish_generation (gsn_generation_id g) (clock (S k)) "superseded" None in
  pret (superseded_outcome g pending revision).

(** The branch that starts over with the follow-ups. *)
Definition restart (g : GenerationSnapshot) (pending : list pending_row) (clock : nat → Z)
    : prog db GenerationOutcome :=
  do* add_pending_sources (gsn_turn_id g) clock 1 pending in
  let* version := bump_context_version (gsn_turn_id g) (clock (S (length pending))) in
  do* finish_generation (gsn_generation_id g) (clock (2 + length pending)%nat) "restart" None in
  pret (MkOutcome "restart" None (Some (gsn_generation_id g)) (Some "new_context_available") pending
          (Some version) None None).

(** The branch that answers and hands the rest over to a new turn. *)
Definition hand_over (a : ThreadActor) (g : GenerationSnapshot) (text : option string)
    (pending : list pending_row) (clock : nat → Z) : prog db GenerationOutcome :=
  let* followup := open_followup_turn a pending (λ i, clock (S i)) in
  do* finish_generation (gsn_generation_id g) (clock (3 + length pending)%nat) "handed_over"
        (Some "max_additional_generations") in
  pret (MkOutcome "send" text (Some (gsn_generation_id g))
          (Some "remaining_inputs_deferred_to_followup_turn") pending None None followup).

(** The branch for a turn that was closed meanwhile. *)
Definition close_out (g : GenerationSnapshot) (clock : nat → Z) : prog db GenerationOutcome :=
  do* finish_generation (gsn_generation_id g) (clock 1%nat) "cancelled" (Some "turn_closed") in
  pret (MkOutcome "superseded" None (Some (gsn_generation_id g)) (Some "turn_closed") [] None None None).

(** The branch for an undisturbed answer. *)
Definition send_answer (g : GenerationSnapshot) (text : option string) (clock : nat → Z)
    : prog db GenerationOutcome :=
  do* finish_generation (gsn_generation_id g) (clock 1%nat) "send" None in
  pret (MkOutcome "send" text (Some (gsn_generation_id g)) None [] None None None).

(** [_evaluate_postbox] once the inputs are drained; [clock i] is the i-th reading of the
    clock in the call *)
Definition decide_postbox (a : ThreadActor) (g : GenerationSnapshot) (text : option string)
    (pending : list pending_row) (clock : nat → Z) : prog actor_world GenerationOutcome :=
  let* turn := ask (λ w, get_turn (gsn_turn_id g) (aw_store w)) in
  match turn with
  | None => on_store (close_out g clock)
  | Some t =>
      if turn_ended t then on_store (close_out g clock) else
      let superseding := existsb is_superseding pending in
      if superseding || negb (tu_revision t =? gsn_revision g)
      then on_store (supersede g t pending superseding clock)
      else match pending with
           | [] => on_store (send_answer g text clock)
           | _ =>
               let* additional := ask (λ w, as_additional_generations (aw_state w)) in
               if additional <? MAX_ADDITIONAL_GENERATIONS then
                 do* on_state (λ st, st <| as_additional_generations := additional + 1 |>) in
                 on_store (restart g pending clock)
               else on_store (hand_over a g text pending clock)
           end
  end.

(** [_evaluate_postbox] *)
Definition evaluate_postbox (a : ThreadActor) (g : GenerationSnapshot) (text : option string)
    (clock : nat → Z) : prog actor_world GenerationOutcome :=
  let* pending := on_store (drain_pending_inputs (ta_thread_id a) (clock 0%nat) (Some (ta_cap a))) in
  do* on_state (λ st, st <| as_pending_seen ::= (λ l, l ++ map pi_event_id pending) |>) in
  decide_postbox a g text pending clock.

(** ** [run_generation] around the provider call *)

(** How the awaited call ended. *)
Inductive call_result :=
| CallReturned (text : option string)
| CallRaised (type_name : string)
| CallCancelled.

Definition run_begin : prog actor_world unit := on_state (λ st, st <| as_in_flight := true |>).

Definition run_finish (a : ThreadActor) (g : GenerationSnapshot) (r : call_result) (clock : nat → Z)
    : prog actor_world GenerationOutcome :=
  let leave := on_state (λ st, st <| as_in_flight := false |>) in
  match r with
  | CallCancelled =>
      do* on_store (finish_generation (gsn_generation_id g) (clock 0%nat) "cancelled" None) in
      do* leave in praise CancelledError
  | CallRaised ty =>
      do* on_store (finish_generation (gsn_generation_id g) (clock 0%nat) "error" (Some ty)) in
      do* leave in
      pret (MkOutcome "error" None (Some (gsn_generation_id g)) (Some ty) [] None None None)
  | CallReturned text => do* leave in evaluate_postbox a g text clock
  end.

(** ** Authority *)

(** [correct_turn]; [stop_turn] is the same with another logged reason *)
Definition correct_turn (a : ThreadActor) (turn_id principal channel chat_id : string) (now1 now2 : Z)
    : prog db TurnRef :=
  let* turn := pget (get_turn turn_id) in
  match turn with
  | None => praise (ProcessingError "unknown turn")
  | Some t =>
      if (may_modify (ta_is_operator a) (tu_principal t) principal channel chat_id).1 then
        let* ref := bump_turn_revision turn_id (tu_revision t) now1 in
        do* cancel_stale_effects turn_id (tr_revision ref) now2 "superseded" in
        pret ref
      else praise (ProcessingError "principal may not modify this turn")
  end.

(** ** Facts *)

(** A row for the source exists. *)
Definition source_known (turn ev : string) (s : db) : Prop :=
  ∃ r, r ∈ turn_sources s ∧ ts_turn_id r = turn ∧ ts_event_id r = ev.

(** The source is part of the next snapshot of the turn. *)
Definition source_active (turn ev : string) (s : db) : Prop :=
  ∃ r, r ∈ turn_sources s ∧ ts_turn_id r = turn ∧ ts_event_id r = ev ∧ ts_removed_ms r = None.

Lemma source_active_snapshot turn ev s :
  source_active turn ev s → ∃ m role rev, (ev, m, role, rev) ∈ active_sources turn s.
Proof.
  intros (r & Hr & Ht & He & Hn). exists (ts_source_message_id r), (ts_role r), (ts_revision_at_join r).
  unfold active_sources. apply list_elem_of_fmap. exists r. split; [by rewrite He|].
  unfold get_turn_sources. rewrite elem_of_select, elem_of_order_by, elem_of_select.
  rewrite Hn. split; [|done]. split; [done|]. by apply str_eqb_eq.
Qed.

Lemma row_exists_turn turn s t : get_turn turn s = Some t → row_exists (has_id tu_turn_id turn) (turns s) = true.
Proof. intros Ht. rewrite fetchone_row_exists. unfold get_turn, by_id in Ht. by rewrite Ht. Qed.

(** Sources only grow, and by rows that are active. *)
Definition sources_grow (l l' : list turn_source_row) : Prop :=
  l ⊆ l' ∧ ∀ r, r ∈ l' → r ∈ l ∨ ts_removed_ms r = None.

#[local] Instance sources_grow_preorder : PreOrder sources_grow.
Proof.
  split.
  - intros l. split; [done|]. by left.
  - intros l1 l2 l3 [H1 H2] [H3 H4]. split; [set_solver|]. intros r Hr.
    destruct (H4 r Hr) as [Hr2|Hn]; [|by right]. by apply H2.
Qed.

Lemma sources_grow_known turn ev s l :
  sources_grow (turn_sources s) l → source_known turn ev (s <| turn_sources := l |>) →
  source_known turn ev s ∨ source_active turn ev (s <| turn_sources := l |>).
Proof.
  intros [_ Hn] (r & Hr & H1 & H2). destruct (Hn r Hr) as [Ho|Hx]; [left|right]; by exists r.
Qed.

Lemma add_source_spec turn ev m role rev now s :
  row_exists (has_id tu_turn_id turn) (turns s) = true →
  ∃ l, add_turn_source turn ev m role rev now s = (Ok tt, s <| turn_sources := l |>) ∧
    sources_grow (turn_sources s) l ∧ source_known turn ev (s <| turn_sources := l |>).
Proof.
  intros Ht. unfold add_turn_source, write. destruct (row_exists _ (turn_sources s)) eqn:E.
  - apply row_exists_spec in E as (r & Hr & [H1%str_eqb_eq H2%str_eqb_eq]%andb_true_iff).
    exists (turn_sources s). split; [by destruct s|]. split; [done|]. by exists r.
  - rewrite Ht. cbn [negb]. eexists. split; [done|]. split.
    + split; [intros r Hr; apply elem_of_insert_row; by left|].
      intros r [Hr| ->]%elem_of_insert_row; [by left|by right].
    + eexists. split; [apply elem_of_insert_row; by right|done].
Qed.

Lemma add_pending_spec turn clock pending i s :
  row_exists (has_id tu_turn_id turn) (turns s) = true →
  ∃ l, add_pending_sources turn clock i pending s = (Ok tt, s <| turn_sources := l |>) ∧
    sources_grow (turn_sources s) l ∧
    ∀ p, p ∈ pending → source_known turn (pi_event_id p) (s <| turn_sources := l |>).
Proof.
  revert i s. induction pending as [|p pending IH]; intros i s Ht; cbn [add_pending_sources].
  { exists (turn_sources s). split; [by destruct s|]. split; [done|]. intros p Hp. set_solver. }
  destruct (add_source_spec turn (pi_event_id p) None "context" 1 (clock i) s Ht) as (l1 & E1 & Hs1 & Hp).
  destruct (IH (S i) (s <| turn_sources := l1 |>)) as (l2 & E2 & Hs2 & Hrest); [exact Ht|].
  exists l2. unfold pbind. rewrite E1. cbv beta iota. split; [exact E2|]. split; [by transitivity l1|].
  intros q [->|Hq]%elem_of_cons; [|exact (Hrest q Hq)].
  destruct Hp as (r & Hr & Hx). exists r. split; [by apply Hs2|done].
Qed.

(** *** What each store call leaves alone *)

Lemma drain_frame th now limit s :
  ∃ l, drain_pending_inputs th now limit s = (Ok (drain_rows th limit s), s <| pending_inputs := l |>).
Proof.
  unfold drain_pending_inputs, write. cbv zeta. generalize (drain_rows th limit s) at 2. intros rows.
  enough (∃ l, foldl (consume_input now) s rows = s <| pending_inputs := l |>) as (l & ->) by by exists l.
  revert s. induction rows as [|r rows IH]; intros s; cbn [foldl].
  - exists (pending_inputs s). by destruct s.
  - destruct (IH (consume_input now s r)) as (l & ->). by exists l.
Qed.

Lemma promote_frame th now cap s :
  ∃ ids l, promote_deferred th now cap s = (Ok ids, s <| pending_inputs := l |>).
Proof.
  unfold promote_deferred, write. cbv zeta. destruct (_ =? 0).
  { exists [], (pending_inputs s). by destruct s. }
  generalize (promote_rows th cap s). intros rows. exists (map pi_event_id rows). generalize (map pi_event_id rows).
  intros ids. enough (∃ l, foldl (promote_input now) s rows = s <| pending_inputs := l |>) as (l & ->) by by exists l.
  revert s. induction rows as [|r rows IH]; intros s; cbn [foldl].
  - exists (pending_inputs s). by destruct s.
  - destruct (IH (promote_input now s r)) as (l & ->). by exists l.
Qed.

Lemma finish_frame g now out detail s :
  ∃ b l, finish_generation g now out detail s = (Ok b, s <| generations := l |>).
Proof. by eexists _, _. Qed.

Lemma bump_context_frame turn now s t :
  get_turn turn s = Some t →
  bump_context_version turn now s =
    (Ok (1 + tu_context_version t),
     s <| turns ::= update (has_id tu_turn_id turn)
                      (λ t, t <| tu_context_version ::= Z.add 1 |> <| tu_updated_ms := now |>) |>).
Proof.
  intros Ht. unfold bump_context_version, pbind, write. unfold get_turn at 1. cbn [turns set_field].
  rewrite by_id_update by done. unfold get_turn in Ht. rewrite Ht. cbn [fmap option_fmap option_map].
  apply by_id_Some_inv in Ht as [_ Hid]. unfold has_id. by rewrite Hid, str_eqb_refl.
Qed.

Lemma insert_or_ignore_exists {R} (c : R → bool) r t :
  c r = true → row_exists c (insert_or_ignore c r t) = true.
Proof.
  intros Hc. unfold insert_or_ignore. destruct (row_exists c t) eqn:E; [done|].
  apply row_exists_spec. exists r. rewrite elem_of_insert_row. auto.
Qed.

Lemma open_turn_frame th principal trigger now st s row :
  get_thread th s = Some row →
  ∃ turn l1 l2, open_turn th principal trigger now st s = (Ok turn, s <| threads := l1 |> <| turns := l2 |>) ∧
    row_exists (has_id tu_turn_id turn) l2 = true.
Proof.
  intros Hth. unfold open_turn, write. cbn [threads set_field]. rewrite by_id_update by done.
  unfold get_thread in Hth. rewrite Hth. cbn [fmap option_fmap option_map].
  eexists _, _, _. split; [done|]. apply insert_or_ignore_exists. apply str_eqb_refl.
Qed.

(** *** The store an actor works on *)

Record actor_ok (a : ThreadActor) (g : GenerationSnapshot) (s : db) : Prop := MkActorOk {
  ao_outbox : outbox_inv s;
  ao_thread : ∃ th, get_thread (ta_thread_id a) s = Some th;
  ao_turn : ∀ t, get_turn (gsn_turn_id g) s = Some t →
              1 ≤ tu_revision t ∧ ∃ th, get_thread (tu_thread_id t) s = Some th;
}.

(** The inputs the evaluation takes out of the postbox. *)
Definition drained (a : ThreadActor) (s : db) : list pending_row :=
  drain_rows (ta_thread_id a) (Some (ta_cap a)) s.

(** The follow-ups are sources of [turn]: known before, or active now. *)
Definition taken_over (turn : string) (l : list pending_row) (s s' : db) : Prop :=
  ∀ p, p ∈ l → source_known turn (pi_event_id p) s ∨ source_active turn (pi_event_id p) s'.

(** Exactly the queued effects of older revisions are withdrawn. *)
Definition withdrawn (turn : string) (revision : Z) (s s' : db) : Prop :=
  ∀ e row, effect_row_of e s = Some row →
    effect_state e s' = Some (if stale_effect turn revision row then cancelled else eff_state row).

Lemma cancel_withdraws turn rev now reason s :
  outbox_inv s → ∃ ids s', cancel_stale_effects turn rev now reason s = (Ok ids, s') ∧ withdrawn turn rev s s'.
Proof.
  intros Hi. pose proof (cancel_stale_states turn rev now reason s Hi) as Hc.
  destruct (cancel_stale_effects _ _ _ _ _) as [r s']. destruct Hc as (ids & -> & _ & Hids & Hst).
  exists ids, s'. split; [done|]. intros e row Hrow. rewrite Hst. unfold stale_effect.
  destruct (str_in e ids) eqn:Ei.
  - apply str_in_spec, Hids in Ei as (row' & Hrow' & H1 & H2 & H3). rewrite Hrow in Hrow'. injection Hrow' as <-.
    by rewrite (proj2 (str_eqb_eq _ _) H1), (proj2 (Z.ltb_lt _ _) H2), (proj2 (state_eqb_eq _ _) H3).
  - rewrite (effect_state_of_row _ _ _ Hrow). case_match eqn:E; [|done]. exfalso.
    apply andb_true_iff in E as [[H1%str_eqb_eq H2%Z.ltb_lt]%andb_true_iff H3%state_eqb_eq].
    assert (e ∈ ids) as Hin by (apply Hids; by exists row). apply str_in_spec in Hin. congruence.
Qed.

(** *** The branches *)

Lemma supersede_spec g t pending b clock s :
  get_turn (gsn_turn_id g) s = Some t → turn_ended t = false → 1 ≤ tu_revision t →
  (∃ th, get_thread (tu_thread_id t) s = Some th) → outbox_inv s →
  let r := if b : bool then tu_revision t + 1 else tu_revision t in
  ∃ s', supersede g t pending b clock s = (Ok (superseded_outcome g pending r), s') ∧
        withdrawn (gsn_turn_id g) r s s'.
Proof.
  intros Ht He Hr (th & Hth) Hi r. pose proof Ht as [_ Hid]%by_id_Some_inv.
  unfold supersede, pbind.
  assert (∃ l, (if b then bump_revision t (clock 1%nat) else pret (tu_revision t)) s
               = (Ok r, s <| turns := l |>)) as (l & ->).
  { destruct b; [|exists (turns s); by destruct s]. unfold bump_revision, pbind.
    destruct (bump_accepts (tu_turn_id t) (tu_revision t) (clock 1%nat) s t th) as (ref & -> & Href); [|done|].
    - unfold revisable. rewrite Hid. done.
    - eexists. unfold pret. by rewrite Href. }
  set (k := if b then 2%nat else 1%nat).
  destruct (cancel_withdraws (gsn_turn_id g) r (clock k) "superseded" (s <| turns := l |>)) as (ids & s1 & -> & Hw).
  { by eapply outbox_inv_ext; [..|exact Hi]. }
  destruct (finish_frame (gsn_generation_id g) (clock (S k)) "superseded" None s1) as (x & l' & ->).
  eexists. split; [done|]. exact Hw.
Qed.

Lemma restart_spec g t pending clock s :
  get_turn (gsn_turn_id g) s = Some t →
  ∃ o s', restart g pending clock s = (Ok o, s') ∧ go_state o = "restart" ∧ go_text o = None ∧
          go_pending o = pending ∧ taken_over (gsn_turn_id g) pending s s'.
Proof.
  intros Ht. unfold restart, pbind.
  destruct (add_pending_spec (gsn_turn_id g) clock pending 1 s (row_exists_turn _ _ _ Ht)) as (l & -> & Hg & Hp).
  rewrite (bump_context_frame (gsn_turn_id g) (clock (S (length pending))) (s <| turn_sources := l |>) t)
    by exact Ht.
  eexists _, _. split; [done|]. split_and!; try done.
  intros p Hpp. apply (sources_grow_known _ _ s l); auto.
Qed.

Lemma hand_over_spec a g text pending clock s :
  pending ≠ [] → (∃ th, get_thread (ta_thread_id a) s = Some th) →
  ∃ o s' turn, hand_over a g text pending clock s = (Ok o, s') ∧ go_state o = "send" ∧ go_text o = text ∧
    go_followup_turn_id o = Some turn ∧ row_exists (has_id tu_turn_id turn) (turns s') = true ∧
    taken_over turn pending s s'.
Proof.
  intros Hne (th & Hth). unfold hand_over, open_followup_turn, pbind.
  destruct pending as [|p pending]; [done|].
  destruct (open_turn_frame (ta_thread_id a) (pi_principal p) (pi_event_id p) (clock 1%nat) "open" s th Hth)
    as (turn & l1 & l2 & -> & Hx).
  destruct (add_pending_spec turn (λ i, clock (S i)) (p :: pending) 1
              (s <| threads := l1 |> <| turns := l2 |>)) as (l3 & -> & Hg & Hp); [exact Hx|].
  match goal with |- context [promote_deferred ?t ?n ?c ?s0] =>
    destruct (promote_frame t n c s0) as (ids & l4 & ->) end.
  eexists _, _, turn. split; [done|]. split_and!; try done.
  intros q Hq. exact (sources_grow_known _ _ (s <| threads := l1 |> <| turns := l2 |>) l3 Hg (Hp q Hq)).
Qed.

Lemma on_store_Ok {A} (p : prog db A) w x s' :
  p (aw_store w) = (Ok x, s') → on_store p w = (Ok x, w <| aw_store := s' |>).
Proof. intros Hp. unfold on_store. by rewrite Hp. Qed.

(** The restarts an actor has left. *)
Definition restarts_left (w : actor_world) : Z :=
  MAX_ADDITIONAL_GENERATIONS - as_additional_generations (aw_state w).

Lemma evaluate_drains a g text clock w :
  ∃ l w1, evaluate_postbox a g text clock w = decide_postbox a g text (drained a (aw_store w)) clock w1 ∧
    aw_store w1 = (aw_store w) <| pending_inputs := l |> ∧
    as_additional_generations (aw_state w1) = as_additional_generations (aw_state w) ∧
    as_in_flight (aw_state w1) = as_in_flight (aw_state w).
Proof.
  destruct (drain_frame (ta_thread_id a) (clock 0%nat) (Some (ta_cap a)) (aw_store w)) as (l & Ed).
  unfold evaluate_postbox, pbind. rewrite (on_store_Ok _ _ _ _ Ed). exists l. eexists. split; [done|]. done.
Qed.

(** What the evaluation decides about a returned answer. *)
Definition verdict (a : ThreadActor) (g : GenerationSnapshot) (text : option string) (w : actor_world)
    (o : GenerationOutcome) (s' : db) : Prop :=
  let s := aw_store w in
  match get_turn (gsn_turn_id g) s with
  | None => go_state o = "superseded" ∧ go_text o = None
  | Some t =>
      if turn_ended t then go_state o = "superseded" ∧ go_text o = None
      else if existsb is_superseding (drained a s) || negb (tu_revision t =? gsn_revision g) then
        go_state o = "superseded" ∧ go_text o = None ∧
        withdrawn (gsn_turn_id g)
          (if existsb is_superseding (drained a s) then tu_revision t + 1 else tu_revision t) s s'
      else match drained a s with
           | [] => go_state o = "send" ∧ go_text o = text
           | _ => if 0 <? restarts_left w
                  then go_state o = "restart" ∧ taken_over (gsn_turn_id g) (drained a s) s s'
                  else go_state o = "send" ∧ go_text o = text ∧
                       ∃ turn, go_followup_turn_id o = Some turn ∧ taken_over turn (drained a s) s s'
           end
  end.

Lemma postbox_verdict a g text clock w :
  actor_ok a g (aw_store w) →
  ∃ o w', evaluate_postbox a g text clock w = (Ok o, w') ∧
    restarts_left w' = restarts_left w - (if go_state o =?s "restart" then 1 else 0) ∧
    as_in_flight (aw_state w') = as_in_flight (aw_state w) ∧ verdict a g text w o (aw_store w').
Proof.
  intros [Hi Hth Hturn]. set (s := aw_store w). unfold verdict. cbv zeta. fold s.
  destruct (evaluate_drains a g text clock w) as (l & w1 & -> & Hs1 & Hst1 & <-).
  assert (restarts_left w1 = restarts_left w) as <- by (unfold restarts_left; lia). fold s in Hs1 |- *. unfold decide_postbox, pbind, ask, pget.
  assert (get_turn (gsn_turn_id g) (aw_store w1) = get_turn (gsn_turn_id g) s) as -> by by rewrite Hs1.
  destruct (get_turn (gsn_turn_id g) s) as [t|] eqn:Et.
  2:{ eexists _, _. split; [done|]. split; [unfold restarts_left; cbn; lia|split; [done|]; done]. }
  destruct (Hturn t Et) as [Hrev Htth].
  destruct (turn_ended t) eqn:Ee; [eexists _, _; split; [done|]; split; [unfold restarts_left; cbn; lia|split; [done|]; done]|].
  destruct (existsb is_superseding (drained a s) || negb (tu_revision t =? gsn_revision g)) eqn:Es.
  { destruct (supersede_spec g t (drained a s) (existsb is_superseding (drained a s)) clock (aw_store w1))
      as (s2 & E2 & Hw); [by rewrite ?Hs1..|rewrite Hs1; by eapply outbox_inv_ext; [..|exact Hi]|].
    rewrite (on_store_Ok _ w1 _ _ E2). eexists _, _. split; [done|]. split; [unfold restarts_left; cbn; lia|split; [done|]].
    rewrite Hs1 in Hw. done. }
  destruct (drained a s) as [|p l0] eqn:El; [eexists _, _; split; [done|]; split; [unfold restarts_left; cbn; lia|split; [done|]; done]|].
  unfold restarts_left, MAX_ADDITIONAL_GENERATIONS in *.
  destruct (as_additional_generations (aw_state w1) <? 2) eqn:Ea.
  - destruct (restart_spec g t (p :: l0) clock (aw_store w1)) as (o & s2 & E2 & Ho1 & _ & _ & Hto); [by rewrite Hs1|].
    rewrite (proj2 (Z.ltb_lt 0 _)) by lia. unfold on_state. cbv beta iota.
    match goal with |- context [on_store ?p ?w2] => rewrite (on_store_Ok p w2 o s2 E2) end. eexists o, _. split; [done|]. rewrite Ho1. split; [unfold restarts_left; cbn; lia|split; [done|]].
    split; [done|]. rewrite Hs1 in Hto. exact Hto.
  - destruct (hand_over_spec a g text (p :: l0) clock (aw_store w1)) as (o & s2 & turn & E2 & Ho1 & Ho2 & Ho3 & _ & Hto);
      [done|by rewrite Hs1|].
    rewrite (proj2 (Z.ltb_ge 0 _)) by lia.
    rewrite (on_store_Ok _ w1 _ _ E2). eexists o, _. split; [done|]. rewrite Ho1. split; [unfold restarts_left; cbn; lia|split; [done|]].
    split; [done|]. split; [done|]. exists turn. split; [done|]. rewrite Hs1 in Hto. exact Hto.
Qed.

(** The postbox decides the fate of an answer. After the provider call the in-flight mark
    is gone. A cancelled call passes the cancellation on and a failed call gives no answer.
    For a returned answer the evaluation always produces a verdict: a turn that was closed, or revised since the
    snapshot, or whose drained inputs contain an edit or delete, gets no answer, and then
    exactly its queued effects of older revisions are withdrawn; with no follow-up the
    answer is sent; with follow-ups the generation starts over with all of them as sources,
    and once the restarts are used up the answer is sent and the follow-ups become the
    sources of a new turn. Only a restart uses one up. *)
Theorem generation_verdict a g r clock w :
  actor_ok a g (aw_store w) →
  let '(res, w') := run_finish a g r clock w in
  as_in_flight (aw_state w') = false ∧
  match r with
  | CallCancelled => res = Raise CancelledError ∧ restarts_left w' = restarts_left w ∧
                     effects (aw_store w') = effects (aw_store w)
  | CallRaised ty => ∃ o, res = Ok o ∧ go_state o = "error" ∧ go_text o = None ∧
                     restarts_left w' = restarts_left w ∧ effects (aw_store w') = effects (aw_store w)
  | CallReturned text => ∃ o, res = Ok o ∧ verdict a g text w o (aw_store w') ∧
                     restarts_left w' = restarts_left w - (if go_state o =?s "restart" then 1 else 0)
  end.
Proof.
  intros Hok. destruct r as [text|ty|]; [|by split; [|eexists]|done].
  unfold run_finish, pbind, on_state. set (w1 := w <| aw_state ::= _ |>).
  destruct (postbox_verdict a g text clock w1 Hok) as (o & w' & -> & Hl & Hf & Hv).
  split; [done|]. exists o. by split_and!.
Qed.

(** A correction needs authority. The orderer or an authorised operator raises the
    revision of a live turn by one and withdraws exactly its queued effects of older
    revisions; everybody else, and every correction of a closed turn, is refused with an
    error and changes nothing. *)
Theorem correction_authorized a turn principal channel chat_id now1 now2 s t th :
  outbox_inv s → get_turn turn s = Some t → get_thread (tu_thread_id t) s = Some th → 1 ≤ tu_revision t →
  let '(r, s') := correct_turn a turn principal channel chat_id now1 now2 s in
  if (may_modify (ta_is_operator a) (tu_principal t) principal channel chat_id).1 && negb (turn_ended t)
  then ∃ ref, r = Ok ref ∧ tr_revision ref = tu_revision t + 1 ∧ withdrawn turn (tu_revision t + 1) s s'
  else ∃ err, r = Raise err ∧ s' = s.
Proof.
  intros Hi Ht Hth Hr. unfold correct_turn, pbind, pget. rewrite Ht.
  destruct (may_modify _ _ _ _ _).1; [|by eexists]. cbn [andb]. destruct (turn_ended t) eqn:Ee; cbn [negb].
  - destruct (bump_refuses turn (tu_revision t) now1 s) as (msg & ->); [|by eexists].
    intros t2 th2 (Ht2 & _ & He & _). rewrite Ht in Ht2. injection Ht2 as <-. unfold turn_ended in Ee. congruence.
  - destruct (bump_accepts turn (tu_revision t) now1 s t th) as (ref & -> & Href); [by repeat split|done|].
    destruct (cancel_withdraws turn (tr_revision ref) now2 "superseded"
                (s <| turns ::= bumped_turns turn (tu_revision t) now1 |>)) as (ids & s2 & -> & Hw).
    { by eapply outbox_inv_ext; [..|exact Hi]. }
    exists ref. split; [done|]. split; [done|]. rewrite Href in Hw. exact Hw.
Qed.

End Actor.

(** ** Witnesses *)

#[local] Existing Instance plain_sha256.

(** One open thread with one open turn, and two follow-ups in its postbox. *)
Definition busy_thread : db :=
  empty_db
    <| threads := [MkThread "th" "whatsapp" "c" "u" "group" "open" 1 1 None None 0 1 "active" None None] |>
    <| turns := [MkTurn "tu" "th" "u" 1 1 "open" 1 1 None None] |>
    <| pending_inputs :=
         [MkPending "i1" "th" None "e2" "u" "message" None "unknown" "waiting" 10 None;
          MkPending "i2" "th" None "e3" "u" "message" None "unknown" "waiting" 11 None] |>.

Definition actor_th : ThreadActor := ThreadActor_init "th" 32 None.
Definition busy_world (used : Z) : actor_world := MkWorld busy_thread (MkActorState used None [] true).
Definition snapshot_1 : GenerationSnapshot := MkSnapshot "g1" "tu" "th" 1 1 [] "".

Lemma busy_actor_ok : actor_ok actor_th snapshot_1 busy_thread.
Proof.
  split.
  - by eapply outbox_inv_ext; [..|apply outbox_inv_empty].
  - by eexists.
  - intros t [= <-]. split; [done|]. by eexists.
Qed.

Lemma generation_verdict_witness :
  (let '(r, w') := run_finish actor_th snapshot_1 (CallReturned (Some "hi")) (λ _, 50) (busy_world 0) in
   ∃ o, r = Ok o ∧ go_state o = "restart" ∧ source_active "tu" "e2" (aw_store w')) ∧
  (let '(r, w') := run_finish actor_th snapshot_1 (CallReturned (Some "hi")) (λ _, 50) (busy_world 2) in
   ∃ o, r = Ok o ∧ go_state o = "send" ∧ go_text o = Some "hi").
Proof.
  split.
  - pose proof (generation_verdict actor_th snapshot_1 (CallReturned (Some "hi")) (λ _, 50) (busy_world 0) busy_actor_ok) as Hv.
    destruct (run_finish _ _ _ _ _) as [r w']. destruct Hv as (_ & o & -> & [Hs Ht] & _).
    exists o. split; [done|]. split; [done|].
    destruct (Ht (MkPending "i1" "th" None "e2" "u" "message" None "unknown" "waiting" 10 None))
      as [(r & Hr & _)|Ha]; [by left|by apply not_elem_of_nil in Hr|exact Ha].
  - pose proof (generation_verdict actor_th snapshot_1 (CallReturned (Some "hi")) (λ _, 50) (busy_world 2) busy_actor_ok) as Hv.
    destruct (run_finish _ _ _ _ _) as [r w']. destruct Hv as (_ & o & -> & (Hs & Ht & _) & _). by exists o.
Defined.

Lemma correction_authorized_witness :
  (correct_turn actor_th "tu" "u" "whatsapp" "c" 60 61 busy_thread).1 ≠
    (correct_turn actor_th "tu" "mallory" "whatsapp" "c" 60 61 busy_thread).1.
Proof.
  pose proof (correction_authorized actor_th "tu" "u" "whatsapp" "c" 60 61 busy_thread _ _
    ltac:(apply busy_actor_ok) eq_refl eq_refl ltac:(done)) as H1.
  pose proof (correction_authorized actor_th "tu" "mallory" "whatsapp" "c" 60 61 busy_thread _ _
    ltac:(apply busy_actor_ok) eq_refl eq_refl ltac:(done)) as H2.
  destruct (correct_turn actor_th "tu" "u" _ _ _ _ _) as [r1 s1], (correct_turn actor_th "tu" "mallory" _ _ _ _ _) as [r2 s2].
  destruct H1 as (ref & -> & _), H2 as (err & -> & _). done.
Defined.

(** The counter belongs to the actor, not to the turn: a thread that used its two
    restarts in one turn hands the follow-ups of every later turn over at once. *)
Theorem restarts_outlive_the_turn :
  let w := MkWorld (busy_thread <| turns := [MkTurn "tu" "th" "u" 1 1 "closed" 1 1 (Some 5) None;
                                             MkTurn "tu2" "th" "u" 1 1 "open" 20 20 None None] |>)
                   (MkActorState 2 None [] true) in
  (evaluate_postbox actor_th (MkSnapshot "g9" "tu2" "th" 1 1 [] "") (Some "hi") (λ _, 50) w).1
  ≠ (evaluate_postbox actor_th (MkSnapshot "g9" "tu2" "th" 1 1 [] "") (Some "hi") (λ _, 50)
       (w <| aw_state := new_actor_state |>)).1 ∧
  match (evaluate_postbox actor_th (MkSnapshot "g9" "tu2" "th" 1 1 [] "") (Some "hi") (λ _, 50) w).1 with
  | Ok o => go_detail o = Some "remaining_inputs_deferred_to_followup_turn"
  | Raise _ => False
  end.
Proof. split; [vm_compute; discriminate|by vm_compute]. Qed.

(** Inputs drained together with an edit, or after the turn was closed, are consumed
    without becoming the source of any turn. *)
Theorem superseded_drops_followups :
  let s := busy_thread <| pending_inputs ::= insert_row
             (MkPending "i3" "th" None "e4" "u" "edit" None "unknown" "waiting" 12 None) |> in
  let r := evaluate_postbox actor_th snapshot_1 (Some "hi") (λ _, 50) (MkWorld s new_actor_state) in
  (∃ o, r.1 = Ok o ∧ go_state o = "superseded") ∧
  turn_sources (aw_store r.2) = [] ∧ map pi_state (pending_inputs (aw_store r.2)) = ["consumed"; "consumed"; "consumed"].
Proof. split; [eexists; by vm_compute|by vm_compute]. Qed.
