(* ===== verification/Responder.v ===== *)
(** * Responder

    [ThreadActorResponder] of [processing/responder.py]: how one inbound event becomes a
    reply. An event of a thread whose generation is running goes to the postbox; otherwise
    the generation loop runs, bounded by the restarts of the actor, and the frozen turn is
    remembered for the final reply. The provider call is the parameter [provider]: it
    returns what the call returned and the world as everything that ran meanwhile left it. *)

From Stdlib Require Import ZArith Lia.
From S2P Require Import Prelude Tables Json Models Schema Outbox OutboxFacts OutboxSpec OutboxRefine.
From S2P Require Import Quiet Fixtures OutboxProps ThreadStore ThreadProps Mailbox Journal Routing Admissions Actor.

(** ** Frozen turns *)

(** [TurnBinding] (its lookup callbacks left out) *)
Record TurnBinding := MkBinding {
  tb_turn : turn_row;
  tb_trace_id : string;
  tb_generation_id : option string;
}.

Definition frozen_turn_cap : nat := 256.

(** [while len(...) > cap: popitem(last=False)] *)
Definition evict {A} (cap : nat) (l : list A) : list A := drop (length l - cap) l.

(** [remember_turn_for_source]: an ordered dict, newest last *)
Definition remember_turn_for_source (key : string) (b : option TurnBinding)
    (l : list (string * TurnBinding)) : list (string * TurnBinding) :=
  match b with
  | None => l
  | Some b => if str_true key
              then evict frozen_turn_cap (List.filter (λ p, negb (p.1 =?s key)) l ++ [(key, b)])
              else l
  end.

Definition frozen_turn_for_source (key : string) (l : list (string * TurnBinding)) : option TurnBinding :=
  snd <$> List.find (λ p, p.1 =?s key) l.

(** ** The world of the responder *)

Record responder_world := MkResponder {
  rw_store : db;
  rw_actors : gmap string ActorState;
  rw_frozen : list (string * TurnBinding);
  rw_released : list (string * string);
}.

#[export] Instance eta_responder_world : Updatable responder_world :=
  λ w, MkResponder (rw_store w) (rw_actors w) (rw_frozen w) (rw_released w).

Definition actor_state (thread_id : string) (w : responder_world) : ActorState :=
  default new_actor_state (rw_actors w !! thread_id).

(** [ThreadActorRegistry.actor_for] and a call of that actor *)
Definition on_actor {A} (thread_id : string) (p : prog actor_world A) : prog responder_world A :=
  λ w, let (r, aw) := p (MkWorld (rw_store w) (actor_state thread_id w)) in
       (r, w <| rw_store := aw_store aw |> <| rw_actors ::= insert thread_id (aw_state aw) |>).

Definition on_db {A} (p : prog db A) : prog responder_world A :=
  λ w, let (r, s) := p (rw_store w) in (r, w <| rw_store := s |>).

(** The inbound event as the responder reads it. *)
Record reply_event := MkInbound {
  in_channel : string;
  in_chat_id : string;
  in_message_id : string;
  in_sender_id : string;
  in_processing_kind : string;
  in_explicit_correction : bool;
}.

(** How the generation loop ended: the plain path without a turn, no answer, an answer, or
    all rounds used up. *)
Inductive loop_exit :=
| PlainPath
| NoAnswer (state : string)
| Answer (text : option string)
| OutOfRounds.

(** ** The store invariant of the loop *)

Section Invariant.
  Context `{Sha256}.

(** Turns have a positive revision and belong to a stored thread. *)
Record threads_wf (s : db) : Prop := MkThreadsWf {
  tw_outbox : outbox_inv s;
  tw_turns : ∀ t, t ∈ turns s → 1 ≤ tu_revision t ∧ ∃ th, get_thread (tu_thread_id t) s = Some th;
}.

Lemma threads_wf_ext s s' :
  effects s' = effects s → effect_attempts s' = effect_attempts s → threads s' = threads s →
  (∀ t', t' ∈ turns s' → ∃ t, t ∈ turns s ∧ tu_revision t' = tu_revision t ∧ tu_thread_id t' = tu_thread_id t) →
  threads_wf s → threads_wf s'.
Proof.
  intros H1 H2 H4 Ht [Hi Hw]. split; [by eapply outbox_inv_ext|].
  intros t' (t & Hin & -> & ->)%Ht. unfold get_thread. rewrite H4. by apply Hw.
Qed.

Lemma threads_wf_actor a g s th :
  threads_wf s → get_thread (ta_thread_id a) s = Some th → actor_ok a g s.
Proof.
  intros [Hi Hw] Hth. split; [done|by exists th|]. intros t [Ht _]%by_id_Some_inv. by apply Hw.
Qed.

Lemma update_turns_same p f (l : list turn_row) :
  (∀ t, tu_revision (f t) = tu_revision t ∧ tu_thread_id (f t) = tu_thread_id t) →
  ∀ t', t' ∈ update p f l → ∃ t, t ∈ l ∧ tu_revision t' = tu_revision t ∧ tu_thread_id t' = tu_thread_id t.
Proof.
  intros Hf t' (t & Ht & ->)%elem_of_update. exists t. split; [done|]. destruct (p t); [apply Hf|done].
Qed.

Lemma record_generation_wf g created s :
  threads_wf s → ∃ s', record_generation g created s = (Ok (gsn_generation_id g), s') ∧ threads_wf s' ∧
                       threads s' = threads s.
Proof.
  intros Hw. unfold record_generation, write. cbv zeta. set (s1 := s <| generations ::= _ |>).
  assert (∀ l s0, ∃ x, foldl (λ (s : db) '(event_id, source_message_id, role, rev),
      s <| generation_sources ::= insert_or_ignore
             (λ r, (gs_generation_id r =?s gsn_generation_id g) && (gs_event_id r =?s event_id))
             (MkGenerationSource (gsn_generation_id g) event_id source_message_id role rev) |>) s0 l
      = s0 <| generation_sources := x |>) as Hfold.
  { induction l as [|[[[e m] ro] rv] l IH]; intros s0; cbn [foldl].
    - exists (generation_sources s0). by destruct s0.
    - match goal with |- context [foldl _ ?s1 _] => destruct (IH s1) as (x & ->) end. by exists x. }
  destruct (Hfold (gsn_sources g) s1) as (x & ->). eexists. split; [done|]. split; [|done].
  eapply threads_wf_ext; [..|exact Hw]; try done. by apply update_turns_same.
Qed.

Lemma restart_wf g t pending clock s o s' :
  get_turn (gsn_turn_id g) s = Some t → restart g pending clock s = (Ok o, s') → threads_wf s →
  threads_wf s' ∧ threads s' = threads s.
Proof.
  unfold restart, pbind. intros Et E Hw.
  destruct (add_pending_spec (gsn_turn_id g) clock pending 1 s (row_exists_turn _ _ _ Et)) as (l & El & _).
  rewrite El, (bump_context_frame _ _ (s <| turn_sources := l |>) t) in E by exact Et.
  injection E as _ <-. split; [|done].
  eapply threads_wf_ext; [..|exact Hw]; try done. by apply update_turns_same.
Qed.

(** Only the restart branch reports a restart. *)
Lemma supersede_state g t pending b clock s o s' :
  supersede g t pending b clock s = (Ok o, s') → go_state o = "superseded".
Proof.
  unfold supersede. intros (r & s1 & _ & E)%pbind_Ok. apply pbind_Ok in E as (ids & s2 & _ & E).
  apply pbind_Ok in E as (x & s3 & _ & [= <- _]). done.
Qed.

Lemma hand_over_state a g text pending clock s o s' :
  hand_over a g text pending clock s = (Ok o, s') → go_state o = "send".
Proof.
  unfold hand_over. intros (r & s1 & _ & E)%pbind_Ok. by apply pbind_Ok in E as (x & s3 & _ & [= <- _]).
Qed.

Lemma on_store_inv {A} (p : prog db A) w x w' :
  on_store p w = (Ok x, w') → p (aw_store w) = (Ok x, aw_store w').
Proof. unfold on_store. destruct (p (aw_store w)) as [r s]. by intros [= -> <-]. Qed.

Lemma evaluate_restart_wf a g text clock w o w' :
  evaluate_postbox a g text clock w = (Ok o, w') → go_state o = "restart" → threads_wf (aw_store w) →
  threads_wf (aw_store w') ∧ threads (aw_store w') = threads (aw_store w).
Proof.
  destruct (evaluate_drains a g text clock w) as (l & w1 & -> & Hs1 & _ & _).
  unfold decide_postbox, ask. intros (turn & w2 & [= <- <-] & E)%pbind_Ok Ho Hw.
  destruct (get_turn _ _) as [t|] eqn:Et; [|by injection E as <- _].
  destruct (turn_ended t); [by injection E as <- _|].
  destruct (_ || _); [by apply on_store_inv, supersede_state in E; rewrite E in Ho|].
  destruct (drained a (aw_store w)) as [|p pending]; [by injection E as <- _|].
  apply pbind_Ok in E as (n & w2 & [= <- <-] & E).
  destruct (_ <? _); [|by apply on_store_inv, hand_over_state in E; rewrite E in Ho].
  apply pbind_Ok in E as (u & w2 & [= _ <-] & E%on_store_inv). cbn [aw_store set_field] in E.
  eapply restart_wf in E as [Hw' Ht]; [|done|].
  - split; [done|]. by rewrite Ht, Hs1.
  - rewrite Hs1. eapply threads_wf_ext; [..|exact Hw]; try done. intros t' Ht'. by exists t'.
Qed.

Lemma freeze_wf a fresh moment w :
  threads_wf (aw_store w) →
  ∃ g w', freeze_snapshot a fresh moment w = (Ok g, w') ∧ threads_wf (aw_store w') ∧
    threads (aw_store w') = threads (aw_store w) ∧ restarts_left w' = restarts_left w.
Proof.
  intros Hw. unfold freeze_snapshot, pbind, ask, pget. destruct (active_turn _ _) as [t|]; [|by eexists _, _].
  set (g := MkSnapshot _ _ _ _ _ _ _).
  destruct (record_generation_wf g moment (aw_store w) Hw) as (s' & E & Hw' & Ht).
  rewrite (on_store_Ok _ _ _ _ E). by eexists _, _.
Qed.

End Invariant.

Section Responder.
  Context `{Sha256}.

(** ** Lookups *)

(** [thread_for_event] *)
Definition thread_for_event (event_id : string) (s : db) : option string :=
  if negb (str_true event_id) then None else
  match event_assignment event_id s with
  | Some (Some th, _) =>
      if str_true th then match get_thread th s with Some _ => Some th | None => None end else None
  | _ => None
  end.

(** [_is_orderer] *)
Definition is_orderer (is_operator : option (string → string → string → result bool))
    (thread_id sender : string) (s : db) : bool :=
  match active_turn thread_id s with
  | None => false
  | Some t => (may_modify is_operator (tu_principal t) sender "" "").1
  end.

(** ** The generation loop *)

(** What the rest of the program contributes: the awaited provider call, fresh ids and
    clock readings, by round. *)
Context (provider : nat → GenerationSnapshot → responder_world → call_result * responder_world).
Context (fresh : nat → string) (clock : nat → nat → Z).

(** One round: freeze, call, evaluate, remember the frozen turn. *)
Definition run_round (a : ThreadActor) (event_id : string) (i : nat)
    : prog responder_world (option GenerationOutcome) :=
  let th := ta_thread_id a in
  let* snapshot := on_actor th (freeze_snapshot a (fresh i) (clock i 0%nat)) in
  match snapshot with
  | None => pret None
  | Some g =>
      let* turn := pget (λ w, get_turn (gsn_turn_id g) (rw_store w)) in
      let binding := (λ t, MkBinding t (gsn_turn_id g) (Some (gsn_generation_id g))) <$> turn in
      do* on_actor th run_begin in
      let* answer := (λ w, let (r, w') := provider i g w in (Ok r, w')) in
      let* outcome := on_actor th (run_finish a g answer (λ k, clock i (S k))) in
      do* (λ w, (Ok tt, w <| rw_frozen ::= remember_turn_for_source event_id binding |>)) in
      pret (Some outcome)
  end.

(** [_run_loop]; [rounds] counts down the [range] *)
Fixpoint run_loop (a : ThreadActor) (event_id : string) (rounds i : nat) : prog responder_world loop_exit :=
  match rounds with
  | O => pret OutOfRounds
  | S rounds' =>
      let* outcome := run_round a event_id i in
      match outcome with
      | None => pret PlainPath
      | Some o =>
          if go_state o =?s "restart" then run_loop a event_id rounds' (S i)
          else if str_in (go_state o) ["error"; "superseded"] then pret (NoAnswer (go_state o))
          else pret (Answer (go_text o))
      end
  end.

Definition loop_rounds : nat := Z.to_nat (MAX_ADDITIONAL_GENERATIONS + 1).

(** ** [generate_reply] *)

(** The wrapped responder, for the paths without an actor. *)
Context (inner : responder_world → result (option string) * responder_world).

(** [_direct_binding_for_event] *)
Definition direct_binding_for_event (e : reply_event) (s : db) : option (string * string * string) :=
  match direct_admission_for_event (in_message_id e) (Some (in_channel e)) (Some (in_chat_id e)) s with
  | Some d => if dir_state d =?s "active" then Some (dir_channel d, dir_chat_id d, dir_turn_id d) else None
  | None => None
  end.

(** [_finish_direct_binding]: never raises *)
Definition finish_direct_binding (b : option (string * string * string)) (now : Z) (w : responder_world)
    : responder_world :=
  match b with
  | None => w
  | Some (channel, chat_id, turn_id) =>
      let (r, w1) := on_db (finish_direct_admission turn_id now) w in
      match r with
      | Raise _ => w1
      | Ok _ => if direct_work_active channel chat_id (rw_store w1) then w1
                else w1 <| rw_released ::= (λ l, l ++ [(channel, chat_id)]) |>
      end
  end.

(** [try: ... except HistoryPaused: raise; except Exception: degrade]; cancellation is not
    an [Exception] *)
Definition or_degrade (p : prog responder_world (option string)) : prog responder_world (option string) :=
  λ w, match p w with
       | (Raise CancelledError, w') => (Raise CancelledError, w')
       | (Raise (OtherError ty m), w') =>
           if ty =?s "HistoryPaused" then (Raise (OtherError ty m), w') else inner w'
       | (Raise _, w') => inner w'
       | (Ok t, w') => (Ok t, w')
       end.

(** The body of [_generate_reply_scoped]. *)
Definition reply_body (cap : Z) (is_operator : option (string → string → string → result bool))
    (e : reply_event) (input_id : string) (now : Z) : prog responder_world (option string) :=
  let* thread := pget (λ w, thread_for_event (in_message_id e) (rw_store w)) in
  match thread with
  | None => inner
  | Some th =>
      let a := ThreadActor_init th cap is_operator in
      let* in_flight := pget (λ w, as_in_flight (actor_state th w)) in
      if in_flight : bool then
        let* orderer := pget (λ w, is_orderer is_operator th (in_sender_id e) (rw_store w)) in
        let kind := if str_true (in_processing_kind e) then in_processing_kind e else "message" in
        do* on_db (accept a None None (Some (in_message_id e)) (in_sender_id e) kind None
                     (in_explicit_correction e) orderer "unknown" None input_id now) in
        pret None
      else or_degrade
        (let* exit := run_loop a (in_message_id e) loop_rounds 0 in
         match exit with
         | PlainPath => inner
         | NoAnswer _ | OutOfRounds => pret None
         | Answer t => pret t
         end)
  end.

(** [_generate_reply_scoped]: the direct binding is finished on every way out *)
Definition generate_reply (cap : Z) (is_operator : option (string → string → string → result bool))
    (e : reply_event) (input_id : string) (now finished : Z) : prog responder_world (option string) :=
  λ w, let binding := direct_binding_for_event e (rw_store w) in
       let (r, w') := reply_body cap is_operator e input_id now w in
       (r, finish_direct_binding binding finished w').

(** ** The loop ends with an answer or a reason *)

(** The restarts the actor of a thread has left. *)
Definition left_of (th : string) (w : responder_world) : Z :=
  MAX_ADDITIONAL_GENERATIONS - as_additional_generations (actor_state th w).

(** The store is well formed and knows the thread. *)
Definition loop_ok (th : string) (w : responder_world) : Prop :=
  threads_wf (rw_store w) ∧ is_Some (get_thread th (rw_store w)).

(** What the loop relies on during a provider call: nobody cancels it, the store stays
    well formed, and nobody else drives this actor. *)
Definition cooperative (th : string) : Prop :=
  ∀ i g w, let '(r, w') := provider i g w in
    r ≠ CallCancelled ∧ (loop_ok th w → loop_ok th w') ∧ left_of th w' = left_of th w.

Lemma on_actor_Ok {A} th (p : prog actor_world A) w x aw :
  p (MkWorld (rw_store w) (actor_state th w)) = (Ok x, aw) →
  on_actor th p w = (Ok x, w <| rw_store := aw_store aw |> <| rw_actors ::= insert th (aw_state aw) |>).
Proof. intros E. unfold on_actor. by rewrite E. Qed.

Lemma actor_state_insert th st s (w : responder_world) :
  actor_state th (w <| rw_store := s |> <| rw_actors ::= insert th st |>) = st.
Proof. unfold actor_state. cbn [rw_actors set_field]. by rewrite lookup_insert_eq. Qed.

Lemma left_of_world th (w : responder_world) :
  left_of th w = restarts_left (MkWorld (rw_store w) (actor_state th w)).
Proof. done. Qed.

(** The evaluation of one round's answer. *)
Lemma finish_round a g r clk w :
  loop_ok (ta_thread_id a) w → r ≠ CallCancelled →
  ∃ o w', on_actor (ta_thread_id a) (run_finish a g r clk) w = (Ok o, w') ∧
    (go_state o = "restart" →
       0 < left_of (ta_thread_id a) w ∧ left_of (ta_thread_id a) w' = left_of (ta_thread_id a) w - 1 ∧
       loop_ok (ta_thread_id a) w').
Proof.
  intros [Hw (row & Hth)] Hr. set (aw := MkWorld (rw_store w) (actor_state (ta_thread_id a) w)).
  destruct r as [text|ty|]; [|by eexists _, _|done].
  set (aw1 := aw <| aw_state ::= λ st, st <| as_in_flight := false |> |>).
  assert (run_finish a g (CallReturned text) clk aw = evaluate_postbox a g text clk aw1) as Erun by done.
  destruct (postbox_verdict a g text clk aw1) as (o & aw' & Ev & Hl & _ & Hv);
    [by eapply threads_wf_actor|].
  rewrite Ev in Erun. rewrite (on_actor_Ok _ _ _ _ _ Erun). eexists o, _. split; [done|].
  intros Ho. rewrite Ho in Hl. unfold left_of. rewrite actor_state_insert.
  assert (0 < restarts_left aw1) as Hpos.
  { unfold verdict in Hv. cbv zeta in Hv. rewrite Ho in Hv. repeat case_match; try (by destruct Hv as [? _]); lia. }
  unfold restarts_left in *. cbn in Hl, Hpos. split; [exact Hpos|]. split; [cbn; lia|].
  destruct (evaluate_restart_wf _ _ _ _ _ _ _ Ev Ho Hw) as [Hw' Ht].
  split; [exact Hw'|]. unfold get_thread in *. cbn [rw_store set_field]. rewrite Ht. by exists row.
Qed.

Lemma round_spec a event_id i w :
  cooperative (ta_thread_id a) → loop_ok (ta_thread_id a) w →
  ∃ oo w', run_round a event_id i w = (Ok oo, w') ∧
    ∀ o, oo = Some o → go_state o = "restart" →
      0 < left_of (ta_thread_id a) w ∧ left_of (ta_thread_id a) w' = left_of (ta_thread_id a) w - 1 ∧
      loop_ok (ta_thread_id a) w'.
Proof.
  intros Hc [Hw Hth]. set (th := ta_thread_id a) in *.
  destruct (freeze_wf a (fresh i) (clock i 0%nat) (MkWorld (rw_store w) (actor_state th w)) Hw)
    as (og & aw & Ef & Hw1 & Ht1 & Hl1).
  unfold run_round. fold th. unfold pbind at 1. rewrite (on_actor_Ok _ _ _ _ _ Ef).
  destruct og as [g|]; [|by eexists _, _].
  set (w1 := w <| rw_store := _ |> <| rw_actors ::= _ |>).
  assert (loop_ok th w1) as Hok1.
  { split; [exact Hw1|]. unfold get_thread in *. cbn [rw_store set_field w1]. by rewrite Ht1. }
  assert (left_of th w1 = left_of th w) as El1.
  { rewrite left_of_world. unfold w1. rewrite actor_state_insert. exact Hl1. }
  unfold pbind, pget. set (w2 := (on_actor th run_begin w1).2).
  change (on_actor th run_begin w1) with (Ok tt, w2). cbv beta iota.
  assert (loop_ok th w2 ∧ left_of th w2 = left_of th w1) as [Hok2 El2].
  { split; [exact Hok1|]. unfold w2, on_actor, run_begin, on_state, left_of. cbv beta iota. cbn [snd]. by rewrite actor_state_insert. }
  pose proof (Hc i g w2) as Hp. destruct (provider i g w2) as [r w3]. destruct Hp as (Hr & Hok3 & El3).
  destruct (finish_round a g r (λ k, clock i (S k)) w3 (Hok3 Hok2) Hr) as (o & w4 & E4 & Hrest). fold th in E4.
  rewrite E4. cbv beta iota. eexists _, _. split; [done|]. intros o' [= <-] Ho.
  destruct (Hrest Ho) as (H1 & H2 & H3). fold th in H1, H2, H3. rewrite El3, El2, El1 in *. done.
Qed.

Lemma loop_spec a event_id rounds i w :
  cooperative (ta_thread_id a) → loop_ok (ta_thread_id a) w →
  left_of (ta_thread_id a) w < Z.of_nat rounds → (0 < rounds)%nat →
  ∃ ex w', run_loop a event_id rounds i w = (Ok ex, w') ∧ ex ≠ OutOfRounds.
Proof.
  intros Hc. revert i w. induction rounds as [|rounds IH]; intros i w Hok Hl Hpos; [lia|].
  cbn [run_loop]. destruct (round_spec a event_id i w Hc Hok) as (oo & w1 & E & Hrest).
  unfold pbind. rewrite E. destruct oo as [o|]; [|by eexists _, _].
  destruct (go_state o =?s "restart") eqn:Eo.
  - apply str_eqb_eq in Eo. destruct (Hrest o eq_refl Eo) as (H1 & H2 & H3). apply IH; [done|lia|lia].
  - destruct (str_in (go_state o) _); by eexists _, _.
Qed.

(** C22: The generation loop always ends with a decision. Whatever arrives during the
    provider calls, the three rounds suffice: the loop returns an answer, a reason for not
    answering, or the plain path of a thread without a turn, and never drops an answer
    because its rounds are used up. *)
Theorem loop_decides a event_id w :
  cooperative (ta_thread_id a) → loop_ok (ta_thread_id a) w →
  0 ≤ as_additional_generations (actor_state (ta_thread_id a) w) →
  ∃ ex w', run_loop a event_id loop_rounds 0 w = (Ok ex, w') ∧ ex ≠ OutOfRounds.
Proof.
  intros Hc Hok Hn. apply loop_spec; [done|done| |cbv; lia].
  unfold left_of, MAX_ADDITIONAL_GENERATIONS. change (Z.of_nat loop_rounds) with 3. lia.
Qed.

(** ** One answer path per thread *)

(** What a message that may change the running turn leaves in the postbox: it is waiting, or
    deferred when the postbox is full. *)
Definition postbox_row (th event_id principal kind input_id : string) (cap now : Z) (s : db) : pending_row :=
  MkPending input_id th None event_id principal kind None "unknown"
    (if Z.max 1 cap <=? Z.of_nat (rowcount (in_state th "waiting") (pending_inputs s)) then "deferred" else "waiting") now None.

(** The postbox and the answer after a message during a running generation. *)
Definition postbox_spec (th event_id principal kind input_id : string) (cap now : Z) (authorized : bool) (s : db)
    : result (option string) * list pending_row :=
  let rows := pending_inputs s in
  if negb (str_true event_id) then (Raise (ProcessingError "accept requires an event id"), rows)
  else if negb authorized || row_exists (λ p, pi_event_id p =?s event_id) rows then (Ok None, rows)
  else if row_exists (has_id pi_input_id input_id) rows
  then (Raise (IntegrityError "UNIQUE constraint failed: pending_inputs.input_id"), rows)
  else (Ok None, insert_row (postbox_row th event_id principal kind input_id cap now s) rows).

Lemma accept_spec th cap is_operator eid pr k ec au f n s :
  str_true k = true →
  let '(r, s') := accept (ThreadActor_init th cap is_operator) None None (Some eid) pr k None ec au "unknown" None f n s in
  let '(answer, rows) := postbox_spec th eid pr k f cap n au s in
  (match r with Ok _ => answer = Ok None | Raise err => answer = Raise err end) ∧ pending_inputs s' = rows ∧
  generations s' = generations s ∧ effects s' = effects s ∧ turns s' = turns s ∧ direct_admissions s' = direct_admissions s.
Proof.
  intros Hk. unfold accept, postbox_spec, nonempty. cbv zeta. destruct (str_true eid) eqn:Ee; [|done].
  rewrite Ee, Hk. cbn [negb]. unfold classify_update. destruct au; cbn [negb orb andb].
  - rewrite andb_false_r. unfold pbind, pget, enqueue_pending_input, write, postbox_row. cbv zeta.
    assert ((if str_true pr then pr else default "" (ce_principal <$> None)) = pr) as -> by (by destruct pr).
    change (default f None) with f. destruct (row_exists _ (pending_inputs s)); [done|]. by destruct (row_exists (has_id pi_input_id f) (pending_inputs s)).
  - by destruct (k =?s "reaction").
Qed.

Lemma finish_direct_frame b now w :
  let s' := rw_store (finish_direct_binding b now w) in
  pending_inputs s' = pending_inputs (rw_store w) ∧ generations s' = generations (rw_store w) ∧
  effects s' = effects (rw_store w) ∧ turns s' = turns (rw_store w) ∧
  rw_actors (finish_direct_binding b now w) = rw_actors w ∧ rw_frozen (finish_direct_binding b now w) = rw_frozen w.
Proof.
  destruct b as [[[ch chat] tu]|]; [|done]. unfold finish_direct_binding, on_db, finish_direct_admission, write, pret. cbv zeta.
  destruct (negb _); cbn; case_match; done.
Qed.

(** C29: There is never a second answer path. While a generation of a thread is running,
    another message of that thread gives no reply and leaves every actor, generation, turn,
    effect and remembered turn as it is, and what becomes of it is exactly this: from a sender
    who may change the running turn it is put into the postbox once, waiting or, when the
    postbox is full, deferred; from anybody else, or when it is already there, it is only
    observed. The call fails only for a message without an id or an input id that is taken. *)
Theorem no_second_answer cap is_operator e input_id now finished w th :
  thread_for_event (in_message_id e) (rw_store w) = Some th → as_in_flight (actor_state th w) = true →
  let kind := if str_true (in_processing_kind e) then in_processing_kind e else "message" in
  let authorized := is_orderer is_operator th (in_sender_id e) (rw_store w) in
  let '(r, w') := generate_reply cap is_operator e input_id now finished w in
  (r, pending_inputs (rw_store w')) =
    postbox_spec th (in_message_id e) (in_sender_id e) kind input_id cap now authorized (rw_store w) ∧
  rw_actors w' = rw_actors w ∧ rw_frozen w' = rw_frozen w ∧ generations (rw_store w') = generations (rw_store w) ∧
  turns (rw_store w') = turns (rw_store w) ∧ effects (rw_store w') = effects (rw_store w).
Proof.
  intros Hth Hf. cbv zeta. unfold generate_reply, reply_body, pbind, pget. rewrite Hth, Hf. unfold on_db.
  set (kind := if str_true _ then _ else _). assert (str_true kind = true) as Hk by (unfold kind; by destruct (str_true _) eqn:?).
  set (au := is_orderer _ _ _ _). set (binding := direct_binding_for_event _ _).
  pose proof (accept_spec th cap is_operator (in_message_id e) (in_sender_id e) kind (in_explicit_correction e) au input_id now
    (rw_store w) Hk) as Hspec.
  destruct (accept _ _ _ _ _ _ _ _ _ _ _ _ _ _) as [r s']. destruct (postbox_spec _ _ _ _ _ _ _ _ _) as [answer rows].
  destruct Hspec as (Hr & Hp & Hg & He & Ht & _).
  pose proof (finish_direct_frame binding finished (w <| rw_store := s' |>)) as F. cbv zeta in F.
  destruct r as [adm|err]; subst answer; unfold pret; cbv beta iota;
    destruct F as (-> & -> & -> & -> & -> & ->); cbn [set_field rw_store rw_actors rw_frozen]; by rewrite Hp.
Qed.

End Responder.

(** ** The memory of frozen turns *)

Lemma find_last_key {A} key (b : A) l :
  (∀ p : string * A, p ∈ l → p.1 ≠ key) → List.find (λ p, p.1 =?s key) (l ++ [(key, b)]) = Some (key, b).
Proof.
  intros Hl. change (List.find ?p ?x) with (fetchone p x). rewrite fetchone_app.
  rewrite (fetchone_None (λ p, p.1 =?s key) l) by (intros p Hp; by apply str_eqb_neq, Hl).
  cbn. by rewrite str_eqb_refl.
Qed.

(** The memory is bounded and keeps what matters. After remembering a turn for a source
    at most 256 sources are kept, and the lookup of that source finds exactly the turn its
    latest generation was frozen with. *)
Theorem frozen_turn_memory key b l :
  key ≠ "" →
  let l' := remember_turn_for_source key (Some b) l in
  (length l' ≤ frozen_turn_cap)%nat ∧ frozen_turn_for_source key l' = Some b.
Proof.
  intros Hk. apply str_true_spec in Hk. unfold remember_turn_for_source. rewrite Hk.
  set (l0 := List.filter _ l). unfold evict. split; [rewrite length_drop; lia|].
  rewrite length_app. cbn [length]. unfold frozen_turn_for_source.
  assert (length l0 + 1 - frozen_turn_cap ≤ length l0)%nat as Hle by (unfold frozen_turn_cap; lia).
  rewrite drop_app_le by exact Hle. rewrite find_last_key; [done|].
  intros p Hp. eapply elem_of_submseteq in Hp; [|apply sublist_submseteq, sublist_drop]. unfold l0 in Hp. apply list_elem_of_In, filter_In in Hp as [_ Hp].
  apply negb_true_iff in Hp. by apply str_eqb_neq.
Qed.

(** ** Witnesses *)

#[local] Existing Instance plain_sha256.

(** A provider that always answers and lets nobody interfere. *)
Definition calm (i : nat) (g : GenerationSnapshot) (w : responder_world) : call_result * responder_world :=
  (CallReturned (Some "hi"), w).

Definition calm_world : responder_world := MkResponder busy_thread ∅ [] [].

Lemma loop_decides_witness :
  ∃ ex w', run_loop calm (λ _, "g") (λ _ _, 50) actor_th "m1" loop_rounds 0 calm_world = (Ok ex, w') ∧
           ex ≠ OutOfRounds.
Proof.
  apply loop_decides; [|split; [|by eexists]|done].
  - intros i g w. done.
  - split; [by eapply outbox_inv_ext; [..|apply outbox_inv_empty]|].
    intros t Ht. apply list_elem_of_singleton in Ht as ->. split; [done|]. by eexists.
Defined.

(** The thread is generating and "m2" is journaled into it. *)
Definition flying_world : responder_world :=
  MkResponder (busy_thread <| events := [MkEvent "m2" "k" "t" "message" "whatsapp" "whatsapp" "c" "u" "" "in"
                                         1 None None None (Some "th") (Some "tu") None "" None None 5] |>)
    {["th" := MkActorState 0 None [] true]} [] [].

(** The same thread while its turn is under way, and a second message of the orderer. *)
Lemma no_second_answer_witness :
  let '(r, w') := generate_reply calm (λ _, "g") (λ _ _, 50) (λ w, (Ok (Some "inner"), w)) 32 None
                    (MkInbound "whatsapp" "c" "m2" "u" "" false) "i9" 60 61 flying_world in
  r = Ok None ∧ generations (rw_store w') = [] ∧
  pending_inputs (rw_store w') =
    pending_inputs (rw_store flying_world) ++ [MkPending "i9" "th" None "m2" "u" "message" None "unknown" "waiting" 60 None].
Proof.
  pose proof (no_second_answer calm (λ _, "g") (λ _ _, 50) (λ w, (Ok (Some "inner"), w)) 32 None
    (MkInbound "whatsapp" "c" "m2" "u" "" false) "i9" 60 61 flying_world "th" ltac:(by vm_compute) ltac:(by vm_compute)) as Hw.
  cbv zeta in Hw. destruct (generate_reply _ _ _ _ _ _ _ _ _ _ _) as [r w']. destruct Hw as (Hr & _ & _ & Hg & _).
  apply pair_equal_spec in Hr as [-> ->]. rewrite Hg. vm_compute. auto.
Defined.

Lemma frozen_turn_memory_witness :
  frozen_turn_for_source "m1"
    (remember_turn_for_source "m1" (Some (MkBinding (MkTurn "tu" "th" "u" 1 1 "open" 1 1 None None) "t" None)) [])
  = Some (MkBinding (MkTurn "tu" "th" "u" 1 1 "open" 1 1 None None) "t" None).
Proof. by apply frozen_turn_memory. Defined.
