(* ===== verification/Executor.v ===== *)
(** * Executor

    [BusEffectExecutor] of [processing/dispatch.py]: validation of a payload, the checks
    immediately before the transport, the transport call, and the honest report about it.
    The executor runs on the log of the calls that reached a transport. What it is wired
    with (security engine, checkers, senders, handlers, confirmation) are functions in its
    record; the mention lookup in the WhatsApp history is its field [ex_mentions]. *)

From Stdlib Require Import ZArith Lia.
From S2P Require Import Prelude Tables Json Models Schema Outbox OutboxFacts OutboxSpec OutboxRefine.
From S2P Require Import Fixtures Journal Receipts Gateway.

(** ** Messages *)

Record OutboundMessage := MkOutbound {
  om_channel : string;
  om_chat_id : string;
  om_content : string;
  om_reply_to : option string;
  om_media : list string;
  om_metadata : dict;
}.

Record ReactionMessage := MkReaction {
  rm_channel : string;
  rm_chat_id : string;
  rm_message_id : string;
  rm_emoji : string;
  rm_participant_jid : option string;
  rm_metadata : dict;
}.

(** What reached a transport: a channel's direct sender, the bus, or a handler. *)
Inductive transport_call :=
| SentDirect (m : OutboundMessage)
| SentBus (m : OutboundMessage)
| ReactedDirect (m : ReactionMessage)
| ReactedBus (m : ReactionMessage)
| Deleted (e : EffectEnvelope)
| ActedExternally (e : EffectEnvelope).

Definition EFFECT_PROVENANCE_KEY : string := "processing_effect".

(** [CAPABILITY_BY_KIND] *)
Definition capability_of (p : EffectPayload) : string :=
  match p with
  | TextPayload _ _ => "send_text"
  | MediaPayload _ _ => "send_media"
  | ForwardPayload _ _ => "forward_message"
  | ReactionPayload _ _ _ _ => "send_reaction"
  | DeletePayload _ => "delete_message"
  | ExternalActionPayload _ _ => "external_action"
  end.

(** ** Validation *)

(** [validate_payload] *)
Definition validate_payload (p : EffectPayload) : result unit :=
  let reject := λ b msg, if b : bool then Raise (EffectPayloadRejectedError msg) else Ok tt in
  match p with
  | TextPayload text _ => reject (negb (str_true (py_strip text))) "text payload is empty"
  | MediaPayload media _ =>
      match media with
      | [] => Raise (EffectPayloadRejectedError "media payload has no media references")
      | _ => reject (existsb (λ m, negb (str_true (py_strip m))) media)
               "media payload contains an empty reference"
      end
  | ForwardPayload chat msg =>
      reject (negb (str_true (py_strip chat)) || negb (str_true (py_strip msg)))
        "forward payload requires source_chat_id and source_message_id"
  | ReactionPayload msg emoji _ _ =>
      reject (negb (str_true msg) || negb (str_true emoji))
        "reaction payload requires message_id and emoji"
  | DeletePayload msg => reject (negb (str_true msg)) "delete payload requires a message_id"
  | ExternalActionPayload action _ =>
      reject (negb (str_true action)) "external action payload requires an action"
  end.

(** ** The executor *)

(** [SecurityResult]: the action decided and the sanitized text *)
Record SecurityResult := MkSecurity { sec_action : string; sec_sanitized : option string }.

Record BusEffectExecutor := MkExecutor {
  ex_mark_provenance : bool;
  ex_security : option (EffectEnvelope → string → SecurityResult);
  ex_block_message : string;
  ex_history_metadata : result dict;
  ex_mentions : OutboundMessage → result OutboundMessage;
  ex_pause : option (EffectEnvelope → bool * string);
  ex_reservation : option (EffectEnvelope → bool * string);
  ex_participation : option (EffectEnvelope → option (bool * string));
  ex_direct_sender : option (OutboundMessage → result json);
  ex_direct_reaction_sender : option (ReactionMessage → result json);
  ex_bus_outbound : OutboundMessage → result unit;
  ex_bus_reaction : ReactionMessage → result unit;
  ex_delete_handler : option (EffectEnvelope → result bool);
  ex_external_handler : option (EffectEnvelope → result bool);
  ex_confirm : option (EffectEnvelope → result bool);
}.

(** [_guard_text] *)
Definition guard_text (x : BusEffectExecutor) (e : EffectEnvelope) (text : string) : string :=
  match ex_security x with
  | None => text
  | Some check =>
      let r := check e text in
      if str_in (sec_action r) ["sanitize"; "block"]
      then match sec_sanitized r with
           | Some t => if str_true t then t else ex_block_message x
           | None => ex_block_message x
           end
      else text
  end.

(** One synchronous checker. *)
Definition denied_by (o : option (EffectEnvelope → bool * string)) (e : EffectEnvelope) : option string :=
  match o with
  | None => None
  | Some check => let (allowed, reason) := check e in if allowed then None else Some reason
  end.

(** [_check_participation_pre_dispatch]; [ex_participation] answering [None] stands for a
    malformed answer *)
Definition pre_dispatch (x : BusEffectExecutor) (e : EffectEnvelope) : result unit :=
  match denied_by (ex_pause x) e with
  | Some reason => Raise (ParticipationPreDispatchDenied reason)
  | None =>
  match denied_by (ex_reservation x) e with
  | Some reason => Raise (ParticipationPreDispatchDenied reason)
  | None =>
  if negb (env_origin e =?s "participation") then Ok tt else
  match ex_participation x with
  | None => Raise (ParticipationPreDispatchDenied "participation pre-dispatch checker unwired")
  | Some check =>
      match check e with
      | Some (true, _) => Ok tt
      | Some (false, reason) => Raise (ParticipationPreDispatchDenied reason)
      | None => Raise (ParticipationPreDispatchDenied "denied")
      end
  end
  end
  end.

(** [_receipt_from_report] *)
Definition receipt_from_report (reported : json) (channel chat_id : string) : option TransportReceipt :=
  match reported with
  | JObj d =>
      let provider := dict_get "provider_message_id" d in
      let client := dict_get "client_message_id" d in
      if negb (opt_truthy provider) && negb (opt_truthy client) then None
      else Some (MkTransportReceipt channel chat_id
                   (if opt_truthy provider then py_str <$> provider else None) 0 None
                   (if opt_truthy client then py_str <$> client else None) None
                   (let detail := str_or_empty (dict_get "detail" d) in
                    if str_true detail then Some detail else None))
  | _ => None
  end.

(** A call of a transport, logged before it is awaited. *)
Definition transport {A} (c : transport_call) (answer : result A) : prog (list transport_call) A :=
  λ log, (answer, log ++ [c]).

(** [_deliver] *)
Definition deliver (x : BusEffectExecutor) (m : OutboundMessage)
    : prog (list transport_call) (option TransportReceipt) :=
  match ex_direct_sender x with
  | Some send =>
      let* reported := transport (SentDirect m) (send m) in
      pret (receipt_from_report reported (om_channel m) (om_chat_id m))
  | None => do* transport (SentBus m) (ex_bus_outbound x m) in pret None
  end.

(** [_deliver_reaction] *)
Definition deliver_reaction (x : BusEffectExecutor) (m : ReactionMessage)
    : prog (list transport_call) (option TransportReceipt) :=
  match ex_direct_reaction_sender x with
  | Some send =>
      let* reported := transport (ReactedDirect m) (send m) in
      pret (receipt_from_report reported (rm_channel m) (rm_chat_id m))
  | None => do* transport (ReactedBus m) (ex_bus_reaction x m) in pret None
  end.

Definition lift_result {A} (r : result A) : prog (list transport_call) A := pread (λ _, r).

Definition simple_receipt (e : EffectEnvelope) (state : string) (detail : string)
    (tr : option TransportReceipt) : EffectReceipt :=
  MkEffectReceipt (env_effect_id e) state "" None (Some detail) true None tr.

(** A text that security changed is not what the admission was given for. *)
Definition dispatch_envelope (e : EffectEnvelope) (changed : bool) (p : EffectPayload) : result EffectEnvelope :=
  if negb changed then Ok e
  else if env_origin e =?s "participation"
  then Raise (ParticipationPreDispatchDenied "participation_payload_changed_by_security")
  else Ok (MkEnvelope (env_effect_id e) (env_operation_key e) p (env_target e) (env_trace_id e)
             (env_turn_id e) (env_turn_revision e) (env_principal e) (env_capability e)
             (env_expires_at_ms e) (env_policy_version e) (env_policy_hash e) (env_created_ms e)
             (env_origin e) (env_admission_id e)).

(** Mentions are resolved for WhatsApp targets only. *)
Definition with_mentions (x : BusEffectExecutor) (e : EffectEnvelope) (m : OutboundMessage)
    : result OutboundMessage :=
  if tgt_channel (env_target e) =?s "whatsapp" then ex_mentions x m else Ok m.

(** A handler of deletes or external actions: a refusal is a receipt of its own. *)
Definition handled (x : BusEffectExecutor) (e : EffectEnvelope) (c : transport_call)
    (handler : option (EffectEnvelope → result bool)) (missing refused : string)
    : prog (list transport_call) (option TransportReceipt + EffectReceipt) :=
  match handler with
  | None => praise (EffectPayloadRejectedError missing)
  | Some h =>
      do* lift_result (pre_dispatch x e) in
      let* ok := transport c (h e) in
      pret (if ok : bool then inl None else inr (simple_receipt e "not_executed" refused None))
  end.

(** The part of [execute] that reaches a transport. *)
Definition perform (x : BusEffectExecutor) (e : EffectEnvelope) (provenance : dict)
    : prog (list transport_call) (option TransportReceipt + EffectReceipt) :=
  let channel := tgt_channel (env_target e) in
  let chat_id := tgt_chat_id (env_target e) in
  match env_payload e with
  | TextPayload text reply_to =>
      let content := guard_text x e text in
      let* d := lift_result (dispatch_envelope e (negb (content =?s text)) (TextPayload content reply_to)) in
      let* m := lift_result (with_mentions x e (MkOutbound channel chat_id content reply_to [] provenance)) in
      do* lift_result (pre_dispatch x d) in
      let* r := deliver x m in pret (inl r)
  | ForwardPayload chat msg =>
      do* lift_result (pre_dispatch x e) in
      let* r := deliver x (MkOutbound channel chat_id "" None []
        (dict_set "forward_message"
           (JObj [("source_chat_id", JStr chat); ("source_message_id", JStr msg)]) provenance)) in
      pret (inl r)
  | MediaPayload media caption =>
      let old := default "" caption in
      let text := guard_text x e old in
      let* d := lift_result (dispatch_envelope e (negb (text =?s old)) (MediaPayload media (Some text))) in
      let* m := lift_result (with_mentions x e (MkOutbound channel chat_id text None media provenance)) in
      do* lift_result (pre_dispatch x d) in
      let* r := deliver x m in pret (inl r)
  | ReactionPayload msg emoji jid _ =>
      do* lift_result (pre_dispatch x e) in
      let* r := deliver_reaction x (MkReaction channel chat_id msg emoji jid provenance) in
      pret (inl r)
  | DeletePayload _ =>
      handled x e (Deleted e) (ex_delete_handler x) "no delete transport registered"
        "delete transport refused"
  | ExternalActionPayload action _ =>
      handled x e (ActedExternally e) (ex_external_handler x) ("no external transport registered for action " +:+ repr_str action)
        ("external transport refused " +:+ repr_str action)
  end.

Definition is_reaction (p : EffectPayload) : bool :=
  match p with ReactionPayload _ _ _ _ => true | _ => false end.

(** The channel adapter that took the payload, if one is wired. *)
Definition has_direct (x : BusEffectExecutor) (p : EffectPayload) : bool :=
  if is_reaction p then is_some (ex_direct_reaction_sender x) else is_some (ex_direct_sender x).

(** [execute] *)
Definition execute (x : BusEffectExecutor) (e : EffectEnvelope) : prog (list transport_call) EffectReceipt :=
  do* lift_result (validate_payload (env_payload e)) in
  let* history := lift_result (ex_history_metadata x) in
  let provenance := (if ex_mark_provenance x then [(EFFECT_PROVENANCE_KEY, JStr (env_effect_id e))] else [])
                    ++ history in
  let* done := perform x e provenance in
  match done with
  | inr refused => pret refused
  | inl tr =>
      match ex_confirm x with
      | Some confirm =>
          let* confirmed := lift_result (confirm e) in
          pret (if confirmed : bool then simple_receipt e "sent" "confirmed by transport" None
                else simple_receipt e "unknown" "queued to transport; delivery unconfirmed" None)
      | None =>
          pret (if has_direct x (env_payload e)
                then simple_receipt e "sent" "accepted by the channel transport adapter" tr
                else simple_receipt e "unknown"
                       "accepted by the outbound queue; transport outcome unproven" None)
      end
  end.

(** What awaiting the executor comes to for the gateway. *)
Definition outcome_of (r : result EffectReceipt) : exec_outcome :=
  match r with
  | Ok receipt => Reported (Some receipt)
  | Raise CancelledError => Cancelled
  | Raise (ParticipationPreDispatchDenied m) => Raised "ParticipationPreDispatchDenied" m true
  | Raise (EffectPayloadRejectedError m) => Raised "EffectPayloadRejectedError" m false
  | Raise (ValueError m) => Raised "ValueError" m false
  | Raise (TypeError m) => Raised "TypeError" m false
  | Raise (ProcessingError m) => Raised "ProcessingError" m false
  | Raise (JournalConflictError m) => Raised "JournalConflictError" m false
  | Raise (EffectConflictError m) => Raised "EffectConflictError" m false
  | Raise (InvalidTransitionError m) => Raised "InvalidTransitionError" m false
  | Raise (TurnStateError m) => Raised "TurnStateError" m false
  | Raise (IntegrityError m) => Raised "IntegrityError" m false
  | Raise (IndexError m) => Raised "IndexError" m false
  | Raise (EffectNotDeliveredError m) => Raised "EffectNotDeliveredError" m false
  | Raise (OtherError ty m) => Raised ty m (ty =?s "GlobalPauseRefused")
  end.

(** ** Facts *)

Lemma lift_bind_Ok {A B} (r : result A) (k : A → prog (list transport_call) B) log a :
  r = Ok a → pbind (lift_result r) k log = k a log.
Proof. by intros ->. Qed.

Lemma lift_bind {A B} (r : result A) (k : A → prog (list transport_call) B) log :
  pbind (lift_result r) k log = match r with Ok a => k a log | Raise err => (Raise err, log) end.
Proof. by destruct r. Qed.

(** The checks passed for the envelope that goes out. *)
Definition cleared (x : BusEffectExecutor) (d : EffectEnvelope) : Prop :=
  denied_by (ex_pause x) d = None ∧ denied_by (ex_reservation x) d = None ∧
  (env_origin d = "participation" →
   ∃ check reason, ex_participation x = Some check ∧ check d = Some (true, reason)).

Lemma pre_dispatch_cleared x d : pre_dispatch x d = Ok tt → cleared x d.
Proof.
  unfold pre_dispatch, cleared. destruct (denied_by (ex_pause x) d); [done|].
  destruct (denied_by (ex_reservation x) d); [done|].
  destruct (env_origin d =?s "participation") eqn:Eo; cbn [negb].
  - destruct (ex_participation x) as [check|]; [|done].
    destruct (check d) as [[[] reason]|] eqn:Ec; [|done|done]. intros _. split_and!; eauto.
  - intros _. apply str_eqb_neq in Eo. done.
Qed.

(** The call is the one the envelope asks for, at its own target. *)
Definition carries (x : BusEffectExecutor) (d : EffectEnvelope) (c : transport_call) : Prop :=
  let ch := tgt_channel (env_target d) in
  let chat := tgt_chat_id (env_target d) in
  match env_payload d with
  | TextPayload text reply_to => ∃ m meta, (c = SentDirect m ∨ c = SentBus m) ∧
      with_mentions x d (MkOutbound ch chat text reply_to [] meta) = Ok m
  | MediaPayload media caption => ∃ m meta, (c = SentDirect m ∨ c = SentBus m) ∧
      with_mentions x d (MkOutbound ch chat (default "" caption) None media meta) = Ok m
  | ForwardPayload src msg => ∃ m, (c = SentDirect m ∨ c = SentBus m) ∧ om_channel m = ch ∧
      om_chat_id m = chat ∧ dict_get "forward_message" (om_metadata m) =
        Some (JObj [("source_chat_id", JStr src); ("source_message_id", JStr msg)])
  | ReactionPayload msg emoji jid _ => ∃ m, (c = ReactedDirect m ∨ c = ReactedBus m) ∧
      rm_channel m = ch ∧ rm_chat_id m = chat ∧ rm_message_id m = msg ∧ rm_emoji m = emoji ∧
      rm_participant_jid m = jid
  | DeletePayload _ => c = Deleted d
  | ExternalActionPayload _ _ => c = ActedExternally d
  end.

(** The envelope that goes out: the accepted one, or for other origins one with the text
    security left of it. *)
Definition dispatched (x : BusEffectExecutor) (e d : EffectEnvelope) : Prop :=
  d = e ∨ (env_origin e ≠ "participation" ∧ env_target d = env_target e ∧ env_origin d = env_origin e ∧
           env_effect_id d = env_effect_id e ∧
           match env_payload e, env_payload d with
           | TextPayload t r, TextPayload t' r' => t' = guard_text x e t ∧ r' = r
           | MediaPayload ms c, MediaPayload ms' c' => ms' = ms ∧ c' = Some (guard_text x e (default "" c))
           | _, _ => False
           end).

Lemma deliver_log x m log r log' :
  deliver x m log = (r, log') → ∃ c, log' = log ++ [c] ∧ (c = SentDirect m ∨ c = SentBus m).
Proof.
  unfold deliver, transport, pbind. destruct (ex_direct_sender x) as [send|].
  - destruct (send m) as [j|]; intros [= _ <-]; eauto.
  - destruct (ex_bus_outbound x m); intros [= _ <-]; eauto.
Qed.

Lemma deliver_reaction_log x m log r log' :
  deliver_reaction x m log = (r, log') → ∃ c, log' = log ++ [c] ∧ (c = ReactedDirect m ∨ c = ReactedBus m).
Proof.
  unfold deliver_reaction, transport, pbind. destruct (ex_direct_reaction_sender x) as [send|].
  - destruct (send m) as [j|]; intros [= _ <-]; eauto.
  - destruct (ex_bus_reaction x m); intros [= _ <-]; eauto.
Qed.

Lemma dispatch_envelope_dispatched e (changed : bool) p d :
  dispatch_envelope e changed p = Ok d →
  (changed = false ∧ d = e) ∨
  (changed = true ∧ env_origin e ≠ "participation" ∧ env_payload d = p ∧ env_target d = env_target e ∧
   env_origin d = env_origin e ∧ env_effect_id d = env_effect_id e).
Proof.
  unfold dispatch_envelope. destruct changed; cbn [negb]; [|intros [= <-]; by left].
  destruct (env_origin e =?s "participation") eqn:Eo; [done|]. apply str_eqb_neq in Eo. intros [= <-]. by right.
Qed.

(** Either nothing reached a transport and an exception says so, or one call did. *)
Definition fenced (x : BusEffectExecutor) (e : EffectEnvelope) {A} (r : result A)
    (log log' : list transport_call) : Prop :=
  (log' = log ∧ ∃ err, r = Raise err) ∨
  ∃ c d, log' = log ++ [c] ∧ dispatched x e d ∧ cleared x d ∧ carries x d c.

Lemma then_deliver x e d m log (r : result (option TransportReceipt + EffectReceipt)) log' :
  (do* lift_result (pre_dispatch x d) in let* r := deliver x m in pret (inl r)) log = (r, log') →
  dispatched x e d → (∀ c, c = SentDirect m ∨ c = SentBus m → carries x d c) → fenced x e r log log'.
Proof.
  rewrite lift_bind. destruct (pre_dispatch x d) as [[]|err] eqn:Ep; [|intros [= <- <-]; left; eauto].
  apply pre_dispatch_cleared in Ep. unfold pbind. destruct (deliver x m log) as [r0 log0] eqn:Ed.
  apply deliver_log in Ed as (c & -> & Hc). intros E Hd Hcar. right. exists c, d.
  split; [|by auto]. destruct r0; by injection E as _ <-.
Qed.

Lemma handled_fenced x e c h m1 m2 log r log' :
  handled x e c h m1 m2 log = (r, log') → carries x e c → fenced x e r log log'.
Proof.
  unfold handled. destruct h as [h|]; [|intros [= <- <-]; left; eauto]. rewrite lift_bind.
  destruct (pre_dispatch x e) as [[]|err] eqn:Ep; [|intros [= <- <-]; left; eauto].
  apply pre_dispatch_cleared in Ep. unfold pbind, transport. intros E Hc. right. exists c, e.
  split; [destruct (h e) as [b|]; by injection E as _ <-|]. split; [by left|done].
Qed.

Lemma with_mentions_target x e d m : env_target d = env_target e → with_mentions x d m = with_mentions x e m.
Proof. unfold with_mentions. by intros ->. Qed.

Lemma perform_fenced x e prov log r log' :
  perform x e prov log = (r, log') → fenced x e r log log'.
Proof.
  unfold perform. destruct (env_payload e) as [text reply|media cap|src msg|msg emoji jid rs|msg|act args] eqn:Ep.
  - rewrite lift_bind. destruct (dispatch_envelope e _ _) as [d|err] eqn:Ed; [|intros [= <- <-]; left; eauto].
    rewrite lift_bind. destruct (with_mentions x e _) as [m|err] eqn:Em; [|intros [= <- <-]; left; eauto].
    apply dispatch_envelope_dispatched in Ed as [[Ht ->]|(_ & Ho & Hp & H1 & H2 & H3)]; intros E.
    + apply negb_false_iff, str_eqb_eq in Ht. rewrite Ht in Em.
      eapply then_deliver; [done|by left|]. intros c Hc. unfold carries. rewrite Ep. eauto.
    + eapply then_deliver; [done|right; rewrite Ep, Hp; by split_and!|].
      intros c Hc. unfold carries. rewrite Hp, H1. eexists _, _. split; [done|].
      rewrite (with_mentions_target x e) by done. exact Em.
  - rewrite lift_bind. destruct (dispatch_envelope e _ _) as [d|err] eqn:Ed; [|intros [= <- <-]; left; eauto].
    rewrite lift_bind. destruct (with_mentions x e _) as [m|err] eqn:Em; [|intros [= <- <-]; left; eauto].
    apply dispatch_envelope_dispatched in Ed as [[Ht ->]|(_ & Ho & Hp & H1 & H2 & H3)]; intros E.
    + apply negb_false_iff, str_eqb_eq in Ht. rewrite Ht in Em.
      eapply then_deliver; [done|by left|]. intros c Hc. unfold carries. rewrite Ep. eauto.
    + eapply then_deliver; [done|right; rewrite Ep, Hp; by split_and!|].
      intros c Hc. unfold carries. rewrite Hp, H1. eexists _, _. split; [done|].
      rewrite (with_mentions_target x e) by done. exact Em.
  - intros E. eapply then_deliver; [done|by left|]. intros c Hc. unfold carries. rewrite Ep.
    eexists. split; [done|]. split_and!; [done..|]. apply dict_get_set.
  - rewrite lift_bind. destruct (pre_dispatch x e) as [[]|err] eqn:Epre; [|intros [= <- <-]; left; eauto].
    apply pre_dispatch_cleared in Epre. unfold pbind. destruct (deliver_reaction x _ log) as [r0 log0] eqn:Ed.
    apply deliver_reaction_log in Ed as (c & -> & Hc). intros E. right. exists c, e.
    split; [destruct r0; by injection E as _ <-|]. split; [by left|]. split; [done|].
    unfold carries. rewrite Ep. eauto 10.
  - intros E. eapply handled_fenced; [done|]. unfold carries. by rewrite Ep.
  - intros E. eapply handled_fenced; [done|]. unfold carries. by rewrite Ep.
Qed.

Lemma handled_refuses x e c h m1 m2 log receipt log' :
  handled x e c h m1 m2 log = (Ok (inr receipt), log') → er_state receipt = "not_executed".
Proof.
  unfold handled. destruct h as [h|]; [|done]. rewrite lift_bind. destruct (pre_dispatch x e) as [[]|]; [|done].
  unfold pbind, transport. destruct (h e) as [[]|]; [done| |done]. by intros [= <- _].
Qed.

Lemma perform_refuses x e prov log receipt log' :
  perform x e prov log = (Ok (inr receipt), log') → er_state receipt = "not_executed".
Proof.
  unfold perform. destruct (env_payload e).
  1,2: rewrite lift_bind; case_match; [|done]; rewrite lift_bind; case_match; [|done];
    rewrite lift_bind; case_match; [|done]; unfold pbind; by destruct (deliver _ _ _) as [[] ?].
  1,2: rewrite lift_bind; case_match; [|done]; unfold pbind;
    (by destruct (deliver _ _ _) as [[] ?]) || (by destruct (deliver_reaction _ _ _) as [[] ?]).
  all: apply handled_refuses.
Qed.

(** The report of a call that came back. *)
Definition reported_as (x : BusEffectExecutor) (e : EffectEnvelope) (receipt : EffectReceipt) : Prop :=
  match ex_confirm x with
  | Some confirm => ∃ b : bool, confirm e = Ok b ∧ er_state receipt = if b then "sent" else "unknown"
  | None => er_state receipt = if has_direct x (env_payload e) then "sent" else "unknown"
  end.

Lemma execute_cases x e log r log' :
  execute x e log = (r, log') →
  (log' = log ∧ ∃ err, r = Raise err) ∨
  ∃ c d, log' = log ++ [c] ∧ validate_payload (env_payload e) = Ok tt ∧ dispatched x e d ∧
         cleared x d ∧ carries x d c ∧
         match r with
         | Raise _ => True
         | Ok receipt => er_state receipt = "not_executed" ∨ reported_as x e receipt
         end.
Proof.
  unfold execute. rewrite lift_bind.
  destruct (validate_payload (env_payload e)) as [[]|err]; [|intros [= <- <-]; left; eauto].
  rewrite lift_bind. destruct (ex_history_metadata x) as [h|err]; [|intros [= <- <-]; left; eauto].
  unfold pbind at 1. destruct (perform x e _ log) as [r0 log0] eqn:Ep. intros E.
  pose proof (perform_fenced _ _ _ _ _ _ Ep) as [[-> (err & ->)]|(c & d & -> & Hd & Hc & Hcar)];
    [injection E as <- <-; left; eauto|].
  right. exists c, d.
  assert (log' = log ++ [c] ∧ match r with
    | Raise _ => True | Ok receipt => er_state receipt = "not_executed" ∨ reported_as x e receipt end) as [-> Hr];
    [|by split_and!].
  destruct r0 as [[tr|refused]|err]; [| |by injection E as <- <-].
  - unfold reported_as. destruct (ex_confirm x) as [f|].
    + rewrite lift_bind in E. destruct (f e) as [b|]; injection E as <- <-; [|done]. split; [done|]. right.
      exists b. by destruct b.
    + injection E as <- <-. split; [done|]. right. by destruct (has_direct _ _).
  - injection E as <- <-. split; [done|]. left. by eapply perform_refuses.
Qed.

(** ** Theorems *)

(** Every dispatch passes the fence, once. Executing an effect makes at most one
    transport call. If none is made an exception says so. If one is made, the payload is
    valid, the owner's pause and the reservation allow the envelope that goes out, a
    participation effect is allowed by a wired checker, the call is what that envelope asks
    for at its own target, and for a participation effect it is the accepted envelope
    itself, unchanged. *)
Theorem transport_fenced x e log :
  let '(r, log') := execute x e log in
  (log' = log ∧ ∃ err, r = Raise err) ∨
  ∃ c d, log' = log ++ [c] ∧ validate_payload (env_payload e) = Ok tt ∧ dispatched x e d ∧
         cleared x d ∧ carries x d c ∧ (env_origin e = "participation" → d = e).
Proof.
  destruct (execute x e log) as [r log'] eqn:E.
  apply execute_cases in E as [?|(c & d & H1 & H2 & H3 & H4 & H5 & _)]; [by left|]. right. exists c, d.
  split_and!; try done. intros Ho. destruct H3 as [->|[Hn _]]; done.
Qed.

(** Reports are honest. What the gateway records as [sent] was handed to a transport,
    and either the transport confirmed it or, where no confirmation is wired, a channel
    adapter accepted it; a write to the outbound queue alone is never recorded as sent. *)
Theorem honest_report x e log :
  let '(r, log') := execute x e log in
  outcome_state (env_origin e) (outcome_of r) = sent →
  (∃ c d, log' = log ++ [c] ∧ dispatched x e d ∧ carries x d c) ∧
  match ex_confirm x with
  | Some confirm => confirm e = Ok true
  | None => has_direct x (env_payload e) = true
  end.
Proof.
  destruct (execute x e log) as [r log'] eqn:E. intros Hs.
  destruct r as [receipt|err].
  2:{ exfalso. destruct err; cbn in Hs; try done; repeat case_match; done. }
  apply execute_cases in E as [[_ (err & ?)]|(c & d & H1 & H2 & H3 & H4 & H5 & Hr)]; [done|].
  split; [by exists c, d|]. cbn in Hs.
  destruct (er_state receipt =?s "sent") eqn:Es; [|by destruct (er_state receipt =?s "not_executed")].
  apply str_eqb_eq in Es. rewrite Es in Hr. destruct Hr as [?|Hr]; [done|]. unfold reported_as in Hr.
  rewrite Es in Hr. destruct (ex_confirm x) as [f|].
  - destruct Hr as ([] & Hf & ?); done.
  - by destruct (has_direct _ _).
Qed.

(** ** Examples *)

(** A fully wired executor whose participation checker denies everything. *)
Definition wired : BusEffectExecutor :=
  {| ex_mark_provenance := true; ex_security := None; ex_block_message := "";
     ex_history_metadata := Ok []; ex_mentions := Ok; ex_pause := Some (λ _, (true, ""));
     ex_reservation := None; ex_participation := Some (λ _, Some (false, "quiet hours"));
     ex_direct_sender := Some (λ _, Ok (JObj [("provider_message_id", JStr "p1")]));
     ex_direct_reaction_sender := None; ex_bus_outbound := λ _, Ok tt; ex_bus_reaction := λ _, Ok tt;
     ex_delete_handler := None; ex_external_handler := None; ex_confirm := None |}.

(** A payload that validation rejects reaches no transport, and still the gateway has to
    record its outcome as unknown: the rejection is no typed refusal and its message has no
    marker. *)
Theorem rejected_payload_unproven x e log m :
  validate_payload (env_payload e) = Raise (EffectPayloadRejectedError m) →
  m = "text payload is empty" →
  execute x e log = (Raise (EffectPayloadRejectedError m), log) ∧
  outcome_state (env_origin e) (outcome_of (Raise (EffectPayloadRejectedError m))) = unknown.
Proof. intros Hv ->. split; [unfold execute; by rewrite lift_bind, Hv|by vm_compute]. Qed.

Example text_goes_out_once :
  let '(r, calls) := execute wired hello_envelope [] in
  length calls = 1%nat ∧ outcome_state "legacy" (outcome_of r) = sent.
Proof. by vm_compute. Qed.

Lemma honest_report_witness :
  ∃ c d, (execute wired hello_envelope []).2 = [c] ∧ carries wired d c.
Proof.
  pose proof (honest_report wired hello_envelope []) as Hw.
  assert (outcome_state "legacy" (outcome_of (execute wired hello_envelope []).1) = sent) as Hs by by vm_compute.
  destruct (execute wired hello_envelope []) as [r log'].
  destruct (Hw Hs) as [(c & d & -> & _ & Hc) _]. by exists c, d.
Defined.
