(* ===== verification/PyFloat.v ===== *)
(** * PyFloat

    Python's [float] as the provider code uses it: conversion from JSON values and text,
    comparison, multiplication and truncation, on the IEEE double format of the Standard
    Library's [SpecFloat] (53 bits, rounding to nearest even), and the millisecond
    conversion [_to_ms] of [processing/signals.py]. *)

From Stdlib Require Import ZArith Lia Ascii SpecFloat.
From S2P Require Import Prelude Tables Json Identity.

Abbreviation pyfloat := spec_float.

(** ** From text *)

Definition starts_with_digit (s : string) : bool :=
  match s with String c _ => is_digit c | EmptyString => false end.

(** An underscore may only stand between two digits. *)
Fixpoint drop_underscores (after_digit : bool) (s : string) : option string :=
  match s with
  | EmptyString => Some EmptyString
  | String c s' =>
      if (nat_of_ascii c =? 95)%nat
      then if after_digit && starts_with_digit s' then drop_underscores false s' else None
      else String c <$> drop_underscores (is_digit c) s'
  end.

(** The leading digits: their value appended to [acc], how many, and the rest. *)
Fixpoint take_digits (acc : Z) (count : Z) (s : string) : Z * Z * string :=
  match s with
  | EmptyString => (acc, count, s)
  | String c s' =>
      match digit_value c with
      | Some d => take_digits (acc * 10 + d) (count + 1) s'
      | None => (acc, count, s)
      end
  end.

(** An optional sign. *)
Definition take_sign (s : string) : bool * string :=
  match s with
  | String c s' => if (nat_of_ascii c =? 45)%nat then (true, s')
                   else if (nat_of_ascii c =? 43)%nat then (false, s') else (false, s)
  | EmptyString => (false, s)
  end.

(** [e[sign]digits], nothing, or a malformed rest *)
Definition take_exponent (s : string) : option Z :=
  match s with
  | EmptyString => Some 0
  | String c s' =>
      if (nat_of_ascii (lower_char c) =? 101)%nat then
        let (neg, digits) := take_sign s' in
        match take_digits 0 0 digits with
        | (value, count, EmptyString) =>
            if 0 <? count then Some (if neg : bool then - value else value) else None
        | _ => None
        end
      else None
  end.

(** [m * 10 ^ e], rounded once *)
Definition decimal_float (neg : bool) (m e : Z) : pyfloat :=
  match m with
  | Zpos _ =>
      if 0 <=? e then binary_round 53 1024 neg (Z.to_pos (m * 10 ^ e)) 0
      else let '(q, x, l) := SFdiv_core_binary 53 1024 m 0 (10 ^ (- e)) 0 in
           binary_round_aux 53 1024 neg q x l
  | _ => S754_zero neg
  end.

Definition decimal_point (s : string) : option string :=
  match s with
  | String c s' => if (nat_of_ascii c =? 46)%nat then Some s' else None
  | EmptyString => None
  end.

Definition parse_decimal (neg : bool) (s : string) : option pyfloat :=
  let '(whole, n1, rest) := take_digits 0 0 s in
  let '(mantissa, n2, rest') :=
    match decimal_point rest with
    | Some frac => take_digits whole 0 frac
    | None => (whole, 0, rest)
    end in
  if n1 + n2 =? 0 then None
  else (λ x, decimal_float neg mantissa (x - n2)) <$> take_exponent rest'.

(** [float(s)] of a stripped text; [None] is the [ValueError] *)
Definition parse_float (s : string) : option pyfloat :=
  match drop_underscores false s with
  | None => None
  | Some text =>
      let (neg, body) := take_sign text in
      if str_in (py_lower body) ["inf"; "infinity"] then Some (S754_infinity neg)
      else if py_lower body =?s "nan" then Some S754_nan
      else parse_decimal neg body
  end.

(** ** From JSON, to integers *)

Definition OverflowError (msg : string) : py_error := OtherError "OverflowError" msg.

(** [float(z)] *)
Definition int_float (z : Z) : pyfloat := binary_normalize 53 1024 z 0 false.

(** [float(v)]; a JSON float carries its [repr] *)
Definition py_float (v : json) : result pyfloat :=
  match v with
  | JBool b => Ok (int_float (if b then 1 else 0))
  | JInt z =>
      match int_float z with
      | S754_infinity _ => Raise (OverflowError "int too large to convert to float")
      | f => Ok f
      end
  | JFloat t | JStr t =>
      match parse_float (py_strip t) with
      | Some f => Ok f
      | None => Raise (ValueError "could not convert string to float")
      end
  | _ => Raise (TypeError "float() argument must be a string or a real number")
  end.

(** [int(f)]: towards zero *)
Definition float_int (f : pyfloat) : result Z :=
  match f with
  | S754_nan => Raise (ValueError "cannot convert float NaN to integer")
  | S754_infinity _ => Raise (OverflowError "cannot convert float infinity to integer")
  | S754_zero _ => Ok 0
  | S754_finite neg m e =>
      let magnitude := if 0 <=? e then Zpos m * 2 ^ e else Zpos m / 2 ^ (- e) in
      Ok (if neg then - magnitude else magnitude)
  end.

(** [f % 1 == 0] *)
Definition float_is_integer (f : pyfloat) : bool :=
  match f with
  | S754_zero _ => true
  | S754_finite _ m e => (0 <=? e) || (Zpos m mod 2 ^ (- e) =? 0)
  | _ => false
  end.

(** ** Milliseconds *)

Definition THOUSAND : pyfloat := int_float 1000.
Definition SECONDS_LIMIT : pyfloat := int_float 100000000000.

(** [_to_ms]: epoch seconds or milliseconds. The conversion of the value is guarded, the
    truncation at the end is not. *)
Definition to_ms (value : option json) : result (option Z) :=
  match value with
  | None | Some JNull => Ok None
  | Some v =>
      match py_float v with
      | Raise (TypeError _) | Raise (ValueError _) => Ok None
      | Raise e => Raise e
      | Ok number =>
          if SFleb number (S754_zero false) then Ok None
          else let! ms := if SFltb number SECONDS_LIMIT then float_int (SFmul 53 1024 number THOUSAND)
                          else float_int number in
               Ok (Some ms)
      end
  end.

Example to_ms_fraction : to_ms (Some (JFloat "1700000000.123")) = Ok (Some 1700000000123).
Proof. by vm_compute. Qed.
Example to_ms_text : to_ms (Some (JStr " 1_700_000_000 ")) = Ok (Some 1700000000000).
Proof. by vm_compute. Qed.
Example to_ms_rounding : to_ms (Some (JStr "1.001")) = Ok (Some 1000).
Proof. by vm_compute. Qed.

(** ** Exactness on integers *)

Lemma digits2_log2 p : Zpos (digits2_pos p) = Z.log2 (Zpos p) + 1.
Proof.
  induction p as [p IH|p IH|]; [..|done]; cbn [digits2_pos]; rewrite Pos2Z.inj_succ, IH.
  - rewrite Pos2Z.inj_xI. rewrite Z.log2_succ_double by lia. lia.
  - rewrite Pos2Z.inj_xO, Z.log2_double by lia. lia.
Qed.

(** Shifting out zero bits loses nothing. *)
Lemma shr_exact n m :
  0 < m → SpecFloat.iter_pos shr_1 n (Build_shr_record (m * 2 ^ Zpos n) false false) = Build_shr_record m false false.
Proof.
  assert (∀ m, 0 < m → shr_1 (Build_shr_record (m * 2) false false) = Build_shr_record m false false) as H1.
  { intros [|p|p] Hm; try lia. rewrite Z.mul_comm. done. }
  revert m. induction n as [n IH|n IH|]; intros m Hm; cbn [SpecFloat.iter_pos].
  - replace (Z.pos n~1) with (Z.pos n + Z.pos n + 1) by lia. rewrite !Z.pow_add_r, !Z.mul_assoc by lia.
    rewrite H1 by nia. rewrite !IH by nia. done.
  - replace (Z.pos n~0) with (Z.pos n + Z.pos n) by lia. rewrite Z.pow_add_r, Z.mul_assoc by lia.
    rewrite !IH by nia. done.
  - change (2 ^ 1) with 2. by apply H1.
Qed.

(** An integer of at most 53 bits is its own rounding. *)
Definition exact_float (x : Z) : pyfloat :=
  S754_finite false (Z.to_pos (x * 2 ^ (52 - Z.log2 x))) (Z.log2 x - 52).

Lemma fexp_small d : 1 <= d <= 53 → fexp 53 1024 d = d - 53.
Proof. unfold fexp, emin. lia. Qed.

Lemma shr_fexp_exact x k :
  0 < x < 2 ^ 53 → 52 - Z.log2 x <= k →
  shr_fexp 53 1024 (x * 2 ^ k) (- k) loc_Exact =
    (Build_shr_record (x * 2 ^ (52 - Z.log2 x)) false false, Z.log2 x - 52).
Proof.
  intros Hx Hk. unfold shr_fexp.
  pose proof (Z.log2_nonneg x). assert (Z.log2 x < 53) by (apply Z.log2_lt_pow2; lia).
  assert (Zdigits2 (x * 2 ^ k) = Z.log2 x + 1 + k) as ->.
  { assert (0 < 2 ^ k) by (apply Z.pow_pos_nonneg; lia).
    destruct (x * 2 ^ k) as [|p|p] eqn:E; [nia| |nia].
    cbn [Zdigits2]. rewrite digits2_log2, <- E, Z.log2_mul_pow2 by lia. lia. }
  rewrite fexp_small by lia.
  replace (Z.log2 x + 1 + k + - k - 53 - - k) with (k - (52 - Z.log2 x)) by lia.
  set (r := 52 - Z.log2 x) in *. unfold shr.
  destruct (k - r) as [|p|p] eqn:E; [|..|lia].
  - assert (k = r) as -> by lia. unfold r. f_equal. lia.
  - assert (k = r + Zpos p) as -> by lia.
    rewrite Z.pow_add_r, Z.mul_assoc by lia. cbn [shr_record_of_loc].
    rewrite shr_exact by (assert (0 < 2 ^ r) by (apply Z.pow_pos_nonneg; lia); nia).
    f_equal. lia.
Qed.

Lemma round_aux_exact x k :
  0 < x < 2 ^ 53 → 52 - Z.log2 x <= k →
  binary_round_aux 53 1024 false (x * 2 ^ k) (- k) loc_Exact = exact_float x.
Proof.
  intros Hx Hk. unfold binary_round_aux. rewrite shr_fexp_exact by done.
  cbn [loc_of_shr_record shr_m round_nearest_even].
  replace (Z.log2 x - 52) with (- (52 - Z.log2 x)) by lia.
  rewrite shr_fexp_exact by (done || lia). cbn [shr_m].
  pose proof (Z.log2_nonneg x). assert (Z.log2 x < 53) by (apply Z.log2_lt_pow2; lia).
  unfold exact_float.
  assert (0 < x * 2 ^ (52 - Z.log2 x)) by (assert (0 < 2 ^ (52 - Z.log2 x)) by (apply Z.pow_pos_nonneg; lia); nia).
  destruct (x * 2 ^ (52 - Z.log2 x)) as [|p|p] eqn:E; [lia| |lia].
  rewrite (proj2 (Z.leb_le _ _)) by lia. done.
Qed.

Lemma iter_xO p n : Zpos (Pos.iter xO p n) = Zpos p * 2 ^ Zpos n.
Proof.
  induction n as [|n IH] using Pos.peano_ind; [simpl; lia|].
  rewrite Pos.iter_succ, Pos2Z.inj_xO, IH, Pos2Z.inj_succ, Z.pow_succ_r by lia. lia.
Qed.

Lemma int_float_exact x : 0 < x < 2 ^ 53 → int_float x = exact_float x.
Proof.
  intros Hx. unfold int_float, binary_normalize. destruct x as [|p|p]; try lia.
  unfold binary_round. rewrite digits2_log2, Z.add_0_r.
  pose proof (Z.log2_nonneg (Zpos p)). assert (Z.log2 (Zpos p) < 53) by (apply Z.log2_lt_pow2; lia).
  rewrite fexp_small by lia.
  assert (shl_align p 0 (Z.log2 (Zpos p) + 1 - 53) =
            (Z.to_pos (Zpos p * 2 ^ (52 - Z.log2 (Zpos p))), - (52 - Z.log2 (Zpos p)))) as ->.
  { unfold shl_align. rewrite Z.sub_0_r.
    destruct (Z.log2 (Z.pos p) + 1 - 53) as [|d|d] eqn:E; [|lia|].
    - replace (52 - Z.log2 (Z.pos p)) with 0 by lia. by rewrite Z.mul_1_r.
    - replace (52 - Z.log2 (Z.pos p)) with (Zpos d) by lia. rewrite <- iter_xO. done. }
  rewrite Z2Pos.id by (assert (0 < 2 ^ (52 - Z.log2 (Zpos p))) by (apply Z.pow_pos_nonneg; lia); nia).
  apply round_aux_exact; lia.
Qed.

Lemma exact_float_int x : 0 < x < 2 ^ 53 → float_int (exact_float x) = Ok x.
Proof.
  intros Hx. unfold exact_float, float_int.
  pose proof (Z.log2_nonneg x). assert (Z.log2 x < 53) by (apply Z.log2_lt_pow2; lia).
  assert (0 < 2 ^ (52 - Z.log2 x)) by (apply Z.pow_pos_nonneg; lia).
  rewrite Z2Pos.id by nia.
  destruct (0 <=? Z.log2 x - 52) eqn:E.
  - replace (Z.log2 x) with 52 by lia. simpl. f_equal. lia.
  - replace (- (Z.log2 x - 52)) with (52 - Z.log2 x) by lia. rewrite Z.div_mul by lia. done.
Qed.

(** Multiplying two exact integers with an exact product. *)
Lemma mul_exact x y : 0 < x → 0 < y → x * y < 2 ^ 53 →
  SFmul 53 1024 (exact_float x) (exact_float y) = exact_float (x * y).
Proof.
  intros Hx Hy Hxy. unfold exact_float at 1 2, SFmul. cbn [xorb].
  pose proof (Z.log2_nonneg x). pose proof (Z.log2_nonneg y).
  assert (Z.log2 x < 53) by (apply Z.log2_lt_pow2; nia).
  assert (Z.log2 y < 53) by (apply Z.log2_lt_pow2; nia).
  assert (0 < 2 ^ (52 - Z.log2 x)) by (apply Z.pow_pos_nonneg; lia).
  assert (0 < 2 ^ (52 - Z.log2 y)) by (apply Z.pow_pos_nonneg; lia).
  rewrite Pos2Z.inj_mul, !Z2Pos.id by nia.
  replace (x * 2 ^ (52 - Z.log2 x) * (y * 2 ^ (52 - Z.log2 y)))
    with (x * y * 2 ^ (52 - Z.log2 x + (52 - Z.log2 y))) by (rewrite Z.pow_add_r by lia; ring).
  replace (Z.log2 x - 52 + (Z.log2 y - 52)) with (- (52 - Z.log2 x + (52 - Z.log2 y))) by lia.
  apply round_aux_exact; [nia|]. pose proof (Z.log2_mul_below x y Hx Hy). lia.
Qed.

Lemma compare_exact x y : 0 < x < 2 ^ 53 → 0 < y < 2 ^ 53 →
  SFcompare (exact_float x) (exact_float y) = Some (x ?= y).
Proof.
  intros Hx Hy. unfold exact_float, SFcompare. f_equal.
  pose proof (Z.log2_nonneg x). pose proof (Z.log2_nonneg y).
  assert (Z.log2 x < 53) by (apply Z.log2_lt_pow2; lia).
  assert (Z.log2 y < 53) by (apply Z.log2_lt_pow2; lia).
  assert (0 < 2 ^ (52 - Z.log2 x)) by (apply Z.pow_pos_nonneg; lia).
  destruct (Z.log2 x - 52 ?= Z.log2 y - 52) eqn:E.
  - apply Z.compare_eq in E. assert (Z.log2 y = Z.log2 x) as Hl by lia. rewrite Hl.
    change (Z.compare (Zpos (Z.to_pos (x * 2 ^ (52 - Z.log2 x)))) (Zpos (Z.to_pos (y * 2 ^ (52 - Z.log2 x)))) = (x ?= y)).
    rewrite !Z2Pos.id by nia. by rewrite <- Zmult_compare_compat_r by lia.
  - symmetry. apply Z.compare_lt_iff, Z.log2_lt_cancel.
    pose proof (proj1 (Z.compare_lt_iff _ _) E). lia.
  - symmetry. apply Z.compare_gt_iff, Z.log2_lt_cancel.
    pose proof (proj1 (Z.compare_gt_iff _ _) E). lia.
Qed.

(** Integer timestamps convert exactly: below 10^11 they are seconds, from there on
    milliseconds. *)
Lemma to_ms_int z :
  0 < z < 2 ^ 53 →
  to_ms (Some (JInt z)) = Ok (Some (if z <? 100000000000 then z * 1000 else z)).
Proof.
  intros Hz.
  assert (py_float (JInt z) = Ok (exact_float z)) as Hf
    by (unfold py_float; by rewrite int_float_exact by lia).
  unfold to_ms. rewrite Hf.
  assert (SFleb (exact_float z) (S754_zero false) = false) as -> by done.
  assert (SFltb (exact_float z) SECONDS_LIMIT = (z <? 100000000000)) as ->.
  { unfold SFltb, SECONDS_LIMIT. rewrite int_float_exact, compare_exact by lia. done. }
  destruct (z <? 100000000000) eqn:E.
  - unfold THOUSAND. rewrite int_float_exact, mul_exact, exact_float_int by lia. done.
  - rewrite exact_float_int by lia. done.
Qed.
