(* ===== verification/Ledger.v ===== *)
(** * Ledger

    The participation ledger of [consciousness/log.py] ([SpeakupLog]): delivery
    reservations with their budget leases, evidenced delivery states, judge attempts,
    dispositions, source revisions and claims, activation epochs, owner approvals and the
    history of proposals. One SQLite database with one writer: a method under [_write] is
    an atomic transaction. Times of the proposal history are floats (seconds), all others
    integers (milliseconds); SQLite's [strftime('now')] and [time.time()] are arguments. *)

From Stdlib Require Import ZArith Lia Ascii SpecFloat.
From S2P Require Import Prelude Tables Json Identity PyFloat.

(** ** Tables *)

Inductive DeliveryState :=
| reserved | submitted | transport_accepted | delivered | delivery_unknown
| released_failed | released_cancelled | released_expired.

#[export] Instance DeliveryState_eq_dec : EqDecision DeliveryState.
Proof. solve_decision. Defined.

Definition delivery_eqb (a b : DeliveryState) : bool := bool_decide (a = b).
Definition delivery_in (a : DeliveryState) (l : list DeliveryState) : bool := existsb (delivery_eqb a) l.

Definition delivery_str (s : DeliveryState) : string :=
  match s with
  | reserved => "reserved" | submitted => "submitted" | transport_accepted => "transport_accepted"
  | delivered => "delivered" | delivery_unknown => "delivery_unknown" | released_failed => "failed"
  | released_cancelled => "cancelled" | released_expired => "expired"
  end.

Definition CONSUMED_DELIVERY_STATES : list DeliveryState := [transport_accepted; delivered; delivery_unknown].
Definition RELEASED_DELIVERY_STATES : list DeliveryState := [released_failed; released_cancelled; released_expired].

Definition DELIVERY_RESERVATION_TTL_MS : Z := 10 * 60000.
Definition RESERVATION_CATEGORIES : list string := ["initiation"; "comment"; "reaction"; "meme"; "sticker"].
Definition TRANSPORT_EVIDENCE_KINDS : list string := ["transport_receipt"; "probe_confirmed"; "effect_sent"].
Definition RECIPIENT_EVIDENCE_KINDS : list string :=
  ["recipient_delivery"; "recipient_read"; "quote_proof"; "reaction_proof"].
Definition GROUP_SCOPED_EVIDENCE_KINDS : list string := ["group_delivery_at_least_one"].

Definition JUDGE_DETAIL_CODES : list string :=
  ["not_json_object"; "context_budget_exceeded"; "unknown_action"; "action_not_allowed"; "intent_not_allowed";
   "direct_not_admitted"; "continuation_not_allowed"; "evidence_not_list"; "too_many_evidence"; "evidence_not_str";
   "unknown_evidence_id"; "anchor_not_supplied"; "target_not_supplied"; "target_not_current";
   "continuation_without_anchor"; "continuation_without_delivered_anchor"; "continuation_not_candidate";
   "continuation_anchor_closed"; "contribution_type_not_allowed"; "purpose_required"; "unknown_emoji"].

Record speakup_row := MkSpeakup {
  su_id : string;
  su_created_at : pyfloat;
  su_committed_at : option pyfloat;
  su_channel : string;
  su_chat_id : string;
  su_action_type : string;
  su_profile : string;
  su_message : string;
  su_status : string;
  su_trigger : string;
  su_context : dict;
  su_outcome : option string;
  su_outcome_classified_at : option pyfloat;
}.
#[export] Instance eta_speakup : Updatable speakup_row :=
  λ r, MkSpeakup (su_id r) (su_created_at r) (su_committed_at r) (su_channel r) (su_chat_id r) (su_action_type r)
         (su_profile r) (su_message r) (su_status r) (su_trigger r) (su_context r) (su_outcome r)
         (su_outcome_classified_at r).

Record reservation_row := MkReservation {
  dr_proposal_id : string;
  dr_effect_id : string;
  dr_channel : string;
  dr_chat_id : string;
  dr_category : string;
  dr_limit : Z;
  dr_window_ms : Z;
  dr_window_kind : string;
  dr_created_ms : Z;
  dr_submitted_ms : option Z;
  dr_accepted_ms : option Z;
  dr_delivered_ms : option Z;
  dr_released_ms : option Z;
  dr_state : DeliveryState;
  dr_provider_message_id : option string;
  dr_evidence_kind : option string;
  dr_evidence_ref : option string;
  dr_attempt_state : string;
  dr_observed_revision : option Z;
  dr_activation_epoch : option Z;
  dr_lane : string;
  dr_origin : string;
  dr_proposal_revision : Z;
  dr_outcome : option string;
  dr_outcome_kind : option string;
  dr_outcome_evidence : option (list string);
  dr_outcome_ms : option Z;
}.
#[export] Instance eta_reservation : Updatable reservation_row :=
  λ r, MkReservation (dr_proposal_id r) (dr_effect_id r) (dr_channel r) (dr_chat_id r) (dr_category r) (dr_limit r)
         (dr_window_ms r) (dr_window_kind r) (dr_created_ms r) (dr_submitted_ms r) (dr_accepted_ms r)
         (dr_delivered_ms r) (dr_released_ms r) (dr_state r) (dr_provider_message_id r) (dr_evidence_kind r)
         (dr_evidence_ref r) (dr_attempt_state r) (dr_observed_revision r) (dr_activation_epoch r) (dr_lane r)
         (dr_origin r) (dr_proposal_revision r) (dr_outcome r) (dr_outcome_kind r) (dr_outcome_evidence r)
         (dr_outcome_ms r).

Record judge_row := MkJudge {
  ja_attempt_id : string;
  ja_opportunity_id : string;
  ja_evaluation_index : Z;
  ja_channel : string;
  ja_chat_id : string;
  ja_created_ms : Z;
  ja_hourly_limit : Z;
  ja_continuation_candidate : bool;
  ja_continuation_reserve : Z;
  ja_outcome : option string;
  ja_detail_code : option string;
}.
#[export] Instance eta_judge : Updatable judge_row :=
  λ r, MkJudge (ja_attempt_id r) (ja_opportunity_id r) (ja_evaluation_index r) (ja_channel r) (ja_chat_id r)
         (ja_created_ms r) (ja_hourly_limit r) (ja_continuation_candidate r) (ja_continuation_reserve r) (ja_outcome r)
         (ja_detail_code r).

Record disposition_row := MkDisposition {
  od_opportunity_id : string;
  od_channel : string;
  od_chat_id : string;
  od_observed_revision : Z;
  od_activation_epoch : Z;
  od_lane : string;
  od_trigger : string;
  od_source_ids : list string;
  od_disposition : string;
  od_reason : option string;
  od_created_ms : Z;
  od_updated_ms : Z;
}.
#[export] Instance eta_disposition : Updatable disposition_row :=
  λ r, MkDisposition (od_opportunity_id r) (od_channel r) (od_chat_id r) (od_observed_revision r)
         (od_activation_epoch r) (od_lane r) (od_trigger r) (od_source_ids r) (od_disposition r) (od_reason r)
         (od_created_ms r) (od_updated_ms r).

Record closure_row := MkClosure { cl_channel : string; cl_chat_id : string; cl_anchor : string; cl_closed_ms : Z }.

Record approval_row := MkApproval {
  ap_proposal_id : string;
  ap_state : string;
  ap_owner_channel : string;
  ap_owner_chat_id : string;
  ap_owner_id : string;
  ap_payload_hash : string;
  ap_proposal_revision : Z;
  ap_target_effect_id : string;
  ap_claimed_ms : option Z;
  ap_resolved_ms : option Z;
  ap_resolution : option string;
  ap_created_ms : Z;
  ap_updated_ms : Z;
}.
#[export] Instance eta_approval : Updatable approval_row :=
  λ r, MkApproval (ap_proposal_id r) (ap_state r) (ap_owner_channel r) (ap_owner_chat_id r) (ap_owner_id r)
         (ap_payload_hash r) (ap_proposal_revision r) (ap_target_effect_id r) (ap_claimed_ms r) (ap_resolved_ms r)
         (ap_resolution r) (ap_created_ms r) (ap_updated_ms r).

Record chat_revision_row := MkChatRevision {
  cr_channel : string;
  cr_chat_id : string;
  cr_revision : Z;
  cr_considered : Z;
  cr_shadow_considered : Z;
  cr_updated_ms : Z;
}.
#[export] Instance eta_chat_revision : Updatable chat_revision_row :=
  λ r, MkChatRevision (cr_channel r) (cr_chat_id r) (cr_revision r) (cr_considered r) (cr_shadow_considered r)
         (cr_updated_ms r).

Record claim_row := MkClaim {
  sc_channel : string;
  sc_chat_id : string;
  sc_claim_key : string;
  sc_owner : string;
  sc_lane : string;
  sc_activation_epoch : Z;
  sc_claimed_ms : Z;
}.

Record source_revision_row := MkSourceRevision {
  sr_channel : string;
  sr_chat_id : string;
  sr_source_event_id : string;
  sr_revision : Z;
  sr_created_ms : Z;
}.

Record activation_row := MkActivation {
  ac_scope : string;
  ac_epoch : Z;
  ac_updated_ms : Z;
  ac_fingerprint : string;
}.
#[export] Instance eta_activation : Updatable activation_row :=
  λ r, MkActivation (ac_scope r) (ac_epoch r) (ac_updated_ms r) (ac_fingerprint r).

Record ledger := MkLedgerDb {
  lg_speakups : list speakup_row;
  lg_reservations : list reservation_row;
  lg_judges : list judge_row;
  lg_dispositions : list disposition_row;
  lg_closures : list closure_row;
  lg_approvals : list approval_row;
  lg_chats : list chat_revision_row;
  lg_claims : list claim_row;
  lg_sources : list source_revision_row;
  lg_activation : list activation_row;
}.
#[export] Instance eta_ledger : Updatable ledger :=
  λ r, MkLedgerDb (lg_speakups r) (lg_reservations r) (lg_judges r) (lg_dispositions r) (lg_closures r)
         (lg_approvals r) (lg_chats r) (lg_claims r) (lg_sources r) (lg_activation r).

(** A fresh database: the participation scope starts at epoch 1 without a fingerprint. *)
Definition empty_ledger (now_ms : Z) : ledger :=
  MkLedgerDb [] [] [] [] [] [] [] [] [] [MkActivation "participation" 1 now_ms ""].

(** [_write]: BEGIN IMMEDIATE ... COMMIT, ROLLBACK when the body raises *)
Definition commit {A} (body : txn ledger A) : prog ledger A :=
  λ s, match body s with Ok (a, s') => (Ok a, s') | Raise e => (Raise e, s) end.

Definition in_chat {R} (channel_of chat_of : R → string) (channel chat_id : string) (r : R) : bool :=
  (channel_of r =?s channel) && (chat_of r =?s chat_id).

Definition DAY : Z := 86400000.

(** ** Effect identity *)

(** [deterministic_effect_id]: the parts joined by the unit separator *)
Definition deterministic_effect_id `{Sha256} (channel chat_id operation proposal_id : string) (revision : Z) : string :=
  "spk-" +:+ String.substring 0 32
    (sha256_hex (join (char 31) ["speakup"; channel; chat_id; operation; proposal_id; pretty revision])).

(** ** Capacity *)

Definition of_effect (effect_id : string) (r : reservation_row) : bool := dr_effect_id r =?s effect_id.

(** A confirmed send inside the accounting window. *)
Definition accepted_within (since : Z) (before : option Z) (r : reservation_row) : bool :=
  delivery_in (dr_state r) [transport_accepted; delivered]
  && match dr_accepted_ms r with
     | Some t => (since <=? t) && match before with Some b => t <? b | None => true end
     | None => false
     end.

(** A lease that has not run out. *)
Definition holds_lease (now_ms : Z) (r : reservation_row) : bool :=
  delivery_in (dr_state r) [reserved; submitted; delivery_unknown]
  && (now_ms - DELIVERY_RESERVATION_TTL_MS <? dr_created_ms r).

(** What occupies one slot of a dimension. *)
Definition occupies (channel chat_id category exclude : string) (now_ms : Z) (since before : option Z)
    (r : reservation_row) : bool :=
  in_chat dr_channel dr_chat_id channel chat_id r && (dr_category r =?s category)
  && negb (dr_proposal_id r =?s exclude)
  && match since with
     | Some t => accepted_within t before r || holds_lease now_ms r
     | None => true
     end.

(** [_held_or_accepted_count] *)
Definition held_or_accepted_count (channel chat_id category exclude : string) (now_ms : Z) (since before : option Z)
    (s : ledger) : Z :=
  Z.of_nat (rowcount (occupies channel chat_id category exclude now_ms since before) (lg_reservations s)).

(** [_rolling_capacity] *)
Definition rolling_capacity (channel chat_id category : string) (limit now_ms window_ms : Z) (exclude : string)
    (s : ledger) : bool :=
  held_or_accepted_count channel chat_id category exclude now_ms (Some (now_ms - Z.max 1 window_ms + 1)) None s
    <? limit.

(** The UTC day of a moment. *)
Definition day_start (now_ms : Z) : Z := now_ms - now_ms mod DAY.

(** [_calendar_day_capacity] *)
Definition calendar_day_capacity (channel chat_id category : string) (limit now_ms : Z) (exclude : string)
    (s : ledger) : bool :=
  held_or_accepted_count channel chat_id category exclude now_ms (Some (day_start now_ms))
    (Some (day_start now_ms + DAY)) s <? limit.

(** One dimension of a reservation: category, limit, window and its kind. *)
Record limit_entry := MkLimit { le_category : string; le_limit : Z; le_window_ms : Z; le_kind : string }.

(** The checks on the dimensions; [None]: one of them allows nothing. *)
Fixpoint checked_limits (l : list limit_entry) : result (option (list limit_entry)) :=
  match l with
  | [] => Ok (Some [])
  | e :: l' =>
      if negb (str_in (le_category e) RESERVATION_CATEGORIES)
      then Raise (ValueError "unknown reservation category")
      else if le_limit e <=? 0 then Ok None
      else let! rest := checked_limits l' in Ok (cons e <$> rest)
  end.

Record reserve_args := MkReserve {
  rv_proposal_id : string;
  rv_effect_id : string;
  rv_channel : string;
  rv_chat_id : string;
  rv_limits : list limit_entry;
  rv_proposal_revision : Z;
  rv_observed_revision : option Z;
  rv_activation_epoch : option Z;
  rv_lane : string;
  rv_origin : string;
}.

Definition or_default (s fallback : string) : string := py_strip (if str_true s then s else fallback).

Definition entry_allowed (a : reserve_args) (proposal : string) (now_ms : Z) (s : ledger) (e : limit_entry) : bool :=
  if le_kind e =?s "calendar_day"
  then calendar_day_capacity (rv_channel a) (rv_chat_id a) (le_category e) (le_limit e) now_ms proposal s
  else rolling_capacity (rv_channel a) (rv_chat_id a) (le_category e) (le_limit e) now_ms (le_window_ms e) proposal s.

Definition new_reservation (a : reserve_args) (proposal effect lane origin : string) (now_ms : Z) (e : limit_entry)
    : reservation_row :=
  {| dr_proposal_id := proposal; dr_effect_id := effect; dr_channel := rv_channel a; dr_chat_id := rv_chat_id a;
     dr_category := le_category e; dr_limit := le_limit e; dr_window_ms := le_window_ms e; dr_window_kind := le_kind e;
     dr_created_ms := now_ms; dr_submitted_ms := None; dr_accepted_ms := None; dr_delivered_ms := None;
     dr_released_ms := None; dr_state := reserved; dr_provider_message_id := None; dr_evidence_kind := None;
     dr_evidence_ref := None; dr_attempt_state := "unsubmitted"; dr_observed_revision := rv_observed_revision a;
     dr_activation_epoch := rv_activation_epoch a; dr_lane := lane; dr_origin := origin;
     dr_proposal_revision := rv_proposal_revision a; dr_outcome := None; dr_outcome_kind := None;
     dr_outcome_evidence := None; dr_outcome_ms := None |}.

(** [ON CONFLICT(effect_id, category) DO NOTHING] *)
Definition same_dimension (r q : reservation_row) : bool :=
  (dr_effect_id q =?s dr_effect_id r) && (dr_category q =?s dr_category r).

Definition add_reservation (s : ledger) (r : reservation_row) : ledger :=
  s <| lg_reservations ::= insert_or_ignore (same_dimension r) r |>.

(** Whether an existing reservation is the same one and still held. *)
Definition still_held (a : reserve_args) (proposal effect lane origin : string) (now_ms : Z) (r : reservation_row) : bool :=
  (now_ms <? dr_created_ms r + DELIVERY_RESERVATION_TTL_MS)
  && (dr_effect_id r =?s effect) && (dr_proposal_id r =?s proposal) && (dr_channel r =?s rv_channel a)
  && (dr_chat_id r =?s rv_chat_id a) && (dr_lane r =?s lane) && (dr_origin r =?s origin)
  && negb (delivery_in (dr_state r) RELEASED_DELIVERY_STATES).

(** [reserve_delivery_sync] *)
Definition reserve_delivery (a : reserve_args) (now_ms : Z) : prog ledger bool :=
  let proposal := py_strip (rv_proposal_id a) in
  let effect := py_strip (rv_effect_id a) in
  if negb (str_true proposal) || negb (str_true effect)
  then praise (ValueError "proposal_id and effect_id are required")
  else match rv_limits a with
  | [] => pret false
  | _ =>
  let origin := or_default (rv_origin a) "legacy" in
  if negb (str_in origin ["legacy"; "participation"]) then praise (ValueError "unknown delivery origin") else
  let lane := or_default (rv_lane a) "production" in
  if negb (str_in lane ["production"; "shadow"]) then praise (ValueError "unknown participation lane") else
  let* checked := pread (λ _, checked_limits (rv_limits a)) in
  match checked with
  | None => pret false
  | Some entries =>
      commit (λ s,
        match fetchone (λ r, of_effect effect r
                             || ((dr_proposal_id r =?s proposal) && in_chat dr_channel dr_chat_id (rv_channel a) (rv_chat_id a) r
                                 && (dr_lane r =?s lane))) (lg_reservations s) with
        | Some r => Ok (still_held a proposal effect lane origin now_ms r, s)
        | None =>
            if forallb (entry_allowed a proposal now_ms s) entries
            then Ok (true, foldl add_reservation s (map (new_reservation a proposal effect lane origin now_ms) entries))
            else Ok (false, s)
        end)
  end
  end.

(** ** Judge attempts *)

(** [attempt.rsplit(":", 1)]: what follows the last colon, if there is one *)
Fixpoint after_last_colon (s : string) : option string :=
  match s with
  | EmptyString => None
  | String c s' =>
      match after_last_colon s' with
      | Some t => Some t
      | None => if (nat_of_ascii c =? 58)%nat then Some s' else None
      end
  end.

Definition evaluation_index (attempt : string) : Z :=
  match after_last_colon attempt with
  | Some t => if py_isdigit t then default 0 (py_int t) else 0
  | None => 0
  end.

Definition judge_in_chat (channel chat_id : string) (r : judge_row) : bool := in_chat ja_channel ja_chat_id channel chat_id r.

Definition HOUR : Z := 3600000.

(** The attempts of a chat in the hour before a moment. *)
Definition judge_count (channel chat_id : string) (now_ms : Z) (s : ledger) : Z :=
  Z.of_nat (rowcount (λ r, judge_in_chat channel chat_id r && (now_ms - HOUR <? ja_created_ms r)) (lg_judges s)).

(** The newest attempt of a chat. *)
Definition last_judge_ms (channel chat_id : string) (s : ledger) : option Z :=
  ja_created_ms <$> head (order_by (λ a b, ja_created_ms b <=? ja_created_ms a)
                            (select (judge_in_chat channel chat_id) (lg_judges s))).

Record judge_args := MkJudgeArgs {
  jg_opportunity_id : string;
  jg_channel : string;
  jg_chat_id : string;
  jg_hourly_limit : Z;
  jg_min_gap_ms : Z;
  jg_continuation_candidate : bool;
  jg_continuation_reserve : Z;
}.

Definition judge_reserve (a : judge_args) : Z := Z.max 0 (Z.min (jg_continuation_reserve a) (jg_hourly_limit a)).

(** The gap to the last attempt is too small for a new chain. *)
Definition gap_too_small (a : judge_args) (now_ms : Z) (s : ledger) : bool :=
  (0 <? jg_min_gap_ms a)
  && negb (row_exists (λ r, ja_opportunity_id r =?s jg_opportunity_id a) (lg_judges s))
  && match last_judge_ms (jg_channel a) (jg_chat_id a) s with
     | Some t => now_ms - t <? jg_min_gap_ms a
     | None => false
     end.

(** [reserve_judge_attempt] *)
Definition reserve_judge_attempt (attempt_id : string) (a : judge_args) (now_ms : Z) : prog ledger bool :=
  let attempt := py_strip attempt_id in
  if negb (str_true attempt) then praise (ValueError "attempt_id is required") else
  let limit := jg_hourly_limit a in
  let reserve := judge_reserve a in
  commit (λ s,
    if row_exists (λ r, ja_attempt_id r =?s attempt) (lg_judges s) then Ok (false, s)
    else if limit <=? 0 then Ok (false, s)
    else
    let total := judge_count (jg_channel a) (jg_chat_id a) now_ms s in
    if limit <=? total then Ok (false, s)
    else if negb (jg_continuation_candidate a) && (Z.max 0 (limit - reserve) <=? total) then Ok (false, s)
    else if gap_too_small a now_ms s then Ok (false, s)
    else Ok (true, s <| lg_judges ::= insert_row
               (MkJudge attempt (jg_opportunity_id a) (evaluation_index attempt) (jg_channel a) (jg_chat_id a) now_ms
                  limit (jg_continuation_candidate a) reserve None None) |>)).

(** [record_judge_outcome] *)
Definition record_judge_outcome (attempt_id outcome : string) (detail_code : option string) : prog ledger unit :=
  let detail := py_strip (default "" detail_code) in
  commit (λ s, Ok (tt, s <| lg_judges ::= update (λ r, ja_attempt_id r =?s attempt_id) (λ r,
    r <| ja_outcome := Some outcome |>
      <| ja_detail_code := if str_in detail JUDGE_DETAIL_CODES then Some detail else None |>) |>)).

(** [judge_attempts_since] *)
Definition judge_attempts_since (channel chat_id : string) (since_ms : Z) (s : ledger) : list judge_row :=
  order_by (λ a b, ja_created_ms a <=? ja_created_ms b)
    (select (λ r, judge_in_chat channel chat_id r && (since_ms <=? ja_created_ms r)) (lg_judges s)).

(** ** Source revisions and watermarks *)

(** [_source_id] *)
Definition source_id (value : string) : option string :=
  let t := py_strip value in
  if negb (str_true t) || String.prefix "observed:" t then None else Some t.

(** [tuple(dict.fromkeys(...))] over the ids that count *)
Definition normalized_sources (ids : list string) : list string :=
  first_seen [] (omap source_id ids).

Inductive lane := production | shadow.

(** [_considered_column] *)
Definition considered_lane (l : string) : result lane :=
  if l =?s "shadow" then Ok shadow
  else if l =?s "production" then Ok production
  else Raise (ValueError "unknown participation lane").

Definition chat_is (channel chat_id : string) (r : chat_revision_row) : bool := in_chat cr_channel cr_chat_id channel chat_id r.

Definition considered (l : lane) (r : chat_revision_row) : Z :=
  match l with shadow => cr_shadow_considered r | production => cr_considered r end.

(** [_ensure_chat_revision_row] *)
Definition ensure_chat_row (channel chat_id : string) (now_ms : Z) (s : ledger) : ledger :=
  s <| lg_chats ::= insert_or_ignore (chat_is channel chat_id) (MkChatRevision channel chat_id 0 0 0 now_ms) |>.

Definition update_chat (channel chat_id : string) (f : chat_revision_row → chat_revision_row) (s : ledger) : ledger :=
  s <| lg_chats ::= update (chat_is channel chat_id) f |>.

Definition chat_row (channel chat_id : string) (s : ledger) : option chat_revision_row :=
  fetchone (chat_is channel chat_id) (lg_chats s).

(** [_set_revision_at_least] *)
Definition set_revision_at_least (channel chat_id : string) (revision now_ms : Z) (s : ledger) : ledger :=
  update_chat channel chat_id
    (λ r, r <| cr_revision ::= Z.max (Z.max 0 revision) |> <| cr_updated_ms := now_ms |>)
    (ensure_chat_row channel chat_id now_ms s).

(** [_allocate_source_revision] *)
Definition allocate_source_revision (channel chat_id : string) (minimum now_ms : Z) (s : ledger) : Z * ledger :=
  let s1 := ensure_chat_row channel chat_id now_ms s in
  let current := match chat_row channel chat_id s1 with Some r => cr_revision r | None => 0 end in
  let revision := Z.max (current + 1) minimum in
  (revision, update_chat channel chat_id (λ r, r <| cr_revision := revision |> <| cr_updated_ms := now_ms |>) s1).

(** [_mark_considered_in_connection] *)
Definition mark_considered (channel chat_id : string) (revision : Z) (l : string) (now_ms : Z) : txn ledger unit := λ s,
  if revision <=? 0 then Ok (tt, s)
  else let! column := considered_lane l in
       Ok (tt, update_chat channel chat_id (λ r,
                 match column with
                 | shadow => r <| cr_shadow_considered ::= Z.max revision |>
                 | production => r <| cr_considered ::= Z.max revision |>
                 end <| cr_updated_ms := now_ms |>) (ensure_chat_row channel chat_id now_ms s)).

(** [next_chat_revision_sync] *)
Definition next_chat_revision (channel chat_id : string) (s : ledger) : Z :=
  let claims := Z.of_nat (rowcount (λ r, in_chat sc_channel sc_chat_id channel chat_id r && (sc_lane r =?s "production"))
                            (lg_claims s)) in
  let considered := foldr Z.max 0 (map od_observed_revision
                      (select (in_chat od_channel od_chat_id channel chat_id) (lg_dispositions s))) in
  Z.max claims considered + 1.

(** [next_source_revision_sync] *)
Definition next_source_revision (channel chat_id : string) (now_ms : Z) : prog ledger Z :=
  commit (λ s,
    let s' := if row_exists (chat_is channel chat_id) (lg_chats s)
              then update_chat channel chat_id (λ r, r <| cr_revision ::= Z.add 1 |> <| cr_updated_ms := now_ms |>) s
              else s <| lg_chats ::= insert_row (MkChatRevision channel chat_id 1 0 0 now_ms) |> in
    Ok (match chat_row channel chat_id s' with Some r => cr_revision r | None => 1 end, s')).

Definition of_source_event (channel chat_id source : string) (r : source_revision_row) : bool :=
  in_chat sr_channel sr_chat_id channel chat_id r && (sr_source_event_id r =?s source).

(** A new revision for a source that has none. *)
Definition register_new (channel chat_id : string) (now_ms : Z) (source : string) (s : ledger) : Z * ledger :=
  let (revision, s1) := allocate_source_revision channel chat_id 0 now_ms s in
  (revision, s1 <| lg_sources ::= insert_row (MkSourceRevision channel chat_id source revision now_ms) |>).

(** One source of [ensure_source_revisions_sync]. *)
Definition register_source (channel chat_id : string) (now_ms : Z) (acc : list (string * Z) * ledger) (source : string)
    : list (string * Z) * ledger :=
  let (out, s) := acc in
  match fetchone (of_source_event channel chat_id source) (lg_sources s) with
  | Some r => (out ++ [(source, sr_revision r)], s)
  | None => let (revision, s') := register_new channel chat_id now_ms source s in
            (out ++ [(source, revision)], s')
  end.

(** [ensure_source_revisions_sync] *)
Definition ensure_source_revisions (channel chat_id : string) (ids : list string) (now_ms : Z)
    : prog ledger (list (string * Z)) :=
  match normalized_sources ids with
  | [] => pret []
  | sources =>
      if negb (str_true channel) || negb (str_true chat_id) then pret []
      else commit (λ s, Ok (foldl (register_source channel chat_id now_ms) ([], ensure_chat_row channel chat_id now_ms s) sources))
  end.

Definition by_revision (a b : source_revision_row) : bool :=
  (sr_revision a <? sr_revision b)
  || ((sr_revision a =? sr_revision b) && String.leb (sr_source_event_id a) (sr_source_event_id b)).

Definition considered_mark (channel chat_id : string) (l : lane) (s : ledger) : Z :=
  match chat_row channel chat_id s with Some r => considered l r | None => 0 end.

(** [material_for_opportunity]; no ids: everything newer than the watermark *)
Definition material_for_opportunity (channel chat_id : string) (ids : option (list string)) (l : string) (s : ledger)
    : result (list string * Z) :=
  let! column := considered_lane l in
  if negb (str_true channel) || negb (str_true chat_id) then Ok ([], 0) else
  let mark := considered_mark channel chat_id column s in
  let rows := order_by by_revision
                (select (λ r, in_chat sr_channel sr_chat_id channel chat_id r && (mark <? sr_revision r)
                              && match ids with
                                 | None => true
                                 | Some l => str_in (sr_source_event_id r) (normalized_sources l)
                                 end) (lg_sources s)) in
  Ok (map sr_source_event_id rows, match rows with [] => mark | _ => foldr Z.max 0 (map sr_revision rows) end).

(** [mark_material_considered_sync] *)
Definition mark_material_considered (channel chat_id : string) (revision : Z) (l : string) (now_ms : Z) : prog ledger unit :=
  commit (mark_considered channel chat_id revision l now_ms).

(** [highest_considered_revision_sync] *)
Definition highest_considered_revision (channel chat_id l : string) (s : ledger) : result Z :=
  let! column := considered_lane l in Ok (considered_mark channel chat_id column s).

(** The chat is known to the ledger in any way. *)
Definition chat_known (channel chat_id : string) (s : ledger) : bool :=
  row_exists (chat_is channel chat_id) (lg_chats s)
  || row_exists (in_chat sr_channel sr_chat_id channel chat_id) (lg_sources s)
  || row_exists (in_chat sc_channel sc_chat_id channel chat_id) (lg_claims s)
  || row_exists (in_chat od_channel od_chat_id channel chat_id) (lg_dispositions s).

Definition baseline_source (channel chat_id : string) (now_ms : Z) (acc : Z * ledger) (source : string) : Z * ledger :=
  let (revision, s') := register_new channel chat_id now_ms source acc.2 in (Z.max acc.1 revision, s').

(** [initialize_material_baseline_sync] *)
Definition initialize_material_baseline (channel chat_id : string) (ids : list string) (l : string) (now_ms : Z)
    : prog ledger Z :=
  let* column := pread (λ _, considered_lane l) in
  if negb (str_true channel) || negb (str_true chat_id) then pret 0 else
  commit (λ s,
    if chat_known channel chat_id s then Ok (considered_mark channel chat_id column s, s)
    else
    let (highest, s1) := foldl (baseline_source channel chat_id now_ms) (0, ensure_chat_row channel chat_id now_ms s)
                           (normalized_sources ids) in
    let! (_, s2) := mark_considered channel chat_id highest "production" now_ms s1 in
    let! (_, s3) := mark_considered channel chat_id highest "shadow" now_ms s2 in
    Ok (highest, s3)).

(** ** Backfill at startup *)

Definition migrated_lane (l : string) : string := if str_in l ["production"; "shadow"] then l else "production".

(** One source of a recorded disposition; it takes the disposition's revision if there is one. *)
Definition migrate_source (channel chat_id : string) (observed now_ms : Z) (acc : Z * ledger) (source : string)
    : Z * ledger :=
  let (highest, s) := acc in
  match fetchone (of_source_event channel chat_id source) (lg_sources s) with
  | Some r => (Z.max highest (sr_revision r), s)
  | None =>
      let (revision, s1) := if 0 <? observed then (observed, s)
                            else allocate_source_revision channel chat_id 0 now_ms s in
      (Z.max highest revision,
       (set_revision_at_least channel chat_id revision now_ms s1)
         <| lg_sources ::= insert_or_ignore (of_source_event channel chat_id source)
                             (MkSourceRevision channel chat_id source revision now_ms) |>)
  end.

Definition migrate_disposition (now_ms : Z) (r : disposition_row) : txn ledger unit := λ s,
  let observed := Z.max 0 (od_observed_revision r) in
  let (highest, s1) := foldl (migrate_source (od_channel r) (od_chat_id r) observed now_ms) (observed, s)
                         (normalized_sources (od_source_ids r)) in
  mark_considered (od_channel r) (od_chat_id r) highest (migrated_lane (od_lane r)) now_ms s1.

Definition SHADOW_PREFIX : string := "shadow:".

(** The lane and the source of a claim; a claim under a shadow name is a shadow claim. *)
Definition claimed_source (r : claim_row) : string * option string :=
  let key := py_strip (sc_claim_key r) in
  if String.prefix SHADOW_PREFIX key
  then ("shadow", source_id (String.substring 7 (String.length key - 7) key))
  else (if str_true (sc_lane r) then sc_lane r else "production", source_id key).

Definition migrate_claim (now_ms : Z) (r : claim_row) : txn ledger unit := λ s,
  match claimed_source r with
  | (l, Some source) =>
      if negb (str_in l ["production"; "shadow"]) then Ok (tt, s) else
      let (revision, s1) :=
        match fetchone (of_source_event (sc_channel r) (sc_chat_id r) source) (lg_sources s) with
        | Some q => (sr_revision q, s)
        | None => register_new (sc_channel r) (sc_chat_id r) now_ms source s
        end in
      mark_considered (sc_channel r) (sc_chat_id r) revision l now_ms s1
  | (_, None) => Ok (tt, s)
  end.

Fixpoint each_row {R} (f : R → txn ledger unit) (l : list R) : txn ledger unit := λ s,
  match l with
  | [] => Ok (tt, s)
  | r :: l' => let! (_, s') := f r s in each_row f l' s'
  end.

(** [_migrate_source_revisions], at every start of the process *)
Definition migrate_source_revisions (now_ms : Z) : prog ledger unit :=
  commit (λ s,
    let! (_, s1) := each_row (migrate_disposition now_ms)
                      (order_by (λ a b, time_id_leb (od_created_ms a, od_opportunity_id a) (od_created_ms b, od_opportunity_id b))
                         (lg_dispositions s)) s in
    each_row (migrate_claim now_ms)
      (order_by (λ a b, time_id_leb (sc_claimed_ms a, sc_claim_key a) (sc_claimed_ms b, sc_claim_key b)) (lg_claims s1)) s1).

(** [json.dumps(list(source_ids))] *)
Definition source_ids_text (ids : list string) : string := "[" +:+ join ", " (map json_quote ids) +:+ "]".

(** [trend_posts_since]: [LIKE] ignores the case of ASCII letters *)
Definition trend_posts_since (channel chat_id : string) (since_ms : Z) (s : ledger) : nat :=
  rowcount (λ r, in_chat od_channel od_chat_id channel chat_id r && (od_disposition r =?s "comment_sent")
                 && (since_ms <=? od_created_ms r)
                 && py_contains (quote_mark +:+ "trend:") (py_lower (source_ids_text (od_source_ids r))))
    (lg_dispositions s).

(** ** Anchors and claims *)

Definition of_anchor (channel chat_id anchor : string) (r : closure_row) : bool :=
  in_chat cl_channel cl_chat_id channel chat_id r && (cl_anchor r =?s anchor).

(** [close_social_anchor_sync] *)
Definition close_social_anchor (channel chat_id anchor : string) (now_ms : Z) : prog ledger bool :=
  let c := py_strip channel in let h := py_strip chat_id in let a := py_strip anchor in
  if str_true c && str_true h && str_true a
  then commit (λ s, Ok (negb (row_exists (of_anchor c h a) (lg_closures s)),
                        s <| lg_closures ::= insert_or_ignore (of_anchor c h a) (MkClosure c h a now_ms) |>))
  else pret false.

(** [social_anchor_closed_sync] *)
Definition social_anchor_closed (channel chat_id anchor : string) (s : ledger) : bool :=
  let c := py_strip channel in let h := py_strip chat_id in let a := py_strip anchor in
  str_true c && str_true h && str_true a && row_exists (of_anchor c h a) (lg_closures s).

(** Shadow claims live under their own names. *)
Definition claim_key (source_event_id l : string) : string :=
  if l =?s "shadow" then "shadow:" +:+ source_event_id else source_event_id.

Definition of_claim (channel chat_id key : string) (r : claim_row) : bool :=
  in_chat sc_channel sc_chat_id channel chat_id r && (sc_claim_key r =?s key).

(** [claim_source_sync] *)
Definition claim_source (channel chat_id source_event_id : string) (epoch : Z) (l owner : string) (now_ms : Z)
    : prog ledger (bool * string) :=
  let key := claim_key source_event_id l in
  commit (λ s,
    match fetchone (of_claim channel chat_id key) (lg_claims s) with
    | Some r => Ok ((false, sc_owner r), s)
    | None => Ok ((true, owner), s <| lg_claims ::= insert_row (MkClaim channel chat_id key owner l epoch now_ms) |>)
    end).

(** [release_source_claim_sync] *)
Definition release_source_claim (channel chat_id source_event_id l owner : string) : prog ledger bool :=
  let key := claim_key source_event_id l in
  commit (λ s,
    let p := λ r, of_claim channel chat_id key r && (sc_owner r =?s owner) in
    Ok (row_exists p (lg_claims s), s <| lg_claims ::= delete_rows p |>)).

(** [release_source_claims] *)
Definition release_source_claims (channel chat_id : string) (owner : option string) : prog ledger nat :=
  commit (λ s,
    let p := λ r, in_chat sc_channel sc_chat_id channel chat_id r
                  && match owner with Some o => sc_owner r =?s o | None => true end in
    Ok (rowcount p (lg_claims s), s <| lg_claims ::= delete_rows p |>)).

(** [source_claims] *)
Definition source_claims (channel chat_id : string) (limit : Z) (s : ledger) : list claim_row :=
  take (Z.to_nat (Z.max 1 limit))
    (order_by (λ a b, time_id_leb (sc_claimed_ms a, sc_claim_key a) (sc_claimed_ms b, sc_claim_key b))
       (select (in_chat sc_channel sc_chat_id channel chat_id) (lg_claims s))).

(** ** Activation epochs *)

Definition of_scope (scope : string) (r : activation_row) : bool := ac_scope r =?s scope.

Definition set_fingerprint (scope fingerprint : string) (s : ledger) : ledger :=
  s <| lg_activation ::= update (of_scope scope) (λ r, r <| ac_fingerprint := fingerprint |>) |>.

(** [activation_epoch_sync] *)
Definition activation_epoch (scope : string) (fingerprint : option string) (now_ms : Z) : prog ledger Z :=
  commit (λ s,
    let (current, s1) := match fetchone (of_scope scope) (lg_activation s) with
                         | Some r => (ac_epoch r, s)
                         | None => (1, s <| lg_activation ::= insert_row (MkActivation scope 1 now_ms "") |>)
                         end in
    Ok (current, match fingerprint with Some f => set_fingerprint scope f s1 | None => s1 end)).

(** [activation_fingerprint_sync] *)
Definition activation_fingerprint (scope : string) (s : ledger) : string :=
  match fetchone (of_scope scope) (lg_activation s) with Some r => ac_fingerprint r | None => "" end.

(** [refresh_activation_sync] *)
Definition refresh_activation (scope fingerprint : string) (now_ms : Z) : prog ledger Z :=
  commit (λ s,
    match fetchone (of_scope scope) (lg_activation s) with
    | None => Ok (1, s <| lg_activation ::= insert_row (MkActivation scope 1 now_ms fingerprint) |>)
    | Some r =>
        if negb (str_true (ac_fingerprint r)) || (ac_fingerprint r =?s fingerprint)
        then Ok (ac_epoch r, if ac_fingerprint r =?s fingerprint then s else set_fingerprint scope fingerprint s)
        else Ok (ac_epoch r + 1, s <| lg_activation ::= update (of_scope scope) (λ r,
                   r <| ac_epoch ::= Z.add 1 |> <| ac_updated_ms := now_ms |> <| ac_fingerprint := fingerprint |>) |>)
    end).

(** [advance_activation_epoch_sync] *)
Definition advance_activation_epoch (scope : string) (fingerprint : option string) (now_ms : Z) : prog ledger Z :=
  commit (λ s,
    let s1 := if row_exists (of_scope scope) (lg_activation s)
              then s <| lg_activation ::= update (of_scope scope)
                          (λ r, r <| ac_epoch ::= Z.add 1 |> <| ac_updated_ms := now_ms |>) |>
              else s <| lg_activation ::= insert_row (MkActivation scope 2 now_ms "") |> in
    let s2 := match fingerprint with Some f => set_fingerprint scope f s1 | None => s1 end in
    Ok (match fetchone (of_scope scope) (lg_activation s2) with Some r => ac_epoch r | None => 1 end, s2)).

(** ** Owner approvals *)

Definition of_proposal (proposal_id : string) (r : approval_row) : bool := ap_proposal_id r =?s proposal_id.

Definition agrees (stored given : string) : bool := negb (str_true stored) || (stored =?s given).

(** [record_approval_claim] *)
Definition record_approval_claim (proposal_id owner_channel owner_chat_id owner_id payload_hash : string)
    (proposal_revision : Z) (target_effect_id : string) (now_ms : Z) : prog ledger bool :=
  commit (λ s,
    match fetchone (of_proposal proposal_id) (lg_approvals s) with
    | None =>
        Ok (true, s <| lg_approvals ::= insert_row
              (MkApproval proposal_id "claimed" owner_channel owner_chat_id owner_id payload_hash proposal_revision
                 target_effect_id (Some now_ms) None None now_ms now_ms) |>)
    | Some r =>
        if (ap_state r =?s "terminal") || negb (agrees (ap_payload_hash r) payload_hash)
           || negb (agrees (ap_owner_chat_id r) owner_chat_id) || negb (agrees (ap_owner_channel r) owner_channel)
        then Ok (false, s)
        else Ok (true, s <| lg_approvals ::= update (of_proposal proposal_id) (λ r,
               r <| ap_state := "claimed" |>
                 <| ap_claimed_ms ::= (λ o, match o with Some t => Some t | None => Some now_ms end) |>
                 <| ap_updated_ms := now_ms |> <| ap_target_effect_id := target_effect_id |>) |>)
    end).

(** [approval_claim] *)
Definition approval_claim (proposal_id : string) (s : ledger) : option approval_row :=
  fetchone (of_proposal proposal_id) (lg_approvals s).

(** [resolve_approval_claim] *)
Definition resolve_approval_claim (proposal_id resolution : string) (now_ms : Z) : prog ledger bool :=
  commit (λ s,
    match fetchone (of_proposal proposal_id) (lg_approvals s) with
    | None => Ok (false, s)
    | Some r =>
        if ap_state r =?s "terminal" then Ok (false, s)
        else Ok (true, s <| lg_approvals ::= update (of_proposal proposal_id) (λ r,
               r <| ap_state := "terminal" |> <| ap_resolution := Some resolution |>
                 <| ap_resolved_ms := Some now_ms |> <| ap_updated_ms := now_ms |>) |>)
    end).
