(* ===== verification/LedgerDelivery.v ===== *)
(** * LedgerDelivery

    The part of [consciousness/log.py] after the reservation: the evidenced delivery
    states, dispositions, outcomes and the history of proposals. A [project_*] method is
    two transactions, the reservation's and then the proposal's status; each is atomic. A
    stored float is never NaN: SQLite turns NaN into NULL. *)

From Stdlib Require Import ZArith Lia Ascii SpecFloat.
From S2P Require Import Prelude Tables Json Identity PyFloat Ledger.

(** ** Proposal status *)

Definition of_id (id : string) (r : speakup_row) : bool := su_id r =?s id.

Definition update_speakup (id : string) (f : speakup_row → speakup_row) : prog ledger unit :=
  commit (λ s, Ok (tt, s <| lg_speakups ::= update (of_id id) f |>)).

(** [mark_status]; [json_set] puts the reason into the snapshot *)
Definition mark_status (id status : string) (reason : option string) : prog ledger unit :=
  update_speakup id (λ r, match reason with
    | None => r <| su_status := status |>
    | Some t => r <| su_status := status |> <| su_context ::= dict_set "status_reason" (JStr t) |>
    end).

(** [mark_rejected] *)
Definition mark_rejected (id reason : string) : prog ledger unit := mark_status id "rejected" (Some reason).

(** [proposal_row] *)
Definition proposal_row (id : string) (s : ledger) : option speakup_row := fetchone (of_id id) (lg_speakups s).

(** [record_preview_effect] *)
Definition record_preview_effect (id preview_effect_id preview_operation_ref : string) (accepted : bool)
    : prog ledger unit :=
  do* mark_status id "awaiting_approval" None in
  update_speakup id (λ r, r <| su_context ::= (λ d,
    dict_set "preview_accepted" (JInt (if accepted then 1 else 0))
      (dict_set "preview_operation_ref" (JStr preview_operation_ref)
         (dict_set "preview_effect_id" (JStr preview_effect_id) d))) |>).

(** ** Delivery states *)

Definition coalesce (o : option Z) (now_ms : Z) : option Z := match o with Some t => Some t | None => Some now_ms end.

Definition or_keep (fresh old : option string) : option string := match fresh with Some t => Some t | None => old end.

Definition update_effect (effect_id : string) (f : reservation_row → reservation_row) (s : ledger) : ledger :=
  s <| lg_reservations ::= update (of_effect effect_id) f |>.

(** [_delivery_row_for_effect], [delivery_record] *)
Definition delivery_record (effect_id : string) (s : ledger) : option reservation_row :=
  fetchone (of_effect effect_id) (lg_reservations s).

(** [delivery_state] *)
Definition delivery_state (effect_id : string) (s : ledger) : option DeliveryState :=
  dr_state <$> delivery_record effect_id s.

(** [record_send_attempt] *)
Definition record_send_attempt (effect_id : string) (now_ms : Z) : prog ledger unit :=
  commit (λ s,
    if match delivery_record effect_id s with
       | Some r => dr_created_ms r + DELIVERY_RESERVATION_TTL_MS <=? now_ms
       | None => false
       end
    then Raise (ValueError "reservation_expired")
    else Ok (tt, update_effect effect_id (λ r,
           r <| dr_attempt_state := "submitted" |>
             <| dr_submitted_ms ::= (λ o, coalesce o now_ms) |>
             <| dr_state ::= (λ st, if delivery_eqb st reserved then submitted else st) |>) s)).

(** What a projection carries. *)
Record evidence := MkEvidence { el_provider_id : option string; el_kind : string; el_ref : string }.

Definition note_evidence (e : evidence) (r : reservation_row) : reservation_row :=
  r <| dr_provider_message_id ::= or_keep (el_provider_id e) |>
    <| dr_evidence_kind := Some (el_kind e) |> <| dr_evidence_ref := Some (el_ref e) |>.

(** The charge of an acceptance. *)
Definition accept_row (e : evidence) (now_ms : Z) (r : reservation_row) : reservation_row :=
  note_evidence e r <| dr_state := transport_accepted |> <| dr_accepted_ms := Some now_ms |>
    <| dr_attempt_state := "accepted" |>.

(** [project_transport_accepted] *)
Definition project_transport_accepted (proposal_id effect_id : string) (e : evidence) (now_ms : Z)
    : prog ledger DeliveryState :=
  if negb (str_in (el_kind e) TRANSPORT_EVIDENCE_KINDS) then praise (ValueError "not transport evidence") else
  let* (state, changed) := commit (λ s,
    match delivery_record effect_id s with
    | None => Raise (ValueError "no reservation for this proposal/effect")
    | Some r =>
        if delivery_in (dr_state r) [delivered; transport_accepted]
           || delivery_in (dr_state r) RELEASED_DELIVERY_STATES
        then Ok ((dr_state r, false), s)
        else Ok ((transport_accepted, true), update_effect effect_id (accept_row e now_ms) s)
    end) in
  if changed : bool then do* mark_status proposal_id "transport_accepted" None in pret state else pret state.

(** The delivery of an effect; an acceptance keeps its time. *)
Definition deliver_row (e : evidence) (now_ms : Z) (r : reservation_row) : reservation_row :=
  note_evidence e r <| dr_state := delivered |>
    <| dr_delivered_ms ::= (λ o, coalesce o now_ms) |>
    <| dr_accepted_ms ::= (λ o, if delivery_eqb (dr_state r) transport_accepted then coalesce o now_ms else Some now_ms) |>
    <| dr_attempt_state := "delivered" |>.

(** [project_recipient_delivery] *)
Definition project_recipient_delivery (proposal_id effect_id : string) (e : evidence) (now_ms : Z) : prog ledger bool :=
  if negb (str_in (el_kind e) RECIPIENT_EVIDENCE_KINDS) && negb (str_in (el_kind e) GROUP_SCOPED_EVIDENCE_KINDS)
  then praise (ValueError "not recipient evidence") else
  let* fresh := commit (λ s,
    match delivery_record effect_id s with
    | None => Raise (ValueError "no reservation for this proposal/effect")
    | Some r =>
        if delivery_eqb (dr_state r) delivered then Ok (false, s)
        else Ok (true, update_effect effect_id (deliver_row e now_ms) s)
    end) in
  if fresh : bool then do* mark_status proposal_id "delivered" None in pret true else pret false.

Definition unsettled (effect_id : string) (r : reservation_row) : bool :=
  of_effect effect_id r && delivery_in (dr_state r) [reserved; submitted].

(** [note_delivery_unknown] *)
Definition note_delivery_unknown (proposal_id effect_id evidence_kind evidence_ref : string) : prog ledger unit :=
  let* updated := commit (λ s,
    Ok (row_exists (unsettled effect_id) (lg_reservations s),
        s <| lg_reservations ::= update (unsettled effect_id) (λ r,
          r <| dr_state := delivery_unknown |> <| dr_evidence_kind := Some evidence_kind |>
            <| dr_evidence_ref := Some evidence_ref |> <| dr_attempt_state := "unknown" |>) |>)) in
  if updated : bool then mark_status proposal_id "delivery_unknown" None else pret tt.

(** The releasing states by name. *)
Definition released_of (state : string) : option DeliveryState :=
  List.find (λ st, delivery_str st =?s state) RELEASED_DELIVERY_STATES.

(** [release_delivery] *)
Definition release_delivery (proposal_id effect_id state reason : string) (now_ms : Z) : prog ledger bool :=
  match released_of state with
  | None => praise (ValueError "not a releasing state")
  | Some target =>
  let* released := commit (λ s,
    match delivery_record effect_id s with
    | None => Ok (false, s)
    | Some r =>
        if delivery_in (dr_state r) CONSUMED_DELIVERY_STATES || delivery_in (dr_state r) RELEASED_DELIVERY_STATES
        then Ok (false, s)
        else Ok (true, update_effect effect_id (λ r,
               r <| dr_state := target |> <| dr_released_ms := Some now_ms |> <| dr_evidence_kind := Some "release" |>
                 <| dr_evidence_ref := Some reason |> <| dr_attempt_state := "released" |>) s)
    end) in
  if released : bool then do* mark_status proposal_id state (Some reason) in pret true else pret false
  end.

(** [record_delivery]: the evidence decides which state is admissible *)
Definition record_delivery (effect_id state : string) (e : evidence) (now_ms : Z) : prog ledger bool :=
  let* row := pread (λ s, Ok (delivery_record effect_id s)) in
  match row with
  | None => praise (ValueError "no reservation for effect")
  | Some r =>
      if state =?s "transport_accepted"
      then do* project_transport_accepted (dr_proposal_id r) effect_id e now_ms in pret true
      else if state =?s "delivered" then project_recipient_delivery (dr_proposal_id r) effect_id e now_ms
      else if state =?s "failed"
      then release_delivery (dr_proposal_id r) effect_id "failed"
             (if str_true (el_ref e) then el_ref e else el_kind e) now_ms
      else praise (ValueError "unsupported delivery state")
  end.

(** [consumed_slots] *)
Definition consumed_slots (channel chat_id category : string) (now_ms window_ms : Z) (window_kind : string)
    (s : ledger) : Z :=
  if window_kind =?s "calendar_day"
  then held_or_accepted_count channel chat_id category "" now_ms (Some (day_start now_ms)) (Some (day_start now_ms + DAY)) s
  else held_or_accepted_count channel chat_id category "" now_ms (Some (now_ms - Z.max 1 window_ms + 1)) None s.

(** Transport first, then reservations, then the rest. *)
Definition pending_rank (r : reservation_row) : Z :=
  match dr_state r with submitted | transport_accepted => 0 | reserved => 1 | _ => 2 end.

Definition pending_leb (a b : reservation_row) : bool :=
  (pending_rank a <? pending_rank b) || ((pending_rank a =? pending_rank b) && (dr_created_ms a <=? dr_created_ms b)).

Definition matches (o : option string) (v : string) : bool := match o with Some t => v =?s t | None => true end.

(** [pending_delivery_reservations] *)
Definition pending_delivery_reservations (limit offset : Z) (origin lane : option string) (states : list DeliveryState)
    (s : ledger) : list reservation_row :=
  take (Z.to_nat (Z.max 1 limit)) (drop (Z.to_nat (Z.max 0 offset))
    (order_by pending_leb
       (select (λ r, delivery_in (dr_state r) states && matches origin (dr_origin r) && matches lane (dr_lane r))
          (lg_reservations s)))).

(** ** Dispositions *)

Definition of_opportunity (id : string) (r : disposition_row) : bool := od_opportunity_id r =?s id.

(** [record_disposition] *)
Definition record_disposition (r : disposition_row) : prog ledger unit :=
  commit (λ s, Ok (tt, s <| lg_dispositions ::= λ t,
    if row_exists (of_opportunity (od_opportunity_id r)) t
    then update (of_opportunity (od_opportunity_id r)) (λ q,
           q <| od_disposition := od_disposition r |> <| od_reason := od_reason r |>
             <| od_observed_revision ::= Z.max (od_observed_revision r) |> <| od_updated_ms := od_updated_ms r |>) t
    else insert_row r t |>)).

(** [disposition] *)
Definition disposition (id : string) (s : ledger) : option disposition_row :=
  fetchone (of_opportunity id) (lg_dispositions s).

(** [disposition_by_chat] *)
Definition disposition_by_chat (channel chat_id : string) (s : ledger) : option disposition_row :=
  head (order_by (λ a b, od_updated_ms b <=? od_updated_ms a)
          (select (in_chat od_channel od_chat_id channel chat_id) (lg_dispositions s))).

(** [MAX(...)] of a column: NULL when there is no row *)
Definition sql_max (l : list Z) : option Z :=
  match l with [] => None | x :: l' => Some (foldl Z.max x l') end.

Definition production_rows (channel chat_id : string) (dispositions : list string) (s : ledger) : list disposition_row :=
  select (λ r, in_chat od_channel od_chat_id channel chat_id r && (od_lane r =?s "production")
               && str_in (od_disposition r) dispositions) (lg_dispositions s).

(** [last_reaction_revision] *)
Definition last_reaction_revision (channel chat_id : string) (s : ledger) : option Z :=
  sql_max (map od_observed_revision (production_rows channel chat_id ["reaction_submitted"; "reaction_unknown"] s)).

(** [last_meme_activity] *)
Definition last_meme_activity (channel chat_id : string) (s : ledger) : option (Z * Z) :=
  let rows := production_rows channel chat_id
                ["meme_submitted"; "meme_unknown"; "sticker_submitted"; "sticker_unknown"] s in
  match sql_max (map od_observed_revision rows) with
  | None => None
  | Some r => Some (r, default 0 (sql_max (map od_created_ms rows)))
  end.

(** ** Outcomes *)

Definition participation_delivered (r : reservation_row) : bool :=
  (dr_origin r =?s "participation") && (dr_lane r =?s "production") && delivery_eqb (dr_state r) delivered.

Definition delivered_where (p : Z → bool) (r : reservation_row) : bool :=
  match dr_delivered_ms r with Some t => p t | None => false end.

Definition delivered_at (r : reservation_row) : Z := default 0 (dr_delivered_ms r).

(** [pending_outcome_deliveries] *)
Definition pending_outcome_deliveries (before_ms limit : Z) (s : ledger) : list reservation_row :=
  take (Z.to_nat (Z.max 1 limit))
    (order_by (λ a b, delivered_at a <=? delivered_at b)
       (select (λ r, participation_delivered r && delivered_where (λ t, t <=? before_ms) r) (lg_reservations s))).

(** [delivered_reservation_rows] *)
Definition delivered_reservation_rows (channel chat_id : string) (since_ms limit : Z) (s : ledger)
    : list reservation_row :=
  take (Z.to_nat (Z.max 1 limit))
    (order_by (λ a b, time_id_leb (- delivered_at a, dr_effect_id a) (- delivered_at b, dr_effect_id b))
       (select (λ r, in_chat dr_channel dr_chat_id channel chat_id r && participation_delivered r
                     && delivered_where (λ t, since_ms <=? t) r) (lg_reservations s))).

(** [explicit_feedback]: the injected reader, whose errors count as no feedback *)
Definition explicit_feedback (reader : option (string → string → string → result json))
    (channel chat_id provider_message_id : string) : option dict :=
  let token := py_strip provider_message_id in
  if negb (str_true token) then None else
  match reader with
  | None => None
  | Some read => match read channel chat_id token with Ok (JObj d) => Some d | _ => None end
  end.

(** [mark_delivery_outcome] *)
Definition mark_delivery_outcome (effect_id outcome evidence_kind : string) (evidence_ids : list string) (now_ms : Z)
    : prog ledger unit :=
  commit (λ s, Ok (tt, update_effect effect_id (λ r,
    r <| dr_outcome := Some outcome |> <| dr_outcome_kind := Some evidence_kind |>
      <| dr_outcome_evidence := Some evidence_ids |> <| dr_outcome_ms := Some now_ms |>) s)).

(** ** The proposal history *)

(** [_insert]; REPLACE deletes the clashing row, so outcome columns are lost *)
Definition insert_speakup (r : speakup_row) (replace : bool) : prog ledger unit :=
  commit (λ s,
    if replace then Ok (tt, s <| lg_speakups ::= λ t, insert_row r (delete_rows (of_id (su_id r)) t) |>)
    else if row_exists (of_id (su_id r)) (lg_speakups s)
    then Raise (IntegrityError "UNIQUE constraint failed: speakups.id")
    else Ok (tt, s <| lg_speakups ::= insert_row r |>)).

(** What the callers of [_insert] pass through. *)
Record proposal := MkProposal {
  pp_channel : string;
  pp_chat_id : string;
  pp_action_type : string;
  pp_profile : string;
  pp_message : string;
  pp_trigger : string;
  pp_context : dict;
}.

Definition speakup_of (id status : string) (created : pyfloat) (committed : option pyfloat) (p : proposal) : speakup_row :=
  MkSpeakup id created committed (pp_channel p) (pp_chat_id p) (pp_action_type p) (pp_profile p) (pp_message p) status
    (pp_trigger p) (pp_context p) None None.

(** [record_proposed]; [uuid] is the fresh [uuid4().hex] *)
Definition record_proposed (proposal_id : option string) (uuid : string) (p : proposal) (now : pyfloat)
    : prog ledger string :=
  let id := match proposal_id with Some t => if str_true t then t else uuid | None => uuid end in
  do* insert_speakup (speakup_of id "proposed" now None p) false in pret id.

(** [record_sent] *)
Definition record_sent (proposal_id : string) (p : proposal) (now : pyfloat) : prog ledger unit :=
  insert_speakup (speakup_of proposal_id "sent" now (Some now) p) true.

(** [mark_sent] *)
Definition mark_sent (id : string) (now : pyfloat) : prog ledger unit :=
  update_speakup id (λ r, r <| su_status := "sent" |> <| su_committed_at := Some now |>).

(** [mark_outcome] *)
Definition mark_outcome (id outcome : string) (now : pyfloat) : prog ledger unit :=
  update_speakup id (λ r, r <| su_outcome := Some outcome |> <| su_outcome_classified_at := Some now |>).

(** [record_silent_pass] *)
Definition record_silent_pass (uuid channel chat_id profile trigger reason : string) (context : dict) (now : pyfloat)
    : prog ledger string :=
  do* insert_speakup (speakup_of uuid "silent_pass" now None
        (MkProposal channel chat_id "silent_pass" profile "" trigger (dict_set "reason" (JStr reason) context))) false in
  pret uuid.

Definition float_max (a b : pyfloat) : pyfloat := if SFltb a b then b else a.

Definition sent_entries (channel chat_id : string) (s : ledger) : list (string * pyfloat) :=
  omap (λ r, if in_chat su_channel su_chat_id channel chat_id r && (su_status r =?s "sent")
             then (λ t, (su_id r, t)) <$> su_committed_at r else None) (lg_speakups s)
  ++ omap (λ r, if in_chat dr_channel dr_chat_id channel chat_id r && (dr_category r =?s "initiation")
                   && delivery_in (dr_state r) [transport_accepted; delivered]
                then (λ t, (dr_proposal_id r, SFdiv 53 1024 (int_float t) THOUSAND)) <$> dr_accepted_ms r else None)
       (lg_reservations s).

(** One entry of the grouped table. *)
Fixpoint group_max (groups : list (string * pyfloat)) (e : string * pyfloat) : list (string * pyfloat) :=
  match groups with
  | [] => [e]
  | (id, t) :: groups' =>
      if id =?s e.1 then (id, float_max t e.2) :: groups' else (id, t) :: group_max groups' e
  end.

(** [_CONFIRMED_SPEAKUPS_SQL]: the newest confirmed send of every proposal *)
Definition confirmed_speakups (channel chat_id : string) (s : ledger) : list (string * pyfloat) :=
  foldl group_max [] (sent_entries channel chat_id s).

(** [count_sent_since] *)
Definition count_sent_since (channel chat_id : string) (since : pyfloat) (s : ledger) : nat :=
  rowcount (λ e : string * pyfloat, SFleb since e.2) (confirmed_speakups channel chat_id s).

(** [count_sent_today]; [start] and [stop] are the UTC day's timestamps *)
Definition count_sent_today (channel chat_id : string) (start stop : pyfloat) (s : ledger) : nat :=
  rowcount (λ e : string * pyfloat, SFleb start e.2 && SFltb e.2 stop) (confirmed_speakups channel chat_id s).

(** [last_sent_at] *)
Definition last_sent_at (channel chat_id : string) (s : ledger) : option pyfloat :=
  match map snd (confirmed_speakups channel chat_id s) with [] => None | x :: l => Some (foldl float_max x l) end.

Definition clamp (limit top : Z) : nat := Z.to_nat (Z.max 1 (Z.min limit top)).

(** [history] *)
Definition history (channel chat_id : string) (limit : Z) (s : ledger) : list speakup_row :=
  take (clamp limit 100) (order_by (λ a b, SFleb (su_created_at b) (su_created_at a))
    (select (in_chat su_channel su_chat_id channel chat_id) (lg_speakups s))).

Definition committed (r : speakup_row) : pyfloat := default (S754_zero false) (su_committed_at r).

(** [pending_outcome_rows] *)
Definition pending_outcome_rows (before : pyfloat) (limit : Z) (s : ledger) : list speakup_row :=
  take (clamp limit 100) (order_by (λ a b, SFleb (committed a) (committed b))
    (select (λ r, (su_status r =?s "sent")
                  && match su_committed_at r with Some t => SFleb t before | None => false end
                  && negb (is_some (su_outcome r))) (lg_speakups s))).

(** [committed_at DESC, created_at DESC]; NULL sorts last *)
Definition newest_first (a b : speakup_row) : bool :=
  match su_committed_at a, su_committed_at b with
  | Some x, Some y => SFltb y x || (SFeqb x y && SFleb (su_created_at b) (su_created_at a))
  | Some _, None => true
  | None, Some _ => false
  | None, None => SFleb (su_created_at b) (su_created_at a)
  end.

(** [outcome_samples] *)
Definition outcome_samples (channel chat_id : string) (limit : Z) (s : ledger) : list speakup_row :=
  take (clamp limit 200) (order_by newest_first
    (select (λ r, in_chat su_channel su_chat_id channel chat_id r && (su_status r =?s "sent") && is_some (su_outcome r))
       (lg_speakups s))).

(** [learning_summary]: sent, labelled and the count of every outcome *)
Definition learning_summary (channel chat_id : string) (s : ledger) : nat * nat * list (string * nat) :=
  let chat := select (in_chat su_channel su_chat_id channel chat_id) (lg_speakups s) in
  let labels := omap su_outcome chat in
  (rowcount (λ r, su_status r =?s "sent") chat, length labels,
   map (λ o, (o, rowcount (λ l, l =?s o) labels)) (order_by String.leb (first_seen [] labels))).
