(* ===== verification/Router.v ===== *)
(** * Router

    The dispatch line of [processing/dispatch.py] from a producer's message to the effect
    gateway: classification, the send budgets, the guard in front of the message bus with
    the owner's control acknowledgements ([core/control_ack.py]), [IntentEffectRouter] with
    its turn binding, capacity check and quotable anchors, and the producers on top of it
    ([ManagedOutboundDispatcher], [ServiceEffectProducer]).

    [CURRENT_TURN] is an argument, clock readings are a record, and the participation
    ledger is a record of what it answers together with the log of the calls it got. The
    advisory hooks (reception recorder, post-send listeners, timings, logging) swallow
    their errors and return nothing; they are left out. *)

From Stdlib Require Import ZArith Lia.
From S2P Require Import Ledger.
From S2P Require Import Prelude Tables Json Models Schema Outbox OutboxFacts OutboxSpec OutboxRefine.
From S2P Require Import Quiet Fixtures OutboxProps ThreadStore ThreadProps Mailbox Budget Journal Receipts Gateway.
From S2P Require Import Retention Routing Admissions Reconcile Registry QuietOps Actor Responder Executor.

(** ** Principals and classification *)

(** [SERVICE_PRINCIPALS] *)
Definition SERVICE_PRINCIPALS : list (string * string) :=
  [("cron", "service:cron"); ("admin", "service:admin"); ("ipc", "service:ipc");
   ("speakup", "service:speakup"); ("heartbeat", "service:heartbeat"); ("a2a", "service:a2a")].

Definition service_principal (principal : string) : bool :=
  str_in principal (map snd SERVICE_PRINCIPALS).

(** [SERVICE_PRINCIPALS.get] *)
Definition principal_of_source (source : string) : option string :=
  snd <$> List.find (λ p, p.1 =?s source) SERVICE_PRINCIPALS.

(** [text or None] *)
Definition text_or_none (s : string) : option string := if str_true s then Some s else None.

(** [forward_message] in the metadata *)
Definition forward_payload (d : dict) : EffectPayload :=
  ForwardPayload (str_or_empty (dict_get "source_chat_id" d)) (str_or_empty (dict_get "source_message_id" d)).

(** [classify_outbound] *)
Definition classify_outbound (m : OutboundMessage) : string * EffectPayload :=
  let rest :=
    match dict_get "forward_message" (om_metadata m) with
    | Some (JObj d) => ("forward_message", forward_payload d)
    | _ => match om_media m with
           | [] => ("send_text", TextPayload (om_content m) (om_reply_to m))
           | media => ("send_media", MediaPayload media (text_or_none (om_content m)))
           end
    end in
  match dict_get "delete_message" (om_metadata m) with
  | Some (JObj d) =>
      match dict_get "message_id" d with
      | Some v => if truthy v then ("delete_message", DeletePayload (py_str v)) else rest
      | None => rest
      end
  | _ => rest
  end.

(** [payload_units] *)
Definition payload_units (p : EffectPayload) : Z :=
  match p with MediaPayload media _ => Z.max 1 (Z.of_nat (length media)) | _ => 1 end.

(** [budget_key] *)
Definition budget_key (channel chat_id : string) : string := channel +:+ ":" +:+ chat_id.

(** ** SendBudget *)

Record SendBudget := MkSendBudget {
  sb_units : Z;
  sb_window : Z;
  sb_waiting_cap : Z;
  sb_spent : gmap string (list Z);
}.

#[export] Instance eta_SendBudget : Updatable SendBudget :=
  λ b, MkSendBudget (sb_units b) (sb_window b) (sb_waiting_cap b) (sb_spent b).

(** [SendBudget.__init__] *)
Definition SendBudget_init (units window_seconds waiting_cap : Z) : result SendBudget :=
  if (units <? 1) || (window_seconds <? 1)
  then Raise (ValueError "budget needs at least one unit and a positive window")
  else Ok (MkSendBudget units window_seconds waiting_cap ∅).

Definition live_stamps (b : SendBudget) (key : string) (now : Z) : list Z :=
  select (λ stamp, now - stamp <? sb_window b) (default [] (sb_spent b !! key)).

(** [SendBudget.reserve] *)
Definition send_budget_reserve (b : SendBudget) (key : string) (units now : Z) : bool * SendBudget :=
  let wanted := Z.max 1 units in
  let window := live_stamps b key now in
  if sb_units b <? Z.of_nat (length window) + wanted
  then (false, b <| sb_spent ::= insert key window |>)
  else (true, b <| sb_spent ::= insert key (window ++ repeat now (Z.to_nat wanted)) |>).

(** [SendBudget.spent] *)
Definition send_budget_spent (b : SendBudget) (key : string) (now : Z) : Z * SendBudget :=
  let window := live_stamps b key now in
  (Z.of_nat (length window), b <| sb_spent ::= insert key window |>).

(** ** Owner-control acknowledgements *)

Definition CONTROL_ACK_KEY : string := "owner_control_ack".
Definition DEFAULT_CAPACITY : Z := 64.

(** [OwnerControlAcknowledgements]: an ordered dict of pending tokens, oldest first *)
Record OwnerControlAcknowledgements := MkAcks {
  ack_capacity : nat;
  ack_pending : list (string * (string * string * string));
}.

#[export] Instance eta_acks : Updatable OwnerControlAcknowledgements :=
  λ a, MkAcks (ack_capacity a) (ack_pending a).

Definition acks_init (capacity : Z) : OwnerControlAcknowledgements :=
  MkAcks (Z.to_nat (Z.max 1 capacity)) [].

(** [register]; [token] is the fresh [secrets.token_hex(32)]. Setting a known key keeps its
    place in an ordered dict. *)
Definition ack_register (token channel chat_id content : string) (a : OwnerControlAcknowledgements)
    : string * OwnerControlAcknowledgements :=
  let entry := (channel, chat_id, content) in
  let l := if row_exists (has_id fst token) (ack_pending a)
           then update (has_id fst token) (λ _, (token, entry)) (ack_pending a)
           else ack_pending a ++ [(token, entry)] in
  (token, a <| ack_pending := evict (ack_capacity a) l |>).

(** [_entry] *)
Definition ack_entry (a : OwnerControlAcknowledgements) (token : option json)
    (channel chat_id content : string) : option string :=
  match token with
  | Some (JStr t) =>
      if negb (str_true t) then None else
      match by_id fst t (ack_pending a) with
      | Some (_, (ch, chat, c)) =>
          if (ch =?s channel) && (chat =?s chat_id) && (c =?s content) then Some t else None
      | None => None
      end
  | _ => None
  end.

(** [matches] *)
Definition ack_matches (a : OwnerControlAcknowledgements) (token : option json)
    (channel chat_id content : string) : bool :=
  is_some (ack_entry a token channel chat_id content).

(** [matches_metadata] *)
Definition ack_matches_metadata (a : OwnerControlAcknowledgements) (metadata : dict)
    (channel chat_id content : string) : bool :=
  ack_matches a (dict_get CONTROL_ACK_KEY metadata) channel chat_id content.

(** [claim] *)
Definition ack_claim (token : option json) (channel chat_id content : string)
    (a : OwnerControlAcknowledgements) : bool * OwnerControlAcknowledgements :=
  match ack_entry a token channel chat_id content with
  | None => (false, a)
  | Some t => (true, a <| ack_pending ::= List.filter (λ p, negb (p.1 =?s t)) |>)
  end.

(** ** Reactions *)

Definition MAX_EMOJI_CHARS : nat := 8.
Definition SYSTEM_ORIGIN : string := "system".

(** [len] of a string held as UTF-8: the bytes that start a character *)
Fixpoint char_count (s : string) : nat :=
  match s with
  | EmptyString => 0
  | String c s' =>
      let n := Ascii.nat_of_ascii c in
      if (128 <=? n)%nat && (n <? 192)%nat then char_count s' else S (char_count s')
  end.

Section Reactions.
  (** [any(character.isalnum() or character.isspace() ...)]: the Unicode tables *)
  Context (has_word_char : string → bool).

(** [looks_like_emoji] of [yeoman_shared/reactions.py] *)
Definition looks_like_emoji (value : string) : bool :=
  let text := py_strip value in
  if negb (str_true text) || (MAX_EMOJI_CHARS <? char_count text)%nat then false
  else negb (has_word_char text).

(** [allowed_reaction] *)
Definition allowed_reaction (value : string) (allowed : list string) : option string :=
  let text := py_strip value in
  if negb (looks_like_emoji text) then None
  else if str_in text (map py_strip allowed) then Some text else None.

End Reactions.

(** ** The router *)

(** [ProcessingConfig] as far as the router reads it *)
Record BudgetSettings := MkBudgetSettings {
  bs_chat_hard_units : Z;
  bs_chat_hard_window_seconds : Z;
  bs_outbox_waiting_per_chat : Z;
  bs_thread_soft_units : Z;
  bs_thread_soft_window_seconds : Z;
  bs_thread_soft_enforce : bool;
}.

Record ProcessingConfig := MkProcessing {
  pc_enabled : bool;
  pc_chats : list string;
  pc_reaction_emojis : list string;
  pc_deadline_ms : string → Z;
  pc_budgets : option BudgetSettings;
}.

(** [is_chat_enabled] of [yeoman_shared/config/schema.py] *)
Definition is_chat_enabled (c : ProcessingConfig) (channel chat_id : string) : bool :=
  if negb (pc_enabled c) then false
  else let scoped := List.filter str_true (map py_strip (pc_chats c)) in
       match scoped with [] => false | _ => str_in (channel +:+ ":" +:+ chat_id) scoped end.

(** The participation ledger: when a delivery was reserved, and its answer to a call. *)
Inductive ledger_call :=
| RecordSendAttempt (proposal_id effect_id : string) (now_ms : Z)
| ProjectTransportAccepted (proposal_id effect_id : string) (provider_message_id : option string)
    (evidence_ref : string) (now_ms : Z)
| ReleaseDelivery (proposal_id effect_id reason : string) (now_ms : Z).

Record ParticipationLedger := MkLedger {
  pl_reserved_ms : string → option Z;
  pl_answer : ledger_call → result unit;
}.

Record ParticipationAdmission := MkParticipation {
  pa_admission_id : string;
  pa_opportunity_id : string;
  pa_data : dict;
}.

Record IntentEffectRouter := MkIntentRouter {
  ir_gateway : EffectGateway;
  ir_executor : BusEffectExecutor;
  ir_config : option ProcessingConfig;
  ir_soft_enforce : bool;
  ir_durable_budget : option ChatBudget;
  ir_turn_provider : option (string → string → db → result (option TurnRef));
  ir_ledger : option ParticipationLedger;
}.

(** What a router owns: the store, the frozen turns, its two in-process budgets, and the
    logs of what reached a transport and the ledger. *)
Record router_world := MkRouterWorld {
  ro_store : db;
  ro_frozen : list (string * TurnBinding);
  ro_budget : option SendBudget;
  ro_thread_budget : option ThreadBudget;
  ro_calls : list transport_call;
  ro_ledger : list ledger_call;
}.

#[export] Instance eta_router_world : Updatable router_world :=
  λ w, MkRouterWorld (ro_store w) (ro_frozen w) (ro_budget w) (ro_thread_budget w) (ro_calls w) (ro_ledger w).

(** [IntentEffectRouter.__init__] over a gateway with a store *)
Definition IntentEffectRouter_init (g : EffectGateway) (x : BusEffectExecutor)
    (config : option ProcessingConfig) (budget : option SendBudget)
    (provider : option (string → string → db → result (option TurnRef)))
    (ledger : option ParticipationLedger) (s : db) : result (IntentEffectRouter * router_world) :=
  match config ≫= pc_budgets with
  | None => Ok (MkIntentRouter g x config false None provider ledger,
                MkRouterWorld s [] budget None [] [])
  | Some b =>
      let! own := match budget with
                  | Some sb => Ok sb
                  | None => SendBudget_init (bs_chat_hard_units b) (bs_chat_hard_window_seconds b)
                              (bs_outbox_waiting_per_chat b)
                  end in
      Ok (MkIntentRouter g x config (bs_thread_soft_enforce b)
            (if is_none budget
             then Some (MkChatBudget (bs_chat_hard_units b) (bs_chat_hard_window_seconds b * 1000)
                          (bs_outbox_waiting_per_chat b))
             else None) provider ledger,
          MkRouterWorld s [] (Some own)
            (Some (MkThreadBudget (bs_thread_soft_units b) (bs_thread_soft_window_seconds b * 1000) ∅)) [] [])
  end.

(** [manages] *)
Definition manages (r : IntentEffectRouter) (channel chat_id : string) : bool :=
  match ir_config r with
  | None => false
  | Some c => if pc_enabled c then is_chat_enabled c channel chat_id else false
  end.

(** [store.py] on the router's store *)
Definition on_ro {A} (p : prog db A) : prog router_world A :=
  λ w, let (r, s) := p (ro_store w) in (r, w <| ro_store := s |>).

(** [try: ... except Exception: log] around a store call *)
Definition swallow {A} (p : prog router_world A) : prog router_world unit :=
  λ w, match p w with
       | (Raise CancelledError, w') => (Raise CancelledError, w')
       | (_, w') => (Ok tt, w')
       end.

Definition call_ledger (l : ParticipationLedger) (c : ledger_call) : prog router_world unit :=
  λ w, (pl_answer l c, w <| ro_ledger ::= (λ l, l ++ [c]) |>).

(** One request to [_run]. *)
Record effect_request := MkRequest {
  rq_channel : string;
  rq_chat_id : string;
  rq_source_message_id : option string;
  rq_principal : string;
  rq_payload : EffectPayload;
  rq_operation_key : string;
  rq_trace_id : string;
  rq_deadline_key : string;
  rq_effect_id : option string;
  rq_own_lineage : bool;
  rq_admission : option ParticipationAdmission;
}.

(** The clock readings of one run, in the order the code takes them. *)
Record run_clock := MkClock {
  ck_start : Z;
  ck_submit : Z;
  ck_attempt : Z;
  ck_capacity : Z;
  ck_monotonic : Z;
  ck_begin : Z;
  ck_receipt : Z;
  ck_end : Z;
  ck_project : Z;
}.

(** The turn an effect is bound to, as [_run] reads it: id, thread, revision. *)
Record bound_turn := MkBound { bt_turn_id : string; bt_thread_id : string; bt_revision : Z }.

Definition bound_of_row (t : turn_row) : bound_turn :=
  MkBound (tu_turn_id t) (tu_thread_id t) (tu_revision t).
Definition bound_of_ref (t : TurnRef) : bound_turn :=
  MkBound (tr_turn_id t) (tr_thread_id t) (tr_revision t).

(** [ThreadActorRegistry.active_turn] *)
Fixpoint first_active_turn (channel chat_id : string) (l : list thread_row) (s : db)
    : result (option TurnRef) :=
  match l with
  | [] => Ok None
  | th :: l' =>
      if negb (th_channel th =?s channel) then first_active_turn channel chat_id l' s
      else match active_turn (th_thread_id th) s with
           | Some t => let! r := turn_to_ref t channel chat_id in Ok (Some r)
           | None => first_active_turn channel chat_id l' s
           end
  end.

Definition registry_active_turn (channel chat_id : string) (s : db) : result (option TurnRef) :=
  first_active_turn channel chat_id (list_threads None (Some chat_id) None (Some "open") (Some 100) s) s.

Section Router.
  Context `{Sha256} `{EffectAuthorizer}.

(** ** Binding a turn *)

(** The frozen turn of a source is asked for only without a current turn. *)
Definition frozen_binding (rq : effect_request) (current : option TurnBinding) (w : router_world)
    : option TurnBinding :=
  match rq_source_message_id rq with
  | Some m => if is_none current && str_true m && negb (service_principal (rq_principal rq))
              then frozen_turn_for_source m (ro_frozen w) else None
  | None => None
  end.

(** The open turn the reacted-to message was assigned to. *)
Definition lineage_binding (rq : effect_request) (w : router_world) : option TurnBinding :=
  match rq_source_message_id rq with
  | Some m =>
      if negb (rq_own_lineage rq && str_true m) then None else
      match event_assignment m (ro_store w) with
      | Some (_, Some turn_id) =>
          if negb (str_true turn_id) then None else
          match get_turn turn_id (ro_store w) with
          | Some t => if is_none (tu_closed_ms t) then Some (MkBinding t m None) else None
          | None => None
          end
      | _ => None
      end
  | None => None
  end.

(** The binding and the turn of a request. *)
Definition bind_turn (r : IntentEffectRouter) (rq : effect_request) (current : option TurnBinding)
    (w : router_world) : result (option TurnBinding * option bound_turn) :=
  let service := service_principal (rq_principal rq) in
  let own := if service then None else current in
  let frozen := frozen_binding rq own w in
  let binding := match own with Some b => Some b | None =>
                 match frozen with Some b => Some b | None => lineage_binding rq w end end in
  match binding with
  | Some b => Ok (binding, Some (bound_of_row (tb_turn b)))
  | None =>
      match ir_turn_provider r with
      | Some provider =>
          if rq_own_lineage rq || service then Ok (None, None)
          else let! t := provider (rq_channel rq) (rq_chat_id rq) (ro_store w) in
               Ok (None, bound_of_ref <$> t)
      | None => Ok (None, None)
      end
  end.

Definition turn_id_of (t : option bound_turn) : string := default "" (bt_turn_id <$> t).
Definition thread_id_of (t : option bound_turn) : string := default "" (bt_thread_id <$> t).
Definition revision_of (t : option bound_turn) : Z :=
  match t with Some t => if bt_revision t =? 0 then 1 else bt_revision t | None => 1 end.

(** A turn-bound producer without a turn. *)
Definition unbound (r : IntentEffectRouter) (rq : effect_request) (t : option bound_turn) : bool :=
  negb (str_true (turn_id_of t)) && negb (rq_own_lineage rq) && is_some (ir_turn_provider r)
  && negb (service_principal (rq_principal rq)).

(** [_note_soft_thread_limit] *)
Definition note_soft_thread_limit (r : IntentEffectRouter) (thread_id : string) (now : Z)
    : prog router_world unit := λ w,
  match ro_thread_budget w with
  | None => (Ok tt, w)
  | Some b =>
      if negb (str_true thread_id) then (Ok tt, w) else
      match defer_until b thread_id now with
      | Raise err => (Raise err, w)
      | Ok ready_at =>
          if (now <? ready_at) && ir_soft_enforce r
          then (Raise (EffectNotDeliveredError "thread soft limit reached"), w)
          else (Ok tt, w <| ro_thread_budget := Some (note_send b thread_id now) |>)
      end
  end.

(** ** The envelope *)


Definition caller_effect_id (rq : effect_request) : option string := rq_effect_id rq ≫= text_or_none.

(** An effect with a delivery reservation does not outlive it. *)
Definition expires_at (r : IntentEffectRouter) (rq : effect_request) (deadline now : Z) : Z :=
  match caller_effect_id rq ≫= λ id, ir_ledger r ≫= λ l, pl_reserved_ms l id with
  | Some created => Z.min (now + deadline) (created + DELIVERY_RESERVATION_TTL_MS)
  | None => now + deadline
  end.

Definition envelope_for (r : IntentEffectRouter) (rq : effect_request) (b : option TurnBinding)
    (t : option bound_turn) (deadline now : Z) (fresh : string) : EffectEnvelope :=
  {| env_effect_id := default fresh (caller_effect_id rq);
     env_operation_key := rq_operation_key rq +:+ ":" +:+ turn_id_of t +:+ ":" +:+ pretty (revision_of t);
     env_payload := rq_payload rq;
     env_target := MkTarget (rq_channel rq) (rq_chat_id rq) None None;
     env_trace_id := match b with
                     | Some b => if str_true (tb_trace_id b) then tb_trace_id b else rq_trace_id rq
                     | None => rq_trace_id rq
                     end;
     env_turn_id := turn_id_of t;
     env_turn_revision := revision_of t;
     env_principal := rq_principal rq;
     env_capability := capability_of (rq_payload rq);
     env_expires_at_ms := Some (expires_at r rq deadline now);
     env_policy_version := None;
     env_policy_hash := None;
     env_created_ms := Some now;
     env_origin := if is_some (rq_admission rq) then "participation" else "legacy";
     env_admission_id := pa_admission_id <$> rq_admission rq |}.

(** Acceptance by the gateway, with the send attempt for a participation effect. *)
Definition accept_effect (r : IntentEffectRouter) (rq : effect_request) (e : EffectEnvelope) (ck : run_clock)
    : prog router_world EffectReceipt :=
  match rq_admission rq with
  | None => on_ro (submit e (ck_submit ck))
  | Some a =>
      match ir_ledger r with
      | None => praise (EffectNotDeliveredError "participation ledger is required before effect enqueue")
      | Some l =>
          if negb (str_true (pa_admission_id a))
          then praise (EffectNotDeliveredError "participation admission requires a stable admission id") else
          let* receipt := on_ro (submit_participation e (pa_admission_id a) (pa_data a) (ck_submit ck)) in
          do* call_ledger l (RecordSendAttempt (pa_opportunity_id a) (er_effect_id receipt) (ck_attempt ck)) in
          pret receipt
      end
  end.

(** ** Quotable anchors *)

(** [_plan_quotable_message] *)
Definition plan_quotable_message (e : EffectEnvelope) (t : option bound_turn) (now : Z) : prog router_world unit :=
  if negb (str_true (thread_id_of t)) then pret tt else
  match env_payload e with
  | TextPayload _ _ | MediaPayload _ _ =>
      swallow (on_ro (register_thread_message (thread_id_of t) now "out" (text_or_none (turn_id_of t)) None
                        (Some (env_effect_id e)) None))
  | _ => pret tt
  end.

(** [_confirm_quotable_message] *)
Definition confirm_quotable_message (e : EffectEnvelope) (result : EffectReceipt) (now : Z)
    : prog router_world unit :=
  let named := λ o, default "" (o ≫= rcp_provider_message_id) in
  let* stored := pget (λ w, effect_transport_receipt (env_effect_id e) (ro_store w)) in
  let provider := if str_true (named (er_transport_receipt result)) then named (er_transport_receipt result)
                  else named stored in
  if negb (str_true provider) then pret tt
  else swallow (on_ro (attach_confirmed_message_id (env_effect_id e) provider now)).

(** [_close_ambient_turn] *)
Definition close_ambient_turn (turn_id : string) (now : Z) : prog router_world unit :=
  if negb (str_true turn_id) then pret tt else
  swallow (
    let* turn := pget (λ w, get_turn turn_id (ro_store w)) in
    match turn with
    | None => pret false
    | Some t =>
        let* thread := pget (λ w, get_thread (tu_thread_id t) (ro_store w)) in
        match thread with
        | Some th => if th_kind th =?s "ambient" then on_ro (close_turn turn_id now "closed") else pret false
        | None => pret false
        end
    end).

(** ** Capacity *)

Definition WAITING_STATES : list EffectState := [queued; executing].

(** Why the chat may not send now, after the reservation was tried. *)
Definition capacity_reason (r : IntentEffectRouter) (rq : effect_request) (effect_id : string) (ck : run_clock)
    (b : SendBudget) : prog router_world (option string) :=
  let units := payload_units (rq_payload rq) in
  let* waiting := pget (λ w, count_waiting_effects (rq_channel rq) (rq_chat_id rq) WAITING_STATES (ro_store w)) in
  if sb_waiting_cap b <? Z.of_nat waiting then pret (Some "queue_capacity") else
  match ir_durable_budget r with
  | Some d =>
      let* record := on_ro (pread (get_effect effect_id)) in
      let stamp := default 0 (se_updated_ms <$> record) in
      let* decision := on_ro (budget_reserve d (rq_channel rq) (rq_chat_id rq) effect_id
                                (effect_id +:+ ":" +:+ pretty stamp) units (ck_capacity ck)) in
      pret (if bd_allowed decision then None
            else Some (if str_true (bd_reason decision) then bd_reason decision else "budget_exhausted"))
  | None =>
      λ w, let (ok, b') := send_budget_reserve b (budget_key (rq_channel rq) (rq_chat_id rq)) units
                             (ck_monotonic ck) in
           (Ok (if ok : bool then None else Some "budget_exhausted"), w <| ro_budget := Some b' |>)
  end.

(** [_capacity_block] *)
Definition capacity_block (r : IntentEffectRouter) (rq : effect_request) (effect_id : string) (ck : run_clock)
    : prog router_world (option EffectReceipt) :=
  let* budget := pget ro_budget in
  match budget with
  | None => pret None
  | Some b =>
      let* reason := capacity_reason r rq effect_id ck b in
      match reason with
      | None => pret None
      | Some reason =>
          do* on_ro (transition effect_id ["queued"] "blocked" (ck_capacity ck)
                       (evidence_map "policy" reason) None) in
          let* stored := on_ro (pread (get_effect effect_id)) in
          match stored with
          | None => pret None
          | Some _ => let* receipt := on_ro (receipt effect_id "blocked" "" None (Some reason)) in
                      pret (Some receipt)
          end
      end
  end.

(** ** [_run] *)

(** An effect that was accepted and paid for. *)
Record ready := MkReady {
  rd_effect_id : string;
  rd_envelope : EffectEnvelope;
  rd_turn : option bound_turn;
}.

Definition lift_ro {A} (f : router_world → result A) : prog router_world A := pread f.

(** The history scope and the deadline, read first. *)
Definition deadline_for (r : IntentEffectRouter) (rq : effect_request) : result Z :=
  let! _ := ex_history_metadata (ir_executor r) in
  match ir_config r with
  | Some c => Ok (pc_deadline_ms c (rq_deadline_key rq))
  | None => Raise (OtherError "AttributeError" "'NoneType' object has no attribute")
  end.

(** Refused for capacity: the reservation of a participation effect is released. *)
Definition report_blocked (r : IntentEffectRouter) (rq : effect_request) (effect_id : string)
    (refused : EffectReceipt) (ck : run_clock) : prog router_world unit :=
  match rq_admission rq, ir_ledger r with
  | Some a, Some l =>
      call_ledger l (ReleaseDelivery (pa_opportunity_id a) effect_id
        (detail_or (er_detail refused) "capacity_denied") (ck_project ck))
  | _, _ => pret tt
  end.

(** Up to the gateway's execution: bind, refuse, accept, reserve. *)
Definition run_accept (r : IntentEffectRouter) (rq : effect_request) (current : option TurnBinding)
    (ck : run_clock) (fresh : string) : prog router_world (EffectReceipt + ready) :=
  let now := ck_start ck in
  let* deadline := lift_ro (λ _, deadline_for r rq) in
  let* bound := lift_ro (bind_turn r rq current) in
  let turn := bound.2 in
  if unbound r rq turn
  then praise (EffectNotDeliveredError "no turn bound to this producer; refusing to queue an effect") else
  do* note_soft_thread_limit r (thread_id_of turn) now in
  let* e := lift_ro (λ _, EffectEnvelope_check (envelope_for r rq bound.1 turn deadline now fresh)) in
  let* receipt := accept_effect r rq e ck in
  let effect_id := er_effect_id receipt in
  do* plan_quotable_message e turn now in
  let* refused := capacity_block r rq effect_id ck in
  match refused with
  | Some b => do* report_blocked r rq effect_id b ck in pret (inl b)
  | None => pret (inr (MkReady effect_id e turn))
  end.

(** The ledger's view of the outcome of a participation effect. *)
Definition project_outcome (r : IntentEffectRouter) (rq : effect_request) (effect_id : string)
    (result : EffectReceipt) (ck : run_clock) : prog router_world unit :=
  match rq_admission rq, ir_ledger r with
  | Some a, Some l =>
      match er_transport_receipt result with
      | Some tr =>
          if er_state result =?s "sent" then
            call_ledger l (ProjectTransportAccepted (pa_opportunity_id a) effect_id
              (rcp_provider_message_id tr ≫= text_or_none)
              (detail_or (er_attempt_id result) effect_id) (ck_project ck))
          else if str_in (er_state result) ["failed"; "not_executed"; "blocked"; "cancelled"; "expired"]
          then call_ledger l (ReleaseDelivery (pa_opportunity_id a) effect_id
                 ("effect_" +:+ er_state result) (ck_project ck))
          else pret tt
      | None =>
          if str_in (er_state result) ["failed"; "not_executed"; "blocked"; "cancelled"; "expired"]
          then call_ledger l (ReleaseDelivery (pa_opportunity_id a) effect_id
                 ("effect_" +:+ er_state result) (ck_project ck))
          else pret tt
      end
  | _, _ => pret tt
  end.

(** After the gateway returned. *)
Definition conclude_run (r : IntentEffectRouter) (rq : effect_request) (d : ready) (result : EffectReceipt)
    (ck : run_clock) : prog router_world EffectReceipt :=
  do* project_outcome r rq (rd_effect_id d) result ck in
  do* confirm_quotable_message (rd_envelope d) result (ck_start ck) in
  do* close_ambient_turn (turn_id_of (rd_turn d)) (ck_start ck) in
  pret result.

(** The awaited executor, while [others] run on the store. *)
Definition await_executor (r : IntentEffectRouter) (e : EffectEnvelope) (others : db → db)
    : prog router_world exec_outcome :=
  λ w, let (answer, log) := execute (ir_executor r) e (ro_calls w) in
       (Ok (outcome_of answer), w <| ro_calls := log |> <| ro_store ::= others |>).

(** [execute_ready] of the accepted effect *)
Definition run_execute (r : IntentEffectRouter) (effect_id : string) (ck : run_clock) (attempt_uuid : string)
    (others : db → db) : prog router_world EffectReceipt :=
  let* begun := on_ro (execute_begin (ir_gateway r) effect_id (ck_begin ck) attempt_uuid) in
  match begun with
  | inl result => pret result
  | inr dsp =>
      let* outcome := await_executor r (dsp_envelope dsp) others in
      on_ro (execute_finish (ir_gateway r) effect_id dsp outcome (ck_receipt ck) (ck_end ck))
  end.

(** [_run] *)
Definition router_run (r : IntentEffectRouter) (rq : effect_request) (current : option TurnBinding)
    (ck : run_clock) (fresh attempt_uuid : string) (others : db → db) : prog router_world EffectReceipt :=
  let* accepted := run_accept r rq current ck fresh in
  match accepted with
  | inl refused => pret refused
  | inr d =>
      let* result := run_execute r (rd_effect_id d) ck attempt_uuid others in
      conclude_run r rq d result ck
  end.

(** ** The guard in front of the bus *)

(** [effect_covers] *)
Definition effect_covers (effect_id channel chat_id : string) (s : db) : result bool :=
  let! stored := get_effect effect_id s in
  Ok (match stored ≫= se_target with
      | Some t => (tgt_channel t =?s channel) && (tgt_chat_id t =?s chat_id)
      | None => false
      end).

(** [managed_outbound_guard] *)
Definition managed_outbound_guard (r : IntentEffectRouter) (acks : option OwnerControlAcknowledgements)
    (m : OutboundMessage) (s : db) : result (bool * string) :=
  let channel := om_channel m in
  let chat_id := om_chat_id m in
  if match acks with
     | Some a => ack_matches_metadata a (om_metadata m) channel chat_id (om_content m)
     | None => false
     end then Ok (true, "owner_control_ack")
  else if negb (manages r channel chat_id) then Ok (true, "unmanaged")
  else
    let effect_id := str_or_empty (dict_get EFFECT_PROVENANCE_KEY (om_metadata m)) in
    if negb (str_true effect_id) then Ok (false, "legacy_outbound_without_effect")
    else let! covered := effect_covers effect_id channel chat_id s in
         Ok (if covered : bool then (true, "effect") else (false, "forged_effect_provenance")).

(** ** Producers *)

(** [str(metadata.get("message_id") or "turn")] *)
Definition source_of (metadata : dict) : string :=
  let m := str_or_empty (dict_get "message_id" metadata) in if str_true m then m else "turn".

Definition trace_of (metadata : dict) (source : string) : string :=
  let t := str_or_empty (dict_get "trace_id" metadata) in if str_true t then t else source.

(** One logical action: head, chat, source, digest of the payload. *)
Definition operation_key (head channel chat_id source : string) (p : EffectPayload) : string :=
  head +:+ ":" +:+ channel +:+ ":" +:+ chat_id +:+ ":" +:+ source +:+ ":" +:+
  hash_prefix 12 (JObj (payload_to_dict p)).

(** [submit_message] as a request *)
Definition message_request (m : OutboundMessage) (principal capability : string) (p : EffectPayload)
    (effect_id : option string) (a : option ParticipationAdmission) : effect_request :=
  let source := source_of (om_metadata m) in
  MkRequest (om_channel m) (om_chat_id m) (text_or_none (str_or_empty (dict_get "message_id" (om_metadata m))))
    principal p (operation_key capability (om_channel m) (om_chat_id m) source p)
    (trace_of (om_metadata m) source)
    (if capability =?s "send_reaction" then "semantic_reaction_ms" else "reactive_ms") effect_id false a.

(** What surrounds one run: the current turn, the clock, fresh ids, the other tasks. *)
Record surroundings := MkSurroundings {
  su_current : option TurnBinding;
  su_clock : run_clock;
  su_fresh : string;
  su_attempt : string;
  su_others : db → db;
}.

Definition run_in (r : IntentEffectRouter) (rq : effect_request) (v : surroundings)
    : prog router_world EffectReceipt :=
  router_run r rq (su_current v) (su_clock v) (su_fresh v) (su_attempt v) (su_others v).

Definition submit_message (r : IntentEffectRouter) (m : OutboundMessage) (principal capability : string)
    (p : EffectPayload) (effect_id : option string) (a : option ParticipationAdmission) (v : surroundings)
    : prog router_world EffectReceipt :=
  run_in r (message_request m principal capability p effect_id a) v.

(** The payload of an outbound intent: deletes are not classified there. *)
Definition intent_payload (event : OutboundMessage) : EffectPayload :=
  match dict_get "forward_message" (om_metadata event) with
  | Some (JObj d) => forward_payload d
  | _ => match om_media event with
         | [] => TextPayload (om_content event) (om_reply_to event)
         | media => MediaPayload media (text_or_none (om_content event))
         end
  end.

(** [submit_outbound]: [false] hands the intent back to the legacy path *)
Definition submit_outbound (r : IntentEffectRouter) (event : OutboundMessage) (principal : string)
    (v : surroundings) : prog router_world bool :=
  if negb (manages r (om_channel event) (om_chat_id event)) then pret false else
  let p := intent_payload event in
  let source := source_of (om_metadata event) in
  let* result := run_in r (MkRequest (om_channel event) (om_chat_id event) None principal p
                    (operation_key "outbound" (om_channel event) (om_chat_id event) source p)
                    (trace_of (om_metadata event) source) "reactive_ms" None false None) v in
  match p with
  | ForwardPayload _ _ =>
      if str_in (er_state result) ["failed"; "blocked"; "expired"; "cancelled"]
      then praise (OtherError "ForwardDispatchError" "forward was not sent") else pret true
  | _ => pret true
  end.

(** [SendReactionIntent] *)
Record SendReactionIntent := MkReactionIntent {
  ri_channel : string;
  ri_chat_id : string;
  ri_message_id : string;
  ri_emoji : string;
  ri_participant_jid : option string;
  ri_origin : string;
  ri_reason : string;
}.

Definition reaction_request (i : SendReactionIntent) (emoji principal : string) : effect_request :=
  MkRequest (ri_channel i) (ri_chat_id i) (Some (ri_message_id i)) principal
    (ReactionPayload (ri_message_id i) emoji (ri_participant_jid i) (text_or_none (ri_reason i)))
    ("reaction:" +:+ ri_channel i +:+ ":" +:+ ri_chat_id i +:+ ":" +:+ ri_message_id i +:+ ":" +:+ emoji)
    (ri_message_id i) "semantic_reaction_ms" None true None.

Definition allowed_emojis (r : IntentEffectRouter) : list string :=
  match ir_config r with Some c => pc_reaction_emojis c | None => [] end.

(** [submit_reaction]: [true] means "do not publish this yourself" *)
Definition submit_reaction (has_word_char : string → bool) (r : IntentEffectRouter) (i : SendReactionIntent)
    (principal : string) (v : surroundings) : prog router_world bool :=
  let emoji := if ri_origin i =?s SYSTEM_ORIGIN then Some (ri_emoji i)
               else allowed_reaction has_word_char (ri_emoji i) (allowed_emojis r) in
  match emoji with
  | None => pret true
  | Some emoji =>
      if negb (manages r (ri_channel i) (ri_chat_id i)) then pret false
      else do* run_in r (reaction_request i emoji principal) v in pret true
  end.

(** The plain bus, logged like every transport. *)
Definition publish (r : IntentEffectRouter) (m : OutboundMessage) : prog router_world unit :=
  λ w, (ex_bus_outbound (ir_executor r) m, w <| ro_calls ::= (λ l, l ++ [SentBus m]) |>).

(** [ManagedOutboundDispatcher.__call__] *)
Definition dispatch_outbound (r : IntentEffectRouter) (m : OutboundMessage) (principal : string)
    (v : surroundings) : prog router_world unit :=
  if negb (manages r (om_channel m) (om_chat_id m)) then publish r m else
  let (capability, p) := classify_outbound m in
  let* receipt := submit_message r m principal capability p None None v in
  if negb (er_state receipt =?s "sent")
  then praise (EffectNotDeliveredError ("effect not delivered (state=" +:+ er_state receipt +:+ ", detail=" +:+
                 detail_or (er_detail receipt) "-" +:+ ")"))
  else pret tt.

Definition no_principal (source : string) : py_error :=
  EffectNotDeliveredError ("system source " +:+ repr_str source +:+ " has no registered service principal").

Definition not_enabled : py_error :=
  EffectNotDeliveredError "target is not enabled for the managed effect path".

(** The message a service producer hands to [submit_message]. *)
Definition service_message (source operation_ref channel chat_id content : string) (reply_to : option string)
    (media : list string) : OutboundMessage :=
  MkOutbound channel chat_id content reply_to media
    [("message_id", JStr operation_ref); ("service_source", JStr source)].

(** [isinstance(effect_id, str) and effect_id.strip()] *)
Definition caller_id_given (effect_id : option string) : bool :=
  match effect_id with Some id => str_true (py_strip id) | None => false end.

(** [ServiceEffectProducer.send_reaction] *)
Definition service_send_reaction (r : IntentEffectRouter) (source operation_ref channel chat_id message_id emoji : string)
    (effect_id : option string) (require_managed : bool) (a : option ParticipationAdmission) (v : surroundings)
    : prog router_world EffectReceipt :=
  let speakup := source =?s "speakup" in
  if speakup && is_none a
  then praise (EffectNotDeliveredError "managed speakup reaction requires a participation admission")
  else if speakup && negb (caller_id_given effect_id)
  then praise (EffectNotDeliveredError "managed speakup reaction requires a caller effect id")
  else if (require_managed || speakup) && negb (caller_id_given effect_id)
  then praise (EffectNotDeliveredError "managed reaction effect requires a caller effect id")
  else if negb (manages r channel chat_id) then praise not_enabled
  else match principal_of_source source with
  | None => praise (no_principal source)
  | Some principal =>
      submit_message r (service_message source operation_ref channel chat_id "" None []) principal
        "send_reaction" (ReactionPayload message_id emoji None None) effect_id a v
  end.

(** [ServiceEffectProducer.send_media] *)
Definition service_send_media (r : IntentEffectRouter) (source operation_ref channel chat_id media_path : string)
    (effect_id : option string) (a : option ParticipationAdmission) (v : surroundings)
    : prog router_world EffectReceipt :=
  if is_none a || negb (caller_id_given effect_id)
  then praise (EffectNotDeliveredError "managed media effect requires a caller effect id and an admission")
  else if negb (manages r channel chat_id) then praise not_enabled
  else match principal_of_source source with
  | None => praise (no_principal source)
  | Some principal =>
      submit_message r (service_message source operation_ref channel chat_id "" None [media_path]) principal
        "send_media" (MediaPayload [media_path] None) effect_id a v
  end.

(** [ServiceEffectProducer.send]: [None] means the legacy path was used *)
Definition service_send (r : IntentEffectRouter) (source operation_ref channel chat_id content capability : string)
    (reply_to effect_id : option string) (require_managed : bool) (a : option ParticipationAdmission)
    (v : surroundings) : prog router_world (option EffectReceipt) :=
  if require_managed && is_none (effect_id ≫= text_or_none)
  then praise (EffectNotDeliveredError "managed service effect requires a caller effect id")
  else if negb (manages r channel chat_id) then
    if require_managed || is_some a then praise not_enabled
    else let* history := lift_ro (λ _, ex_history_metadata (ir_executor r)) in
         do* publish r (MkOutbound channel chat_id content reply_to [] history) in pret None
  else match principal_of_source source with
  | None => praise (no_principal source)
  | Some principal =>
      let* receipt := submit_message r (service_message source operation_ref channel chat_id content reply_to [])
                        principal capability (TextPayload content reply_to) effect_id a v in
      pret (Some receipt)
  end.

End Router.
