(* ===== verification/RouterProps.v ===== *)
(** * RouterProps

    The dispatch line at work: every run of the router is a run of the outbox with at most
    one transport call, paid for and claimed; retries do not send again; producers without
    a turn are refused; and the guard in front of the bus lets only proven messages pass. *)

From Stdlib Require Import ZArith Lia.
From S2P Require Import Prelude Tables Json Models Schema Outbox OutboxFacts OutboxSpec OutboxRefine.
From S2P Require Import Quiet Fixtures OutboxProps ThreadStore ThreadProps Mailbox Budget Journal Receipts Gateway.
From S2P Require Import Retention Routing Admissions Reconcile Registry QuietOps Actor Responder Executor Router.

Section RouterProps.
  Context `{Sha256} `{EffectAuthorizer}.

(** ** Programs that reach no transport *)

(** The outbox moves by abstract steps, none of them a requeue, and nothing is sent. *)
Class Calm {A} (p : prog router_world A) : Prop := is_calm : ∀ w, outbox_inv (ro_store w) →
  ro_calls (p w).2 = ro_calls w ∧ ∃ ls, outbox_steps ls (ro_store w) (ro_store (p w).2) ∧ no_requeue ls.

Lemma calm_same {A} (p : prog router_world A) :
  (∀ w, ro_calls (p w).2 = ro_calls w ∧ ro_store (p w).2 = ro_store w) → Calm p.
Proof.
  intros Hp w _. destruct (Hp w) as [-> ->]. split; [done|]. exists []. split; [by constructor|apply no_requeue_nil].
Qed.

#[local] Instance calm_ret {A} (a : A) : Calm (pret a).
Proof. by apply calm_same. Qed.
#[local] Instance calm_raise {A} err : Calm (@praise router_world A err).
Proof. by apply calm_same. Qed.
#[local] Instance calm_get {A} (f : router_world → A) : Calm (pget f).
Proof. by apply calm_same. Qed.
#[local] Instance calm_lift {A} (f : router_world → result A) : Calm (lift_ro f).
Proof. by apply calm_same. Qed.
#[local] Instance calm_ledger l c : Calm (call_ledger l c).
Proof. by apply calm_same. Qed.

#[local] Instance calm_on_ro {A} (p : prog db A) : Quiet p → Calm (on_ro p).
Proof.
  intros Hp w Hi. destruct (Hp (ro_store w) Hi) as (ls & H1 & H2). unfold on_ro.
  destruct (p (ro_store w)) as [r s]. split; [done|]. by exists ls.
Qed.

#[local] Instance calm_bind {A B} (m : prog router_world A) (k : A → prog router_world B) :
  Calm m → (∀ a, Calm (k a)) → Calm (pbind m k).
Proof.
  intros Hm Hk w Hi. destruct (Hm w Hi) as (Hc & ls & Hs & Hn). unfold pbind.
  destruct (m w) as [[a|err] w1]; [|by split; [|exists ls]].
  destruct (Hk a w1) as (Hc2 & ls2 & Hs2 & Hn2); [by eapply outbox_steps_inv|].
  split; [by rewrite Hc2|]. exists (ls ++ ls2). split; [by eapply outbox_steps_app|by apply no_requeue_app].
Qed.

#[local] Instance calm_swallow {A} (p : prog router_world A) : Calm p → Calm (swallow p).
Proof.
  intros Hp w Hi. destruct (Hp w Hi) as (Hc & ls & Hs & Hn). unfold swallow.
  destruct (p w) as [[a|[]] w1]; (split; [exact Hc|by exists ls]).
Qed.

#[local] Hint Extern 5 (Calm (match ?x with _ => _ end)) => destruct x : typeclass_instances.
Ltac solve_calm := intros; cbv beta zeta; apply _.

#[local] Instance calm_soft_limit r th now : Calm (note_soft_thread_limit r th now).
Proof. apply calm_same. intros w. unfold note_soft_thread_limit. by repeat case_match. Qed.
#[local] Instance calm_accept r rq e ck : Calm (accept_effect r rq e ck).
Proof. unfold accept_effect. solve_calm. Qed.
#[local] Instance calm_plan e t now : Calm (plan_quotable_message e t now).
Proof. unfold plan_quotable_message. solve_calm. Qed.
#[local] Instance calm_confirm e res now : Calm (confirm_quotable_message e res now).
Proof. unfold confirm_quotable_message. solve_calm. Qed.
#[local] Instance calm_close_ambient t now : Calm (close_ambient_turn t now).
Proof. unfold close_ambient_turn. solve_calm. Qed.
#[local] Instance calm_reason r rq e ck b : Calm (capacity_reason r rq e ck b).
Proof.
  unfold capacity_reason. apply calm_bind; [apply _|]. intros n. case_match; [apply _|].
  case_match; [solve_calm|]. apply calm_same. intros w. by case_match.
Qed.
#[local] Instance calm_capacity r rq e ck : Calm (capacity_block r rq e ck).
Proof. unfold capacity_block. solve_calm. Qed.
#[local] Instance calm_run_accept r rq cur ck f : Calm (run_accept r rq cur ck f).
Proof. unfold run_accept, report_blocked. solve_calm. Qed.
#[local] Instance calm_finish r rq d res ck : Calm (conclude_run r rq d res ck).
Proof. unfold conclude_run, project_outcome. solve_calm. Qed.

(** ** Every run is a run of the outbox *)

(** What the others do is a run of the outbox too. *)
Definition well_behaved (others : db → db) : Prop :=
  ∀ s, outbox_inv s → ∃ ls, outbox_steps ls s (others s) ∧ no_requeue ls.

(** Each call was made under a claim of the effect it is for, and it is the call that the
    checked envelope of that effect asks for. *)
Definition backed (x : BusEffectExecutor) (ls : list label) (c : transport_call) : Prop :=
  ∃ e d, LClaim (env_effect_id e) ∈ ls ∧ dispatched x e d ∧ cleared x d ∧ carries x d c.

(** A program of the router as outbox steps that account for its transport calls. *)
Definition accounted (x : BusEffectExecutor) {A} (p : prog router_world A) : Prop := ∀ w,
  outbox_inv (ro_store w) →
  ∃ ls sent, outbox_steps ls (ro_store w) (ro_store (p w).2) ∧ no_requeue ls ∧
    ro_calls (p w).2 = ro_calls w ++ sent ∧ (length sent ≤ 1)%nat ∧ ∀ c, c ∈ sent → backed x ls c.

Lemma nothing_sent x ls w w' :
  outbox_steps ls (ro_store w) (ro_store w') → no_requeue ls → ro_calls w' = ro_calls w →
  ∃ ls sent, outbox_steps ls (ro_store w) (ro_store w') ∧ no_requeue ls ∧ ro_calls w' = ro_calls w ++ sent ∧
    (length sent ≤ 1)%nat ∧ ∀ c, c ∈ sent → backed x ls c.
Proof.
  intros Hs Hn Hc. exists ls, []. rewrite app_nil_r.
  split; [done|]. split; [done|]. split; [done|]. split; [simpl; lia|set_solver].
Qed.

Lemma calm_accounted {A} x (p : prog router_world A) : Calm p → accounted x p.
Proof. intros Hp w Hi. destruct (Hp w Hi) as (Hc & ls & Hs & Hn). by eapply nothing_sent. Qed.

Lemma backed_mono x ls ls' c : (∀ l, l ∈ ls → l ∈ ls') → backed x ls c → backed x ls' c.
Proof. intros Hl (e & d & He & H'). exists e, d. split; [by apply Hl|done]. Qed.

Lemma accounted_calm_l {A B} x (m : prog router_world A) (k : A → prog router_world B) :
  Calm m → (∀ a, accounted x (k a)) → accounted x (pbind m k).
Proof.
  intros Hm Hk w Hi. destruct (Hm w Hi) as (Hc & l1 & Hs & Hn). unfold pbind.
  destruct (m w) as [[a|err] w1]; cbn [snd] in *.
  - destruct (Hk a w1) as (l2 & sent & Hs2 & Hn2 & Hc2 & Hlen & Hb); [by eapply outbox_steps_inv|].
    exists (l1 ++ l2), sent. rewrite Hc2, Hc. split_and!; try done; [by eapply outbox_steps_app|by apply no_requeue_app|].
    intros c Hin. eapply backed_mono; [|by apply Hb]. set_solver.
  - by eapply nothing_sent.
Qed.

Lemma accounted_calm_r {A B} x (m : prog router_world A) (k : A → prog router_world B) :
  accounted x m → (∀ a, Calm (k a)) → accounted x (pbind m k).
Proof.
  intros Hm Hk w Hi. destruct (Hm w Hi) as (l1 & sent & Hs & Hn & Hc & Hlen & Hb). unfold pbind.
  destruct (m w) as [[a|err] w1]; cbn [snd] in *; [|by exists l1, sent].
  destruct (Hk a w1) as (Hc2 & l2 & Hs2 & Hn2); [by eapply outbox_steps_inv|].
  exists (l1 ++ l2), sent. rewrite Hc2, Hc. split_and!; try done; [by eapply outbox_steps_app|by apply no_requeue_app|].
  intros c Hin. eapply backed_mono; [|by apply Hb]. set_solver.
Qed.

(** The executor's call, at the store the claim left. *)
Lemma await_spec r e others w :
  ∃ sent, ro_calls (await_executor r e others w).2 = ro_calls w ++ sent ∧ (length sent ≤ 1)%nat ∧
    ro_store (await_executor r e others w).2 = others (ro_store w) ∧
    ∀ c, c ∈ sent → ∃ d, dispatched (ir_executor r) e d ∧ cleared (ir_executor r) d ∧ carries (ir_executor r) d c.
Proof.
  unfold await_executor. destruct (execute _ _ _) as [res log] eqn:E.
  apply execute_cases in E as [[-> _]|(c & d & -> & _ & Hd & Hcl & Hca & _)].
  - exists []. rewrite app_nil_r. split_and!; try done; [simpl; lia|set_solver].
  - exists [c]. split_and!; try done. intros c' Hin. assert (c' = c) as -> by set_solver. by exists d.
Qed.

Lemma run_execute_accounted r e ck uuid others :
  well_behaved others → accounted (ir_executor r) (run_execute r e ck uuid others).
Proof.
  intros Ho w Hi. destruct (run_execute r e ck uuid others w) as [fin w'] eqn:Erun. cbn [snd].
  unfold run_execute, pbind at 1, on_ro at 1 in Erun.
  pose proof ((_ : Quiet (execute_begin (ir_gateway r) e (ck_begin ck) uuid)) (ro_store w) Hi) as (l0 & Hs0 & Hn0).
  destruct (execute_begin _ _ _ _ (ro_store w)) as [[[res|dsp]|err] s1] eqn:E; cbn [snd] in *.
  1,3: injection Erun as _ <-; by eapply nothing_sent; [exact Hs0|exact Hn0|].
  apply execute_begin_dispatch in E as (_ & st & dec & s0 & Hg & _ & _ & Henv & _ & _ & Hs1 & Hc & _).
  assert (env_effect_id (dsp_envelope dsp) = e) as He.
  { apply get_effect_inv in Hg as (row & Hrow & (Hid & _)%effect_from_row_inv).
    apply to_envelope_inv in Henv as (-> & _). rewrite Hid. by apply effect_row_of_Some in Hrow as [_ ?]. }
  destruct (record_decision_frame dec (ro_store w)) as [Hf1 Hf2]. rewrite <- Hs1 in Hf1, Hf2.
  assert (outbox_inv s0) as Hi0 by (by eapply outbox_inv_ext).
  destruct (claim_effect_prog e (gw_worker_id (ir_gateway r)) (ck_begin ck) (gw_lease_ms (ir_gateway r))
    (Some (dec_policy_version dec)) uuid s0 Hi0) as (l1 & Hs & [[_ ->]|[Hne _]]); [|by rewrite Hc in Hne].
  rewrite Hc in Hs. cbn [snd] in Hs.
  set (w1 := w <| ro_store := s1 |>).
  destruct (await_spec r (dsp_envelope dsp) others w1) as (sent & Hcalls & Hlen & Hst & Hsent).
  unfold pbind in Erun. fold w1 in Erun.
  destruct (await_executor r (dsp_envelope dsp) others w1) as [[outcome|err] w2] eqn:Ew; cbn [snd] in *.
  2:{ unfold await_executor in Ew. by destruct (execute _ _ _). }
  assert (outbox_inv s1) as Hi1 by (by eapply outbox_steps_inv).
  destruct (Ho s1 Hi1) as (l2 & Hs2 & Hn2).
  assert (outbox_inv (ro_store w2)) as Hi2 by (rewrite Hst; by eapply outbox_steps_inv).
  destruct ((_ : Calm (on_ro (execute_finish (ir_gateway r) e dsp outcome (ck_receipt ck) (ck_end ck)))) w2 Hi2)
    as (Hc3 & l3 & Hs3 & Hn3). rewrite Erun, Hst in Hs3. rewrite Erun in Hc3. cbn [snd] in *.
  assert (outbox_steps [] (ro_store w) s0) as Hnil by (by constructor).
  exists ([] ++ [LClaim e] ++ l2 ++ l3), sent. split_and!.
  - eapply outbox_steps_app; [exact Hnil|]. eapply outbox_steps_app; [exact Hs|]. by eapply outbox_steps_app.
  - apply no_requeue_app; [apply no_requeue_nil|]. apply no_requeue_app; [|by apply no_requeue_app].
    apply no_requeue_Forall. by repeat constructor.
  - by rewrite Hc3.
  - done.
  - intros c (d & H1 & H2 & H3)%Hsent. exists (dsp_envelope dsp), d. rewrite He. split_and!; try done. set_solver.
Qed.

Lemma run_accounted r rq current ck fresh uuid others :
  well_behaved others → accounted (ir_executor r) (router_run r rq current ck fresh uuid others).
Proof.
  intros Ho. unfold router_run. apply accounted_calm_l; [apply _|]. intros [refused|d].
  - apply calm_accounted, _.
  - apply accounted_calm_r; [by apply run_execute_accounted|apply _].
Qed.

(** C16: The router refines the outbox. Whatever a producer asks for, one run of the router,
    with anything well behaved in between, moves the store by abstract outbox steps
    without putting finished work back to [queued]; it makes at most one transport call,
    and that call is made under a claim of its effect, after the checks passed, as the
    checked envelope asks for it. *)
Theorem run_refines_outbox r rq current ck fresh uuid others :
  well_behaved others → accounted (ir_executor r) (router_run r rq current ck fresh uuid others).
Proof. apply run_accounted. Qed.

(** ** Capacity *)

(** What the budgets of a router stand on. *)
Definition spending (w : router_world) : option SendBudget * list budget_row :=
  (ro_budget w, send_budget_reservations (ro_store w)).

Lemma spending_on_ro {A} (p : prog db A) : keeps send_budget_reservations p → keeps spending (on_ro p).
Proof. intros Hp w. unfold on_ro, spending. specialize (Hp (ro_store w)). destruct (p (ro_store w)). cbn in *. by rewrite Hp. Qed.

Lemma spending_swallow {A} (p : prog router_world A) : keeps spending p → keeps spending (swallow p).
Proof. intros Hp w. specialize (Hp w). unfold swallow. destruct (p w) as [[a|[]] w1]; exact Hp. Qed.

Lemma enqueue_unspent a st : keeps send_budget_reservations (enqueue_effect a st).
Proof.
  intros s. unfold enqueue_effect, write. do 2 (destruct (negb _); [done|]).
  destruct (state_of_str st); [|done]. destruct (_ <? 1); [done|]. destruct (negb _); [done|].
  match goal with |- context [enqueue_effect_in_connection ?a s] =>
    destruct (enqueue_cases a s) as [(err & ->)|[(r & _ & ->)|(body & tg & _ & _ & _ & _ & ->)]] end; done.
Qed.

Lemma enqueue_participation_unspent e i d now :
  keeps send_budget_reservations (enqueue_participation_effect e i d now).
Proof.
  intros s. unfold enqueue_participation_effect, write.
  destruct (negb _); [done|]. destruct (_ || _); [done|]. destruct (negb _); [done|]. destruct (negb _); [done|].
  destruct (_ || _); [done|]. cbv zeta.
  destruct (by_id _ _ _) as [row|]; [destruct (_ =?s _); [|done]|]; cbn [rbind].
  all: match goal with |- context [enqueue_effect_in_connection ?a ?s1] =>
    destruct (enqueue_cases a s1) as [(err & ->)|[(r & _ & ->)|(body & tg & _ & _ & _ & _ & ->)]] end; done.
Qed.

Lemma submit_unspent e now : keeps send_budget_reservations (submit e now).
Proof. apply keeps_bind; [apply enqueue_unspent|]. intros i. by apply keeps_bind. Qed.

Lemma accept_unspent r rq e ck : keeps spending (accept_effect r rq e ck).
Proof.
  unfold accept_effect. destruct (rq_admission rq) as [a|]; [|apply spending_on_ro, submit_unspent].
  destruct (ir_ledger r) as [l|]; [|done]. destruct (negb _); [done|].
  apply keeps_bind; [|intros i; by apply keeps_bind; [|intros ?]]. apply spending_on_ro.
  apply keeps_bind; [apply enqueue_participation_unspent|]. intros i. by apply keeps_bind.
Qed.

Lemma plan_unspent e t now : keeps spending (plan_quotable_message e t now).
Proof.
  assert (∀ th a b c d, keeps send_budget_reservations (register_thread_message th now "out" a b c d)) as Hr.
  { intros. intros s. unfold register_thread_message, write. cbv zeta.
    destruct (row_exists _ _); [done|]. by destruct (row_exists _ _). }
  unfold plan_quotable_message. destruct (negb _); [done|].
  destruct (env_payload e); try done; by apply spending_swallow, spending_on_ro.
Qed.

Lemma soft_limit_unspent r th now : keeps spending (note_soft_thread_limit r th now).
Proof. intros w. unfold note_soft_thread_limit. by repeat case_match. Qed.

(** An accepted effect is stored. *)
Lemma enqueue_conn_stored a s id s' :
  enqueue_effect_in_connection a s = Ok (id, s') → effect_state id s' ≠ None.
Proof.
  destruct (enqueue_cases a s) as [(err & ->)|[(r & Hr & ->)|(body & tg & _ & He & _ & _ & ->)]]; [done|..];
    intros [= <- <-]; unfold effect_state, effect_row_of.
  - apply by_id_Some_inv in Hr as [Hr _]. destruct (by_id _ _ _) eqn:E; [done|]. by eapply by_id_None_inv in E.
  - cbn [append_evidence effects set_field]. rewrite by_id_insert. destruct (by_id _ _ _); [done|].
    cbn [new_effect_row eff_effect_id]. by rewrite str_eqb_refl.
Qed.

Lemma enqueue_stored a st s id s' : enqueue_effect a st s = (Ok id, s') → effect_state id s' ≠ None.
Proof.
  unfold enqueue_effect, write. do 2 (destruct (negb _); [done|]). destruct (state_of_str st); [|done].
  destruct (_ <? 1); [done|]. destruct (negb _); [done|].
  destruct (enqueue_effect_in_connection _ _) as [[i s1]|] eqn:E; [|done]. intros [= <- <-].
  by eapply enqueue_conn_stored.
Qed.

Lemma enqueue_participation_stored e i d now s id s' :
  enqueue_participation_effect e i d now s = (Ok id, s') → effect_state id s' ≠ None.
Proof.
  unfold enqueue_participation_effect, write.
  destruct (negb _); [done|]. destruct (_ || _); [done|]. destruct (negb _); [done|]. destruct (negb _); [done|].
  destruct (_ || _); [done|]. cbv zeta.
  destruct (by_id _ _ _) as [row|]; [destruct (_ =?s _); [|done]|]; cbn [rbind].
  all: match goal with |- context [enqueue_effect_in_connection ?a ?s1] =>
    destruct (enqueue_effect_in_connection a s1) as [[i' s2]|] eqn:E end; [|done]; intros [= <- <-];
    by eapply enqueue_conn_stored.
Qed.

Lemma accept_stored r rq e ck w rc w' :
  accept_effect r rq e ck w = (Ok rc, w') → effect_state (er_effect_id rc) (ro_store w') ≠ None.
Proof.
  unfold accept_effect, on_ro. destruct (rq_admission rq) as [a|].
  - destruct (ir_ledger r) as [l|]; [|done]. destruct (negb _); [done|].
    intros (rc' & w1 & E1 & E)%pbind_Ok. apply pbind_Ok in E as (u & w2 & [= _ <-] & [= <- <-]).
    destruct (submit_participation _ _ _ _ _) as [[x|] s1] eqn:Es; [|done]. injection E1 as -> <-.
    apply pbind_Ok in Es as (id & s2 & Hid & Es). apply pbind_Ok in Es as (st & s3 & [= _ <-] & [= <- <-]).
    by eapply enqueue_participation_stored.
  - destruct (submit _ _ _) as [[x|] s1] eqn:Es; [|done]. intros [= <- <-].
    apply pbind_Ok in Es as (id & s2 & Hid & Es). apply pbind_Ok in Es as (st & s3 & [= _ <-] & [= <- <-]).
    by eapply enqueue_stored.
Qed.

Lemma plan_effects e t now w : effects (ro_store (plan_quotable_message e t now w).2) = effects (ro_store w).
Proof.
  unfold plan_quotable_message. destruct (negb _); [done|].
  destruct (env_payload e); try done; unfold swallow, on_ro;
    match goal with |- context [register_thread_message ?th ?n ?d ?a ?b ?c ?m ?s] =>
      pose proof ((_ : Silent (register_thread_message th n d a b c m)) s) as [He _];
      destruct (register_thread_message th n d a b c m s) as [[?|[]] ?] end; exact He.
Qed.

(** An accepted request passed the capacity check with the budgets as they were. *)
Lemma run_accept_inv r rq cur ck f w out w' :
  outbox_inv (ro_store w) → run_accept r rq cur ck f w = (Ok out, w') →
  ∃ id refused w1 w2, capacity_block r rq id ck w1 = (Ok refused, w2) ∧ spending w1 = spending w ∧
    ro_calls w1 = ro_calls w ∧ outbox_inv (ro_store w1) ∧ effect_state id (ro_store w1) ≠ None ∧
    ro_store w' = ro_store w2 ∧ ro_calls w' = ro_calls w2 ∧
    match refused with Some b => out = inl b | None => ∃ e t, out = inr (MkReady id e t) end.
Proof.
  intros Hi E. unfold run_accept, lift_ro, pread in E.
  apply pbind_Ok in E as (dl & wa & [= _ <-] & E). apply pbind_Ok in E as (bound & wa & [= _ <-] & E).
  destruct (unbound _ _ _); [done|]. apply pbind_Ok in E as ([] & wa & E1 & E).
  apply pbind_Ok in E as (e & wb & [= _ <-] & E). apply pbind_Ok in E as (rc & wb & E2 & E).
  apply pbind_Ok in E as ([] & wc & E3 & E). apply pbind_Ok in E as (refused & wd & E4 & E).
  assert (∀ A (p : prog router_world A) x v v', Calm p → keeps spending p → p v = (Ok x, v') →
    outbox_inv (ro_store v) → spending v' = spending v ∧ ro_calls v' = ro_calls v ∧ outbox_inv (ro_store v')) as Hstep.
  { intros A p x v v' Hc Hk Ep Hv. destruct (Hc v Hv) as (H1 & ls & H2 & _). specialize (Hk v). rewrite Ep in *.
    split; [done|]. split; [done|]. by eapply outbox_steps_inv. }
  destruct (Hstep _ _ _ _ _ _ (soft_limit_unspent _ _ _) E1 Hi) as (P1 & C1 & I1).
  destruct (Hstep _ _ _ _ _ _ (accept_unspent _ _ _ _) E2 I1) as (P2 & C2 & I2).
  destruct (Hstep _ _ _ _ _ _ (plan_unspent _ _ _) E3 I2) as (P3 & C3 & I3).
  exists (er_effect_id rc), refused, wc, wd. split; [done|]. split; [congruence|]. split; [congruence|]. split; [done|].
  split.
  { pose proof (plan_effects e bound.2 (ck_start ck) wb) as Hp. rewrite E3 in Hp. cbn [snd] in Hp.
    rewrite (effect_state_ext _ _ _ Hp). by eapply accept_stored. }
  destruct refused as [b|]; [|injection E as <- <-; eauto 10].
  apply pbind_Ok in E as ([] & we & E5 & [= <- <-]). unfold report_blocked in E5.
  repeat (case_match; try by injection E5 as <-). by injection E5 as _ <-.
Qed.

Lemma rowcount_update {R} (p q : R → bool) g (t : list R) :
  (rowcount p t ≤ rowcount p (update q g t) + rowcount q t)%nat.
Proof.
  unfold rowcount, select, update. induction t as [|x t IH]; [done|]. simpl.
  destruct (q x), (p x); simpl; try destruct (p (g x)); simpl; lia.
Qed.

(** Refusing takes the effect out of the queue, and at most it off the waiting effects. *)
Lemma refuse_spec id now reason channel chat_id s ok s' :
  outbox_inv s → transition id ["queued"] "blocked" now (evidence_map "policy" reason) None s = (Ok ok, s') →
  effect_state id s' ≠ Some queued ∧ (effect_state id s' = None → effect_state id s = None) ∧
  send_budget_reservations s' = send_budget_reservations s ∧
  (count_waiting_effects channel chat_id WAITING_STATES s ≤
     count_waiting_effects channel chat_id WAITING_STATES s' + 1)%nat.
Proof.
  intros Hi E. pose proof (inv_rows _ Hi) as Hr. unfold transition, write in E.
  destruct (effect_row_of id s) as [row|] eqn:Erow.
  2:{ injection E as _ <-. unfold effect_state. rewrite Erow. split_and!; [done|done|done|lia]. }
  destruct (str_in (state_str (eff_state row)) ["queued"]) eqn:Eq; cbn [negb] in E.
  2:{ injection E as _ <-. split_and!; [|done|done|lia]. rewrite (effect_state_of_row _ _ _ Erow).
      intros [= Hq]. by rewrite Hq in Eq. }
  apply str_in_spec in Eq. assert (eff_state row = queued) as Hq by (destruct (eff_state row); set_solver).
  destruct (validate_transition _ _ _ _ _) as [[]|]; [|done]. cbn [rbind] in E.
  rewrite (guarded_rowcount _ _ row) in E; [|by apply Hi|done|done]. cbn [Nat.eqb negb] in E.
  injection E as _ <-. split_and!.
  - by rewrite (effect_state_moved id row blocked now s).
  - by rewrite (effect_state_moved id row blocked now s).
  - done.
  - unfold count_waiting_effects.
    match goal with |- (rowcount ?p _ ≤ rowcount _ (effects ?x) + 1)%nat =>
      change (effects x) with (moved_effects id (eff_state row) blocked now (effects s)) end.
    unfold moved_effects. cbv zeta.
    match goal with |- (rowcount ?p ?t ≤ rowcount ?p (update ?q ?g ?t) + 1)%nat =>
      pose proof (rowcount_update p q g t) as Hle end.
    rewrite (guarded_rowcount id s row (eff_state row)) in Hle; [exact Hle|by apply Hi|done|done].
Qed.

Definition waiting_in (rq : effect_request) (s : db) : Z :=
  Z.of_nat (count_waiting_effects (rq_channel rq) (rq_chat_id rq) WAITING_STATES s).

(** The attempt is paid for: by an earlier reservation of it, or by a new one. *)
Definition paid (rq : effect_request) (id : string) (now : Z) (s s' : db) : Prop :=
  ∃ (stamp : Z) row, row ∈ send_budget_reservations s' ∧ bud_attempt_id row = id +:+ ":" +:+ pretty stamp ∧
    (row ∈ send_budget_reservations s ∨
     row = MkBudget (id +:+ ":" +:+ pretty stamp) (rq_channel rq) (rq_chat_id rq) id
             (payload_units (rq_payload rq)) now).

(** The request does not fit into what the chat may still spend. *)
Definition over_budget (b : ChatBudget) (rq : effect_request) (now : Z) (s : db) : Prop :=
  cb_limit b < chat_spent (rq_channel rq) (rq_chat_id rq) now (cb_window_ms b) s + payload_units (rq_payload rq).

Lemma payload_units_pos p : 1 ≤ payload_units p.
Proof. unfold payload_units. case_match; lia. Qed.

Lemma budget_reserve_spec b rq id stamp now s :
  ledger_inv (cb_limit b) (cb_window_ms b) s →
  (∀ x, x ∈ send_budget_reservations s → bud_reserved_ms x ≤ now) →
  ∃ d s', budget_reserve b (rq_channel rq) (rq_chat_id rq) id (id +:+ ":" +:+ pretty (stamp : Z))
            (payload_units (rq_payload rq)) now s = (Ok d, s') ∧
    ledger_inv (cb_limit b) (cb_window_ms b) s' ∧ effects s' = effects s ∧
    if bd_allowed d then paid rq id now s s'
    else bd_reason d = "budget_exhausted" ∧ s' = s ∧ over_budget b rq now s.
Proof.
  intros Hl Hc. pose proof (payload_units_pos (rq_payload rq)) as Hu.
  unfold budget_reserve. cbv zeta. rewrite Z.max_r by lia. set (att := id +:+ _).
  pose proof (reserve_windows _ _ att (rq_channel rq) (rq_chat_id rq) id (payload_units (rq_payload rq)) now s Hl Hc) as Hw.
  unfold pbind. rewrite reserve_cases, Z.max_r in * by lia.
  destruct (row_exists _ _) eqn:Ek.
  - eexists _, s. split; [done|]. split; [done|]. split; [done|]. cbn [bd_allowed].
    apply row_exists_spec in Ek as (row & Hin & Hid%str_eqb_eq). exists stamp, row. auto.
  - destruct (cb_limit b <? _) eqn:El.
    + eexists _, s. split; [done|]. do 2 (split; [done|]). cbn [bd_allowed bd_reason]. split_and!; [done|done|].
      unfold over_budget. lia.
    + eexists _, _. split; [done|]. split; [apply Hw|]. split; [done|]. cbn [bd_allowed].
      eexists stamp, _. split; [apply elem_of_insert_row; by right|]. split; [done|]. by right.
Qed.

(** The reasons, with the durable budget in charge. *)
Lemma capacity_reason_spec r rq id ck b sb w reason w' :
  ir_durable_budget r = Some b → ledger_inv (cb_limit b) (cb_window_ms b) (ro_store w) →
  (∀ x, x ∈ send_budget_reservations (ro_store w) → bud_reserved_ms x ≤ ck_capacity ck) →
  capacity_reason r rq id ck sb w = (Ok reason, w') →
  ledger_inv (cb_limit b) (cb_window_ms b) (ro_store w') ∧ effects (ro_store w') = effects (ro_store w) ∧
  match reason with
  | None => waiting_in rq (ro_store w) ≤ sb_waiting_cap sb ∧ paid rq id (ck_capacity ck) (ro_store w) (ro_store w')
  | Some x => ro_store w' = ro_store w ∧
      (x = "queue_capacity" ∧ sb_waiting_cap sb < waiting_in rq (ro_store w) ∨
       x = "budget_exhausted" ∧ over_budget b rq (ck_capacity ck) (ro_store w))
  end.
Proof.
  intros Hb Hl Hc E. unfold capacity_reason in E. apply pbind_Ok in E as (n & w1 & [= <- <-] & E).
  fold (waiting_in rq (ro_store w)) in E.
  destruct (sb_waiting_cap sb <? waiting_in rq (ro_store w)) eqn:Ew.
  { injection E as <- <-. split_and!; try done. left. split; [done|lia]. }
  rewrite Hb in E. apply pbind_Ok in E as (rec & w1 & E1 & E). unfold on_ro, pread in E1.
  injection E1 as _ <-. apply pbind_Ok in E as (d & w1 & E2 & [= <- <-]).
  destruct (budget_reserve_spec b rq id (default 0 (se_updated_ms <$> rec)) (ck_capacity ck) (ro_store w) Hl Hc)
    as (d' & s' & Er & Hl' & He & Hd).
  unfold on_ro in E2. cbn [ro_store set_field] in E2. unfold on_ro in E2.
  change (ro_store (w <| ro_store := ro_store w |>)) with (ro_store w) in E2. rewrite Er in E2.
  injection E2 as -> <-. cbn [ro_store set_field]. split; [done|]. split; [done|].
  destruct (bd_allowed d); [split; [lia|done]|]. destruct Hd as (-> & -> & Ho). cbn. split; [done|]. by right.
Qed.

(** What the capacity check settles about a request. *)
Definition capacity_settled (b : ChatBudget) (sb : SendBudget) (rq : effect_request) (id : string) (now : Z)
    (refused : option EffectReceipt) (s s' : db) : Prop :=
  match refused with
  | None => waiting_in rq s' ≤ sb_waiting_cap sb ∧ paid rq id now s s'
  | Some rc =>
      er_state rc = "blocked" ∧ er_effect_id rc = id ∧ effect_state id s' ≠ Some queued ∧
      send_budget_reservations s' = send_budget_reservations s ∧
      (er_detail rc = Some "queue_capacity" ∧ sb_waiting_cap sb ≤ waiting_in rq s' ∨
       er_detail rc = Some "budget_exhausted" ∧ over_budget b rq now s)
  end.

Lemma receipt_Ok e st k a d s rc s' :
  receipt e st k a d s = (Ok rc, s') → er_effect_id rc = e ∧ er_state rc = st ∧ er_detail rc = d ∧ s' = s.
Proof. intros (x & s1 & E1 & E)%pbind_Ok. unfold pread in E1. injection E1 as _ <-. by injection E as <- <-. Qed.

Lemma capacity_block_spec r rq id ck b sb w refused w' :
  outbox_inv (ro_store w) → effect_state id (ro_store w) ≠ None →
  ir_durable_budget r = Some b → ro_budget w = Some sb →
  ledger_inv (cb_limit b) (cb_window_ms b) (ro_store w) →
  (∀ x, x ∈ send_budget_reservations (ro_store w) → bud_reserved_ms x ≤ ck_capacity ck) →
  capacity_block r rq id ck w = (Ok refused, w') →
  ledger_inv (cb_limit b) (cb_window_ms b) (ro_store w') ∧
  capacity_settled b sb rq id (ck_capacity ck) refused (ro_store w) (ro_store w').
Proof.
  intros Hi Hst Hb Hsb Hl Hc E. unfold capacity_block in E. apply pbind_Ok in E as (o & w1 & [= <- <-] & E).
  rewrite Hsb in E. apply pbind_Ok in E as (reason & w1 & Er & E).
  eapply capacity_reason_spec in Er as (Hl1 & He1 & Hr); [|done..].
  destruct reason as [x|].
  2:{ injection E as <- <-. split; [done|]. destruct Hr as [Hr Hp]. split; [|done].
      revert Hr. unfold waiting_in, count_waiting_effects. by rewrite He1. }
  destruct Hr as [Hs1 Hx]. apply pbind_Ok in E as (ok & w2 & E2 & E). unfold on_ro in E2.
  rewrite Hs1 in E2. destruct (transition _ _ _ _ _ _ (ro_store w)) as [[ok'|] s2] eqn:Et; [|done].
  injection E2 as -> <-.
  destruct (refuse_spec _ _ _ (rq_channel rq) (rq_chat_id rq) _ _ _ Hi Et) as (Hq & Hsome & Hres & Hcnt).
  assert (ledger_inv (cb_limit b) (cb_window_ms b) s2) as Hl2.
  { destruct Hl as [L1 L2 L3]. split; rewrite ?Hres; try done. intros. unfold chat_spent. rewrite Hres. apply L3. }
  apply pbind_Ok in E as (st & w3 & E3 & E). unfold on_ro, pread in E3. cbn [ro_store set_field] in E3.
  injection E3 as Eg <-. destruct st as [st|].
  2:{ exfalso. apply Hst, Hsome. unfold get_effect in Eg. unfold effect_state.
      destruct (effect_row_of id s2); [|done]. by destruct (effect_from_row _). }
  apply pbind_Ok in E as (rc & w4 & E4 & [= <- <-]). unfold on_ro in E4. cbn [ro_store set_field] in E4.
  destruct (receipt _ _ _ _ _ s2) as [[rc'|] s3] eqn:Erc; [|done]. injection E4 as -> <-.
  apply receipt_Ok in Erc as (R1 & R2 & R3 & ->). cbn [ro_store set_field]. split; [done|].
  split; [done|]. split; [done|]. split; [done|]. split; [done|]. rewrite R3.
  destruct Hx as [[-> Hw]|[-> Ho]]; [left|by right]. split; [done|]. unfold waiting_in in *. lia.
Qed.

(** No effect is executed without having been paid for. Under the durable budget an
    accepted request either holds a reservation for exactly its units (or one its own
    attempt made earlier) and finds the chat's queue within the cap, or it is refused with
    a [blocked] receipt that gives the true reason, spends nothing, and leaves an effect
    that cannot be executed; in both cases nothing was sent and every window of every chat
    stays within the limit. *)
Theorem capacity_gate r rq cur ck f b sb w out w' :
  outbox_inv (ro_store w) → ir_durable_budget r = Some b → ro_budget w = Some sb →
  ledger_inv (cb_limit b) (cb_window_ms b) (ro_store w) →
  (∀ x, x ∈ send_budget_reservations (ro_store w) → bud_reserved_ms x ≤ ck_capacity ck) →
  run_accept r rq cur ck f w = (Ok out, w') →
  ledger_inv (cb_limit b) (cb_window_ms b) (ro_store w') ∧ ro_calls w' = ro_calls w ∧
  match out with
  | inr d => waiting_in rq (ro_store w') ≤ sb_waiting_cap sb ∧
             paid rq (rd_effect_id d) (ck_capacity ck) (ro_store w) (ro_store w')
  | inl rc =>
      er_state rc = "blocked" ∧ effect_state (er_effect_id rc) (ro_store w') ≠ Some queued ∧
      send_budget_reservations (ro_store w') = send_budget_reservations (ro_store w) ∧
      (er_detail rc = Some "queue_capacity" ∧ sb_waiting_cap sb ≤ waiting_in rq (ro_store w') ∨
       er_detail rc = Some "budget_exhausted" ∧ over_budget b rq (ck_capacity ck) (ro_store w))
  end.
Proof.
  intros Hi Hb Hsb Hl Hc E. pose proof (calm_run_accept r rq cur ck f w Hi) as [Hcalls _]. rewrite E in Hcalls.
  apply run_accept_inv in E as (id & refused & w1 & w2 & E & Hsp & _ & Hi1 & Hst & -> & _ & Hout); [|done].
  injection Hsp as Hbud Hres.
  assert (ledger_inv (cb_limit b) (cb_window_ms b) (ro_store w1)) as Hl1.
  { destruct Hl as [L1 L2 L3]. split; rewrite ?Hres; try done. intros. unfold chat_spent. rewrite Hres. apply L3. }
  eapply capacity_block_spec in E as [Hl2 Hs]; [|done..|by rewrite Hbud|done|by rewrite Hres].
  split; [done|]. split; [done|]. destruct refused as [rc|].
  - subst out. destruct Hs as (H1 & <- & H3 & H4 & H5). split_and!; [done|done|by rewrite H4|].
    destruct H5 as [?|[? Ho]]; [by left|right]. split; [done|]. unfold over_budget, chat_spent in *. by rewrite <- Hres.
  - destruct Hout as (e & t & ->). destruct Hs as [H1 (stamp & row & H2 & H3 & H4)]. split; [done|].
    exists stamp, row. rewrite Hres in H4. auto.
Qed.

(** ** Retries *)

Lemma enqueue_conn_known a s row id s' :
  by_id eff_operation_key (ea_operation_key a) (effects s) = Some row →
  enqueue_effect_in_connection a s = Ok (id, s') → id = eff_effect_id row ∧ s' = s.
Proof.
  intros Hk. destruct (enqueue_cases a s) as [(err & ->)|[(r & Hr & ->)|(body & tg & Hn & _)]];
    [done| |congruence]. intros [= <- <-]. split; [congruence|done].
Qed.

(** A known operation key is answered with the effect it belongs to. *)
Lemma accept_known r rq e ck w row rc w' :
  by_id eff_operation_key (env_operation_key e) (effects (ro_store w)) = Some row →
  accept_effect r rq e ck w = (Ok rc, w') →
  er_effect_id rc = eff_effect_id row ∧ effects (ro_store w') = effects (ro_store w).
Proof.
  intros Hk. unfold accept_effect, on_ro. destruct (rq_admission rq) as [a|].
  - destruct (ir_ledger r) as [l|]; [|done]. destruct (negb _); [done|].
    intros (rc' & w1 & E1 & E)%pbind_Ok. apply pbind_Ok in E as (u & w2 & [= _ <-] & [= <- <-]).
    destruct (submit_participation _ _ _ _ _) as [[x|] s1] eqn:Es; [|done]. injection E1 as -> <-.
    apply pbind_Ok in Es as (id & s2 & Hid & Es). apply pbind_Ok in Es as (st & s3 & [= _ <-] & [= <- <-]).
    cbn [er_effect_id ro_store set_field]. unfold enqueue_participation_effect, write in Hid.
    destruct (negb _); [done|]. destruct (_ || _); [done|]. do 2 (destruct (negb _); [done|]).
    destruct (_ || _); [done|]. cbv zeta in Hid.
    destruct (by_id adm_admission_id _ _) as [old|]; [destruct (_ =?s _); [|done]|]; cbn [rbind] in Hid.
    all: match type of Hid with context [enqueue_effect_in_connection ?a ?s1] =>
      destruct (enqueue_effect_in_connection a s1) as [[i' s4]|] eqn:E end; [|done]; injection Hid as <- <-;
      eapply enqueue_conn_known in E as [-> ->]; [done|exact Hk].
  - destruct (submit _ _ _) as [[x|] s1] eqn:Es; [|done]. intros [= <- <-].
    apply pbind_Ok in Es as (id & s2 & Hid & Es). apply pbind_Ok in Es as (st & s3 & [= _ <-] & [= <- <-]).
    cbn [er_effect_id ro_store set_field]. unfold enqueue_effect, write in Hid.
    do 2 (destruct (negb _); [done|]). cbn [state_of_str] in Hid. destruct (state_of_str "queued") as [q|]; [|done].
    destruct (_ <? 1); [done|]. destruct (negb _); [done|].
    destruct (enqueue_effect_in_connection _ _) as [[i s4]|] eqn:E; [|done]. injection Hid as <- <-.
    eapply enqueue_conn_known in E as [-> ->]; [done|exact Hk].
Qed.

(** Passing the capacity check puts nothing into the queue. *)
Lemma capacity_pass_state r rq id ck w w' :
  outbox_inv (ro_store w) → capacity_block r rq id ck w = (Ok None, w') →
  effect_state id (ro_store w') = Some queued → effect_state id (ro_store w) = Some queued.
Proof.
  intros Hi E. unfold capacity_block in E. apply pbind_Ok in E as (o & w1 & [= <- <-] & E).
  destruct (ro_budget w) as [sb|]; [|by injection E as <-].
  apply pbind_Ok in E as (reason & w1 & Er & E).
  assert (effects (ro_store w1) = effects (ro_store w)) as He.
  { unfold capacity_reason in Er. apply pbind_Ok in Er as (n & w2 & [= <- <-] & Er).
    destruct (_ <? _); [by injection Er as _ <-|]. destruct (ir_durable_budget r) as [b|].
    - apply pbind_Ok in Er as (rec & w2 & E1 & Er). unfold on_ro, pread in E1. injection E1 as _ <-.
      apply pbind_Ok in Er as (d & w2 & E2 & [= _ <-]). unfold on_ro in E2. cbn [ro_store set_field] in E2.
      match type of E2 with context [budget_reserve ?b ?c ?h ?i ?a ?u ?n ?s] =>
        pose proof ((_ : Silent (budget_reserve b c h i a u n)) s) as [Hs _];
        destruct (budget_reserve b c h i a u n s) end. injection E2 as _ <-. exact Hs.
    - destruct (send_budget_reserve _ _ _ _). by injection Er as _ <-. }
  destruct reason as [x|]; [|injection E as <-; by rewrite (effect_state_ext _ _ _ He)].
  apply pbind_Ok in E as (ok & w2 & E2 & E). apply pbind_Ok in E as (st & w3 & E3 & E).
  destruct st as [st|]; [by apply pbind_Ok in E as (rc & w4 & _ & [=])|]. injection E as <-.
  unfold on_ro, pread in E3. injection E3 as Eg <-. cbn [ro_store set_field]. unfold effect_state, get_effect in *.
  destruct (effect_row_of id (ro_store w2)); [|done]. by destruct (effect_from_row _).
Qed.

(** The key a request is known by. *)
Definition request_key (rq : effect_request) (t : option bound_turn) : string :=
  rq_operation_key rq +:+ ":" +:+ turn_id_of t +:+ ":" +:+ pretty (revision_of t).

Lemma run_accept_known r rq cur ck f w b t row d w' :
  outbox_inv (ro_store w) → bind_turn r rq cur w = Ok (b, t) →
  by_id eff_operation_key (request_key rq t) (effects (ro_store w)) = Some row →
  run_accept r rq cur ck f w = (Ok (inr d), w') →
  rd_effect_id d = eff_effect_id row ∧
  (effect_state (rd_effect_id d) (ro_store w') = Some queued → eff_state row = queued).
Proof.
  intros Hi Hb Hk E. unfold run_accept, lift_ro, pread in E.
  apply pbind_Ok in E as (dl & wa & [= _ <-] & E). apply pbind_Ok in E as (bound & wa & [= Hb' <-] & E).
  rewrite Hb in Hb'. injection Hb' as <-. cbn [fst snd] in E. destruct (unbound _ _ _); [done|].
  apply pbind_Ok in E as ([] & wa & E1 & E).
  assert (ro_store wa = ro_store w) as Hsa.
  { unfold note_soft_thread_limit in E1. repeat (case_match; try done); by injection E1 as <-. }
  apply pbind_Ok in E as (e & wb & [= He <-] & E). apply pbind_Ok in E as (rc & wb & E2 & E).
  assert (env_operation_key e = request_key rq t) as Hkey.
  { unfold EffectEnvelope_check in He. repeat (case_match; try done). by injection He as <-. }
  rewrite <- Hsa, <- Hkey in Hk. destruct (accept_known _ _ _ _ _ _ _ _ Hk E2) as [Hid Heff].
  assert (outbox_inv (ro_store wb)) as Hib.
  { rewrite <- Hsa in Hi. destruct (calm_accept r rq e ck wa Hi) as (_ & ls & Hs & _). rewrite E2 in Hs.
    by eapply outbox_steps_inv. }
  apply pbind_Ok in E as ([] & wc & E3 & E). apply pbind_Ok in E as (refused & wd & E4 & E).
  destruct refused as [x|]; [by apply pbind_Ok in E as ([] & we & _ & [=])|]. injection E as <- <-. cbn [rd_effect_id].
  split; [done|]. pose proof (plan_effects e t (ck_start ck) wb) as Hp. rewrite E3 in Hp. cbn [snd] in Hp.
  assert (outbox_inv (ro_store wc)) as Hic.
  { destruct (calm_plan e t (ck_start ck) wb Hib) as (_ & ls & Hs & _). rewrite E3 in Hs. by eapply outbox_steps_inv. }
  intros Hq%(capacity_pass_state _ _ _ _ _ _ Hic E4). rewrite (effect_state_ext _ _ _ Hp), Hid in Hq.
  apply by_id_Some_inv in Hk as [Hin _]. rewrite <- Heff in Hin.
  unfold effect_state, effect_row_of in Hq. rewrite by_id_elem in Hq; [by injection Hq|apply Hib|done].
Qed.

(** A retry never sends twice. When the operation of a request already has an effect that
    left the queue (being executed, sent, failed, unknown, or refused), running the request
    again reaches no transport, whatever else happens meanwhile. *)
Theorem retry_never_resends r rq cur ck f uuid others w b t row :
  outbox_inv (ro_store w) → bind_turn r rq cur w = Ok (b, t) →
  by_id eff_operation_key (request_key rq t) (effects (ro_store w)) = Some row → eff_state row ≠ queued →
  ro_calls (router_run r rq cur ck f uuid others w).2 = ro_calls w.
Proof.
  intros Hi Hb Hk Hne. unfold router_run, pbind. pose proof (calm_run_accept r rq cur ck f w Hi) as (Hc & ls & Hs & _).
  destruct (run_accept r rq cur ck f w) as [[[rc|d]|err] w1] eqn:E; cbn [snd] in *; [done| |done].
  apply (run_accept_known r rq cur ck f w b t row) in E as [_ Hq]; [|done..].
  assert (outbox_inv (ro_store w1)) as Hi1 by (by eapply outbox_steps_inv).
  unfold run_execute, pbind, on_ro at 1.
  pose proof ((_ : Quiet (execute_begin (ir_gateway r) (rd_effect_id d) (ck_begin ck) uuid)) (ro_store w1) Hi1)
    as (l2 & Hs2 & _).
  destruct (execute_begin _ _ _ _ (ro_store w1)) as [[[res|dsp]|err] s1] eqn:E; [|exfalso|done].
  - destruct (calm_finish r rq d res ck (w1 <| ro_store := s1 |>)) as [Hc2 _]; [by eapply outbox_steps_inv|].
    cbn [ro_store set_field snd] in *. rewrite <- Hc. exact Hc2.
  - apply execute_begin_dispatch in E as (_ & st & dec & s0 & Hg & Hst & _).
    apply get_effect_inv in Hg as (row' & Hrow & (_ & _ & Hst' & _)%effect_from_row_inv).
    apply Hne, Hq. rewrite (effect_state_of_row _ _ _ Hrow). congruence.
Qed.

(** ** Producers without a turn *)

(** A turn-bound producer never queues an effect without a turn. With a turn provider
    wired, a producer that is neither a service nor a reaction and for which no turn is
    known is refused, and the refusal changes nothing; and every effect that such a
    producer does get accepted names its turn. *)
Theorem unbound_refused r rq cur ck f uuid others w b t :
  is_some (ir_turn_provider r) = true → service_principal (rq_principal rq) = false →
  rq_own_lineage rq = false → bind_turn r rq cur w = Ok (b, t) →
  (turn_id_of t = "" → ∃ err, router_run r rq cur ck f uuid others w = (Raise err, w)) ∧
  ∀ d w', run_accept r rq cur ck f w = (Ok (inr d), w') →
    env_turn_id (rd_envelope d) = turn_id_of t ∧ turn_id_of t ≠ "".
Proof.
  intros Hp Hs Hl Hb. unfold router_run, run_accept, lift_ro, pread.
  assert (unbound r rq t = negb (str_true (turn_id_of t))) as Hu by (unfold unbound; by rewrite Hp, Hs, Hl, !andb_true_r).
  split.
  - intros Ht. unfold pbind at 1 2. destruct (deadline_for r rq); [|eauto]. unfold pbind at 1. rewrite Hb. cbn [snd].
    rewrite Hu, Ht. cbn. eauto.
  - intros d w' (dl & wa & [= _ <-] & E)%pbind_Ok. apply pbind_Ok in E as (bound & wa & [= Hb' <-] & E).
    rewrite Hb in Hb'. injection Hb' as <-. cbn [fst snd] in E. rewrite Hu in E.
    destruct (str_true (turn_id_of t)) eqn:Et; [|done]. cbn [negb] in E. apply str_true_spec in Et.
    apply pbind_Ok in E as ([] & wb & _ & E). apply pbind_Ok in E as (e & wc & [= He <-] & E).
    apply pbind_Ok in E as (rc & wd & _ & E). apply pbind_Ok in E as ([] & we & _ & E).
    apply pbind_Ok in E as (refused & wf & _ & E).
    destruct refused; [by apply pbind_Ok in E as ([] & wg & _ & [=])|]. injection E as <- _. cbn [rd_envelope].
    split; [|done]. unfold EffectEnvelope_check in He. repeat (case_match; try done). by injection He as <-.
Qed.

(** ** The guard *)

(** A pending owner acknowledgement for exactly this message. *)
Definition acknowledged (acks : option OwnerControlAcknowledgements) (m : OutboundMessage) : Prop :=
  ∃ a t, acks = Some a ∧ dict_get CONTROL_ACK_KEY (om_metadata m) = Some (JStr t) ∧ t ≠ "" ∧
         (t, (om_channel m, om_chat_id m, om_content m)) ∈ ack_pending a.

Lemma ack_entry_Some a token ch chat c t :
  ack_entry a token ch chat c = Some t →
  token = Some (JStr t) ∧ t ≠ "" ∧ (t, (ch, chat, c)) ∈ ack_pending a.
Proof.
  unfold ack_entry. destruct token as [[| | | |s| |]|]; try done. destruct (str_true s) eqn:Es; [|done]. cbn [negb].
  destruct (by_id fst s (ack_pending a)) as [[k [[ch' chat'] c']]|] eqn:E; [|done].
  destruct (_ && _) eqn:Eb; [|done]. intros [= ->]. apply by_id_Some_inv in E as [Hin Hk]. cbn in Hk. subst k.
  apply andb_true_iff in Eb as [[->%str_eqb_eq ->%str_eqb_eq]%andb_true_iff ->%str_eqb_eq].
  split; [done|]. split; [by apply str_true_spec|done].
Qed.

(** The bus carries a message of a managed chat only with proof. The guard lets a message
    pass exactly when its chat is not managed, when it names a persisted effect whose own
    target is that chat, or when the owner's control acknowledgement for exactly this
    channel, chat and text is still pending. *)
Theorem guard_exact r acks m s ok reason :
  managed_outbound_guard r acks m s = Ok (ok, reason) →
  (∀ a, acks = Some a → unique_key fst (ack_pending a)) →
  ok = true ↔
    acknowledged acks m ∨ manages r (om_channel m) (om_chat_id m) = false ∨
    ∃ stored t, get_effect (str_or_empty (dict_get EFFECT_PROVENANCE_KEY (om_metadata m))) s = Ok (Some stored) ∧
      str_or_empty (dict_get EFFECT_PROVENANCE_KEY (om_metadata m)) ≠ "" ∧ se_target stored = Some t ∧
      tgt_channel t = om_channel m ∧ tgt_chat_id t = om_chat_id m.
Proof.
  unfold managed_outbound_guard. cbv zeta. set (id := str_or_empty _). intros E Hu.
  destruct (match acks with Some a => _ | None => false end) eqn:Ea.
  { injection E as <- <-. split; [|done]. intros _. left. destruct acks as [a|]; [|done].
    unfold ack_matches_metadata, ack_matches in Ea. destruct (ack_entry _ _ _ _ _) as [t|] eqn:Et; [|done].
    apply ack_entry_Some in Et as (H1 & H2 & H3). by exists a, t. }
  assert (¬ acknowledged acks m) as Hna.
  { intros (a & t & -> & Hm & Ht & Hin). unfold ack_matches_metadata, ack_matches, ack_entry in Ea.
    rewrite Hm in Ea. apply str_true_spec in Ht. rewrite Ht in Ea. cbn [negb] in Ea.
    pose proof (by_id_elem fst _ _ (Hu a eq_refl) Hin) as Hby. cbn [fst] in Hby. rewrite Hby in Ea.
    by rewrite !str_eqb_refl in Ea. }
  destruct (manages r _ _) eqn:Em; cbn [negb] in E; [|injection E as <- <-; by split; [right; left|]].
  destruct (str_true id) eqn:Eid; cbn [negb] in E.
  2:{ injection E as <- <-. split; [done|]. apply not_true_iff_false in Eid. rewrite str_true_spec in Eid.
      intros [?|[?|(st & t & _ & Hid & _)]]; done. }
  apply str_true_spec in Eid. unfold effect_covers in E. destruct (get_effect id s) as [st|]; [|done]. cbn [rbind] in E.
  destruct (st ≫= se_target) as [t|] eqn:Et.
  - destruct (_ && _) eqn:Ec; injection E as <- <-.
    + split; [|done]. intros _. right. right. destruct st as [st|]; [|done]. cbn in Et.
      apply andb_true_iff in Ec as [?%str_eqb_eq ?%str_eqb_eq]. by exists st, t.
    + split; [done|]. intros [?|[?|(st' & t' & [= ->] & _ & Ht' & H1 & H2)]]; [done..|].
      cbn in Et. rewrite Ht' in Et. injection Et as ->. by rewrite H1, H2, !str_eqb_refl in Ec.
  - injection E as <- <-. split; [done|].
    intros [?|[?|(st' & t' & [= ->] & _ & Ht' & _)]]; [done..|]. cbn in Et. congruence.
Qed.

(** An owner acknowledgement works once. After a successful claim the token matches no
    message and cannot be claimed again, and all other pending tokens are untouched. *)
Theorem ack_single_use token ch chat c a :
  (ack_claim token ch chat c a).1 = true →
  let a' := (ack_claim token ch chat c a).2 in
  (∀ ch' chat' c', ack_matches a' token ch' chat' c' = false ∧ ack_claim token ch' chat' c' a' = (false, a')) ∧
  ∀ t ch' chat' c', token ≠ Some (JStr t) →
    ack_matches a' (Some (JStr t)) ch' chat' c' = ack_matches a (Some (JStr t)) ch' chat' c'.
Proof.
  unfold ack_claim. destruct (ack_entry a token ch chat c) as [t|] eqn:E; [|done]. intros _. cbn [snd].
  apply ack_entry_Some in E as (-> & Ht & _). set (a' := a <| ack_pending ::= _ |>).
  assert (∀ ch' chat' c', ack_entry a' (Some (JStr t)) ch' chat' c' = None) as Hnone.
  { intros. destruct (ack_entry a' _ _ _ _) as [t'|] eqn:E; [|done].
    apply ack_entry_Some in E as ([= <-] & _ & Hin). exfalso. unfold a' in Hin. cbn [ack_pending set_field] in Hin.
    apply list_elem_of_In, filter_In in Hin as [_ Hin]. cbn [fst] in Hin. by rewrite str_eqb_refl in Hin. }
  split.
  - intros. unfold ack_matches. by rewrite Hnone.
  - intros t' ch' chat' c' Hne. unfold ack_matches, ack_entry. destruct (negb (str_true t')); [done|].
    assert (by_id fst t' (ack_pending a') = by_id fst t' (ack_pending a)) as ->; [|done].
    unfold a'. cbn [ack_pending set_field]. apply (fetchone_delete_keep (has_id fst t') (has_id fst t)).
    intros [k e] _ Hk%str_eqb_eq. cbn in Hk. subst k. unfold has_id. cbn [fst].
    apply str_eqb_neq. intros ->. done.
Qed.

End RouterProps.

(** ** Witnesses *)

#[local] Existing Instance plain_sha256.
#[local] Existing Instance allow_all.

(** One send unit per minute, in the managed chat [whatsapp:c]. *)
Definition tight : ProcessingConfig :=
  MkProcessing true [" whatsapp:c "] ["+"] (λ _, 120000) (Some (MkBudgetSettings 1 60 8 2 10 false)).

Definition line : IntentEffectRouter :=
  MkIntentRouter worker wired (Some tight) false (Some (MkChatBudget 1 60000 8)) (Some registry_active_turn) None.

Definition line_world (s : db) : router_world :=
  MkRouterWorld s [] (Some (MkSendBudget 1 60 8 ∅)) (Some (MkThreadBudget 2 10000 ∅)) [] [].

Example line_init :
  IntentEffectRouter_init worker wired (Some tight) None (Some registry_active_turn) None empty_db
  = Ok (line, line_world empty_db).
Proof. by vm_compute. Qed.

Definition notice (text : string) (principal : string) : effect_request :=
  message_request (MkOutbound "whatsapp" "c" text None [] [("message_id", JStr text)]) principal "send_text"
    (TextPayload text None) None None.

Definition at_ms (t : Z) : run_clock := MkClock t t t t t t t t t.

Definition first_clock : run_clock := MkClock 100 100 100 100 100 100 150 150 150.

(** The first notice of a cron job goes out. *)
Definition first_run : result EffectReceipt * router_world :=
  router_run line (notice "hi" "service:cron") None first_clock "e1" "a1" id (line_world empty_db).

Example first_run_sends :
  er_state <$> (match first_run.1 with Ok r => Some r | _ => None end) = Some "sent" ∧
  length (ro_calls first_run.2) = 1%nat.
Proof. by vm_compute. Qed.

Lemma well_behaved_id : well_behaved id.
Proof. intros s _. exists []. split; [by constructor|apply no_requeue_nil]. Qed.

Lemma run_refines_outbox_witness :
  ∃ ls sent, outbox_steps ls empty_db (ro_store first_run.2) ∧ ro_calls first_run.2 = sent ∧
             ∀ c, c ∈ sent → backed wired ls c.
Proof.
  destruct (run_refines_outbox line (notice "hi" "service:cron") None first_clock "e1" "a1" id well_behaved_id
              (line_world empty_db) outbox_inv_empty) as (ls & sent & H1 & _ & H2 & _ & H3).
  exists ls, sent. split; [exact H1|]. split; [exact H2|exact H3].
Defined.

Lemma first_run_inv : outbox_inv (ro_store first_run.2).
Proof.
  destruct (run_accounted line (notice "hi" "service:cron") None first_clock "e1" "a1" id well_behaved_id
              (line_world empty_db) outbox_inv_empty) as (ls & sent & H1 & _).
  by eapply outbox_steps_inv, outbox_inv_empty.
Qed.

Lemma first_run_row :
  ∃ row, by_id eff_operation_key (request_key (notice "hi" "service:cron") None) (effects (ro_store first_run.2))
         = Some row ∧ eff_state row = sent.
Proof. eexists. split; [by vm_compute|done]. Qed.

Lemma retry_never_resends_witness :
  ro_calls (router_run line (notice "hi" "service:cron") None (at_ms 90000) "e2" "a2" id first_run.2).2 = ro_calls first_run.2.
Proof.
  destruct first_run_row as (row & Hrow & Hs).
  apply (retry_never_resends line (notice "hi" "service:cron") None (at_ms 90000) "e2" "a2" id first_run.2 None None row).
  - exact first_run_inv.
  - by vm_compute.
  - exact Hrow.
  - by rewrite Hs.
Defined.

Lemma first_run_ledger :
  ledger_inv 1 60000 (ro_store first_run.2) ∧
  ∀ x, x ∈ send_budget_reservations (ro_store first_run.2) → bud_reserved_ms x = 100.
Proof.
  assert (send_budget_reservations (ro_store first_run.2) = [MkBudget "e1:100" "whatsapp" "c" "e1" 1 100]) as Hr
    by by vm_compute.
  split.
  - split; rewrite ?Hr.
    + apply (bool_decide_unpack _). by vm_compute.
    + intros x Hx. apply list_elem_of_singleton in Hx as ->. simpl. lia.
    + intros. unfold chat_spent, sum_where, select. rewrite Hr. simpl. by case_match; simpl; lia.
  - rewrite Hr. intros x Hx. by apply list_elem_of_singleton in Hx as ->.
Qed.

(** The second notice within the minute is refused. *)
Lemma second_run_refused :
  ∃ rc w', run_accept line (notice "again" "service:cron") None (at_ms 200) "e2" first_run.2 = (Ok (inl rc), w') ∧
           er_detail rc = Some "budget_exhausted".
Proof.
  assert (match (run_accept line (notice "again" "service:cron") None (at_ms 200) "e2" first_run.2).1 with
          | Ok (inl rc) => er_detail rc = Some "budget_exhausted" | _ => False end) as Hb by by vm_compute.
  destruct (run_accept _ _ _ _ _ first_run.2) as [[[rc|]|] w]; try done. by exists rc, w.
Qed.

Lemma first_run_budget : ro_budget first_run.2 = Some (MkSendBudget 1 60 8 ∅).
Proof. by vm_compute. Qed.

Lemma capacity_gate_witness :
  ∃ rc w', er_state rc = "blocked" ∧ ro_calls w' = ro_calls first_run.2 ∧ ledger_inv 1 60000 (ro_store w').
Proof.
  destruct second_run_refused as (rc & w' & E & _). destruct first_run_ledger as [Hl Hc]. exists rc, w'.
  destruct (capacity_gate line (notice "again" "service:cron") None (at_ms 200) "e2" (MkChatBudget 1 60000 8)
              (MkSendBudget 1 60 8 ∅) first_run.2 (inl rc) w') as (H1 & H2 & H3 & _).
  - exact first_run_inv.
  - reflexivity.
  - exact first_run_budget.
  - exact Hl.
  - intros x Hx. rewrite (Hc x Hx). simpl. lia.
  - exact E.
  - split; [exact H3|]. split; [exact H2|exact H1].
Defined.

Lemma unbound_refused_witness :
  ∃ err, router_run line (notice "hi" "u") None (at_ms 100) "e1" "a1" id (line_world empty_db)
         = (Raise err, line_world empty_db).
Proof.
  destruct (unbound_refused line (notice "hi" "u") None (at_ms 100) "e1" "a1" id (line_world empty_db) None None)
    as [Hr _]; [by vm_compute..|]. by apply Hr.
Defined.

(** A message that names the cron job's effect, and a forgery. *)
Definition with_effect (id chat : string) : OutboundMessage :=
  MkOutbound "whatsapp" chat "hi" None [] [(EFFECT_PROVENANCE_KEY, JStr id)].

Definition owner_acks : OwnerControlAcknowledgements :=
  (ack_register "tok" "whatsapp" "c" "paused" (acks_init DEFAULT_CAPACITY)).2.

Lemma guard_exact_witness :
  (true = true ↔ acknowledged (Some owner_acks) (with_effect "e1" "c") ∨ manages line "whatsapp" "c" = false ∨
     ∃ stored t, get_effect "e1" (ro_store first_run.2) = Ok (Some stored) ∧ "e1" ≠ "" ∧
       se_target stored = Some t ∧ tgt_channel t = "whatsapp" ∧ tgt_chat_id t = "c") ∧
  managed_outbound_guard line (Some owner_acks) (with_effect "e9" "c") (ro_store first_run.2)
    = Ok (false, "forged_effect_provenance").
Proof.
  split; [|by vm_compute].
  apply (guard_exact line (Some owner_acks) (with_effect "e1" "c") (ro_store first_run.2) true "effect").
  - by vm_compute.
  - intros a [= <-]. apply (bool_decide_unpack _). by vm_compute.
Defined.

Lemma ack_single_use_witness :
  let a' := (ack_claim (Some (JStr "tok")) "whatsapp" "c" "paused" owner_acks).2 in
  (∀ ch' chat' c', ack_matches a' (Some (JStr "tok")) ch' chat' c' = false ∧
     ack_claim (Some (JStr "tok")) ch' chat' c' a' = (false, a')).
Proof. apply (ack_single_use (Some (JStr "tok")) "whatsapp" "c" "paused" owner_acks). by vm_compute. Defined.

(** A delivered notice that is retried while the chat is out of budget is reported as
    [blocked], although its effect stays [sent]: the refusal ignores that its own
    transition did not apply. *)
Example exhausted_retry_reports_blocked :
  let '(r, w') := router_run line (notice "hi" "service:cron") None (at_ms 200) "e2" "a2" id first_run.2 in
  er_state <$> (match r with Ok rc => Some rc | _ => None end) = Some "blocked" ∧
  effect_state "e1" (ro_store w') = Some sent ∧ ro_calls w' = ro_calls first_run.2.
Proof. by vm_compute. Qed.
