(* ===== verification/Signals.v ===== *)
(** * Signals

    [processing/signals.py]: the mapping of WhatsApp bridge payloads to canonical journal
    signals ([WhatsAppSignalMapper]), with the group observation contract of
    [yeoman_shared/whatsapp_protocol.py]. The mapper is a function from a payload to a
    signal, nothing, or an exception. *)

From Stdlib Require Import ZArith Lia Ascii.
From S2P Require Import Prelude Tables Json Models Schema Journal Receipts Registry Identity PyFloat.

(** ** Text measures of Python strings (UTF-8 bytes here) *)

(** Bytes that start a character, and characters outside the basic plane. *)
Definition char_start (c : ascii) : bool :=
  let n := nat_of_ascii c in (n <? 128)%nat || (192 <=? n)%nat.

Fixpoint sum_chars (f : ascii → Z) (s : string) : Z :=
  match s with EmptyString => 0 | String c s' => f c + sum_chars f s' end.

(** [len(s)] *)
Definition py_len (s : string) : Z := sum_chars (λ c, if char_start c then 1 else 0) s.

(** [len(s.encode("utf-16-le"))] *)
Definition utf16_bytes (s : string) : Z :=
  sum_chars (λ c, if (240 <=? nat_of_ascii c)%nat then 4 else if char_start c then 2 else 0) s.

Definition bytes_str (l : list nat) : string := foldr (λ n s, String (ascii_of_nat n) s) EmptyString l.

(** [BRIDGE_WHITESPACE], each character in UTF-8 *)
Definition BRIDGE_WHITESPACE : list string :=
  map bytes_str
    ([[9]; [10]; [11]; [12]; [13]; [32]; [194; 160]; [225; 154; 128]]
     ++ map (λ n, [226; 128; n])%nat [128; 129; 130; 131; 132; 133; 134; 135; 136; 137; 138; 168; 169; 175]
     ++ [[226; 129; 159]; [227; 128; 128]; [239; 187; 191]])%nat.

Definition drop_str (n : nat) (s : string) : string := String.substring n (String.length s - n) s.

(** One whitespace character less at the front, at the end. *)
Definition chop_front (s : string) : option string :=
  (λ w, drop_str (String.length w) s) <$> List.find (λ w, String.prefix w s) BRIDGE_WHITESPACE.

Definition chop_back (s : string) : option string :=
  (λ w, String.substring 0 (String.length s - String.length w) s)
    <$> List.find (λ w, py_endswith w s) BRIDGE_WHITESPACE.

Fixpoint chop (f : string → option string) (fuel : nat) (s : string) : string :=
  match fuel with
  | O => s
  | S fuel' => match f s with Some s' => chop f fuel' s' | None => s end
  end.

(** [value.strip(BRIDGE_WHITESPACE)] *)
Definition bridge_strip (s : string) : string :=
  let t := chop chop_front (String.length s) s in chop chop_back (String.length t) t.

(** [bridge_string] *)
Definition bridge_string (v : option json) : option string :=
  match v with
  | Some (JStr s) => let t := bridge_strip s in if str_true t then Some t else None
  | _ => None
  end.

(** ** The group observation contract *)

Definition MAX_BRIDGE_FRAME_BYTES : Z := 262144.
Definition JS_MAX_SAFE_INTEGER : Z := 9007199254740991.

(** [_js_safe_integer], as the integer it accepts *)
Definition js_safe_integer (v : json) : option Z :=
  let bounded z := if (- JS_MAX_SAFE_INTEGER <=? z) && (z <=? JS_MAX_SAFE_INTEGER) then Some z else None in
  match v with
  | JInt z => bounded z
  | JFloat t =>
      match parse_float t with
      | Some f => if float_is_integer f
                  then match float_int f with Ok z => bounded z | Raise _ => None end
                  else None
      | None => None
      end
  | _ => None
  end.

Definition safe_moment (v : option json) : bool :=
  match v with
  | Some v => match js_safe_integer v with Some z => 0 <=? z | None => false end
  | None => false
  end.

(** [valid_group_metadata] *)
Definition valid_group_metadata (d : dict) : bool :=
  forallb (λ p, str_in p.1 ["chatJid"; "value"; "actorJid"; "occurredMs"; "observedAtMs"; "snapshot"]) d
  && match bridge_string (dict_get "chatJid" d) with
     | Some chat => py_endswith "@g.us" chat && (utf16_bytes chat <=? 256)
     | None => false
     end
  && match dict_get "value" d with
     | Some (JStr s) => utf16_bytes s <=? MAX_BRIDGE_FRAME_BYTES * 2
     | _ => false
     end
  && match dict_get "snapshot" d with
     | Some (JBool snapshot) =>
         negb snapshot || (negb (dict_has "actorJid" d) && negb (dict_has "occurredMs" d))
     | _ => false
     end
  && safe_moment (dict_get "observedAtMs" d)
  && (negb (dict_has "actorJid" d) || is_some (bridge_string (dict_get "actorJid" d)))
  && (negb (dict_has "occurredMs" d) || safe_moment (dict_get "occurredMs" d)).

(** ** Signals *)

Record JournalSignal := MkSignal {
  js_kind : string;
  js_event_key : string;
  js_event_id : string;
  js_trace_id : string;
  js_channel : string;
  js_chat_id : string;
  js_principal : string;
  js_account : string;
  js_direction : string;
  js_revision : Z;
  js_audience_ref : option string;
  js_occurred_ms : option Z;
  js_observed_at_ms : option Z;
  js_source_message_id : option string;
  js_target_message_id : option string;
  js_payload : dict;
}.
#[export] Instance JournalSignal_updatable : Updatable JournalSignal :=
  λ r, MkSignal (js_kind r) (js_event_key r) (js_event_id r) (js_trace_id r) (js_channel r)
         (js_chat_id r) (js_principal r) (js_account r) (js_direction r) (js_revision r)
         (js_audience_ref r) (js_occurred_ms r) (js_observed_at_ms r) (js_source_message_id r)
         (js_target_message_id r) (js_payload r).

Definition json_int (o : option Z) : json := match o with Some z => JInt z | None => JNull end.

(** [a.update(b)] *)
Definition dict_update (a b : dict) : dict := foldl (λ d p, dict_set p.1 p.2 d) a b.

(** [JournalSignal.to_event_payload] *)
Definition to_event_payload (s : JournalSignal) : dict :=
  dict_update
    ([("kind", JStr (js_kind s)); ("origin", JStr CANONICAL_WHATSAPP_ORIGIN);
      ("principal", JStr (js_principal s)); ("channel", JStr (js_channel s));
      ("chat_id", JStr (js_chat_id s)); ("account", JStr (js_account s));
      ("direction", JStr (js_direction s)); ("revision", JInt (js_revision s));
      ("audience_ref", json_opt (js_audience_ref s)); ("occurred_ms", json_int (js_occurred_ms s));
      ("source_message_id", json_opt (js_source_message_id s));
      ("target_message_id", json_opt (js_target_message_id s))]
     ++ match js_observed_at_ms s with Some t => [("observed_at_ms", JInt t)] | None => [] end)
    (js_payload s).

Definition SIGNAL_KINDS : list string :=
  ["message"; "edit"; "reaction"; "delete"; "receipt"; "membership_change"; "membership_snapshot";
   "group_subject"; "group_description"].

(** [_first]: the first key with a text that is not blank, stripped *)
Fixpoint first_text (payload : dict) (keys : list string) : option string :=
  match keys with
  | [] => None
  | key :: keys' =>
      match dict_get key payload with
      | None | Some JNull => first_text payload keys'
      | Some v => let text := py_strip (py_str v) in
                  if str_true text then Some text else first_text payload keys'
      end
  end.

(** [_raw_text]: the same without stripping *)
Fixpoint raw_text (payload : dict) (keys : list string) : option string :=
  match keys with
  | [] => None
  | key :: keys' =>
      match dict_get key payload with
      | None | Some JNull => raw_text payload keys'
      | Some v => if str_true (py_str v) then Some (py_str v) else raw_text payload keys'
      end
  end.

(** [_token]: the local part of a JID *)
Definition token (value : option string) : string :=
  match value with Some v => py_strip (before_char 64 v) | None => "" end.

(** [isinstance(v, str) and v.strip() and len(v) <= limit], stripped *)
Definition bounded_text (limit : Z) (v : option json) : option string :=
  match v with
  | Some (JStr s) => if str_true (py_strip s) && (py_len s <=? limit) then Some (py_strip s) else None
  | _ => None
  end.

Definition field_of_text (key : string) (v : option string) : dict :=
  match v with Some s => [(key, JStr s)] | None => [] end.

(** A malformed value: an error at the strict boundary, nothing otherwise. *)
Definition refuse {A} (strict : bool) (msg : string) : result (option A) :=
  if strict then Raise (ValueError msg) else Ok None.

(** ** Opaque edits *)

(** The key of the edited message, as far as it is well formed. *)
Definition safe_target_key (key : dict) : dict :=
  concat (map (λ name, field_of_text name (bounded_text MAX_BRIDGE_FRAME_BYTES (dict_get name key)))
            ["remoteJid"; "id"; "participant"])
  ++ match dict_get "fromMe" key with Some (JBool b) => [("fromMe", JBool b)] | _ => [] end.

(** The envelope fields that may be stored, and the message it is about. *)
Definition encrypted_envelope (payload encrypted : dict) : option string * dict :=
  let cipher name := match dict_get name encrypted with
                     | Some (JStr s) => if py_len s <=? MAX_BRIDGE_FRAME_BYTES then [(name, JStr s)] else []
                     | _ => []
                     end in
  let safe := [("kind", JStr "secretEncryptedMessage"); ("secretEncType", JInt 2)]
                ++ cipher "encPayload" ++ cipher "encIv" in
  let target_id := bounded_text MAX_BRIDGE_FRAME_BYTES (dict_get "targetMessageId" payload) in
  match dict_get "targetMessageKey" encrypted with
  | Some (JObj key) =>
      let safe_target := safe_target_key key in
      let safe' := match safe_target with
                   | [] => safe
                   | _ => safe ++ [("targetMessageKey", JObj safe_target)]
                   end in
      match target_id, dict_get "id" safe_target with
      | Some t, Some (JStr k) => (if k =?s t then Some t else None, safe')
      | _, _ => (target_id, safe')
      end
  | _ => (target_id, safe)
  end.

(** [_encrypted_edit_observation] *)
Definition encrypted_edit_observation (payload : dict) (strict : bool)
    : result (option (option string * dict)) :=
  let observation_only := match dict_get "observationOnly" payload with Some (JBool b) => b | _ => false end in
  let observation_type := default JNull (dict_get "observationType" payload) in
  let absent := match observation_type with JNull => true | _ => false end in
  if negb observation_only && absent then Ok None
  else if negb observation_only || negb (py_eq observation_type (JStr "encrypted_message_edit_undecoded"))
  then refuse strict "invalid encrypted edit observation marker"
  else match dict_get "encryptedEdit" payload with
       | Some (JObj encrypted) =>
           if negb (py_eq (default JNull (dict_get "kind" encrypted)) (JStr "secretEncryptedMessage"))
           then refuse strict "invalid encrypted edit envelope"
           else if negb (py_eq (default JNull (dict_get "secretEncType" encrypted)) (JInt 2))
           then refuse strict "unsupported encrypted edit type"
           else Ok (Some (encrypted_envelope payload encrypted))
       | _ => refuse strict "invalid encrypted edit envelope"
       end.

(** ** Media metadata *)

Definition MEDIA_METADATA_FIELDS : list string :=
  ["kind"; "mimeType"; "fileName"; "bytes"; "path"; "ref"; "sha256"; "hash"].

Definition is_hex (c : ascii) : bool :=
  is_digit c || let n := nat_of_ascii (lower_char c) in (97 <=? n)%nat && (n <=? 102)%nat.

(** One field of the allowlist, kept when it is well formed. *)
Definition media_field (d : dict) (key : string) : dict :=
  if key =?s "bytes" then
    match dict_get key d with
    | Some (JInt z) => if 0 <=? z then [(key, JInt z)] else []
    | _ => []
    end
  else match dict_get key d with
       | Some (JStr s) => if str_true (py_strip s) then [(key, JStr (py_strip s))] else []
       | _ => []
       end.

Definition media_digest (d : dict) (key : string) : option string :=
  match dict_get key d with
  | Some (JStr s) =>
      let t := py_strip s in
      if (String.length t =? 64)%nat && all_chars is_hex t then Some (py_lower t) else None
  | _ => None
  end.

(** [_media_metadata] *)
Definition media_metadata (v : option json) : option dict :=
  match v with
  | Some (JObj d) =>
      let result :=
        concat (map (media_field d)
                  (List.filter (λ key, str_in key MEDIA_METADATA_FIELDS)
                     ["kind"; "mimeType"; "fileName"; "bytes"; "path"; "ref"]))
        ++ field_of_text "sha256"
             (match media_digest d "sha256" with Some h => Some h | None => media_digest d "hash" end) in
      match result with [] => None | _ => Some result end
  | _ => None
  end.

(** [_revision] *)
Definition edit_revision (value : json) (strict : bool) : result (option Z) :=
  match normalize_revision value None with
  | Raise (ValueError msg) => if strict then Raise (ValueError msg) else Ok None
  | r => r
  end.

(** ** Membership *)

Definition MEMBERSHIP_ACTIONS : list string := ["add"; "remove"; "promote"; "demote"; "modify"].
Definition MAX_MEMBERSHIP_PARTICIPANTS : Z := 2048.
Definition MAX_MEMBERSHIP_ID_LENGTH : Z := 256.

(** [[0-9]+suffix], the whole text *)
Definition digits_then (suffix s : string) : bool :=
  let digits := before_char 64 s in
  str_true digits && all_chars is_digit digits && (s =?s digits +:+ suffix).

(** One identifier of a participant: absent, well formed, or malformed. *)
Definition membership_id (v : option json) (suffix key : string) : option dict :=
  match v with
  | None | Some JNull => Some []
  | Some (JStr s) =>
      let t := py_strip s in
      if str_true t && (py_len s <=? MAX_MEMBERSHIP_ID_LENGTH) && digits_then suffix t
      then Some [(key, JStr t)] else None
  | Some _ => None
  end.

(** [participant] inside [_membership] *)
Definition participant (snapshot : bool) (v : json) : option dict :=
  match v with
  | JObj d =>
      match membership_id (dict_get "lid" d) "@lid" "lid",
            membership_id (dict_get "phoneJid" d) "@s.whatsapp.net" "phone_jid" with
      | Some lid, Some phone =>
          match lid ++ phone with
          | [] => None
          | ids => if snapshot then match dict_get "admin" d with
                                    | Some (JBool b) => Some (ids ++ [("admin", JBool b)])
                                    | _ => None
                                    end
                   else Some ids
          end
      | _, _ => None
      end
  | _ => None
  end.

(** The identity the bridge correlates on: the LID, else the phone. *)
Definition stable_participant (d : dict) : dict :=
  if dict_has "lid" d then [("lid", default JNull (dict_get "lid" d))]
  else [("phone_jid", default JNull (dict_get "phone_jid" d))].

(** The sort key: the first value of the dict. *)
Definition first_value (d : dict) : string :=
  match d with (_, JStr s) :: _ => s | _ => "" end.

Definition participant_leb (a b : dict) : bool := String.leb (first_value a) (first_value b).

Definition snapshot_body (payload : dict) (participants : list dict) : option (dict * Z) :=
  match dict_get "complete" payload, dict_get "memberCount" payload, dict_get "snapshotAtMs" payload with
  | Some (JBool complete), Some (JInt count), Some (JInt at_ms) =>
      if (0 <=? count) && (count <=? 100000)
         && negb (complete && negb (count =? Z.of_nat (length participants)))
         && (0 <=? at_ms) && (at_ms <=? 2 ^ 53 - 1)
      then Some ([("snapshot_at_ms", JInt at_ms); ("complete", JBool complete); ("member_count", JInt count);
                  ("participants", JArr (map JObj participants))], at_ms)
      else None
  | _, _, _ => None
  end.

(** Action and participants of a change, in their canonical form. *)
Definition change_body (payload : dict) (participants : list dict) : option dict :=
  match dict_get "action" payload, participants with
  | Some (JStr action), _ :: _ =>
      if str_in action MEMBERSHIP_ACTIONS
      then Some [("action", JStr action);
                 ("participants", JArr (map JObj (order_by participant_leb (map stable_participant participants))))]
      else None
  | _, _ => None
  end.

Definition change_actor_ok (payload : dict) : bool :=
  match dict_get "actor" payload with
  | None | Some JNull => true
  | Some v => is_some (participant false v)
  end.

Definition change_id_of (payload : dict) : option string := bounded_text 512 (dict_get "changeId" payload).

(** [[f(x) for x in l]] unless one of them is malformed *)
Fixpoint all_some {A B} (f : A → option B) (l : list A) : option (list B) :=
  match l with
  | [] => Some []
  | x :: l' => match f x, all_some f l' with Some y, Some r => Some (y :: r) | _, _ => None end
  end.

(** ** The mapper *)

Section Mapper.
  Context `{Sha256} (channel : string).

(** [signal_event_id] *)
Definition signal_event_id (event_key : string) : string := String.substring 0 32 (sha256_hex event_key).

(** [_hashed_token] *)
Definition hashed_token (value : option string) : string :=
  let t := token value in
  if str_true t then String.substring 0 12 (sha256_hex t) else "unknown".

Definition body_revision (body : dict) : Z :=
  match dict_get "revision" body with
  | Some (JInt z) => if 1 <=? z then z else 1
  | _ => 1
  end.

(** [_signal] *)
Definition make_signal (kind event_key chat_id principal : string) (payload body : dict)
    (source target : option string) (occurred_ms : option Z) : result (option JournalSignal) :=
  let! occurred := match occurred_ms with
                   | Some t => Ok (Some t)
                   | None => to_ms (dict_get "timestamp" payload)
                   end in
  Ok (Some (MkSignal kind event_key (signal_event_id event_key)
              (channel +:+ ":" +:+ chat_id +:+ ":" +:+ hash_prefix 12 (JStr event_key))
              channel chat_id principal "" "in" (body_revision body) None occurred None source target body)).

Definition key_for (chat_id kind rest : string) : string :=
  channel +:+ ":" +:+ chat_id +:+ ":" +:+ kind +:+ ":" +:+ rest.

Definition message_id_of (payload : dict) : option string := first_text payload ["messageId"; "message_id"; "id"].

Definition sender_of (payload : dict) : option string :=
  first_text payload ["senderId"; "participantJid"; "sender"; "from"].

(** Who sent an observation that cannot be decoded. *)
Definition observation_fields (payload : dict) : dict :=
  let copy p := match dict_get p.1 payload with
                | Some (JStr s) => if str_true (py_strip s) then [(p.2, JStr (py_strip s))] else []
                | _ => []
                end in
  concat (map copy [("participantJid", "participant_jid"); ("senderPhoneJid", "sender_phone_jid");
                    ("senderName", "sender_name")]).

Definition dict_field (key : string) (v : option dict) : dict :=
  match v with Some d => [(key, JObj d)] | None => [] end.

(** The body of a message signal. *)
Definition message_body (payload : dict) (chat_id : string) (opaque : option (option string * dict)) : dict :=
  [("text", JStr (default "" (raw_text payload ["text"; "content"])));
   ("is_group", JBool (opt_truthy (dict_get "isGroup" payload) || py_endswith "@g.us" chat_id));
   ("mentioned_bot", JBool (opt_truthy (dict_get "mentionedBot" payload)));
   ("reply_to_message_id", json_opt (first_text payload ["replyToMessageId"; "reply_to_message_id"]))]
  ++ match opaque with
     | Some (target_id, encrypted) =>
         [("observation_only", JBool true); ("observation_type", JStr "encrypted_message_edit_undecoded");
          ("target_message_id", json_opt target_id); ("encrypted_edit", JObj encrypted)]
         ++ observation_fields payload
     | None => []
     end
  ++ field_of_text "reply_to_text" (raw_text payload ["replyToText"; "reply_to_text"])
  ++ field_of_text "reply_to_participant"
       (first_text payload ["replyToParticipantJid"; "reply_to_participant"; "reply_to_participant_jid"])
  ++ dict_field "reply_to_media" (media_metadata (dict_get "replyToMedia" payload))
  ++ dict_field "media" (media_metadata (dict_get "media" payload)).

(** [_message] *)
Definition map_message (payload : dict) (chat_id : string) (strict : bool) : result (option JournalSignal) :=
  match message_id_of payload with
  | None => Ok None
  | Some message_id =>
      let! opaque := encrypted_edit_observation payload strict in
      make_signal "message" (key_for chat_id "message" message_id) chat_id (token (sender_of payload)) payload
        (message_body payload chat_id opaque) (Some message_id)
        (match opaque with
         | Some (target_id, _) => target_id
         | None => first_text payload ["replyToMessageId"; "reply_to_message_id"]
         end) None
  end.

(** [_edit] *)
Definition map_edit (payload : dict) (chat_id : string) (strict : bool) : result (option JournalSignal) :=
  match message_id_of payload with
  | None => Ok None
  | Some message_id =>
      let! edit_ms := to_ms (py_or (dict_get "timestamp" payload) (dict_get "editTimestamp" payload)) in
      let raw := match dict_get "revision" payload with
                 | None | Some JNull => default JNull (dict_get "editRevision" payload)
                 | Some v => v
                 end in
      let! revision := edit_revision raw strict in
      let stamp := match revision with Some r => r | None => default 0 edit_ms end in
      make_signal "edit" (key_for chat_id "edit" (message_id +:+ ":" +:+ pretty stamp)) chat_id
        (token (sender_of payload)) payload
        ([("text", JStr (default "" (raw_text payload ["text"; "content"])))]
         ++ match revision with Some r => [("revision", JInt r)] | None => [] end)
        (Some message_id) (Some message_id) edit_ms
  end.

(** [_delete] *)
Definition map_delete (payload : dict) (chat_id : string) : result (option JournalSignal) :=
  match first_text payload ["messageId"; "message_id"; "id"; "targetMessageId"] with
  | None => Ok None
  | Some message_id =>
      make_signal "delete" (key_for chat_id "delete" message_id) chat_id (token (sender_of payload)) payload
        [("revoked", JBool true)] (Some message_id) (Some message_id) None
  end.

Definition or_unknown (s : string) : string := if str_true s then s else "unknown".

(** [_reaction] *)
Definition map_reaction (payload : dict) (chat_id : string) : result (option JournalSignal) :=
  let target := first_text payload ["targetMessageId"; "target_message_id"] in
  let sender := sender_of payload in
  let emoji := default "" (first_text payload ["emoji"; "text"; "reaction"]) in
  let! timestamp := to_ms (dict_get "timestamp" payload) in
  if is_none target && negb (is_some sender && str_true emoji) then Ok None
  else make_signal "reaction"
         (key_for chat_id "reaction"
            (default "unknown" target +:+ ":" +:+ or_unknown (token sender) +:+ ":" +:+ emoji +:+ ":"
             +:+ pretty (default 0 timestamp)))
         chat_id (token sender) payload
         [("emoji", JStr emoji); ("removed", JBool (negb (str_true emoji)))]
         (message_id_of payload) target timestamp.

(** [_receipt] *)
Definition map_receipt (payload : dict) (chat_id : string) : result (option JournalSignal) :=
  match message_id_of payload with
  | None => Ok None
  | Some message_id =>
      let recipient := first_text payload ["recipientJid"; "recipient"; "participantJid"; "to"] in
      let status := py_lower (default "delivered" (first_text payload ["status"; "receiptType"])) in
      make_signal "receipt"
        (key_for chat_id "receipt" (message_id +:+ ":" +:+ hashed_token recipient +:+ ":" +:+ status))
        chat_id (token recipient) payload
        [("status", JStr status); ("recipient_token", JStr (hashed_token recipient))]
        (Some message_id) (Some message_id) None
  end.

(** [_membership] *)
Definition map_membership (kind : string) (payload : dict) (chat_id : string) (strict : bool)
    : result (option JournalSignal) :=
  let invalid (reason : string) := refuse strict ("malformed WhatsApp " +:+ kind +:+ ": " +:+ reason) in
  if negb (py_endswith "@g.us" chat_id) || (128 <? py_len chat_id)
  then invalid "chat must be a bounded group JID"
  else match dict_get "participants" payload with
  | Some (JArr raw) =>
      if MAX_MEMBERSHIP_PARTICIPANTS <? Z.of_nat (length raw) then invalid "participants must be a bounded list"
      else
      let snapshot := kind =?s "membership_snapshot" in
      match all_some (participant snapshot) raw with
      | None => invalid "participant identifiers are malformed"
      | Some participants =>
          if snapshot then
            match snapshot_body payload participants with
            | None => invalid "snapshot completeness, count, or timestamp is invalid"
            | Some (body, at_ms) =>
                make_signal kind (key_for chat_id "membership_snapshot" (pretty at_ms)) chat_id "" payload body
                  None None (Some at_ms)
            end
          else
            match change_body payload participants with
            | None => invalid "change action or participants are invalid"
            | Some body =>
                if negb (change_actor_ok payload) then invalid "actor identifiers are malformed"
                else match change_id_of payload with
                     | None => invalid "change id is missing or too long"
                     | Some change_id =>
                         make_signal kind (key_for chat_id "membership_change" change_id) chat_id "" payload body
                           None None None
                     end
            end
      end
  | _ => invalid "participants must be a bounded list"
  end.

(** The group subject and description branch of [map]. *)
Definition map_group_metadata (kind : string) (payload : dict) (chat_id : string) (strict : bool)
    : result (option JournalSignal) :=
  if negb (valid_group_metadata payload) then refuse strict ("malformed WhatsApp " +:+ kind)
  else
    let moment := match dict_get "occurredMs" payload with
                  | Some v => v
                  | None => default JNull (dict_get "observedAtMs" payload)
                  end in
    match js_safe_integer moment with
    | Some z =>
        make_signal kind (key_for chat_id kind (canonical_hash (JObj payload))) chat_id
          (token (match dict_get "actorJid" payload with Some (JStr s) => Some s | _ => None end))
          payload payload None None (Some z)
    | None => Raise (TypeError "int() argument must be a real number")
    end.

(** What the caller of [map] may set. *)
Record map_args := MkMapArgs {
  ma_event_id : option string;
  ma_event_key : option string;
  ma_account : option string;
  ma_observed_at_ms : option Z;
  ma_strict : bool;
}.

Definition or_own (given : option string) (own : string) : string :=
  match given with Some s => if str_true s then s else own | None => own end.

(** The overrides at the end of [map]. *)
Definition with_args (a : map_args) (s : JournalSignal) : JournalSignal :=
  s <| js_event_id ::= or_own (ma_event_id a) |> <| js_event_key ::= or_own (ma_event_key a) |>
    <| js_account ::= (λ own, default own (ma_account a)) |>
    <| js_observed_at_ms := if js_kind s =?s "membership_change" then None else ma_observed_at_ms a |>.

(** The kind dispatch of [map]. *)
Definition map_kind (payload : dict) (kind chat_id : string) (strict : bool) : result (option JournalSignal) :=
  if kind =?s "message" then map_message payload chat_id strict
  else if kind =?s "edit" then map_edit payload chat_id strict
  else if kind =?s "delete" then map_delete payload chat_id
  else if kind =?s "reaction" then map_reaction payload chat_id
  else if str_in kind ["group_subject"; "group_description"] then map_group_metadata kind payload chat_id strict
  else if str_in kind ["membership_change"; "membership_snapshot"] then map_membership kind payload chat_id strict
  else map_receipt payload chat_id.

Definition chat_of (payload : dict) : option string :=
  first_text payload ["chatJid"; "chat_jid"; "chat"; "remoteJid"].

(** [WhatsAppSignalMapper.map] *)
Definition map_signal (payload : dict) (kind : string) (a : map_args) : result (option JournalSignal) :=
  if negb (str_in kind SIGNAL_KINDS) then Raise (ValueError "unknown signal kind")
  else match chat_of payload with
       | None => Ok None
       | Some chat_id =>
           let! signal := map_kind payload kind chat_id (ma_strict a) in
           Ok (with_args a <$> signal)
       end.

End Mapper.

(** [mapper.map(payload, kind=kind)] without further arguments *)
Definition no_args : map_args := MkMapArgs None None None None false.
