(* ===== verification/SignalSink.v ===== *)
(** * SignalSink

    What happens to a provider signal: [SignalJournalSink.capture] of
    [processing/signals.py] journals it, projects edits and deletes onto the source
    authority, and hands them to [SignalInvalidator] of [processing/invalidation.py],
    which revises the turn and withdraws its queued effects. Calls to the knowledge
    service and the group state, whose results and errors the code ignores, are recorded
    as calls. *)

From Stdlib Require Import ZArith Lia.
From S2P Require Import Prelude Tables Json Models Schema Outbox OutboxSpec OutboxRefine OutboxProps Quiet.
From S2P Require Import ThreadStore ThreadProps Journal Receipts Authority Registry Actor Identity PyFloat Signals.

(** ** Calls to the derived stores *)

Inductive sink_call :=
| InvalidateStatements (event_ids : list string) (reason : string)
| MarkNotesStale (event_ids : list string) (reason : string)
| InvalidateGroupState (channel chat_id message_id : string).

Record sink_world := MkSinkWorld { sw_store : db; sw_calls : list sink_call }.
#[export] Instance eta_sink_world : Updatable sink_world := λ w, MkSinkWorld (sw_store w) (sw_calls w).

Definition in_store {A} (p : prog db A) : prog sink_world A :=
  λ w, let (r, s) := p (sw_store w) in (r, w <| sw_store := s |>).

Definition derived_call (c : sink_call) : prog sink_world unit :=
  λ w, (Ok tt, w <| sw_calls ::= λ l, l ++ [c] |>).

Definition derived_if (b : bool) (c : sink_call) : prog sink_world unit :=
  if b then derived_call c else pret tt.

(** [try: ... except Exception]: what was written before the error stays *)
Definition attempt {S A} (p : prog S A) : prog S (option A) := λ s,
  match p s with
  | (Ok a, s') => (Ok (Some a), s')
  | (Raise CancelledError, s') => (Raise CancelledError, s')
  | (Raise _, s') => (Ok None, s')
  end.

(** ** Invalidation *)

Definition INVALIDATING_KINDS : list string := ["edit"; "delete"].

Record SignalInvalidation := MkInvalidation {
  inv_kind : string;
  inv_source_event_ids : list string;
  inv_turn_id : string;
  inv_turn_revision : Z;
  inv_effects_cancelled : list string;
  inv_refused : string;
}.

(** [SignalInvalidation.applied] *)
Definition applied (i : SignalInvalidation) : bool :=
  is_some (head (inv_source_event_ids i)) && negb (str_true (inv_refused i)).

(** [actors.actor_for] gives an actor or raises (an object without that method raises for
    every thread); the clock is optional. *)
Record SignalInvalidator := MkInvalidator {
  iv_actors : option (string → result ThreadActor);
  iv_statements : bool;
  iv_group_state : bool;
  iv_clock : option (nat → Z);
}.

Definition iv_time (iv : SignalInvalidator) (i : nat) : Z :=
  match iv_clock iv with Some clock => clock i | None => 0 end.

(** [events_by_source_message] *)
Fixpoint events_from_rows (rows : list event_row) : result (list CanonicalEvent) :=
  match rows with
  | [] => Ok []
  | row :: rows' =>
      let! e := event_from_row row in
      let! rest := events_from_rows rows' in
      Ok (e :: rest)
  end.

Definition source_rows (message_id : string) (s : db) : list event_row :=
  order_by (λ a b, time_id_leb (ev_created_ms a, ev_event_id a) (ev_created_ms b, ev_event_id b))
    (select (λ e, opt_str_eqb (ev_source_message_id e) (Some message_id)) (events s)).

Definition events_by_source_message (message_id : string) (s : db) : result (list CanonicalEvent) :=
  if str_true message_id then events_from_rows (source_rows message_id s) else Ok [].

(** [_queued_effect_ids]: [list_effects] has no parameter for the turn, so the first
    hundred queued or executing effects of all turns are looked through. *)
Definition queued_effect_ids (turn_id : string) (s : db) : list string :=
  map eff_effect_id
    (select (λ r, (eff_turn_id r =?s turn_id) && state_in (eff_state r) [queued; executing; planned])
       (list_effects (Some [queued; executing]) 100 s)).

(** [_turn_revision] *)
Definition current_revision (turn_id : string) (s : db) : Z :=
  match get_turn turn_id s with Some t => tu_revision t | None => 0 end.

(** The correction through the actor, inside its [try]. *)
Definition actor_correction (iv : SignalInvalidator) (turn_id thread_id principal channel chat_id : string)
    (clock : nat → Z) : prog db bool :=
  match iv_actors iv with
  | Some actor_for =>
      if str_true thread_id then
        let* done := attempt (match actor_for thread_id with
                              | Ok actor => correct_turn actor turn_id principal channel chat_id (clock 0%nat) (clock 1%nat)
                              | Raise e => praise e
                              end) in
        pret (is_some done)
      else pret false
  | None => pret false
  end.

(** [_invalidate_turn] *)
Definition invalidate_turn (iv : SignalInvalidator) (turn_id thread_id principal channel chat_id : string)
    (clock : nat → Z) : prog db (list string) :=
  let* before := pget (queued_effect_ids turn_id) in
  let* corrected := actor_correction iv turn_id thread_id principal channel chat_id clock in
  if corrected : bool then pret before else
  let* turn := pget (get_turn turn_id) in
  match turn with
  | None => pret []
  | Some t =>
      let* ref := bump_turn_revision turn_id (tu_revision t) (iv_time iv 0) in
      do* cancel_stale_effects turn_id (tr_revision ref) (iv_time iv 1) "superseded" in
      pret before
  end.

Section Sink.
  Context `{Sha256} (channel : string).

Definition refusal (kind reason : string) : SignalInvalidation := MkInvalidation kind [] "" 0 [] reason.

(** The message a signal is about. *)
Definition target_of (s : JournalSignal) : string :=
  match nonempty (js_target_message_id s) with
  | Some m => m
  | None => default "" (js_source_message_id s)
  end.

(** The author's events are known: the turn of the newest, then the derived stores. *)
Definition apply_invalidation (iv : SignalInvalidator) (kind author : string) (mine : list CanonicalEvent)
    (newest : CanonicalEvent) (clock : nat → Z) : prog sink_world SignalInvalidation :=
  let ids := map ce_event_id mine in
  let turn_id := default "" (ce_turn_id newest) in
  let* done :=
    if str_true turn_id then
      let* ids_before := in_store (invalidate_turn iv turn_id (default "" (ce_thread_id newest)) author
                                    (ce_channel newest) (ce_chat_id newest) clock) in
      let* revision := in_store (pget (current_revision turn_id)) in
      pret (MkInvalidation kind ids turn_id revision ids_before "")
    else pret (MkInvalidation kind ids "" 0 [] "") in
  do* derived_if (iv_statements iv) (InvalidateStatements ids ("source_" +:+ kind)) in
  do* derived_if (iv_statements iv) (MarkNotesStale ids ("source_" +:+ kind)) in
  pret done.

(** [SignalInvalidator.__call__] *)
Definition invalidate_signal (iv : SignalInvalidator) (kind : string) (payload : dict) (clock : nat → Z)
    : prog sink_world SignalInvalidation :=
  if negb (str_in kind INVALIDATING_KINDS) then pret (refusal kind "not_an_invalidating_signal") else
  let* mapped := pread (λ _, map_signal channel payload kind no_args) in
  match mapped with
  | None => pret (refusal kind "unmappable_signal")
  | Some signal =>
      let target := target_of signal in
      if negb (str_true target) then pret (refusal kind "no_target_message") else
      do* derived_if (iv_group_state iv && str_true (js_channel signal) && str_true (js_chat_id signal))
            (InvalidateGroupState (js_channel signal) (js_chat_id signal) target) in
      let* found := in_store (pread (events_by_source_message target)) in
      let originals := List.filter (λ e, ce_kind e =?s "message") found in
      match originals with
      | [] => pret (refusal kind "no_journaled_source")
      | _ =>
          let author := js_principal signal in
          let mine := List.filter (λ e, ce_principal e =?s author) originals in
          match List.last (map Some mine) None with
          | Some newest =>
              if str_true author then apply_invalidation iv kind author mine newest clock
              else pret (refusal kind "sender_is_not_author")
          | None => pret (refusal kind "sender_is_not_author")
          end
      end
  end.

(** ** The sink *)

Record SignalJournalSink := MkSink {
  sk_has_store : bool;
  sk_statements : bool;
  sk_invalidator : option SignalInvalidator;
}.

(** What [project_source_revocation] of the store reads of a signal. *)
Definition event_of_signal (s : JournalSignal) : CanonicalEvent :=
  {| ce_event_id := js_event_id s; ce_event_key := js_event_key s; ce_trace_id := js_trace_id s;
     ce_kind := js_kind s; ce_origin := CANONICAL_WHATSAPP_ORIGIN; ce_principal := js_principal s;
     ce_channel := js_channel s; ce_chat_id := js_chat_id s; ce_account := js_account s;
     ce_direction := js_direction s; ce_revision := js_revision s; ce_audience_ref := js_audience_ref s;
     ce_occurred_ms := js_occurred_ms s; ce_created_ms := None;
     ce_source_message_id := js_source_message_id s; ce_target_message_id := js_target_message_id s;
     ce_thread_id := None; ce_turn_id := None; ce_payload := Some (js_payload s); ce_payload_hash := "" |}.

(** [SignalJournalSink.project_source_revocation] *)
Definition project_revocation (s : JournalSignal) (strict : bool) (now : Z) : prog db (list string) :=
  if strict then project_source_revocation (event_of_signal s) now
  else let* done := attempt (project_source_revocation (event_of_signal s) now) in
       pret (default [] done).

(** [invalidate_statement_sources] *)
Definition invalidate_statement_sources (sk : SignalJournalSink) (ids : list string) (kind : string)
    : prog sink_world unit :=
  let wanted := List.filter str_true ids in
  derived_if (sk_statements sk && is_some (head wanted)) (InvalidateStatements wanted ("source_" +:+ kind)).

(** [SignalJournalSink.invalidate] *)
Definition sink_invalidate (sk : SignalJournalSink) (kind : string) (payload : dict) (clock : nat → Z)
    : prog sink_world unit :=
  match sk_invalidator sk with
  | Some iv => if str_in kind ["edit"; "delete"]
               then do* attempt (invalidate_signal iv kind payload clock) in pret tt
               else pret tt
  | None => pret tt
  end.

(** The stored event is the captured one. *)
Definition same_stored (s : JournalSignal) (stored : string) (d : db) : result bool :=
  match by_id ev_event_id stored (events d) with
  | None => Ok false
  | Some row =>
      let! prior := event_from_row row in
      Ok ((ce_event_key prior =?s js_event_key s)
          && match ce_payload prior with
             | Some p => py_eq (JObj p) (JObj (to_event_payload s))
             | None => false
             end)
  end.

(** The identity check of the strict boundary. *)
Definition check_identity (s : JournalSignal) (stored : string) : prog db unit :=
  let conflict := ValueError "strict capture found a conflicting event identity" in
  if str_in (js_kind s) ["membership_change"; "membership_snapshot"] then
    let* same := pread (same_stored s stored) in
    if same : bool then pret tt else praise conflict
  else if stored =?s js_event_id s then pret tt else praise conflict.

(** [append_event] as [capture] calls it *)
Definition append_signal (s : JournalSignal) (now : Z) : prog db string :=
  append_event (js_event_key s) (js_event_id s) (js_trace_id s) (EventMapping (to_event_payload s)) now
    (Some (js_account s)) (Some (js_direction s)) (Some (js_revision s)) (js_audience_ref s).

Definition blank (o : option string) : bool :=
  match o with Some s => negb (str_true (py_strip s)) | None => true end.

(** [SignalJournalSink.capture]; [clock] gives the time of the append, of the projection
    and the ones of the invalidation. *)
Definition capture (sk : SignalJournalSink) (kind : string) (payload : dict) (a : map_args) (clock : nat → Z)
    : prog sink_world (option string) :=
  if ma_strict a && (blank (ma_event_id a) || blank (ma_event_key a))
  then praise (ValueError "strict capture requires non-empty event identity") else
  if negb (sk_has_store sk)
  then if ma_strict a then praise (ValueError "strict capture requires a processing store") else pret None else
  let* mapped := pread (λ _, map_signal channel payload kind a) in
  match mapped with
  | None => if ma_strict a then praise (ValueError "malformed WhatsApp event") else pret None
  | Some signal =>
      let* stored := in_store (append_signal signal (clock 0%nat)) in
      do* (if ma_strict a then in_store (check_identity signal stored) else pret tt) in
      do* (if str_in kind ["edit"; "delete"] then
             let* revoked := in_store (project_revocation signal (ma_strict a) (clock 1%nat)) in
             invalidate_statement_sources sk revoked kind
           else pret tt) in
      do* (if ma_strict a then pret tt else sink_invalidate sk kind payload (λ i, clock (2 + i)%nat)) in
      pret (Some stored)
  end.

End Sink.
