(* ===== verification/SignalProps.v ===== *)
(** * SignalProps

    What mapping, journaling and invalidating provider signals promises: the mapper does
    not fail on malformed content outside the strict boundary, the two native copies of a
    membership change map to one event, a strict capture is journaled or raises, a
    captured edit or delete revokes every earlier revision of its message, and only the
    author's signal reaches a turn. *)

From Stdlib Require Import ZArith Lia.
From S2P Require Import Prelude Tables Json Models Schema Outbox OutboxSpec OutboxRefine OutboxProps Quiet Fixtures.
From S2P Require Import ThreadStore ThreadProps Journal Receipts Authority Routing Registry Actor Identity GateProps PyFloat Signals SignalSink.

Section Mapper.
  Context `{Sha256} (channel : string).

(** ** The mapper *)

Lemma first_text_nonempty payload keys t : first_text payload keys = Some t → t ≠ "".
Proof.
  induction keys as [|k keys IH]; [done|]. cbn [first_text].
  destruct (dict_get k payload) as [[]|]; try exact IH;
    (destruct (str_true _) eqn:E; [|exact IH]; intros [= <-]; by apply str_true_spec).
Qed.

Lemma make_signal_ok kind key chat principal payload body src tgt occ sig :
  make_signal channel kind key chat principal payload body src tgt occ = Ok (Some sig) →
  js_kind sig = kind ∧ js_event_key sig = key ∧ js_channel sig = channel ∧ js_chat_id sig = chat ∧
  js_principal sig = principal ∧ js_source_message_id sig = src ∧ js_target_message_id sig = tgt ∧
  1 ≤ js_revision sig.
Proof.
  unfold make_signal. destruct (match occ with Some _ => _ | None => _ end); [|done]. cbn [rbind].
  intros [= <-]. split_and!; try done. cbn. unfold body_revision.
  repeat case_match; lia.
Qed.

(** What an edit or delete signal carries. *)
Lemma correction_signal payload kind a sig :
  kind ∈ INVALIDATING_KINDS → map_signal channel payload kind a = Ok (Some sig) →
  ∃ m, js_kind sig = kind ∧ js_channel sig = channel ∧ js_chat_id sig ≠ "" ∧ m ≠ "" ∧
       js_source_message_id sig = Some m ∧ js_target_message_id sig = Some m ∧ 1 ≤ js_revision sig.
Proof.
  intros Hk. unfold map_signal.
  assert (str_in kind SIGNAL_KINDS = true) as -> by (apply str_in_spec; unfold INVALIDATING_KINDS, SIGNAL_KINDS in *; set_solver).
  cbn [negb]. destruct (chat_of payload) as [chat|] eqn:Ec; [|done]. apply first_text_nonempty in Ec.
  destruct (map_kind _ _ _ _ _) as [[s|]|] eqn:Em; [|done..]. cbn [rbind]. intros [= <-].
  assert (∃ m, m ≠ "" ∧ ∃ key principal body occ,
            make_signal channel kind key chat principal payload body (Some m) (Some m) occ = Ok (Some s))
    as (m & Hm & key & principal & body & occ & Es).
  { revert Em. unfold map_kind. apply elem_of_cons in Hk as [->|Hk].
    - cbn. unfold map_edit, message_id_of. destruct (first_text _ _) as [m|] eqn:E; [|done].
      apply first_text_nonempty in E. destruct (to_ms _) as [t|]; [|done]. cbn [rbind].
      destruct (edit_revision _ _) as [r|]; [|done]. cbn [rbind]. eauto 10.
    - apply elem_of_cons in Hk as [->|[]%not_elem_of_nil]. cbn. unfold map_delete.
      destruct (first_text _ _) as [m|] eqn:E; [|done]. apply first_text_nonempty in E. eauto 10. }
  apply make_signal_ok in Es as (? & ? & ? & ? & ? & ? & ? & ?). exists m. subst. done.
Qed.

(** *** No error outside the strict boundary *)

(** The time fields convert to a finite number. *)
Definition finite_times (payload : dict) : Prop :=
  (∃ t, to_ms (dict_get "timestamp" payload) = Ok t) ∧
  (∃ t, to_ms (py_or (dict_get "timestamp" payload) (dict_get "editTimestamp" payload)) = Ok t).

Definition no_raise {A} (r : result A) : Prop := ∃ a, r = Ok a.

Lemma no_raise_bind {A B} (r : result A) (k : A → result B) :
  no_raise r → (∀ a, no_raise (k a)) → no_raise (rbind r k).
Proof. intros (a & ->) Hk. apply Hk. Qed.

Lemma no_raise_ok {A} (a : A) : no_raise (Ok a).
Proof. by exists a. Qed.

Lemma make_signal_total kind key chat principal payload body src tgt occ :
  finite_times payload → no_raise (make_signal channel kind key chat principal payload body src tgt occ).
Proof.
  intros [[t Ht] _]. unfold make_signal. apply no_raise_bind; [|intros; apply no_raise_ok].
  destruct occ; [apply no_raise_ok|]. rewrite Ht. apply no_raise_ok.
Qed.

Lemma edit_revision_total v : no_raise (edit_revision v false).
Proof.
  unfold edit_revision. destruct (normalize_revision v None) as [r|e] eqn:E; [apply no_raise_ok|].
  unfold normalize_revision in E. repeat (case_match; simplify_eq); apply no_raise_ok.
Qed.

Lemma observation_total payload : no_raise (encrypted_edit_observation payload false).
Proof. unfold encrypted_edit_observation, refuse. cbv zeta. repeat case_match; apply no_raise_ok. Qed.

Lemma membership_total kind payload chat :
  finite_times payload → no_raise (map_membership channel kind payload chat false).
Proof.
  intros Hf. unfold map_membership, refuse. cbv zeta.
  repeat (case_match; try apply no_raise_ok); by apply make_signal_total.
Qed.

Lemma group_metadata_total kind payload chat :
  finite_times payload → no_raise (map_group_metadata channel kind payload chat false).
Proof.
  intros Hf. unfold map_group_metadata, refuse. destruct (valid_group_metadata payload) eqn:E; [|apply no_raise_ok].
  cbn [negb]. cbv zeta. unfold valid_group_metadata in E. rewrite !andb_true_iff in E.
  destruct E as ((((((_ & _) & _) & _) & Ho) & _) & Hc).
  assert (∀ v, safe_moment (Some v) = true → is_Some (js_safe_integer v)) as Hs.
  { intros v. cbn. destruct (js_safe_integer v); [by eexists|done]. }
  destruct (dict_get "occurredMs" payload) as [v|] eqn:Ev.
  - unfold dict_has in Hc. rewrite Ev in Hc. cbn [is_some is_none negb orb] in Hc.
    destruct (Hs v Hc) as (z & Hz). cbv iota. rewrite Hz. by apply make_signal_total.
  - destruct (dict_get "observedAtMs" payload) as [v|]; [|done].
    destruct (Hs v Ho) as (z & Hz). cbv iota. change (default JNull (Some v)) with v. rewrite Hz. by apply make_signal_total.
Qed.

(** Outside the strict boundary malformed content is never an error: for every
    signal kind and payload whose time fields are finite the mapper answers with a signal
    or with nothing. *)
Theorem lenient_map_total payload kind a :
  kind ∈ SIGNAL_KINDS → ma_strict a = false → finite_times payload →
  no_raise (map_signal channel payload kind a).
Proof.
  intros Hk Ha Hf. unfold map_signal. rewrite (proj2 (str_in_spec _ _) Hk), Ha. cbn [negb].
  destruct (chat_of payload) as [chat|]; [|apply no_raise_ok].
  apply no_raise_bind; [|intros; apply no_raise_ok]. unfold map_kind.
  destruct Hf as [[t Ht] [t2 Ht2]]. assert (finite_times payload) as Hf by (split; eauto).
  repeat (case_match; [|]).
  - unfold map_message. case_match; [|apply no_raise_ok].
    apply no_raise_bind; [apply observation_total|]. intros; by apply make_signal_total.
  - unfold map_edit. case_match; [|apply no_raise_ok]. rewrite Ht2. cbn [rbind].
    apply no_raise_bind; [apply edit_revision_total|]. intros; by apply make_signal_total.
  - unfold map_delete. case_match; [|apply no_raise_ok]. by apply make_signal_total.
  - unfold map_reaction. cbv zeta. rewrite Ht. cbn [rbind]. case_match; [apply no_raise_ok|by apply make_signal_total].
  - by apply group_metadata_total.
  - by apply membership_total.
  - unfold map_receipt. case_match; [|apply no_raise_ok]. by apply make_signal_total.
Qed.

(** *** The two copies of a membership change *)

Definition id_suffix (key : string) : string := if key =?s "lid" then "@lid" else "@s.whatsapp.net".

(** A canonical participant: one identifier whose suffix tells its kind. *)
Definition canonical_id (d : dict) : Prop :=
  ∃ key t, (key = "lid" ∨ key = "phone_jid") ∧ d = [(key, JStr t)] ∧ t = before_char 64 t +:+ id_suffix key.

Lemma membership_id_shape v suffix key d :
  membership_id v suffix key = Some d → d = [] ∨ ∃ t, d = [(key, JStr t)] ∧ t = before_char 64 t +:+ suffix.
Proof.
  unfold membership_id. destruct v as [[]|]; try done; [intros [= <-]; by left| |intros [= <-]; by left].
  destruct (_ && _) eqn:E; [|done]. intros [= <-]. right. apply andb_true_iff in E as [_ E].
  unfold digits_then in E. apply andb_true_iff in E as [_ E%str_eqb_eq]. eauto.
Qed.

Lemma participant_stable v d : participant false v = Some d → canonical_id (stable_participant d).
Proof.
  unfold participant. destruct v as [| | | | | |o]; try done.
  destruct (membership_id _ "@lid" _) as [lid|] eqn:E1; [|done].
  destruct (membership_id _ "@s.whatsapp.net" _) as [phone|] eqn:E2; [|done].
  apply membership_id_shape in E1 as [->|(t1 & -> & H1)].
  - apply membership_id_shape in E2 as [->|(t2 & -> & H2)]; [done|]. intros [= <-].
    exists "phone_jid", t2. auto.
  - intros [= <-]. exists "lid", t1. auto.
Qed.

Lemma all_some_Forall {A B} (f : A → option B) (P : B → Prop) l r :
  (∀ x y, f x = Some y → P y) → all_some f l = Some r → Forall P r ∧ length r = length l.
Proof.
  intros Hf. revert r. induction l as [|x l IH]; intros r; cbn [all_some]; [by intros [= <-]|].
  destruct (f x) as [y|] eqn:E; [|done]. destruct (all_some f l) as [r'|]; [|done]. intros [= <-].
  destruct (IH r' eq_refl) as [H1 H2]. split; [constructor; eauto|cbn; congruence].
Qed.

Lemma canonical_id_antisym a b :
  canonical_id a → canonical_id b → participant_leb a b = true → participant_leb b a = true → a = b.
Proof.
  intros (k1 & t1 & Hk1 & -> & H1) (k2 & t2 & Hk2 & -> & H2). unfold participant_leb. cbn [first_value].
  intros Ha Hb. pose proof (String.leb_antisym _ _ Ha Hb) as Ht. subst t2.
  rewrite H1 in H2 at 1. apply (inj _) in H2. destruct Hk1 as [-> | ->], Hk2 as [-> | ->]; done.
Qed.

Lemma stable_order ps1 ps2 :
  Forall canonical_id ps1 → ps1 ≡ₚ ps2 → order_by participant_leb ps1 = order_by participant_leb ps2.
Proof.
  intros Hc Hp.
  assert (∀ l, StronglySorted (λ x y, participant_leb x y = true) (order_by participant_leb l)) as Hs.
  { intros l. apply order_by_sorted.
    - intros x y. apply String.leb_total.
    - intros x y z. apply string_leb_trans. }
  eapply StronglySorted_unique_strong; [|apply Hs..|by rewrite !order_by_perm].
  intros x y Hx%elem_of_order_by Hy%elem_of_order_by. rewrite <- Hp in Hy. rewrite Forall_forall in Hc.
  apply canonical_id_antisym; auto.
Qed.

(** The payloads are copies of one change: they agree on chat, action, change id and
    timestamp, both name a well-formed actor or none, and their participants have the same
    identities, in any order and with any additional phone numbers. *)
Record change_copies (p1 p2 : dict) : Prop := MkCopies {
  cc_chat : chat_of p1 = chat_of p2;
  cc_action : dict_get "action" p1 = dict_get "action" p2;
  cc_change : change_id_of p1 = change_id_of p2;
  cc_time : dict_get "timestamp" p1 = dict_get "timestamp" p2;
  cc_actor : change_actor_ok p1 = change_actor_ok p2;
  cc_participants : ∃ l1 l2 ps1 ps2,
    dict_get "participants" p1 = Some (JArr l1) ∧ all_some (participant false) l1 = Some ps1 ∧
    dict_get "participants" p2 = Some (JArr l2) ∧ all_some (participant false) l2 = Some ps2 ∧
    map stable_participant ps1 ≡ₚ map stable_participant ps2;
}.

(** Both native copies of a membership change map to the same signal, whatever the
    order of their participants, their phone enrichment and the time they were observed,
    so the second copy is recognised as a replay of the first. *)
Theorem membership_copies_agree p1 p2 event_id event_key account o1 o2 strict :
  change_copies p1 p2 →
  map_signal channel p1 "membership_change" (MkMapArgs event_id event_key account o1 strict) =
  map_signal channel p2 "membership_change" (MkMapArgs event_id event_key account o2 strict).
Proof.
  intros [Hc Ha Hi Ht Hac (l1 & l2 & ps1 & ps2 & Hl1 & Hs1 & Hl2 & Hs2 & Hp)].
  destruct (all_some_Forall _ (canonical_id ∘ stable_participant) _ _ participant_stable Hs1) as [Hf1 Hn1].
  destruct (all_some_Forall _ (canonical_id ∘ stable_participant) _ _ participant_stable Hs2) as [Hf2 Hn2].
  pose proof (Permutation_length Hp) as Hn. rewrite !length_map in Hn.
  assert (∀ p ps, change_body p ps = match dict_get "action" p with
            | Some (JStr action) => if is_some (head ps) && str_in action MEMBERSHIP_ACTIONS
                then Some [("action", JStr action); ("participants", JArr (map JObj (order_by participant_leb (map stable_participant ps))))]
                else None
            | _ => None end) as Hb.
  { intros p [|x ps]; unfold change_body; by destruct (dict_get "action" p) as [[]|]. }
  assert (change_body p1 ps1 = change_body p2 ps2) as Hbody.
  { rewrite !Hb, Ha, (stable_order (map stable_participant ps1) (map stable_participant ps2)); [|by rewrite Forall_map|done].
    replace (is_some (head ps1)) with (is_some (head ps2)) by (destruct ps1, ps2; done). done. }
  unfold map_signal. cbn [ma_strict]. rewrite Hc.
  change (str_in "membership_change" SIGNAL_KINDS) with true. cbn [negb].
  destruct (chat_of p2) as [chat|]; [|done].
  assert (map_kind channel p1 "membership_change" chat strict = map_kind channel p2 "membership_change" chat strict) as ->.
  { change (map_membership channel "membership_change" p1 chat strict = map_membership channel "membership_change" p2 chat strict).
    unfold map_membership. cbv zeta. rewrite Hl1, Hl2.
    change ("membership_change" =?s "membership_snapshot") with false.
    replace (length l1) with (length l2) by congruence. rewrite Hs1, Hs2, Hbody, Hac, Hi.
    unfold make_signal. rewrite Ht. done. }
  destruct (map_kind _ _ _ _ _) as [[s|]|] eqn:Em; [|done..]. cbn [rbind option_fmap option_map fmap].
  assert (js_kind s = "membership_change") as Hk.
  { revert Em. change (map_kind channel p2 "membership_change" chat strict) with (map_membership channel "membership_change" p2 chat strict).
    unfold map_membership, refuse. cbv zeta. repeat (case_match; try done); by intros (? & _)%make_signal_ok. }
  unfold with_args. cbn. rewrite Hk. done.
Qed.

End Mapper.

(** ** Frames of the sink *)

(** The journal and the source authority. *)
Definition sources (s : db) : list event_row * list authority_row := (events s, event_source_authority s).

Lemma keeps_in_store {R A} (f : db → R) (p : prog db A) : keeps f p → keeps (f ∘ sw_store) (in_store p).
Proof. intros Hp w. unfold in_store. specialize (Hp (sw_store w)). by destruct (p (sw_store w)). Qed.

Lemma keeps_derived {R} (f : db → R) b c : keeps (f ∘ sw_store) (derived_if b c).
Proof. by destruct b. Qed.

Lemma keeps_attempt {S R A} (f : S → R) (p : prog S A) : keeps f p → keeps f (attempt p).
Proof. intros Hp s. unfold attempt. specialize (Hp s). by destruct (p s) as [[?|[]] ?]. Qed.

Lemma keeps_pread {S R A} (f : S → R) (g : S → result A) : keeps f (pread g).
Proof. by intros s. Qed.

Lemma keeps_praise {S R A} (f : S → R) e : keeps f (@praise S A e).
Proof. by intros s. Qed.

Lemma keeps_filter_prog {S R A} (f : S → R) (p : A → prog S bool) l :
  (∀ x, keeps f (p x)) → keeps f (filter_prog p l).
Proof.
  intros Hp. induction l as [|x l IH]; [by intros s|]. cbn [filter_prog].
  apply keeps_bind; [done|]. intros b. apply keeps_bind; [done|]. by intros r s.
Qed.

Create HintDb sink_frames.

Ltac keep_steps :=
  repeat first
    [ solve [eauto 1 with sink_frames] | apply keeps_derived | apply keeps_pread | apply keeps_praise | apply keeps_ret | apply keeps_get
    | apply keeps_in_store | apply keeps_attempt | assumption
    | apply keeps_bind; [|intros ?] | progress intros | case_match ].

Section Sink.
  Context `{Sha256} (channel : string).

Lemma transition_sources e x t n ev wk : keeps sources (transition e x t n ev wk).
Proof.
  unfold transition. destruct x as [|y x]; [by intros s|]. apply keeps_write. intros s0 b s'. cbv zeta.
  destruct (effect_row_of e s0); [|by intros [= _ <-]]. destruct (negb _); [by intros [= _ <-]|].
  destruct (validate_transition _ _ _ _ _); [|done]. cbn [rbind]. destruct (negb _); [by intros [= _ <-]|].
  intros [= _ <-]. unfold commit_transition. by repeat case_match.
Qed.

Lemma bump_sources t x n : keeps sources (bump_turn_revision t x n).
Proof.
  unfold bump_turn_revision. apply keeps_bind; [|by intros [[?|] ?]].
  apply keeps_write. intros s a s' Hx. repeat (case_match; try done); by injection Hx as _ <-.
Qed.

Lemma cancel_sources t r n why : keeps sources (cancel_stale_effects t r n why).
Proof.
  unfold cancel_stale_effects. apply keeps_bind; [by intros s|]. intros ids.
  apply keeps_filter_prog. intros x. apply transition_sources.
Qed.

#[local] Hint Resolve transition_sources bump_sources cancel_sources : sink_frames.

Lemma invalidate_turn_sources iv t th p ch chat clock : keeps sources (invalidate_turn iv t th p ch chat clock).
Proof. unfold invalidate_turn, actor_correction, correct_turn. keep_steps. Qed.

#[local] Hint Resolve invalidate_turn_sources : sink_frames.

Lemma invalidate_sources iv kind payload clock :
  keeps (sources ∘ sw_store) (invalidate_signal channel iv kind payload clock).
Proof. unfold invalidate_signal, apply_invalidation. keep_steps. Qed.

Lemma project_events event moment : keeps events (project_source_revocation event moment).
Proof.
  assert (∀ row s u s', ensure_row_authority row s = Ok (u, s') → events s' = events s) as He.
  { intros row s u s'. unfold ensure_row_authority. destruct (authority_of _ _ _); [by intros [= _ <-]|].
    destruct (event_from_row row); [|done]. cbn [rbind]. by intros [= _ <-]. }
  assert (∀ id rows acc s acc' s', revoke_candidates id moment acc rows s = Ok (acc', s') → events s' = events s) as Hr.
  { intros id rows. induction rows as [|row rows IH]; intros acc s acc' s'; cbn [revoke_candidates]; [by intros [= _ <-]|].
    unfold tbind, revoke_candidate. destruct (ensure_row_authority row s) as [[u s1]|] eqn:E; [|done].
    apply He in E as <-. cbn [rbind]. by destruct (is_revoked _ _ s1); intros ->%IH. }
  unfold project_source_revocation. repeat (case_match; [by intros s|]). apply keeps_write.
  intros s a s'. cbv zeta. destruct (List.last _ None) as [prior|]; [|by intros [= _ <-]].
  destruct (_ =?s _); [|apply Hr]. unfold inherit_audience.
  destruct (ensure_row_authority prior s) as [[u s1]|] eqn:E; [|done]. apply He in E as <-. cbn [rbind].
  destruct (authority_of _ _ s1); cbn [rbind]; [|by intros [= _ <-]]. by intros ->%Hr.
Qed.

(** ** Capturing *)

(** A journaled event is found under its key. *)
Lemma append_stored key id tr p now acc dir rev aud s eid s' :
  append_event key id tr p now acc dir rev aud s = (Ok eid, s') →
  ∃ row, row ∈ events s' ∧ ev_event_id row = eid ∧ ev_event_key row = key.
Proof.
  unfold append_event. destruct (negb _); [done|].
  destruct (coerce_event _ _ _ _ _ _ _ _ _) as [e|] eqn:Ec; [|done].
  apply coerce_event_wf in Ec as (_ & Hk & Hi). unfold write.
  destruct (append_event_connection e s) as [[i s1]|] eqn:E; [|done]. intros [= -> ->].
  pose proof (append_frame e s eid s' E) as Hf. unfold append_event_connection in E. rewrite Hk in E, Hf.
  destruct (by_id ev_event_key key (events s)) as [row|] eqn:Eb.
  - apply by_id_Some_inv in Eb as [Hin Hkey]. destruct Hf as [Hf|(Hf & _)]; [|done].
    exists row. rewrite Hf. split; [done|]. split; [|done]. repeat (case_match; try done); by injection E as <- _.
  - destruct (row_exists _ _); [done|]. injection E as Heid Hs. destruct Hf as [Hf|(_ & _ & Hf)].
    + exfalso. assert (length (events s') = S (length (events s))) as Hl.
      { rewrite <- Hs, (proj1 (ensure_authority_frame e _)), record_relations_events.
        unfold insert_row. cbn. rewrite length_app. cbn. lia. }
      rewrite Hf in Hl. lia.
    + exists (event_row_of e). rewrite Hf, elem_of_insert_row. split; [by right|]. by rewrite <- Heid, <- Hk.
Qed.

Lemma or_own_given o own : blank o = false → ∃ s, o = Some s ∧ or_own o own = s.
Proof.
  destruct o as [s|]; [|done]. cbn. intros Hb%negb_false_iff. exists s. split; [done|].
  destruct (str_true s) eqn:E; [done|]. unfold str_true in E. apply negb_false_iff, str_eqb_eq in E as ->. done.
Qed.

Lemma map_signal_key payload kind a sig :
  blank (ma_event_id a) = false → blank (ma_event_key a) = false →
  map_signal channel payload kind a = Ok (Some sig) →
  ma_event_id a = Some (js_event_id sig) ∧ ma_event_key a = Some (js_event_key sig).
Proof.
  intros Hi Hk. unfold map_signal. destruct (negb _); [done|]. destruct (chat_of payload) as [chat|]; [|done].
  destruct (map_kind _ _ _ _ _) as [[s|]|]; [|done..]. cbn [rbind]. intros [= <-]. unfold with_args. cbn.
  destruct (or_own_given _ (js_event_id s) Hi) as (x & Hx & ->).
  destruct (or_own_given _ (js_event_key s) Hk) as (y & Hy & ->). done.
Qed.

Lemma map_kind_kind payload kind chat strict s :
  kind ∈ SIGNAL_KINDS → map_kind channel payload kind chat strict = Ok (Some s) → js_kind s = kind.
Proof.
  intros Hk. unfold map_kind, map_message, map_edit, map_delete, map_reaction, map_group_metadata, map_membership,
    map_receipt, refuse, SIGNAL_KINDS in *. cbv zeta.
  repeat match goal with
  | |- context [rbind ?x _] => destruct x; cbn [rbind]; try done
  | |- (if ?k =?s ?c then _ else _) = _ → _ => destruct (k =?s c) eqn:?
  | |- (if str_in ?k ?c then _ else _) = _ → _ => destruct (str_in k c) eqn:?
  | |- match ?x with _ => _ end = _ → _ => destruct x; try done
  | |- (if ?x then _ else _) = _ → _ => destruct x; try done
  end; intros Hx; first [discriminate Hx|apply make_signal_ok in Hx as (Hj & _); rewrite Hj];
    try (symmetry; by apply str_eqb_eq); try done.
  all: set_unfold in Hk; by destruct_or? Hk; subst.
Qed.

Lemma map_signal_kind payload kind a sig : map_signal channel payload kind a = Ok (Some sig) → js_kind sig = kind.
Proof.
  unfold map_signal. destruct (negb _) eqn:En; [done|]. apply negb_false_iff, str_in_spec in En.
  destruct (chat_of payload) as [chat|]; [|done].
  destruct (map_kind _ _ _ _ _) as [[s|]|] eqn:Ek; [|done..]. cbn [rbind]. intros [= <-].
  by apply map_kind_kind in Ek.
Qed.

Lemma check_identity_ok sig stored s u s' :
  check_identity sig stored s = (Ok u, s') →
  s' = s ∧ (js_kind sig ∉ ["membership_change"; "membership_snapshot"] → stored = js_event_id sig).
Proof.
  unfold check_identity. cbv zeta. destruct (str_in _ _) eqn:E.
  - apply str_in_spec in E. unfold pbind, pread. destruct (same_stored _ _ _) as [[]|]; try done.
    by intros [= _ <-].
  - destruct (stored =?s _) eqn:Es; [|done]. apply str_eqb_eq in Es. by intros [= _ <-].
Qed.

(** What [capture] does after the append. *)
Definition after_append (sk : SignalJournalSink) (kind : string) (payload : dict) (strict : bool)
    (sig : JournalSignal) (stored : string) (clock : nat → Z) : prog sink_world (option string) :=
  do* (if str_in kind ["edit"; "delete"] then
         let* revoked := in_store (project_revocation sig strict (clock 1%nat)) in
         invalidate_statement_sources sk revoked kind
       else pret tt) in
  do* (if strict then pret tt else sink_invalidate channel sk kind payload (λ i, clock (2 + i)%nat)) in
  pret (Some stored).

#[local] Hint Resolve project_events : sink_frames.

Lemma invalidate_events iv kind payload clock :
  keeps (events ∘ sw_store) (invalidate_signal channel iv kind payload clock).
Proof. intros w. pose proof (invalidate_sources iv kind payload clock w) as Hx. unfold compose, sources in *. congruence. Qed.

#[local] Hint Resolve invalidate_events : sink_frames.

Lemma after_append_events sk kind payload strict sig stored clock :
  keeps (events ∘ sw_store) (after_append sk kind payload strict sig stored clock).
Proof. unfold after_append, project_revocation, invalidate_statement_sources, sink_invalidate. keep_steps. Qed.

Lemma after_append_value sk kind payload strict sig stored clock w r w' :
  after_append sk kind payload strict sig stored clock w = (r, w') → (∃ e, r = Raise e) ∨ r = Ok (Some stored).
Proof.
  unfold after_append, pbind at 1. destruct (_ w) as [[u|e] w1]; [|intros [= <- _]; by eauto].
  unfold pbind. destruct (_ w1) as [[u'|e] w2]; intros [= <- _]; eauto.
Qed.

(** The canonical boundary fails closed. A strict capture either raises or returns the
    id of an event that the journal now holds under the given event key, and outside
    membership events that id is the given one; it is never a silent no-op. *)
Theorem strict_capture_journaled sk kind payload a clock w r w' :
  ma_strict a = true → capture channel sk kind payload a clock w = (r, w') →
  (∃ e, r = Raise e) ∨
  ∃ id row, r = Ok (Some id) ∧ row ∈ events (sw_store w') ∧ ev_event_id row = id ∧
    ma_event_key a = Some (ev_event_key row) ∧
    (kind ∉ ["membership_change"; "membership_snapshot"] → ma_event_id a = Some id).
Proof.
  intros Hs. unfold capture. rewrite Hs. cbn [andb].
  destruct (_ || _) eqn:Eb; [by intros [= <- <-]; eauto|]. apply orb_false_iff in Eb as [Hbi Hbk].
  destruct (sk_has_store sk); [|by intros [= <- <-]; eauto]. cbn [negb].
  unfold pbind at 1, pread at 1. destruct (map_signal _ _ _ _) as [[sig|]|e] eqn:Em;
    [|by intros [= <- <-]; eauto..].
  destruct (map_signal_key _ _ _ _ Hbi Hbk Em) as [Hid Hkey]. apply map_signal_kind in Em as Hkind.
  unfold pbind at 1. destruct (in_store (append_signal sig _) w) as [[stored|e] w1] eqn:Ea;
    [|by intros [= <- <-]; eauto].
  unfold in_store in Ea. destruct (append_signal sig _ (sw_store w)) as [[x|] s1] eqn:E1; [|done].
  injection Ea as -> <-. apply append_stored in E1 as (row & Hrow & Hrid & Hrk).
  unfold pbind at 1. destruct (in_store (check_identity sig stored) _) as [[u|e] w2] eqn:Ec;
    [|by intros [= <- <-]; eauto].
  unfold in_store in Ec. cbn [sw_store set_field] in Ec.
  destruct (check_identity sig stored s1) as [[x|] s2] eqn:E2; [|done]. injection Ec as -> <-.
  apply check_identity_ok in E2 as [-> Hown]. intros Hrest.
  change (after_append sk kind payload true sig stored clock (w <| sw_store := s1 |>) = (r, w')) in Hrest.
  pose proof (after_append_events sk kind payload true sig stored clock (w <| sw_store := s1 |>)) as Hev.
  rewrite Hrest in Hev. unfold compose in Hev. cbn in Hev.
  apply after_append_value in Hrest as [Hr| ->]; [by left|]. right. exists stored, row.
  split_and!; [done|by rewrite Hev|done|congruence|]. intros Hm. rewrite Hid. f_equal. symmetry. apply Hown. congruence.
Qed.

(** A projection revokes every candidate. *)
Lemma project_revokes event moment s :
  source_inv s → projects event = true → 1 ≤ ce_revision event →
  ∃ ids s', project_source_revocation event moment s = (Ok ids, s') ∧
    ∀ r, r ∈ revocation_candidates event s → row_revoked s' r = true.
Proof.
  intros Hi Hp Hrev.
  destruct (prepare_spec event moment s Hi Hrev) as (s1 & E1 & Hi1 & _).
  destruct (revoke_candidates_spec (ce_event_id event) moment (revocation_candidates event s) [] s1)
    as (s' & E2 & _ & _ & Hr2 & _).
  { apply Forall_forall. intros r [Hr _]%candidates_elem. by eapply (proj1 (Forall_forall _ _) (si_rows s Hi)). }
  { by apply candidates_nodup, Hi. }
  { apply Hi1. }
  rewrite Forall_forall in Hr2. eexists _, s'. split; [|done].
  rewrite (project_steps event moment s s1) by done. unfold write. by rewrite E2.
Qed.

Lemma correction_projects payload kind a sig :
  channel ≠ "" → kind ∈ INVALIDATING_KINDS → map_signal channel payload kind a = Ok (Some sig) →
  js_event_id sig ≠ "" → projects (event_of_signal sig) = true ∧ 1 ≤ js_revision sig.
Proof.
  intros Hch Hk Hm Hid. destruct (correction_signal channel payload kind a sig Hk Hm) as (m & Hkd & Hc & Hchat & Hne & Hs & Ht & Hr).
  split; [|done]. unfold projects, event_of_signal, provider_of, nonempty. cbn -[str_in]. rewrite Hkd, Hc, Hs.
  apply str_true_spec in Hne, Hchat, Hch, Hid. rewrite Hne, Hne, Hchat, Hch, Hid.
  rewrite (proj2 (str_in_spec kind ["edit"; "delete"]) Hk). done.
Qed.

Lemma invalidate_authority sk kind payload clock :
  keeps (sources ∘ sw_store) (sink_invalidate channel sk kind payload clock).
Proof. unfold sink_invalidate. pose proof invalidate_sources. keep_steps. Qed.

(** C38: A captured edit or delete takes the earlier revisions of its message out of use:
    afterwards every message or edit event of that message in its chat and account, other
    than the signal itself, is a revoked source, and the invalidation that follows does not
    undo it. *)
Theorem captured_correction_revokes sk kind payload a clock w sig id w' :
  source_inv (sw_store w) → channel ≠ "" → kind ∈ INVALIDATING_KINDS →
  map_signal channel payload kind a = Ok (Some sig) → js_event_id sig ≠ "" →
  capture channel sk kind payload a clock w = (Ok (Some id), w') →
  ∀ row, row ∈ events (sw_store w') → prior_revision (event_of_signal sig) row = true →
    ev_event_id row ≠ js_event_id sig → row_revoked (sw_store w') row = true.
Proof.
  intros Hi Hch Hk Hm Hid. destruct (correction_projects payload kind a sig Hch Hk Hm Hid) as [Hp Hrev].
  unfold capture. destruct (_ && _); [done|]. destruct (negb _); [by destruct (ma_strict a)|].
  unfold pbind at 1, pread at 1. rewrite Hm.
  unfold pbind at 1. destruct (in_store (append_signal sig _) w) as [[stored|e] w1] eqn:Ea; [|done].
  assert (source_inv (sw_store w1)) as Hi1.
  { unfold in_store, append_signal in Ea. pose proof (append_source_inv (js_event_key sig) (js_event_id sig) (js_trace_id sig)
      (EventMapping (to_event_payload sig)) (clock 0%nat) (Some (js_account sig)) (Some (js_direction sig))
      (Some (js_revision sig)) (js_audience_ref sig) _ Hi) as Hx.
    destruct (append_event _ _ _ _ _ _ _ _ _ (sw_store w)) as [x s1]. by injection Ea as _ <-. }
  unfold pbind at 1. destruct ((if ma_strict a then in_store (check_identity sig stored) else pret tt) w1)
    as [[u|e] w2] eqn:Ec; [|done].
  assert (sw_store w2 = sw_store w1) as Hw2.
  { destruct (ma_strict a); [|by injection Ec as _ <-]. unfold in_store in Ec.
    destruct (check_identity sig stored (sw_store w1)) as [[x|] s2] eqn:E2; [|done]. injection Ec as _ <-.
    by apply check_identity_ok in E2 as [-> _]. }
  rewrite (proj2 (str_in_spec kind ["edit"; "delete"]) Hk). unfold pbind at 1.
  destruct (project_revokes (event_of_signal sig) (clock 1%nat) (sw_store w2)) as (ids & s3 & E3 & Hr3);
    [by rewrite Hw2|done|done|].
  assert (in_store (project_revocation sig (ma_strict a) (clock 1%nat)) w2 = (Ok ids, w2 <| sw_store := s3 |>)) as E4.
  { unfold in_store, project_revocation. destruct (ma_strict a); [by rewrite E3|].
    unfold pbind, attempt. by rewrite E3. }
  pose proof (project_events (event_of_signal sig) (clock 1%nat) (sw_store w2)) as He3. rewrite E3 in He3. cbn in He3.
  unfold pbind at 1. rewrite E4.
  assert (∃ w4, invalidate_statement_sources sk ids kind (w2 <| sw_store := s3 |>) = (Ok tt, w4) ∧ sw_store w4 = s3)
    as (w4 & -> & Hw4).
  { unfold invalidate_statement_sources, derived_if. destruct (_ && _); by eexists. }
  unfold pbind. set (p := if ma_strict a then _ else _).
  assert (keeps (sources ∘ sw_store) p) as Hkp.
  { unfold p. destruct (ma_strict a); [by intros ?|]. apply invalidate_authority. }
  specialize (Hkp w4). destruct (p w4) as [[u'|e] w5]; [|done]. intros [= _ <-]. unfold compose, sources in Hkp. cbn [snd] in Hkp.
  injection Hkp as Hev Hau. rewrite Hw4 in Hev, Hau. intros row Hrow Hpr Hne.
  unfold row_revoked, is_revoked, authority_of. rewrite Hau.
  apply (Hr3 row), candidates_elem. rewrite Hev, He3 in Hrow. done.
Qed.

(** ** Invalidation *)

Lemma event_from_row_fields row e :
  event_from_row row = Ok e → ce_kind e = ev_kind row ∧ ce_principal e = ev_principal row ∧ ce_event_id e = ev_event_id row.
Proof. unfold event_from_row. intros (-> & _)%CanonicalEvent_check_ok. done. Qed.

Lemma events_from_rows_elem rows es e :
  events_from_rows rows = Ok es → e ∈ es → ∃ row, row ∈ rows ∧ event_from_row row = Ok e.
Proof.
  revert es. induction rows as [|row rows IH]; intros es; cbn [events_from_rows]; [intros [= <-] []%not_elem_of_nil|].
  destruct (event_from_row row) as [x|] eqn:Ex; [|done]. cbn [rbind].
  destruct (events_from_rows rows) as [l|]; [|done]. cbn [rbind]. intros [= <-] [->|He]%elem_of_cons.
  - exists row. split; [left|done].
  - destruct (IH l eq_refl He) as (r & Hr & Hx). exists r. split; [by right|done].
Qed.

(** No journaled message that the signal names is by the signal's sender. *)
Definition foreign_signal (payload : dict) (kind : string) (s : db) : Prop :=
  ∀ sig, map_signal channel payload kind no_args = Ok (Some sig) →
    js_principal sig = "" ∨
    ∀ e, e ∈ source_rows (target_of sig) s → ev_kind e = "message" → ev_principal e ≠ js_principal sig.

(** At most the summary of the group state that used the message is dropped. *)
Definition only_group_state (payload : dict) (kind : string) (l : list sink_call) : Prop :=
  l = [] ∨ ∃ sig, map_signal channel payload kind no_args = Ok (Some sig) ∧
    l = [InvalidateGroupState (js_channel sig) (js_chat_id sig) (target_of sig)].

(** C39: The invalidator obeys only the author. Given an edit or delete by anybody else than
    the author of the message it names, it leaves the processing store exactly as it was - no
    turn is revised and no effect withdrawn -, invalidates no statement and no note, and
    answers that nothing was applied; the only thing it may do is to drop the summary of the
    group state that used the message. (Capturing the signal is another matter: it journals
    it and revokes sources whoever sent it.) *)
Theorem foreign_signal_refused iv kind payload clock w r w' :
  foreign_signal payload kind (sw_store w) →
  invalidate_signal channel iv kind payload clock w = (r, w') →
  sw_store w' = sw_store w ∧
  (∃ l, sw_calls w' = sw_calls w ++ l ∧ only_group_state payload kind l) ∧
  ∀ i, r = Ok i → applied i = false.
Proof.
  intros Hf. unfold invalidate_signal.
  assert (∀ reason x w1, sw_store w1 = sw_store w → (∃ l, sw_calls w1 = sw_calls w ++ l ∧ only_group_state payload kind l) →
    (Ok (refusal kind reason), w1) = x → x = (r, w') →
    sw_store w' = sw_store w ∧ (∃ l, sw_calls w' = sw_calls w ++ l ∧ only_group_state payload kind l) ∧
    ∀ i, r = Ok i → applied i = false) as Hdone.
  { intros reason x w1 Hs Hl <- [= <- <-]. split; [done|]. split; [done|]. by intros i [= <-]. }
  assert (∃ l, sw_calls w = sw_calls w ++ l ∧ only_group_state payload kind l) as H0 by (exists []; rewrite app_nil_r; split; [done|by left]).
  destruct (negb (str_in _ _)); [by apply (Hdone "not_an_invalidating_signal" _ w)|].
  unfold pbind at 1, pread at 1. destruct (map_signal _ _ _ _) as [[sig|]|e] eqn:Em;
    [|by apply (Hdone "unmappable_signal" _ w)|by intros [= <- <-]].
  cbv zeta. destruct (negb (str_true _)) eqn:Et; [by apply (Hdone "no_target_message" _ w)|].
  unfold pbind at 1. destruct (derived_if _ _ w) as [x w1] eqn:Ed.
  assert (x = Ok tt ∧ sw_store w1 = sw_store w ∧ ∃ l, sw_calls w1 = sw_calls w ++ l ∧ only_group_state payload kind l)
    as (-> & Hs1 & Hl1).
  { unfold derived_if, derived_call in Ed. destruct (_ && _); injection Ed as <- <-; (split; [done|split; [done|]]); [|exact H0].
    eexists [_]. split; [done|]. right. by exists sig. }
  unfold pbind at 1, in_store at 1, pread at 1. apply negb_false_iff in Et. unfold events_by_source_message. rewrite Et, Hs1.
  assert (w1 <| sw_store := sw_store w |> = w1) as Hw1 by (destruct w1; cbn in *; by rewrite Hs1).
  rewrite Hw1.
  destruct (events_from_rows _) as [found|e] eqn:Ef; [|by intros [= <- <-]].
  destruct (List.filter _ found) as [|o os] eqn:Eo; [by apply (Hdone "no_journaled_source" _ w1)|].
  rewrite <- Eo. destruct (List.last _ None) as [newest|] eqn:El; [|by apply (Hdone "sender_is_not_author" _ w1)].
  destruct (Hf sig Em) as [Hp|Hp]; [rewrite Hp; by apply (Hdone "sender_is_not_author" _ w1)|].
  exfalso. apply last_elem in El. apply list_elem_of_In, filter_In in El as [El Hpr%str_eqb_eq].
  apply filter_In in El as [El Hkd%str_eqb_eq]. apply list_elem_of_In in El.
  destruct (events_from_rows_elem _ _ _ Ef El) as (row & Hrow & (Hk & Hpp & _)%event_from_row_fields).
  apply (Hp row Hrow); congruence.
Qed.

Lemma transition_turns e x t n ev wk : keeps turns (transition e x t n ev wk).
Proof.
  unfold transition. destruct x as [|y x]; [by intros s|]. apply keeps_write. intros s0 b s'. cbv zeta.
  destruct (effect_row_of e s0); [|by intros [= _ <-]]. destruct (negb _); [by intros [= _ <-]|].
  destruct (validate_transition _ _ _ _ _); [|done]. cbn [rbind]. destruct (negb _); [by intros [= _ <-]|].
  intros [= _ <-]. unfold commit_transition. by repeat case_match.
Qed.

Lemma cancel_turns t r n why : keeps turns (cancel_stale_effects t r n why).
Proof.
  unfold cancel_stale_effects. apply keeps_bind; [by intros s|]. intros ids.
  apply keeps_filter_prog. intros x. apply transition_turns.
Qed.

(** Revising a live turn. *)
Lemma revise_live turn t th now1 now2 s :
  outbox_inv s → get_turn turn s = Some t → get_thread (tu_thread_id t) s = Some th →
  turn_ended t = false → 1 ≤ tu_revision t →
  ∃ ref ids s', bump_turn_revision turn (tu_revision t) now1 s =
      (Ok ref, s <| turns ::= bumped_turns turn (tu_revision t) now1 |>) ∧
    cancel_stale_effects turn (tr_revision ref) now2 "superseded" (s <| turns ::= bumped_turns turn (tu_revision t) now1 |>)
      = (Ok ids, s') ∧
    withdrawn turn (tu_revision t + 1) s s' ∧ current_revision turn s' = tu_revision t + 1.
Proof.
  intros Hi Ht Hth He Hr.
  destruct (bump_accepts turn (tu_revision t) now1 s t th) as (ref & Hb & Href); [by repeat split|done|].
  set (s1 := s <| turns ::= _ |>) in *.
  destruct (cancel_withdraws turn (tr_revision ref) now2 "superseded" s1) as (ids & s' & Hc & Hw).
  { by eapply outbox_inv_ext; [..|exact Hi]. }
  exists ref, ids, s'. split; [done|]. split; [done|]. rewrite Href in Hw. split; [exact Hw|].
  pose proof (cancel_turns turn (tr_revision ref) now2 "superseded" s1) as Hk. rewrite Hc in Hk. cbn [snd] in Hk.
  unfold current_revision, get_turn. rewrite Hk. unfold s1. cbn [turns set_field].
  rewrite (bumped_turn turn (tu_revision t) now1 s t) by done. cbn. lia.
Qed.

(** Looking an actor up fails with an ordinary exception, if at all. *)
Definition ordinary_lookup (iv : SignalInvalidator) : Prop :=
  ∀ actor_for thread, iv_actors iv = Some actor_for → actor_for thread ≠ Raise CancelledError.

Lemma attempt_raises {S A} (p : prog S A) s e s' :
  p s = (Raise e, s') → e ≠ CancelledError → attempt p s = (Ok None, s').
Proof. unfold attempt. intros -> He. by destruct e. Qed.

Lemma correct_turn_live a turn principal ch chat now1 now2 s t th :
  outbox_inv s → get_turn turn s = Some t → get_thread (tu_thread_id t) s = Some th →
  turn_ended t = false → 1 ≤ tu_revision t →
  (∃ msg, correct_turn a turn principal ch chat now1 now2 s = (Raise (ProcessingError msg), s)) ∨
  ∃ ref s', correct_turn a turn principal ch chat now1 now2 s = (Ok ref, s') ∧
    withdrawn turn (tu_revision t + 1) s s' ∧ current_revision turn s' = tu_revision t + 1.
Proof.
  intros Hi Ht Hth He Hr. unfold correct_turn, pbind, pget. rewrite Ht.
  destruct (may_modify _ _ _ _ _).1; [|by left; eexists]. right.
  destruct (revise_live turn t th now1 now2 s) as (ref & ids & s' & Hb & Hc & Hw); [done..|].
  exists ref, s'. rewrite Hb, Hc. done.
Qed.

(** Through the actor or without it, the outcome is the same. *)
Lemma invalidate_turn_live iv turn thread principal ch chat clock s t th :
  ordinary_lookup iv →
  outbox_inv s → get_turn turn s = Some t → get_thread (tu_thread_id t) s = Some th →
  turn_ended t = false → 1 ≤ tu_revision t →
  ∃ s', invalidate_turn iv turn thread principal ch chat clock s = (Ok (queued_effect_ids turn s), s') ∧
    withdrawn turn (tu_revision t + 1) s s' ∧ current_revision turn s' = tu_revision t + 1.
Proof.
  intros Hol Hi Ht Hth He Hr. unfold invalidate_turn, pbind at 1, pget at 1.
  assert (actor_correction iv turn thread principal ch chat clock s = (Ok false, s) ∨
          ∃ s', actor_correction iv turn thread principal ch chat clock s = (Ok true, s') ∧
            withdrawn turn (tu_revision t + 1) s s' ∧ current_revision turn s' = tu_revision t + 1) as [Hc|(s' & Hc & Hw)].
  { unfold actor_correction. destruct (iv_actors iv) as [actor_for|] eqn:Ea; [|by left].
    destruct (str_true thread); [|by left]. destruct (actor_for thread) as [actor|err] eqn:El.
    - unfold pbind, attempt.
      destruct (correct_turn_live actor turn principal ch chat (clock 0%nat) (clock 1%nat) s t th)
        as [(msg & ->)|(ref & s' & -> & Hw)]; [done..|by left|right; by exists s'].
    - left. unfold pbind. rewrite (attempt_raises (praise err) s err s eq_refl); [done|]. intros ->. by apply (Hol _ thread Ea). }
  - unfold pbind. rewrite Hc. unfold pget. rewrite Ht.
    destruct (revise_live turn t th (iv_time iv 0) (iv_time iv 1) s) as (ref & ids & s' & Hb & Hc' & Hw); [done..|].
    exists s'. rewrite Hb, Hc'. done.
  - unfold pbind. rewrite Hc. by exists s'.
Qed.

(** The signal is by the author of a journaled message that belongs to a live turn. *)
Record author_signal (payload : dict) (kind : string) (s : db) (sig : JournalSignal) (mine : list CanonicalEvent)
    (turn : string) (t : turn_row) : Prop := MkAuthorSignal {
  as_kind : kind ∈ INVALIDATING_KINDS;
  as_signal : map_signal channel payload kind no_args = Ok (Some sig);
  as_author : js_principal sig ≠ "";
  as_events : ∃ found, events_by_source_message (target_of sig) s = Ok found ∧
      mine = List.filter (λ e, ce_principal e =?s js_principal sig) (List.filter (λ e, ce_kind e =?s "message") found);
  as_newest : ∃ newest, List.last (map Some mine) None = Some newest ∧ ce_turn_id newest = Some turn;
  as_turn : turn ≠ "" ∧ get_turn turn s = Some t ∧ turn_ended t = false ∧ 1 ≤ tu_revision t;
  as_thread : ∃ th, get_thread (tu_thread_id t) s = Some th;
}.

(** The author's signal takes effect, whether or not an actor can be found and whether
    or not it consents: the revision of the live turn goes up by one, exactly its queued
    effects of older revisions are withdrawn, and the statements and notes derived from the
    author's events are invalidated. *)
Theorem author_signal_withdraws iv kind payload clock w sig mine turn t :
  ordinary_lookup iv → outbox_inv (sw_store w) → author_signal payload kind (sw_store w) sig mine turn t →
  ∃ i w', invalidate_signal channel iv kind payload clock w = (Ok i, w') ∧
    applied i = true ∧ inv_turn_revision i = tu_revision t + 1 ∧
    current_revision turn (sw_store w') = tu_revision t + 1 ∧
    withdrawn turn (tu_revision t + 1) (sw_store w) (sw_store w') ∧
    (iv_statements iv = true → ∀ c,
       c ∈ [InvalidateStatements (map ce_event_id mine) ("source_" +:+ kind);
            MarkNotesStale (map ce_event_id mine) ("source_" +:+ kind)] → c ∈ sw_calls w').
Proof.
  intros Hol Hi [Hk Hm Ha (found & Hf & Hmine) (newest & Hl & Htu) (Htn & Ht & He & Hr) (th & Hth)].
  destruct (correction_signal channel payload kind no_args sig Hk Hm) as (m & _ & _ & _ & Hne & _ & Htm & _).
  unfold invalidate_signal. rewrite (proj2 (str_in_spec _ _) Hk). cbn [negb].
  unfold pbind at 1, pread at 1. rewrite Hm. cbv zeta.
  assert (str_true (target_of sig) = true) as Htt.
  { unfold target_of. rewrite Htm. unfold nonempty. apply str_true_spec in Hne as Hne'. by rewrite Hne'. }
  rewrite Htt. cbn [negb]. unfold pbind at 1.
  destruct (derived_if _ _ w) as [x w1] eqn:Ed.
  assert (x = Ok tt ∧ sw_store w1 = sw_store w) as (-> & Hs1).
  { unfold derived_if, derived_call in Ed. by destruct (_ && _); injection Ed as <- <-. }
  unfold pbind at 1, in_store at 1, pread at 1. rewrite Hs1, Hf, <- Hmine.
  destruct (List.filter (λ e, ce_kind e =?s "message") found) as [|o os] eqn:Eo.
  { rewrite Hmine in Hl. done. }
  rewrite Hl. apply str_true_spec in Ha. rewrite Ha.
  unfold apply_invalidation. rewrite Htu. change (default "" (Some turn)) with turn.
  apply str_true_spec in Htn as Htn'. rewrite Htn'.
  destruct (invalidate_turn_live iv turn (default "" (ce_thread_id newest)) (js_principal sig) (ce_channel newest)
              (ce_chat_id newest) clock (sw_store w) t th) as (s' & Hit & Hw & Hcr); [done..|].
  unfold pbind, in_store. cbn [sw_store set_field]. rewrite Hit. cbn [sw_store set_field pget]. rewrite Hcr.
  assert (is_some (head (map ce_event_id mine)) = true) as Hhd by (by destruct mine).
  unfold derived_if. destruct (iv_statements iv) eqn:Es.
  - eexists _, _. split; [done|]. cbn. unfold applied. cbn. rewrite Hhd. split_and!; try done.
    intros _ c Hc. set_solver.
  - eexists _, _. split; [done|]. cbn. unfold applied. cbn. rewrite Hhd. split_and!; done.
Qed.

End Sink.

(** ** Witnesses and further facts *)

#[local] Existing Instance plain_sha256.

Definition clock_at (base : Z) (i : nat) : Z := base + Z.of_nat i.

Definition strict_args (event_id event_key : string) : map_args :=
  MkMapArgs (Some event_id) (Some event_key) (Some "acc") (Some 5) true.

(** A store with one queued effect of a live turn. *)
Definition turn_db (state : string) : db :=
  queued_db
    <| threads := [MkThread "th" "whatsapp" "1@g.us" "491" "group" "open" 1 1 None None 0 1 "active" None None] |>
    <| turns := [MkTurn "tu" "th" "491" 1 1 state 1 1 None None] |>.

Definition message_payload : dict :=
  [("chatJid", JStr "1@g.us"); ("messageId", JStr "m1"); ("senderId", JStr "491@s.whatsapp.net");
   ("text", JStr "hi"); ("timestamp", JInt 1700000000)].

Definition delete_payload (sender : string) : dict :=
  [("chatJid", JStr "1@g.us"); ("messageId", JStr "m1"); ("senderId", JStr sender)].

Definition plain_sink : SignalJournalSink := MkSink true true None.

(** The message was captured and belongs to the turn. *)
Definition message_world (state : string) : sink_world :=
  let w := (capture "whatsapp" plain_sink "message" message_payload (strict_args "ev1" "k1") (clock_at 100)
              (MkSinkWorld (turn_db state) [])).2 in
  w <| sw_store := (attach_event_assignment "ev1" (Some "th") (Some "tu") (sw_store w)).2 |>.

Lemma message_world_outbox state : outbox_inv (sw_store (message_world state)).
Proof. eapply outbox_inv_ext; [..|exact queued_db_inv]; by vm_compute. Qed.

(** The invalidator as the application wires it: its actor source has no [actor_for], and
    it gets no clock. *)
Definition wired_invalidator : SignalInvalidator :=
  MkInvalidator (Some (λ _, Raise (OtherError "AttributeError" "actor_for"))) true false None.

Definition delete_signal (sender : string) : JournalSignal :=
  match map_signal "whatsapp" (delete_payload sender) "delete" no_args with
  | Ok (Some s) => s
  | _ => MkSignal "" "" "" "" "" "" "" "" "" 1 None None None None None []
  end.

Definition stored_message : list CanonicalEvent :=
  match events_by_source_message "m1" (sw_store (message_world "open")) with Ok l => l | Raise _ => [] end.

Lemma lenient_map_total_witness :
  no_raise (map_signal "whatsapp" (delete_payload "491@s.whatsapp.net") "delete" no_args).
Proof.
  apply lenient_map_total; [apply str_in_spec; reflexivity|reflexivity|].
  split; eexists; reflexivity.
Defined.

Definition change_payload (participants : list json) : dict :=
  [("chatJid", JStr "1@g.us"); ("action", JStr "add"); ("changeId", JStr "c1"); ("participants", JArr participants)].

Definition member_1 : dict := [("lid", JStr "11@lid")].
Definition member_1_phone : dict := [("lid", JStr "11@lid"); ("phoneJid", JStr "49@s.whatsapp.net")].
Definition member_2 : dict := [("phoneJid", JStr "50@s.whatsapp.net")].

Lemma membership_copies_agree_witness :
  map_signal "whatsapp" (change_payload [JObj member_1; JObj member_2]) "membership_change"
    (MkMapArgs (Some "e") (Some "k") None (Some 1) true) =
  map_signal "whatsapp" (change_payload [JObj member_2; JObj member_1_phone]) "membership_change"
    (MkMapArgs (Some "e") (Some "k") None (Some 2) true).
Proof.
  apply membership_copies_agree. split; [reflexivity..|].
  eexists _, _, _, _. split; [reflexivity|]. split; [reflexivity|]. split; [reflexivity|]. split; [reflexivity|].
  cbn. apply Permutation_swap.
Defined.

Lemma strict_capture_journaled_witness :
  let '(r, w') := capture "whatsapp" plain_sink "message" message_payload (strict_args "ev1" "k1") (clock_at 100)
                    (MkSinkWorld empty_db []) in
  r = Ok (Some "ev1") ∧
  ((∃ e, r = Raise e) ∨
   ∃ id row, r = Ok (Some id) ∧ row ∈ events (sw_store w') ∧ ev_event_id row = id ∧
     ma_event_key (strict_args "ev1" "k1") = Some (ev_event_key row) ∧
     ("message" ∉ ["membership_change"; "membership_snapshot"] → ma_event_id (strict_args "ev1" "k1") = Some id)).
Proof.
  destruct (capture _ _ _ _ _ _ _) as [r w'] eqn:E. split.
  - assert (r = (capture "whatsapp" plain_sink "message" message_payload (strict_args "ev1" "k1") (clock_at 100)
                    (MkSinkWorld empty_db [])).1) as -> by (rewrite E; reflexivity). vm_compute. reflexivity.
  - apply (strict_capture_journaled "whatsapp" plain_sink "message" message_payload (strict_args "ev1" "k1")
             (clock_at 100) (MkSinkWorld empty_db [])); [reflexivity|exact E].
Defined.

(** The captured message alone. *)
Definition captured_world : sink_world :=
  (capture "whatsapp" plain_sink "message" message_payload (strict_args "ev1" "k1") (clock_at 100)
     (MkSinkWorld empty_db [])).2.

Lemma captured_world_inv : source_inv (sw_store captured_world).
Proof.
  set (sig := match map_signal "whatsapp" message_payload "message" (strict_args "ev1" "k1") with
              | Ok (Some s) => s | _ => delete_signal "" end).
  assert (sw_store captured_world = (append_signal sig 100 empty_db).2) as -> by (vm_compute; reflexivity).
  apply append_source_inv, source_inv_empty.
Qed.

Definition strict_delete_signal : JournalSignal :=
  match map_signal "whatsapp" (delete_payload "492@s.whatsapp.net") "delete" (strict_args "ev2" "k2") with
  | Ok (Some s) => s
  | _ => delete_signal ""
  end.

Definition deleted_world : sink_world :=
  (capture "whatsapp" plain_sink "delete" (delete_payload "492@s.whatsapp.net") (strict_args "ev2" "k2") (clock_at 200)
     captured_world).2.

Lemma strict_delete_run :
  capture "whatsapp" plain_sink "delete" (delete_payload "492@s.whatsapp.net") (strict_args "ev2" "k2") (clock_at 200)
    captured_world = (Ok (Some "ev2"), deleted_world).
Proof. vm_compute. reflexivity. Qed.

Lemma captured_correction_revokes_witness :
  Forall (λ row, prior_revision (event_of_signal strict_delete_signal) row = true →
    ev_event_id row ≠ js_event_id strict_delete_signal → row_revoked (sw_store deleted_world) row = true)
    (events (sw_store deleted_world)).
Proof.
  apply Forall_forall.
  apply (captured_correction_revokes "whatsapp" plain_sink "delete" (delete_payload "492@s.whatsapp.net")
           (strict_args "ev2" "k2") (clock_at 200) captured_world strict_delete_signal "ev2" deleted_world).
  - exact captured_world_inv.
  - discriminate.
  - apply str_in_spec. reflexivity.
  - vm_compute. reflexivity.
  - vm_compute. discriminate.
  - exact strict_delete_run.
Defined.

Lemma foreign_delete_run :
  invalidate_signal "whatsapp" wired_invalidator "delete" (delete_payload "492@s.whatsapp.net") (clock_at 300)
    (message_world "open") = (Ok (refusal "delete" "sender_is_not_author"), message_world "open").
Proof. vm_compute. reflexivity. Qed.

Lemma foreign_open_message : foreign_signal "whatsapp" (delete_payload "492@s.whatsapp.net") "delete" (sw_store (message_world "open")).
Proof.
  intros sig Hsig. right. intros e He _.
  assert (sig = delete_signal "492@s.whatsapp.net") as -> by (revert Hsig; vm_compute; congruence).
  assert (Forall (λ r, ev_principal r ≠ js_principal (delete_signal "492@s.whatsapp.net"))
            (source_rows (target_of (delete_signal "492@s.whatsapp.net")) (sw_store (message_world "open")))) as Hall.
  { vm_compute. constructor; [discriminate|constructor]. }
  rewrite Forall_forall in Hall. exact (Hall e He).
Qed.

Lemma foreign_signal_refused_witness :
  sw_store (message_world "open") = sw_store (message_world "open") ∧
  (∃ l, sw_calls (message_world "open") = sw_calls (message_world "open") ++ l ∧
     only_group_state "whatsapp" (delete_payload "492@s.whatsapp.net") "delete" l) ∧
  ∀ i, Ok (refusal "delete" "sender_is_not_author") = Ok i → applied i = false.
Proof.
  exact (foreign_signal_refused "whatsapp" wired_invalidator "delete" (delete_payload "492@s.whatsapp.net")
           (clock_at 300) (message_world "open") _ _ foreign_open_message foreign_delete_run).
Defined.

Lemma author_signal_withdraws_witness :
  ∃ i w', invalidate_signal "whatsapp" wired_invalidator "delete" (delete_payload "491@s.whatsapp.net") (clock_at 300)
            (message_world "open") = (Ok i, w') ∧
    applied i = true ∧ inv_turn_revision i = 2 ∧ current_revision "tu" (sw_store w') = 2 ∧
    withdrawn "tu" 2 (sw_store (message_world "open")) (sw_store w') ∧
    (iv_statements wired_invalidator = true → ∀ c,
       c ∈ [InvalidateStatements (map ce_event_id stored_message) "source_delete";
            MarkNotesStale (map ce_event_id stored_message) "source_delete"] → c ∈ sw_calls w').
Proof.
  apply (author_signal_withdraws "whatsapp" wired_invalidator "delete" (delete_payload "491@s.whatsapp.net")
           (clock_at 300) (message_world "open") (delete_signal "491@s.whatsapp.net") stored_message "tu"
           (MkTurn "tu" "th" "491" 1 1 "open" 1 1 None None)).
  - intros f th [= <-]. discriminate.
  - apply message_world_outbox.
  - split.
    + apply str_in_spec. reflexivity.
    + vm_compute. reflexivity.
    + vm_compute. discriminate.
    + eexists. split; vm_compute; reflexivity.
    + eexists. split; vm_compute; reflexivity.
    + split; [discriminate|]. split; [vm_compute; reflexivity|]. split; [reflexivity|cbn; lia].
    + eexists. vm_compute. reflexivity.
Defined.

(** A time that is not finite escapes the guard of [_to_ms]: outside the strict boundary,
    where malformed signals are dropped, such a signal raises. *)
Theorem unguarded_time_raises :
  (capture "whatsapp" plain_sink "reaction"
     [("chatJid", JStr "1@g.us"); ("targetMessageId", JStr "m1"); ("timestamp", JFloat "nan")] no_args
     (clock_at 100) (MkSinkWorld empty_db [])).1 = Raise (ValueError "cannot convert float NaN to integer").
Proof. vm_compute. reflexivity. Qed.

(** Deleting a message whose turn is already closed stops at the turn: the revision of a
    closed turn cannot be raised, the error ends the invalidation, and neither the
    statements nor the notes derived from the message are invalidated. *)
Theorem closed_turn_keeps_notes :
  let '(r, w') := invalidate_signal "whatsapp" wired_invalidator "delete" (delete_payload "491@s.whatsapp.net")
                    (clock_at 300) (message_world "closed") in
  r = Raise (TurnStateError "turn is closed and cannot be revised") ∧ sw_calls w' = [].
Proof. vm_compute. split; reflexivity. Qed.

(** With the actor source and the missing clock the application passes, an author's edit
    or delete dates the turn back to time zero: the turn that was just revised is due for
    settling at once, however recent it is. *)
Theorem wired_correction_backdates now idle :
  0 ≤ now - idle < 1700000000000 →
  let recent := (message_world "open") <| sw_store ::= λ s,
                  s <| turns := [MkTurn "tu" "th" "491" 1 1 "open" 1700000000000 1700000000000 None None] |> |> in
  let s' := sw_store (invalidate_signal "whatsapp" wired_invalidator "delete" (delete_payload "491@s.whatsapp.net")
                        (clock_at 1700000000100) recent).2 in
  settle_candidates now idle 100 (sw_store recent) = [] ∧
  (tu_turn_id <$> settle_candidates now idle 100 s') = ["tu"].
Proof.
  intros Hn recent s'.
  assert (turns s' = [MkTurn "tu" "th" "491" 2 2 "open" 1700000000000 0 None None]) as Ht by (vm_compute; reflexivity).
  unfold settle_candidates. split.
  - change (turns (sw_store recent)) with [MkTurn "tu" "th" "491" 1 1 "open" 1700000000000 1700000000000 None None].
    unfold select. cbn [List.filter]. change (turn_open _) with true. cbn [andb tu_updated_ms].
    rewrite (proj2 (Z.leb_gt _ _)) by lia. reflexivity.
  - rewrite Ht. unfold select. cbn [List.filter]. change (turn_open _) with true. cbn [andb tu_updated_ms].
    rewrite (proj2 (Z.leb_le _ _)) by lia. reflexivity.
Qed.

(** An effect that is already executing is reported as cancelled, and keeps executing. *)
Theorem executing_reported_cancelled :
  let w := (message_world "open") <| sw_store ::= λ s, (claim_effect "e1" "w" 200 30000 None "a1" s).2 |> in
  let '(r, w') := invalidate_signal "whatsapp" wired_invalidator "delete" (delete_payload "491@s.whatsapp.net")
                    (clock_at 300) w in
  match r with Ok i => inv_effects_cancelled i = ["e1"] | Raise _ => False end ∧
  effect_state "e1" (sw_store w') = Some executing.
Proof. vm_compute. split; reflexivity. Qed.

(** A receipt keeps the recipient's token in clear: the payload's token is hashed, the
    principal of the event is not. *)
Theorem receipt_keeps_recipient :
  match map_signal "whatsapp" [("chatJid", JStr "1@g.us"); ("messageId", JStr "m1"); ("recipientJid", JStr "4917@s.whatsapp.net")]
          "receipt" no_args with
  | Ok (Some sig) => dict_get "principal" (to_event_payload sig) = Some (JStr "4917")
  | _ => False
  end.
Proof. vm_compute. reflexivity. Qed.
