(* ===== verification/LedgerProps.v ===== *)
(** * LedgerProps

    What the participation ledger guarantees: the delivery states as an abstract machine
    that every operation refines, the send allowance of a chat along a run, the judge
    attempts of an hour, source revisions, activation epochs and approvals. *)

From Stdlib Require Import ZArith Lia Ascii SpecFloat.
From S2P Require Import Prelude Tables Json Identity PyFloat Ledger LedgerDelivery.

(** ** Runs of the delivery operations *)

Inductive delivery_op :=
| OpReserve (a : reserve_args)
| OpSubmit (effect_id : string)
| OpAccept (proposal_id effect_id : string) (e : evidence)
| OpDeliver (proposal_id effect_id : string) (e : evidence)
| OpUnknown (proposal_id effect_id kind ref : string)
| OpRelease (proposal_id effect_id state reason : string).

(** The ledger after one call, whatever it returned. *)
Definition perform_op (op : delivery_op) (now : Z) (s : ledger) : ledger :=
  match op with
  | OpReserve a => (reserve_delivery a now s).2
  | OpSubmit i => (record_send_attempt i now s).2
  | OpAccept p i e => (project_transport_accepted p i e now s).2
  | OpDeliver p i e => (project_recipient_delivery p i e now s).2
  | OpUnknown p i k r => (note_delivery_unknown p i k r s).2
  | OpRelease p i st r => (release_delivery p i st r now s).2
  end.

Fixpoint run_ops (trace : list (Z * delivery_op)) (s : ledger) : ledger :=
  match trace with [] => s | (now, op) :: rest => run_ops rest (perform_op op now s) end.

(** ** The abstract machine of one delivery *)

(** The states a charge has reached. *)
Definition charged (st : DeliveryState) : bool := delivery_in st [transport_accepted; delivered].

Inductive delivery_step : DeliveryState → DeliveryState → Prop :=
| step_submit : delivery_step reserved submitted
| step_unknown st : delivery_in st [reserved; submitted] = true → delivery_step st delivery_unknown
| step_release st st' :
    delivery_in st [reserved; submitted] = true → delivery_in st' RELEASED_DELIVERY_STATES = true → delivery_step st st'
| step_accept st : delivery_in st [reserved; submitted; delivery_unknown] = true → delivery_step st transport_accepted
| step_deliver st : st ≠ delivered → delivery_step st delivered.

(** When a delivery is charged. *)
Definition charge_time (now : Z) (st st' : DeliveryState) (old : option Z) : option Z :=
  match st' with
  | transport_accepted => Some now
  | delivered => if delivery_eqb st transport_accepted then coalesce old now else Some now
  | _ => old
  end.

(** What never changes about a reservation. *)
Definition dr_identity (r : reservation_row) : string * string * string * string * string * Z * string :=
  (dr_proposal_id r, dr_effect_id r, dr_channel r, dr_chat_id r, dr_category r, dr_created_ms r, dr_lane r).

Definition row_step (now : Z) (r r' : reservation_row) : Prop :=
  dr_identity r' = dr_identity r
  ∧ ((dr_state r' = dr_state r ∧ dr_accepted_ms r' = dr_accepted_ms r ∧ dr_delivered_ms r' = dr_delivered_ms r)
     ∨ (delivery_step (dr_state r) (dr_state r')
        ∧ dr_accepted_ms r' = charge_time now (dr_state r) (dr_state r') (dr_accepted_ms r)
        ∧ (dr_state r' = delivered ∨ dr_delivered_ms r' = dr_delivered_ms r))).

Lemma row_step_refl now r : row_step now r r.
Proof. split; [done|]. by left. Qed.

(** ** Rows of one effect move together *)

Definition shared (r : reservation_row) : string * string * string * Z * string * DeliveryState * option Z * option Z :=
  (dr_proposal_id r, dr_channel r, dr_chat_id r, dr_created_ms r, dr_lane r, dr_state r, dr_accepted_ms r, dr_delivered_ms r).

Record wf_deliveries (t : list reservation_row) : Prop := {
  wf_uniform : ∀ r q, r ∈ t → q ∈ t → dr_effect_id r = dr_effect_id q → shared r = shared q;
  wf_charged : ∀ r, r ∈ t → charged (dr_state r) = true → is_some (dr_accepted_ms r) = true;
}.

Lemma of_effect_spec i r : of_effect i r = true ↔ dr_effect_id r = i.
Proof. apply String.eqb_eq. Qed.

(** The effect a call brings evidence for. *)
Definition op_evidence (op : delivery_op) : option string :=
  match op with OpAccept _ i _ | OpDeliver _ i _ => Some i | _ => None end.

(** A change of the rows of one effect, which evidence alone charges. *)
Definition moves (evidence : option string) (now : Z) (t t' : list reservation_row) : Prop :=
  ∃ i f, t' = update (of_effect i) f t
  ∧ (∀ r, r ∈ t → of_effect i r = true →
          row_step now r (f r) ∧ (charged (dr_state (f r)) = true → dr_state (f r) = dr_state r ∨ evidence = Some i))
  ∧ (∀ r q, r ∈ t → q ∈ t → shared r = shared q → shared (f r) = shared (f q)).

(** A new delivery: rows for one effect nobody had. *)
Definition opens (a : reserve_args) (now : Z) (t t' : list reservation_row) : Prop :=
  ∃ i p lane origin news, t' = t ++ news
  ∧ p = py_strip (rv_proposal_id a) ∧ lane = or_default (rv_lane a) "production"
  ∧ (∀ r, r ∈ t → dr_effect_id r ≠ i)
  ∧ (∀ r, r ∈ t → dr_channel r = rv_channel a → dr_chat_id r = rv_chat_id a → dr_lane r = lane → dr_proposal_id r ≠ p)
  ∧ (∀ r, r ∈ news → ∃ e, e ∈ rv_limits a ∧ r = new_reservation a p i lane origin now e)
  ∧ (∀ c, (rowcount (λ r, dr_category r =?s c) news ≤ 1)%nat).

Lemma row_step_identity now r r' : row_step now r r' → dr_identity r' = dr_identity r.
Proof. by intros [? _]. Qed.

Lemma moves_wf ev now t t' : wf_deliveries t → moves ev now t t' → wf_deliveries t'.
Proof.
  intros [Hu Hc] (i & f & -> & Hstep & Hcong). split.
  - intros r q (r0 & Hr & ->)%elem_of_update (q0 & Hq & ->)%elem_of_update.
    assert (∀ x, x ∈ t → dr_effect_id (if of_effect i x then f x else x) = dr_effect_id x) as Hid.
    { intros x Hx. destruct (of_effect i x) eqn:Ex; [|done]. by destruct (Hstep x Hx Ex) as [[[= _ ? _ _ _ _ _] _] _]. }
    rewrite !Hid by done. intros E. specialize (Hu _ _ Hr Hq E).
    unfold of_effect. rewrite E. destruct (dr_effect_id q0 =?s i); eauto.
  - intros r (r0 & Hr & ->)%elem_of_update. specialize (Hc _ Hr).
    destruct (of_effect i r0) eqn:Er; [|done].
    destruct (Hstep _ Hr Er) as [[_ [(-> & -> & _)|(Hs & -> & _)]] _]; [done|].
    destruct Hs as [|st Hs|st st' Hs Hs'|st Hs|st Hs]; simpl; try done.
    + by destruct st'.
    + intros _. destruct (delivery_eqb st transport_accepted); [|done]. by destruct (dr_accepted_ms r0).
Qed.

Lemma moves_refl ev now t : moves ev now t t.
Proof.
  exists "", id. split; [|split; [intros; split; [apply row_step_refl|auto]|done]].
  unfold update. rewrite <- (list_fmap_id t) at 1. apply map_ext. intros r. by destruct (of_effect "" r).
Qed.

(** The row that was read speaks for all rows of its effect. *)
Lemma record_speaks i s r0 r :
  wf_deliveries (lg_reservations s) → delivery_record i s = Some r0 →
  r ∈ lg_reservations s → of_effect i r = true → shared r = shared r0.
Proof.
  intros [Hu _] [H0 E0%of_effect_spec]%fetchone_Some_inv Hr E%of_effect_spec. apply Hu; congruence || done.
Qed.

(** Status notes leave the reservations alone. *)
Lemma mark_status_keeps i st reason : keeps lg_reservations (mark_status i st reason).
Proof. by intros s. Qed.

(** An update of one effect whose row was read. *)
Lemma moves_update ev now i f s r0 :
  wf_deliveries (lg_reservations s) → delivery_record i s = Some r0 →
  (∀ r, shared r = shared r0 → row_step now r (f r)) →
  (∀ r, charged (dr_state (f r)) = true → ev = Some i) →
  (∀ r q, shared r = shared q → shared (f r) = shared (f q)) →
  moves ev now (lg_reservations s) (lg_reservations (update_effect i f s)).
Proof.
  intros Hwf H0 Hstep Hev Hcong. exists i, f. split; [done|]. split; [|by eauto].
  intros r Hr Hi. split; [apply Hstep; by eapply record_speaks|eauto].
Qed.

Ltac row_of_shared H := unfold shared in H; injection H; intros.
Ltac same_shared H :=
  row_of_shared H; unfold shared; simpl;
  repeat match goal with E : _ = _ |- _ => rewrite ?E; clear E end; reflexivity.

Lemma submit_moves i now s :
  wf_deliveries (lg_reservations s) →
  moves None now (lg_reservations s) (lg_reservations (record_send_attempt i now s).2).
Proof.
  intros Hwf. unfold record_send_attempt, commit.
  destruct (match delivery_record i s with Some r => _ | None => _ end); [apply moves_refl|].
  exists i. eexists. split; [reflexivity|]. split.
  - intros r _ _. split; [split; [done|]|]; simpl; destruct (dr_state r) eqn:E; simpl; rewrite ?E; auto; try done.
    right. split; [constructor|]. auto.
  - intros r q _ _ H. same_shared H.
Qed.

Lemma accept_moves p i e now s :
  wf_deliveries (lg_reservations s) →
  moves (Some i) now (lg_reservations s) (lg_reservations (project_transport_accepted p i e now s).2).
Proof.
  intros Hwf. unfold project_transport_accepted, pbind, commit, praise.
  destruct (negb _); [apply moves_refl|]. destruct (delivery_record i s) as [r0|] eqn:E0; [|apply moves_refl].
  destruct (_ || _) eqn:Eg; [apply moves_refl|]. simpl.
  eapply moves_update; [done..| | |].
  - intros r H. row_of_shared H. split; [done|]. right.
    assert (dr_state r = dr_state r0) as -> by congruence. simpl. split; [|auto].
    apply step_accept. revert Eg. by destruct (dr_state r0).
  - done.
  - intros r q H. same_shared H.
Qed.

Lemma deliver_moves p i e now s :
  wf_deliveries (lg_reservations s) →
  moves (Some i) now (lg_reservations s) (lg_reservations (project_recipient_delivery p i e now s).2).
Proof.
  intros Hwf. unfold project_recipient_delivery, pbind, commit, praise.
  destruct (_ && _); [apply moves_refl|]. destruct (delivery_record i s) as [r0|] eqn:E0; [|apply moves_refl].
  destruct (delivery_eqb (dr_state r0) delivered) eqn:Eg; [apply moves_refl|]. simpl.
  apply bool_decide_eq_false in Eg. eapply moves_update; [done..| | |].
  - intros r H. row_of_shared H. split; [done|]. right. simpl. split; [|auto]. apply step_deliver. congruence.
  - done.
  - intros r q H. same_shared H.
Qed.

Lemma unknown_moves p i k ref now s :
  wf_deliveries (lg_reservations s) →
  moves None now (lg_reservations s) (lg_reservations (note_delivery_unknown p i k ref s).2).
Proof.
  intros Hwf. unfold note_delivery_unknown, pbind, commit.
  match goal with |- moves _ _ _ ?t => assert (t = update (unsettled i) (λ r,
     r <| dr_state := delivery_unknown |> <| dr_evidence_kind := Some k |> <| dr_evidence_ref := Some ref |>
       <| dr_attempt_state := "unknown" |>) (lg_reservations s)) as -> by by destruct (row_exists _ _) end.
  exists i. eexists (λ r, if delivery_in (dr_state r) [reserved; submitted] then _ else r). split; [|split].
  - apply map_ext. intros r. unfold unsettled.
    by destruct (of_effect i r), (delivery_in (dr_state r) [reserved; submitted]).
  - intros r _ _. destruct (delivery_in _ _) eqn:E; [|split; [apply row_step_refl|auto]].
    split; [|done]. split; [done|]. right. simpl. split; [by constructor|auto].
  - intros r q _ _ H. row_of_shared H. assert (dr_state r = dr_state q) as -> by done.
    destruct (delivery_in _ _); unfold shared; simpl; congruence.
Qed.

Lemma release_moves p i st reason now s :
  wf_deliveries (lg_reservations s) →
  moves None now (lg_reservations s) (lg_reservations (release_delivery p i st reason now s).2).
Proof.
  intros Hwf. unfold release_delivery. destruct (released_of st) as [target|] eqn:Et; [|apply moves_refl].
  unfold released_of in Et. apply find_some in Et as [Hin _].
  unfold pbind, commit. destruct (delivery_record i s) as [r0|] eqn:E0; [|apply moves_refl].
  destruct (_ || _) eqn:Eg; [apply moves_refl|]. simpl.
  assert (delivery_in target RELEASED_DELIVERY_STATES = true) as Ht
    by (destruct Hin as [<-|[<-|[<-|[]]]]; done).
  eapply moves_update; [done..| | |].
  - intros r H. row_of_shared H. split; [done|]. right. simpl. split; [|split].
    + apply step_release; [|done]. assert (dr_state r = dr_state r0) as -> by done. revert Eg. by destruct (dr_state r0).
    + by destruct target.
    + by right.
  - intros r. simpl. by destruct target.
  - intros r q H. same_shared H.
Qed.

(** *** Reservations *)

Lemma checked_limits_same l entries : checked_limits l = Ok (Some entries) → entries = l.
Proof.
  revert entries. induction l as [|e l IH]; intros entries; simpl; [by intros [= <-]|].
  destruct (negb _); [done|]. destruct (_ <=? 0); [done|].
  destruct (checked_limits l) as [[rest|]|]; simpl; [|done..]. intros [= <-]. by rewrite (IH rest).
Qed.

Definition in_dimension (i c : string) (r : reservation_row) : bool := of_effect i r && (dr_category r =?s c).

Lemma add_reservation_count i c r t :
  dr_effect_id r = i →
  (rowcount (in_dimension i c) (insert_or_ignore (same_dimension r) r t) ≤ max (rowcount (in_dimension i c) t) 1)%nat.
Proof.
  intros Hi. unfold insert_or_ignore. destruct (row_exists (same_dimension r) t) eqn:E; [lia|].
  rewrite rowcount_insert_row. destruct (in_dimension i c r) eqn:Er; [|lia].
  assert (rowcount (in_dimension i c) t = 0%nat) as ->; [|lia]. apply rowcount_zero. intros q Hq.
  apply row_exists_false with (r := q) in E; [|done]. unfold in_dimension, of_effect, same_dimension in *.
  apply andb_true_iff in Er as [_ Ec%str_eqb_eq]. by rewrite <- Hi, <- Ec.
Qed.

Lemma add_reservations i l s :
  (∀ r, r ∈ l → dr_effect_id r = i) →
  ∃ news, lg_reservations (foldl add_reservation s l) = lg_reservations s ++ news
    ∧ (∀ r, r ∈ news → r ∈ l)
    ∧ ∀ c, (rowcount (in_dimension i c) (lg_reservations s ++ news)
            ≤ max (rowcount (in_dimension i c) (lg_reservations s)) 1)%nat.
Proof.
  revert s. induction l as [|r l IH]; intros s Hl; simpl.
  - exists []. rewrite app_nil_r. repeat split; [done|lia].
  - destruct (IH (add_reservation s r)) as (news & E & Hin & Hc); [set_solver|].
    assert (∃ first, lg_reservations (add_reservation s r) = lg_reservations s ++ first
                     ∧ ∀ q, q ∈ first → q = r) as (first & E1 & H1).
    { simpl. unfold insert_or_ignore. destruct (row_exists _ _); [exists []|exists [r]];
        rewrite ?app_nil_r; set_solver. }
    exists (first ++ news). rewrite app_assoc, <- E1. repeat split; [done|set_solver|].
    intros c. etrans; [apply Hc|]. pose proof (add_reservation_count i c r (lg_reservations s)) as Hadd.
    simpl. specialize (Hadd ltac:(set_solver)). lia.
Qed.

(** A reservation opens a delivery or changes nothing. *)
Lemma reserve_change a now s :
  opens a now (lg_reservations s) (lg_reservations (reserve_delivery a now s).2)
  ∧ (reserve_delivery a now s).1 = Ok true ∧ forallb (entry_allowed a (py_strip (rv_proposal_id a)) now s) (rv_limits a) = true
  ∨ (reserve_delivery a now s).2 = s.
Proof.
  unfold reserve_delivery. destruct (_ || _); [by right|]. destruct (rv_limits a) as [|e0 l0] eqn:El; [by right|].
  rewrite <- El. destruct (negb _); [by right|]. destruct (negb _); [by right|].
  unfold pbind, pread. destruct (checked_limits (rv_limits a)) as [[entries|]|] eqn:Ec; [|by right..].
  apply checked_limits_same in Ec as ->. unfold commit.
  destruct (fetchone _ _) as [r|] eqn:Ef; [by right|].
  destruct (forallb _ _) eqn:Ea; [|by right]. left. split; [|done]. simpl.
  assert (∀ r, r ∈ lg_reservations s → _) as Hnone by (intros r Hr; exact (fetchone_None_inv _ _ _ Ef Hr)).
  set (i := py_strip (rv_effect_id a)) in *. set (p := py_strip (rv_proposal_id a)) in *.
  set (lane := or_default (rv_lane a) "production") in *. set (origin := or_default (rv_origin a) "legacy").
  destruct (add_reservations i (map (new_reservation a p i lane origin now) (rv_limits a)) s)
    as (news & E & Hin & Hc).
  { intros r (e & -> & _)%list_elem_of_fmap. done. }
  assert (∀ r, r ∈ lg_reservations s → of_effect i r = false) as Hfresh.
  { intros r Hr. specialize (Hnone r Hr). simpl in Hnone. by apply orb_false_iff in Hnone as [? _]. }
  exists i, p, lane, origin, news. repeat split; [done|..].
  - intros r Hr Hi%of_effect_spec. by rewrite Hfresh in Hi.
  - intros r Hr H1 H2 H3 H4. specialize (Hnone r Hr). simpl in Hnone.
    unfold in_chat in Hnone. by rewrite H1, H2, H3, H4, !str_eqb_refl, orb_true_r in Hnone.
  - intros r [e [-> He]]%Hin%list_elem_of_fmap. eauto.
  - intros c. specialize (Hc c). rewrite rowcount_app in Hc.
    rewrite (proj2 (rowcount_zero (in_dimension i c) (lg_reservations s))) in Hc.
    2:{ intros r Hr. unfold in_dimension. by rewrite Hfresh. }
    etrans; [|exact Hc]. simpl. apply rowcount_mono. intros r [e [-> _]]%Hin%list_elem_of_fmap Hr.
    unfold in_dimension, of_effect. simpl in *. by rewrite Hr, str_eqb_refl.
Qed.

Lemma opens_wf a now t t' : wf_deliveries t → opens a now t t' → wf_deliveries t'.
Proof.
  intros [Hu Hc] (i & p & lane & origin & news & -> & _ & _ & Hi & _ & Hnew & _). split.
  - intros r q [Hr|Hr]%elem_of_app [Hq|Hq]%elem_of_app E; [by apply Hu|..].
    + destruct (Hnew _ Hq) as (e & _ & ->). by destruct (Hi r).
    + destruct (Hnew _ Hr) as (e & _ & ->). by destruct (Hi q).
    + destruct (Hnew _ Hr) as (e & _ & ->), (Hnew _ Hq) as (e' & _ & ->). done.
  - intros r [Hr|(e & _ & ->)%Hnew]%elem_of_app; [by apply Hc|done].
Qed.

(** One call: a new delivery or a move of one effect's rows. *)
Lemma perform_change op now s :
  wf_deliveries (lg_reservations s) →
  (∃ a, op = OpReserve a ∧ opens a now (lg_reservations s) (lg_reservations (perform_op op now s))
        ∧ forallb (entry_allowed a (py_strip (rv_proposal_id a)) now s) (rv_limits a) = true)
  ∨ moves (op_evidence op) now (lg_reservations s) (lg_reservations (perform_op op now s)).
Proof.
  intros Hwf. destruct op; simpl; [|right..].
  - destruct (reserve_change a now s) as [(? & _ & ?)| ->]; [by eauto|right; apply moves_refl].
  - by apply submit_moves.
  - by apply accept_moves.
  - by apply deliver_moves.
  - by apply unknown_moves.
  - by apply release_moves.
Qed.

Lemma perform_wf op now s : wf_deliveries (lg_reservations s) → wf_deliveries (lg_reservations (perform_op op now s)).
Proof.
  intros Hwf. destruct (perform_change op now s Hwf) as [(a & _ & H & _)|H]; [by eapply opens_wf|by eapply moves_wf].
Qed.

Lemma empty_wf : wf_deliveries [].
Proof. split; intros r; set_solver. Qed.

Lemma run_wf trace s : wf_deliveries (lg_reservations s) → wf_deliveries (lg_reservations (run_ops trace s)).
Proof. revert s. induction trace as [|[now op] trace IH]; intros s H; simpl; [done|]. by apply IH, perform_wf. Qed.

Lemma perform_row op now s i r :
  wf_deliveries (lg_reservations s) → lg_reservations s !! i = Some r →
  ∃ r', lg_reservations (perform_op op now s) !! i = Some r' ∧ row_step now r r'.
Proof.
  intros Hwf Hi. destruct (perform_change op now s Hwf) as [(a & _ & (? & ? & ? & ? & news & -> & _) & _)|(j & f & -> & Hf & _)].
  - exists r. split; [by apply lookup_app_l_Some|apply row_step_refl].
  - exists (if of_effect j r then f r else r). split; [unfold update; by rewrite list_lookup_fmap, Hi|].
    destruct (of_effect j r) eqn:E; [|apply row_step_refl]. apply Hf; [by eapply list_elem_of_lookup_2|done].
Qed.

Lemma perform_fresh op now s i r' :
  wf_deliveries (lg_reservations s) → lg_reservations s !! i = None →
  lg_reservations (perform_op op now s) !! i = Some r' →
  dr_state r' = reserved ∧ dr_created_ms r' = now ∧ ∃ a, op = OpReserve a.
Proof.
  intros Hwf Hi Hr. destruct (perform_change op now s Hwf) as [(a & -> & (? & ? & ? & ? & news & E & H) & _)|(j & f & E & _)];
    rewrite E in Hr.
  - apply lookup_ge_None in Hi. rewrite lookup_app_r in Hr by done.
    destruct H as (_ & _ & _ & _ & Hnew & _). destruct (Hnew r') as (e & _ & ->); [by eapply list_elem_of_lookup_2|].
    by eauto.
  - unfold update in Hr. by rewrite list_lookup_fmap, Hi in Hr.
Qed.

(** C18: The ledger's operations refine the abstract machine of one delivery: whatever has
    happened since the ledger was created, a call moves a stored reservation along at most
    one edge of [delivery_step], never changes what it was reserved for, charges its send
    exactly when the machine accepts or first delivers it, and a row that is new was just
    reserved. *)
Theorem delivery_refines t0 before op now i :
  let s := run_ops before (empty_ledger t0) in
  match lg_reservations s !! i, lg_reservations (perform_op op now s) !! i with
  | Some r, Some r' => row_step now r r'
  | Some _, None => False
  | None, Some r' => dr_state r' = reserved ∧ dr_created_ms r' = now ∧ ∃ a, op = OpReserve a
  | None, None => True
  end.
Proof.
  intros s. assert (wf_deliveries (lg_reservations s)) as Hwf by (apply run_wf, empty_wf).
  destruct (lg_reservations s !! i) as [r|] eqn:Ei.
  - by destruct (perform_row op now s i r Hwf Ei) as (r' & -> & ?).
  - destruct (lg_reservations (perform_op op now s) !! i) as [r'|] eqn:Er; [|done]. by eapply perform_fresh.
Qed.

(** What a charge fixes. *)
Definition charge_kept (r r' : reservation_row) : Prop :=
  dr_identity r' = dr_identity r ∧ charged (dr_state r') = true ∧ dr_accepted_ms r' = dr_accepted_ms r
  ∧ (dr_state r = delivered → dr_state r' = delivered ∧ dr_delivered_ms r' = dr_delivered_ms r).

Lemma charged_step now r r' :
  charged (dr_state r) = true → is_some (dr_accepted_ms r) = true → row_step now r r' → charge_kept r r'.
Proof.
  intros Hc Ha [Hid [(E1 & E2 & E3)|(Hs & E2 & E3)]].
  - split; [done|]. rewrite E1, E2, E3. auto.
  - unfold charge_kept. rewrite E2. destruct Hs as [|st Hs|st st' Hs _|st Hs|st Hs]; [done|by destruct st..|].
    destruct st; try done. by destruct (dr_accepted_ms r).
Qed.

Lemma charge_kept_trans r1 r2 r3 : charge_kept r1 r2 → charge_kept r2 r3 → charge_kept r1 r3.
Proof.
  intros (I1 & C1 & A1 & D1) (I2 & C2 & A2 & D2). repeat split; [congruence|done|congruence|naive_solver|].
  destruct (D1 ltac:(done)) as [E1 <-]. by apply D2.
Qed.

Lemma charge_run trace s i r :
  wf_deliveries (lg_reservations s) → lg_reservations s !! i = Some r → charged (dr_state r) = true →
  ∃ r', lg_reservations (run_ops trace s) !! i = Some r' ∧ charge_kept r r'.
Proof.
  revert s r. induction trace as [|[now op] trace IH]; intros s r Hwf Hi Hc; simpl.
  - exists r. repeat split; auto.
  - destruct (perform_row op now s i r Hwf Hi) as (r1 & H1 & Hstep).
    assert (charge_kept r r1) as Hk.
    { eapply charged_step; [done| |done]. eapply (wf_charged _ Hwf); [by eapply list_elem_of_lookup_2|done]. }
    destruct (IH _ r1 (perform_wf op now s Hwf) H1) as (r' & ? & ?); [apply Hk|].
    exists r'. split; [done|]. by eapply charge_kept_trans.
Qed.

(** C19: A send is charged once and never refunded: after its acceptance or delivery has been
    recorded, no later sequence of calls - duplicate callbacks, releases, unknown outcomes,
    new reservations - takes the charge back, changes the moment it was charged, or turns a
    delivered message into anything else. *)
Theorem charge_final t0 before after i r :
  lg_reservations (run_ops before (empty_ledger t0)) !! i = Some r → charged (dr_state r) = true →
  ∃ r', lg_reservations (run_ops after (run_ops before (empty_ledger t0))) !! i = Some r' ∧ charge_kept r r'.
Proof. apply charge_run, run_wf, empty_wf. Qed.

(** ** The send allowance of a chat *)

(** A rolling dimension of a chat whose callers all work in one lane. *)
Record dimension := MkDimension {
  dm_channel : string;
  dm_chat_id : string;
  dm_category : string;
  dm_limit : Z;
  dm_window_ms : Z;
  dm_lane : string;
}.

Definition slots (d : dimension) (now : Z) (s : ledger) : Z :=
  consumed_slots (dm_channel d) (dm_chat_id d) (dm_category d) now (dm_window_ms d) "rolling" s.

(** Callers ask for the dimension's limit or less, over its window or a longer one. *)
Definition entry_honours (d : dimension) (e : limit_entry) : bool :=
  negb (le_category e =?s dm_category d)
  || ((le_limit e <=? dm_limit d) && negb (le_kind e =?s "calendar_day") && (dm_window_ms d <=? le_window_ms e)).

Definition honours (d : dimension) (op : delivery_op) : bool :=
  match op with
  | OpReserve a => (or_default (rv_lane a) "production" =?s dm_lane d) && forallb (entry_honours d) (rv_limits a)
  | _ => true
  end.

(** Evidence for an effect arrives while its lease runs, or repeats a charge. *)
Definition punctual (op : delivery_op) (now : Z) (s : ledger) : bool :=
  match op with
  | OpAccept _ i _ | OpDeliver _ i _ =>
      match delivery_record i s with Some r => holds_lease now r || charged (dr_state r) | None => true end
  | _ => true
  end.

Fixpoint fair (d : dimension) (t0 : Z) (trace : list (Z * delivery_op)) (s : ledger) : bool :=
  match trace with
  | [] => true
  | (now, op) :: rest =>
      (t0 <=? now) && honours d op && punctual op now s && fair d now rest (perform_op op now s)
  end.

Definition last_time (t0 : Z) (trace : list (Z * delivery_op)) : Z := foldl (λ _ e, e.1) t0 trace.

Definition takes_slot (d : dimension) (now : Z) (r : reservation_row) : bool :=
  occupies (dm_channel d) (dm_chat_id d) (dm_category d) "" now (Some (now - Z.max 1 (dm_window_ms d) + 1)) None r.

Lemma slots_count d now s : slots d now s = Z.of_nat (rowcount (takes_slot d now) (lg_reservations s)).
Proof. done. Qed.

Definition placed_in (d : dimension) (r : reservation_row) : Prop :=
  dr_channel r = dm_channel d ∧ dr_chat_id r = dm_chat_id d ∧ dr_category r = dm_category d ∧ dr_proposal_id r ≠ "".

Lemma takes_slot_spec d now r :
  takes_slot d now r = true ↔
  placed_in d r ∧ (accepted_within (now - Z.max 1 (dm_window_ms d) + 1) None r = true ∨ holds_lease now r = true).
Proof.
  unfold takes_slot, occupies, in_chat, placed_in.
  rewrite !andb_true_iff, orb_true_iff, negb_true_iff, !str_eqb_eq, str_eqb_neq. tauto.
Qed.

Lemma accepted_within_spec since r :
  accepted_within since None r = true ↔ charged (dr_state r) = true ∧ ∃ t, dr_accepted_ms r = Some t ∧ since <= t.
Proof.
  unfold accepted_within, charged. rewrite andb_true_iff. destruct (dr_accepted_ms r) as [t|].
  - rewrite andb_true_r, Z.leb_le. naive_solver.
  - naive_solver.
Qed.

(** Slots free up with time. *)
Lemma takes_slot_later d now now' r : now <= now' → takes_slot d now' r = true → takes_slot d now r = true.
Proof.
  rewrite !takes_slot_spec, !accepted_within_spec. unfold holds_lease. rewrite !andb_true_iff, !Z.ltb_lt.
  intros Hle [Hp [(Hc & t & Ht & H)|[H1 H2]]]; (split; [done|]).
  - left. split; [done|]. exists t. split; [done|lia].
  - right. split; [done|]. lia.
Qed.

Lemma slots_later d now now' s : now <= now' → slots d now' s <= slots d now s.
Proof.
  intros H. rewrite !slots_count. apply inj_le, rowcount_mono. intros r _. by apply takes_slot_later.
Qed.

Lemma placed_step d now r r' : row_step now r r' → placed_in d r' → placed_in d r.
Proof. unfold placed_in. intros [E _]. unfold dr_identity in E. injection E. intros. naive_solver congruence. Qed.

(** A punctual move takes no slot it did not have. *)
Lemma step_takes_no_slot d now r r' :
  (charged (dr_state r) = true → is_some (dr_accepted_ms r) = true) →
  (charged (dr_state r') = true → dr_state r' ≠ dr_state r → holds_lease now r = true ∨ charged (dr_state r) = true) →
  row_step now r r' → takes_slot d now r' = true → takes_slot d now r = true.
Proof.
  intros Hsome Hpunct Hstep. rewrite !takes_slot_spec, !accepted_within_spec.
  intros [Hp Hw]. split; [by eapply placed_step|]. clear Hp.
  destruct Hstep as [[= _ _ _ _ _ Ecr _] [(E1 & E2 & _)|(Hs & E2 & _)]].
  - unfold holds_lease in *. by rewrite E1, E2, Ecr in Hw.
  - destruct (charged (dr_state r')) eqn:Ec; [|right].
    + destruct Hpunct as [|Hcr]; [done|intros E; rewrite E in Hs; by inversion Hs; subst; try congruence; destruct (dr_state r)|by right|].
      left. split; [done|]. destruct Hw as [(_ & t & Ht & Hle)|Hl]; [|by unfold holds_lease in Hl; destruct (dr_state r')].
      specialize (Hsome Hcr). destruct Hs as [|st H|st st' H _|st H|st H]; [done|by destruct st..|].
      rewrite Ht in E2. destruct st; try done. simpl in E2. destruct (dr_accepted_ms r) as [u|]; [|done].
      injection E2 as ->. eauto.
    + destruct Hw as [[? _]|Hl]; [done|]. unfold holds_lease in *. rewrite Ecr in Hl.
      apply andb_true_iff in Hl as [Hl ->]. rewrite andb_true_r.
      destruct Hs as [|st H|st st' H _|st H|st H]; [done|by destruct st..|done].
Qed.

Lemma rowcount_update_shrinks {R} (p q : R → bool) f t :
  (∀ r, r ∈ t → q r = true → p (f r) = true → p r = true) → (rowcount p (update q f t) ≤ rowcount p t)%nat.
Proof.
  unfold rowcount, select, update. induction t as [|r t IH]; intros H; simpl; [done|].
  specialize (IH ltac:(set_solver)). specialize (H r ltac:(set_solver)).
  destruct (q r), (p r); simpl; try lia; destruct (p (f r)) eqn:E; simpl; lia.
Qed.

Definition one_lane (d : dimension) (s : ledger) : Prop := ∀ r, r ∈ lg_reservations s → dr_lane r = dm_lane d.

(** A reservation that was granted left room. *)
Lemma opens_slots d a now s news_table :
  one_lane d s → honours d (OpReserve a) = true →
  forallb (entry_allowed a (py_strip (rv_proposal_id a)) now s) (rv_limits a) = true →
  opens a now (lg_reservations s) news_table →
  slots d now s <= dm_limit d →
  Z.of_nat (rowcount (takes_slot d now) news_table) <= dm_limit d.
Proof.
  intros Hlane Hon Hall (i & p & lane & origin & news & -> & -> & -> & _ & Hp & Hnew & Hcat) Hle.
  rewrite slots_count in Hle. rewrite rowcount_app.
  destruct (rowcount (takes_slot d now) news) as [|n] eqn:En; [lia|].
  assert (∃ r, r ∈ news ∧ takes_slot d now r = true) as (r & Hr & Ht).
  { apply row_exists_spec. apply not_false_iff_true. intros E. rewrite row_exists_false, <- rowcount_zero in E. lia. }
  assert (S n ≤ 1)%nat as Hn.
  { rewrite <- En. etrans; [|apply (Hcat (dm_category d))]. apply rowcount_mono.
    intros q _ [(_ & _ & E & _) _]%takes_slot_spec. by apply str_eqb_eq. }
  apply takes_slot_spec in Ht as [(E1 & E2 & E3 & _) _]. destruct (Hnew _ Hr) as (e & He & ->). simpl in *.
  apply andb_true_iff in Hon as [Hl%str_eqb_eq Hon]. rewrite forallb_forall in Hon, Hall.
  apply list_elem_of_In in He. specialize (Hon _ He). specialize (Hall _ He).
  unfold entry_honours in Hon. rewrite E3, str_eqb_refl in Hon. simpl in Hon.
  rewrite !andb_true_iff, Z.leb_le, negb_true_iff, Z.leb_le in Hon. destruct Hon as [[Hlim Hk] Hw].
  unfold entry_allowed in Hall. rewrite Hk in Hall. unfold rolling_capacity in Hall. apply Z.ltb_lt in Hall.
  unfold held_or_accepted_count in Hall.
  match type of Hall with Z.of_nat ?n < _ => enough (rowcount (takes_slot d now) (lg_reservations s) ≤ n)%nat by lia end.
  apply rowcount_mono. intros q Hq [(F1 & F2 & F3 & F4) Hocc]%takes_slot_spec.
  unfold occupies, in_chat. rewrite F1, F2, F3, E1, E2, E3, !str_eqb_refl. simpl.
  rewrite (proj2 (str_eqb_neq _ _)). 2:{ apply Hp; [done|congruence|congruence|]. rewrite Hl. by apply Hlane. }
  simpl. apply orb_true_iff. destruct Hocc as [Ha|Hh]; [left|by right].
  apply accepted_within_spec in Ha as (Hc & t & Ht & Hge). apply accepted_within_spec. split; [done|].
  exists t. split; [done|lia].
Qed.

(** One punctual call keeps the allowance and the lane. *)
Lemma perform_slots d op now s :
  wf_deliveries (lg_reservations s) → one_lane d s → honours d op = true → punctual op now s = true →
  slots d now s <= dm_limit d →
  slots d now (perform_op op now s) <= dm_limit d ∧ one_lane d (perform_op op now s).
Proof.
  intros Hwf Hlane Hon Hpu Hle. destruct (perform_change op now s Hwf) as [(a & -> & Hopen & Hall)|Hmove].
  - split; [rewrite slots_count; by eapply opens_slots|]. intros r. destruct Hopen as (i & p & lane & origin & news & -> & _ & -> & _ & _ & Hnew & _).
    apply andb_true_iff in Hon as [Hl%str_eqb_eq _].
    intros [?|(e & _ & ->)%Hnew]%elem_of_app; [by apply Hlane|done].
  - destruct Hmove as (i & f & E & Hf & _). rewrite slots_count in *. unfold one_lane. rewrite E. split.
    + etrans; [apply inj_le, rowcount_update_shrinks|exact Hle]. intros r Hr Hi.
      destruct (Hf r Hr Hi) as [Hstep Hev].
      apply step_takes_no_slot; [by apply (wf_charged _ Hwf)| |done].
      intros Hc Hne. destruct (Hev Hc) as [|Hop]; [done|].
      destruct op; try done; injection Hop as <-; simpl in Hpu;
        (destruct (delivery_record effect_id s) as [r0|] eqn:E0;
         [|unfold delivery_record in E0; by rewrite (fetchone_None_inv _ _ _ E0 Hr) in Hi]);
        pose proof (record_speaks _ _ _ _ Hwf E0 Hr Hi) as Hsh; row_of_shared Hsh;
        apply orb_true_iff in Hpu; unfold holds_lease in *; by replace (dr_created_ms r) with (dr_created_ms r0) by done;
        replace (dr_state r) with (dr_state r0) by done.
    + intros r (r0 & Hr0 & ->)%elem_of_update. destruct (of_effect i r0) eqn:Ei; [|by apply Hlane].
      destruct (Hf _ Hr0 Ei) as [[Hid _] _]. unfold dr_identity in Hid. injection Hid. intros -> _ _ _ _ _ _. by apply Hlane.
Qed.

Lemma fair_slots d trace t0 s :
  wf_deliveries (lg_reservations s) → one_lane d s → fair d t0 trace s = true → slots d t0 s <= dm_limit d →
  slots d (last_time t0 trace) (run_ops trace s) <= dm_limit d.
Proof.
  revert t0 s. induction trace as [|[now op] trace IH]; intros t0 s Hwf Hlane Hfair Hle; simpl in *; [done|].
  rewrite !andb_true_iff, Z.leb_le in Hfair. destruct Hfair as [[[Ht Hon] Hpu] Hfair].
  destruct (perform_slots d op now s) as [Hs Hl]; [done..|etrans; [by apply slots_later|done]|].
  apply IH; [by apply perform_wf|done..].
Qed.

(** C17: The send allowance of a chat is never exceeded: from a fresh ledger, along any
    sequence of calls in time order whose reservations ask for at most the dimension's
    limit and whose evidence arrives while its lease still runs (or repeats an earlier
    one), the slots the dimension's [consumed_slots] counts - accepted sends inside the rolling window and
    running leases - stay within the limit at every later moment, whatever the order
    of reservations, duplicate callbacks, releases, unknown outcomes and expiries. *)
Theorem allowance_kept d t0 trace t :
  0 <= dm_limit d → fair d t0 trace (empty_ledger t0) = true → last_time t0 trace <= t →
  slots d t (run_ops trace (empty_ledger t0)) <= dm_limit d.
Proof.
  intros H0 Hfair Ht. etrans; [by apply slots_later|]. apply fair_slots; [apply empty_wf|..|done|done].
  intros r. simpl. set_solver.
Qed.

(** ** Retries of a reservation *)

(** A reservation can be retried safely: once a call has opened a delivery, the same call
    repeated at any later time changes nothing, answers yes for exactly as long as the
    ten-minute lease runs, and no afterwards - so a retry after a crash neither takes a
    second slot nor submits on an expired hold. *)
Theorem reserve_retry a t s s' t' :
  reserve_delivery a t s = (Ok true, s') → lg_reservations s' ≠ lg_reservations s →
  reserve_delivery a t' s' = (Ok (t' <? t + DELIVERY_RESERVATION_TTL_MS), s').
Proof.
  intros Hrun Hne. unfold reserve_delivery in *.
  destruct (_ || _); [done|]. destruct (rv_limits a) as [|e0 l0] eqn:El; [done|]. rewrite <- El in *.
  destruct (negb _); [done|]. destruct (negb _); [done|]. unfold pbind, pread in *.
  destruct (checked_limits (rv_limits a)) as [[entries|]|] eqn:Ec; [|done..].
  unfold commit in *. destruct (fetchone _ (lg_reservations s)) as [r|] eqn:Ef; [by injection Hrun as _ <-|].
  destruct (forallb _ _); [|done]. injection Hrun as <-.
  match goal with |- context [foldl add_reservation s (map ?f ?l)] =>
    destruct (add_reservations (py_strip (rv_effect_id a)) (map f l) s) as (news & E & Hin & _) end.
  { intros r (e & -> & _)%list_elem_of_fmap. done. }
  rewrite E in *. rewrite fetchone_app, Ef. destruct news as [|r news]; [by rewrite app_nil_r in Hne|].
  assert (r ∈ r :: news) as (e & -> & _)%Hin%list_elem_of_fmap by set_solver.
  unfold fetchone. simpl. unfold of_effect, still_held. simpl. rewrite !str_eqb_refl. simpl.
  by rewrite !str_eqb_refl, !andb_true_r.
Qed.

(** ** Witnesses *)

Definition sample_limit : limit_entry := MkLimit "comment" 2 3600000 "rolling".
Definition sample_reserve (proposal effect : string) : reserve_args :=
  MkReserve proposal effect "whatsapp" "g1" [sample_limit; MkLimit "initiation" 3 0 "calendar_day"] 1 (Some 4) (Some 1)
    "production" "participation".
Definition sample_receipt : evidence := MkEvidence (Some "3EB0") "transport_receipt" "r1".
Definition read_proof : evidence := MkEvidence None "recipient_read" "r2".
Definition comments : dimension := MkDimension "whatsapp" "g1" "comment" 2 3600000 "production".

(** Two sends fill the hour, a third is refused, one hold is released. *)
Definition sample_trace : list (Z * delivery_op) :=
  [(1000, OpReserve (sample_reserve "p1" "e1")); (2000, OpReserve (sample_reserve "p2" "e2"));
   (3000, OpReserve (sample_reserve "p3" "e3")); (4000, OpSubmit "e1"); (5000, OpAccept "p1" "e1" sample_receipt);
   (6000, OpAccept "p1" "e1" sample_receipt); (7000, OpUnknown "p2" "e2" "timeout" "t1");
   (8000, OpRelease "p2" "e2" "failed" "late"); (9000, OpDeliver "p1" "e1" read_proof);
   (602000, OpReserve (sample_reserve "p4" "e4"))].

Lemma sample_trace_full : slots comments 603000 (run_ops sample_trace (empty_ledger 0)) = 2.
Proof. by vm_compute. Qed.

Lemma allowance_kept_witness :
  slots comments 603000 (run_ops sample_trace (empty_ledger 0)) <= dm_limit comments.
Proof. apply (allowance_kept comments 0 sample_trace 603000); vm_compute; congruence. Defined.

Definition accepted_prefix : list (Z * delivery_op) := take 5 sample_trace.

Lemma charge_final_witness :
  ∃ r r', lg_reservations (run_ops accepted_prefix (empty_ledger 0)) !! 0%nat = Some r
    ∧ lg_reservations (run_ops [(9000, OpRelease "p1" "e1" "cancelled" "x"); (9500, OpDeliver "p1" "e1" read_proof)]
                         (run_ops accepted_prefix (empty_ledger 0))) !! 0%nat = Some r' ∧ charge_kept r r'.
Proof.
  destruct (lg_reservations (run_ops accepted_prefix (empty_ledger 0)) !! 0%nat) as [r|] eqn:E;
    [|vm_compute in E; discriminate].
  exists r. destruct (charge_final 0 accepted_prefix
    [(9000, OpRelease "p1" "e1" "cancelled" "x"); (9500, OpDeliver "p1" "e1" read_proof)] 0%nat r E) as (r' & H1 & H2).
  - vm_compute in E. injection E as <-. reflexivity.
  - exists r'. auto.
Defined.

Lemma reserve_retry_witness :
  reserve_delivery (sample_reserve "p1" "e1") 600999 (run_ops (take 1 sample_trace) (empty_ledger 0))
    = (Ok true, run_ops (take 1 sample_trace) (empty_ledger 0))
  ∧ reserve_delivery (sample_reserve "p1" "e1") 601000 (run_ops (take 1 sample_trace) (empty_ledger 0))
    = (Ok false, run_ops (take 1 sample_trace) (empty_ledger 0)).
Proof.
  split.
  - apply (reserve_retry (sample_reserve "p1" "e1") 1000 (empty_ledger 0) _ 600999); [by vm_compute|].
    intros E. by vm_compute in E.
  - apply (reserve_retry (sample_reserve "p1" "e1") 1000 (empty_ledger 0) _ 601000); [by vm_compute|].
    intros E. by vm_compute in E.
Defined.
