(* ===== verification/LedgerRevs.v ===== *)
(** * LedgerRevs

    The other guarantees of the participation ledger: judge attempts per hour, stable and
    growing source revisions with their watermarks, activation epochs, and the fence
    around an owner's approval. *)

From Stdlib Require Import ZArith Lia Ascii SpecFloat.
From S2P Require Import Prelude Tables Json Identity PyFloat Ledger LedgerDelivery.

(** ** Judge attempts *)

Record judge_call := MkJudgeCall { jc_time : Z; jc_attempt : string; jc_args : judge_args }.

Fixpoint run_judges (calls : list judge_call) (s : ledger) : ledger :=
  match calls with
  | [] => s
  | c :: rest => run_judges rest (reserve_judge_attempt (jc_attempt c) (jc_args c) (jc_time c) s).2
  end.

(** Calls in time order; those of the chat ask for at most [limit] an hour, and leave
    background attempts at most [background] of them. *)
Fixpoint judge_calls_fair (channel chat_id : string) (limit background t0 : Z) (calls : list judge_call) : bool :=
  match calls with
  | [] => true
  | c :: rest =>
      (t0 <=? jc_time c)
      && (negb ((jg_channel (jc_args c) =?s channel) && (jg_chat_id (jc_args c) =?s chat_id))
          || ((jg_hourly_limit (jc_args c) <=? limit)
              && (Z.max 0 (jg_hourly_limit (jc_args c) - judge_reserve (jc_args c)) <=? background)))
      && judge_calls_fair channel chat_id limit background (jc_time c) rest
  end.

(** The attempts of a chat in the hour that ends at [w], of those a predicate picks. *)
Definition judged_in_hour (pick : judge_row → bool) (channel chat_id : string) (w : Z) (s : ledger) : Z :=
  Z.of_nat (rowcount (λ r, judge_in_chat channel chat_id r && ((w - HOUR <? ja_created_ms r) && (ja_created_ms r <=? w))
                           && pick r) (lg_judges s)).

Definition any_attempt (r : judge_row) : bool := true.
Definition background_attempt (r : judge_row) : bool := negb (ja_continuation_candidate r).

(** A granted attempt found room. *)
Lemma judge_change attempt_id a now s :
  (reserve_judge_attempt attempt_id a now s).2 = s
  ∨ ∃ r, (reserve_judge_attempt attempt_id a now s).2 = s <| lg_judges ::= insert_row r |>
    ∧ ja_created_ms r = now ∧ ja_channel r = jg_channel a ∧ ja_chat_id r = jg_chat_id a
    ∧ ja_continuation_candidate r = jg_continuation_candidate a
    ∧ judge_count (jg_channel a) (jg_chat_id a) now s < jg_hourly_limit a
    ∧ (jg_continuation_candidate a = false →
       judge_count (jg_channel a) (jg_chat_id a) now s < Z.max 0 (jg_hourly_limit a - judge_reserve a)).
Proof.
  unfold reserve_judge_attempt. destruct (negb _); [by left|]. unfold commit.
  destruct (row_exists _ _); [by left|]. destruct (_ <=? 0); [by left|].
  destruct (jg_hourly_limit a <=? _) eqn:E1; [by left|]. apply Z.leb_gt in E1.
  destruct (_ && _) eqn:E2; [by left|]. destruct (gap_too_small _ _ _); [by left|].
  right. eexists. split; [reflexivity|]. repeat split; [done|].
  intros Hc. rewrite Hc in E2. by apply Z.leb_gt in E2.
Qed.

(** What a run keeps: past attempts only, and a bound on every hour. *)
Definition hours_bounded (pick : judge_row → bool) (channel chat_id : string) (bound t0 : Z) (s : ledger) : Prop :=
  (∀ r, r ∈ lg_judges s → ja_created_ms r <= t0) ∧ ∀ w, judged_in_hour pick channel chat_id w s <= bound.

Lemma hours_bounded_insert pick channel chat_id bound t0 s r :
  hours_bounded pick channel chat_id bound t0 s → t0 <= ja_created_ms r →
  (judge_in_chat channel chat_id r = true → pick r = true → judge_count channel chat_id (ja_created_ms r) s < bound) →
  hours_bounded pick channel chat_id bound (ja_created_ms r) (s <| lg_judges ::= insert_row r |>).
Proof.
  intros [Hpast Hb] Ht Hroom. split.
  - simpl. intros q [Hq| ->]%elem_of_insert_row; [|lia]. specialize (Hpast q Hq). lia.
  - intros w. specialize (Hb w). unfold judged_in_hour in *. simpl. rewrite rowcount_insert_row.
    destruct (judge_in_chat channel chat_id r) eqn:E1; [|simpl; lia].
    destruct (w - HOUR <? ja_created_ms r) eqn:E2; [|simpl; lia].
    destruct (ja_created_ms r <=? w) eqn:E3; [|simpl; lia].
    destruct (pick r) eqn:E4; [|simpl; lia]. simpl. specialize (Hroom eq_refl eq_refl). unfold judge_count in Hroom.
    apply Z.ltb_lt in E2. apply Z.leb_le in E3.
    match goal with |- Z.of_nat (rowcount ?p _ + 1) <= _ => set (inhour := p) in * end.
    match type of Hroom with Z.of_nat (rowcount ?p _) < _ => set (recent := p) in * end.
    assert (rowcount inhour (lg_judges s) ≤ rowcount recent (lg_judges s))%nat; [|lia].
    apply rowcount_mono. intros q _. unfold inhour, recent. rewrite !andb_true_iff, !Z.ltb_lt. lia || intuition lia.
Qed.

Lemma hours_bounded_later pick channel chat_id bound t0 t1 s :
  t0 <= t1 → hours_bounded pick channel chat_id bound t0 s → hours_bounded pick channel chat_id bound t1 s.
Proof. intros Ht [Hpast Hb]. split; [|done]. intros r Hr. specialize (Hpast r Hr). lia. Qed.

(** One call keeps a bound that its own limit respects for the rows the predicate picks. *)
Lemma judge_step_bounded pick channel chat_id bound t0 c s :
  t0 <= jc_time c → hours_bounded pick channel chat_id bound t0 s →
  (∀ r, pick r = true → ja_continuation_candidate r = jg_continuation_candidate (jc_args c) →
        jg_channel (jc_args c) = channel → jg_chat_id (jc_args c) = chat_id →
        jg_hourly_limit (jc_args c) <= bound
        ∨ jg_continuation_candidate (jc_args c) = false
          ∧ Z.max 0 (jg_hourly_limit (jc_args c) - judge_reserve (jc_args c)) <= bound) →
  hours_bounded pick channel chat_id bound (jc_time c)
    (reserve_judge_attempt (jc_attempt c) (jc_args c) (jc_time c) s).2.
Proof.
  intros Ht Hb Hbound.
  destruct (judge_change (jc_attempt c) (jc_args c) (jc_time c) s) as [->|(r & -> & E1 & E2 & E3 & E4 & H5 & H6)].
  - by eapply hours_bounded_later.
  - rewrite <- E1 in *. apply (hours_bounded_insert _ _ _ _ t0); [done..|]. unfold judge_in_chat, in_chat.
    rewrite andb_true_iff, !str_eqb_eq, E2, E3. intros [<- <-] Hp.
    destruct (Hbound r Hp E4 eq_refl eq_refl) as [?|[Hc ?]]; [lia|]. specialize (H6 Hc). lia.
Qed.

Lemma run_judges_bounded pick channel chat_id limit background bound t0 calls s :
  judge_calls_fair channel chat_id limit background t0 calls = true →
  (∀ r, pick r = true → limit <= bound ∨ ja_continuation_candidate r = false ∧ background <= bound) →
  hours_bounded pick channel chat_id bound t0 s →
  ∀ w, judged_in_hour pick channel chat_id w (run_judges calls s) <= bound.
Proof.
  intros Hfair Hpick. revert t0 s Hfair. induction calls as [|c calls IH]; intros t0 s Hfair Hb; simpl in *; [apply Hb|].
  rewrite !andb_true_iff, Z.leb_le in Hfair. destruct Hfair as [[Ht Hc] Hrest].
  apply (IH (jc_time c)); [done|]. apply (judge_step_bounded _ _ _ _ t0); [done..|].
  intros r Hp Hcand E1 E2. rewrite E1, E2, !str_eqb_refl in Hc. simpl in Hc.
  rewrite andb_true_iff, !Z.leb_le in Hc. destruct Hc as [Hl Hbg].
  destruct (Hpick r Hp) as [?|[Hf ?]]; [left; lia|right]. split; [congruence|lia].
Qed.

(** C32: The judge is asked at most [limit] times in any hour of a chat, and at most
    [background] of those attempts are background ones: along any sequence of
    [reserve_judge_attempt] calls in time order on a ledger without attempts, whose calls for the chat stay
    within the hourly limit and keep the continuation reserve, every window of one hour -
    wherever it starts - obeys both bounds. *)
Theorem judge_hour_bounded channel chat_id limit background t0 calls s w :
  lg_judges s = [] → 0 <= limit → 0 <= background →
  judge_calls_fair channel chat_id limit background t0 calls = true →
  judged_in_hour any_attempt channel chat_id w (run_judges calls s) <= limit
  ∧ judged_in_hour background_attempt channel chat_id w (run_judges calls s) <= background.
Proof.
  intros Hs Hl Hb Hfair.
  assert (∀ pick bound, 0 <= bound → hours_bounded pick channel chat_id bound t0 s) as H0.
  { intros pick bound H. unfold hours_bounded, judged_in_hour. rewrite Hs. split; [set_solver|by intros]. }
  split; eapply run_judges_bounded; eauto.
  - intros r _. left. lia.
  - intros r Hr. right. by apply negb_true_iff in Hr.
Qed.

(** ** Source revisions *)

Inductive revision_op :=
| EnsureOp (channel chat_id : string) (ids : list string)
| NextOp (channel chat_id : string)
| MarkOp (channel chat_id : string) (revision : Z) (l : string)
| BaselineOp (channel chat_id : string) (ids : list string) (l : string)
| DisposeOp (r : disposition_row)
| ClaimSourceOp (channel chat_id source : string) (epoch : Z) (l owner : string)
| RestartOp.

Definition revise (op : revision_op) (now : Z) (s : ledger) : ledger :=
  match op with
  | EnsureOp c h ids => (ensure_source_revisions c h ids now s).2
  | NextOp c h => (next_source_revision c h now s).2
  | MarkOp c h revision l => (mark_material_considered c h revision l now s).2
  | BaselineOp c h ids l => (initialize_material_baseline c h ids l now s).2
  | DisposeOp r => (record_disposition r s).2
  | ClaimSourceOp c h x epoch l owner => (claim_source c h x epoch l owner now s).2
  | RestartOp => (migrate_source_revisions now s).2
  end.

Fixpoint run_revisions (trace : list (Z * revision_op)) (s : ledger) : ledger :=
  match trace with [] => s | (now, op) :: rest => run_revisions rest (revise op now s) end.

(** The last revision handed out for a chat. *)
Definition last_revision (channel chat_id : string) (s : ledger) : Z :=
  match chat_row channel chat_id s with Some r => cr_revision r | None => 0 end.

Record wf_revisions (s : ledger) : Prop := {
  wr_bounded : ∀ r, r ∈ lg_sources s → 0 < sr_revision r <= last_revision (sr_channel r) (sr_chat_id r) s;
  wr_functional : ∀ r q, r ∈ lg_sources s → q ∈ lg_sources s →
    sr_channel r = sr_channel q → sr_chat_id r = sr_chat_id q →
    sr_source_event_id r = sr_source_event_id q → sr_revision r = sr_revision q;
  wr_marks : ∀ c h l, 0 <= considered_mark c h l s;
  wr_revision : ∀ c h, 0 <= last_revision c h s;
}.

(** Two sources of a chat never share a number. *)
Definition distinct_revisions (s : ledger) : Prop := ∀ r q, r ∈ lg_sources s → q ∈ lg_sources s →
  sr_channel r = sr_channel q → sr_chat_id r = sr_chat_id q →
  sr_revision r = sr_revision q → sr_source_event_id r = sr_source_event_id q.

(** Nothing is forgotten: sources keep their revision and watermarks only rise. *)
Definition grows (s s' : ledger) : Prop :=
  (∃ news, lg_sources s' = lg_sources s ++ news)
  ∧ (∀ c h l, considered_mark c h l s <= considered_mark c h l s')
  ∧ (∀ c h, last_revision c h s <= last_revision c h s')
  ∧ ∀ c h, is_some (chat_row c h s) = true → is_some (chat_row c h s') = true.

Lemma grows_refl s : grows s s.
Proof. split; [by exists []; rewrite app_nil_r|]. repeat split; intros; lia || done. Qed.

Lemma grows_trans s1 s2 s3 : grows s1 s2 → grows s2 s3 → grows s1 s3.
Proof.
  intros ([n1 E1] & M1 & R1 & P1) ([n2 E2] & M2 & R2 & P2). split; [|split; [|split; [|by auto]]].
  - exists (n1 ++ n2). by rewrite E2, E1, app_assoc.
  - intros c h l. etrans; [apply M1|apply M2].
  - intros c h. etrans; [apply R1|apply R2].
Qed.

Lemma chat_is_spec c h r : chat_is c h r = true ↔ cr_channel r = c ∧ cr_chat_id r = h.
Proof. unfold chat_is, in_chat. by rewrite andb_true_iff, !str_eqb_eq. Qed.

Lemma chat_row_ensure c h c' h' now s :
  chat_row c h (ensure_chat_row c' h' now s) =
    match chat_row c h s with
    | Some r => Some r
    | None => if (c' =?s c) && (h' =?s h) then Some (MkChatRevision c' h' 0 0 0 now) else None
    end.
Proof.
  unfold chat_row, ensure_chat_row, insert_or_ignore. simpl. destruct (row_exists _ _) eqn:E.
  - destruct (fetchone (chat_is c h) (lg_chats s)) as [r|] eqn:E1; [done|].
    destruct (_ && _) eqn:E2; [|done]. rewrite andb_true_iff, !str_eqb_eq in E2. destruct E2 as [-> ->].
    apply row_exists_spec in E as (r & Hr & Hc). by rewrite (fetchone_None_inv _ _ _ E1 Hr) in Hc.
  - by rewrite fetchone_insert_row.
Qed.

Lemma chat_row_update c h c' h' f s :
  (∀ r, cr_channel (f r) = cr_channel r ∧ cr_chat_id (f r) = cr_chat_id r) →
  chat_row c h (update_chat c' h' f s) =
    (if (c' =?s c) && (h' =?s h) then f <$> chat_row c h s else chat_row c h s).
Proof.
  intros Hf. unfold chat_row, update_chat. simpl.
  assert (∀ r, chat_is c h (f r) = chat_is c h r) as Hkey.
  { intros r. unfold chat_is, in_chat. by destruct (Hf r) as [-> ->]. }
  unfold fetchone, update. induction (lg_chats s) as [|r t IH]; simpl; [by destruct (_ && _)|].
  destruct (chat_is c' h' r) eqn:E'; simpl; rewrite ?Hkey; destruct (chat_is c h r) eqn:E; try done.
  - apply chat_is_spec in E as [<- <-], E' as [<- <-]. by rewrite !str_eqb_refl.
  - destruct (_ && _) eqn:E2; [|done]. rewrite andb_true_iff, !str_eqb_eq in E2. destruct E2 as [-> ->]. congruence.
Qed.

Lemma chat_row_key c h s r : chat_row c h s = Some r → cr_channel r = c ∧ cr_chat_id r = h.
Proof. by intros [_ E%chat_is_spec]%fetchone_Some_inv. Qed.

Lemma still_wf s s' : wf_revisions s → lg_sources s' = lg_sources s → grows s s' → wf_revisions s'.
Proof.
  intros [H1 H2 H3 H4] E (_ & M & R & _). split; rewrite ?E; [|done|..].
  - intros r Hr. specialize (H1 r Hr). specialize (R (sr_channel r) (sr_chat_id r)). lia.
  - intros c h l. specialize (H3 c h l). specialize (M c h l). lia.
  - intros c h. specialize (H4 c h). specialize (R c h). lia.
Qed.

Lemma ensure_grows c h now s : grows s (ensure_chat_row c h now s).
Proof.
  split; [by exists []; rewrite app_nil_r|]. unfold considered_mark, last_revision. split; [|split]; intros.
  - rewrite chat_row_ensure. destruct (chat_row _ _ s); [lia|]. destruct (_ && _), l; simpl; lia.
  - rewrite chat_row_ensure. destruct (chat_row _ _ s); [lia|]. destruct (_ && _); simpl; lia.
  - rewrite chat_row_ensure. by destruct (chat_row _ _ s).
Qed.

Lemma update_chat_grows c h f s :
  (∀ r, cr_channel (f r) = cr_channel r ∧ cr_chat_id (f r) = cr_chat_id r) →
  (∀ r, chat_row c h s = Some r → cr_revision r <= cr_revision (f r) ∧ ∀ l, considered l r <= considered l (f r)) →
  grows s (update_chat c h f s).
Proof.
  intros Hkey Hf. split; [by exists []; rewrite app_nil_r|]. unfold considered_mark, last_revision.
  split; [|split]; intros c' h'; intros; rewrite chat_row_update by done;
    (destruct (_ && _) eqn:E; [|lia || done]); rewrite andb_true_iff, !str_eqb_eq in E; destruct E as [-> ->];
    destruct (chat_row c' h' s) as [r|]; simpl; try lia; try done; by apply Hf.
Qed.

Lemma ensure_present c h now s : is_some (chat_row c h (ensure_chat_row c h now s)) = true.
Proof. rewrite chat_row_ensure, !str_eqb_refl. by destruct (chat_row c h s). Qed.

Definition source_row (c h source : string) (s : ledger) : option source_revision_row :=
  fetchone (of_source_event c h source) (lg_sources s).

Lemma of_source_event_spec c h x r :
  of_source_event c h x r = true ↔ sr_channel r = c ∧ sr_chat_id r = h ∧ sr_source_event_id r = x.
Proof. unfold of_source_event, in_chat. rewrite !andb_true_iff, !str_eqb_eq. tauto. Qed.

(** A stored source keeps its row. *)
Lemma source_row_grows c h x s s' r : grows s s' → source_row c h x s = Some r → source_row c h x s' = Some r.
Proof. intros ([news E] & _) H. unfold source_row in *. by rewrite E, fetchone_app, H. Qed.

(** Allocation hands out the next number. *)
Lemma allocate_next c h now s :
  wf_revisions s →
  ∃ s', allocate_source_revision c h 0 now s = (last_revision c h s + 1, s')
    ∧ grows s s' ∧ lg_sources s' = lg_sources s ∧ last_revision c h s' = last_revision c h s + 1.
Proof.
  intros Hwf. unfold allocate_source_revision. set (s1 := ensure_chat_row c h now s).
  assert (∃ r, chat_row c h s1 = Some r ∧ cr_revision r = last_revision c h s) as (r & Er & Erev).
  { unfold s1, last_revision. rewrite chat_row_ensure, !str_eqb_refl. destruct (chat_row c h s); eauto. }
  rewrite Er, Erev. pose proof (wr_revision _ Hwf c h) as H0. rewrite Z.max_l by lia.
  eexists. split; [reflexivity|]. split; [|split; [done|]].
  - eapply grows_trans; [apply ensure_grows|]. apply update_chat_grows; [done|].
    intros q Hq. rewrite Er in Hq. injection Hq as <-. simpl. split; [lia|]. intros []; simpl; lia.
  - unfold last_revision at 1. rewrite chat_row_update by done. rewrite !str_eqb_refl. simpl.
    by rewrite Er.
Qed.

(** A row for a source nobody knew. *)
Lemma add_source_wf c h x v now s s' :
  wf_revisions s → source_row c h x s = None → grows s s' →
  lg_sources s' = lg_sources s ++ [MkSourceRevision c h x v now] → 0 < v <= last_revision c h s' →
  wf_revisions s' ∧ (last_revision c h s < v → distinct_revisions s → distinct_revisions s').
Proof.
  intros [H1 H2 H3 H4] Hnone (_ & M & R & _) Esrc Hv.
  assert (∀ r, r ∈ lg_sources s → sr_channel r = c → sr_chat_id r = h → sr_source_event_id r ≠ x) as Hold.
  { intros r Hr E1 E2 E3. eapply (fetchone_None_inv _ _ r) in Hnone; [|done].
    by rewrite (proj2 (of_source_event_spec c h x r)) in Hnone. }
  split; [split|].
  - intros r. rewrite Esrc, elem_of_app, list_elem_of_singleton. intros [Hr| ->]; [|simpl; lia].
    specialize (H1 r Hr). specialize (R (sr_channel r) (sr_chat_id r)). lia.
  - intros r q. rewrite Esrc, !elem_of_app, !list_elem_of_singleton.
    intros [Hr| ->] [Hq| ->] E1 E2 E3; [by apply H2|..|done].
    + by destruct (Hold r Hr E1 E2).
    + by destruct (Hold q Hq (eq_sym E1) (eq_sym E2)).
  - intros c' h' l. specialize (H3 c' h' l). specialize (M c' h' l). lia.
  - intros c' h'. specialize (H4 c' h'). specialize (R c' h'). lia.
  - intros Hlt Hd r q. rewrite Esrc, !elem_of_app, !list_elem_of_singleton.
    intros [Hr| ->] [Hq| ->] E1 E2 E3; [by apply Hd|..|done].
    + specialize (H1 r Hr). rewrite E1, E2 in H1. simpl in *. lia.
    + specialize (H1 q Hq). rewrite <- E1, <- E2 in H1. simpl in *. lia.
Qed.

(** Registering a source nobody knew. *)
Lemma register_new_spec c h now x s :
  wf_revisions s → source_row c h x s = None →
  ∃ s', register_new c h now x s = (last_revision c h s + 1, s') ∧ wf_revisions s' ∧ grows s s'
    ∧ (distinct_revisions s → distinct_revisions s')
    ∧ lg_sources s' = lg_sources s ++ [MkSourceRevision c h x (last_revision c h s + 1) now].
Proof.
  intros Hwf Hnone. unfold register_new. destruct (allocate_next c h now s Hwf) as (s1 & -> & Hg & Es & Er).
  set (row := MkSourceRevision c h x (last_revision c h s + 1) now).
  exists (s1 <| lg_sources ::= insert_row row |>). split; [reflexivity|].
  assert (lg_sources (s1 <| lg_sources ::= insert_row row |>) = lg_sources s ++ [row]) as Esrc
    by (simpl; unfold insert_row; by rewrite Es).
  assert (last_revision c h (s1 <| lg_sources ::= insert_row row |>) = last_revision c h s + 1) as Enew by done.
  assert (grows s (s1 <| lg_sources ::= insert_row row |>)) as Hgrow.
  { destruct Hg as (_ & M & R & P). split; [by exists [row]|]. by split. }
  pose proof (wr_revision _ Hwf c h). edestruct add_source_wf as [Hw Hd]; [done|done|done|exact Esrc|rewrite Enew; lia|].
  split; [done|]. split; [done|]. split; [|done]. apply Hd. lia.
Qed.

(** What one operation does to a well-formed ledger. *)
Definition extends (s s' : ledger) : Prop := wf_revisions s' ∧ grows s s'.
Definition advances (s s' : ledger) : Prop :=
  wf_revisions s' ∧ grows s s' ∧ (distinct_revisions s → distinct_revisions s').

Lemma extends_refl s : wf_revisions s → extends s s.
Proof. intros H. split; [done|apply grows_refl]. Qed.

Lemma extends_trans s1 s2 s3 : extends s1 s2 → extends s2 s3 → extends s1 s3.
Proof. intros [_ ?] [? ?]. split; [done|]. by eapply grows_trans. Qed.

Lemma advances_extends s s' : advances s s' → extends s s'.
Proof. intros (? & ? & _). by split. Qed.

Lemma advances_refl s : wf_revisions s → advances s s.
Proof. intros H. split; [done|]. split; [apply grows_refl|done]. Qed.

Lemma advances_trans s1 s2 s3 : advances s1 s2 → advances s2 s3 → advances s1 s3.
Proof. intros (_ & ? & ?) (? & ? & ?). split; [done|]. split; [by eapply grows_trans|auto]. Qed.

Lemma advances_grows s s' : wf_revisions s → lg_sources s' = lg_sources s → grows s s' → advances s s'.
Proof. intros H E Hg. split; [by eapply still_wf|]. split; [done|]. unfold distinct_revisions. by rewrite E. Qed.

Lemma advances_wf s s' : advances s s' → wf_revisions s'.
Proof. by intros [? _]. Qed.

Create HintDb revisions.
#[export] Hint Resolve advances_refl advances_trans advances_grows advances_wf ensure_grows : revisions.

Definition source_assigned (c h : string) (s : ledger) (e : string * Z) : Prop :=
  ∃ r, source_row c h e.1 s = Some r ∧ sr_revision r = e.2.

Lemma assigned_grows c h s s' e : grows s s' → source_assigned c h s e → source_assigned c h s' e.
Proof. intros Hg (r & H & E). exists r. split; [by eapply source_row_grows|done]. Qed.

Lemma register_source_spec c h now out x s :
  wf_revisions s →
  ∃ v s', register_source c h now (out, s) x = (out ++ [(x, v)], s') ∧ advances s s' ∧ source_assigned c h s' (x, v).
Proof.
  intros Hwf. unfold register_source. fold (source_row c h x s). destruct (source_row c h x s) as [r|] eqn:E.
  - exists (sr_revision r), s. split; [done|]. split; [by apply advances_refl|]. by exists r.
  - destruct (register_new_spec c h now x s Hwf E) as (s' & -> & Hwf' & Hg & Hd & Es).
    eexists _, s'. split; [done|]. split; [done|].
    exists (MkSourceRevision c h x (last_revision c h s + 1) now). split; [|reflexivity].
    cbn [fst]. unfold source_row in *. rewrite Es, fetchone_app, E. simpl.
    by rewrite (proj2 (of_source_event_spec c h x _)).
Qed.

Lemma register_all_spec c h now ids out s :
  wf_revisions s →
  ∃ out' s', foldl (register_source c h now) (out, s) ids = (out ++ out', s') ∧ advances s s'
    ∧ map fst out' = ids ∧ Forall (source_assigned c h s') out'.
Proof.
  revert out s. induction ids as [|x ids IH]; intros out s Hwf; cbn [foldl].
  - exists [], s. rewrite app_nil_r. split; [done|]. split; [by apply advances_refl|]. by split.
  - destruct (register_source_spec c h now out x s Hwf) as (v & s1 & -> & H1 & A1).
    destruct (IH (out ++ [(x, v)]) s1) as (out' & s2 & -> & H2 & E & A2); [by apply H1|].
    exists ((x, v) :: out'), s2. rewrite <- app_assoc. split; [done|]. split; [by eapply advances_trans|].
    split; [simpl; by rewrite E|]. constructor; [|done]. eapply assigned_grows; [apply H2|done].
Qed.

Lemma ensure_revisions_spec c h ids now s out s' :
  wf_revisions s → ensure_source_revisions c h ids now s = (Ok out, s') →
  advances s s' ∧ Forall (source_assigned c h s') out
  ∧ (out = [] ∧ s' = s ∧ (normalized_sources ids = [] ∨ str_true c = false ∨ str_true h = false)
     ∨ map fst out = normalized_sources ids ∧ is_some (chat_row c h s') = true).
Proof.
  intros Hwf. unfold ensure_source_revisions. destruct (normalized_sources ids) as [|x l] eqn:E.
  { intros [= <- <-]. split; [by apply advances_refl|]. split; [done|]. by auto. }
  destruct (_ || _) eqn:Eb.
  { intros [= <- <-]. split; [by apply advances_refl|]. split; [done|]. left. split; [done|]. split; [done|]. right.
    by rewrite orb_true_iff, !negb_true_iff in Eb. }
  rewrite <- E. unfold commit.
  assert (advances s (ensure_chat_row c h now s)) as H0 by (apply advances_grows; [done..|apply ensure_grows]).
  destruct (register_all_spec c h now (normalized_sources ids) [] (ensure_chat_row c h now s)) as (out' & s2 & -> & H & Ef & A);
    [by apply H0|]. intros [= <- <-]. split; [by eapply advances_trans|]. split; [done|]. right. split; [done|].
  apply H, ensure_present.
Qed.

Lemma mark_considered_advances c h revision l now s s' :
  wf_revisions s → mark_considered c h revision l now s = Ok (tt, s') → advances s s'.
Proof.
  intros Hwf. unfold mark_considered. destruct (revision <=? 0); [intros [= <-]; by apply advances_refl|].
  destruct (considered_lane l) as [column|]; [|done]. simpl. intros [= <-].
  apply advances_grows; [done..|]. eapply grows_trans; [apply ensure_grows|].
  apply update_chat_grows; [by destruct column|]. intros r _. destruct column; simpl; (split; [lia|]); intros []; simpl; lia.
Qed.

Lemma next_revision_advances c h now s :
  wf_revisions s → advances s (next_source_revision c h now s).2.
Proof.
  intros Hwf. unfold next_source_revision, commit. simpl. destruct (row_exists _ _) eqn:E; apply advances_grows; try done.
  - apply update_chat_grows; [done|]. intros r _. simpl. split; [lia|]. intros []; simpl; lia.
  - split; [by exists []; rewrite app_nil_r|]. unfold considered_mark, last_revision, chat_row. simpl.
    repeat split; intros; rewrite fetchone_insert_row.
    + destruct (fetchone _ _); [lia|]. by destruct (chat_is _ _ _), l.
    + destruct (fetchone _ _); [lia|]. by destruct (chat_is _ _ _).
    + by destruct (fetchone _ _).
Qed.

Lemma NoDup_first_seen seen l : NoDup (first_seen seen l).
Proof.
  revert seen. induction l as [|x l IH]; intros seen; cbn [first_seen]; [constructor|].
  destruct (str_in x seen); [apply IH|]. constructor; [|apply IH]. rewrite elem_of_first_seen. set_solver.
Qed.

Lemma baseline_fold c h now ids acc s :
  wf_revisions s → NoDup ids → (∀ x, x ∈ ids → source_row c h x s = None) →
  advances s (foldl (baseline_source c h now) (acc, s) ids).2.
Proof.
  revert acc s. induction ids as [|x ids IH]; intros acc s Hwf Hnd Hnone; [by apply advances_refl|].
  apply NoDup_cons in Hnd as [Hx Hids]. cbn [foldl]. unfold baseline_source at 2. cbn [snd fst].
  destruct (register_new_spec c h now x s Hwf) as (s1 & -> & Hwf1 & Hg & Hd & Es); [apply Hnone; set_solver|].
  eapply advances_trans; [by split|]. apply IH; [done..|].
  intros y Hy. specialize (Hnone y ltac:(set_solver)). unfold source_row in *. rewrite Es, fetchone_app, Hnone. simpl.
  destruct (of_source_event c h y _) eqn:E; [|done]. apply of_source_event_spec in E as (_ & _ & E). simpl in E. congruence.
Qed.

Lemma chat_unknown_source c h s x : chat_known c h s = false → source_row c h x s = None.
Proof.
  unfold chat_known. rewrite !orb_false_iff, !row_exists_false. intros [[[_ H] _] _]. apply fetchone_None.
  intros r Hr. unfold of_source_event. by rewrite (H r Hr).
Qed.

Lemma baseline_advances c h ids l now s :
  wf_revisions s → advances s (initialize_material_baseline c h ids l now s).2.
Proof.
  intros Hwf. unfold initialize_material_baseline, pbind, pread.
  destruct (considered_lane l) as [column|]; [|by apply advances_refl].
  destruct (_ || _); [by apply advances_refl|]. unfold commit.
  destruct (chat_known c h s) eqn:Ek; [by apply advances_refl|].
  assert (advances s (ensure_chat_row c h now s)) as H0 by (apply advances_grows; [done..|apply ensure_grows]).
  pose proof (baseline_fold c h now (normalized_sources ids) 0 (ensure_chat_row c h now s) (advances_wf _ _ H0)
    (NoDup_first_seen _ _)) as H1.
  specialize (H1 ltac:(intros x _; exact (chat_unknown_source c h s x Ek))).
  destruct (foldl _ _ _) as [highest s1]. simpl in H1.
  destruct (mark_considered c h highest "production" now s1) as [[[] s2]|] eqn:E2; simpl; [|by apply advances_refl].
  destruct (mark_considered c h highest "shadow" now s2) as [[[] s3]|] eqn:E3; simpl; [|by apply advances_refl].
  eapply advances_trans; [exact H0|]. eapply advances_trans; [exact H1|].
  pose proof (mark_considered_advances _ _ _ _ _ _ _ (advances_wf _ _ H1) E2) as H2.
  eapply advances_trans; [exact H2|]. exact (mark_considered_advances _ _ _ _ _ _ _ (advances_wf _ _ H2) E3).
Qed.

Lemma ensure_advances c h ids now s : wf_revisions s → advances s (ensure_source_revisions c h ids now s).2.
Proof.
  intros Hwf. destruct (ensure_source_revisions c h ids now s) as [[out|e] s'] eqn:E.
  - by eapply ensure_revisions_spec.
  - unfold ensure_source_revisions in E. destruct (normalized_sources ids); [done|]. destruct (_ || _); [done|].
    unfold commit in E. by destruct (foldl _ _ _).
Qed.

Lemma mark_material_advances c h revision l now s :
  wf_revisions s → advances s (mark_material_considered c h revision l now s).2.
Proof.
  intros Hwf. unfold mark_material_considered, commit.
  destruct (mark_considered c h revision l now s) as [[[] s']|] eqn:E; [|by apply advances_refl].
  by eapply mark_considered_advances.
Qed.

Lemma set_at_least_grows c h revision now s : grows s (set_revision_at_least c h revision now s).
Proof.
  eapply grows_trans; [apply ensure_grows|]. apply update_chat_grows; [done|].
  intros r _. simpl. split; [lia|]. intros []; simpl; lia.
Qed.

Lemma set_at_least_reaches c h revision now s : revision <= last_revision c h (set_revision_at_least c h revision now s).
Proof.
  unfold set_revision_at_least, last_revision. rewrite chat_row_update by done. rewrite !str_eqb_refl. cbn [andb].
  pose proof (ensure_present c h now s). destruct (chat_row c h (ensure_chat_row c h now s)); [|done]. simpl. lia.
Qed.

Lemma migrate_source_extends c h observed now acc x s :
  wf_revisions s → 0 <= observed → extends s (migrate_source c h observed now (acc, s) x).2.
Proof.
  intros Hwf Hobs. unfold migrate_source. fold (source_row c h x s).
  destruct (source_row c h x s) as [r|] eqn:Ex; [by apply extends_refl|].
  assert (∃ v s1, (if 0 <? observed then (observed, s) else allocate_source_revision c h 0 now s) = (v, s1)
                  ∧ 0 < v ∧ grows s s1 ∧ lg_sources s1 = lg_sources s) as (v & s1 & -> & Hv & Hg1 & Es1).
  { destruct (0 <? observed) eqn:E.
    - apply Z.ltb_lt in E. exists observed, s. split; [done|]. split; [done|]. split; [apply grows_refl|done].
    - destruct (allocate_next c h now s Hwf) as (s1 & -> & Hg & Es & _). exists (last_revision c h s + 1), s1.
      pose proof (wr_revision _ Hwf c h). split; [done|]. split; [lia|done]. }
  set (s2 := set_revision_at_least c h v now s1). set (row := MkSourceRevision c h x v now).
  assert (lg_sources s2 = lg_sources s) as Es2 by done.
  assert (grows s s2) as Hg2 by (eapply grows_trans; [exact Hg1|apply set_at_least_grows]).
  assert (v <= last_revision c h s2) as Hr2 by apply set_at_least_reaches.
  assert (lg_sources (s2 <| lg_sources ::= insert_or_ignore (of_source_event c h x) row |>) = lg_sources s ++ [row]) as Esrc.
  { change (insert_or_ignore (of_source_event c h x) row (lg_sources s2) = lg_sources s ++ [row]). rewrite Es2.
    unfold insert_or_ignore, source_row in *. by rewrite fetchone_row_exists, Ex. }
  cbn [snd]. assert (grows s (s2 <| lg_sources ::= insert_or_ignore (of_source_event c h x) row |>)) as Hg3.
  { destruct Hg2 as (_ & M & R & P). split; [by exists [row]|]. by split. }
  split; [|done]. eapply add_source_wf; [done|done|done|exact Esrc|]. split; [done|exact Hr2].
Qed.

Lemma migrate_sources_extend c h observed now ids acc s :
  wf_revisions s → 0 <= observed → extends s (foldl (migrate_source c h observed now) (acc, s) ids).2.
Proof.
  intros Hwf Hobs. revert acc s Hwf. induction ids as [|x ids IH]; intros acc s Hwf; cbn [foldl]; [by apply extends_refl|].
  pose proof (migrate_source_extends c h observed now acc x s Hwf Hobs) as H1.
  destruct (migrate_source c h observed now (acc, s) x) as [acc1 s1]. cbn [snd] in H1.
  eapply extends_trans; [exact H1|]. apply IH, H1.
Qed.

Lemma each_row_extends {R} (f : R → txn ledger unit) l s s' :
  (∀ r s s', wf_revisions s → f r s = Ok (tt, s') → extends s s') → wf_revisions s →
  each_row f l s = Ok (tt, s') → extends s s'.
Proof.
  intros Hf. revert s. induction l as [|r l IH]; intros s Hwf; cbn [each_row]; [intros [= <-]; by apply extends_refl|].
  destruct (f r s) as [[[] s1]|] eqn:E; [|done]. cbn [rbind]. intros Hl.
  pose proof (Hf _ _ _ Hwf E) as H1. eapply extends_trans; [exact H1|]. apply IH; [apply H1|done].
Qed.

Lemma migrate_disposition_extends now r s s' :
  wf_revisions s → migrate_disposition now r s = Ok (tt, s') → extends s s'.
Proof.
  intros Hwf. unfold migrate_disposition. pose proof (migrate_sources_extend (od_channel r) (od_chat_id r)
    (Z.max 0 (od_observed_revision r)) now (normalized_sources (od_source_ids r)) (Z.max 0 (od_observed_revision r)) s Hwf
    ltac:(lia)) as H1.
  destruct (foldl _ _ _) as [highest s1]. cbn [snd] in H1. intros Hm. eapply extends_trans; [exact H1|].
  eapply advances_extends, mark_considered_advances; [apply H1|exact Hm].
Qed.

Lemma migrate_claim_extends now r s s' :
  wf_revisions s → migrate_claim now r s = Ok (tt, s') → extends s s'.
Proof.
  intros Hwf. unfold migrate_claim. destruct (claimed_source r) as [l [x|]]; [|intros [= <-]; by apply extends_refl].
  destruct (negb _); [intros [= <-]; by apply extends_refl|]. fold (source_row (sc_channel r) (sc_chat_id r) x s).
  destruct (source_row (sc_channel r) (sc_chat_id r) x s) as [q|] eqn:E.
  - intros Hm. eapply advances_extends, mark_considered_advances; [exact Hwf|exact Hm].
  - destruct (register_new_spec _ _ now x s Hwf E) as (s1 & -> & Hwf1 & Hg & _ & _). intros Hm.
    eapply extends_trans; [by split|]. eapply advances_extends, mark_considered_advances; [exact Hwf1|exact Hm].
Qed.

Lemma migrate_extends now s : wf_revisions s → extends s (migrate_source_revisions now s).2.
Proof.
  intros Hwf. unfold migrate_source_revisions, commit. cbn zeta.
  destruct (each_row (migrate_disposition now) _ s) as [[[] s1]|] eqn:E1; cbn [rbind]; [|by apply extends_refl].
  destruct (each_row (migrate_claim now) _ s1) as [[[] s2]|] eqn:E2; cbn [rbind]; [|by apply extends_refl].
  pose proof (each_row_extends _ _ _ _ (migrate_disposition_extends now) Hwf E1) as H1.
  eapply extends_trans; [exact H1|]. eapply each_row_extends; [apply migrate_claim_extends|apply H1|exact E2].
Qed.

Definition is_restart (op : revision_op) : bool := match op with RestartOp => true | _ => false end.

Lemma revise_advances op now s : wf_revisions s → is_restart op = false → advances s (revise op now s).
Proof.
  intros Hwf. destruct op; simpl; intros Hno; try done.
  - by apply ensure_advances.
  - by apply next_revision_advances.
  - by apply mark_material_advances.
  - by apply baseline_advances.
  - apply advances_grows; [done..|]. split; [by exists []; rewrite app_nil_r|]. by split.
  - unfold claim_source, commit. destruct (fetchone _ _); apply advances_grows; try done; [apply grows_refl|].
    split; [by exists []; rewrite app_nil_r|]. by split.
Qed.

Lemma revise_extends op now s : wf_revisions s → extends s (revise op now s).
Proof.
  intros Hwf. destruct (is_restart op) eqn:E; [destruct op; try done; by apply migrate_extends|].
  by apply advances_extends, revise_advances.
Qed.

Lemma run_extends trace s : wf_revisions s → extends s (run_revisions trace s).
Proof.
  revert s. induction trace as [|[now op] trace IH]; intros s Hwf; simpl; [by apply extends_refl|].
  pose proof (revise_extends op now s Hwf) as H. eapply extends_trans; [exact H|]. apply IH, H.
Qed.

(** No restart migrates sources in a trace. *)
Definition without_restart (trace : list (Z * revision_op)) : bool := forallb (λ e, negb (is_restart e.2)) trace.

Lemma run_advances trace s : wf_revisions s → without_restart trace = true → advances s (run_revisions trace s).
Proof.
  revert s. induction trace as [|[now op] trace IH]; intros s Hwf; simpl; [intros _; by apply advances_refl|].
  rewrite andb_true_iff, negb_true_iff. intros [Hop Hrest]. pose proof (revise_advances op now s Hwf Hop) as H.
  eapply advances_trans; [exact H|]. apply IH; [apply H|done].
Qed.

Lemma empty_wf_revisions now : wf_revisions (empty_ledger now).
Proof. split; simpl; set_solver || (intros; reflexivity || done). Qed.

(** Sources that have a revision are only looked up. *)
Lemma register_known c h now ids out0 out s :
  map fst out = ids → Forall (source_assigned c h s) out →
  foldl (register_source c h now) (out0, s) ids = (out0 ++ out, s).
Proof.
  intros <-. revert out0. induction out as [|[x v] out IH]; intros out0 Hall; cbn [map foldl]; [by rewrite app_nil_r|].
  apply Forall_cons in Hall as [(r & Hr & Ev) Hall]. cbn [fst snd] in *.
  unfold register_source at 2. fold (source_row c h x s). rewrite Hr, Ev, IH by done. by rewrite <- app_assoc.
Qed.

Lemma ensure_known c h ids now out s :
  is_some (chat_row c h s) = true → map fst out = normalized_sources ids → Forall (source_assigned c h s) out →
  str_true c = true → str_true h = true →
  ensure_source_revisions c h ids now s = (Ok out, s).
Proof.
  intros Hp Hids Hall Hc Hh. unfold ensure_source_revisions. rewrite Hc, Hh.
  assert (ensure_chat_row c h now s = s) as Hsame.
  { unfold ensure_chat_row, insert_or_ignore. simpl. unfold chat_row in Hp. rewrite fetchone_row_exists, Hp.
    by destruct s. }
  destruct (normalized_sources ids) as [|x l] eqn:E; [by destruct out|]. rewrite <- E in *. simpl.
  unfold commit. rewrite Hsame, (register_known c h now (normalized_sources ids) [] out s) by congruence || done. done.
Qed.

Lemma assigned_distinct c h s out :
  distinct_revisions s → NoDup (map fst out) → Forall (source_assigned c h s) out → NoDup (map snd out).
Proof.
  intros Hd. induction out as [|[x v] out IH]; intros Hnd Hall; [constructor|]. cbn [map fst snd] in *.
  apply NoDup_cons in Hnd as [Hx Hnd]. apply Forall_cons in Hall as [(r & Hr & Ev) Hall].
  constructor; [|by apply IH]. intros ([y w] & Ew & Hy)%list_elem_of_fmap. cbn [snd] in Ew. subst w. apply Hx.
  rewrite Forall_forall in Hall. destruct (Hall _ Hy) as (q & Hq & Eq). cbn [fst snd] in *.
  apply fetchone_Some_inv in Hr as [Hr (R1 & R2 & R3)%of_source_event_spec], Hq as [Hq (Q1 & Q2 & Q3)%of_source_event_spec].
  assert (sr_source_event_id r = sr_source_event_id q) as E by (apply Hd; congruence).
  replace x with y by congruence. by apply (list_elem_of_fmap_2 fst) in Hy.
Qed.

(** A source gets its revision once and for all: whatever happened to the ledger before,
    and whatever is registered, marked, disposed, claimed or backfilled by restarts between
    two calls, asking again for the same sources returns the same numbers and changes
    nothing; and unless an earlier restart backfilled numbers, different sources of a chat
    never share one. *)
Theorem revision_assigned_once t0 before c h ids now out s1 after now' :
  str_true c = true → str_true h = true →
  ensure_source_revisions c h ids now (run_revisions before (empty_ledger t0)) = (Ok out, s1) →
  let s2 := run_revisions after s1 in
  ensure_source_revisions c h ids now' s2 = (Ok out, s2) ∧ map fst out = normalized_sources ids
  ∧ (without_restart before = true → NoDup (map snd out)).
Proof.
  intros Hc Hh Hrun s2.
  pose proof (proj1 (run_extends before _ (empty_wf_revisions t0))) as Hwf.
  destruct (ensure_revisions_spec _ _ _ _ _ _ _ Hwf Hrun) as (Ha & Hall & Hcase).
  assert (extends s1 s2) as H2 by (apply run_extends, Ha).
  destruct Hcase as [(-> & E & [En|[?|?]])|[Hids Hp]]; [|congruence..|].
  - unfold ensure_source_revisions. rewrite En. split; [done|]. split; [done|constructor].
  - split; [|split; [done|]].
    + apply ensure_known; [by apply H2|done| |done..].
      eapply Forall_impl; [exact Hall|]. intros e. apply assigned_grows, H2.
    + intros Hno. eapply assigned_distinct; [|rewrite Hids; apply NoDup_first_seen|done].
      apply Ha, (run_advances before _ (empty_wf_revisions t0) Hno). intros r q. simpl. set_solver.
Qed.

(** ** Watermarks *)

Lemma foldr_max_ge l x : x ∈ l → x <= foldr Z.max 0 l.
Proof. induction l as [|y l IH]; [set_solver|]. intros [->|H]%elem_of_cons; simpl; [lia|]. specialize (IH H). lia. Qed.

Lemma material_row c h sel l s ids revision x :
  material_for_opportunity c h sel l s = Ok (ids, revision) → x ∈ ids →
  ∃ column r, considered_lane l = Ok column ∧ r ∈ lg_sources s ∧ of_source_event c h x r = true
    ∧ considered_mark c h column s < sr_revision r <= revision.
Proof.
  unfold material_for_opportunity. destruct (considered_lane l) as [column|]; [|done]. simpl.
  destruct (_ || _); [intros [= <- _]; set_solver|].
  match goal with |- context [order_by by_revision ?t] => set (picked := t) end.
  intros [= <- Hrev] (r & -> & Hr)%list_elem_of_fmap. exists column, r.
  assert (r ∈ picked) as Hp by (by apply elem_of_order_by in Hr).
  unfold picked in Hp. apply elem_of_select in Hp as [Hs Hb]. rewrite !andb_true_iff, Z.ltb_lt in Hb.
  destruct Hb as [[Hchat Hmark] _]. split; [done|]. split; [done|].
  split; [unfold of_source_event; by rewrite Hchat, str_eqb_refl|]. split; [done|].
  destruct (order_by by_revision picked) as [|q rows]; [set_solver|]. rewrite <- Hrev.
  by apply foldr_max_ge, (list_elem_of_fmap_2 sr_revision).
Qed.

Lemma mark_raises c h revision l column now s s' :
  considered_lane l = Ok column → 0 < revision → mark_material_considered c h revision l now s = (Ok tt, s') →
  revision <= considered_mark c h column s'.
Proof.
  intros Hl Hpos. unfold mark_material_considered, commit, mark_considered. rewrite Hl.
  rewrite (proj2 (Z.leb_gt revision 0)) by lia. cbn [rbind].
  intros [= <-]. unfold considered_mark. rewrite chat_row_update by (by destruct column).
  rewrite !str_eqb_refl. cbn [andb]. pose proof (ensure_present c h now s) as Hp.
  destruct (chat_row c h (ensure_chat_row c h now s)) as [r|]; [|done]. destruct column; simpl; lia.
Qed.

(** No source is offered twice: once the material of an opportunity has been marked as
    considered in its lane, no later opportunity of that lane - after any registrations,
    marks, dispositions, claims and restarts - is given one of those sources again. *)
Theorem material_offered_once t0 before c h sel l ids revision now s1 after sel' more revision' x :
  material_for_opportunity c h sel l (run_revisions before (empty_ledger t0)) = Ok (ids, revision) →
  mark_material_considered c h revision l now (run_revisions before (empty_ledger t0)) = (Ok tt, s1) →
  material_for_opportunity c h sel' l (run_revisions after s1) = Ok (more, revision') →
  x ∈ ids → x ∉ more.
Proof.
  intros H1 Hmark H2 Hx Hx'. set (s := run_revisions before (empty_ledger t0)) in *.
  assert (wf_revisions s) as Hwf by (apply (run_extends before _ (empty_wf_revisions t0))).
  assert (advances s s1) as Ha by (pose proof (mark_material_advances c h revision l now s Hwf) as Ha; by rewrite Hmark in Ha).
  pose proof (run_extends after s1 (advances_wf _ _ Ha)) as Hb.
  destruct (material_row _ _ _ _ _ _ _ _ H1 Hx) as (column & r & Hl & Hr & (R1 & R2 & R3)%of_source_event_spec & Hlt & Hle).
  destruct (material_row _ _ _ _ _ _ _ _ H2 Hx') as (column' & q & Hl' & Hq & (Q1 & Q2 & Q3)%of_source_event_spec & Hlt' & _).
  assert (column' = column) as -> by congruence.
  pose proof (mark_raises c h revision l column now s s1 Hl) as Hrise.
  specialize (Hrise ltac:(pose proof (wr_marks _ Hwf c h column); lia) Hmark).
  assert (r ∈ lg_sources (run_revisions after s1)) as Hr'.
  { destruct (extends_trans _ _ _ (advances_extends _ _ Ha) Hb) as (_ & [news ->] & _). set_solver. }
  assert (sr_revision r = sr_revision q) as E by (apply (wr_functional _ (proj1 Hb)); congruence).
  destruct Hb as (_ & _ & M & _). specialize (M c h column). lia.
Qed.

(** ** Activation epochs *)

Fixpoint refresh_all (scope : string) (fingerprints : list (Z * string)) (s : ledger) : ledger :=
  match fingerprints with
  | [] => s
  | (now, f) :: rest => refresh_all scope rest (refresh_activation scope f now s).2
  end.

(** How often the fingerprint differs from the one before it. *)
Fixpoint changes (previous : string) (fingerprints : list (Z * string)) : Z :=
  match fingerprints with
  | [] => 0
  | (_, f) :: rest => (if str_true previous && negb (previous =?s f) then 1 else 0) + changes f rest
  end.

Lemma scope_update scope f s r :
  (∀ r, ac_scope (f r) = ac_scope r) → fetchone (of_scope scope) (lg_activation s) = Some r →
  fetchone (of_scope scope) (update (of_scope scope) f (lg_activation s)) = Some (f r).
Proof.
  intros Hf Hr. rewrite fetchone_update by (intros q _; unfold of_scope; by rewrite Hf). rewrite Hr. simpl.
  apply fetchone_Some_inv in Hr as [_ ->]. done.
Qed.

Lemma refresh_step scope f now s r :
  fetchone (of_scope scope) (lg_activation s) = Some r →
  ∃ r', fetchone (of_scope scope) (lg_activation (refresh_activation scope f now s).2) = Some r'
    ∧ (refresh_activation scope f now s).1 = Ok (ac_epoch r') ∧ ac_fingerprint r' = f
    ∧ ac_epoch r' = ac_epoch r + if str_true (ac_fingerprint r) && negb (ac_fingerprint r =?s f) then 1 else 0.
Proof.
  intros Hr. unfold refresh_activation, commit. rewrite Hr.
  destruct (ac_fingerprint r =?s f) eqn:E.
  - rewrite orb_true_r, andb_false_r. apply str_eqb_eq in E. exists r. simpl. rewrite Hr. repeat split; [done|lia].
  - rewrite orb_false_r, andb_true_r. destruct (str_true (ac_fingerprint r)); simpl.
    + rewrite (scope_update _ _ s r) by done. eexists. split; [reflexivity|].
      split; [rewrite (Z.add_comm _ 1); reflexivity|]. split; [done|]. by rewrite (Z.add_comm _ 1).
    + rewrite (scope_update _ _ s r) by done. eexists. split; [reflexivity|]. simpl. split; [done|]. split; [done|lia].
Qed.

(** The activation epoch counts configuration changes: however often the process starts
    and reports its fingerprint, the epoch advances exactly when a fingerprint differs from
    the one reported before it, so a restart with the same configuration keeps every
    admission valid and a changed one fences all of them off. *)
Theorem epoch_counts_changes scope fingerprints s r :
  fetchone (of_scope scope) (lg_activation s) = Some r →
  ∃ r', fetchone (of_scope scope) (lg_activation (refresh_all scope fingerprints s)) = Some r'
    ∧ ac_epoch r' = ac_epoch r + changes (ac_fingerprint r) fingerprints.
Proof.
  revert s r. induction fingerprints as [|[now f] rest IH]; intros s r Hr; simpl.
  - exists r. split; [done|lia].
  - destruct (refresh_step scope f now s r Hr) as (r1 & H1 & _ & Ef & Ee).
    destruct (IH _ _ H1) as (r' & H' & E'). exists r'. split; [done|]. rewrite E', Ee, Ef. lia.
Qed.

(** ** Owner approvals *)

Inductive approval_op :=
| ClaimOp (owner_channel owner_chat_id owner_id payload_hash : string) (revision : Z) (target : string)
| ResolveOp (resolution : string).

Definition approve (proposal_id : string) (op : approval_op) (now : Z) : prog ledger bool :=
  match op with
  | ClaimOp oc oh oi payload revision target =>
      record_approval_claim proposal_id oc oh oi payload revision target now
  | ResolveOp resolution => resolve_approval_claim proposal_id resolution now
  end.

(** The abstract life of one approval. *)
Inductive approval_status :=
| Unclaimed
| Claimed (owner_channel owner_chat_id payload_hash : string)
| Resolved.

Definition approval_step (st : approval_status) (op : approval_op) : bool * approval_status :=
  match st, op with
  | Unclaimed, ClaimOp oc oh _ payload _ _ => (true, Claimed oc oh payload)
  | Unclaimed, ResolveOp _ => (false, Unclaimed)
  | Claimed c h p, ClaimOp oc oh _ payload _ _ => (agrees p payload && agrees h oh && agrees c oc, st)
  | Claimed _ _ _, ResolveOp _ => (true, Resolved)
  | Resolved, _ => (false, Resolved)
  end.

Definition status_of (proposal_id : string) (s : ledger) : approval_status :=
  match approval_claim proposal_id s with
  | None => Unclaimed
  | Some r => if ap_state r =?s "terminal" then Resolved
              else Claimed (ap_owner_channel r) (ap_owner_chat_id r) (ap_payload_hash r)
  end.

(** A run over many proposals, and the answers one of them got. *)
Fixpoint answers_of (proposal_id : string) (trace : list (Z * string * approval_op)) (s : ledger) : list (result bool) :=
  match trace with
  | [] => []
  | (now, p, op) :: rest =>
      let (answer, s') := approve p op now s in
      (if p =?s proposal_id then [answer] else []) ++ answers_of proposal_id rest s'
  end.

Fixpoint spec_answers (proposal_id : string) (trace : list (Z * string * approval_op)) (st : approval_status)
    : list (result bool) :=
  match trace with
  | [] => []
  | (_, p, op) :: rest =>
      if p =?s proposal_id then Ok (approval_step st op).1 :: spec_answers proposal_id rest (approval_step st op).2
      else spec_answers proposal_id rest st
  end.

Lemma proposal_update i f j s :
  (∀ r, ap_proposal_id (f r) = ap_proposal_id r) →
  fetchone (of_proposal j) (update (of_proposal i) f (lg_approvals s)) =
    (λ r, if of_proposal i r then f r else r) <$> fetchone (of_proposal j) (lg_approvals s).
Proof. intros Hf. apply fetchone_update. intros r _. unfold of_proposal. by rewrite Hf. Qed.

Lemma approve_own p op now s :
  ∃ s', approve p op now s = (Ok (approval_step (status_of p s) op).1, s')
    ∧ status_of p s' = (approval_step (status_of p s) op).2.
Proof.
  unfold status_of, approval_claim, approve, record_approval_claim, resolve_approval_claim, commit.
  destruct (fetchone (of_proposal p) (lg_approvals s)) as [r|] eqn:E.
  - pose proof (proj2 (fetchone_Some_inv _ _ _ E)) as Ep.
    destruct op; cbn beta iota; rewrite E; destruct (ap_state r =?s "terminal") eqn:Et; cbn [orb approval_step fst snd].
    1,3: exists s; split; [done|]; by rewrite E, Et.
    + rewrite <- !negb_andb. destruct (_ && _); cbn [negb]; [|exists s; split; [done|]; by rewrite E, Et].
      eexists. split; [reflexivity|]. simpl. rewrite proposal_update, E by done. simpl. by rewrite Ep.
    + eexists. split; [reflexivity|]. simpl. rewrite proposal_update, E by done. simpl. by rewrite Ep.
  - destruct op; cbn beta iota; rewrite E; (eexists; split; [reflexivity|]); simpl; [|by rewrite E].
    rewrite fetchone_insert_row, E. unfold of_proposal. simpl. by rewrite str_eqb_refl.
Qed.

Lemma approve_other p q op now s : p ≠ q → status_of q (approve p op now s).2 = status_of q s.
Proof.
  intros Hne. unfold status_of, approval_claim, approve, record_approval_claim, resolve_approval_claim, commit.
  assert (∀ f, (∀ r, ap_proposal_id (f r) = ap_proposal_id r) →
    fetchone (of_proposal q) (update (of_proposal p) f (lg_approvals s)) = fetchone (of_proposal q) (lg_approvals s)) as Hup.
  { intros f Hf. rewrite proposal_update by done. destruct (fetchone _ _) as [r|] eqn:E; [|done]. simpl.
    apply fetchone_Some_inv in E as [_ E%str_eqb_eq]. unfold of_proposal. by rewrite E, (proj2 (str_eqb_neq q p)) by congruence. }
  destruct op; cbn beta iota; destruct (fetchone (of_proposal p) (lg_approvals s)) as [r|]; simpl; try done.
  - destruct (_ || _); simpl; [done|]. by rewrite Hup.
  - rewrite fetchone_insert_row. unfold of_proposal at 2. simpl. rewrite (proj2 (str_eqb_neq p q)) by done.
    by destruct (fetchone _ _).
  - destruct (_ =?s _); simpl; [done|]. by rewrite Hup.
Qed.

(** An owner's approval refines a three-state machine: however the calls for different
    proposals interleave, the answers one proposal's claims and resolutions get are those
    of [approval_step] - the first claim fixes the payload and the owner's chat, later
    claims succeed only for the same ones, one resolution succeeds and closes the approval
    for good. *)
Theorem approval_refines proposal_id trace s :
  answers_of proposal_id trace s = spec_answers proposal_id trace (status_of proposal_id s).
Proof.
  revert s. induction trace as [|[[now p] op] rest IH]; intros s; cbn [answers_of spec_answers]; [done|].
  destruct (p =?s proposal_id) eqn:E.
  - apply str_eqb_eq in E as ->. destruct (approve_own proposal_id op now s) as (s' & -> & Est). simpl.
    by rewrite IH, Est.
  - pose proof (approve_other p proposal_id op now s) as Hother. destruct (approve p op now s) as [answer s'].
    simpl in *. rewrite IH, Hother; [done|]. by apply str_eqb_neq.
Qed.

(** [next_chat_revision_sync] goes back when a claim is released. *)
Theorem chat_revision_goes_back :
  let s := (claim_source "whatsapp" "g1" "m1" 1 "production" "o" 5 (empty_ledger 0)).2 in
  next_chat_revision "whatsapp" "g1" s = 2
  ∧ next_chat_revision "whatsapp" "g1" (release_source_claim "whatsapp" "g1" "m1" "production" "o" s).2 = 1.
Proof. by vm_compute. Qed.

(** ** Witnesses *)

Definition sample_judge (candidate : bool) : judge_args := MkJudgeArgs "op1" "whatsapp" "g1" 3 0 candidate 1.
Definition sample_calls : list judge_call :=
  [MkJudgeCall 1000 "a:1" (sample_judge false); MkJudgeCall 2000 "b:1" (sample_judge false);
   MkJudgeCall 3000 "c:1" (sample_judge false); MkJudgeCall 4000 "d:1" (sample_judge true);
   MkJudgeCall 3700000 "e:1" (sample_judge false)].

Lemma judge_hour_bounded_witness :
  judged_in_hour any_attempt "whatsapp" "g1" 4000 (run_judges sample_calls (empty_ledger 0)) <= 3
  ∧ judged_in_hour background_attempt "whatsapp" "g1" 4000 (run_judges sample_calls (empty_ledger 0)) <= 2.
Proof. apply (judge_hour_bounded "whatsapp" "g1" 3 2 0 sample_calls); vm_compute; congruence. Defined.

Definition sample_revisions : list (Z * revision_op) :=
  [(1, BaselineOp "whatsapp" "g1" ["old"] "production"); (2, EnsureOp "whatsapp" "g1" ["m1"; "m2"; "m1"]);
   (3, NextOp "whatsapp" "g1")].
Definition later_revisions : list (Z * revision_op) :=
  [(9, MarkOp "whatsapp" "g1" 3 "production"); (10, EnsureOp "whatsapp" "g1" ["m9"]); (11, NextOp "whatsapp" "g2");
   (12, RestartOp)].

Lemma revision_assigned_once_witness :
  let s := run_revisions sample_revisions (empty_ledger 0) in
  let s2 := run_revisions later_revisions (ensure_source_revisions "whatsapp" "g1" ["m2"; "m3"] 5 s).2 in
  ensure_source_revisions "whatsapp" "g1" ["m2"; "m3"] 20 s2 = (Ok [("m2", 3); ("m3", 5)], s2).
Proof.
  apply (revision_assigned_once 0 sample_revisions "whatsapp" "g1" ["m2"; "m3"] 5 [("m2", 3); ("m3", 5)] _ later_revisions 20);
    vm_compute; reflexivity.
Defined.

Lemma material_offered_once_witness : "m1" ∉ ["m9"].
Proof.
  eapply (material_offered_once 0 sample_revisions "whatsapp" "g1" None "production" ["m1"; "m2"] 3 8 _ later_revisions None
    ["m9"] 5 "m1"); [vm_compute; reflexivity..|]. apply list_elem_of_here.
Defined.

Lemma epoch_counts_changes_witness :
  ∃ r, fetchone (of_scope "participation")
         (lg_activation (refresh_all "participation" [(1, "f1"); (2, "f1"); (3, "f2"); (4, "f1")] (empty_ledger 0))) = Some r
    ∧ ac_epoch r = 3.
Proof.
  apply (epoch_counts_changes "participation" [(1, "f1"); (2, "f1"); (3, "f2"); (4, "f1")] (empty_ledger 0)
    (MkActivation "participation" 1 0 "")). reflexivity.
Defined.
