(* ===== verification/Projection.v ===== *)
(** * Projection

    What reads transport truth for the participation ledger: the receipt reconciler and
    the confirmed anchors of [consciousness/delivery.py], and the maintenance pass of
    [consciousness/participation_maintenance.py] with its outcome classification. The
    processing store is only read; the language model that classifies a delivery is an
    argument, and its answer is taken decoded. *)

From Stdlib Require Import ZArith Lia Ascii SpecFloat.
From S2P Require Import Prelude Tables Json Models Schema Outbox Journal Receipts Routing Registry Identity PyFloat.
From S2P Require Import Ledger LedgerDelivery LedgerProps.

(** ** The receipt reconciler *)

Definition DELIVERED_RECEIPT_STATUSES : list string := ["delivered"; "read"; "played"].

(** [is_group_chat] of [consciousness/delivery.py] *)
Definition group_target (channel chat_id : string) : bool :=
  if channel =?s "whatsapp" then py_endswith "@g.us" chat_id
  else if channel =?s "telegram" then String.prefix "-" chat_id
  else false.

Inductive counter := CountAccepted | CountDelivered | CountReleased | CountRetained | CountSkipped.

#[export] Instance counter_eq_dec : EqDecision counter.
Proof. solve_decision. Defined.

(** [int(v)] *)
Definition int_of_json (v : json) : result Z :=
  match v with
  | JInt z => Ok z
  | JBool b => Ok (if b then 1 else 0)
  | JStr t => match py_int t with Some z => Ok z | None => Raise (ValueError "invalid literal for int()") end
  | JFloat _ => let! f := py_float v in float_int f
  | _ => Raise (TypeError "int() argument")
  end.

(** [_valid_pending_approval] *)
Definition valid_pending_approval (proposal_id : string) (now_ms : Z) (l : ledger) : result bool :=
  match proposal_row proposal_id l with
  | None => Ok false
  | Some r =>
      if negb (str_in (su_status r) ["queued_for_approval"; "awaiting_approval"]) then Ok false else
      let value := default JNull (dict_get "approval_expires_at_ms" (su_context r)) in
      match int_of_json (if truthy value then value else JInt 0) with
      | Raise (TypeError _) | Raise (ValueError _) => Ok false
      | Raise e => Raise e
      | Ok expires =>
          Ok (match dict_get "origin" (su_context r) with Some (JStr o) => o =?s "participation" | _ => false end
              && (now_ms <? expires))
      end
  end.

(** A reservation nobody submitted is let go after its time to live. *)
Definition expire_unsubmitted (ttl now_ms : Z) (r : reservation_row) : prog ledger (list counter) :=
  if negb (dr_attempt_state r =?s "unsubmitted") then pret [CountSkipped] else
  let* pending := pread (valid_pending_approval (dr_proposal_id r) now_ms) in
  let created := if dr_created_ms r =? 0 then now_ms else dr_created_ms r in
  if negb pending && (created + ttl <=? now_ms)
  then let* released := release_delivery (dr_proposal_id r) (dr_effect_id r) "expired" "unsubmitted_intent_expired" now_ms in
       pret [if released : bool then CountReleased else CountSkipped]
  else pret [CountSkipped].

(** The kind of evidence a journal signal is for a delivery. *)
Definition proof_kind (group : bool) (e : event_row) : option string :=
  let status := py_lower (str_or_empty (dict_get "status" (default [] (ev_payload_json e)))) in
  if ev_kind e =?s "reaction" then Some "reaction_proof"
  else if str_in status DELIVERED_RECEIPT_STATUSES
  then Some (if group then "group_delivery_at_least_one"
             else if status =?s "read" then "recipient_read" else "recipient_delivery")
  else None.

(** The first signal that proves a delivery. *)
Fixpoint first_proof (group : bool) (l : list event_row) : option (string * event_row) :=
  match l with
  | [] => None
  | e :: l' => match proof_kind group e with Some k => Some (k, e) | None => first_proof group l' end
  end.

(** The message id the provider gave an effect. *)
Definition receipt_provider (effect_id : string) (s : db) : option string :=
  effect_transport_receipt effect_id s ≫= rcp_provider_message_id.

(** [_project_recipient_evidence] *)
Definition project_recipient_evidence (s : db) (r : reservation_row) (now_ms : Z) : prog ledger bool :=
  match receipt_provider (dr_effect_id r) s with
  | Some provider =>
      if negb (str_true provider) then pret false else
      match first_proof (group_target (dr_channel r) (dr_chat_id r))
              (delivery_signals (dr_channel r) (dr_chat_id r) provider 20 s) with
      | None => pret false
      | Some (kind, e) =>
          project_recipient_delivery (dr_proposal_id r) (dr_effect_id r)
            (MkEvidence (Some provider) kind (if str_true (ev_event_id e) then ev_event_id e else dr_effect_id r))
            (match ev_occurred_ms e with Some t => if t =? 0 then now_ms else t | None => now_ms end)
      end
  | None => pret false
  end.

(** The acceptance a stored receipt proves. *)
Definition accept_receipt (r : reservation_row) (t : TransportReceipt) : prog ledger DeliveryState :=
  project_transport_accepted (dr_proposal_id r) (dr_effect_id r)
    (MkEvidence (rcp_provider_message_id t) "transport_receipt"
       (match rcp_receipt_id t with Some i => if str_true i then i else dr_effect_id r | None => dr_effect_id r end))
    (rcp_confirmed_ms t).

Definition effect_in (st : EffectState) (o : option StoredEffect) : bool :=
  match o with Some e => state_eqb (se_state e) st | None => false end.

(** One reservation of the participation. *)
Definition reconcile_row (s : db) (ttl now_ms : Z) (r : reservation_row) : prog ledger (list counter) :=
  let* effect := pread (λ _, get_effect (dr_effect_id r) s) in
  if match effect with Some e => negb (se_origin e =?s "participation") | None => false end then pret [CountSkipped]
  else if delivery_eqb (dr_state r) transport_accepted
          || (delivery_eqb (dr_state r) delivery_unknown && negb (effect_in sent effect))
  then let* proven := project_recipient_evidence s r now_ms in
       pret [if proven : bool then CountDelivered else CountRetained]
  else match effect with
  | None => expire_unsubmitted ttl now_ms r
  | Some e =>
      if state_eqb (se_state e) sent then
        match effect_transport_receipt (dr_effect_id r) s with
        | None => pret [CountRetained]
        | Some t =>
            do* accept_receipt r t in
            let* proven := project_recipient_evidence s r now_ms in
            pret (CountAccepted :: if proven : bool then [CountDelivered] else [])
        end
      else if state_in (se_state e) [failed; cancelled; expired] && delivery_eqb (dr_state r) submitted then
        let* released := release_delivery (dr_proposal_id r) (dr_effect_id r) "failed" ("effect_" +:+ state_str (se_state e)) now_ms in
        pret (if released : bool then [CountReleased] else [])
      else if state_eqb (se_state e) unknown then
        do* note_delivery_unknown (dr_proposal_id r) (dr_effect_id r) "dispatch_unknown" (dr_effect_id r) in
        pret [CountRetained]
      else pret [CountSkipped]
  end.

(** One reservation of a legacy speakup: acceptance only. *)
Definition reconcile_legacy_row (s : db) (r : reservation_row) : prog ledger (list counter) :=
  let* effect := pread (λ _, get_effect (dr_effect_id r) s) in
  match effect with
  | None => pret []
  | Some e =>
      if negb (se_origin e =?s "legacy") || negb (state_eqb (se_state e) sent) then pret [] else
      match effect_transport_receipt (dr_effect_id r) s with
      | None => pret []
      | Some t => do* accept_receipt r t in pret [CountAccepted]
      end
  end.

Fixpoint each_reservation (f : reservation_row → prog ledger (list counter)) (l : list reservation_row)
    : prog ledger (list counter) :=
  match l with
  | [] => pret []
  | r :: l' => let* first := f r in let* rest := each_reservation f l' in pret (first ++ rest)
  end.

Definition PENDING_STATES : list DeliveryState := [reserved; submitted; transport_accepted; delivery_unknown].
Definition LEGACY_STATES : list DeliveryState := [reserved; submitted; delivery_unknown].

(** [ParticipationReceiptReconciler.reconcile]: the counters, the next legacy offset and
    the ledger; the offset moves before the legacy rows are projected *)
Definition reconcile (store : option db) (ttl limit offset now_ms : Z) (l : ledger)
    : result (list counter) * Z * ledger :=
  let rows := pending_delivery_reservations limit 0 (Some "participation") (Some "production") PENDING_STATES l in
  match store with
  | None => let (out, l1) := each_reservation (expire_unsubmitted ttl now_ms) rows l in (out, offset, l1)
  | Some s =>
      match each_reservation (reconcile_row s ttl now_ms) rows l with
      | (Raise e, l1) => (Raise e, offset, l1)
      | (Ok counters, l1) =>
          let legacy := pending_delivery_reservations limit offset (Some "legacy") (Some "production") LEGACY_STATES l1 in
          let next := if Z.max 1 limit <=? Z.of_nat (length legacy) then offset + Z.of_nat (length legacy) else 0 in
          match each_reservation (reconcile_legacy_row s) legacy l1 with
          | (Raise e, l2) => (Raise e, next, l2)
          | (Ok more, l2) => (Ok (counters ++ more), next, l2)
          end
      end
  end.

(** [counters]: how often each of them was raised *)
Definition tally (c : counter) (l : list counter) : nat := rowcount (λ d, bool_decide (d = c)) l.

(** ** Confirmed anchors *)

(** One row of [delivered_text_effects]. *)
Record text_effect := MkTextEffect { te_effect_id : string; te_state : EffectState; te_text : option string }.

(** [str(value) if value is not None else None] of the text field *)
Definition text_of_payload (kind : string) (payload : option dict) : option string :=
  match payload with
  | Some d => if kind =?s "text"
              then match dict_get "text" d with None | Some JNull => None | Some v => Some (py_str v) end
              else None
  | None => None
  end.

(** The effects of a receipt that the join keeps. *)
Definition joined_effects (channel chat_id : string) (since_ms : Z) (s : db) : list (receipt_row * effect_row) :=
  flat_map (λ r, map (λ e, (r, e)) (select (λ e, (eff_effect_id e =?s rc_effect_id r) && (eff_origin e =?s "participation")
                                                 && str_in (eff_payload_kind e) ["text"; "reaction"]) (effects s)))
    (select (λ r, (rc_channel r =?s channel) && (rc_chat_id r =?s chat_id) && (since_ms <=? rc_confirmed_ms r))
       (transport_receipts s)).

(** [delivered_text_effects]: the oldest receipts first *)
Definition delivered_text_effects (channel chat_id : string) (since_ms limit : Z) (s : db) : list text_effect :=
  map (λ p : receipt_row * effect_row, MkTextEffect (eff_effect_id p.2) (eff_state p.2)
                                         (text_of_payload (eff_payload_kind p.2) (eff_payload_json p.2)))
    (take (Z.to_nat (Z.max 1 limit))
       (order_by (λ a b : receipt_row * effect_row,
                    time_id_leb (rc_confirmed_ms a.1, eff_effect_id a.2) (rc_confirmed_ms b.1, eff_effect_id b.2))
          (joined_effects channel chat_id since_ms s))).

Record anchor := MkAnchor {
  an_row : reservation_row;
  an_message : string;
  an_scope : string;
  an_social_closed : bool;
}.

(** The last of several entries for one effect wins, as in a dict. *)
Definition effect_named (effect_id : string) (l : list text_effect) : option text_effect :=
  last (select (λ t, te_effect_id t =?s effect_id) l).

(** The anchor of one delivered reservation, if the store confirms its text. *)
Definition anchor_of (effects : list text_effect) (l : ledger) (r : reservation_row) : option anchor :=
  match effect_named (dr_effect_id r) effects with
  | None => None
  | Some e =>
      if negb (state_eqb (te_state e) sent) then None else
      match te_text e with
      | None => None
      | Some text =>
          let provider := py_strip (default "" (dr_provider_message_id r)) in
          let closed := λ id, str_true id && social_anchor_closed (dr_channel r) (dr_chat_id r) id l in
          Some (MkAnchor r text
                  (if opt_str_eqb (dr_evidence_kind r) (Some "group_delivery_at_least_one") then "at_least_one"
                   else "exact_target")
                  (closed provider || closed (dr_effect_id r)))
      end
  end.

(** One anchor per effect. *)
Fixpoint once_per_effect (seen : list string) (l : list anchor) : list anchor :=
  match l with
  | [] => []
  | a :: l' => if str_in (dr_effect_id (an_row a)) seen then once_per_effect seen l'
               else a :: once_per_effect (dr_effect_id (an_row a) :: seen) l'
  end.

(** [_deduplicate] *)
Definition deduplicate (limit : Z) (l : list anchor) : list anchor :=
  take (Z.to_nat limit) (once_per_effect []
    (order_by (λ a b, time_id_leb (- delivered_at (an_row a), dr_effect_id (an_row a))
                        (- delivered_at (an_row b), dr_effect_id (an_row b))) l)).

(** [DeliveryAnchorReader.delivered_anchors] *)
Definition delivered_anchors (channel chat_id : string) (since_ms limit : Z) (l : ledger) (s : db) : list anchor :=
  let rows := delivered_reservation_rows channel chat_id since_ms (Z.max 1 limit) l in
  let effects := delivered_text_effects channel chat_id since_ms (Z.max 1 limit * 4) s in
  deduplicate (Z.max 1 limit) (omap (anchor_of effects l) rows).

(** ** Maintenance *)

Definition OUTCOME_LABELS : list string :=
  ["replied"; "reacted"; "topic_changed"; "pushback"; "mixed"; "no_observed_feedback"].

(** [_parse_outcome] of a decoded answer; [None]: not JSON *)
Definition parse_outcome (raw : option json) : option (string * list string) :=
  match raw with
  | Some (JObj d) =>
      let outcome := py_strip (str_or_empty (dict_get "outcome" d)) in
      if negb (str_in outcome OUTCOME_LABELS) then None else
      Some (outcome, match dict_get "evidence_ids" d with
                     | Some (JArr items) => List.filter str_true (map (λ v, py_strip (py_str v)) (take 8 items))
                     | _ => []
                     end)
  | _ => None
  end.

Definition feedback_reader := string → string → string → result json.

(** [_explicit_feedback] *)
Definition explicit_outcome (reader : option feedback_reader) (r : reservation_row) : option (string * list string) :=
  match explicit_feedback reader (dr_channel r) (dr_chat_id r) (default "" (dr_provider_message_id r)) with
  | None | Some [] => None
  | Some d =>
      let kind := str_or_empty (dict_get "kind" d) in
      let id := str_or_empty (dict_get "event_id" d) in
      let ids := if str_true id then [id] else [] in
      if kind =?s "reaction" then Some ("reacted", ids)
      else if kind =?s "reply" then Some ("replied", ids) else None
  end.

Definition classifier_fn := reservation_row → Z → result (option json).

Record outcome_verdict := MkVerdict { vd_outcome : string; vd_kind : string; vd_ids : list string; vd_used_call : bool }.

(** [_classify]; [None]: failed, retry later *)
Definition classify (reader : option feedback_reader) (classifier : option classifier_fn) (now_ms : Z) (r : reservation_row)
    : result (option outcome_verdict) :=
  match explicit_outcome reader r with
  | Some (outcome, ids) => Ok (Some (MkVerdict outcome "explicit" ids false))
  | None =>
      match classifier with
      | None => Ok (Some (MkVerdict "no_observed_feedback" "none" [] false))
      | Some ask =>
          let! raw := ask r now_ms in
          Ok match parse_outcome raw with
             | None => None
             | Some (outcome, ids) =>
                 if outcome =?s "no_observed_feedback" then Some (MkVerdict outcome "none" [] true)
                 else Some (MkVerdict outcome "inferred" ids true)
             end
      end
  end.

Record MaintenanceReport := MkReport {
  mr_reconciled : list counter;
  mr_deliveries_seen : nat;
  mr_outcomes_classified : nat;
  mr_without_a_call : nat;
  mr_failures : nat;
}.
#[export] Instance eta_report : Updatable MaintenanceReport :=
  λ r, MkReport (mr_reconciled r) (mr_deliveries_seen r) (mr_outcomes_classified r) (mr_without_a_call r) (mr_failures r).

(** One delivery of the sweep; a bad sample does not stop the batch. *)
Definition sweep_row (reader : option feedback_reader) (classifier : option classifier_fn) (now_ms : Z)
    (report : MaintenanceReport) (r : reservation_row) : prog ledger MaintenanceReport :=
  match classify reader classifier now_ms r with
  | Raise CancelledError => praise CancelledError
  | Raise _ | Ok None => pret (report <| mr_failures ::= S |>)
  | Ok (Some v) =>
      do* mark_delivery_outcome (dr_effect_id r) (vd_outcome v) (vd_kind v) (vd_ids v) now_ms in
      pret (report <| mr_outcomes_classified ::= S |>
                   <| mr_without_a_call ::= (λ n, if vd_used_call v then n else S n) |>)
  end.

Fixpoint sweep (reader : option feedback_reader) (classifier : option classifier_fn) (now_ms : Z)
    (report : MaintenanceReport) (l : list reservation_row) : prog ledger MaintenanceReport :=
  match l with
  | [] => pret report
  | r :: l' => let* next := sweep_row reader classifier now_ms report r in sweep reader classifier now_ms next l'
  end.

(** What a maintenance pass is built from. *)
Record ParticipationMaintenance := MkMaintenance {
  pm_store : option db;
  pm_reconciler : bool;
  pm_ttl : Z;
  pm_reader : option feedback_reader;
  pm_classifier : option classifier_fn;
  pm_window_ms : Z;
  pm_batch_size : Z;
}.

(** [run_once]: reconcile the receipts, then classify outcomes; returns the report and
    the reconciler's next legacy offset *)
Definition run_once (m : ParticipationMaintenance) (offset now_ms : Z) : prog ledger (MaintenanceReport * Z) :=
  let* (counters, next) := (λ l,
    if pm_reconciler m
    then match reconcile (pm_store m) (pm_ttl m) (pm_batch_size m) offset now_ms l with
         | (Ok counters, next, l') => (Ok (counters, next), l')
         | (Raise CancelledError, _, l') => (Raise CancelledError, l')
         | (Raise _, next, l') => (Ok ([], next), l')
         end
    else (Ok ([], offset), l)) in
  let* rows := pget (pending_outcome_deliveries (now_ms - pm_window_ms m) (pm_batch_size m)) in
  let* report := sweep (pm_reader m) (pm_classifier m) now_ms (MkReport counters (length rows) 0 0 0) rows in
  pret (report, next).

(** ** What a projection may do *)

(** A stored receipt of a sent effect. *)
Definition receipt_known (s : db) (effect_id : string) : Prop :=
  (∃ e, get_effect effect_id s = Ok (Some e) ∧ se_state e = sent) ∧ is_some (effect_transport_receipt effect_id s) = true.

(** A journaled signal that the recipient has the provider's message; the effect, if it is
    still stored, is one of the participation's. *)
Definition delivery_proven (s : db) (effect_id : string) : Prop :=
  (∃ o, get_effect effect_id s = Ok o ∧ ∀ e, o = Some e → se_origin e = "participation")
  ∧ ∃ provider channel chat_id group e, receipt_provider effect_id s = Some provider
    ∧ e ∈ delivery_signals channel chat_id provider 20 s ∧ is_some (proof_kind group e) = true.

(** A call a projection may make of the ledger. *)
Definition warranted (store : option db) (c : Z * delivery_op) : Prop :=
  match c.2 with
  | OpAccept _ i _ => ∃ s, store = Some s ∧ receipt_known s i
  | OpDeliver _ i _ => ∃ s, store = Some s ∧ delivery_proven s i
  | OpUnknown _ i _ _ => ∃ s e, store = Some s ∧ get_effect i s = Ok (Some e) ∧ se_state e = unknown
  | OpRelease _ i _ _ =>
      match store with
      | None => True
      | Some s => get_effect i s = Ok None
                  ∨ ∃ e, get_effect i s = Ok (Some e) ∧ state_in (se_state e) [failed; cancelled; expired] = true
      end
  | OpReserve _ | OpSubmit _ => False
  end.

(** The ledger moved by warranted calls only. *)
Definition projected (store : option db) (l l' : ledger) : Prop :=
  ∃ trace, l' = run_ops trace l ∧ Forall (warranted store) trace.

Lemma projected_refl store l : projected store l l.
Proof. by exists []. Qed.

Lemma run_ops_app t1 t2 l : run_ops (t1 ++ t2) l = run_ops t2 (run_ops t1 l).
Proof. revert l. induction t1 as [|[now op] t1 IH]; intros l; simpl; [done|]. apply IH. Qed.

Lemma projected_trans store l1 l2 l3 : projected store l1 l2 → projected store l2 l3 → projected store l1 l3.
Proof.
  intros (t1 & -> & H1) (t2 & -> & H2). exists (t1 ++ t2). split; [by rewrite run_ops_app|]. by apply Forall_app.
Qed.

Definition projects_only {A} (store : option db) (p : prog ledger A) : Prop := ∀ l, projected store l (p l).2.

Lemma projects_ret {A} store (a : A) : projects_only store (pret a).
Proof. intros l. apply projected_refl. Qed.

Lemma projects_read {A} store (f : ledger → result A) : projects_only store (pread f).
Proof. intros l. apply projected_refl. Qed.

Lemma projects_bind {A B} store (p : prog ledger A) (k : A → prog ledger B) :
  projects_only store p → (∀ a, projects_only store (k a)) → projects_only store (pbind p k).
Proof.
  intros Hp Hk l. unfold pbind. specialize (Hp l). destruct (p l) as [[a|e] l1]; [|done].
  eapply projected_trans; [exact Hp|apply Hk].
Qed.

(** A read that binds its answer. *)
Lemma projects_bind_read {A B} store (f : ledger → result A) (k : A → prog ledger B) :
  (∀ l a, f l = Ok a → projects_only store (k a)) → projects_only store (pbind (pread f) k).
Proof.
  intros Hk l. unfold pbind, pread. destruct (f l) as [a|e] eqn:E; [|apply projected_refl]. exact (Hk l a E l).
Qed.

Lemma projects_op {A} store (p : prog ledger A) now op :
  (∀ l, (p l).2 = perform_op op now l) → warranted store (now, op) → projects_only store p.
Proof. intros Hp Hw l. exists [(now, op)]. split; [apply Hp|]. by repeat constructor. Qed.

Create HintDb projections.
#[export] Hint Resolve projects_ret projects_read projects_bind projected_refl : projections.

Lemma expire_projects store ttl now r :
  (∀ s, store = Some s → get_effect (dr_effect_id r) s = Ok None) →
  projects_only store (expire_unsubmitted ttl now r).
Proof.
  intros Hnone. unfold expire_unsubmitted. destruct (negb _); [apply projects_ret|].
  apply projects_bind; [apply projects_read|]. intros pending. cbv zeta. destruct (_ && _); [|apply projects_ret].
  apply projects_bind; [|intros; apply projects_ret].
  eapply (projects_op _ _ now (OpRelease _ _ _ _)); [intros; reflexivity|]. simpl. destruct store as [s|]; [|done]. left. by apply Hnone.
Qed.

Lemma first_proof_spec group l k e : first_proof group l = Some (k, e) → e ∈ l ∧ proof_kind group e = Some k.
Proof.
  induction l as [|x l IH]; simpl; [done|]. destruct (proof_kind group x) as [k'|] eqn:E.
  - intros [= <- <-]. split; [set_solver|done].
  - intros H. destruct (IH H). split; [set_solver|done].
Qed.

Lemma recipient_projects s r now o :
  get_effect (dr_effect_id r) s = Ok o → (∀ e, o = Some e → se_origin e = "participation") →
  projects_only (Some s) (project_recipient_evidence s r now).
Proof.
  intros Ho Horig. unfold project_recipient_evidence. destruct (receipt_provider (dr_effect_id r) s) as [provider|] eqn:Ep; [|apply projects_ret].
  destruct (negb _); [apply projects_ret|].
  destruct (first_proof _ _) as [[k e]|] eqn:Ef; [|apply projects_ret].
  apply first_proof_spec in Ef as [Hin Hk].
  eapply (projects_op _ _ _ (OpDeliver _ _ _)); [intros; reflexivity|]. simpl. exists s. split; [done|].
  split; [by exists o|]. exists provider. do 3 eexists. exists e. split; [done|]. split; [exact Hin|]. by rewrite Hk.
Qed.

Lemma accept_projects s r t e :
  get_effect (dr_effect_id r) s = Ok (Some e) → state_eqb (se_state e) sent = true →
  effect_transport_receipt (dr_effect_id r) s = Some t → projects_only (Some s) (accept_receipt r t).
Proof.
  intros He Hs Ht. eapply (projects_op _ _ _ (OpAccept _ _ _)); [intros; reflexivity|]. simpl. exists s. split; [done|].
  split; [|by rewrite Ht]. exists e. split; [done|]. by apply state_eqb_eq in Hs.
Qed.

Lemma row_projects s ttl now r : projects_only (Some s) (reconcile_row s ttl now r).
Proof.
  unfold reconcile_row. apply projects_bind_read. intros _ o Ho.
  destruct (match o with Some e => _ | None => false end) eqn:Eo; [apply projects_ret|].
  assert (∀ e, o = Some e → se_origin e = "participation") as Horig.
  { intros e ->. by apply negb_false_iff, str_eqb_eq in Eo. }
  assert (projects_only (Some s) (project_recipient_evidence s r now)) as Hrec by (by eapply recipient_projects).
  destruct (_ || _); [apply projects_bind; [done|intros; apply projects_ret]|].
  destruct o as [e|]; [|apply expire_projects; by intros s' [= <-]].
  destruct (state_eqb (se_state e) sent) eqn:Es.
  { destruct (effect_transport_receipt (dr_effect_id r) s) as [t|] eqn:Et; [|apply projects_ret].
    apply projects_bind; [by eapply accept_projects|]. intros _. apply projects_bind; [done|intros; apply projects_ret]. }
  destruct (state_in _ _ && _) eqn:Ef.
  { apply andb_true_iff in Ef as [Ef _]. apply projects_bind; [|intros; apply projects_ret].
    eapply (projects_op _ _ now (OpRelease _ _ _ _)); [intros; reflexivity|]. simpl. right. by exists e. }
  destruct (state_eqb (se_state e) unknown) eqn:Eu; [|apply projects_ret].
  apply projects_bind; [|intros; apply projects_ret].
  eapply (projects_op _ _ now (OpUnknown _ _ _ _)); [intros; reflexivity|]. simpl. exists s, e.
  split; [done|]. split; [done|]. by apply state_eqb_eq.
Qed.

Lemma legacy_row_projects s r : projects_only (Some s) (reconcile_legacy_row s r).
Proof.
  unfold reconcile_legacy_row. apply projects_bind_read. intros _ [e|] Ho; [|apply projects_ret].
  destruct (_ || _) eqn:E; [apply projects_ret|]. apply orb_false_iff in E as [_ E%negb_false_iff].
  destruct (effect_transport_receipt _ _) as [t|] eqn:Et; [|apply projects_ret].
  apply projects_bind; [by eapply accept_projects|intros; apply projects_ret].
Qed.

Lemma each_projects store f rows : (∀ r, projects_only store (f r)) → projects_only store (each_reservation f rows).
Proof.
  intros Hf. induction rows as [|r rows IH]; [apply projects_ret|]. cbn [each_reservation].
  apply projects_bind; [apply Hf|]. intros first. apply projects_bind; [done|]. intros rest. apply projects_ret.
Qed.

Lemma reconcile_projects store ttl limit offset now l :
  projected store l (reconcile store ttl limit offset now l).2.
Proof.
  unfold reconcile. set (rows := pending_delivery_reservations _ _ _ _ _ l). destruct store as [s|].
  - pose proof (each_projects (Some s) _ rows (row_projects s ttl now) l) as H1.
    destruct (each_reservation (reconcile_row s ttl now) rows l) as [[counters|e] l1]; [|exact H1].
    cbv zeta. set (legacy := pending_delivery_reservations _ _ _ _ _ l1).
    pose proof (each_projects (Some s) _ legacy (legacy_row_projects s) l1) as H2.
    destruct (each_reservation (reconcile_legacy_row s) legacy l1) as [[more|e] l2]; by eapply projected_trans.
  - pose proof (each_projects None _ rows (λ r, expire_projects None ttl now r ltac:(by intros)) l) as H1.
    by destruct (each_reservation _ rows l).
Qed.

(** What warranted calls do to one reservation. *)
Definition evidence_based (store : option db) (r r' : reservation_row) : Prop :=
  dr_identity r' = dr_identity r
  ∧ (charged (dr_state r') = true → charged (dr_state r) = true
     ∨ ∃ s, store = Some s ∧ (receipt_known s (dr_effect_id r) ∨ delivery_proven s (dr_effect_id r)))
  ∧ (dr_state r' = delivered → dr_state r = delivered ∨ ∃ s, store = Some s ∧ delivery_proven s (dr_effect_id r)).

(** An acceptance accepts, and delivers nothing. *)
Lemma accept_table p j e now l :
  lg_reservations (project_transport_accepted p j e now l).2 = lg_reservations l
  ∨ lg_reservations (project_transport_accepted p j e now l).2 = update (of_effect j) (accept_row e now) (lg_reservations l).
Proof.
  unfold project_transport_accepted, pbind, commit, praise. destruct (negb _); [by left|].
  destruct (delivery_record j l) as [r|]; [|by left]. destruct (_ || _); [by left|]. by right.
Qed.

(** Only a delivery projection delivers. *)
Lemma perform_delivers op now l i r r' :
  wf_deliveries (lg_reservations l) → lg_reservations l !! i = Some r → lg_reservations (perform_op op now l) !! i = Some r' →
  dr_state r' = delivered → dr_state r ≠ delivered → ∃ p e, op = OpDeliver p (dr_effect_id r) e.
Proof.
  intros Hwf Hi Hi' Hd Hnd.
  destruct (perform_change op now l Hwf) as [(a & _ & (? & ? & ? & ? & news & E & _) & _)|(j & f & E & Hf & _)].
  { rewrite E, lookup_app_l in Hi' by (by eapply lookup_lt_Some). congruence. }
  destruct op; try (rewrite E in Hi'; unfold update in Hi'; rewrite list_lookup_fmap, Hi in Hi'; injection Hi' as <-;
    destruct (of_effect j r) eqn:Ej; [|done]; destruct (Hf r ltac:(by eapply list_elem_of_lookup_2) Ej) as [Hstep Hev];
    destruct Hev as [|Hev]; [by rewrite Hd|congruence|]; apply of_effect_spec in Ej; subst j; simpl in Hev; try done;
    injection Hev as ->; by eauto).
  simpl in Hi'. destruct (accept_table proposal_id effect_id e now l) as [E'|E']; rewrite E' in Hi'; [congruence|].
  unfold update in Hi'. rewrite list_lookup_fmap, Hi in Hi'. injection Hi' as <-. by destruct (of_effect effect_id r).
Qed.

(** Only evidence charges. *)
Lemma perform_charges op now l i r r' :
  wf_deliveries (lg_reservations l) → lg_reservations l !! i = Some r → lg_reservations (perform_op op now l) !! i = Some r' →
  charged (dr_state r') = true → charged (dr_state r) = false → op_evidence op = Some (dr_effect_id r).
Proof.
  intros Hwf Hi Hi' Hd Hnd.
  destruct (perform_change op now l Hwf) as [(a & _ & (? & ? & ? & ? & news & E & _) & _)|(j & f & E & Hf & _)].
  { rewrite E, lookup_app_l in Hi' by (by eapply lookup_lt_Some). congruence. }
  rewrite E in Hi'; unfold update in Hi'; rewrite list_lookup_fmap, Hi in Hi'; injection Hi' as <-.
  destruct (of_effect j r) eqn:Ej; [|by rewrite Hd in Hnd]. destruct (Hf r ltac:(by eapply list_elem_of_lookup_2) Ej) as [_ Hev].
  apply of_effect_spec in Ej. subst j. destruct (Hev Hd) as [Es|]; [|done]. by rewrite Es, Hnd in Hd.
Qed.

Lemma evidence_based_step store op now l i r r' :
  wf_deliveries (lg_reservations l) → warranted store (now, op) →
  lg_reservations l !! i = Some r → lg_reservations (perform_op op now l) !! i = Some r' → evidence_based store r r'.
Proof.
  intros Hwf Hw Hi Hi'. destruct (perform_row op now l i r Hwf Hi) as (r1 & E1 & [Hid _]). rewrite Hi' in E1.
  injection E1 as <-. split; [done|]. split.
  - intros Hc. destruct (charged (dr_state r)) eqn:Er; [by left|right].
    pose proof (perform_charges op now l i r r' Hwf Hi Hi' Hc Er) as Hev.
    destruct op; try done; injection Hev as ->; destruct Hw as (s & -> & H); eauto.
  - intros Hd. destruct (decide (dr_state r = delivered)) as [|Hnd]; [by left|right].
    destruct (perform_delivers op now l i r r' Hwf Hi Hi' Hd Hnd) as (p & e & ->). exact Hw.
Qed.

Lemma evidence_based_trans store r1 r2 r3 : evidence_based store r1 r2 → evidence_based store r2 r3 → evidence_based store r1 r3.
Proof.
  intros (I1 & C1 & D1) (I2 & C2 & D2).
  assert (dr_effect_id r2 = dr_effect_id r1) as E by (unfold dr_identity in I1; congruence).
  rewrite E in *. split; [congruence|]. naive_solver.
Qed.

Lemma projected_run store trace l i r :
  wf_deliveries (lg_reservations l) → Forall (warranted store) trace → lg_reservations l !! i = Some r →
  ∃ r', lg_reservations (run_ops trace l) !! i = Some r' ∧ evidence_based store r r'.
Proof.
  revert l r. induction trace as [|[now op] trace IH]; intros l r Hwf Hw Hi; simpl.
  - exists r. split; [done|]. split; [done|]. auto.
  - apply Forall_cons in Hw as [Hop Hw]. destruct (perform_row op now l i r Hwf Hi) as (r1 & H1 & _).
    destruct (IH _ r1 (perform_wf op now l Hwf) Hw H1) as (r' & H' & E').
    exists r'. split; [done|]. eapply evidence_based_trans; [|exact E']. by eapply evidence_based_step.
Qed.

(** C20: The reconciler invents nothing: in any ledger the delivery operations can reach, a pass
    keeps every reservation, and one that it charges has, in the processing store, a sent
    effect with a stored receipt, or a journaled signal from the recipient; one that it
    calls delivered has such a signal for the message id its receipt carries, and its
    effect is not a legacy one. What was charged before the pass keeps its charge. *)
Theorem reconcile_invents_nothing t0 before store ttl limit offset now i r :
  let l := run_ops before (empty_ledger t0) in
  lg_reservations l !! i = Some r →
  ∃ r', lg_reservations (reconcile store ttl limit offset now l).2 !! i = Some r' ∧ evidence_based store r r'
    ∧ (charged (dr_state r) = true → charge_kept r r').
Proof.
  intros l Hi. assert (wf_deliveries (lg_reservations l)) as Hwf by (apply run_wf, empty_wf).
  destruct (reconcile_projects store ttl limit offset now l) as (trace & -> & Hw).
  destruct (projected_run store trace l i r Hwf Hw Hi) as (r' & H' & E). exists r'. split; [done|]. split; [done|].
  intros Hc. destruct (charge_run trace l i r Hwf Hi Hc) as (r1 & H1 & Hk). congruence.
Qed.

(** ** What the queries let starve *)

Lemma order_by_map {R} (leb : R → R → bool) g l :
  (∀ a b, leb (g a) (g b) = leb a b) → order_by leb (map g l) = map g (order_by leb l).
Proof.
  intros Hg. assert (∀ x l, insert_sorted leb (g x) (map g l) = map g (insert_sorted leb x l)) as Hins.
  { intros x m. induction m as [|y m IH]; simpl; [done|]. rewrite Hg. destruct (leb x y); simpl; [done|]. by rewrite IH. }
  induction l as [|x l IH]; simpl; [done|]. by rewrite IH, Hins.
Qed.

Lemma select_map {R} (p : R → bool) g (l : list R) : (∀ r, p (g r) = p r) → select p (map g l) = map g (select p l).
Proof.
  intros Hg. unfold select. induction l as [|r l IH]; simpl; [done|]. rewrite Hg. destruct (p r); simpl; by rewrite IH.
Qed.

(** A classified delivery stays in the queue of deliveries to classify: recording its
    outcome changes nothing about which effects the next sweep sees, in which order. *)
Theorem classified_stays_pending effect_id outcome kind ids now before limit l :
  map dr_effect_id (pending_outcome_deliveries before limit (mark_delivery_outcome effect_id outcome kind ids now l).2)
  = map dr_effect_id (pending_outcome_deliveries before limit l).
Proof.
  unfold pending_outcome_deliveries, mark_delivery_outcome, commit, update_effect. simpl. unfold update.
  rewrite select_map, order_by_map.
  - rewrite <- firstn_map, map_map, <- firstn_map. f_equal. apply map_ext. intros r. by destruct (of_effect _ r).
  - intros a b. unfold delivered_at. by destruct (of_effect _ a), (of_effect _ b).
  - intros r. by destruct (of_effect _ r).
Qed.

Definition sent_effect (id : string) : effect_row :=
  MkEffect id ("k-" +:+ id) "t" "turn" 1 "service:speakup" "send_text" [] "" "text" "" (Some [("text", JStr "hi")]) None
    sent None None None None None "participation" None 1 2.
Definition sent_receipt (at_ms : Z) (id : string) : receipt_row :=
  MkReceipt ("r-" +:+ id) id None "whatsapp" "g1" (Some ("p-" +:+ id)) None at_ms None.
Definition sent_store : db :=
  empty_db <| effects := map sent_effect ["e1"; "e2"] |>
           <| transport_receipts := [sent_receipt 5000 "e1"; sent_receipt 7000 "e2"] |>.
Definition sample_reaction : event_row :=
  MkEvent "ev9" "k9" "t" "reaction" "whatsapp" "whatsapp" "g1" "p" "" "in" 0 None None (Some "p-e2") None None (Some 8000)
    "" None None 8100.
Definition waiting_ledger : ledger :=
  run_ops [(1000, OpReserve (sample_reserve "p1" "e1")); (2000, OpReserve (sample_reserve "p2" "e2")); (3000, OpSubmit "e2");
           (4000, OpAccept "p1" "e1" sample_receipt)] (empty_ledger 0).

(** Sends the transport accepted but nobody acknowledged keep their place at the head of
    the reconciler's queue: with a batch of their number, the pass reads them alone,
    changes nothing, and never gets to the send behind them whose receipt is stored. *)
Theorem accepted_rows_starve :
  reconcile (Some sent_store) 120000 2 0 9000 waiting_ledger = (Ok [CountRetained; CountRetained], 0, waiting_ledger)
  ∧ reconcile (Some sent_store) 120000 4 0 9000 waiting_ledger ≠ (Ok [CountRetained; CountRetained], 0, waiting_ledger)
  ∧ delivery_state "e2" waiting_ledger = Some submitted
  ∧ delivery_state "e2" (reconcile (Some sent_store) 120000 4 0 9000 waiting_ledger).2 = Some transport_accepted.
Proof. split; [by vm_compute|]. split; [by vm_compute|]. by vm_compute. Qed.

Definition five : list string := ["e1"; "e2"; "e3"; "e4"; "e5"].
Definition busy_store : db :=
  empty_db <| effects := map sent_effect five |>
           <| transport_receipts := imap (λ n id, sent_receipt (1000 + Z.of_nat n) id) five |>.
Definition newest_delivered : ledger :=
  run_ops [(1000, OpReserve (sample_reserve "p5" "e5")); (2000, OpDeliver "p5" "e5" read_proof)] (empty_ledger 0).

(** The newest delivered message is no anchor once four older receipts fill the query:
    the ledger's rows come newest first, the store's effects oldest first. *)
Theorem newest_anchor_lost :
  delivered_anchors "whatsapp" "g1" 0 1 newest_delivered busy_store = []
  ∧ map an_message (delivered_anchors "whatsapp" "g1" 0 2 newest_delivered busy_store) = ["hi"].
Proof. by vm_compute. Qed.

(** ** Witness *)

Lemma reconcile_invents_nothing_witness :
  let l := waiting_ledger in
  ∃ r r', lg_reservations l !! 2%nat = Some r ∧ dr_state r = submitted
    ∧ lg_reservations (reconcile (Some (sent_store <| events := [sample_reaction] |>)) 120000 10 0 9000 l).2 !! 2%nat = Some r'
    ∧ dr_state r' = delivered ∧ dr_accepted_ms r' = Some 7000
    ∧ evidence_based (Some (sent_store <| events := [sample_reaction] |>)) r r'.
Proof.
  cbv zeta. destruct (lg_reservations waiting_ledger !! 2%nat) as [r|] eqn:E; [|vm_compute in E; discriminate].
  exists r. edestruct (reconcile_invents_nothing 0
    [(1000, OpReserve (sample_reserve "p1" "e1")); (2000, OpReserve (sample_reserve "p2" "e2")); (3000, OpSubmit "e2");
     (4000, OpAccept "p1" "e1" sample_receipt)] (Some (sent_store <| events := [sample_reaction] |>)) 120000 10 0 9000 2%nat r E)
    as (r' & H' & He & _).
  exists r'. assert (dr_state r = submitted) as Hs by (vm_compute in E; by injection E as <-).
  assert (dr_state r' = delivered ∧ dr_accepted_ms r' = Some 7000) as [? ?] by (vm_compute in H'; by injection H' as <-).
  by repeat (split; [done|]).
Defined.
