(* ===== verification/Scheduler.v ===== *)
(** * Scheduler

    [OpportunityScheduler] of [consciousness/opportunities.py]: one bounded pending record
    per chat, a ready queue and a fixed pool of workers. Between two awaits the code is one
    atomic step: the synchronous calls of producers, a worker that takes work up to its
    handler, and a worker whose handler came back. The pending records are shared objects:
    a worker keeps the record it handles while producers merge into it, cancel it or
    replace it, so records live in a heap and are compared by reference. The dispositions
    are a log in place of the counters and the callback. A handler comes back, fails, or is
    cancelled by [stop]; one that cancels itself, and producers that run while [stop] waits
    for its workers, are not modelled. *)

From Stdlib Require Import ZArith Lia Ascii.
From S2P Require Import Prelude Tables Json Identity.

Section Scheduler.
  Context `{Sha256}.

(** ** Opportunities *)

Definition OPPORTUNITY_ID_VERSION : string := "p1".

Record ParticipationOpportunity := MkOpportunity {
  op_id : string;
  op_channel : string;
  op_chat_id : string;
  op_trigger : string;
  op_sources : list string;
  op_revision : Z;
  op_epoch : Z;
  op_created_ms : Z;
  op_lane : string;
}.

(** [opportunity_id_for] *)
Definition opportunity_id_for (channel chat_id : string) (epoch : Z) (lane : string) (sources : list string) (revision : Z)
    : string :=
  "opp-" +:+ String.substring 0 32 (sha256_hex (join "|"
    [OPPORTUNITY_ID_VERSION; channel; chat_id; pretty epoch; lane; join "," (order_by String.leb sources); pretty revision])).

(** ** Pending records *)

Record PendingChat := MkPending {
  pc_channel : string;
  pc_chat_id : string;
  pc_epoch : Z;
  pc_lane : string;
  pc_sources : list string;
  pc_bytes : Z;
  pc_revision : Z;
  pc_trigger : string;
  pc_first_ms : Z;
  pc_last_ms : Z;
  pc_dropped : Z;
  pc_queued : bool;
  pc_reported : list string;
}.
#[export] Instance eta_pending : Updatable PendingChat :=
  λ r, MkPending (pc_channel r) (pc_chat_id r) (pc_epoch r) (pc_lane r) (pc_sources r) (pc_bytes r) (pc_revision r)
         (pc_trigger r) (pc_first_ms r) (pc_last_ms r) (pc_dropped r) (pc_queued r) (pc_reported r).

Definition pc_key (r : PendingChat) : string * string := (pc_channel r, pc_chat_id r).

(** [unreported] *)
Definition unreported (r : PendingChat) : list string := List.filter (λ x, negb (str_in x (pc_reported r))) (pc_sources r).

Definition size_of (token : string) : Z := Z.of_nat (String.length token).

(** [_drop_oldest]: the record, what fell out, and whether a handler had it *)
Definition drop_oldest (r : PendingChat) : PendingChat * option string * bool :=
  match pc_sources r with
  | [] => (r, None, false)
  | oldest :: rest =>
      (r <| pc_sources := rest |>
         <| pc_reported ::= List.filter (λ x, negb (x =?s oldest)) |>
         <| pc_bytes ::= (λ b, Z.max 0 (b - size_of oldest)) |>, Some oldest, str_in oldest (pc_reported r))
  end.

Record limits := MkLimits {
  lm_pending_chats : nat;
  lm_refs : nat;
  lm_bytes : Z;
  lm_ttl_ms : Z;
}.

(** The account of a merge: references added, unreported ones dropped, all dropped. *)
Record merge_result := MkMerge { mg_record : PendingChat; mg_added : nat; mg_dropped : list string; mg_count : Z }.
#[export] Instance eta_merge : Updatable merge_result :=
  λ m, MkMerge (mg_record m) (mg_added m) (mg_dropped m) (mg_count m).

Definition drop_one (m : merge_result) : merge_result :=
  let '(r, dropped, was_reported) := drop_oldest (mg_record m) in
  m <| mg_record := r <| pc_dropped ::= Z.add 1 |> |>
    <| mg_dropped ::= (λ l, match dropped with Some x => if was_reported then l else l ++ [x] | None => l end) |>
    <| mg_count ::= Z.add 1 |>.

(** [while source_bytes + size > max_bytes and source_event_ids: ...]; one round per source *)
Fixpoint make_room (fuel : nat) (max_bytes size : Z) (m : merge_result) : merge_result :=
  match fuel with
  | O => m
  | S fuel' =>
      if (max_bytes <? pc_bytes (mg_record m) + size) && negb (bool_decide (pc_sources (mg_record m) = []))
      then make_room fuel' max_bytes size (drop_one m)
      else m
  end.

(** One reference of [_merge_sources]. The set of seen tokens starts as the sources and only
    grows, so a token that was dropped in this merge is not added again. *)
Definition merge_token (lim : limits) (acc : merge_result * list string) (token : string) : merge_result * list string :=
  let (m, seen) := acc in
  if str_in token seen then (m, seen) else
  let size := size_of token in
  let m1 := if (lm_refs lim <=? length (pc_sources (mg_record m)))%nat then drop_one m else m in
  let m2 := make_room (length (pc_sources (mg_record m1))) (lm_bytes lim) size m1 in
  if lm_bytes lim <? pc_bytes (mg_record m2) + size
  then (m2 <| mg_record ::= (λ r, r <| pc_dropped ::= Z.add 1 |>) |> <| mg_dropped ::= (λ l, l ++ [token]) |>
           <| mg_count ::= Z.add 1 |>, seen)
  else (m2 <| mg_record ::= (λ r, r <| pc_sources ::= (λ l, l ++ [token]) |> <| pc_bytes ::= Z.add size |>) |>
           <| mg_added ::= S |>, token :: seen).

(** [_merge_sources] *)
Definition merge_sources (lim : limits) (r : PendingChat) (tokens : list string) : merge_result :=
  (foldl (merge_token lim) (MkMerge r 0 [] 0, pc_sources r) tokens).1.

(** ** The scheduler's state *)

(** A worker is idle, or inside the handler with its record and the opportunity it was given. *)
Definition pool_worker := option (nat * ParticipationOpportunity).

Record scheduler := MkScheduler {
  sd_heap : list PendingChat;
  sd_pending : gmap (string * string) nat;
  sd_ready : list (string * string);
  sd_active : gset (string * string);
  sd_cancelled : gset (string * string);
  sd_evaluated : gmap (string * string * string) Z;
  sd_workers : list pool_worker;
  sd_running : bool;
  sd_log : list (string * ParticipationOpportunity);
}.
#[export] Instance eta_scheduler : Updatable scheduler :=
  λ s, MkScheduler (sd_heap s) (sd_pending s) (sd_ready s) (sd_active s) (sd_cancelled s) (sd_evaluated s) (sd_workers s)
         (sd_running s) (sd_log s).

(** [__init__]; not running yet *)
Definition new_scheduler (workers : nat) : scheduler := MkScheduler [] ∅ [] ∅ ∅ ∅ (replicate workers None) false [].

(** [_dispose] and the "started" callback *)
Definition dispose (what : string) (o : ParticipationOpportunity) (s : scheduler) : scheduler :=
  s <| sd_log ::= (λ l, l ++ [(what, o)]) |>.

Definition set_record (ref : nat) (r : PendingChat) (s : scheduler) : scheduler := s <| sd_heap ::= <[ref := r]> |>.

(** [_as_opportunity] *)
Definition as_opportunity (r : PendingChat) : ParticipationOpportunity :=
  let retained := match unreported r with [] => pc_sources r | l => l end in
  MkOpportunity (opportunity_id_for (pc_channel r) (pc_chat_id r) (pc_epoch r) (pc_lane r) retained (pc_revision r))
    (pc_channel r) (pc_chat_id r) (pc_trigger r) retained (pc_revision r) (pc_epoch r) (pc_first_ms r) (pc_lane r).

(** ** Producers *)

Record OfferResult := MkOffer {
  of_accepted : bool;
  of_retained : list string;
  of_dropped : list string;
  of_dropped_count : Z;
}.
Definition refused : OfferResult := MkOffer false [] [] 0.

Definition op_key (o : ParticipationOpportunity) : string * string := (op_channel o, op_chat_id o).
Definition op_lane_key (o : ParticipationOpportunity) : string * string * string := (op_channel o, op_chat_id o, op_lane o).

(** The references that count. *)
Definition offered_tokens (o : ParticipationOpportunity) : list string := List.filter str_true (map py_strip (op_sources o)).

Definition fresh_pending (o : ParticipationOpportunity) : PendingChat :=
  MkPending (op_channel o) (op_chat_id o) (op_epoch o) (op_lane o) [] 0 0 "inbound" (op_created_ms o) (op_created_ms o) 0 false [].

(** The record the offer goes to; [None]: refused, and why. *)
Definition record_for (lim : limits) (o : ParticipationOpportunity) (s : scheduler) : string + nat * scheduler :=
  match sd_pending s !! op_key o with
  | None =>
      if negb (existsb (λ x, str_true (py_strip x)) (op_sources o)) then inl "empty"
      else if op_revision o <=? default (-1) (sd_evaluated s !! op_lane_key o) then inl "duplicate"
      else if (lm_pending_chats lim <=? size (sd_pending s))%nat then inl "queue_full"
      else let ref := length (sd_heap s) in
           inr (ref, s <| sd_heap ::= (λ h, h ++ [fresh_pending o]) |> <| sd_pending ::= <[op_key o := ref]> |>)
  | Some ref =>
      match sd_heap s !! ref with
      | Some r =>
          if negb (op_epoch o =? pc_epoch r)
          then inr (ref, set_record ref (r <| pc_sources := [] |> <| pc_bytes := 0 |> <| pc_revision := 0 |> <| pc_dropped := 0 |>
                                           <| pc_epoch := op_epoch o |> <| pc_lane := op_lane o |>
                                           <| pc_first_ms := op_created_ms o |>) (dispose "cancelled" o s))
          else inr (ref, s)
      | None => inr (ref, s)
      end
  end.

(** [offer_with_result] *)
Definition offer_with_result (lim : limits) (o : ParticipationOpportunity) (s : scheduler) : OfferResult * scheduler :=
  let key := op_key o in
  if bool_decide (key ∈ sd_cancelled s) then (refused, dispose "cancelled" o s) else
  match record_for lim o s with
  | inl reason => (refused, dispose reason o s)
  | inr (ref, s1) =>
  match offered_tokens o with
  | [] => (refused, dispose "empty" o (s1 <| sd_pending ::= delete key |>))
  | tokens =>
  match sd_heap s1 !! ref with
  | None => (refused, s1)
  | Some r =>
      let m := merge_sources lim r tokens in
      let r1 := mg_record m in
      if (mg_added m =? 0)%nat then
        let s2 := dispose "duplicate" o (set_record ref r1 s1) in
        (MkOffer false (pc_sources r1) (mg_dropped m) (mg_count m),
         if negb (bool_decide (key ∈ sd_active s2)) && bool_decide (unreported r1 = [])
         then s2 <| sd_pending ::= delete key |> else s2)
      else
        let r2 := r1 <| pc_revision ::= Z.max (op_revision o) |> <| pc_last_ms := op_created_ms o |> <| pc_trigger := op_trigger o |> in
        (MkOffer true (pc_sources r2) (mg_dropped m) (mg_count m),
         if pc_queued r2 then set_record ref r2 s1
         else (set_record ref (r2 <| pc_queued := true |>) s1) <| sd_ready ::= (λ l, l ++ [key]) |>)
  end
  end
  end.

(** [cancel_chat] *)
Definition cancel_chat (key : string * string) (s : scheduler) : bool * scheduler :=
  let s1 := s <| sd_pending ::= delete key |> <| sd_cancelled ::= (λ c, {[key]} ∪ c) |> in
  match sd_pending s !! key ≫= λ ref, sd_heap s !! ref with
  | Some r => (true, dispose "cancelled" (as_opportunity r) s1)
  | None => (false, s1)
  end.

(** [release_chat] *)
Definition release_chat (key : string * string) (s : scheduler) : scheduler := s <| sd_cancelled ::= (λ c, c ∖ {[key]}) |>.

(** Raising an in-process watermark. *)
Definition raise_evaluated (lane_key : string * string * string) (revision : Z) (s : scheduler) : scheduler :=
  s <| sd_evaluated ::= (λ e, <[lane_key := Z.max (default (-1) (e !! lane_key)) revision]> e) |>.

(** [mark_considered] *)
Definition scheduler_considered (key : string * string) (revision : Z) (lane : string) (s : scheduler) : scheduler :=
  raise_evaluated (key.1, key.2, lane) revision s.

(** ** Workers *)

(** [_retire] *)
Definition retire (ref : nat) (s : scheduler) : scheduler :=
  match sd_heap s !! ref with
  | None => s
  | Some r =>
      if negb (bool_decide (sd_pending s !! pc_key r = Some ref)) then s
      else match unreported r with
      | [] => s <| sd_pending ::= delete (pc_key r) |>
      | _ => if pc_queued r then s
             else (set_record ref (r <| pc_queued := true |>) s) <| sd_ready ::= (λ l, l ++ [pc_key r]) |>
      end
  end.

(** The [finally] of [_worker] for one record. *)
Definition finish_record (ref : nat) (s : scheduler) : scheduler :=
  match sd_heap s !! ref with
  | None => s
  | Some r =>
      retire ref (raise_evaluated (pc_channel r, pc_chat_id r, pc_lane r) (pc_revision r)
                    (s <| sd_active ::= (λ a, a ∖ {[pc_key r]}) |>))
  end.

Definition set_worker (i : nat) (w : pool_worker) (s : scheduler) : scheduler := s <| sd_workers ::= <[i := w]> |>.

(** A worker that found work: [_worker] from [_next_ready] to the handler's await *)
Definition worker_take (lim : limits) (i : nat) (now : Z) (s : scheduler) : option scheduler :=
  match sd_workers s !! i, sd_ready s with
  | Some None, key :: rest =>
      if negb (sd_running s) then None else
      let s1 := s <| sd_ready := rest |> in
      match sd_pending s1 !! key ≫= λ ref, (λ r, (ref, r)) <$> (sd_heap s1 !! ref) with
      | None => Some s1
      | Some (ref, r) =>
          let r1 := r <| pc_queued := false |> in
          let s2 := set_record ref r1 s1 in
          if bool_decide (key ∈ sd_active s2) then Some s2 else
          let o := as_opportunity r1 in
          let r2 := r1 <| pc_reported ::= (λ l, l ++ pc_sources r1) |> in
          let s3 := set_record ref r2 (s2 <| sd_active ::= (λ a, {[key]} ∪ a) |>) in
          if lm_ttl_ms lim <? now - pc_first_ms r2
          then Some (finish_record ref (dispose "expired" o s3))
          else Some (set_worker i (Some (ref, o)) (dispose "started" o s3))
      end
  | _, _ => None
  end.

(** The handler of a worker came back, or failed. *)
Definition worker_done (i : nat) (failed : bool) (s : scheduler) : option scheduler :=
  match sd_workers s !! i with
  | Some (Some (ref, o)) =>
      let s1 := set_worker i None s in
      Some (finish_record ref (if failed then dispose "handler_failed" o s1 else s1))
  | _ => None
  end.

(** [start] *)
Definition scheduler_start (s : scheduler) : scheduler :=
  if sd_running s then s else s <| sd_running := true |>.

(** One worker that is cancelled. *)
Definition cancel_worker (s : scheduler) (w : pool_worker) : scheduler :=
  match w with Some (ref, o) => finish_record ref (dispose "cancelled" o s) | None => s end.

(** [stop]: the workers are cancelled one after the other, then everything is cleared *)
Definition scheduler_stop (s : scheduler) : scheduler :=
  let s1 := foldl cancel_worker (s <| sd_running := false |>) (sd_workers s) in
  s1 <| sd_workers ::= map (λ _, None) |> <| sd_pending := ∅ |> <| sd_ready := [] |> <| sd_active := ∅ |> <| sd_cancelled := ∅ |>.

(** ** Runs *)

Inductive sched_op :=
| SOffer (o : ParticipationOpportunity)
| SCancel (key : string * string)
| SRelease (key : string * string)
| SConsider (key : string * string) (revision : Z) (lane : string)
| STake (i : nat) (now : Z)
| SDone (i : nat) (failed : bool)
| SStart
| SStop.

(** One atomic step; a step of a worker that is not ready does nothing. *)
Definition sched_step (lim : limits) (op : sched_op) (s : scheduler) : scheduler :=
  match op with
  | SOffer o => (offer_with_result lim o s).2
  | SCancel key => (cancel_chat key s).2
  | SRelease key => release_chat key s
  | SConsider key revision lane => scheduler_considered key revision lane s
  | STake i now => default s (worker_take lim i now s)
  | SDone i failed => default s (worker_done i failed s)
  | SStart => scheduler_start s
  | SStop => scheduler_stop s
  end.

Definition sched_run (lim : limits) (ops : list sched_op) (s : scheduler) : scheduler :=
  foldl (λ s op, sched_step lim op s) s ops.

End Scheduler.
