(* ===== verification/SchedulerProps.v ===== *)
(** * SchedulerProps

    The promises of the opportunity scheduler along every interleaving of producers and
    workers: one handler per chat, bounded memory, and no material left behind as long as
    a chat is not cancelled under its running handler. *)

From Stdlib Require Import ZArith Lia Ascii.
From S2P Require Import Prelude Tables Json Identity Scheduler.

Section Props.
  Context `{Sha256} (lim : limits).
  Hypothesis refs_positive : (1 ≤ lm_refs lim)%nat.

(** ** Merging *)

Definition total_size (l : list string) : Z := foldr (λ x n, size_of x + n) 0 l.

(** A record within its bounds; its byte count is the size of what it holds. *)
Record pending_ok (r : PendingChat) : Prop := {
  po_refs : (length (pc_sources r) ≤ lm_refs lim)%nat;
  po_bytes : pc_bytes r = total_size (pc_sources r);
  po_limit : pc_sources r = [] ∨ pc_bytes r <= lm_bytes lim;
  po_nodup : NoDup (pc_sources r);
}.

Lemma size_of_nonneg x : 0 <= size_of x.
Proof. unfold size_of. lia. Qed.

Lemma total_size_nonneg l : 0 <= total_size l.
Proof. induction l as [|x l IH]; simpl; [lia|]. pose proof (size_of_nonneg x). lia. Qed.

Lemma total_size_app l1 l2 : total_size (l1 ++ l2) = total_size l1 + total_size l2.
Proof. induction l1 as [|x l1 IH]; simpl; lia. Qed.

Lemma drop_one_sources m : pc_sources (mg_record (drop_one m)) = tail (pc_sources (mg_record m)).
Proof. unfold drop_one, drop_oldest. by destruct (pc_sources (mg_record m)) eqn:E; simpl; rewrite ?E. Qed.

Lemma drop_one_ok m : pending_ok (mg_record m) → pending_ok (mg_record (drop_one m)).
Proof.
  intros [H1 H2 H3 H4]. unfold drop_one, drop_oldest. destruct (pc_sources (mg_record m)) as [|x l] eqn:E; simpl.
  - split; simpl; rewrite ?E; auto.
  - pose proof (size_of_nonneg x). pose proof (total_size_nonneg l). apply NoDup_cons in H4 as [_ H4]. simpl in *.
    split; simpl; [lia| |right|done]; rewrite H2 in *; [lia|]. destruct H3 as [|H3]; [done|]. lia.
Qed.

Lemma make_room_ok fuel size m :
  pending_ok (mg_record m) → (length (pc_sources (mg_record m)) ≤ fuel)%nat →
  let m' := make_room fuel (lm_bytes lim) size m in
  pending_ok (mg_record m') ∧ (∃ dropped, pc_sources (mg_record m) = dropped ++ pc_sources (mg_record m'))
  ∧ (pc_sources (mg_record m') = [] ∨ pc_bytes (mg_record m') + size <= lm_bytes lim).
Proof.
  revert m. induction fuel as [|fuel IH]; intros m Hok Hf; simpl.
  - split; [done|]. split; [by exists []|]. left. destruct (pc_sources (mg_record m)); [done|simpl in Hf; lia].
  - destruct (lm_bytes lim <? _) eqn:E1; simpl.
    + destruct (bool_decide (pc_sources (mg_record m) = [])) eqn:E2; simpl.
      * apply bool_decide_eq_true in E2. split; [done|]. split; [by exists []|]. by left.
      * apply bool_decide_eq_false in E2. destruct (IH (drop_one m)) as (H1 & [d Hd] & H3).
        { by apply drop_one_ok. }
        { rewrite drop_one_sources. destruct (pc_sources (mg_record m)); [done|]. simpl in *. lia. }
        split; [done|]. split; [|done]. rewrite drop_one_sources in Hd.
        destruct (pc_sources (mg_record m)) as [|x l]; [done|]. simpl in Hd. exists (x :: d). simpl. by rewrite Hd.
    + apply Z.ltb_ge in E1. split; [done|]. split; [by exists []|]. by right.
Qed.

Definition merge_ok (acc : merge_result * list string) : Prop :=
  pending_ok (mg_record acc.1) ∧ ∀ x, x ∈ pc_sources (mg_record acc.1) → x ∈ acc.2.

Lemma merge_token_ok acc token : merge_ok acc → merge_ok (merge_token lim acc token).
Proof.
  destruct acc as [m seen]. intros [Hok Hseen]. unfold merge_token. cbn [fst snd] in *.
  destruct (str_in token seen) eqn:Et; [done|]. cbv zeta.
  set (m1 := if (lm_refs lim <=? _)%nat then drop_one m else m).
  assert (pending_ok (mg_record m1) ∧ (length (pc_sources (mg_record m1)) < lm_refs lim)%nat
          ∧ ∀ x, x ∈ pc_sources (mg_record m1) → x ∈ seen) as (Hok1 & Hlt & Hseen1).
  { unfold m1. destruct (lm_refs lim <=? _)%nat eqn:E.
    - apply Nat.leb_le in E. split; [by apply drop_one_ok|]. rewrite drop_one_sources.
      pose proof (po_refs _ Hok) as Hr. split.
      + destruct (pc_sources (mg_record m)) as [|x l]; simpl in *; lia.
      + intros x Hx. apply Hseen. destruct (pc_sources (mg_record m)); [done|]. simpl in Hx. set_solver.
    - apply Nat.leb_gt in E. done. }
  destruct (make_room_ok (length (pc_sources (mg_record m1))) (size_of token) m1 Hok1) as (Hok2 & [d Hd] & Hroom); [done|].
  set (m2 := make_room _ _ _ m1) in *.
  assert (∀ x, x ∈ pc_sources (mg_record m2) → x ∈ seen) as Hseen2 by (intros x Hx; apply Hseen1; rewrite Hd; set_solver).
  assert (length (pc_sources (mg_record m2)) < lm_refs lim)%nat as Hlt2 by (rewrite Hd, length_app in Hlt; lia).
  destruct Hok2 as [P1 P2 P3 P4]. destruct (lm_bytes lim <? _) eqn:Eb.
  - split; [|done]. cbn [fst]. split; simpl; done.
  - apply Z.ltb_ge in Eb. split; cbn [fst snd].
    + split; simpl.
      * rewrite length_app. simpl. lia.
      * rewrite total_size_app. simpl. lia.
      * right. lia.
      * apply NoDup_app. split; [done|]. split; [|apply NoDup_singleton].
        intros x Hx ->%list_elem_of_singleton. apply Hseen2 in Hx. by apply str_in_spec in Hx; rewrite Hx in Et.
    + intros x. simpl. rewrite elem_of_app, list_elem_of_singleton. set_solver.
Qed.

Lemma merge_fold_ok tokens acc : merge_ok acc → merge_ok (foldl (merge_token lim) acc tokens).
Proof. revert acc. induction tokens as [|x tokens IH]; intros acc Hacc; simpl; [done|]. by apply IH, merge_token_ok. Qed.

Lemma merge_sources_ok r tokens : pending_ok r → pending_ok (mg_record (merge_sources lim r tokens)).
Proof.
  intros Hr. unfold merge_sources.
  destruct (merge_fold_ok tokens (MkMerge r 0 [] 0, pc_sources r)) as [Hok _]; [by split|]. done.
Qed.

(** Merging touches the references only. *)
Lemma drop_one_frame m :
  pc_key (mg_record (drop_one m)) = pc_key (mg_record m) ∧ pc_queued (mg_record (drop_one m)) = pc_queued (mg_record m).
Proof. unfold drop_one, drop_oldest. by destruct (pc_sources (mg_record m)). Qed.

Lemma make_room_frame fuel mx size m :
  pc_key (mg_record (make_room fuel mx size m)) = pc_key (mg_record m)
  ∧ pc_queued (mg_record (make_room fuel mx size m)) = pc_queued (mg_record m).
Proof.
  revert m. induction fuel as [|fuel IH]; intros m; simpl; [done|]. destruct (_ && _); [|done].
  destruct (IH (drop_one m)) as [-> ->]. apply drop_one_frame.
Qed.

Lemma merge_token_frame acc token :
  pc_key (mg_record (merge_token lim acc token).1) = pc_key (mg_record acc.1)
  ∧ pc_queued (mg_record (merge_token lim acc token).1) = pc_queued (mg_record acc.1).
Proof.
  destruct acc as [m seen]. unfold merge_token. destruct (str_in token seen); [done|]. cbv zeta.
  set (m1 := if (lm_refs lim <=? _)%nat then drop_one m else m).
  assert (pc_key (mg_record m1) = pc_key (mg_record m) ∧ pc_queued (mg_record m1) = pc_queued (mg_record m)) as [E1 E2].
  { unfold m1. destruct (_ <=? _)%nat; [apply drop_one_frame|done]. }
  destruct (make_room_frame (length (pc_sources (mg_record m1))) (lm_bytes lim) (size_of token) m1) as [E3 E4].
  cbn [fst]. rewrite <- E1, <- E2, <- E3, <- E4. by destruct (lm_bytes lim <? _).
Qed.

Lemma merge_sources_frame r tokens :
  pc_key (mg_record (merge_sources lim r tokens)) = pc_key r ∧ pc_queued (mg_record (merge_sources lim r tokens)) = pc_queued r.
Proof.
  unfold merge_sources. generalize (pc_sources r) as seen. intros seen.
  cut (∀ acc, pc_key (mg_record (foldl (merge_token lim) acc tokens).1) = pc_key (mg_record acc.1)
              ∧ pc_queued (mg_record (foldl (merge_token lim) acc tokens).1) = pc_queued (mg_record acc.1)).
  { intros Hc. apply (Hc (MkMerge r 0 [] 0, seen)). }
  induction tokens as [|x tokens IH]; intros acc; simpl; [done|].
  destruct (IH (merge_token lim acc x)) as [-> ->]. apply merge_token_frame.
Qed.

(** ** The invariant *)

Definition key_at (s : scheduler) (ref : nat) : option (string * string) := pc_key <$> sd_heap s !! ref.

(** Worker [i] is inside the handler with record [ref]. *)
Definition busy (s : scheduler) (i ref : nat) : Prop := ∃ o, sd_workers s !! i = Some (Some (ref, o)).

Record sched_inv (s : scheduler) : Prop := {
  si_pending : ∀ k ref, sd_pending s !! k = Some ref → key_at s ref = Some k;
  si_busy : ∀ i ref, busy s i ref → ∃ k, key_at s ref = Some k ∧ k ∈ sd_active s;
  si_one : ∀ i j ref ref', busy s i ref → busy s j ref' → key_at s ref = key_at s ref' → i = j;
  si_count : (size (sd_pending s) ≤ lm_pending_chats lim)%nat;
  si_ok : Forall pending_ok (sd_heap s);
}.

(** A step that leaves the workers alone, keeps the records' keys and shrinks neither the
    active set nor the guarantees on pending. *)
Lemma inv_frame s s' :
  sched_inv s → (∀ ref k, key_at s ref = Some k → key_at s' ref = Some k) → sd_workers s' = sd_workers s →
  sd_active s ⊆ sd_active s' → (∀ k ref, sd_pending s' !! k = Some ref → key_at s' ref = Some k) →
  (size (sd_pending s') ≤ lm_pending_chats lim)%nat → Forall pending_ok (sd_heap s') → sched_inv s'.
Proof.
  intros [I1 I2 I3 I4 I5] Hk Hw Ha Hp Hc Ho. unfold busy in *. split; unfold busy; rewrite ?Hw; auto.
  - intros i ref Hb. destruct (I2 _ _ Hb) as (k & Ek & Hin). eauto.
  - intros i j ref ref' Hb Hb' E. apply (I3 i j ref ref' Hb Hb').
    destruct (I2 _ _ Hb) as (k & Ek & _), (I2 _ _ Hb') as (k' & Ek' & _).
    rewrite (Hk _ _ Ek), (Hk _ _ Ek') in E. by rewrite Ek, Ek'.
Qed.

Lemma key_at_set ref r r' s x :
  sd_heap s !! ref = Some r → pc_key r' = pc_key r → key_at (set_record ref r' s) x = key_at s x.
Proof.
  intros Hr Hk. unfold key_at, set_record. simpl. destruct (decide (x = ref)) as [->|Hne].
  - rewrite list_lookup_insert_eq by (by apply lookup_lt_Some in Hr). rewrite Hr. simpl. by rewrite Hk.
  - by rewrite list_lookup_insert_ne.
Qed.

Lemma heap_set ref r r' s :
  sd_heap s !! ref = Some r → sd_heap (set_record ref r' s) !! ref = Some r'.
Proof. intros Hr. unfold set_record. simpl. apply list_lookup_insert_eq. by apply lookup_lt_Some in Hr. Qed.

Lemma set_record_inv ref r r' s :
  sched_inv s → sd_heap s !! ref = Some r → pc_key r' = pc_key r → pending_ok r' → sched_inv (set_record ref r' s).
Proof.
  intros Hi Hr Hk Hok. apply (inv_frame s); try done.
  - intros x k. by rewrite (key_at_set ref r).
  - intros k x. simpl. rewrite (key_at_set ref r) by done. apply (si_pending _ Hi).
  - apply (si_count _ Hi).
  - simpl. apply Forall_insert; [apply (si_ok _ Hi)|done].
Qed.

Lemma delete_pending_inv key s : sched_inv s → sched_inv (s <| sd_pending ::= delete key |>).
Proof.
  intros Hi. apply (inv_frame s); try done.
  - intros k ref. simpl. intros [_ Hp]%lookup_delete_Some. by apply (si_pending _ Hi).
  - simpl. pose proof (si_count _ Hi). etrans; [|done]. apply map_subseteq_size, delete_subseteq.
  - apply (si_ok _ Hi).
Qed.

Lemma heap_ok s ref r : sched_inv s → sd_heap s !! ref = Some r → pending_ok r.
Proof. intros Hi Hr. by apply (Forall_lookup_1 _ _ _ _ (si_ok _ Hi) Hr). Qed.

(** ** Producers keep the invariant *)

Lemma fresh_pending_ok o : pending_ok (fresh_pending o).
Proof. split; simpl; [lia|done|by left|constructor]. Qed.

Lemma dispose_inv what o s : sched_inv s → sched_inv (dispose what o s).
Proof. by intros []. Qed.

Lemma ready_inv f s : sched_inv s → sched_inv (s <| sd_ready ::= f |>).
Proof. by intros []. Qed.

(** The record an offer goes to: the chat's own, in a state that has the same workers, active
    chats and ready queue. *)
Lemma record_for_inv o s ref s1 :
  sched_inv s → record_for lim o s = inr (ref, s1) →
  sched_inv s1 ∧ sd_pending s1 !! op_key o = Some ref
  ∧ (∃ r, sd_heap s1 !! ref = Some r ∧ pc_key r = op_key o)
  ∧ sd_workers s1 = sd_workers s ∧ sd_active s1 = sd_active s ∧ sd_ready s1 = sd_ready s ∧ sd_cancelled s1 = sd_cancelled s.
Proof.
  intros Hi. unfold record_for. destruct (sd_pending s !! op_key o) as [ref0|] eqn:Ep.
  - pose proof (si_pending _ Hi _ _ Ep) as Hk. unfold key_at in Hk.
    destruct (sd_heap s !! ref0) as [r|] eqn:Er; [|done]. apply (inj Some) in Hk.
    destruct (negb _); intros [= <- <-].
    + split; [|split; [done|split; [|done]]].
      * apply (set_record_inv ref0 r); [by apply dispose_inv|done|done|].
        split; simpl; [lia|done|by left|constructor].
      * eexists. split; [by apply (heap_set _ r)|exact Hk].
    + split; [done|]. split; [done|]. split; [by exists r|done].
  - destruct (negb _); [done|]. destruct (_ <=? _); [done|]. destruct (_ <=? _)%nat eqn:El; [done|].
    apply Nat.leb_gt in El. intros [= <- <-]. simpl.
    assert (∀ x k, key_at s x = Some k → fmap pc_key ((sd_heap s ++ [fresh_pending o]) !! x) = Some k) as Hkeep.
    { unfold key_at. intros x k Hx. destruct (sd_heap s !! x) as [r|] eqn:Er; [|done]. by rewrite (lookup_app_l_Some _ _ _ _ Er). }
    split; [|split; [by rewrite lookup_insert_eq|split; [|done]]].
    + apply (inv_frame s); try done; simpl.
      * intros k x. rewrite lookup_insert_Some. intros [[<- <-]|[_ Hp]].
        -- unfold key_at. simpl. by rewrite list_lookup_middle.
        -- apply Hkeep. by apply (si_pending _ Hi).
      * rewrite map_size_insert_None by done. lia.
      * apply Forall_app. split; [apply (si_ok _ Hi)|]. by apply Forall_singleton, fresh_pending_ok.
    + exists (fresh_pending o). by rewrite list_lookup_middle.
Qed.

Lemma offer_inv o s : sched_inv s → sched_inv (offer_with_result lim o s).2.
Proof.
  intros Hi. unfold offer_with_result. destruct (bool_decide _); [by apply dispose_inv|].
  destruct (record_for lim o s) as [reason|[ref s1]] eqn:Er; [by apply dispose_inv|].
  destruct (record_for_inv _ _ _ _ Hi Er) as (Hi1 & Hp & (r & Hr & Hk) & _).
  destruct (offered_tokens o) as [|x tokens]; [by apply dispose_inv, delete_pending_inv|]. rewrite Hr.
  destruct (merge_sources_frame r (x :: tokens)) as [Mk _].
  pose proof (merge_sources_ok r (x :: tokens) (heap_ok _ _ _ Hi1 Hr)) as Hok.
  set (m := merge_sources lim r (x :: tokens)) in *. cbv zeta.
  assert (∀ r', pc_key r' = pc_key (mg_record m) → pc_sources r' = pc_sources (mg_record m) →
                pc_bytes r' = pc_bytes (mg_record m) → sched_inv (set_record ref r' s1)) as Hset.
  { intros r' E1 E2 E3. apply (set_record_inv ref r); [done|done|congruence|].
    destruct Hok as [O1 O2 O3 O4]. split; rewrite ?E2, ?E3; done. }
  destruct (mg_added m =? 0)%nat; cbn [snd].
  - destruct (_ && _); [apply delete_pending_inv|]; by apply dispose_inv, Hset.
  - destruct (pc_queued _); [by apply Hset|]. by apply ready_inv, Hset.
Qed.

Lemma cancel_inv key s : sched_inv s → sched_inv (cancel_chat key s).2.
Proof.
  intros Hi. pose proof (delete_pending_inv key s Hi) as []. unfold cancel_chat. by destruct (_ ≫= _).
Qed.

(** ** Workers keep the invariant *)

Lemma queued_ok r b : pending_ok r → pending_ok (r <| pc_queued := b |>).
Proof. by intros []. Qed.

Lemma retire_heap_ok ref s : Forall pending_ok (sd_heap s) → Forall pending_ok (sd_heap (retire ref s)).
Proof.
  intros Ho. unfold retire. destruct (sd_heap s !! ref) as [r|] eqn:Er; [|done].
  destruct (negb _); [done|]. destruct (unreported r); [done|]. destruct (pc_queued r); [done|]. simpl.
  apply Forall_insert; [done|]. by apply queued_ok, (Forall_lookup_1 _ _ _ _ Ho Er).
Qed.

Lemma finish_heap_ok ref s : Forall pending_ok (sd_heap s) → Forall pending_ok (sd_heap (finish_record ref s)).
Proof. intros Ho. unfold finish_record. destruct (sd_heap s !! ref); [|done]. by apply retire_heap_ok. Qed.

Lemma retire_inv ref s : sched_inv s → sched_inv (retire ref s).
Proof.
  intros Hi. unfold retire. destruct (sd_heap s !! ref) as [r|] eqn:Er; [|done].
  destruct (negb _); [done|]. destruct (unreported r); [by apply delete_pending_inv|].
  destruct (pc_queued r); [done|]. apply ready_inv, (set_record_inv ref r); [done..|].
  by apply queued_ok, (heap_ok s ref).
Qed.

Lemma active_more_inv key s : sched_inv s → sched_inv (s <| sd_active ::= (λ a, {[key]} ∪ a) |>).
Proof.
  intros [I1 I2 I3 I4 I5]. split; try done. intros i x Hb. destruct (I2 i x Hb) as (k & Hk & Hin). exists k.
  split; [done|]. simpl. set_solver.
Qed.

(** A chat no worker handles may leave the active set. *)
Lemma active_less_inv key s :
  sched_inv s → (∀ i ref', busy s i ref' → key_at s ref' ≠ Some key) → sched_inv (s <| sd_active ::= (λ a, a ∖ {[key]}) |>).
Proof.
  intros [I1 I2 I3 I4 I5] Hfree. split; try done. intros i x Hb. destruct (I2 i x Hb) as (k & Hk & Hin). exists k.
  split; [done|]. simpl. apply elem_of_difference. split; [done|]. intros ->%elem_of_singleton. by apply (Hfree _ _ Hb).
Qed.

Lemma raise_inv lane_key revision s : sched_inv s → sched_inv (raise_evaluated lane_key revision s).
Proof. by intros []. Qed.

Lemma finish_inv ref r s :
  sched_inv s → sd_heap s !! ref = Some r → (∀ i ref', busy s i ref' → key_at s ref' ≠ Some (pc_key r)) →
  sched_inv (finish_record ref s).
Proof. intros Hi Hr Hfree. unfold finish_record. rewrite Hr. by apply retire_inv, raise_inv, active_less_inv. Qed.

Lemma release_worker_inv i s : sched_inv s → sched_inv (set_worker i None s).
Proof.
  intros [I1 I2 I3 I4 I5].
  assert (∀ j ref, busy (set_worker i None s) j ref → busy s j ref ∧ j ≠ i) as Hb.
  { intros j ref [o Ho]. unfold set_worker in Ho. simpl in Ho. destruct (decide (j = i)) as [->|Hne].
    - apply list_lookup_insert_Some in Ho. naive_solver.
    - rewrite list_lookup_insert_ne in Ho by done. split; [by exists o|done]. }
  split; try done.
  - intros j ref [Hj _]%Hb. by apply (I2 j).
  - intros j j' ref ref' [Hj _]%Hb [Hj' _]%Hb. by apply I3.
Qed.

Lemma released_free i s ref r o :
  sched_inv s → sd_workers s !! i = Some (Some (ref, o)) → sd_heap s !! ref = Some r →
  ∀ j ref', busy (set_worker i None s) j ref' → key_at s ref' ≠ Some (pc_key r).
Proof.
  intros Hi Hw Hr j ref' [o' Ho'] Hk. unfold set_worker in Ho'. simpl in Ho'. destruct (decide (j = i)) as [->|Hne].
  - apply list_lookup_insert_Some in Ho'. naive_solver.
  - rewrite list_lookup_insert_ne in Ho' by done. apply Hne, (si_one _ Hi j i ref' ref); [by eexists..|].
    rewrite Hk. unfold key_at. by rewrite Hr.
Qed.

Lemma worker_done_inv i failed s s' : sched_inv s → worker_done i failed s = Some s' → sched_inv s'.
Proof.
  intros Hi. unfold worker_done. destruct (sd_workers s !! i) as [[[ref o]|]|] eqn:Ew; [|done..]. intros [= <-].
  destruct (si_busy _ Hi i ref ltac:(by eexists)) as (k & Ek & _). unfold key_at in Ek.
  destruct (sd_heap s !! ref) as [r|] eqn:Er; [|done].
  pose proof (release_worker_inv i _ Hi). pose proof (released_free i s ref r o Hi Ew Er).
  destruct failed; apply (finish_inv ref r); try done. by apply dispose_inv.
Qed.

(** A free worker that takes a chat no one handles. *)
Lemma take_worker_inv i ref r o s :
  sched_inv s → sd_workers s !! i = Some None → sd_heap s !! ref = Some r → pc_key r ∈ sd_active s →
  (∀ j ref', busy s j ref' → key_at s ref' ≠ Some (pc_key r)) → sched_inv (set_worker i (Some (ref, o)) s).
Proof.
  intros [I1 I2 I3 I4 I5] Hw Hr Hin Hfree.
  assert (key_at s ref = Some (pc_key r)) as Ek by (unfold key_at; by rewrite Hr).
  assert (∀ j x, busy (set_worker i (Some (ref, o)) s) j x → (j = i ∧ x = ref) ∨ busy s j x) as Hb.
  { intros j x [o' Ho']. unfold set_worker in Ho'. simpl in Ho'. apply list_lookup_insert_Some in Ho'.
    destruct Ho' as [(-> & Hx & _)|[_ Ho']]; [left; naive_solver|right; by exists o']. }
  split; try done.
  - intros j x [[-> ->]|Hj]%Hb; [by exists (pc_key r)|]. by apply (I2 j).
  - intros j j' x x' Hj Hj' E. change (key_at s x = key_at s x') in E.
    apply Hb in Hj', Hj. destruct Hj as [[-> ->]|Hj].
    + destruct Hj' as [[-> ->]|Hj']; [done|]. destruct (Hfree _ _ Hj'). congruence.
    + destruct Hj' as [[-> ->]|Hj']; [|by apply (I3 _ _ x x')]. destruct (Hfree _ _ Hj). congruence.
Qed.

Lemma worker_take_inv i now s s' : sched_inv s → worker_take lim i now s = Some s' → sched_inv s'.
Proof.
  intros Hi. unfold worker_take. destruct (sd_workers s !! i) as [[|]|] eqn:Ew; [done| |done].
  destruct (sd_ready s) as [|key rest] eqn:Eready; [done|]. destruct (negb _); [done|]. cbv zeta.
  set (s1 := s <| sd_ready := rest |>). assert (sched_inv s1) as Hi1 by (by destruct Hi).
  destruct (sd_pending s1 !! key ≫= _) as [[ref r]|] eqn:Ep; [|by intros [= <-]].
  apply bind_Some in Ep as (x & Ep & Er). apply fmap_Some in Er as (y & Er & Exy). injection Exy as <- <-.
  pose proof (si_pending _ Hi1 _ _ Ep) as Ek. unfold key_at in Ek. rewrite Er in Ek. apply (inj Some) in Ek.
  set (r1 := r <| pc_queued := false |>).
  assert (sched_inv (set_record ref r1 s1)) as Hi2.
  { apply (set_record_inv ref r); [done..|]. by apply queued_ok, (heap_ok s1 ref). }
  destruct (bool_decide (key ∈ sd_active (set_record ref r1 s1))) eqn:Ea; [by intros [= <-]|]. apply bool_decide_eq_false in Ea.
  set (r2 := r1 <| pc_reported ::= (λ l, l ++ pc_sources r1) |>).
  set (s3 := set_record ref r2 _).
  assert (sched_inv s3) as Hi3.
  { apply (set_record_inv ref r1); [|by apply (heap_set ref r)|done|].
    - by apply active_more_inv.
    - destruct (heap_ok s ref r Hi Er) as [Q1 Q2 Q3 Q4]. by split. }
  assert (sd_heap s3 !! ref = Some r2) as Hr2 by (apply (heap_set ref r1), (heap_set ref r), Er).
  assert (∀ j x, busy s3 j x → key_at s3 x ≠ Some (pc_key r2)) as Hfree.
  { intros j x Hb Hx. destruct (si_busy _ Hi2 j x Hb) as (k & Hk & Hin).
    assert (key_at s3 x = Some k) as Hx' by (unfold s3; by rewrite (key_at_set ref r1) by (done || by apply (heap_set ref r))).
    rewrite Hx in Hx'. injection Hx' as <-. apply Ea. by rewrite <- Ek. }
  destruct (lm_ttl_ms lim <? _); intros [= <-].
  - apply (finish_inv ref r2); [by apply dispose_inv|done|done].
  - apply (take_worker_inv i ref r2); [by apply dispose_inv|done|done| |done].
    simpl. rewrite <- Ek. set_solver.
Qed.

(** ** Every run *)

Lemma stop_fold_heap ws s : Forall pending_ok (sd_heap s) → Forall pending_ok (sd_heap (foldl cancel_worker s ws)).
Proof.
  revert s. induction ws as [|w ws IH]; intros s Ho; simpl; [done|]. apply IH.
  destruct w as [[ref o]|]; simpl; [|done]. by apply finish_heap_ok.
Qed.

Lemma cleared_worker (l : list pool_worker) i w : map (λ _, None : pool_worker) l !! i ≠ Some (Some w).
Proof. rewrite list_lookup_fmap. by destruct (l !! i). Qed.

Lemma stop_inv s : sched_inv s → sched_inv (scheduler_stop s).
Proof.
  intros Hi. unfold scheduler_stop. split; simpl.
  - intros k ref. by rewrite lookup_empty.
  - intros i ref [o Ho]. by apply cleared_worker in Ho.
  - intros i j ref ref' [o Ho]. by apply cleared_worker in Ho.
  - rewrite map_size_empty. lia.
  - apply stop_fold_heap, (si_ok _ Hi).
Qed.

Lemma step_inv op s : sched_inv s → sched_inv (sched_step lim op s).
Proof.
  intros Hi. destruct op as [o|key|key|key rv lane|i now|i failed| |]; simpl.
  - by apply offer_inv.
  - by apply cancel_inv.
  - by destruct Hi.
  - by destruct Hi.
  - destruct (worker_take lim i now s) as [s'|] eqn:E; simpl; [|done]. by apply (worker_take_inv i now s).
  - destruct (worker_done i failed s) as [s'|] eqn:E; simpl; [|done]. by apply (worker_done_inv i failed s).
  - unfold scheduler_start. destruct (sd_running s); [done|]. by destruct Hi.
  - by apply stop_inv.
Qed.

Lemma new_inv n : sched_inv (new_scheduler n).
Proof.
  split; simpl.
  - intros k ref. by rewrite lookup_empty.
  - intros i ref [o [? _]%lookup_replicate]. done.
  - intros i j ref ref' [o [? _]%lookup_replicate]. done.
  - rewrite map_size_empty. lia.
  - constructor.
Qed.

Lemma run_inv ops s : sched_inv s → sched_inv (sched_run lim ops s).
Proof. revert s. induction ops as [|op ops IH]; intros s Hi; simpl; [done|]. by apply IH, step_inv. Qed.

(** ** No chat is left behind *)

(** A chat is handled by a worker that holds its pending record, and a pending chat is either
    handled or waits in the ready queue. [k] is exempt from the latter. *)
Record settled_but (k0 : option (string * string)) (s : scheduler) : Prop := {
  sb_active : ∀ k, k ∈ sd_active s → ∃ i ref, busy s i ref ∧ sd_pending s !! k = Some ref;
  sb_waits : ∀ k ref r, sd_pending s !! k = Some ref → sd_heap s !! ref = Some r → Some k ≠ k0 →
    k ∈ sd_active s ∨ pc_queued r = true;
  sb_queued : ∀ k ref r, sd_pending s !! k = Some ref → sd_heap s !! ref = Some r → pc_queued r = true → k ∈ sd_ready s;
}.

Abbreviation pool_settled := (settled_but None).

(** The chat [k] itself is settled. *)
Lemma settle k s :
  settled_but (Some k) s →
  (∀ ref r, sd_pending s !! k = Some ref → sd_heap s !! ref = Some r → k ∈ sd_active s ∨ pc_queued r = true) → pool_settled s.
Proof.
  intros [S1 S2 S3] Hk. split; [done| |done]. intros k' ref r Hp Hr _. destruct (decide (k' = k)) as [->|Hne]; [by eauto|].
  apply (S2 k' ref r); [done..|]. congruence.
Qed.

Lemma exempt k s : pool_settled s → settled_but (Some k) s.
Proof. intros [S1 S2 S3]. split; [done| |done]. intros k' ref r Hp Hr _. by apply (S2 k' ref r). Qed.

(** Two chats never share a record. *)
Lemma other_record s k k' ref ref' :
  sched_inv s → sd_pending s !! k = Some ref → sd_pending s !! k' = Some ref' → k' ≠ k → ref' ≠ ref.
Proof.
  intros Hi Hp Hp' Hne ->. apply (si_pending _ Hi) in Hp, Hp'. rewrite Hp in Hp'. by injection Hp' as ->.
Qed.

(** Writing the record of [k]. *)
Lemma set_record_settled k ref r' s :
  sched_inv s → sd_pending s !! k = Some ref → settled_but (Some k) s → (pc_queued r' = true → k ∈ sd_ready s) →
  settled_but (Some k) (set_record ref r' s).
Proof.
  intros Hi Hp [S1 S2 S3] Hq. split; [done| |]; simpl.
  - intros k' x y Hp' Hy Hne. rewrite list_lookup_insert_ne in Hy by (apply not_eq_sym, (other_record s k k'); congruence).
    by apply (S2 k' x y).
  - intros k' x y Hp' Hy. destruct (decide (k' = k)) as [->|Hne].
    + assert (x = ref) as -> by congruence. apply list_lookup_insert_Some in Hy as [(_ & <- & _)|[? _]]; done.
    + rewrite list_lookup_insert_ne in Hy by (apply not_eq_sym, (other_record s k k'); congruence). by apply (S3 k' x y).
Qed.

Lemma delete_settled k s : settled_but (Some k) s → k ∉ sd_active s → pool_settled (s <| sd_pending ::= delete k |>).
Proof.
  intros [S1 S2 S3] Hk. split; simpl.
  - intros k' Hin. destruct (S1 k' Hin) as (i & ref & Hb & Hp). exists i, ref. split; [done|].
    rewrite lookup_delete_ne; [done|]. by intros ->.
  - intros k' x y [Hne Hp]%lookup_delete_Some Hy _. apply (S2 k' x y); [done..|congruence].
  - intros k' x y [Hne Hp]%lookup_delete_Some. by apply S3.
Qed.

Lemma push_settled k0 k s : settled_but k0 s → settled_but k0 (s <| sd_ready ::= (λ l, l ++ [k]) |>).
Proof. intros [S1 S2 S3]. split; [done..|]. intros k' x y Hp Hy Hq. simpl. apply elem_of_app. left. by apply (S3 k' x y). Qed.

Lemma dispose_settled k0 what o s : settled_but k0 s → settled_but k0 (dispose what o s).
Proof. by intros []. Qed.

(** A merge that adds nothing holds nothing new. *)
Lemma merge_adds_nothing r tokens :
  mg_added (merge_sources lim r tokens) = 0%nat → ∀ x, x ∈ pc_sources (mg_record (merge_sources lim r tokens)) → x ∈ pc_sources r.
Proof.
  assert (∀ fuel mx size m, mg_added (make_room fuel mx size m) = mg_added m
    ∧ ∀ x, x ∈ pc_sources (mg_record (make_room fuel mx size m)) → x ∈ pc_sources (mg_record m)) as Hroom.
  { intros fuel mx size. induction fuel as [|fuel IH]; intros m; simpl; [done|]. destruct (_ && _); [|done].
    destruct (IH (drop_one m)) as [-> Hx]. split.
    - unfold drop_one, drop_oldest. by destruct (pc_sources (mg_record m)).
    - intros x Hin%Hx. rewrite drop_one_sources in Hin. destruct (pc_sources (mg_record m)); [done|]. simpl in Hin. set_solver. }
  unfold merge_sources. generalize (pc_sources r) at 1 2 as seen. intros seen.
  cut (∀ acc, (mg_added acc.1 = 0%nat → ∀ x, x ∈ pc_sources (mg_record acc.1) → x ∈ pc_sources r) →
     mg_added (foldl (merge_token lim) acc tokens).1 = 0%nat →
     ∀ x, x ∈ pc_sources (mg_record (foldl (merge_token lim) acc tokens).1) → x ∈ pc_sources r).
  { intros Hc. by apply Hc. }
  induction tokens as [|t tokens IH]; intros acc Hacc; simpl; [done|]. apply IH. clear IH.
  destruct acc as [m sn]. unfold merge_token. destruct (str_in t sn); [done|]. cbv zeta. cbn [fst] in *.
  set (m1 := if (lm_refs lim <=? _)%nat then drop_one m else m).
  assert (mg_added m1 = mg_added m ∧ ∀ x, x ∈ pc_sources (mg_record m1) → x ∈ pc_sources (mg_record m)) as [E1 H1].
  { unfold m1. destruct (_ <=? _)%nat; [|done]. split; [unfold drop_one, drop_oldest; by destruct (pc_sources (mg_record m))|].
    intros x. rewrite drop_one_sources. destruct (pc_sources (mg_record m)); [done|]. simpl. set_solver. }
  destruct (Hroom (length (pc_sources (mg_record m1))) (lm_bytes lim) (size_of t) m1) as [E2 H2].
  destruct (lm_bytes lim <? _); simpl; [|done]. rewrite E2, E1. intros Ha x Hx. apply Hacc; [done|]. apply H1, H2, Hx.
Qed.

Lemma unreported_sources r : pc_sources r = [] → unreported r = [].
Proof. unfold unreported. by intros ->. Qed.

(** The record an offer goes to: its chat is settled already, or the record is new and empty. *)
Lemma record_for_settled o s ref s1 :
  sched_inv s → pool_settled s → record_for lim o s = inr (ref, s1) →
  settled_but (Some (op_key o)) s1
  ∧ ∀ r, sd_heap s1 !! ref = Some r → op_key o ∈ sd_active s1 ∨ pc_queued r = true ∨ pc_sources r = [].
Proof.
  intros Hi Hs. unfold record_for. destruct (sd_pending s !! op_key o) as [ref0|] eqn:Ep.
  - pose proof (si_pending _ Hi _ _ Ep) as Hk. unfold key_at in Hk.
    destruct (sd_heap s !! ref0) as [r|] eqn:Er; [|done]. destruct (negb _); intros [= <- <-].
    + split.
      * apply set_record_settled; [by apply dispose_inv|done|by apply dispose_settled, exempt|]. simpl. by apply (sb_queued _ _ Hs _ ref0).
      * intros r'. rewrite (heap_set ref0 r) by done. intros [= <-]. by right; right.
    + split; [by apply exempt|]. intros r'. rewrite Er. intros [= <-].
      destruct (sb_waits _ _ Hs _ _ _ Ep Er ltac:(done)); auto.
  - destruct (negb _); [done|]. destruct (_ <=? _); [done|]. destruct (_ <=? _)%nat; [done|]. intros [= <- <-]. split.
    + destruct Hs as [S1 S2 S3].
      assert (∀ k x y, sd_pending s !! k = Some x → (sd_heap s ++ [fresh_pending o]) !! x = Some y → sd_heap s !! x = Some y) as Hold.
      { intros k x y Hp Hy. pose proof (si_pending _ Hi _ _ Hp) as Hk. unfold key_at in Hk.
        destruct (sd_heap s !! x) as [z|] eqn:Ez; [|done]. by rewrite (lookup_app_l_Some _ _ _ _ Ez) in Hy. }
      split; simpl.
      * intros k Hin. destruct (S1 k Hin) as (i & x & Hb & Hp). exists i, x. split; [done|].
        rewrite lookup_insert_ne; [done|]. congruence.
      * intros k x y. rewrite lookup_insert_Some. intros [[<- _]|[_ Hp]] Hy Hne; [done|]. apply (S2 k x y); eauto.
      * intros k x y. rewrite lookup_insert_Some. intros [[_ <-]|[_ Hp]] Hy.
        -- rewrite list_lookup_middle in Hy by done. by injection Hy as <-.
        -- apply (S3 k x y); eauto.
    + intros r. simpl. rewrite list_lookup_middle by done. intros [= <-]. by right; right.
Qed.

(** Writing the record of [k]: the chat is settled when it is handled, or waits with the record. *)
Lemma write_settled k ref r r' s :
  sched_inv s → sd_pending s !! k = Some ref → sd_heap s !! ref = Some r → settled_but (Some k) s →
  (pc_queued r' = true → k ∈ sd_ready s) → k ∈ sd_active s ∨ pc_queued r' = true → pool_settled (set_record ref r' s).
Proof.
  intros Hi Hp Hr Hs Hq Hcase. apply (settle k); [by apply set_record_settled|].
  intros ref' x Hp' Hx. destruct Hcase as [|Hcase]; [by left|right]. assert (ref' = ref) as -> by (simpl in Hp'; congruence).
  rewrite (heap_set ref r) in Hx by done. by injection Hx as <-.
Qed.

Lemma set_record_push ref r f s : (set_record ref r s) <| sd_ready ::= f |> = set_record ref r (s <| sd_ready ::= f |>).
Proof. done. Qed.

Lemma offer_settled o s :
  sched_inv s → pool_settled s → (offered_tokens o = [] → op_key o ∉ sd_active s) → pool_settled (offer_with_result lim o s).2.
Proof.
  intros Hi Hs Hmat. unfold offer_with_result. destruct (bool_decide _); [by apply dispose_settled|].
  destruct (record_for lim o s) as [reason|[ref s1]] eqn:Er; [by apply dispose_settled|].
  destruct (record_for_inv _ _ _ _ Hi Er) as (Hi1 & Hp & (r & Hr & Hk) & _ & Ha & _).
  destruct (record_for_settled _ _ _ _ Hi Hs Er) as [Hs1 Hcase].
  destruct (offered_tokens o) as [|x tokens].
  { apply dispose_settled, delete_settled; [done|]. rewrite Ha. by apply Hmat. }
  rewrite Hr. destruct (merge_sources_frame r (x :: tokens)) as [_ Mq].
  pose proof (merge_adds_nothing r (x :: tokens)) as Hadd.
  set (m := merge_sources lim r (x :: tokens)) in *. cbv zeta.
  pose proof (sb_queued _ _ Hs1 _ _ _ Hp Hr) as Hq. specialize (Hcase r Hr).
  destruct (mg_added m =? 0)%nat eqn:Em; cbn [snd].
  - apply Nat.eqb_eq in Em. rewrite <- Mq in Hq, Hcase. set (s2 := dispose _ _ _).
    destruct (negb _ && _) eqn:Ecase.
    + apply andb_prop in Ecase as [Eact _]. apply negb_true_iff, bool_decide_eq_false in Eact.
      apply delete_settled; [|done]. by apply dispose_settled, set_record_settled.
    + apply dispose_settled, (write_settled (op_key o) ref r); [done..|].
      apply andb_false_iff in Ecase as [Eact|Eu].
      * left. by apply negb_false_iff, bool_decide_eq_true in Eact.
      * apply bool_decide_eq_false in Eu. destruct Hcase as [?|[?|Hnil]]; [by left|by right|]. destruct Eu.
        apply unreported_sources. destruct (pc_sources (mg_record m)) as [|y l]; [done|].
        specialize (Hadd Em y). rewrite Hnil in Hadd. set_solver.
  - set (r2 := (mg_record m) <| pc_revision ::= _ |> <| pc_last_ms := _ |> <| pc_trigger := _ |>).
    assert (pc_queued r2 = pc_queued r) as Eq2 by done. rewrite Eq2. destruct (pc_queued r) eqn:Eq.
    + apply (write_settled (op_key o) ref r); auto.
    + rewrite set_record_push. apply (write_settled (op_key o) ref r);
        [by apply ready_inv|done|done|by apply push_settled| |by right]. intros _. simpl. set_solver.
Qed.

Lemma cancel_settled key s : pool_settled s → key ∉ sd_active s → pool_settled (cancel_chat key s).2.
Proof.
  intros Hs Hk. pose proof (delete_settled key s (exempt key s Hs) Hk) as []. unfold cancel_chat. by destruct (_ ≫= _).
Qed.

(** Retiring the record of a chat that no one handles settles it. *)
Lemma retire_settled k ref r s :
  sched_inv s → sd_pending s !! k = Some ref → sd_heap s !! ref = Some r → settled_but (Some k) s → k ∉ sd_active s →
  pool_settled (retire ref s).
Proof.
  intros Hi Hp Hr Hs Hk. unfold retire. rewrite Hr.
  pose proof (si_pending _ Hi _ _ Hp) as Ek. unfold key_at in Ek. rewrite Hr in Ek. apply (inj Some) in Ek. rewrite Ek.
  rewrite bool_decide_true by done. cbn [negb]. destruct (unreported r); [by apply delete_settled|].
  destruct (pc_queued r) eqn:Eq.
  - apply (settle k); [done|]. intros x y Hx Hy. right. assert (x = ref) as -> by congruence. congruence.
  - rewrite set_record_push. apply (write_settled k ref r);
      [by apply ready_inv|done|done|by apply push_settled| |by right]. intros _. simpl. set_solver.
Qed.

(** The head of the ready queue is taken off and its record unmarked. *)
Lemma pop_settled key rest ref r s :
  sched_inv s → pool_settled s → sd_ready s = key :: rest → sd_pending s !! key = Some ref → sd_heap s !! ref = Some r →
  settled_but (Some key) (set_record ref (r <| pc_queued := false |>) (s <| sd_ready := rest |>)).
Proof.
  intros Hi [S1 S2 S3] Eready Hp Hr. split; [done| |]; simpl.
  - intros k x y Hp' Hy Hne. rewrite list_lookup_insert_ne in Hy by (apply not_eq_sym, (other_record s key k); congruence).
    by apply (S2 k x y).
  - intros k x y Hp' Hy Hq. destruct (decide (k = key)) as [->|Hne].
    + assert (x = ref) as -> by congruence. apply list_lookup_insert_Some in Hy as [(_ & <- & _)|[? _]]; done.
    + rewrite list_lookup_insert_ne in Hy by (apply not_eq_sym, (other_record s key k); congruence).
      pose proof (S3 k x y Hp' Hy Hq) as Hin. rewrite Eready in Hin. set_solver.
Qed.

Lemma pop_nothing_settled key rest s :
  pool_settled s → sd_ready s = key :: rest → sd_pending s !! key = None → pool_settled (s <| sd_ready := rest |>).
Proof.
  intros [S1 S2 S3] Eready Hp. split; [done..|]. intros k x y Hp' Hy Hq. simpl.
  pose proof (S3 k x y Hp' Hy Hq) as Hin. rewrite Eready in Hin. simpl in Hp'. set_solver.
Qed.

(** A worker that starts on the pending record of [key] settles it. *)
Lemma start_settled key i ref o s :
  settled_but (Some key) s → sd_pending s !! key = Some ref → sd_workers s !! i = Some None →
  pool_settled (set_worker i (Some (ref, o)) (s <| sd_active ::= (λ a, {[key]} ∪ a) |>)).
Proof.
  intros [S1 S2 S3] Hp Hw. apply (settle key).
  - split; simpl; [|intros k x y Hp' Hy Hne; destruct (S2 k x y Hp' Hy Hne); set_solver|done].
    intros k. rewrite elem_of_union, elem_of_singleton. unfold busy. simpl. intros [->|Hin].
    + exists i, ref. split; [|done]. exists o. apply list_lookup_insert_eq. by apply lookup_lt_Some in Hw.
    + destruct (S1 k Hin) as (j & x & [o' Hb] & Hp'). exists j, x. split; [|done]. exists o'.
      rewrite list_lookup_insert_ne; [done|]. congruence.
  - left. simpl. set_solver.
Qed.

(** The end of a handler settles its chat: nothing but the pending record is left to look at. *)
Lemma finish_settled key ref r s :
  sched_inv s → sd_pending s !! key = Some ref → sd_heap s !! ref = Some r →
  settled_but (Some key) (s <| sd_active ::= (λ a, a ∖ {[key]}) |>) →
  (∀ i ref', busy s i ref' → key_at s ref' ≠ Some key) → pool_settled (finish_record ref s).
Proof.
  intros Hi Hp Hr Hs Hfree. unfold finish_record. rewrite Hr.
  pose proof (si_pending _ Hi _ _ Hp) as Ek. unfold key_at in Ek. rewrite Hr in Ek. apply (inj Some) in Ek. rewrite Ek.
  apply (retire_settled key ref r); [|done|done| |simpl; set_solver].
  - by apply raise_inv, active_less_inv.
  - by destruct Hs.
Qed.

Lemma worker_take_settled i now s s' : sched_inv s → pool_settled s → worker_take lim i now s = Some s' → pool_settled s'.
Proof.
  intros Hi Hs. unfold worker_take. destruct (sd_workers s !! i) as [[|]|] eqn:Ew; [done| |done].
  destruct (sd_ready s) as [|key rest] eqn:Eready; [done|]. destruct (negb _); [done|]. cbv zeta.
  set (s1 := s <| sd_ready := rest |>). assert (sched_inv s1) as Hi1 by (by destruct Hi).
  destruct (sd_pending s1 !! key ≫= _) as [[ref r]|] eqn:Ep.
  2: { intros [= <-]. apply (pop_nothing_settled key rest); [done..|]. destruct (sd_pending s !! key) as [x|] eqn:Ex; [|done].
       pose proof (si_pending _ Hi _ _ Ex) as Ek. unfold key_at in Ek. change (sd_pending s1) with (sd_pending s) in Ep.
       change (sd_heap s1) with (sd_heap s) in Ep. rewrite Ex in Ep. simpl in Ep. by destruct (sd_heap s !! x). }
  apply bind_Some in Ep as (x & Ep & Er). apply fmap_Some in Er as (y & Er & Exy). injection Exy as <- <-.
  pose proof (pop_settled key rest ref r s Hi Hs Eready Ep Er) as Hs2.
  set (r1 := r <| pc_queued := false |>) in *. fold s1 in Hs2.
  assert (sched_inv (set_record ref r1 s1)) as Hi2.
  { apply (set_record_inv ref r); [done..|]. by apply queued_ok, (heap_ok s1 ref). }
  destruct (bool_decide (key ∈ sd_active (set_record ref r1 s1))) eqn:Ea.
  { intros [= <-]. apply bool_decide_eq_true in Ea. apply (settle key); [done|]. by left. }
  apply bool_decide_eq_false in Ea. set (r2 := r1 <| pc_reported ::= (λ l, l ++ pc_sources r1) |>).
  assert (settled_but (Some key) (set_record ref r2 (set_record ref r1 s1))) as Hs3 by (by apply set_record_settled).
  assert (sched_inv (set_record ref r2 (set_record ref r1 s1))) as Hi3.
  { apply (set_record_inv ref r1); [done|by apply (heap_set ref r)|done|].
    destruct (heap_ok s ref r Hi Er) as [Q1 Q2 Q3 Q4]. by split. }
  assert (sd_heap (set_record ref r2 (set_record ref r1 s1)) !! ref = Some r2) as Hr2 by (apply (heap_set ref r1), (heap_set ref r), Er).
  destruct (lm_ttl_ms lim <? _); intros [= <-].
  - apply (finish_settled key ref r2); [exact (dispose_inv _ _ _ (active_more_inv key _ Hi3))|done|done| |].
    2: { intros j x Hb Hx. destruct (si_busy _ Hi3 j x Hb) as (k & Hk & Hin).
         change (key_at (set_record ref r2 (set_record ref r1 s1)) x = Some key) in Hx.
         assert (k = key) as -> by congruence. by apply Ea. }
    destruct Hs3 as [T1 T2 T3]. split; simpl in *; [| |done].
    + intros k Hin. apply T1. set_solver.
    + intros k x y Hp Hy Hne. destruct (T2 k x y Hp Hy Hne); [left|by right]. set_solver.
  - exact (start_settled key i ref _ (dispose "started" _ (set_record ref r2 (set_record ref r1 s1))) (dispose_settled _ _ _ _ Hs3) Ep Ew).
Qed.

Lemma worker_done_settled i failed s s' : sched_inv s → pool_settled s → worker_done i failed s = Some s' → pool_settled s'.
Proof.
  intros Hi Hs. unfold worker_done. destruct (sd_workers s !! i) as [[[ref o]|]|] eqn:Ew; [|done..]. intros [= <-].
  assert (busy s i ref) as Hb by (by eexists). destruct (si_busy _ Hi i ref Hb) as (key & Ek & Hin).
  destruct (sb_active _ _ Hs key Hin) as (j & x & Hj & Hp). pose proof (si_pending _ Hi _ _ Hp) as Ex.
  assert (j = i) as -> by (apply (si_one _ Hi j i x ref Hj Hb); congruence).
  assert (x = ref) as -> by (destruct Hj as [o' Hj]; congruence).
  unfold key_at in Ek. destruct (sd_heap s !! ref) as [r|] eqn:Er; [|done]. apply (inj Some) in Ek.
  assert (settled_but (Some key) ((set_worker i None s) <| sd_active ::= (λ a, a ∖ {[key]}) |>)) as Hs1.
  { destruct Hs as [S1 S2 S3]. split; simpl; [| |done].
    - intros k [Hk Hne]%elem_of_difference. destruct (S1 k Hk) as (j & y & [o' Hj'] & Hp'). exists j, y. split; [|done].
      exists o'. simpl. rewrite list_lookup_insert_ne; [done|]. intros <-. rewrite Hj' in Ew. injection Ew as -> ->.
      apply (si_pending _ Hi) in Hp'. apply Hne, elem_of_singleton. congruence.
    - intros k y z Hp' Hz Hne. destruct (S2 k y z Hp' Hz ltac:(done)); [left|by right]. set_solver. }
  pose proof (release_worker_inv i _ Hi) as Hi1. pose proof (released_free i s ref r o Hi Ew Er) as Hfree. rewrite Ek in Hfree.
  destruct failed; apply (finish_settled key ref r); try done. 
  - by apply dispose_inv.
  - by destruct Hs1.
Qed.

(** A step that neither cancels a chat under its handler nor triggers it without material. *)
Definition undisturbed (op : sched_op) (s : scheduler) : Prop :=
  match op with
  | SCancel key => key ∉ sd_active s
  | SOffer o => offered_tokens o = [] → op_key o ∉ sd_active s
  | _ => True
  end.

Lemma step_settled op s : sched_inv s → pool_settled s → undisturbed op s → pool_settled (sched_step lim op s).
Proof.
  intros Hi Hs Hu. destruct op as [o|key|key|key rv lane|i now|i failed| |]; simpl in *.
  - by apply offer_settled.
  - by apply cancel_settled.
  - by destruct Hs.
  - by destruct Hs.
  - destruct (worker_take lim i now s) as [s'|] eqn:E; simpl; [|done]. by apply (worker_take_settled i now s).
  - destruct (worker_done i failed s) as [s'|] eqn:E; simpl; [|done]. by apply (worker_done_settled i failed s).
  - unfold scheduler_start. destruct (sd_running s); [done|]. by destruct Hs.
  - unfold scheduler_stop. split; simpl; [set_solver|..]; intros k ref r; by rewrite lookup_empty.
Qed.

Fixpoint undisturbed_run (ops : list sched_op) (s : scheduler) : Prop :=
  match ops with [] => True | op :: ops' => undisturbed op s ∧ undisturbed_run ops' (sched_step lim op s) end.

Lemma new_settled n : pool_settled (new_scheduler n).
Proof. split; simpl; [set_solver|..]; intros k ref r; by rewrite lookup_empty. Qed.

Lemma run_settled ops s : sched_inv s → pool_settled s → undisturbed_run ops s → pool_settled (sched_run lim ops s).
Proof.
  revert s. induction ops as [|op ops IH]; intros s Hi Hs; simpl; [done|]. intros [Hu Hrun].
  apply IH; [by apply step_inv|by apply step_settled|done].
Qed.

Lemma settled_pending s k ref :
  sched_inv s → pool_settled s → sd_pending s !! k = Some ref → (∃ i, busy s i ref) ∨ k ∈ sd_ready s.
Proof.
  intros Hi Hs Hp. pose proof (si_pending _ Hi _ _ Hp) as Ek. unfold key_at in Ek.
  destruct (sd_heap s !! ref) as [r|] eqn:Er; [|done]. destruct (sb_waits _ _ Hs _ _ _ Hp Er ltac:(done)) as [Hin|Hq].
  - left. destruct (sb_active _ _ Hs _ Hin) as (i & x & Hb & Hp'). assert (x = ref) as -> by congruence. by exists i.
  - right. by apply (sb_queued _ _ Hs _ ref r).
Qed.

(** ** Draining *)

Definition all_idle (s : scheduler) : Prop := Forall (λ w : pool_worker, w = None) (sd_workers s).

Lemma idle_busy s i ref : all_idle s → ¬ busy s i ref.
Proof. intros Hidle [o Ho]. by pose proof (Forall_lookup_1 _ _ _ _ Hidle Ho). Qed.

Lemma idle_active s : pool_settled s → all_idle s → sd_active s = ∅.
Proof.
  intros Hs Hidle. apply set_eq. intros k. split; [|set_solver]. intros Hin.
  destruct (sb_active _ _ Hs k Hin) as (i & ref & Hb & _). by apply (idle_busy s i ref) in Hb.
Qed.

Lemma retire_frame ref s :
  sd_workers (retire ref s) = sd_workers s ∧ sd_running (retire ref s) = sd_running s.
Proof.
  unfold retire. destruct (sd_heap s !! ref) as [r|]; [|done]. destruct (negb _); [done|].
  destruct (unreported r); [done|]. by destruct (pc_queued r).
Qed.

Lemma finish_keeps_pool ref s :
  sd_workers (finish_record ref s) = sd_workers s ∧ sd_running (finish_record ref s) = sd_running s.
Proof. unfold finish_record. destruct (sd_heap s !! ref); [|done]. by edestruct retire_frame as [-> ->]. Qed.

(** A record whose material was all handed over is not queued again. *)
Lemma finish_reported ref r s :
  sd_heap s !! ref = Some r → unreported r = [] → sd_ready (finish_record ref s) = sd_ready s.
Proof.
  intros Hr Hu. unfold finish_record. rewrite Hr. unfold retire. simpl. rewrite Hr. destruct (negb _); [done|]. by rewrite Hu.
Qed.

Lemma reported_all r : unreported (r <| pc_reported ::= (λ l, l ++ pc_sources r) |>) = [].
Proof.
  unfold unreported. simpl. destruct (List.filter _ _) as [|x l] eqn:E; [done|]. exfalso.
  assert (In x (x :: l)) as Hin by (by left). rewrite <- E in Hin. apply filter_In in Hin as [Hin Hn].
  apply negb_true_iff in Hn. apply not_true_iff_false in Hn. apply Hn, str_in_spec, elem_of_app. right. by apply list_elem_of_In.
Qed.

(** With every worker idle, one worker clears the head of the ready queue. *)
Lemma drain_one now key rest s :
  pool_settled s → all_idle s → sd_workers s ≠ [] → sd_running s = true → sd_ready s = key :: rest →
  let s' := sched_run lim [STake 0 now; SDone 0 false] s in
  sd_ready s' = rest ∧ all_idle s' ∧ sd_workers s' ≠ [] ∧ sd_running s' = true.
Proof.
  intros Hs Hidle Hne Hrun Eready. pose proof (idle_active s Hs Hidle) as Hact.
  assert (sd_workers s !! 0%nat = Some None) as Hw.
  { destruct (sd_workers s) as [|w ws] eqn:Ews; [done|]. unfold all_idle in Hidle. rewrite Ews in Hidle. by apply Forall_cons in Hidle as [-> _]. }
  assert (∀ s1, sd_ready s1 = rest → sd_workers s1 = sd_workers s → sd_running s1 = true →
    let s' := default s1 (worker_done 0 false s1) in
    sd_ready s' = rest ∧ all_idle s' ∧ sd_workers s' ≠ [] ∧ sd_running s' = true) as Hlast.
  { intros s1 E1 E2 E3. unfold worker_done. rewrite E2, Hw. simpl. unfold all_idle. by rewrite E2. }
  simpl. unfold worker_take. rewrite Hw, Eready, Hrun. cbn [negb]. cbv zeta.
  destruct (_ ≫= _) as [[ref r]|] eqn:Ep; [|by apply Hlast]. rewrite bool_decide_false by (simpl; rewrite Hact; set_solver).
  set (r1 := r <| pc_queued := false |>). set (r2 := r1 <| pc_reported ::= _ |>). set (s3 := set_record ref r2 _).
  assert (sd_heap s3 !! ref = Some r2) as Hr2.
  { apply bind_Some in Ep as (x & Ep & Er). apply fmap_Some in Er as (y & Er & Exy). injection Exy as <- <-.
    by apply (heap_set ref r1), (heap_set ref r). }
  assert (∀ s4, sd_heap s4 !! ref = Some r2 → sd_ready s4 = rest → sd_ready (finish_record ref s4) = rest) as Hfin.
  { intros s4 H4 E4. rewrite (finish_reported ref r2); [done..|]. apply (reported_all r1). }
  destruct (lm_ttl_ms lim <? _); cbn [default from_option id].
  - destruct (finish_keeps_pool ref (dispose "expired" (as_opportunity r1) s3)) as [Fw Fr]. apply Hlast; [by apply Hfin|by rewrite Fw|by rewrite Fr].
  - set (s4 := set_worker _ _ _). assert (sd_workers s4 !! 0%nat = Some (Some (ref, as_opportunity r1))) as Hw4.
    { unfold s4, set_worker. simpl. apply list_lookup_insert_eq. by apply lookup_lt_Some in Hw. }
    unfold worker_done. rewrite Hw4. simpl default. destruct (finish_keeps_pool ref (set_worker 0 None s4)) as [Fw Fr].
    split; [by apply Hfin|]. unfold all_idle. rewrite Fw, Fr. unfold s4, set_worker. simpl. rewrite list_insert_insert_eq.
    rewrite list_insert_id by done. done.
Qed.

(** The steps of the pool alone. *)
Definition worker_op (op : sched_op) : bool := match op with STake _ _ | SDone _ _ => true | _ => false end.

Lemma worker_ops_undisturbed ops s : Forall (λ op, worker_op op = true) ops → undisturbed_run ops s.
Proof.
  revert s. induction ops as [|op ops IH]; intros s Hw; simpl; [done|]. apply Forall_cons in Hw as [Hop Hw].
  split; [by destruct op|by apply IH].
Qed.

Lemma run_app ops1 ops2 s : sched_run lim (ops1 ++ ops2) s = sched_run lim ops2 (sched_run lim ops1 s).
Proof. apply foldl_app. Qed.

Lemma drain_ready (now : Z) s :
  sched_inv s → pool_settled s → all_idle s → sd_workers s ≠ [] → sd_running s = true →
  ∃ work, Forall (λ op, worker_op op = true) work ∧ sd_ready (sched_run lim work s) = [] ∧ all_idle (sched_run lim work s).
Proof.
  intros Hi Hs Hidle Hne Hrun. remember (sd_ready s) as l eqn:El. revert s Hi Hs Hidle Hne Hrun El.
  induction l as [|key rest IH]; intros s Hi Hs Hidle Hne Hrun El; [by exists []|].
  destruct (drain_one now key rest s Hs Hidle Hne Hrun ltac:(done)) as (Hr & Hd & Hn & Hg).
  set (two := [STake 0 now; SDone 0 false]) in *.
  assert (Forall (λ op, worker_op op = true) two) as Htwo by (by repeat constructor).
  destruct (IH (sched_run lim two s)) as (work & Hw & Hdone); [|by apply run_settled, worker_ops_undisturbed|done..|].
  { by apply run_inv. }
  exists (two ++ work). rewrite run_app. split; [by apply Forall_app|done].
Qed.

Lemma done_step i s :
  sd_workers (sched_step lim (SDone i false) s) = <[i := None]> (sd_workers s)
  ∧ sd_running (sched_step lim (SDone i false) s) = sd_running s.
Proof.
  simpl. unfold worker_done. destruct (sd_workers s !! i) as [[[ref o]|]|] eqn:Ew; simpl.
  - by edestruct finish_keeps_pool as [-> ->].
  - by rewrite list_insert_id.
  - by rewrite list_insert_ge by (by apply lookup_ge_None in Ew).
Qed.

(** Every handler comes back. *)
Lemma all_done n s :
  length (sd_workers s) = n →
  let s' := sched_run lim (map (λ i, SDone i false) (seq 0 n)) s in
  all_idle s' ∧ length (sd_workers s') = n ∧ sd_running s' = sd_running s.
Proof.
  intros Hlen.
  cut (∀ m k s0, length (sd_workers s0) = n → (k + m)%nat = n → Forall (λ w : pool_worker, w = None) (take k (sd_workers s0)) →
    let s' := sched_run lim (map (λ i, SDone i false) (seq k m)) s0 in
    all_idle s' ∧ length (sd_workers s') = n ∧ sd_running s' = sd_running s0).
  { intros Hc. apply (Hc n 0%nat s); [done..|]. rewrite take_0. constructor. }
  intros m. induction m as [|m IH]; intros k s0 Hl Hk Hf; simpl.
  - split; [|done]. unfold all_idle. rewrite take_ge in Hf by lia. done.
  - destruct (done_step k s0) as [Ew Eg]. destruct (IH (S k) (sched_step lim (SDone k false) s0)) as (H1 & H2 & H3).
    + by rewrite Ew, length_insert.
    + lia.
    + rewrite Ew. erewrite take_S_r by (apply list_lookup_insert_eq; lia). apply Forall_app. split; [|by constructor].
      by rewrite take_insert_ge by lia.
    + split; [done|]. split; [done|]. etrans; [apply H3|apply Eg].
Qed.

Lemma step_workers_length op s : length (sd_workers (sched_step lim op s)) = length (sd_workers s).
Proof.
  destruct op as [o|key|key|key rv lane|i now|i failed| |]; simpl; try done.
  - unfold offer_with_result. destruct (bool_decide _); [done|]. unfold record_for.
    repeat (case_match; simplify_eq/=; try done).
  - unfold cancel_chat. by destruct (_ ≫= _).
  - unfold worker_take. destruct (sd_workers s !! i) as [[|]|]; [done| |done]. destruct (sd_ready s); [done|]. destruct (negb _); [done|].
    cbv zeta. destruct (_ ≫= _) as [[ref r]|]; [|done]. destruct (bool_decide _); [done|]. destruct (_ <? _); simpl.
    + by edestruct finish_keeps_pool as [-> _].
    + by rewrite length_insert.
  - unfold worker_done. destruct (sd_workers s !! i) as [[[ref o]|]|]; [|done..]. simpl. edestruct finish_keeps_pool as [-> _].
    destruct failed; simpl; by rewrite length_insert.
  - unfold scheduler_start. by destruct (sd_running s).
  - unfold scheduler_stop. simpl. rewrite length_map.
    cut (∀ ws s0, sd_workers (foldl cancel_worker s0 ws) = sd_workers s0); [intros Hc; by rewrite Hc|].
    intros ws. induction ws as [|[[ref o]|] ws IH]; intros s0; simpl; [done| |done]. rewrite IH. by edestruct finish_keeps_pool as [-> _].
Qed.

Lemma run_workers_length ops s : length (sd_workers (sched_run lim ops s)) = length (sd_workers s).
Proof.
  revert s. induction ops as [|op ops IH]; intros s; simpl; [done|]. etrans; [apply IH|]. apply step_workers_length.
Qed.

(** Runs without cancellations in which every trigger has material are undisturbed. *)
Definition friendly (op : sched_op) : bool :=
  match op with SCancel _ => false | SOffer o => negb (bool_decide (offered_tokens o = [])) | _ => true end.

Lemma friendly_undisturbed ops s : forallb friendly ops = true → undisturbed_run ops s.
Proof.
  revert s. induction ops as [|op ops IH]; intros s; simpl; [done|]. intros [Hop Hops]%andb_prop. split; [|by apply IH].
  destruct op; simpl in *; try done. by apply negb_true_iff, bool_decide_eq_false in Hop.
Qed.

(** ** What the scheduler promises *)

(** C33: One chat never has two concurrent handlers: in every interleaving of producers and
    workers, two workers that are inside the handler with records of the same chat are the
    same worker - also when the chat was cancelled, released and offered again meanwhile. *)
Theorem one_handler_per_chat n ops i j ref ref' chat :
  let s := sched_run lim ops (new_scheduler n) in
  busy s i ref → busy s j ref' → key_at s ref = Some chat → key_at s ref' = Some chat → i = j.
Proof. intros s Hi Hj E E'. apply (si_one s (run_inv ops _ (new_inv n)) i j ref ref' Hi Hj). by rewrite E, E'. Qed.

(** The memory of the scheduler is bounded along every run: at most the configured number of
    chats is pending, and every record holds distinct references, no more of them and no
    more of their bytes than configured, with a byte count that is exact. *)
Theorem pending_bounded n ops :
  let s := sched_run lim ops (new_scheduler n) in
  (size (sd_pending s) ≤ lm_pending_chats lim)%nat
  ∧ ∀ key ref r, sd_pending s !! key = Some ref → sd_heap s !! ref = Some r → pending_ok r.
Proof.
  intros s. pose proof (run_inv ops _ (new_inv n)) as Hi. split; [apply (si_count _ Hi)|].
  intros key ref r _ Hr. by apply (heap_ok s ref).
Qed.

(** C34: No chat is left behind, and the pool alone clears the queue: in a run where no chat is
    cancelled under its handler or triggered without material, every pending chat is in a
    worker's hands or in the ready queue; and when the scheduler runs with a worker, steps
    of the workers alone lead to a state in which nothing is pending. *)
Theorem pool_drains n ops :
  (1 ≤ n)%nat → undisturbed_run ops (new_scheduler n) →
  let s := sched_run lim ops (new_scheduler n) in
  (∀ key ref, sd_pending s !! key = Some ref → (∃ i, busy s i ref) ∨ key ∈ sd_ready s)
  ∧ (sd_running s = true →
     ∃ work, Forall (λ op, worker_op op = true) work ∧ sd_pending (sched_run lim (ops ++ work) (new_scheduler n)) = ∅).
Proof.
  intros Hn Hu s. assert (sched_inv s) as Hi by apply run_inv, new_inv.
  assert (pool_settled s) as Hs by (apply run_settled; [apply new_inv|apply new_settled|done]).
  split; [intros key ref; by apply settled_pending|]. intros Hrun.
  assert (length (sd_workers s) = n) as Hlen by (unfold s; rewrite run_workers_length; simpl; by rewrite length_replicate).
  set (back := map (λ i, SDone i false) (seq 0 n)).
  assert (Forall (λ op, worker_op op = true) back) as Hback by (apply Forall_map, Forall_true; done).
  destruct (all_done n s Hlen) as (Hidle & Hlen' & Hrun'). fold back in Hidle, Hlen', Hrun'.
  assert (pool_settled (sched_run lim back s)) as Hs1 by (by apply run_settled, worker_ops_undisturbed).
  destruct (drain_ready 0 (sched_run lim back s)) as (work & Hw & Hready & Hd); [by apply run_inv|done|done| |congruence|].
  { intros E. rewrite E in Hlen'. simpl in Hlen'. lia. }
  exists (back ++ work). split; [by apply Forall_app|]. rewrite run_app. fold s. rewrite run_app.
  assert (pool_settled (sched_run lim work (sched_run lim back s))) as Hs2.
  { apply run_settled; [by apply run_inv|done|by apply worker_ops_undisturbed]. }
  apply map_empty. intros key. destruct (_ !! key) as [ref|] eqn:Ep; [|done].
  destruct (settled_pending _ key ref (run_inv work _ (run_inv back _ Hi)) Hs2 Ep) as [[i Hb]|Hin].
  - by apply idle_busy in Hb.
  - rewrite Hready in Hin. set_solver.
Qed.

End Props.

(** ** Witnesses and what goes wrong outside the promises *)

Definition small : limits := MkLimits 2 3 12 120000.
Definition trigger (chat : string) (sources : list string) (revision : Z) : ParticipationOpportunity :=
  MkOpportunity "" "whatsapp" chat "inbound" sources revision 1 1000 "production".
Abbreviation run_small ops := (sched_run (H := plain_sha256) small ops (new_scheduler 2)).

(** Two chats, two workers; more material for the first while it is handled. *)
Definition busy_run : list sched_op :=
  [SStart; SOffer (trigger "g1" ["a1"] 1); SOffer (trigger "g2" ["b1"] 1); STake 0 1000; STake 1 1000;
   SOffer (trigger "g1" ["a2"; "a1"] 2)].

Lemma one_handler_per_chat_witness :
  let s := run_small busy_run in
  busy s 0 0 ∧ busy s 1 1 ∧ (key_at s 0 = Some ("whatsapp", "g1") ∧ 0 = 0)%nat.
Proof.
  assert (busy (run_small busy_run) 0 0) as Hb by (eexists; vm_compute; reflexivity).
  assert (key_at (run_small busy_run) 0 = Some ("whatsapp", "g1")) as Ek by (vm_compute; reflexivity).
  split; [exact Hb|]. split; [eexists; vm_compute; reflexivity|]. split; [exact Ek|].
  exact (one_handler_per_chat (H := plain_sha256) small (le_n_S 0 2 (Nat.le_0_l 2)) 2 busy_run 0 0 0 0 _ Hb Hb Ek Ek).
Defined.

(** Four references where three fit, a third chat where two fit. *)
Definition full_run : list sched_op :=
  [SOffer (trigger "g1" ["a1"; "a2"; "a3"; "a4"] 1); SOffer (trigger "g2" ["b1"] 1); SOffer (trigger "g3" ["c1"] 1)].

Lemma pending_bounded_witness :
  let s := run_small full_run in
  pc_sources <$> sd_heap s !! 0%nat = Some ["a2"; "a3"; "a4"]
  ∧ sd_pending s !! ("whatsapp", "g3") = None ∧ (size (sd_pending s) ≤ lm_pending_chats small)%nat.
Proof.
  split; [vm_compute; reflexivity|]. split; [vm_compute; reflexivity|].
  exact (proj1 (pending_bounded (H := plain_sha256) small (le_n_S 0 2 (Nat.le_0_l 2)) 2 full_run)).
Defined.

Lemma pool_drains_witness :
  size (sd_pending (run_small busy_run)) = 2%nat
  ∧ ∃ work, Forall (λ op, worker_op op = true) work ∧ sd_pending (run_small (busy_run ++ work)) = ∅.
Proof.
  split; [vm_compute; reflexivity|].
  apply (pool_drains (H := plain_sha256) small ltac:(vm_compute; lia) 2 busy_run); [lia| |vm_compute; reflexivity].
  apply friendly_undisturbed. vm_compute. reflexivity.
Defined.

(** A chat is cancelled under its handler (a direct request supersedes it), released and
    triggered again while that handler still runs. The second worker skips it because the
    chat is active, and the first one does not queue it when it ends because the record is
    not its own: the new material is pending, unreported and in no queue, with every worker
    idle. *)
Theorem released_chat_stranded :
  let s := run_small [SStart; SOffer (trigger "g1" ["a1"] 1); STake 0 1000; SCancel ("whatsapp", "g1"); SRelease ("whatsapp", "g1");
                      SOffer (trigger "g1" ["a2"] 2); STake 1 1000; SDone 0 false] in
  sd_ready s = [] ∧ sd_workers s = [None; None] ∧ sd_active s = ∅
  ∧ (λ ref, unreported <$> sd_heap s !! ref) <$> sd_pending s !! ("whatsapp", "g1") = Some (Some ["a2"]).
Proof. repeat split; vm_compute; reflexivity. Qed.

(** A trigger without material takes the material of earlier triggers with it: the pending
    record is removed, and the worker that comes for it finds nothing. *)
Theorem empty_trigger_discards :
  let s := run_small [SStart; SOffer (trigger "g1" ["a1"] 1)] in
  let s' := sched_step (H := plain_sha256) small (SOffer (trigger "g1" [" "] 2)) s in
  sd_pending s !! ("whatsapp", "g1") = Some 0%nat ∧ sd_pending s' = ∅
  ∧ sd_workers (sched_step (H := plain_sha256) small (STake 0 1000) s') = [None; None].
Proof. repeat split; vm_compute; reflexivity. Qed.

(** A reference larger than the byte limit empties the record before it is dropped itself. *)
Theorem oversized_reference_evicts :
  let r := merge_sources small (fresh_pending (trigger "g1" [] 1)) ["a1"; "a2"] in
  let m := merge_sources small (mg_record r) ["0123456789abcdef"] in
  pc_sources (mg_record r) = ["a1"; "a2"] ∧ pc_sources (mg_record m) = [] ∧ mg_dropped m = ["a1"; "a2"; "0123456789abcdef"].
Proof. repeat split; vm_compute; reflexivity. Qed.
