(* ===== verification/Continuation.v ===== *)
(** * Continuation

    [processing/continuation.py] and its two callers in the gate of [processing/policy.py]:
    the confirmed replies a message of the same sender may continue, the choice among them
    by a language model, the thread a continued exchange is bound to, and [admit_async].

    The model's answer is a parameter; what is modelled is what the code does with any
    answer. Between the question and the answer other tasks run, so the state in which the
    message is then admitted is arbitrary. The history snapshot is the list of its visible
    current messages. *)

From Stdlib Require Import ZArith Lia Ascii.
From S2P Require Import Prelude Tables Json Models Schema Outbox ThreadStore Journal Receipts.
From S2P Require Import Authority Routing Registry Identity PolicyEngine Authorizer IngestGate SignalSink.

#[export] Instance eta_canonical : Updatable CanonicalEvent :=
  λ e, MkCanonicalEvent (ce_event_id e) (ce_event_key e) (ce_trace_id e) (ce_kind e) (ce_origin e) (ce_principal e) (ce_channel e)
    (ce_chat_id e) (ce_account e) (ce_direction e) (ce_revision e) (ce_audience_ref e) (ce_occurred_ms e) (ce_created_ms e)
    (ce_source_message_id e) (ce_target_message_id e) (ce_thread_id e) (ce_turn_id e) (ce_payload e) (ce_payload_hash e).

(** ** Reads of the store *)

(** The condition of [recent_reply_effects] on the receipt of an effect. *)
Definition chat_receipt (channel chat_id : string) (since_ms : Z) (e : effect_row) (r : receipt_row) : bool :=
  (rc_effect_id r =?s eff_effect_id e) && (rc_channel r =?s channel) && (rc_chat_id r =?s chat_id)
  && (since_ms <=? rc_confirmed_ms r) && is_some (rc_provider_message_id r).

Definition reply_rows (channel chat_id : string) (since_ms : Z) (s : db) : list effect_row :=
  select (λ e, row_exists (chat_receipt channel chat_id since_ms e) (transport_receipts s) && state_eqb (eff_state e) sent
               && (eff_payload_kind e =?s "text") && is_some (eff_payload_json e)) (effects s).

Fixpoint effects_from_rows (rows : list effect_row) : result (list StoredEffect) :=
  match rows with
  | [] => Ok []
  | row :: rows' =>
      let! e := effect_from_row row in
      let! rest := effects_from_rows rows' in
      Ok (e :: rest)
  end.

(** [recent_reply_effects], newest first *)
Definition recent_reply_effects (channel chat_id : string) (since_ms : Z) (limit : nat) (s : db) : result (list StoredEffect) :=
  effects_from_rows (take limit (order_by (λ a b, eff_created_ms b <=? eff_created_ms a) (reply_rows channel chat_id since_ms s))).

(** [COALESCE(occurred_ms, created_ms)] *)
Definition observed_ms (e : event_row) : Z := default (ev_created_ms e) (ev_occurred_ms e).

(** [recent_context_events], oldest first *)
Definition recent_context_events (channel chat_id : string) (since_ms before_ms : Z) (limit : nat) (s : db)
    : result (list CanonicalEvent) :=
  events_from_rows (rev (take limit (order_by
    (λ a b, (observed_ms b <? observed_ms a) || ((observed_ms a =? observed_ms b) && (ev_created_ms b <=? ev_created_ms a)))
    (select (λ e, (ev_channel e =?s channel) && (ev_chat_id e =?s chat_id) && (ev_kind e =?s "message")
                  && is_some (ev_payload_json e) && (since_ms <=? observed_ms e) && (observed_ms e <=? before_ms)
                  && negb (row_exists (λ a, (aut_event_id a =?s ev_event_id e) && is_some (aut_revoked_at_ms a))
                             (event_source_authority s))) (events s))))).

(** ** The history snapshot *)

Record history_message := MkHistory {
  hm_chat_id : string;
  hm_native_id : string;
  hm_current_text : option string;
  hm_sender_identifier : option string;
}.

(** [HistoryQueries.native_message]: the message, if the id names exactly one *)
Definition native_message (history : list history_message) (chat_id native_id : string) : option history_message :=
  match List.filter (λ m, (hm_chat_id m =?s chat_id) && (hm_native_id m =?s native_id)) history with
  | [m] => Some m
  | _ => None
  end.

(** ** The judge *)

(** What the client returned: an exception, or why it stopped and the decoded content. *)
Inductive judge_reply := JudgeFailed | JudgeReply (finish_reason : string) (content : option json).

(** [ContinuationJudge.choose] after the call *)
Definition choose (ids : list string) (reply : judge_reply) : option string :=
  match reply with
  | JudgeReply "stop" (Some (JObj d)) =>
      match dict_get "anchor_message_id" d with
      | Some (JStr selected) => if str_in selected ids then Some selected else None
      | _ => None
      end
  | _ => None
  end.

Record judge_question := MkQuestion {
  jq_text : string;
  jq_anchors : list (string * string * string);
  jq_context : list (string * string);
}.

(** ** The resolver *)

Record ContinuationResolver := MkResolver {
  cr_policy : ThreadPolicy;
  cr_context_limit : nat;
  cr_history : option (list history_message);
}.

Definition window_ms (ct : ContinuationResolver) (mentioned : bool) : Z :=
  if mentioned then Z.max (tpol_followup_window_ms (cr_policy ct)) (tpol_mention_continuation_window_ms (cr_policy ct))
  else tpol_followup_window_ms (cr_policy ct).

(** [getattr(effect.payload, "reply_to", None)] *)
Definition reply_target (e : StoredEffect) : option string :=
  match se_payload e with Some (TextPayload _ reply_to) => reply_to | _ => None end.

Definition effect_text (e : StoredEffect) : string :=
  match se_payload e with Some (TextPayload text _) => text | _ => "" end.

(** A message of this sender in this chat that still has its payload. *)
Definition own_message (event : CanonicalEvent) (aliases : list string) (source : CanonicalEvent) : bool :=
  (ce_channel source =?s ce_channel event) && (ce_chat_id source =?s ce_chat_id event) && (ce_direction source =?s "in")
  && (ce_kind source =?s "message") && str_in (ce_principal source) (ce_principal event :: aliases)
  && match ce_payload source with Some (_ :: _) => true | _ => false end.

(** The exchange in the words of the history snapshot, where there is one. *)
Definition current_words (ct : ContinuationResolver) (event source : CanonicalEvent) (target provider text : string)
    : option (CanonicalEvent * string) :=
  match cr_history ct with
  | Some history =>
      if ce_channel event =?s "whatsapp" then
        match native_message history (ce_chat_id event) (default target (nonempty (ce_source_message_id source))),
              native_message history (ce_chat_id event) provider with
        | Some human, Some bot =>
            Some (source <| ce_payload := Some [("text", JStr (default "" (hm_current_text human)))] |>
                         <| ce_principal := default (ce_principal source) (nonempty (hm_sender_identifier human)) |>,
                  default "" (hm_current_text bot))
        | _, _ => None
        end
      else Some (source, text)
  | None => Some (source, text)
  end.

Definition source_revoked (source : CanonicalEvent) (s : db) : bool :=
  match get_event_source_authority (ce_event_id source) (ce_revision source) s with
  | Some a => is_some (aut_revoked_at_ms a)
  | None => false
  end.

(** The thread of the reply, or else of the message it answered. *)
Definition exchange_thread (provider source_id : string) (s : db) : option string :=
  match resolve_reference (Some provider) s with
  | Some (thread_id, _) => Some thread_id
  | None => match event_assignment source_id s with Some (thread_id, _) => thread_id | None => None end
  end.

Definition thread_continues (event : CanonicalEvent) (thread_id : string) (s : db) : bool :=
  match get_thread thread_id s with
  | Some t => (th_state t =?s "open") && (th_channel t =?s ce_channel event) && (th_chat_id t =?s ce_chat_id event)
              && thread_sources_available thread_id s
  | None => false
  end.

(** The anchor of one sent reply, before duplicates are left out. *)
Definition anchor_for (ct : ContinuationResolver) (event : CanonicalEvent) (aliases : list string) (now_ms : Z) (s : db)
    (e : StoredEffect) : result (option ContinuationAnchor) :=
  match effect_transport_receipt (se_effect_id e) s with
  | None => Ok None
  | Some receipt =>
  match nonempty (rcp_provider_message_id receipt) with
  | None => Ok None
  | Some provider =>
  if now_ms <? rcp_confirmed_ms receipt then Ok None else
  let target := default "" (reply_target e) in
  let! rows := events_by_source_message target s in
  match last (List.filter (own_message event aliases) rows) with
  | None => Ok None
  | Some source0 =>
  match current_words ct event source0 target provider (effect_text e) with
  | None => Ok None
  | Some (source, bot_text) =>
  if source_revoked source s then Ok None else
  let thread_id := exchange_thread provider (ce_event_id source) s in
  let anchor := MkAnchor provider (se_effect_id e) bot_text source thread_id (rcp_confirmed_ms receipt) in
  match nonempty thread_id with
  | Some t => Ok (if thread_continues event t s then Some anchor else None)
  | None => Ok (if se_origin e =?s "participation" then Some anchor else None)
  end
  end
  end
  end
  end.

(** [key = thread_id or source.event_id] *)
Definition exchange_key (a : ContinuationAnchor) : string :=
  default (ce_event_id (can_source a)) (nonempty (can_thread_id a)).

(** The loop of [candidates]: one anchor per exchange *)
Fixpoint collect_anchors (ct : ContinuationResolver) (event : CanonicalEvent) (aliases : list string) (now_ms : Z) (s : db)
    (effects : list StoredEffect) (seen : list string) : result (list ContinuationAnchor) :=
  match effects with
  | [] => Ok []
  | e :: effects' =>
      let! found := anchor_for ct event aliases now_ms s e in
      match found with
      | Some a =>
          if str_in (exchange_key a) seen then collect_anchors ct event aliases now_ms s effects' seen
          else let! rest := collect_anchors ct event aliases now_ms s effects' (exchange_key a :: seen) in
               Ok (a :: rest)
      | None => collect_anchors ct event aliases now_ms s effects' seen
      end
  end.

(** [candidates] *)
Definition candidates (ct : ContinuationResolver) (event : CanonicalEvent) (aliases : list string) (now_ms : Z) (mentioned : bool)
    (s : db) : result (list ContinuationAnchor) :=
  let! effects := recent_reply_effects (ce_channel event) (ce_chat_id event) (now_ms - window_ms ct mentioned) 30 s in
  collect_anchors ct event aliases now_ms s effects [].

(** [value[:n]] in characters *)
Definition first_chars (n : nat) (s : string) : string := String.concat "" (take n (utf8_chars s)).

Definition payload_text (e : CanonicalEvent) : string := str_or_empty (dict_get "text" (event_payload e)).

(** Keeping the items a fallible predicate accepts. *)
Fixpoint keep_authorized {A} (p : A → result bool) (l : list A) : result (list A) :=
  match l with
  | [] => Ok []
  | x :: l' => let! b := p x in let! rest := keep_authorized p l' in Ok (if b then x :: rest else rest)
  end.

(** The context in the words of the history snapshot. *)
Definition current_context (ct : ContinuationResolver) (event : CanonicalEvent) (context : list CanonicalEvent) : list CanonicalEvent :=
  match cr_history ct with
  | Some history =>
      if ce_channel event =?s "whatsapp" then
        omap (λ item, (λ m, item <| ce_payload := Some [("text", JStr (default "" (hm_current_text m)))] |>)
                        <$> native_message history (ce_chat_id event) (default "" (ce_source_message_id item))) context
      else context
  | None => context
  end.

(** [resolve] up to the question: the candidates and what the judge is asked; [None]: no candidate *)
Definition resolve_question (ct : ContinuationResolver) (event : CanonicalEvent) (aliases : list string) (now_ms : Z)
    (source_authorized : CanonicalEvent → result bool) (mentioned : bool) (s : db)
    : result (option (list ContinuationAnchor * judge_question)) :=
  let! found := candidates ct event aliases now_ms mentioned s in
  let! allowed := keep_authorized (λ a, source_authorized (can_source a)) found in
  match allowed with
  | [] => Ok None
  | _ =>
      let! context := recent_context_events (ce_channel event) (ce_chat_id event) (now_ms - window_ms ct mentioned) now_ms
                        (cr_context_limit ct) s in
      let! readable := keep_authorized source_authorized
                         (List.filter (λ item, negb (ce_event_id item =?s ce_event_id event)) (current_context ct event context)) in
      Ok (Some (allowed,
        {| jq_text := payload_text event;
           jq_anchors := map (λ a, (can_message_id a, first_chars 4000 (can_text a), first_chars 2000 (payload_text (can_source a)))) allowed;
           jq_context := map (λ item, (if ce_direction item =?s "out" then "Arvid" else ce_principal item,
                                       first_chars 1000 (payload_text item))) readable |}))
  end.

(** [resolve] from the answer on *)
Definition resolve_answer (allowed : list ContinuationAnchor) (reply : judge_reply) : option ContinuationAnchor :=
  match choose (map can_message_id allowed) reply with
  | Some selected => List.find (λ a, can_message_id a =?s selected) allowed
  | None => None
  end.

Section Bind.
  Context `{Sha256}.

(** The thread of a participation exchange that has none. *)
Definition open_exchange (source : CanonicalEvent) (principal : string) (confirmed_ms now_ms : Z) : prog db (string * option string) :=
  let* thread_id := open_thread (ce_channel source) (ce_chat_id source) principal "group" (ce_event_id source) confirmed_ms in
  let* turn_id := open_turn thread_id principal (ce_event_id source) confirmed_ms "open" in
  do* add_turn_source turn_id (ce_event_id source) (ce_source_message_id source) "trigger" 1 confirmed_ms in
  do* attach_event_assignment (ce_event_id source) (Some thread_id) (Some turn_id) in
  do* close_turn turn_id now_ms "closed" in
  pret (thread_id, Some turn_id).

(** [bind] *)
Definition bind_anchor (a : ContinuationAnchor) (principal : string) (now_ms : Z) : prog db unit :=
  let* known := pget (resolve_reference (Some (can_message_id a))) in
  match known with
  | Some _ => pret tt
  | None =>
      let source := can_source a in
      let* place := match nonempty (can_thread_id a) with
                    | Some thread_id =>
                        let* assignment := pget (event_assignment (ce_event_id source)) in
                        pret (thread_id, match assignment with Some (_, turn_id) => turn_id | None => None end)
                    | None => open_exchange source principal (can_confirmed_ms a) now_ms
                    end in
      do* register_thread_message place.1 (can_confirmed_ms a) "out" place.2 None (Some (can_effect_id a)) None in
      let* _ := attach_confirmed_message_id (can_effect_id a) (can_message_id a) (can_confirmed_ms a) in
      pret tt
  end.

(** The resolver as the gate sees it. *)
Definition as_continuation (ct : ContinuationResolver) : Continuation :=
  MkContinuation (candidates ct) bind_anchor.

End Bind.

(** ** Asynchronous admission *)

(** The semantic reopener: its mode and the thread it finds for a text. *)
Record TopicReopen := MkReopen {
  tr_mode : string;
  tr_resolve : string → string → string → option string;
}.

(** A text that is neither empty nor a command. *)
Definition plain_text (content : string) : bool :=
  str_true (py_strip content) && negb (String.prefix "/" (py_strip content)).

(** The message carries a structural link already, or breaks with its topic. *)
Definition linked (e : InboundEvent) : bool :=
  is_some (nonempty (ie_reply_to_message_id e)) || ie_reply_to_bot e || opt_truthy (dict_get "topic_break" (ie_raw_metadata e)).

(** The gate with its collaborators, as the application composes them. *)
Definition wired_gate `{Sha256} (g : IngestGate) (ct : option ContinuationResolver) : IngestGate :=
  {| ig_config := ig_config g; ig_threads := ig_threads g; ig_evaluate := ig_evaluate g;
     ig_participation_owns := ig_participation_owns g; ig_direct_classifier := ig_direct_classifier g;
     ig_note_direct_admission := ig_note_direct_admission g; ig_cancel_chat := ig_cancel_chat g;
     ig_source_registrar := ig_source_registrar g; ig_continuation := as_continuation <$> ct; ig_names_bot := ig_names_bot g |}.

(** [_topic_reopen_candidate]; a failure counts as no *)
Definition topic_reopen_candidate (g : IngestGate) (healthy : bool) (now : Z) (r : IngestRequest) (s : db) : bool :=
  let e := in_event r in
  match ig_threads g with
  | None => false
  | Some rg =>
      plain_text (ie_content e) && enabled_for g (ie_channel e) (ie_chat_id e) && negb (shadowed g (ie_channel e) (ie_chat_id e))
      && negb (linked e) && healthy
      && match ig_evaluate g r with
         | Ok decision =>
             pd_accept_message decision && pd_should_respond decision
             && (let canonical := canonical_event r (bridge_canonical_identity r s) in
                 negb (match event_assignment (ce_event_id canonical) s with
                       | Some (thread_id, turn_id) => is_some (nonempty thread_id) || is_some (nonempty turn_id)
                       | None => false
                       end)
                 && let data := input_from_event canonical None None in
                    let routed := decide_join data (view_for rg data now s) in
                    jd_new_thread routed && is_none (jd_thread_id routed))
         | Raise _ => false
         end
  end.

(** [_with_topic_reopen]; in shadow mode the answer is only logged *)
Definition with_topic_reopen (g : IngestGate) (reopen : option TopicReopen) (healthy : bool) (now : Z) (r : IngestRequest) (s : db)
    : IngestRequest :=
  match reopen with
  | Some t =>
      if negb (topic_reopen_candidate g healthy now r s) || (tr_mode t =?s "shadow") then r
      else match nonempty (tr_resolve t (ie_channel (in_event r)) (ie_chat_id (in_event r)) (ie_content (in_event r))) with
           | Some thread_id =>
               MkIngest (in_event_key r) (in_event_id r) (in_trace_id r) (in_event r)
                 (dict_set "semantic_thread_id" (JStr thread_id) (in_payload_extra r))
           | None => r
           end
  | None => r
  end.

(** The message as the access policy sees a source: in the words of the source, by its own
    sender. *)
Definition source_request (r : IngestRequest) (principals : list string) (at_ms : Z) (source : CanonicalEvent) : IngestRequest :=
  MkIngest (in_event_key r) (in_event_id r) (in_trace_id r)
    (MkInbound (ce_channel source) (ce_chat_id source)
       (if str_in (ce_principal source) principals then ie_sender_id (in_event r) else ce_principal source)
       (payload_text source) None at_ms (ie_is_group (in_event r)) false false None None None [] []) (in_payload_extra r).

Section Async.
  Context `{Sha256}.

Record async_ticks := MkAsync { as_journal : Z; as_resolve : Z; as_source : Z }.

(** Which messages a continuation is looked for. *)
Definition free_form (g : IngestGate) (e : InboundEvent) : bool :=
  enabled_for g (ie_channel e) (ie_chat_id e) && negb (shadowed g (ie_channel e) (ie_chat_id e)) && ie_is_group e
  && negb (linked e) && plain_text (ie_content e) && negb (opt_truthy (dict_get "media_kind" (ie_raw_metadata e))).

(** [admit_async] up to the judge; [None]: admitted without asking *)
Definition admit_question (g : IngestGate) (ct : ContinuationResolver) (healthy : bool) (t : async_ticks) (r : IngestRequest)
    : prog gate_world (option (list ContinuationAnchor * judge_question)) :=
  let e := in_event r in
  if negb (free_form g e) then pret None else
  do* journal g r (as_journal t) in
  let probe := MkIngest (in_event_key r) (in_event_id r) (in_trace_id r) (e <| ie_reply_to_bot := true |>) (in_payload_extra r) in
  let* permission := (λ w, (ig_evaluate g probe, w)) in
  if negb healthy || negb (pd_accept_message permission) || negb (pd_should_respond permission)
     || negb (reply_action_for g (ie_channel e) (ie_chat_id e) =?s "answer") then pret None else
  let* identity := pget (λ w, bridge_canonical_identity r (gt_store w)) in
  let canonical := canonical_event r identity in
  let* assigned := pget (λ w, event_assignment (ce_event_id canonical) (gt_store w)) in
  if match assigned with Some (_, turn_id) => is_some (nonempty turn_id) | None => false end then pret None else
  let aliases := match identity with Some i => [ce_principal i] | None => [] end in
  let authorized := λ source,
    let! d := ig_evaluate g (source_request r (ce_principal canonical :: aliases) (as_source t) source) in
    Ok (pd_accept_message d) in
  or_else (pread (λ w, resolve_question ct canonical aliases (as_resolve t) authorized (ie_mentioned_bot e) (gt_store w))) None.

(** [admit_async]: [others] is what other tasks did to the state while the reopener (0) and
    the judge (1) were awaited *)
Definition admit_async (g0 : IngestGate) (ct : option ContinuationResolver) (reopen : option TopicReopen)
    (judge : judge_question → judge_reply) (others : nat → gate_world → gate_world) (now : Z) (asked admitted : PolicySnapshot)
    (ta : async_ticks) (t : gate_ticks) (r0 : IngestRequest) : prog gate_world (option FastGateResult) :=
  let g := wired_gate g0 ct in
  let* r := pget (λ w, with_topic_reopen g reopen (ps_healthy asked) now r0 (gt_store w)) in
  do* modify_gate (others 0%nat) in
  match ct with
  | None => gate_admit g admitted t r None
  | Some resolver =>
      let* question := admit_question g resolver (ps_healthy asked) ta r in
      match question with
      | None => gate_admit g admitted t r None
      | Some (allowed, q) =>
          do* modify_gate (others 1%nat) in
          gate_admit g admitted t r (resolve_answer allowed (judge q))
      end
  end.

End Async.
