(* ===== verification/ContinuationProps.v ===== *)
(** * ContinuationProps

    What a semantic continuation can and cannot do: whatever the language model answers and
    whatever other tasks do meanwhile, a message is only ever attached to a confirmed reply
    to a message of its own sender in its own chat, under the policy that holds at its
    admission; and binding an exchange gives it a thread in which the reply is found. *)

From Stdlib Require Import ZArith Lia Ascii.
From S2P Require Import Prelude Tables Json Models Schema Outbox ThreadStore Journal Receipts Gateway.
From S2P Require Import Authority Routing Registry Identity PolicyEngine Authorizer IngestGate GateProps SignalSink SignalProps.
From S2P Require Import Continuation.

(** ** Candidates *)

(** The exchange an anchor stands for, as the store has it. *)
Record own_exchange (ct : ContinuationResolver) (event : CanonicalEvent) (aliases : list string) (now_ms : Z) (mentioned : bool)
    (s : db) (a : ContinuationAnchor) : Prop := {
  (** a reply that was sent to this chat within the window *)
  ox_reply : ∃ e, e ∈ effects s ∧ eff_effect_id e = can_effect_id a ∧ eff_state e = sent ∧ eff_payload_kind e = "text"
    ∧ row_exists (chat_receipt (ce_channel event) (ce_chat_id event) (now_ms - window_ms ct mentioned) e) (transport_receipts s) = true
    ∧ (** whose quoted message is this sender's, in this chat *)
    ∃ d text target row, eff_payload_json e = Some d ∧ payload_from_mapping d = Ok (TextPayload text (Some target))
      ∧ row ∈ events s ∧ ev_event_id row = ce_event_id (can_source a) ∧ ev_source_message_id row = Some target
      ∧ ev_channel row = ce_channel event ∧ ev_chat_id row = ce_chat_id event ∧ ev_kind row = "message"
      ∧ ev_principal row ∈ ce_principal event :: aliases;
  (** the anchor's id is the one the transport confirmed, not later than now *)
  ox_receipt : ∃ rc, effect_transport_receipt (can_effect_id a) s = Some rc ∧ rcp_provider_message_id rc = Some (can_message_id a)
    ∧ str_true (can_message_id a) = true ∧ rcp_confirmed_ms rc = can_confirmed_ms a ∧ can_confirmed_ms a <= now_ms;
  (** the quoted message was not revoked *)
  ox_current : source_revoked (can_source a) s = false;
  (** its thread is open in this chat with all its sources, or it is participation without one *)
  ox_thread : match nonempty (can_thread_id a) with
              | Some t => thread_continues event t s = true
              | None => ∃ e, e ∈ effects s ∧ eff_effect_id e = can_effect_id a ∧ eff_origin e = "participation"
              end;
}.

Lemma nonempty_Some o x : nonempty o = Some x ↔ o = Some x ∧ str_true x = true.
Proof.
  unfold nonempty. destruct o as [y|]; [|by split; [|intros [? _]]].
  destruct (str_true y) eqn:E; split; [by intros [= <-]|by intros [[= <-] _]|done|intros [[= <-] ?]; congruence].
Qed.

Lemma effects_from_rows_elem rows es e :
  effects_from_rows rows = Ok es → e ∈ es → ∃ row, row ∈ rows ∧ effect_from_row row = Ok e.
Proof.
  revert es. induction rows as [|row rows IH]; intros es; cbn [effects_from_rows]; [intros [= <-] []%not_elem_of_nil|].
  intros (x & Ex & (l & El & [= <-])%rbind_Ok)%rbind_Ok [->|He]%elem_of_cons.
  - exists row. split; [left|done].
  - destruct (IH l El He) as (r & Hr & Hx). exists r. split; [by right|done].
Qed.

Lemma collect_anchors_sound ct event aliases now_ms s es seen l a :
  collect_anchors ct event aliases now_ms s es seen = Ok l → a ∈ l →
  (∃ e, e ∈ es ∧ anchor_for ct event aliases now_ms s e = Ok (Some a)) ∧ exchange_key a ∉ seen.
Proof.
  revert seen l. induction es as [|e es IH]; intros seen l; simpl; [intros [= <-] []%not_elem_of_nil|].
  intros ([b|] & Eb & Hx)%rbind_Ok Ha.
  - destruct (str_in (exchange_key b) seen) eqn:Es.
    + destruct (IH _ _ Hx Ha) as [(e' & He' & ?) ?]. split; [exists e'; split; [by right|done]|done].
    + apply rbind_Ok in Hx as (rest & Hrest & [= <-]). apply elem_of_cons in Ha as [->|Ha].
      * split; [exists e; split; [left|done]|]. intros Hin%str_in_spec. congruence.
      * destruct (IH _ _ Hrest Ha) as [(e' & He' & ?) Hk]. split; [exists e'; split; [by right|done]|]. set_solver.
  - destruct (IH _ _ Hx Ha) as [(e' & He' & ?) ?]. split; [exists e'; split; [by right|done]|done].
Qed.

Lemma collect_anchors_distinct ct event aliases now_ms s es seen l :
  collect_anchors ct event aliases now_ms s es seen = Ok l → NoDup (map exchange_key l).
Proof.
  revert seen l. induction es as [|e es IH]; intros seen l; simpl; [intros [= <-]; constructor|].
  intros ([b|] & Eb & Hx)%rbind_Ok; [|by apply (IH seen)].
  destruct (str_in (exchange_key b) seen); [by apply (IH seen)|]. apply rbind_Ok in Hx as (rest & Hrest & [= <-]). simpl.
  apply NoDup_cons. split; [|by apply (IH (exchange_key b :: seen))].
  intros (c & Ec & Hc)%list_elem_of_fmap. destruct (collect_anchors_sound _ _ _ _ _ _ _ _ _ Hrest Hc) as [_ Hn].
  apply Hn. rewrite Ec. left.
Qed.

Lemma own_message_spec event aliases source :
  own_message event aliases source = true →
  ce_channel source = ce_channel event ∧ ce_chat_id source = ce_chat_id event ∧ ce_kind source = "message"
  ∧ ce_principal source ∈ ce_principal event :: aliases.
Proof.
  unfold own_message. intros Hx. repeat (apply andb_true_iff in Hx as [Hx ?]).
  repeat match goal with H : (_ =?s _) = true |- _ => apply str_eqb_eq in H end.
  match goal with H : str_in _ _ = true |- _ => apply str_in_spec in H end. done.
Qed.

(** The words of the history do not change which message it is. *)
Lemma current_words_id ct event source target provider text source' text' :
  current_words ct event source target provider text = Some (source', text') → ce_event_id source' = ce_event_id source.
Proof.
  unfold current_words. destruct (cr_history ct) as [h|]; [|by intros [= <- _]]. destruct (_ =?s _); [|by intros [= <- _]].
  destruct (native_message h _ _); [|done]. destruct (native_message h _ _); [|done]. by intros [= <- _].
Qed.

Lemma source_rows_elem target s rows e :
  events_by_source_message target s = Ok rows → e ∈ rows →
  str_true target = true ∧ ∃ row, row ∈ events s ∧ ev_source_message_id row = Some target ∧ event_from_row row = Ok e.
Proof.
  unfold events_by_source_message. destruct (str_true target) eqn:Et; [|intros [= <-] []%not_elem_of_nil].
  intros Hrows He. split; [done|]. destruct (events_from_rows_elem _ _ _ Hrows He) as (row & Hrow & Hx). exists row.
  unfold source_rows in Hrow. apply elem_of_order_by, elem_of_select in Hrow as [Hrow Hm]. by apply opt_str_eqb_eq in Hm.
Qed.

Lemma event_from_row_place row e :
  event_from_row row = Ok e →
  ce_channel e = ev_channel row ∧ ce_chat_id e = ev_chat_id row ∧ ce_kind e = ev_kind row ∧ ce_principal e = ev_principal row
  ∧ ce_event_id e = ev_event_id row.
Proof. unfold event_from_row. intros (-> & _)%CanonicalEvent_check_ok. done. Qed.

Lemma recent_reply_elem channel chat_id since n s es e :
  recent_reply_effects channel chat_id since n s = Ok es → e ∈ es →
  ∃ row, row ∈ effects s ∧ effect_from_row row = Ok e ∧ eff_state row = sent ∧ eff_payload_kind row = "text"
         ∧ row_exists (chat_receipt channel chat_id since row) (transport_receipts s) = true.
Proof.
  unfold recent_reply_effects. intros Hes He. destruct (effects_from_rows_elem _ _ _ Hes He) as (row & Hrow & Hx).
  apply elem_of_take in Hrow as (i & Hi & _). apply list_elem_of_lookup_2, elem_of_order_by, elem_of_select in Hi as [Hin Hp].
  exists row. repeat (apply andb_true_iff in Hp as [Hp ?]). split; [done|]. split; [done|].
  split; [by destruct (eff_state row)|]. split; [by apply str_eqb_eq|done].
Qed.

Lemma effect_from_row_origin row e :
  effect_from_row row = Ok e → se_origin e = "participation" → eff_origin row = "participation".
Proof.
  unfold effect_from_row. intros (p & _ & (t & _ & [= <-])%rbind_Ok)%rbind_Ok. simpl. by destruct (str_true (eff_origin row)).
Qed.

(** What the text of a decoded effect was decoded from. *)
Lemma reply_target_row row e target :
  effect_from_row row = Ok e → reply_target e = Some target →
  ∃ d text, eff_payload_json row = Some d ∧ payload_from_mapping d = Ok (TextPayload text (Some target)).
Proof.
  intros (_ & _ & _ & _ & Hp & _)%effect_from_row_inv. unfold reply_target.
  destruct (se_payload e) as [[text rt| | | | |]|] eqn:Ep; try done. intros ->.
  destruct (Hp _ eq_refl) as (d & ? & ?). by exists d, text.
Qed.

Lemma anchor_for_sound ct event aliases now_ms mentioned s e row a :
  row ∈ effects s → effect_from_row row = Ok e → eff_state row = sent → eff_payload_kind row = "text" →
  row_exists (chat_receipt (ce_channel event) (ce_chat_id event) (now_ms - window_ms ct mentioned) row) (transport_receipts s) = true →
  anchor_for ct event aliases now_ms s e = Ok (Some a) → own_exchange ct event aliases now_ms mentioned s a.
Proof.
  intros Hrow He Hst Hkind Hrec. pose proof (proj1 (effect_from_row_inv _ _ He)) as Hid. unfold anchor_for.
  destruct (effect_transport_receipt (se_effect_id e) s) as [rc|] eqn:Erc; [|done].
  destruct (nonempty (rcp_provider_message_id rc)) as [provider|] eqn:Ep; [|done].
  apply nonempty_Some in Ep as [Ep Epn]. destruct (now_ms <? rcp_confirmed_ms rc) eqn:Et; [done|]. apply Z.ltb_ge in Et.
  cbv zeta. intros (rows & Erows & Hx)%rbind_Ok. destruct (last _) as [source0|] eqn:El; [|done].
  destruct (current_words ct event source0 _ provider _) as [[source text]|] eqn:Ew; [|done].
  destruct (source_revoked source s) eqn:Erv; [done|].
  apply last_Some_elem_of, list_elem_of_In, filter_In in El as [Hin%list_elem_of_In Hown].
  apply own_message_spec in Hown as (O1 & O2 & O3 & O4).
  destruct (source_rows_elem _ _ _ _ Erows Hin) as (Htn & erow & Herow & Hsm & Hev).
  apply event_from_row_place in Hev as (V1 & V2 & V3 & V4 & V5). apply current_words_id in Ew.
  assert (can_message_id a = provider ∧ can_effect_id a = se_effect_id e ∧ can_source a = source
          ∧ can_confirmed_ms a = rcp_confirmed_ms rc
          ∧ match nonempty (can_thread_id a) with Some t => thread_continues event t s = true
            | None => se_origin e = "participation" end) as (A1 & A2 & A3 & A4 & A5).
  { destruct (nonempty (exchange_thread _ _ s)) as [t|] eqn:Eth.
    - destruct (thread_continues event t s) eqn:Ec; [|done]. injection Hx as <-. simpl. by rewrite Eth.
    - destruct (se_origin e =?s "participation") eqn:Eo; [|done]. apply str_eqb_eq in Eo. injection Hx as <-. simpl. by rewrite Eth. }
  split.
  - exists row. split; [done|]. split; [congruence|]. do 3 (split; [done|]).
    destruct (reply_target e) as [target|] eqn:Etg; [|done]. simpl in *.
    destruct (reply_target_row _ _ _ He Etg) as (d & tx & ? & ?). exists d, tx, target, erow.
    rewrite A3. repeat split; congruence.
  - exists rc. rewrite A1, A2, A4. done.
  - by rewrite A3.
  - destruct (nonempty (can_thread_id a)); [done|]. exists row. split; [done|]. split; [congruence|].
    by apply (effect_from_row_origin _ _ He).
Qed.

Lemma candidates_sound ct event aliases now_ms mentioned s l a :
  candidates ct event aliases now_ms mentioned s = Ok l → a ∈ l → own_exchange ct event aliases now_ms mentioned s a.
Proof.
  unfold candidates. intros (es & Ees & Hl)%rbind_Ok Ha.
  destruct (collect_anchors_sound _ _ _ _ _ _ _ _ _ Hl Ha) as [(e & He & Hx) _].
  destruct (recent_reply_elem _ _ _ _ _ _ _ Ees He) as (row & ? & ? & ? & ? & ?). by apply (anchor_for_sound _ _ _ _ _ _ e row).
Qed.

(** ** Admission *)

Section Admission.
  Context `{Sha256}.

Lemma accepted_anchor g sn t r anchor d j w res w' :
  admit_accepted g sn t r anchor d j w = (Ok (Some res), w') → fg_continuation_anchor_id res = anchor.
Proof.
  intros Hx. unfold admit_accepted in Hx. cbv zeta in Hx.
  apply pbind_Ok in Hx as ([o am] & w1 & _ & Hx). apply pbind_Ok in Hx as (asg & w2 & _ & Hx).
  apply pbind_Ok in Hx as (fence & w3 & _ & Hx). apply pbind_Ok in Hx as (res' & w4 & Hr & Hx).
  injection Hx as <- <-. by apply record_result in Hr as (_ & _ & _ & _ & _ & _ & ? & _).
Qed.

(** The sender's names: the principal of the canonical event and of its bridge row. *)
Definition sender_aliases (r : IngestRequest) (s : db) : list string :=
  match bridge_canonical_identity r s with Some i => [ce_principal i] | None => [] end.

Definition canonical_of (r : IngestRequest) (s : db) : CanonicalEvent := canonical_event r (bridge_canonical_identity r s).

(** A message may be treated as a reply to [a] in state [s]. *)
Record continues_with (g : IngestGate) (ct : ContinuationResolver) (healthy : bool) (now : Z) (r : IngestRequest) (s : db)
    (a : ContinuationAnchor) : Prop := {
  cw_exchange : own_exchange ct (canonical_of r s) (sender_aliases r s) now (ie_mentioned_bot (in_event r)) s a;
  cw_healthy : healthy = true;
  cw_not_shadow : shadowed g (ie_channel (in_event r)) (ie_chat_id (in_event r)) = false;
  cw_answers : reply_action_for g (ie_channel (in_event r)) (ie_chat_id (in_event r)) = "answer";
  cw_allowed : ∃ d, ig_evaluate g (promote r a) = Ok d ∧ pd_accept_message d = true ∧ pd_should_respond d = true;
}.

Lemma continue_anchored g ct r c healthy now w r' m w' :
  continue_from (wired_gate g (Some ct)) r c healthy (shadowed g (ie_channel (in_event r)) (ie_chat_id (in_event r))) now w
    = (Ok (r', Some m), w') →
  ∃ a, c = Some a ∧ m = can_message_id a ∧ continues_with g ct healthy now r (gt_store w) a.
Proof.
  unfold continue_from. destruct c as [a|]; [|done]. cbn [wired_gate ig_continuation fmap option_fmap option_map].
  destruct healthy; cbn [negb]; [|done]. cbv zeta. intros Hx.
  apply pbind_Ok in Hx as (i & w1 & [= <- <-] & Hx). apply pbind_Ok in Hx as (cur & w1 & Hcur & Hx).
  unfold pread in Hcur. injection Hcur as Hcur <-.
  apply pbind_Ok in Hx as (d & w1 & Hd & Hx). injection Hd as Hd <-.
  destruct (_ && negb _) eqn:E; [|done]. apply pbind_Ok in Hx as (u & w2 & _ & [= _ <- _]).
  do 4 (apply andb_true_iff in E as [E ?]). apply bool_decide_eq_true in E. exists a. split; [done|]. split; [done|].
  split; [|done|by apply negb_true_iff|by apply str_eqb_eq|by exists d]. by apply (candidates_sound _ _ _ _ _ _ cur).
Qed.

Lemma admit_anchored g ct sn t r c w res w' m :
  gate_admit (wired_gate g (Some ct)) sn t r c w = (Ok (Some res), w') → fg_continuation_anchor_id res = Some m →
  ∃ a j w1, c = Some a ∧ m = can_message_id a ∧ journal (wired_gate g (Some ct)) r (tk_now t) w = (Ok j, w1)
            ∧ continues_with g ct (ps_healthy sn) (tk_now t) r (gt_store w1) a.
Proof.
  unfold gate_admit. cbv zeta. destruct (negb _ && negb _); [done|]. intros Hx Hm.
  apply pbind_Ok in Hx as (j & w1 & Hj & Hx). apply pbind_Ok in Hx as ([r' an] & w2 & Hc & Hx).
  assert (an = Some m) as ->.
  { destruct (shadowed _ _ _).
    { apply pbind_Ok in Hx as (dd & w3 & _ & Hx). apply pbind_Ok in Hx as (res' & w4 & Hr & [= <- _]).
      apply record_result in Hr as (_ & _ & _ & _ & _ & _ & Ha & _). congruence. }
    destruct (negb (ps_healthy sn)).
    { apply pbind_Ok in Hx as (res' & w4 & Hr & [= <- _]). apply record_result in Hr as (_ & _ & _ & _ & _ & _ & Ha & _). congruence. }
    apply pbind_Ok in Hx as (d & w3 & _ & Hx). destruct (negb (pd_accept_message d)).
    { apply pbind_Ok in Hx as (res' & w4 & Hr & [= <- _]). apply record_result in Hr as (_ & _ & _ & _ & _ & _ & Ha & _). congruence. }
    apply accepted_anchor in Hx. congruence. }
  destruct (continue_anchored _ _ _ _ _ _ _ _ _ _ Hc) as (a & -> & -> & Hcw). by exists a, j, w1.
Qed.

(** A request keeps its event when it is given a dormant thread. *)
Lemma reopen_event g reopen healthy now r s : in_event (with_topic_reopen g reopen healthy now r s) = in_event r.
Proof. unfold with_topic_reopen. destruct reopen as [t|]; [|done]. destruct (_ || _); [done|]. by destruct (nonempty _). Qed.

(** C13: The language model chooses among exchanges of the sender, and nothing else: for every
    judge, whatever other tasks do to the state while it is asked, and for every state, a
    message that is admitted as a continuation is attached to a confirmed text reply in its
    own chat, inside the window, that answered an unrevoked message of the same sender there
    and whose thread is open with all its sources (or which is participation without a
    thread); and the policy in force at the admission is healthy and accepts and answers the
    message as that reply, in a chat that answers and is not shadowed. *)
Theorem continuation_guarded g ct reopen judge others now asked admitted ta t r0 w res w' m :
  admit_async g (Some ct) reopen judge others now asked admitted ta t r0 w = (Ok (Some res), w') →
  fg_continuation_anchor_id res = Some m →
  ∃ r a j w0 w1, in_event r = in_event r0 ∧ can_message_id a = m
    ∧ journal (wired_gate g (Some ct)) r (tk_now t) w0 = (Ok j, w1)
    ∧ continues_with g ct (ps_healthy admitted) (tk_now t) r (gt_store w1) a.
Proof.
  unfold admit_async. cbv zeta. intros Hx Hm. apply pbind_Ok in Hx as (r & w1 & [= <- <-] & Hx).
  apply pbind_Ok in Hx as (u & w1 & _ & Hx). apply pbind_Ok in Hx as (q & w2 & _ & Hx). destruct q as [[allowed q]|].
  - apply pbind_Ok in Hx as (u' & w3 & _ & Hx). destruct (admit_anchored _ _ _ _ _ _ _ _ _ _ Hx Hm) as (a & j & w4 & _ & -> & Hj & Hcw).
    eexists _, a, j, w3, w4. split; [apply reopen_event|done].
  - destruct (admit_anchored _ _ _ _ _ _ _ _ _ _ Hx Hm) as (a & j & w4 & ? & _). done.
Qed.

End Admission.

(** ** Binding *)

Section Binding.
  Context `{Sha256}.

Lemma open_thread_run channel chat_id principal kind trigger now s :
  ∃ s1 t, open_thread channel chat_id principal kind trigger now s = (Ok (thread_id_for channel chat_id trigger), s1)
    ∧ s1 = s <| threads := threads s1 |> ∧ get_thread (thread_id_for channel chat_id trigger) s1 = Some t ∧ th_state t = "open".
Proof.
  unfold open_thread, write, get_thread. cbv zeta. destruct (by_id _ _ (threads s)) as [t|] eqn:Et.
  - eexists _, _. split; [done|]. split; [done|]. simpl. rewrite by_id_update by done. rewrite Et. simpl.
    apply by_id_Some_inv in Et as [_ <-]. unfold has_id. by rewrite str_eqb_refl.
  - eexists _, _. split; [done|]. split; [done|]. simpl. rewrite by_id_insert, Et. simpl. by rewrite str_eqb_refl.
Qed.

Lemma insert_or_ignore_named {R} (key : R → string) k (r : R) t :
  key r = k → row_exists (has_id key k) (insert_or_ignore (has_id key k) r t) = true.
Proof.
  intros Hk. unfold insert_or_ignore. destruct (row_exists (has_id key k) t) eqn:E; [done|]. apply row_exists_spec. exists r.
  split; [unfold insert_row; set_solver|]. unfold has_id. rewrite Hk. apply str_eqb_refl.
Qed.

Lemma open_turn_run thread_id principal trigger now st s t :
  get_thread thread_id s = Some t →
  ∃ s1 turn_id t1, open_turn thread_id principal trigger now st s = (Ok turn_id, s1)
    ∧ s1 = s <| threads := threads s1 |> <| turns := turns s1 |> ∧ row_exists (has_id tu_turn_id turn_id) (turns s1) = true
    ∧ get_thread thread_id s1 = Some t1 ∧ th_state t1 = th_state t.
Proof.
  unfold open_turn, write, get_thread. cbv zeta. intros Et. simpl. rewrite by_id_update by done. rewrite Et. simpl.
  eexists _, _, _. split; [done|]. split; [done|]. simpl. split; [|rewrite by_id_update by done; rewrite Et; simpl; split; [done|]].
  - by apply insert_or_ignore_named.
  - by destruct (has_id _ _ t).
Qed.

Lemma add_turn_source_run turn_id event_id sm role n now s :
  row_exists (has_id tu_turn_id turn_id) (turns s) = true →
  ∃ s1, add_turn_source turn_id event_id sm role n now s = (Ok tt, s1) ∧ s1 = s <| turn_sources := turn_sources s1 |>.
Proof.
  intros Ht. unfold add_turn_source, write. rewrite Ht. simpl. destruct (row_exists _ (turn_sources s)); eexists; split; try done.
  by destruct s.
Qed.

(** A participation exchange gets its own open thread, whose turn is closed again. *)
Lemma open_exchange_run source principal confirmed now s :
  let thread_id := thread_id_for (ce_channel source) (ce_chat_id source) (ce_event_id source) in
  ∃ s1 turn_id t, open_exchange source principal confirmed now s = (Ok (thread_id, Some turn_id), s1)
    ∧ thread_messages s1 = thread_messages s ∧ effects s1 = effects s
    ∧ get_thread thread_id s1 = Some t ∧ th_state t = "open"
    ∧ ∀ u, u ∈ turns s1 → tu_turn_id u = turn_id → tu_state u = "closed".
Proof.
  intros thread_id. unfold open_exchange.
  destruct (open_thread_run (ce_channel source) (ce_chat_id source) principal "group" (ce_event_id source) confirmed s)
    as (s1 & t1 & E1 & F1 & G1 & O1). fold thread_id in E1, G1.
  destruct (open_turn_run thread_id principal (ce_event_id source) confirmed "open" s1 t1 G1) as (s2 & turn_id & t2 & E2 & F2 & R2 & G2 & O2).
  destruct (add_turn_source_run turn_id (ce_event_id source) (ce_source_message_id source) "trigger" 1 confirmed s2 R2) as (s3 & E3 & F3).
  unfold pbind. rewrite E1, E2, E3. eexists _, turn_id, t2. split; [done|]. simpl. rewrite F3, F2, F1. simpl.
  do 2 (split; [done|]). split; [done|]. split; [congruence|]. intros u Hu Hid.
  unfold update in Hu. apply list_elem_of_fmap in Hu as (v & -> & Hv). unfold has_id in *.
  destruct (tu_turn_id v =?s turn_id) eqn:E; [done|]. subst turn_id. by rewrite str_eqb_refl in E.
Qed.

(** The reply is registered in its thread under the id the transport confirmed. *)
Lemma message_bound thread_id turn effect_id message_id confirmed s :
  str_true message_id = true →
  (∀ m, m ∈ thread_messages s → tm_message_id m ≠ Some message_id ∧ tm_effect_id m ≠ Some effect_id) →
  (do* register_thread_message thread_id confirmed "out" turn None (Some effect_id) None in
   let* _ := attach_confirmed_message_id effect_id message_id confirmed in pret tt) s
  = (Ok tt, s <| thread_messages := thread_messages s ++
      [MkThreadMessage (Some message_id) thread_id turn "out" None (Some effect_id) (Some confirmed) confirmed] |>).
Proof.
  intros Hm Hfree. unfold pbind, register_thread_message, write. cbv zeta. simpl.
  rewrite (proj2 (row_exists_false _ _)).
  2: { intros m Hin. apply not_true_is_false. intros E%opt_str_eqb_eq. by destruct (Hfree m Hin). }
  rewrite (proj2 (row_exists_false _ _)) by done. unfold attach_confirmed_message_id, write. rewrite Hm. simpl.
  set (new := MkThreadMessage None thread_id turn "out" None (Some effect_id) None confirmed).
  assert (row_exists (λ m, opt_str_eqb (tm_message_id m) (Some message_id)) (insert_row new (thread_messages s)) = false) as Hno.
  { apply row_exists_false. intros m Hin. unfold insert_row in Hin. apply elem_of_app in Hin as [Hin| ->%list_elem_of_singleton]; [|done].
    apply not_true_is_false. intros E%opt_str_eqb_eq. by destruct (Hfree m Hin). }
  rewrite Hno, andb_false_r. simpl. do 2 f_equal. unfold insert_row, update. rewrite map_app. simpl.
  rewrite str_eqb_refl. simpl. f_equal.
  rewrite <- (map_id (thread_messages s)) at 2. apply map_ext_in. intros m Hin%list_elem_of_In.
  destruct (opt_str_eqb (tm_effect_id m) (Some effect_id)) eqn:E; [|done]. apply opt_str_eqb_eq in E. by destruct (Hfree m Hin).
Qed.

Lemma resolve_bound thread_id turn effect_id message_id confirmed s :
  str_true message_id = true → (∀ m, m ∈ thread_messages s → tm_message_id m ≠ Some message_id) →
  resolve_reference (Some message_id) (s <| thread_messages := thread_messages s ++
      [MkThreadMessage (Some message_id) thread_id turn "out" None (Some effect_id) (Some confirmed) confirmed] |>)
  = Some (thread_id, nonempty turn).
Proof.
  intros Hm Hfree. unfold resolve_reference. rewrite Hm. simpl. rewrite fetchone_app.
  rewrite fetchone_None.
  2: { intros m Hin. apply andb_false_iff. left. apply not_true_is_false. intros E%opt_str_eqb_eq. by destruct (Hfree m Hin). }
  simpl. by rewrite str_eqb_refl.
Qed.

(** C14: Binding an exchange makes its reply an ordinary anchor: for a confirmed reply no thread
    knows yet, the call returns, touches no effect, and afterwards the reply's message id
    leads to the thread of the exchange - the one it had, or for a participation exchange a
    new open thread of the answered message whose turn is closed - and calling it again
    changes nothing. *)
Theorem bind_resolves a principal now s :
  let source := can_source a in
  let thread := default (thread_id_for (ce_channel source) (ce_chat_id source) (ce_event_id source)) (nonempty (can_thread_id a)) in
  str_true (can_message_id a) = true → resolve_reference (Some (can_message_id a)) s = None →
  (∀ m, m ∈ thread_messages s → tm_message_id m ≠ Some (can_message_id a) ∧ tm_effect_id m ≠ Some (can_effect_id a)) →
  ∃ s' turn, bind_anchor a principal now s = (Ok tt, s') ∧ effects s' = effects s
    ∧ resolve_reference (Some (can_message_id a)) s' = Some (thread, turn)
    ∧ (nonempty (can_thread_id a) = None →
       ∃ t, get_thread thread s' = Some t ∧ th_state t = "open"
            ∧ ∀ u, u ∈ turns s' → Some (tu_turn_id u) = turn → tu_state u = "closed")
    ∧ bind_anchor a principal now s' = (Ok tt, s').
Proof.
  intros source thread Hm Hnone Hfree.
  assert (∀ s' p, resolve_reference (Some (can_message_id a)) s' = Some p → bind_anchor a principal now s' = (Ok tt, s')) as Hagain.
  { intros s' p E. unfold bind_anchor, pbind, pget. by rewrite E. }
  unfold bind_anchor at 1. unfold pbind at 1, pget at 1. rewrite Hnone. cbv zeta. fold source.
  destruct (nonempty (can_thread_id a)) as [t|] eqn:Et; simpl in thread.
  - unfold pbind at 1 2, pget, pret at 1. cbn [fst snd]. rewrite message_bound by done. do 2 eexists. split; [done|].
    split; [done|]. split; [apply resolve_bound; [done|]; intros m Hin; by apply Hfree|]. split; [done|].
    eapply Hagain, resolve_bound; [done|]. intros m Hin. by apply Hfree.
  - destruct (open_exchange_run source principal (can_confirmed_ms a) now s) as (s1 & turn_id & t & E1 & M1 & F1 & G1 & O1 & C1).
    unfold pbind at 1. rewrite E1. cbn [fst snd]. rewrite message_bound by (done || by rewrite M1). do 2 eexists. split; [done|].
    split; [done|]. split; [apply resolve_bound; [done|]; rewrite M1; intros m Hin; by apply Hfree|]. split.
    + intros _. exists t. split; [done|]. split; [done|]. intros u Hu [[= E] _]%eq_sym%nonempty_Some. by apply C1.
    + eapply Hagain, resolve_bound; [done|]. rewrite M1. intros m Hin. by apply Hfree.
Qed.

End Binding.

(** ** Witnesses *)
#[local] Existing Instance plain_sha256.

(** A participation reply to a message of [492222], who writes again without naming the bot. *)
Definition asked_message : event_row :=
  MkEvent "m0" "k0" "t" "message" "whatsapp" "whatsapp" "g@g.us" "492222" "" "in" 1 None (Some "m0") None None None (Some 1000)
    "h" (Some [("text", JStr "what about today?")]) None 1000.
Definition spoken_reply : effect_row :=
  MkEffect "e1" "k-e1" "t" "turn" 1 "service:speakup" "send_text" [] "" "text" ""
    (Some [("kind", JStr "text"); ("text", JStr "rain"); ("reply_to", JStr "m0")]) None sent None None None None None "participation" None 1 2.
Definition exchange_store : db :=
  empty_db <| events := [asked_message] |> <| effects := [spoken_reply] |>
    <| transport_receipts := [MkReceipt "r1" "e1" None "whatsapp" "g@g.us" (Some "p1") None 5000 None] |>.
Definition exchange_world : gate_world := MkGateWorld exchange_store ∅ [].
Definition house_resolver : ContinuationResolver := MkResolver (rg_policy registry) 30 None.
Definition answers_with (id : string) (q : judge_question) : judge_reply :=
  JudgeReply "stop" (Some (JObj [("anchor_message_id", JStr id)])).
Definition follow_up (sender : string) : IngestRequest := request_of (message_from sender "g@g.us" "and tomorrow?" "m1" false).
Definition admit_follow_up (sender chosen : string) : result (option FastGateResult) * gate_world :=
  admit_async house_gate (Some house_resolver) None (answers_with chosen) (λ _ w, w) 6000 house_snapshot house_snapshot
    (MkAsync 6000 6000 6000) (MkTicks 6000 6010 "d1") (follow_up sender) exchange_world.

Lemma continued_result :
  ∃ res w', admit_follow_up "492222" "p1" = (Ok (Some res), w') ∧ fg_continuation_anchor_id res = Some "p1" ∧ fg_outcome res = React.
Proof. do 2 eexists. split; [vm_compute; reflexivity|split; reflexivity]. Qed.

(** A message of somebody else has no such exchange, whatever the judge says. *)
Lemma foreign_result :
  ∃ res w', admit_follow_up "493333" "p1" = (Ok (Some res), w') ∧ fg_continuation_anchor_id res = None.
Proof. do 2 eexists. split; [vm_compute; reflexivity|reflexivity]. Qed.

Lemma continuation_guarded_witness :
  ∃ res w' r a w1, admit_follow_up "492222" "p1" = (Ok (Some res), w') ∧ in_event r = in_event (follow_up "492222")
    ∧ can_message_id a = "p1" ∧ continues_with house_gate house_resolver true 6000 r (gt_store w1) a.
Proof.
  destruct continued_result as (res & w' & Hx & Hm & _).
  destruct (continuation_guarded house_gate house_resolver None (answers_with "p1") (λ _ w, w) 6000 house_snapshot house_snapshot
    (MkAsync 6000 6000 6000) (MkTicks 6000 6010 "d1") (follow_up "492222") exchange_world res w' "p1" Hx Hm)
    as (r & a & j & w0 & w1 & E & Ea & _ & Hc).
  exists res, w', r, a, w1. split; [exact Hx|]. split; [exact E|]. split; [exact Ea|exact Hc].
Defined.

Definition exchange_anchor : ContinuationAnchor :=
  MkAnchor "p1" "e1" "rain" (match event_from_row asked_message with Ok e => e | Raise _ => canonical_event (follow_up "492222") None end) None 5000.

Lemma bind_resolves_witness :
  ∃ s' turn, bind_anchor exchange_anchor "492222" 6000 exchange_store = (Ok tt, s')
    ∧ resolve_reference (Some "p1") s' = Some (thread_id_for "whatsapp" "g@g.us" "m0", turn).
Proof.
  destruct (bind_resolves exchange_anchor "492222" 6000 exchange_store) as (s' & turn & E & _ & R & _).
  - reflexivity.
  - vm_compute. reflexivity.
  - intros m Hm. apply not_elem_of_nil in Hm. destruct Hm.
  - exists s', turn. split; [exact E|exact R].
Defined.
