(* ===== verification/Judge.v ===== *)
(** * Judge

    The participation judge of [processing/participation.py]: the view it is given of the
    trusted context, what it is offered, and the validation of what the language model
    answered - whatever it answered. [json.loads] is a parameter ([loads]), so every decoder
    is covered, also what it raises; the texts of the prompt and the trimming of the context to its budget are
    left out, the size of the prompt is an argument. *)

From Stdlib Require Import ZArith Lia Ascii.
From Stdlib Require Import Floats.SpecFloat.
From S2P Require Import Prelude Tables Json ThreadStore Registry PolicyEngine PyFloat Router Signals Continuation.

Definition DECISION_ERROR_REASONS : list string :=
  ["timeout"; "provider_error"; "empty_response"; "invalid_response"; "untrusted_intent"; "unknown_emoji"; "unknown_evidence";
   "context_too_large"; "missing_target"; "source_unavailable"; "source_expired"; "source_not_authorized"].

(** [ParticipationDecisionError(reason, detail=...)], as it prints *)
Definition ParticipationDecisionError (reason detail : string) : py_error :=
  OtherError "ParticipationDecisionError" (if str_true detail then reason +:+ ": " +:+ detail else reason).

Definition MAX_PURPOSE_CHARS : nat := 240.
Definition MAX_REASON_CHARS : nat := 160.
Definition MAX_READING_CHARS : nat := 240.
Definition MAX_EVIDENCE_IDS : nat := 8.
Definition MAX_PROMPT_CHARS : nat := 300.
Definition MAX_MEME_CAPTIONS : nat := 4.
Definition MAX_MEME_CAPTION_CHARS : nat := 80.

Definition ACTION_ALIASES : list (string * string) :=
  [("silence", "silence"); ("silent", "silence"); ("none", "silence"); ("no", "silence"); ("schweigen", "silence");
   ("react", "react"); ("reaction", "react"); ("reagieren", "react"); ("comment", "comment"); ("answer", "comment");
   ("reply", "comment"); ("antwort", "comment"); ("meme", "meme"); ("sticker", "sticker")].
Definition IMAGE_ACTIONS : list string := ["meme"; "sticker"].
Definition ALL_ACTIONS : list string := ["silence"; "react"; "comment"; "meme"; "sticker"].
Definition MEME_SOURCES : list string := ["template"; "photo"; "background"].
Definition INTENT_ALIASES : list (string * string) :=
  [("direct", "direct"); ("continue", "continue"); ("continuation", "continue"); ("initiate", "initiate"); ("initiation", "initiate")].

(** [table.get(token)] *)
Definition alias (table : list (string * string)) (token : string) : option string := snd <$> by_id fst token table.

(** ** Bounded values *)

(** [" ".join(value.split())[:limit]] *)
Definition squeezed (limit : nat) (value : string) : string := first_chars limit (join " " (split_words "" value)).

(** [_bounded_id] *)
Definition bounded_id (value : option json) : option string :=
  match value with
  | Some (JStr s) => let token := py_strip s in if negb (str_true token) || (200 <? py_len token) then None else Some token
  | _ => None
  end.

(** [_bounded_text] *)
Definition judge_bounded_text (value : option json) (limit : nat) : string :=
  match value with Some (JStr s) => squeezed limit s | _ => "" end.

(** [is_trend_source] *)
Definition is_trend_source (source : option string) : bool :=
  match source with Some s => String.prefix "trend:" s | None => false end.

(** ** Reading the context *)

(** The items of a list or tuple, and nothing for anything else. *)
Definition items_of (value : option json) : list json := match value with Some (JArr l) => l | _ => [] end.
Definition mappings (l : list json) : list dict := omap (λ v, match v with JObj d => Some d | _ => None end) l.

(** [for item in value] *)
Definition iterate (value : json) : result (list json) :=
  match value with
  | JArr l => Ok l
  | JStr s => Ok (map JStr (utf8_chars s))
  | JObj d => Ok (map (λ p, JStr p.1) d)
  | _ => Raise (TypeError "object is not iterable")
  end.

(** [context.get(name) or default] *)
Definition iterate_or (value : option json) (default_items : list json) : result (list json) :=
  match value with
  | Some v => if truthy v then iterate v else Ok default_items
  | None => Ok default_items
  end.

(** [str(item).strip()] of the items that leave something *)
Definition stripped (l : list json) : list string := List.filter str_true (map (λ v, py_strip (py_str v)) l).

(** [str(item.get("event_id") or item.get("message_id") or "").strip()] *)
Definition row_id (row : dict) : string := py_strip (str_or_empty (py_or (dict_get "event_id" row) (dict_get "message_id" row))).

(** [_message_sort_key]; a number too large for a float raises *)
Definition message_sort_key (row : dict) : result (pyfloat * string) :=
  let! value := match dict_get "timestamp" row with
                | None | Some JNull => Ok (int_float 0)
                | Some v => match py_float v with
                            | Ok f => Ok f
                            | Raise (TypeError _) | Raise (ValueError _) => Ok (int_float 0)
                            | Raise e => Raise e
                            end
                end in
  Ok (value, str_or_empty (py_or (dict_get "event_id" row) (dict_get "message_id" row))).

(** [a > b] on such keys *)
Definition key_gt (a b : pyfloat * string) : bool :=
  if SFeqb a.1 b.1 then String.ltb b.2 a.2 else SFltb b.1 a.1.

(** [max(rows, key=_message_sort_key)]: the first of the greatest *)
Fixpoint newest_from (best : dict) (key : pyfloat * string) (rows : list dict) : result dict :=
  match rows with
  | [] => Ok best
  | row :: rows' =>
      let! k := message_sort_key row in
      if key_gt k key then newest_from row k rows' else newest_from best key rows'
  end.
Definition newest (rows : list dict) : result (option dict) :=
  match rows with
  | [] => Ok None
  | row :: rows' => let! k := message_sort_key row in let! best := newest_from row k rows' in Ok (Some best)
  end.

(** The id of the newest row, without the [strip] of the whole. *)
Definition newest_id (row : option dict) : option string :=
  match row with
  | Some d => let value := py_or (dict_get "event_id" d) (dict_get "message_id" d) in
              if opt_truthy value then Some (py_strip (str_or_empty value)) else None
  | None => None
  end.

(** [_JudgeContext], without the texts of the prompt *)
Record JudgeContext := MkJudgeContext {
  jc_evidence_ids : list string;
  jc_message_ids : list string;
  jc_anchor_ids : list string;
  jc_allowed_actions : list string;
  jc_allowed_intents : list string;
  jc_allowed_contribution_types : list string;
  jc_newest_current_source_id : option string;
  jc_current_source_ids : list string;
  jc_has_current_source_ids : bool;
  jc_direct_addressed : bool;
  jc_allows_continuation : bool;
  jc_meme_templates : list string;
  jc_meme_photo_ids : list string;
  jc_meme_backgrounds : bool;
}.

(** [offers_images] *)
Definition offers_images (view : JudgeContext) : bool :=
  existsb (λ a, str_in a IMAGE_ACTIONS) (jc_allowed_actions view) && negb (is_none (head (jc_meme_templates view))).

(** [_meme_view]: templates, photos and whether a background may be generated *)
Definition meme_view (context : dict) : list string * list string * bool :=
  let templates := map py_lower (stripped (items_of (dict_get "meme_templates" context))) in
  match templates with
  | [] => ([], [], false)
  | _ => (templates,
          List.filter str_true (map (λ d, py_strip (str_or_empty (dict_get "id" d))) (mappings (items_of (dict_get "meme_photos" context)))),
          opt_truthy (dict_get "meme_backgrounds" context))
  end.

(** The ids of the delivered anchors, and those of them that count as evidence. *)
Definition anchor_effects (anchors : list dict) : list string :=
  List.filter str_true (map (λ d, py_strip (str_or_empty (dict_get "effect_id" d))) anchors).
Definition anchor_providers (anchors : list dict) : list string :=
  List.filter str_true (map (λ d, py_strip (str_or_empty (dict_get "provider_message_id" d))) anchors).

(** [_JudgeContext.from_mapping] *)
Definition from_mapping (context : dict) : result JudgeContext :=
  let messages := mappings (items_of (dict_get "messages" context)) in
  let anchors := mappings (items_of (dict_get "anchors" context)) in
  let message_ids := List.filter str_true (map row_id messages) in
  let raw_current := match dict_get "current_source_ids" context with
                     | None | Some JNull => dict_get "source_event_ids" context
                     | v => v
                     end in
  let has_current := match raw_current with Some (JArr _) => true | _ => false end in
  let current := stripped (items_of raw_current) in
  let! raw_actions := iterate_or (dict_get "allowed_actions" context) [JStr "silence"] in
  let actions := List.filter (λ a, str_in a ALL_ACTIONS) (map (λ v, py_strip (py_str v)) raw_actions) in
  let intents := List.filter (λ a, str_in a ["direct"; "continue"; "initiate"])
                   (map (λ v, py_strip (py_str v)) (items_of (dict_get "allowed_intents" context))) in
  let target_rows := if has_current then List.filter (λ row, str_in (row_id row) current) messages else messages in
  let! newest_target := newest target_rows in
  let! _ := newest messages in
  let! types := iterate_or (dict_get "allowed_contribution_types" context) [] in
  let '(templates, photos, backgrounds) := meme_view context in
  Ok {| jc_evidence_ids := message_ids ++ anchor_effects anchors; jc_message_ids := message_ids;
        jc_anchor_ids := anchor_providers anchors ++ anchor_effects anchors;
        jc_allowed_actions := match actions with [] => ["silence"] | l => l end; jc_allowed_intents := intents;
        jc_allowed_contribution_types := stripped types; jc_newest_current_source_id := newest_id newest_target;
        jc_current_source_ids := current; jc_has_current_source_ids := has_current;
        jc_direct_addressed := opt_truthy (dict_get "direct_addressed" context);
        jc_allows_continuation := opt_truthy (dict_get "allows_continuation" context);
        jc_meme_templates := templates; jc_meme_photo_ids := photos; jc_meme_backgrounds := backgrounds |}.

(** ** What is offered *)

(** [_allowed_intents] *)
Definition offered_intents (view : JudgeContext) : list string :=
  (if str_in "initiate" (jc_allowed_intents view) then ["initiate"] else [])
  ++ (if str_in "continue" (jc_allowed_intents view) && negb (is_none (head (jc_anchor_ids view))) then ["continue"] else [])
  ++ (if str_in "direct" (jc_allowed_intents view) && jc_direct_addressed view then ["direct"] else []).

(** [_offered]: actions and intents *)
Definition offered (view : JudgeContext) : list string * list string :=
  let granted := List.filter (λ a, negb (negb (offers_images view) && str_in a IMAGE_ACTIONS)) (jc_allowed_actions view) in
  let actions := match List.filter (λ a, str_in a granted) ALL_ACTIONS with [] => ["silence"] | l => l end in
  match offered_intents view with
  | [] => (List.filter (λ a, negb (a =?s "comment")) actions, ["initiate"])
  | intents => (actions, intents)
  end.

(** ** The answer *)

Record MemePlan := MkMeme {
  mp_source : string;
  mp_captions : list string;
  mp_template : option string;
  mp_photo_id : option string;
  mp_prompt : option string;
}.

Record ParticipationDecision := MkParticipation {
  pn_action : string;
  pn_intent : string;
  pn_reason : string;
  pn_reading : string;
  pn_evidence_ids : list string;
  pn_anchor_message_id : option string;
  pn_target_message_id : option string;
  pn_contribution_type : option string;
  pn_purpose : string;
  pn_emoji : option string;
  pn_closes_exchange : bool;
  pn_meme : option MemePlan;
}.

(** A silent decision. *)
Definition silent (reason reading : string) : ParticipationDecision :=
  MkParticipation "silence" "initiate" reason reading [] None None None "" None false None.

Definition invalid_response (detail : string) : py_error := ParticipationDecisionError "invalid_response" detail.

(** [s.find(sub)] from [from] on *)
Definition find_from (from : nat) (sub s : string) : option nat := String.index from sub s.

(** The position behind the last occurrence of a character. *)
Fixpoint last_char (c : ascii) (n : nat) (s : string) (found : option nat) : option nat :=
  match s with
  | EmptyString => found
  | String x s' => last_char c (S n) s' (if Ascii.eqb x c then Some n else found)
  end.

Definition FENCE : string := "```".

(** [_FENCED_BLOCK.findall(text)], stripped: one block per round, from its fence to the next *)
Fixpoint fenced_blocks (fuel : nat) (s : string) : list string :=
  match fuel with
  | O => []
  | S fuel' =>
      match find_from 0 FENCE s with
      | None => []
      | Some i =>
          let rest := drop_str (i + 3) s in
          let body := if py_lower (String.substring 0 4 rest) =?s "json" then drop_str 4 rest else rest in
          match find_from 0 FENCE body with
          | None => []
          | Some j => py_strip (String.substring 0 j body) :: fenced_blocks fuel' (drop_str (j + 3) body)
          end
      end
  end.

(** The texts [_parse_payload] tries, in order. *)
Definition payload_candidates (text : string) : list string :=
  [text] ++ fenced_blocks (String.length text) text
  ++ match find_from 0 "{" text, last_char "}" 0 text None with
     | Some first, Some last => if (first <? last)%nat then [String.substring first (S last - first) text] else []
     | _, _ => []
     end.

Definition is_decode_error (e : py_error) : bool :=
  match e with OtherError ty _ => ty =?s "JSONDecodeError" | _ => false end.

Section Parse.
  (** [json.loads], which raises [JSONDecodeError] for a text that is no JSON and other errors
      for what it cannot hold; [any(isalnum() or isspace())] *)
  Context (loads : string → result json) (has_word_char : string → bool).

Fixpoint first_object (texts : list string) : result (option dict) :=
  match texts with
  | [] => Ok None
  | t :: texts' =>
      match loads t with
      | Ok (JObj d) => Ok (Some d)
      | Ok _ => first_object texts'
      | Raise e => if is_decode_error e then first_object texts' else Raise e
      end
  end.

(** [_parse_payload] *)
Definition parse_payload (raw : string) : result (option dict) :=
  let text := py_strip raw in
  if str_true text then first_object (payload_candidates text) else Ok None.

(** [str(payload.get(name) or "").strip().lower()] *)
Definition token_of (payload : dict) (name : string) : string := py_lower (py_strip (str_or_empty (dict_get name payload))).

(** The loop over [evidence_ids]. *)
Fixpoint collect_evidence (known : list string) (items : list json) (collected : list string) : result (list string) :=
  match items with
  | [] => Ok collected
  | JStr s :: items' =>
      let token := py_strip s in
      if negb (str_true token) then collect_evidence known items' collected
      else if negb (str_in token known) then Raise (ParticipationDecisionError "unknown_evidence" "unknown_evidence_id")
      else collect_evidence known items' (if str_in token collected then collected else collected ++ [token])
  | _ :: _ => Raise (invalid_response "evidence_not_str")
  end.

Definition parse_evidence (view : JudgeContext) (payload : dict) : result (list string) :=
  match dict_get "evidence_ids" payload with
  | None | Some JNull => Ok []
  | Some (JArr l) =>
      if (MAX_EVIDENCE_IDS <? length l)%nat then Raise (invalid_response "too_many_evidence")
      else collect_evidence (jc_evidence_ids view) l []
  | Some _ => Raise (invalid_response "evidence_not_list")
  end.

(** [_parse_meme_plan] *)
Definition parse_meme_plan (payload : dict) (view : JudgeContext) : result MemePlan :=
  let source := token_of payload "meme_source" in
  if negb (str_in source MEME_SOURCES) then Raise (invalid_response "meme_source_invalid") else
  match dict_get "meme_captions" payload with
  | Some (JArr raw) =>
      let captions := map (λ v, squeezed MAX_MEME_CAPTION_CHARS (str_or_empty (Some v))) (take MAX_MEME_CAPTIONS raw) in
      if negb (existsb str_true captions) then Raise (invalid_response "meme_captions_empty")
      else if source =?s "template" then
        let template := token_of payload "meme_template" in
        if negb (str_in template (jc_meme_templates view)) then Raise (invalid_response "meme_template_unknown")
        else Ok (MkMeme "template" captions (Some template) None None)
      else if source =?s "photo" then
        match bounded_id (dict_get "meme_photo_id" payload) with
        | Some id => if str_in id (jc_meme_photo_ids view) then Ok (MkMeme "photo" captions None (Some id) None)
                     else Raise (ParticipationDecisionError "unknown_evidence" "meme_photo_not_offered")
        | None => Raise (ParticipationDecisionError "unknown_evidence" "meme_photo_not_offered")
        end
      else if negb (jc_meme_backgrounds view) then Raise (invalid_response "meme_background_unavailable")
      else
        let prompt := judge_bounded_text (dict_get "meme_prompt" payload) MAX_PROMPT_CHARS in
        if str_true prompt then Ok (MkMeme "background" captions None None (Some prompt))
        else Raise (invalid_response "meme_prompt_missing")
  | _ => Raise (invalid_response "meme_captions_invalid")
  end.

(** The intent of a decision that is not silent. *)
Definition parse_intent (action : string) (view : JudgeContext) (payload : dict) : result string :=
  let! intent := if action =?s "comment"
                 then match alias INTENT_ALIASES (token_of payload "intent") with
                      | Some i => Ok i
                      | None => Raise (invalid_response "intent_not_allowed")
                      end
                 else Ok "initiate" in
  if (intent =?s "direct") && negb (jc_direct_addressed view) then Raise (ParticipationDecisionError "untrusted_intent" "direct_not_admitted")
  else if (action =?s "comment") && negb (str_in intent (jc_allowed_intents view)) then Raise (invalid_response "intent_not_allowed")
  else if (intent =?s "continue") && (action =?s "comment") && negb (jc_allows_continuation view)
  then Raise (invalid_response "continuation_not_allowed")
  else Ok intent.

(** The target: the one named, or the newest current source. *)
Definition parse_target (view : JudgeContext) (payload : dict) : result string :=
  let target := match bounded_id (dict_get "target_message_id" payload) with
                | Some t => Some t
                | None => jc_newest_current_source_id view
                end in
  match target with
  | Some t =>
      if negb (str_in t (jc_message_ids view)) then Raise (ParticipationDecisionError "unknown_evidence" "target_not_supplied")
      else if jc_has_current_source_ids view && negb (str_in t (jc_current_source_ids view))
      then Raise (ParticipationDecisionError "unknown_evidence" "target_not_current")
      else Ok t
  | None => Raise (ParticipationDecisionError "missing_target" "target_not_supplied")
  end.

(** The category of a comment: the one named, or the neutral configured one. *)
Definition parse_contribution (view : JudgeContext) (payload : dict) : option string :=
  let named := bounded_id (dict_get "contribution_type" payload) in
  if match named with Some c => str_in c (jc_allowed_contribution_types view) | None => false end then named
  else if str_in "observation" (jc_allowed_contribution_types view) then Some "observation"
  else head (order_by String.leb (jc_allowed_contribution_types view)).

(** [_parse] *)
Definition parse_decision (allowed_emojis : list string) (raw : string) (view : JudgeContext) : result ParticipationDecision :=
  let! payload := parse_payload raw in
  match payload with
  | None => Raise (invalid_response "not_json_object")
  | Some payload =>
  match alias ACTION_ALIASES (token_of payload "action") with
  | None => Raise (invalid_response "unknown_action")
  | Some action =>
  if negb (str_in action (jc_allowed_actions view)) then Raise (invalid_response "action_not_allowed") else
  let reason := judge_bounded_text (dict_get "reason" payload) MAX_REASON_CHARS in
  let reading := judge_bounded_text (dict_get "reading" payload) MAX_READING_CHARS in
  if action =?s "silence" then Ok (silent reason reading) else
  let comment := action =?s "comment" in
  let! intent := parse_intent action view payload in
  let! evidence := parse_evidence view payload in
  let anchor := if comment then bounded_id (dict_get "anchor_message_id" payload) else None in
  if match anchor with Some a => negb (str_in a (jc_anchor_ids view)) | None => false end
  then Raise (ParticipationDecisionError "unknown_evidence" "anchor_not_supplied") else
  let! target := parse_target view payload in
  if is_trend_source (Some target) && negb (comment && (intent =?s "initiate")) then Ok (silent "trend_card_only_posts" reading) else
  if (intent =?s "continue") && comment && is_none anchor
  then Raise (ParticipationDecisionError "missing_target" "continuation_without_anchor") else
  let purpose := if comment then judge_bounded_text (dict_get "purpose" payload) MAX_PURPOSE_CHARS else "" in
  let contribution := if comment then parse_contribution view payload else None in
  if comment && negb (str_true purpose) then Raise (invalid_response "purpose_required") else
  let! emoji := if action =?s "react"
                then match allowed_reaction has_word_char (str_or_empty (dict_get "emoji" payload)) allowed_emojis with
                     | Some e => Ok (Some e)
                     | None => Raise (ParticipationDecisionError "unknown_emoji" "unknown_emoji")
                     end
                else Ok None in
  let closes := comment && match dict_get "closes_exchange" payload with Some (JBool true) => true | _ => false end in
  let! meme := if str_in action IMAGE_ACTIONS then (let! m := parse_meme_plan payload view in Ok (Some m)) else Ok None in
  Ok (MkParticipation action intent reason reading evidence anchor (Some target) contribution purpose emoji closes meme)
  end
  end.

(** The outcome of the call of the model. *)
Inductive judge_call_outcome :=
| CallTimeout
| CallFailed
| CallCancelled
| CallReply (finish_reason native_finish_reason : option string) (refusal : bool) (content : string).

(** [_decide], given the estimated size of the prompt *)
Definition decide_participation (max_input_tokens : Z) (allowed_emojis : list string) (prompt_tokens : Z) (view : JudgeContext)
    (call : judge_call_outcome) : result ParticipationDecision :=
  if max_input_tokens <? prompt_tokens then Raise (ParticipationDecisionError "context_too_large" "context_budget_exceeded") else
  match call with
  | CallCancelled => Raise CancelledError
  | CallTimeout => Raise (ParticipationDecisionError "timeout" "")
  | CallFailed => Raise (ParticipationDecisionError "provider_error" "")
  | CallReply finish native refusal content =>
      let native := default (default "" (nonempty finish)) (nonempty native) in
      if native =?s "length" then Raise (invalid_response "output_truncated")
      else if (native =?s "content_filter") || refusal then Raise (ParticipationDecisionError "provider_error" "refusal")
      else if opt_str_eqb finish (Some "error") then Raise (ParticipationDecisionError "provider_error" "provider_error")
      else let text := py_strip content in
           if str_true text then parse_decision allowed_emojis text view
           else Raise (ParticipationDecisionError "empty_response" "")
  end.

(** [decide], on the context as the fitting leaves it: the view is read, then the model is
    asked. *)
Definition decide_on (max_input_tokens : Z) (allowed_emojis : list string) (prompt_tokens : Z) (context : dict)
    (call : judge_call_outcome) : result ParticipationDecision :=
  let! view := from_mapping context in
  decide_participation max_input_tokens allowed_emojis prompt_tokens view call.

End Parse.

(** ** The ambient adapter *)

(** The context of [AmbientJudgeAdapter.decide]. *)
Definition ambient_context (text context : string) : dict :=
  let row := λ id t, JObj [("event_id", JStr id); ("sender", JStr "?"); ("text", JStr t)] in
  [("messages", JArr (if str_true context then [row "ambient-context" context; row "ambient" text] else [row "ambient" text]));
   ("anchors", JArr []); ("allowed_actions", JArr [JStr "silence"; JStr "react"; JStr "comment"]);
   ("allowed_intents", JArr [JStr "initiate"])] ++ (if str_true context then [("guidance", JStr "")] else []).

(** Its verdict: a classified failure is silence, a comment is the old answer. *)
Definition ambient_verdict (outcome : result ParticipationDecision) : result (string * option string) :=
  match outcome with
  | Ok d => if pn_action d =?s "silence" then Ok ("silence", None)
            else if pn_action d =?s "react" then Ok ("react", pn_emoji d)
            else Ok ("answer", None)
  | Raise (OtherError "ParticipationDecisionError" _) => Ok ("silence", None)
  | Raise e => Raise e
  end.
