(* ===== verification/JudgeGuard.v ===== *)
(** * JudgeGuard

    What [processing/participation_runtime.py] checks around the judge: which exchange may
    be continued ([_is_continuation_candidate] over the anchors and messages of the
    context), what the judge is offered accordingly ([_apply_continuation_candidate]) and
    the second check of its decision ([_validate_decision]).

    The context and the snapshot are dicts of JSON values, tuples are arrays, and the nested
    policy object of a snapshot is the dict of its attributes. [str.casefold] is a
    parameter ([casefold]). *)

From Stdlib Require Import ZArith Lia Ascii.
From Stdlib Require Import Floats.SpecFloat.
From S2P Require Import Prelude Tables Json PyFloat PolicyEngine Signals Scheduler Judge.

Definition ParticipationBlockedError (reason : string) : py_error := OtherError "ParticipationBlockedError" reason.

(** ** The snapshot *)

Definition SNAPSHOT_ALIASES : list (string * string) :=
  [("allow_initiation", "allowInitiation"); ("allow_continuation", "allowContinuation"); ("allow_reactions", "allowReactions");
   ("max_unaddressed_judge_calls_per_hour", "maxUnaddressedJudgeCallsPerHour"); ("max_reevaluations", "maxReevaluations");
   ("opportunity_ttl_seconds", "opportunityTtlSeconds")].

(** [_snapshot_value] *)
Definition snapshot_value (snapshot : dict) (name : string) : option json :=
  if dict_has name snapshot then dict_get name snapshot else
  match dict_get "participation" snapshot with
  | Some (JObj nested) =>
      if dict_has name nested then dict_get name nested
      else match alias SNAPSHOT_ALIASES name with Some a => dict_get a nested | None => None end
  | _ => None
  end.

(** [_snapshot_bool] *)
Definition snapshot_bool (snapshot : dict) (name : string) (default_value : bool) : result bool :=
  match snapshot_value snapshot name with
  | None | Some JNull => Ok default_value
  | Some (JBool b) => Ok b
  | Some _ => Raise (ParticipationBlockedError "invalid_snapshot")
  end.

(** The tokens of a list of non-blank strings, each once, that pass [known]. *)
Fixpoint strict_tokens (known : string → bool) (items : list json) (found : list string) : result (list string) :=
  match items with
  | [] => Ok found
  | JStr s :: items' =>
      let token := py_strip s in
      if negb (str_true token) || negb (known token) then Raise (ParticipationBlockedError "invalid_snapshot")
      else strict_tokens known items' (if str_in token found then found else found ++ [token])
  | _ :: _ => Raise (ParticipationBlockedError "invalid_snapshot")
  end.

(** [_contribution_types] *)
Definition contribution_types (snapshot : dict) : result (list string) :=
  let value := match snapshot_value snapshot "allowed_contribution_types" with
               | None | Some JNull => snapshot_value snapshot "spontaneity_allowed_actions"
               | v => v
               end in
  match value with
  | None | Some JNull => Ok []
  | Some (JArr l) => strict_tokens (λ _, true) l []
  | Some _ => Raise (ParticipationBlockedError "invalid_snapshot")
  end.

(** [_snapshot_tokens] *)
Definition snapshot_tokens (snapshot : dict) (name : string) : result (option (list string)) :=
  match snapshot_value snapshot name with
  | None | Some JNull => Ok None
  | Some (JArr l) =>
      let! tokens := strict_tokens (λ t, str_in t ALL_ACTIONS || str_in t ["direct"; "continue"; "initiate"]) l [] in Ok (Some tokens)
  | Some _ => Raise (ParticipationBlockedError "invalid_snapshot")
  end.

(** [str(item) for item in (snapshot value or ())] *)
Definition comment_intents (snapshot : dict) : result (list string) :=
  let! items := iterate_or (snapshot_value snapshot "comment_allowed_intents") [] in Ok (map py_str items).

(** ** Anchors *)

Definition context_target (context : dict) : string * string :=
  (py_strip (str_or_empty (dict_get "channel" context)), py_strip (str_or_empty (dict_get "chat_id" context))).

(** [_anchor_tokens] *)
Definition anchor_tokens (anchor : dict) : list string :=
  List.filter str_true [py_strip (str_or_empty (dict_get "provider_message_id" anchor)); py_strip (str_or_empty (dict_get "effect_id" anchor))].

Definition is_true_field (d : dict) (name : string) : bool := match dict_get name d with Some (JBool true) => true | _ => false end.

(** [_anchor_is_closed] *)
Definition anchor_is_closed (anchor : dict) : bool :=
  existsb (is_true_field anchor) ["closed"; "exchange_closed"; "association_closed"; "social_closed"; "retired"; "replaced"]
  || existsb (λ name, str_true (py_strip (str_or_empty (dict_get name anchor)))) ["closed_at_ms"; "closed_at"; "replaced_by"].

(** A row that names a place names this one. *)
Definition same_place (row context : dict) : bool :=
  let (target_channel, target_chat) := context_target context in
  let (channel, chat) := context_target row in
  str_true target_channel && str_true target_chat && (channel =?s target_channel) && (chat =?s target_chat).
Definition names_place (row : dict) : bool := let (channel, chat) := context_target row in str_true channel || str_true chat.

(** [_anchor_is_same_target] *)
Definition anchor_is_same_target (anchor context : dict) : bool :=
  if names_place anchor then same_place anchor context
  else let (target_channel, target_chat) := context_target context in str_true target_channel && str_true target_chat.

(** The conditions of [_anchor_is_eligible] on one anchor. *)
Definition eligible_anchor (context : dict) (requested : string) (anchor : dict) : bool :=
  let tokens := anchor_tokens anchor in
  (str_or_empty (dict_get "delivery_state" anchor) =?s "delivered") && negb (is_none (head tokens))
  && (negb (str_true requested) || str_in requested tokens) && anchor_is_same_target anchor context && negb (anchor_is_closed anchor).

(** [_anchor_is_eligible] *)
Definition anchor_is_eligible (context : dict) (anchor_id : option string) : bool :=
  existsb (eligible_anchor context (py_strip (default "" anchor_id))) (mappings (items_of (dict_get "anchors" context))).

(** [_has_delivered_anchor] *)
Definition has_delivered_anchor (context : dict) : bool := anchor_is_eligible context None.

Definition REFERENCE_KEYS : list string :=
  ["reply_to_message_id"; "reply_to"; "replyToMessageId"; "quoted_message_id"; "quoted_provider_message_id"; "reference_message_id";
   "referenced_message_id"; "anchor_message_id"; "reply_to_effect_id"; "quoted_effect_id"].

Definition reference_value (value : option json) : option json :=
  match value with
  | Some (JObj d) => py_or (py_or (dict_get "message_id" d) (dict_get "provider_message_id" d)) (dict_get "id" d)
  | v => v
  end.

(** [_reference_tokens], through nested [metadata] *)
Fixpoint reference_tokens (fuel : nat) (source : dict) : list string :=
  List.filter str_true (map (λ key, py_strip (str_or_empty (reference_value (dict_get key source)))) REFERENCE_KEYS)
  ++ match fuel, dict_get "metadata" source with
     | S fuel', Some (JObj metadata) => reference_tokens fuel' metadata
     | _, _ => []
     end.

(** [_source_sender] *)
Definition source_sender (row : dict) : string :=
  py_strip (str_or_empty (py_or (py_or (dict_get "sender_id" row) (dict_get "sender" row)) (dict_get "speaker" row))).

(** [_context_time_ms] *)
Definition context_time_ms (row : dict) : result (option Z) :=
  let number := match dict_get "timestamp" row with Some (JInt z) => Some (JInt z) | Some (JFloat t) => Some (JFloat t) | _ => None end in
  match number with
  | Some v =>
      let! f := py_float v in
      let! ms := float_int (if SFltb (SFabs f) SECONDS_LIMIT then SFmul 53 1024 f THOUSAND else f) in
      Ok (Some ms)
  | None =>
      match dict_get "delivered_at_ms" row with
      | Some (JInt z) => Ok (Some z)
      | Some (JFloat t) => let! f := py_float (JFloat t) in let! ms := float_int f in Ok (Some ms)
      | _ => Ok None
      end
  end.

Section Guard.
  Context (casefold : string → string).

(** [_is_bot_sender] *)
Definition is_bot_sender (sender : string) : bool :=
  let token := casefold (py_strip sender) in
  str_in token ["assistant"; "arvid"; "bot"; "service:speakup"] || String.eqb (String.substring (String.length token - 4) 4 token) ":bot".

Definition FOREIGN_MARKERS : list string :=
  ["foreign_exchange"; "intervening_foreign_exchange"; "replacing_foreign_exchange"; "exchange_replaced"; "replaced_exchange"; "replaces_anchor"].
Definition marked (row : dict) : bool := existsb (is_true_field row) FOREIGN_MARKERS.

(** A message of somebody else between the anchor and the source. *)
Fixpoint foreign_between (messages : list dict) (source_id sender : string) (anchor_time source_time : Z) : result bool :=
  match messages with
  | [] => Ok false
  | row :: messages' =>
      if row_id row =?s source_id then foreign_between messages' source_id sender anchor_time source_time else
      let! time := context_time_ms row in
      match time with
      | Some t =>
          let other := source_sender row in
          if (anchor_time <? t) && (t <=? source_time) && str_true other && negb (other =?s sender) && negb (is_bot_sender other) then Ok true
          else foreign_between messages' source_id sender anchor_time source_time
      | None => foreign_between messages' source_id sender anchor_time source_time
      end
  end.

(** [_has_replacing_foreign_exchange] *)
Definition has_replacing_foreign_exchange (source anchor context : dict) (sender : string) : result bool :=
  let messages := mappings (items_of (dict_get "messages" context)) in
  if marked source || marked anchor || marked context || existsb marked messages then Ok true else
  let! anchor_time := context_time_ms anchor in
  let! source_time := context_time_ms source in
  match anchor_time, source_time with
  | Some a, Some t => if t <? a then Ok false else foreign_between messages (row_id source) sender a t
  | _, _ => Ok false
  end.

(** The first item for which a fallible test holds. *)
Fixpoint any_result {A} (p : A → result bool) (l : list A) : result bool :=
  match l with [] => Ok false | x :: l' => let! b := p x in if b then Ok true else any_result p l' end.

(** An anchor a short message without references continues. *)
Definition continues_anchor (context source : dict) (sender : string) (anchor : dict) : result bool :=
  let! anchor_time := context_time_ms anchor in
  let! source_time := context_time_ms source in
  if match anchor_time, source_time with Some a, Some t => t <? a | _, _ => false end then Ok false
  else let! foreign := has_replacing_foreign_exchange source anchor context sender in Ok (negb foreign).

(** One current source as evidence of a continuation. *)
Definition source_continues (context : dict) (anchors : list dict) (source : dict) : result bool :=
  if names_place source && negb (same_place source context) then Ok false else
  let sender := source_sender source in
  if negb (str_true sender) || is_bot_sender sender then Ok false else
  let references := reference_tokens (json_depth (JObj source)) source in
  if existsb (λ anchor, existsb (λ t, str_in t references) (anchor_tokens anchor)) anchors then Ok true else
  let text := py_strip (str_or_empty (dict_get "text" source)) in
  if negb (str_true text) || (120 <? py_len text) || negb (is_none (head references)) then Ok false
  else any_result (continues_anchor context source sender) anchors.

(** [_is_continuation_candidate] *)
Definition is_continuation_candidate (o : ParticipationOpportunity) (context : dict) : result bool :=
  match dict_get "anchors" context, dict_get "messages" context with
  | Some (JArr anchors), Some (JArr messages) =>
      match List.filter (eligible_anchor context "") (mappings anchors) with
      | [] => Ok false
      | eligible =>
          let source_ids := List.filter str_true (map py_strip (op_sources o)) in
          any_result (source_continues context eligible) (List.filter (λ row, str_in (row_id row) source_ids) (mappings messages))
      end
  | _, _ => Ok false
  end.

(** ** What the judge is offered *)

(** A reservation limit of a category: number, window and kind. *)
Record ledger_limit := MkLedgerLimit { ll_category : string; ll_limit : Z; ll_window : Z; ll_kind : option string }.

(** One entry of [_snapshot_limits]. *)
Definition snapshot_limit (category : string) (entry : json) : result ledger_limit :=
  let refuse := Raise (ParticipationBlockedError "invalid_reservation_limits") in
  match entry with
  | JArr (JStr c :: JInt n :: JInt window :: rest) =>
      if negb (c =?s category) || (n <=? 0) || (window <=? 0) then refuse else
      match rest with
      | [] => if category =?s "initiation" then refuse else Ok (MkLedgerLimit c n window None)
      | [JStr kind] => if kind =?s (if category =?s "initiation" then "calendar_day" else "rolling") then Ok (MkLedgerLimit c n window (Some kind))
                       else refuse
      | _ => refuse
      end
  | _ => refuse
  end.

Fixpoint map_result {A B} (f : A → result B) (l : list A) : result (list B) :=
  match l with [] => Ok [] | x :: l' => let! y := f x in let! rest := map_result f l' in Ok (y :: rest) end.

(** [_snapshot_limits] *)
Definition snapshot_limits (snapshot : dict) (name category : string) : result (list ledger_limit) :=
  match snapshot_value snapshot name with
  | None | Some JNull => Ok []
  | Some (JArr l) => map_result (snapshot_limit category) l
  | Some _ => Raise (ParticipationBlockedError "invalid_reservation_limits")
  end.

(** [ParticipationContextBounds] *)
Record ContextBounds := MkBounds {
  cb_window_minutes : Z;
  cb_max_messages : Z;
  cb_max_anchors : Z;
  cb_context_mode : string;
  cb_lull_minutes : Z;
  cb_burst_messages : Z;
  cb_burst_minutes : Z;
  cb_conversation_min_messages : Z;
}.
Definition default_bounds : ContextBounds := MkBounds 120 40 10 "window" 25 8 15 8.

(** [ParticipationDecisionInputs] *)
Record DecisionInputs := MkInputs {
  di_snapshot : dict;
  di_bounds : ContextBounds;
  di_allowed_actions : list string;
  di_allowed_intents : list string;
  di_budgets : list (string * Z);
  di_reservations : list (string * list ledger_limit);
  di_approval_required : bool;
  di_arbitration_revision : Z;
  di_current_source_ids : list string;
  di_continuation_candidate : bool;
}.

#[export] Instance eta_inputs : Updatable DecisionInputs :=
  λ i, MkInputs (di_snapshot i) (di_bounds i) (di_allowed_actions i) (di_allowed_intents i) (di_budgets i) (di_reservations i)
         (di_approval_required i) (di_arbitration_revision i) (di_current_source_ids i) (di_continuation_candidate i).

(** A set with a member added or taken out. *)
Definition with_member (x : string) (l : list string) : list string := if str_in x l then l else l ++ [x].
Definition without (x : string) (l : list string) : list string := List.filter (λ y, negb (y =?s x)) l.
Definition strings (l : list string) : json := JArr (map JStr l).

(** [sorted({*actions, "comment"}, key=_ACTIONS.index)] *)
Definition with_comment (actions : list string) : result (list string) :=
  if forallb (λ a, str_in a ALL_ACTIONS) actions
  then Ok (List.filter (λ a, str_in a (with_member "comment" actions)) ALL_ACTIONS)
  else Raise (ValueError "tuple.index(x): x not in tuple").

(** [_apply_continuation_candidate] *)
Definition apply_continuation_candidate (o : ParticipationOpportunity) (inputs : DecisionInputs) (context : dict)
    : result (DecisionInputs * dict) :=
  let snapshot := di_snapshot inputs in
  let! hint := snapshot_bool snapshot "continuation_candidate" false in
  let! candidate := if hint then is_continuation_candidate o context else Ok false in
  let! allow := snapshot_bool snapshot "allow_continuation" false in
  let! unavailable := snapshot_bool snapshot "writer_unavailable" false in
  let! configured := comment_intents snapshot in
  let comment := if candidate && allow && negb unavailable then with_member "continue" configured else without "continue" configured in
  let intents := if negb (candidate && allow)
                 then (if str_in "comment" (di_allowed_actions inputs) then without "continue" (di_allowed_intents inputs)
                       else di_allowed_intents inputs)
                 else with_member "continue" (di_allowed_intents inputs) in
  let! actions :=
    if str_in "comment" (di_allowed_actions inputs) && is_none (head comment) then Ok (without "comment" (di_allowed_actions inputs))
    else if negb (str_in "comment" (di_allowed_actions inputs)) && negb (is_none (head comment)) && negb unavailable then
      let! requested := snapshot_tokens snapshot "allowed_actions" in
      let reply_action := snapshot_value snapshot "reply_action" in
      if match requested with None => true | Some l => str_in "comment" l end then
        match reply_action with
        | Some (JArr _) | Some (JObj _) => Raise (TypeError "unhashable type")
        | Some (JStr a) => if str_in a ["react"; "silence"] then Ok (di_allowed_actions inputs) else with_comment (di_allowed_actions inputs)
        | _ => with_comment (di_allowed_actions inputs)
        end
      else Ok (di_allowed_actions inputs)
    else Ok (di_allowed_actions inputs) in
  let kept := List.filter (λ r : string * list ledger_limit, negb (r.1 =?s "continue")) (di_reservations inputs) in
  let! limits := if candidate && allow then snapshot_limits snapshot "comment_limits" "comment" else Ok [] in
  let reservations := match limits with [] => kept | _ => kept ++ [("continue", limits)] end in
  Ok (inputs <| di_snapshot := dict_set "comment_allowed_intents" (strings (order_by String.leb comment))
                                 (dict_set "continuation_candidate" (JBool candidate) snapshot) |>
             <| di_allowed_actions := actions |> <| di_allowed_intents := intents |> <| di_reservations := reservations |>
             <| di_continuation_candidate := candidate |>,
      dict_set "allowed_intents" (strings (order_by String.leb intents))
        (dict_set "allowed_actions" (strings actions)
           (dict_set "allows_continuation" (JBool (str_in "continue" comment))
              (dict_set "continuation_candidate" (JBool candidate) context)))).

(** ** What it may meme with *)

(** [MemeOffer] *)
Record MemeOffer := MkMemeOffer {
  mo_templates : list (string * string * Z);
  mo_photos : list (string * string);
  mo_backgrounds : bool;
}.

Definition LINE_FEED : string := String "010" EmptyString.

(** [MemeOffer.context_fields] *)
Definition context_fields (offer : MemeOffer) : dict :=
  [("meme_templates", strings (map (λ t : string * string * Z, t.1.1) (mo_templates offer)));
   ("meme_template_text", JStr (join LINE_FEED (map (λ t : string * string * Z,
      t.1.1 +:+ ": " +:+ t.1.2 +:+ " (" +:+ py_str (JInt t.2) +:+ " captions)") (mo_templates offer))));
   ("meme_photos", JArr (map (λ p : string * string, JObj [("id", JStr p.1); ("description", JStr p.2)]) (mo_photos offer)));
   ("meme_backgrounds", JBool (mo_backgrounds offer))].

Definition is_history_paused (e : py_error) : bool :=
  match e with OtherError ty _ => ty =?s "HistoryPaused" | _ => false end.

(** [_with_meme_offer], given the outcome of [ParticipationMemes.offer] *)
Definition with_meme_offer (outcome : result MemeOffer) (inputs : DecisionInputs) (context : dict) : result (DecisionInputs * dict) :=
  if negb (existsb (λ a, str_in a IMAGE_ACTIONS) (di_allowed_actions inputs)) then Ok (inputs, context) else
  let! offer := match outcome with
                | Ok offer => Ok (if is_none (head (mo_templates offer)) then None else Some offer)
                | Raise e => if is_history_paused e then Raise e else Ok None
                end in
  match offer with
  | None =>
      let actions := List.filter (λ a, negb (str_in a IMAGE_ACTIONS)) (di_allowed_actions inputs) in
      Ok (inputs <| di_allowed_actions := actions |>, dict_set "allowed_actions" (strings actions) context)
  | Some offer =>
      Ok (inputs, dict_set "allowed_actions" (strings (di_allowed_actions inputs))
                    (dict_set "meme_budget_text" (JStr (str_or_empty (snapshot_value (di_snapshot inputs) "meme_budget_text")))
                       (dict_update context (context_fields offer))))
  end.

(** ** The second check *)

(** [_validate_decision] *)
Definition validate_decision (d : ParticipationDecision) (o : ParticipationOpportunity) (inputs : DecisionInputs) (context : dict)
    : result unit :=
  let action := pn_action d in
  if action =?s "silence" then Ok tt
  else if negb (str_in action (di_allowed_actions inputs)) then Raise (invalid_response "action_not_allowed") else
  let target := py_strip (default "" (pn_target_message_id d)) in
  let! _ := if str_in action ("react" :: "comment" :: IMAGE_ACTIONS) then
              if negb (str_true target) then Raise (ParticipationDecisionError "missing_target" "")
              else if negb (str_in target (op_sources o)) then Raise (ParticipationDecisionError "unknown_evidence" "target_not_current")
              else Ok tt
            else Ok tt in
  if action =?s "react" then
    if match pn_emoji d with Some e => str_true e | None => false end then Ok tt else Raise (ParticipationDecisionError "missing_target" "")
  else if str_in action IMAGE_ACTIONS then
    if is_some (pn_meme d) then Ok tt else Raise (invalid_response "meme_plan_missing")
  else if negb (str_in (pn_intent d) (di_allowed_intents inputs)) then Raise (invalid_response "intent_not_allowed") else
  let! allowed := comment_intents (di_snapshot inputs) in
  if negb (str_in (pn_intent d) allowed) then Raise (invalid_response "intent_not_allowed") else
  let! types := contribution_types (di_snapshot inputs) in
  if negb (str_in (py_strip (default "" (pn_contribution_type d))) types) then Raise (invalid_response "contribution_type_not_allowed") else
  if pn_intent d =?s "continue" then
    if negb (has_delivered_anchor context) then Raise (invalid_response "continuation_without_delivered_anchor") else
    let! candidate := is_continuation_candidate o context in
    if negb candidate then Raise (invalid_response "continuation_not_candidate")
    else if negb (anchor_is_eligible context (pn_anchor_message_id d)) then Raise (invalid_response "continuation_anchor_closed")
    else Ok tt
  else Ok tt.

End Guard.
