(* ===== verification/JudgeProps.v ===== *)
(** * JudgeProps

    Whatever the language model of the participation judge answers: it fails with a
    classified reason or leaves a decision inside the view it was given, and what passes the
    second check is bound to the sources of the opportunity and to exchanges that are really
    open. *)

From Stdlib Require Import ZArith Lia Ascii.
From S2P Require Import Prelude Tables Json PyFloat PolicyEngine Router Signals Scheduler Continuation Judge JudgeGuard.

(** A failure a caller can classify: a stable reason, or the cancellation. *)
Definition classified (e : py_error) : Prop :=
  e = CancelledError ∨ ∃ reason detail, e = ParticipationDecisionError reason detail ∧ reason ∈ DECISION_ERROR_REASONS.

(** ** Failures *)

Lemma classified_error reason detail : str_in reason DECISION_ERROR_REASONS = true → classified (ParticipationDecisionError reason detail).
Proof. intros Hr%str_in_spec. right. by exists reason, detail. Qed.

Lemma rbind_Raise {A B} (m : result A) (k : A → result B) e :
  rbind m k = Raise e → m = Raise e ∨ ∃ a, m = Ok a ∧ k a = Raise e.
Proof. destruct m as [a|x]; [right; by exists a|intros [= ->]; by left]. Qed.

(** What [json.loads] raised on some text, other than that it is no JSON. *)
Definition loads_raised (loads : string → result json) (e : py_error) : Prop :=
  is_decode_error e = false ∧ ∃ text, loads text = Raise e.

Ltac by_reason := first [done | intros [= <-]; by apply classified_error].

Ltac by_failure := first [done | intros [= <-]; left; by apply classified_error].

Lemma collect_evidence_error known items l e : collect_evidence known items l = Raise e → classified e.
Proof.
  revert l. induction items as [|v items IH]; intros l; simpl; [done|]. destruct v; try by_reason. cbv zeta.
  destruct (negb _); [apply IH|]. destruct (negb _); [by_reason|apply IH].
Qed.

Lemma parse_evidence_error view payload e : parse_evidence view payload = Raise e → classified e.
Proof.
  unfold parse_evidence. destruct (dict_get _ _) as [[| | | | |l|]|]; try by_reason.
  destruct (_ <? _)%nat; [by_reason|apply collect_evidence_error].
Qed.

Lemma parse_intent_error action view payload e : parse_intent action view payload = Raise e → classified e.
Proof.
  unfold parse_intent. intros [Hx|(i & _ & Hx)]%rbind_Raise; revert Hx.
  - destruct (action =?s "comment"); [|done]. destruct (alias _ _); by_reason.
  - destruct (_ && _); [by_reason|]. destruct (_ && _); [by_reason|]. destruct (_ && _); by_reason.
Qed.

Lemma parse_target_error view payload e : parse_target view payload = Raise e → classified e.
Proof.
  unfold parse_target. cbv zeta. destruct (match bounded_id _ with Some t => Some t | None => _ end); [|by_reason].
  destruct (negb _); [by_reason|]. destruct (_ && _); by_reason.
Qed.

Lemma parse_meme_error payload view e : parse_meme_plan payload view = Raise e → classified e.
Proof.
  unfold parse_meme_plan. cbv zeta. destruct (negb _); [by_reason|]. destruct (dict_get _ _) as [[| | | | |l|]|]; try by_reason.
  destruct (negb _); [by_reason|]. destruct (_ =?s _); [destruct (negb _); by_reason|].
  destruct (_ =?s _); [destruct (bounded_id _); [destruct (str_in _ _)|]; by_reason|].
  destruct (negb _); [by_reason|]. destruct (str_true _); by_reason.
Qed.

Lemma first_object_error loads texts e : first_object loads texts = Raise e → loads_raised loads e.
Proof.
  induction texts as [|t texts IH]; simpl; [done|]. destruct (loads t) as [v|x] eqn:E; [by destruct v|].
  destruct (is_decode_error x) eqn:Ex; [done|]. intros [= <-]. split; [done|by exists t].
Qed.

Lemma parse_payload_error loads raw e : parse_payload loads raw = Raise e → loads_raised loads e.
Proof. unfold parse_payload. cbv zeta. destruct (str_true _); [apply first_object_error|done]. Qed.

Lemma parse_decision_error loads hw emojis raw view e : parse_decision loads hw emojis raw view = Raise e → classified e ∨ loads_raised loads e.
Proof.
  unfold parse_decision. intros [Hx|(payload & _ & Hx)]%rbind_Raise; [right; by apply parse_payload_error in Hx|].
  left. revert Hx. destruct payload as [payload|]; [|by_reason]. destruct (alias _ _) as [action|]; [|by_reason]. destruct (negb _); [by_reason|]. cbv zeta. destruct (action =?s "silence"); [done|].
  intros [Hx|(intent & _ & Hx)]%rbind_Raise; [by apply parse_intent_error in Hx|].
  apply rbind_Raise in Hx as [Hx|(evidence & _ & Hx)]; [by apply parse_evidence_error in Hx|]. revert Hx.
  destruct (match _ with Some a => negb _ | None => false end); [by_reason|].
  intros [Hx|(target & _ & Hx)]%rbind_Raise; [by apply parse_target_error in Hx|]. revert Hx.
  destruct (_ && _); [done|]. destruct (_ && _); [by_reason|]. destruct (_ && _); [by_reason|].
  intros [Hx|(emoji & _ & Hx)]%rbind_Raise; [revert Hx; destruct (_ =?s _); [destruct (allowed_reaction _ _ _)|]; by_reason|].
  apply rbind_Raise in Hx as [Hx|(meme & _ & [=])]. revert Hx. destruct (str_in _ _); [|done].
  intros [Hx|(m & _ & [=])]%rbind_Raise. by apply parse_meme_error in Hx.
Qed.

Lemma decide_error loads hw max emojis tokens view call e :
  decide_participation loads hw max emojis tokens view call = Raise e → classified e ∨ loads_raised loads e.
Proof.
  unfold decide_participation. destruct (_ <? _); [by_failure|]. destruct call as [| | |finish native refusal content]; try by_failure.
  - intros [= <-]. left. by left.
  - cbv zeta. destruct (_ =?s _); [by_failure|]. destruct (_ || _); [by_failure|]. destruct (opt_str_eqb _ _); [by_failure|].
    destruct (str_true _); [apply parse_decision_error|by_failure].
Qed.

(** A context that cannot be read: what should be a list of names is something else, or a
    message has a timestamp too large for a float. *)
Definition unreadable (context : dict) (e : py_error) : Prop :=
  (∃ name v, name ∈ ["allowed_actions"; "allowed_contribution_types"] ∧ dict_get name context = Some v ∧ iterate v = Raise e)
  ∨ (∃ row z, row ∈ mappings (items_of (dict_get "messages" context)) ∧ dict_get "timestamp" row = Some (JInt z)
       ∧ py_float (JInt z) = Raise e).

Lemma iterate_or_error value dflt e : iterate_or value dflt = Raise e → ∃ v, value = Some v ∧ iterate v = Raise e.
Proof. destruct value as [v|]; [|done]. simpl. destruct (truthy v); [eauto|done]. Qed.

Lemma sort_key_error row e :
  message_sort_key row = Raise e → ∃ z, dict_get "timestamp" row = Some (JInt z) ∧ py_float (JInt z) = Raise e.
Proof.
  unfold message_sort_key. intros [Hx|(f & _ & [=])]%rbind_Raise. destruct (dict_get "timestamp" row) as [[|b|z|t|t|l|d]|]; try done.
  - exists z. split; [done|]. revert Hx. cbn [py_float]. by destruct (int_float z).
  - cbn [py_float] in Hx. by destruct (parse_float _).
  - cbn [py_float] in Hx. by destruct (parse_float _).
Qed.

Lemma newest_error rows e : newest rows = Raise e → ∃ row, row ∈ rows ∧ message_sort_key row = Raise e.
Proof.
  assert (∀ best key, newest_from best key rows = Raise e → ∃ row, row ∈ rows ∧ message_sort_key row = Raise e) as Hfrom.
  { induction rows as [|r rows IH]; intros best key; simpl; [done|]. intros [Hx|(k & _ & Hx)]%rbind_Raise; [exists r; split; [left|done]|].
    destruct (key_gt _ _); destruct (IH _ _ Hx) as (row & ? & ?); exists row; (split; [by right|done]). }
  destruct rows as [|r rows]; [done|]. simpl. intros [Hx|(k & Hk & Hx)]%rbind_Raise; [exists r; split; [left|done]|].
  apply rbind_Raise in Hx as [Hx|(best & _ & [=])]. apply (Hfrom r k). simpl. rewrite Hk. simpl.
  destruct (key_gt k k) eqn:E; exact Hx.
Qed.

Lemma from_mapping_error context e : from_mapping context = Raise e → unreadable context e.
Proof.
  assert (∀ rows, (∀ row, row ∈ rows → row ∈ mappings (items_of (dict_get "messages" context))) → newest rows = Raise e →
    unreadable context e) as Hrows.
  { intros rows Hr Hx. apply newest_error in Hx as (row & Hin & (z & ? & ?)%sort_key_error). right. exists row, z. eauto. }
  unfold from_mapping. cbv zeta. intros [Hx|(raw & _ & Hx)]%rbind_Raise.
  { apply iterate_or_error in Hx as (v & ? & ?). left. exists "allowed_actions", v. split; [left|done]. }
  apply rbind_Raise in Hx as [Hx|(n1 & _ & Hx)].
  { apply Hrows in Hx; [done|]. intros row. destruct (match _ with Some (JArr _) => true | _ => false end); [|done].
    intros [Hin _]%list_elem_of_In%filter_In. by apply list_elem_of_In. }
  apply rbind_Raise in Hx as [Hx|(n2 & _ & Hx)]; [by apply Hrows in Hx|].
  apply rbind_Raise in Hx as [Hx|(types & _ & Hx)]; [|by destruct (meme_view context) as [[? ?] ?]].
  apply iterate_or_error in Hx as (v & ? & ?). left. exists "allowed_contribution_types", v. split; [right; left|done].
Qed.

(** C12: How the judge fails: on every context, with every outcome of the call and every text
    of the model, an attempt leaves a decision, or fails with the cancellation or with
    [ParticipationDecisionError] and one of its stable reasons - but for two kinds of failure
    that the documentation of the module does not have and that reach the caller as they are:
    what the JSON decoder raises on a text beyond its limits, and what reading the context
    raises (a list of names that is none, a timestamp too large for a float). *)
Theorem judge_error_classified loads has_word_char max_tokens emojis tokens context call e :
  decide_on loads has_word_char max_tokens emojis tokens context call = Raise e →
  classified e ∨ loads_raised loads e ∨ unreadable context e.
Proof.
  unfold decide_on. intros [Hx|(view & _ & Hx)]%rbind_Raise; [right; right; by apply from_mapping_error|].
  apply decide_error in Hx as [?|?]; auto.
Qed.

(** ** Decisions *)

(** A meme plan made of what was offered. *)
Definition meme_offered (view : JudgeContext) (m : MemePlan) : Prop :=
  existsb str_true (mp_captions m) = true ∧ (length (mp_captions m) ≤ MAX_MEME_CAPTIONS)%nat ∧
  ((mp_source m = "template" ∧ ∃ t, mp_template m = Some t ∧ t ∈ jc_meme_templates view)
   ∨ (mp_source m = "photo" ∧ ∃ p, mp_photo_id m = Some p ∧ p ∈ jc_meme_photo_ids view)
   ∨ (mp_source m = "background" ∧ jc_meme_backgrounds view = true ∧ ∃ p, mp_prompt m = Some p ∧ str_true p = true)).

(** A decision that uses nothing but what the view supplied. *)
Record within_view (emojis : list string) (view : JudgeContext) (d : ParticipationDecision) : Prop := {
  wv_action : pn_action d ∈ jc_allowed_actions view;
  wv_target : ∃ t, pn_target_message_id d = Some t ∧ t ∈ jc_message_ids view
    ∧ (jc_has_current_source_ids view = true → t ∈ jc_current_source_ids view)
    ∧ (is_trend_source (Some t) = true → pn_action d = "comment" ∧ pn_intent d = "initiate");
  wv_evidence : NoDup (pn_evidence_ids d) ∧ (length (pn_evidence_ids d) ≤ MAX_EVIDENCE_IDS)%nat
    ∧ ∀ x, x ∈ pn_evidence_ids d → x ∈ jc_evidence_ids view;
  wv_anchor : ∀ a, pn_anchor_message_id d = Some a → a ∈ jc_anchor_ids view ∧ pn_action d = "comment";
  wv_comment : pn_action d = "comment" → pn_intent d ∈ jc_allowed_intents view ∧ str_true (pn_purpose d) = true
    ∧ (pn_intent d = "direct" → jc_direct_addressed view = true)
    ∧ (pn_intent d = "continue" → jc_allows_continuation view = true ∧ is_Some (pn_anchor_message_id d))
    ∧ match pn_contribution_type d with Some c => c ∈ jc_allowed_contribution_types view | None => jc_allowed_contribution_types view = [] end;
  wv_gesture : pn_action d ≠ "comment" → pn_intent d = "initiate" ∧ pn_purpose d = "" ∧ pn_contribution_type d = None
    ∧ pn_closes_exchange d = false;
  wv_emoji : match pn_emoji d with
             | Some e => pn_action d = "react" ∧ e ∈ map py_strip emojis ∧ str_true e = true
             | None => pn_action d ≠ "react"
             end;
  wv_meme : match pn_meme d with
            | Some m => pn_action d ∈ IMAGE_ACTIONS ∧ meme_offered view m
            | None => pn_action d ∉ IMAGE_ACTIONS
            end;
}.

Lemma collect_evidence_ok known items l found :
  collect_evidence known items l = Ok found → NoDup l → (∀ x, x ∈ l → x ∈ known) →
  NoDup found ∧ (length found ≤ length l + length items)%nat ∧ ∀ x, x ∈ found → x ∈ known.
Proof.
  revert l. induction items as [|v items IH]; intros l; simpl; [intros [= <-]; (split; [done|split; [lia|done]])|].
  destruct v as [| | | |s| |]; try done. cbv zeta. destruct (negb (str_true _)).
  - intros Hx Hn Hk. destruct (IH _ Hx Hn Hk) as (? & ? & ?). (split; [done|split; [lia|done]]).
  - destruct (negb (str_in (py_strip s) known)) eqn:Ek; [done|]. apply negb_false_iff, str_in_spec in Ek.
    destruct (str_in (py_strip s) l) eqn:El; intros Hx Hn Hk.
    + destruct (IH _ Hx Hn Hk) as (? & ? & ?). (split; [done|split; [lia|done]]).
    + destruct (IH _ Hx) as (? & Hl & ?).
      * apply NoDup_app. split; [done|]. split; [|apply NoDup_singleton]. intros x Hin ->%list_elem_of_singleton.
        apply str_in_spec in Hin. congruence.
      * intros x. rewrite elem_of_app, list_elem_of_singleton. intros [?| ->]; [by apply Hk|done].
      * rewrite length_app in Hl. simpl in Hl. (split; [done|split; [lia|done]]).
Qed.

Lemma parse_evidence_ok view payload found :
  parse_evidence view payload = Ok found →
  NoDup found ∧ (length found ≤ MAX_EVIDENCE_IDS)%nat ∧ ∀ x, x ∈ found → x ∈ jc_evidence_ids view.
Proof.
  assert (NoDup (@nil string) ∧ (length (@nil string) ≤ MAX_EVIDENCE_IDS)%nat ∧ ∀ x, x ∈ @nil string → x ∈ jc_evidence_ids view) as Hnil.
  { (split; [constructor|split; [simpl; lia|set_solver]]). }
  unfold parse_evidence. destruct (dict_get _ _) as [[| | | | |l|]|]; try done; try (by intros [= <-]).
  destruct (_ <? _)%nat eqn:El; [done|]. apply Nat.ltb_ge in El. intros Hx.
  destruct (collect_evidence_ok _ _ _ _ Hx) as (? & Hl & ?); [constructor|set_solver|]. simpl in Hl. (split; [done|split; [lia|done]]).
Qed.

Lemma parse_intent_ok action view payload intent :
  parse_intent action view payload = Ok intent →
  (action ≠ "comment" → intent = "initiate")
  ∧ (action = "comment" → intent ∈ jc_allowed_intents view ∧ (intent = "direct" → jc_direct_addressed view = true)
     ∧ (intent = "continue" → jc_allows_continuation view = true)).
Proof.
  unfold parse_intent. intros (i & Hi & Hx)%rbind_Ok. revert Hx.
  destruct (_ && negb (jc_direct_addressed view)) eqn:E1; [done|]. destruct (_ && negb (str_in i _)) eqn:E2; [done|].
  destruct (_ && negb (jc_allows_continuation view)) eqn:E3; [done|]. intros [= <-]. split.
  - intros Hne. destruct (action =?s "comment") eqn:Ea; [by apply str_eqb_eq in Ea|]. by injection Hi as <-.
  - intros ->. rewrite str_eqb_refl in *. cbn [andb] in *. rewrite andb_true_r in E3.
    apply negb_false_iff, str_in_spec in E2. split; [done|]. split; intros ->; rewrite str_eqb_refl in *; cbn [andb] in *.
    + by apply negb_false_iff in E1.
    + by apply negb_false_iff in E3.
Qed.

Lemma parse_target_ok view payload t :
  parse_target view payload = Ok t →
  t ∈ jc_message_ids view ∧ (jc_has_current_source_ids view = true → t ∈ jc_current_source_ids view).
Proof.
  unfold parse_target. cbv zeta. destruct (match bounded_id _ with Some t => Some t | None => _ end) as [x|]; [|done].
  destruct (negb (str_in x (jc_message_ids view))) eqn:E1; [done|]. destruct (_ && _) eqn:E2; [done|]. intros [= <-].
  apply negb_false_iff, str_in_spec in E1. split; [done|]. intros Hc. rewrite Hc in E2. by apply negb_false_iff, str_in_spec in E2.
Qed.

Lemma parse_meme_ok payload view m : parse_meme_plan payload view = Ok m → meme_offered view m.
Proof.
  unfold parse_meme_plan, meme_offered. cbv zeta. destruct (negb _); [done|]. destruct (dict_get _ _) as [[| | | | |raw|]|]; try done.
  set (captions := map _ (take _ raw)).
  assert (length captions ≤ MAX_MEME_CAPTIONS)%nat as Hl by (unfold captions; rewrite length_map, length_take; lia).
  destruct (negb (existsb str_true captions)) eqn:Ec; [done|]. apply negb_false_iff in Ec.
  destruct (_ =?s "template").
  { destruct (negb (str_in _ _)) eqn:Et; [done|]. intros [= <-]. apply negb_false_iff, str_in_spec in Et. eauto 10. }
  destruct (_ =?s "photo").
  { destruct (bounded_id _) as [id|]; [|done]. destruct (str_in id _) eqn:Ei; [|done]. intros [= <-]. apply str_in_spec in Ei. eauto 10. }
  destruct (negb (jc_meme_backgrounds view)) eqn:Eb; [done|]. apply negb_false_iff in Eb.
  destruct (str_true _) eqn:Ep; [|done]. intros [= <-]. eauto 10.
Qed.

Lemma parse_contribution_ok view payload :
  match parse_contribution view payload with
  | Some c => c ∈ jc_allowed_contribution_types view
  | None => jc_allowed_contribution_types view = []
  end.
Proof.
  unfold parse_contribution. cbv zeta. set (named := bounded_id _).
  destruct (match named with Some c => str_in c _ | None => false end) eqn:En.
  { destruct named as [c|]; [|done]. by apply str_in_spec. }
  destruct (str_in "observation" _) eqn:Eo; [by apply str_in_spec|].
  destruct (order_by String.leb (jc_allowed_contribution_types view)) as [|c l] eqn:El; simpl.
  - apply Permutation_nil. symmetry. rewrite <- El. symmetry. apply order_by_perm.
  - apply (elem_of_order_by String.leb). rewrite El. left.
Qed.

Lemma allowed_reaction_ok hw v emojis e : allowed_reaction hw v emojis = Some e → e ∈ map py_strip emojis ∧ str_true e = true.
Proof.
  unfold allowed_reaction. cbv zeta. destruct (negb (looks_like_emoji _ _)) eqn:El; [done|]. destruct (str_in _ _) eqn:Ei; [|done].
  intros [= <-]. split; [by apply str_in_spec|]. apply negb_false_iff in El. unfold looks_like_emoji in El. cbv zeta in El.
  destruct (str_true (py_strip (py_strip v))) eqn:Et; [|done]. by destruct (py_strip v).
Qed.

Lemma parse_decision_within loads hw emojis raw view d :
  parse_decision loads hw emojis raw view = Ok d → pn_action d = "silence" ∨ within_view emojis view d.
Proof.
  unfold parse_decision. intros (payload & _ & Hx)%rbind_Ok. revert Hx. destruct payload as [payload|]; [|done]. destruct (alias _ _) as [action|]; [|done].
  destruct (negb (str_in action _)) eqn:Eact; [done|]. apply negb_false_iff, str_in_spec in Eact. cbv zeta.
  destruct (action =?s "silence") eqn:Esil; [intros [= <-]; by left|].
  intros (intent & Hintent & (evidence & Hev & Hx)%rbind_Ok)%rbind_Ok. apply parse_intent_ok in Hintent as [Hi1 Hi2].
  apply parse_evidence_ok in Hev. revert Hx.
  set (anchor := if action =?s "comment" then bounded_id _ else None).
  destruct (match anchor with Some a => negb _ | None => false end) eqn:Ean; [done|].
  intros (target & Htarget & Hx)%rbind_Ok. apply parse_target_ok in Htarget as [Ht1 Ht2]. revert Hx.
  destruct (is_trend_source (Some target) && _) eqn:Etrend; [intros [= <-]; by left|].
  destruct ((intent =?s "continue") && _ && _) eqn:Econt; [done|]. destruct (_ && negb (str_true _)) eqn:Epur; [done|].
  intros (emoji & Hemoji & (meme & Hmeme & [= <-])%rbind_Ok)%rbind_Ok. right. split; simpl.
  - done.
  - exists target. do 3 (split; [done|]). intros Htr. unfold is_trend_source in *. rewrite Htr in Etrend. apply negb_false_iff, andb_true_iff in Etrend as [E1 E2].
    by apply str_eqb_eq in E1, E2.
  - done.
  - unfold anchor. intros a Ha. destruct (action =?s "comment") eqn:Ec; [|done]. apply str_eqb_eq in Ec. subst anchor. rewrite Ha in Ean.
    by apply negb_false_iff, str_in_spec in Ean.
  - intros ->. rewrite str_eqb_refl in *. cbn [andb] in *. destruct (Hi2 eq_refl) as (Hin & Hd & Hc).
    split; [done|]. split; [by apply negb_false_iff in Epur|]. split; [done|]. split; [|apply parse_contribution_ok].
    intros ->. split; [by apply Hc|]. rewrite str_eqb_refl in Econt. simpl in Econt. fold anchor. by destruct anchor.
  - intros Hne. destruct (action =?s "comment") eqn:Ec; [by apply str_eqb_eq in Ec|]. by split; [apply Hi1|].
  - destruct (action =?s "react") eqn:Er.
    + apply str_eqb_eq in Er. destruct (allowed_reaction _ _ _) as [e|] eqn:Ee; [|done]. injection Hemoji as <-.
      apply allowed_reaction_ok in Ee as [? ?]. done.
    + injection Hemoji as <-. intros ->. by rewrite str_eqb_refl in Er.
  - destruct (str_in action IMAGE_ACTIONS) eqn:Eimg.
    + apply rbind_Ok in Hmeme as (m & Hm & [= <-]). split; [by apply str_in_spec|by apply (parse_meme_ok payload)].
    + injection Hmeme as <-. intros Hin%str_in_spec. congruence.
Qed.

(** The model only narrows: whatever it answers, a decision is silence or stays within the
    view - an offered action; a target among the supplied messages, current where current
    sources are supplied, a trend card only as a fresh comment; at most eight distinct
    supplied pieces of evidence; a comment with an offered intent, a purpose and a
    configured category, direct only after trusted addressing, continuing only where allowed
    and from a named delivered message; a reaction with an approved emoji; an image made of
    the offered templates, photos or backgrounds. *)
Theorem judge_stays_in_view loads has_word_char max_tokens emojis tokens view call d :
  decide_participation loads has_word_char max_tokens emojis tokens view call = Ok d →
  pn_action d = "silence" ∨ within_view emojis view d.
Proof.
  unfold decide_participation. destruct (_ <? _); [done|]. destruct call as [| | |finish native refusal content]; try done.
  cbv zeta. destruct (_ =?s _); [done|]. destruct (_ || _); [done|]. destruct (opt_str_eqb _ _); [done|].
  destruct (str_true _); [apply parse_decision_within|done].
Qed.

(** ** An example *)

(** What the model answered, as text and as [json.loads] reads it. *)
Definition sample_answer : string := "{action: reply, intent: continuation, ...}".
Definition sample_loads (text : string) : result json :=
  if text =?s sample_answer
  then Ok (JObj [("action", JStr "reply"); ("intent", JStr "continuation"); ("purpose", JStr "answer the follow-up question");
                   ("anchor_message_id", JStr "p1"); ("evidence_ids", JArr [JStr "m2"; JStr "p-effect"; JStr "m2"])])
  else Raise (OtherError "JSONDecodeError" "Expecting value").

(** The view of a chat in which Alice follows up on a delivered reply. *)
Definition sample_view : JudgeContext :=
  {| jc_evidence_ids := ["m1"; "m2"; "p-effect"]; jc_message_ids := ["m1"; "m2"]; jc_anchor_ids := ["p1"; "p-effect"];
     jc_allowed_actions := ["silence"; "comment"]; jc_allowed_intents := ["continue"];
     jc_allowed_contribution_types := ["help"; "observation"]; jc_newest_current_source_id := Some "m2";
     jc_current_source_ids := ["m2"]; jc_has_current_source_ids := true; jc_direct_addressed := false;
     jc_allows_continuation := true; jc_meme_templates := []; jc_meme_photo_ids := []; jc_meme_backgrounds := false |}.

Definition sample_decision : ParticipationDecision :=
  MkParticipation "comment" "continue" "" "" ["m2"; "p-effect"] (Some "p1") (Some "m2") (Some "observation")
    "answer the follow-up question" None false None.

(** The same answer in a chat that allows no continuation. *)
Definition closed_view : JudgeContext :=
  {| jc_evidence_ids := ["m2"]; jc_message_ids := ["m2"]; jc_anchor_ids := ["p1"]; jc_allowed_actions := ["silence"; "comment"];
     jc_allowed_intents := ["continue"]; jc_allowed_contribution_types := []; jc_newest_current_source_id := Some "m2";
     jc_current_source_ids := ["m2"]; jc_has_current_source_ids := true; jc_direct_addressed := false;
     jc_allows_continuation := false; jc_meme_templates := []; jc_meme_photo_ids := []; jc_meme_backgrounds := false |}.

Lemma judge_stays_in_view_witness :
  decide_participation sample_loads (λ _, false) 4000 ["X"] 100 sample_view (CallReply (Some "stop") None false sample_answer) = Ok sample_decision
  ∧ (pn_action sample_decision = "silence" ∨ within_view ["X"] sample_view sample_decision).
Proof.
  split; [by vm_compute|].
  apply (judge_stays_in_view sample_loads (λ _, false) 4000 ["X"] 100 sample_view (CallReply (Some "stop") None false sample_answer)).
  by vm_compute.
Defined.

(** A chat that allows no continuation, as the context has it. *)
Definition closed_context (timestamp : json) : dict :=
  [("messages", JArr [JObj [("event_id", JStr "m2"); ("text", JStr "and then?"); ("timestamp", timestamp)]]);
   ("anchors", JArr [JObj [("effect_id", JStr "p-effect"); ("provider_message_id", JStr "p1")]]);
   ("current_source_ids", JArr [JStr "m2"]); ("allowed_actions", JArr [JStr "silence"; JStr "comment"]);
   ("allowed_intents", JArr [JStr "continue"])].

Lemma judge_error_classified_witness :
  let stop := CallReply (Some "stop") None false sample_answer in
  decide_on sample_loads (λ _, false) 4000 ["X"] 100 (closed_context (JInt 100)) stop
    = Raise (ParticipationDecisionError "invalid_response" "continuation_not_allowed")
  ∧ (classified (ParticipationDecisionError "invalid_response" "continuation_not_allowed")
     ∨ loads_raised sample_loads (ParticipationDecisionError "invalid_response" "continuation_not_allowed")
     ∨ unreadable (closed_context (JInt 100)) (ParticipationDecisionError "invalid_response" "continuation_not_allowed")).
Proof.
  split; [by vm_compute|].
  apply (judge_error_classified sample_loads (λ _, false) 4000 ["X"] 100 (closed_context (JInt 100))
    (CallReply (Some "stop") None false sample_answer)).
  by vm_compute.
Defined.

(** Two failures without a stable reason: an answer nested too deeply for the decoder, and a
    message with a timestamp of 400 digits. *)
Example unclassified_failures :
  decide_on (λ _, Raise (OtherError "RecursionError" "maximum recursion depth exceeded")) (λ _, false) 4000 ["X"] 100
    (closed_context (JInt 100)) (CallReply (Some "stop") None false sample_answer)
    = Raise (OtherError "RecursionError" "maximum recursion depth exceeded")
  ∧ ∃ detail, decide_on sample_loads (λ _, false) 4000 ["X"] 100 (closed_context (JInt (10 ^ 400)))
      (CallReply (Some "stop") None false sample_answer) = Raise (OverflowError detail).
Proof. split; [by vm_compute|]. eexists. by vm_compute. Qed.
