(* ===== verification/GuardProps.v ===== *)
(** * GuardProps

    What a decision is bound to when it passes the second check: the sources of the
    opportunity, the offered actions and intents, and - to continue an exchange - a
    delivered, open reply of the same chat that a current message of a person really follows
    up on, in the context the offer was made from. *)

From Stdlib Require Import ZArith Lia Ascii.
From S2P Require Import Prelude Tables Json PyFloat PolicyEngine Signals Scheduler Judge JudgeGuard JudgeProps.

Section GuardProps.
Context (casefold : string → string).

Lemma any_result_true {A} (p : A → result bool) l : any_result p l = Ok true → ∃ x, x ∈ l ∧ p x = Ok true.
Proof.
  induction l as [|x l IH]; simpl; [done|]. intros ([|] & Hb & Hx)%rbind_Ok.
  - exists x. split; [left|done].
  - destruct (IH Hx) as (y & ? & ?). exists y. split; [by right|done].
Qed.

Lemma mappings_elem d l : d ∈ mappings l ↔ JObj d ∈ l.
Proof.
  unfold mappings. rewrite list_elem_of_omap. split; [intros ([| | | | | |d'] & Hin & [= <-]); done|].
  intros Hin. by exists (JObj d).
Qed.

(** ** What makes an exchange continuable *)

(** A delivered reply of this chat that is open. *)
Record open_anchor (context anchor : dict) : Prop := {
  oa_row : JObj anchor ∈ items_of (dict_get "anchors" context);
  oa_delivered : str_or_empty (dict_get "delivery_state" anchor) = "delivered";
  oa_named : anchor_tokens anchor ≠ [];
  oa_place : anchor_is_same_target anchor context = true;
  oa_open : anchor_is_closed anchor = false;
}.

Lemma eligible_anchor_open context requested anchor :
  JObj anchor ∈ items_of (dict_get "anchors" context) → eligible_anchor context requested anchor = true →
  open_anchor context anchor ∧ (str_true requested = true → requested ∈ anchor_tokens anchor).
Proof.
  unfold eligible_anchor. cbv zeta. intros Hin Hx. repeat (apply andb_true_iff in Hx as [Hx ?]).
  repeat match goal with H : negb _ = true |- _ => apply negb_true_iff in H end. split.
  - split; try done; [by apply str_eqb_eq|]. intros Hnil. rewrite Hnil in *. done.
  - intros Hr. rewrite Hr in *. by apply str_in_spec.
Qed.

(** A current message of a person that follows one of the anchors: it refers to the anchor,
    or it is a short message without any reference after which and before which nobody else
    took the exchange over. *)
Record follows_up (o : ParticipationOpportunity) (context : dict) (anchor source : dict) : Prop := {
  fu_row : JObj source ∈ items_of (dict_get "messages" context);
  fu_current : row_id source ∈ map py_strip (op_sources o);
  fu_person : str_true (source_sender source) = true ∧ is_bot_sender casefold (source_sender source) = false;
  fu_place : names_place source = true → same_place source context = true;
  fu_link : (∃ t, t ∈ anchor_tokens anchor ∧ t ∈ reference_tokens (json_depth (JObj source)) source)
            ∨ (py_len (py_strip (str_or_empty (dict_get "text" source))) <= 120
               ∧ reference_tokens (json_depth (JObj source)) source = []
               ∧ has_replacing_foreign_exchange casefold source anchor context (source_sender source) = Ok false);
}.

Lemma source_continues_anchor context anchors source :
  source_continues casefold context anchors source = Ok true →
  str_true (source_sender source) = true ∧ is_bot_sender casefold (source_sender source) = false
  ∧ (names_place source = true → same_place source context = true)
  ∧ ∃ anchor, anchor ∈ anchors
    ∧ ((∃ t, t ∈ anchor_tokens anchor ∧ t ∈ reference_tokens (json_depth (JObj source)) source)
       ∨ (py_len (py_strip (str_or_empty (dict_get "text" source))) <= 120
          ∧ reference_tokens (json_depth (JObj source)) source = []
          ∧ has_replacing_foreign_exchange casefold source anchor context (source_sender source) = Ok false)).
Proof.
  unfold source_continues. destruct (names_place source && _) eqn:Epl; [done|]. cbv zeta.
  destruct (negb _ || _) eqn:Esend; [done|]. apply orb_false_iff in Esend as [E1%negb_false_iff E2].
  intros Hx. split; [done|]. split; [done|]. split.
  { intros Hn. rewrite Hn in Epl. by apply negb_false_iff in Epl. }
  destruct (existsb _ anchors) eqn:Eref.
  { apply existsb_exists in Eref as (a & Ha%list_elem_of_In & (t & Ht%list_elem_of_In & Hr%str_in_spec)%existsb_exists).
    exists a. split; [done|]. left. by exists t. }
  destruct (negb _ || _ || _) eqn:Eshort; [done|]. apply orb_false_iff in Eshort as [[_ E3]%orb_false_iff E4].
  apply any_result_true in Hx as (a & Ha & Hx). exists a. split; [done|]. right.
  split; [by apply Z.ltb_ge in E3|]. split.
  { destruct (reference_tokens _ source); [done|]. by simpl in E4. }
  unfold continues_anchor in Hx. apply rbind_Ok in Hx as (ta & _ & (ts & _ & Hx)%rbind_Ok).
  destruct (match ta, ts with Some a0, Some t => t <? a0 | _, _ => false end); [done|].
  apply rbind_Ok in Hx as ([|] & Hf & Hb); [done|done].
Qed.

Lemma candidate_evidence o context :
  is_continuation_candidate casefold o context = Ok true →
  ∃ anchor source, open_anchor context anchor ∧ follows_up o context anchor source.
Proof.
  unfold is_continuation_candidate. destruct (dict_get "anchors" context) as [[| | | | |anchors|]|] eqn:Ea; try done.
  destruct (dict_get "messages" context) as [[| | | | |messages|]|] eqn:Em; try done.
  set (eligible := List.filter (eligible_anchor context "") (mappings anchors)). intros Hx.
  assert (any_result (source_continues casefold context eligible)
            (List.filter (λ row, str_in (row_id row) (List.filter str_true (map py_strip (op_sources o)))) (mappings messages)) = Ok true) as Hany
    by by destruct eligible.
  apply any_result_true in Hany as (source & Hsrc & Hc). apply source_continues_anchor in Hc as (? & ? & ? & anchor & Ha & Hlink).
  apply list_elem_of_In, filter_In in Hsrc as [Hsrc%list_elem_of_In Hid]. apply mappings_elem in Hsrc.
  apply list_elem_of_In, filter_In in Ha as [Ha%list_elem_of_In Hel]. apply mappings_elem in Ha.
  exists anchor, source. split.
  - eapply eligible_anchor_open; [|exact Hel]. by rewrite Ea.
  - split; try done; [by rewrite Em|]. apply str_in_spec, list_elem_of_In, filter_In in Hid as [Hid _]. by apply list_elem_of_In.
Qed.

(** ** The offer *)

Lemma rstrip_idem s : rstrip (rstrip s) = rstrip s.
Proof.
  induction s as [|c s IH]; simpl; [done|]. destruct (rstrip s) as [|a t] eqn:E.
  - destruct (is_space c) eqn:Ec; simpl; [done|]. by rewrite Ec.
  - change (rstrip (String c (String a t))) with (match rstrip (String a t) with
      | EmptyString => if is_space c then EmptyString else String c EmptyString | t' => String c t' end). by rewrite IH.
Qed.

Lemma py_strip_idem s : py_strip (py_strip s) = py_strip s.
Proof.
  unfold py_strip. assert (lstrip (rstrip (lstrip s)) = rstrip (lstrip s)) as ->; [|apply rstrip_idem].
  induction s as [|c s IH]; simpl; [done|]. destruct (is_space c) eqn:Ec; [done|]. simpl.
  destruct (rstrip s); simpl; by rewrite ?Ec; simpl; rewrite ?Ec.
Qed.

Lemma bounded_id_stripped v t : bounded_id v = Some t → py_strip t = t ∧ str_true t = true.
Proof.
  unfold bounded_id. destruct v as [[| | | |s| |]|]; try done. cbv zeta. destruct (negb _ || _) eqn:E; [done|]. intros [= <-].
  apply orb_false_iff in E as [E%negb_false_iff _]. by rewrite py_strip_idem.
Qed.

Lemma map_py_str l : map py_str (map JStr l) = l.
Proof. induction l as [|x l IH]; simpl; [done|]. by rewrite IH. Qed.

(** Only an offer of the context's own evidence lets a comment continue. *)
Lemma applied_intents o inputs0 context0 inputs context allowed :
  apply_continuation_candidate casefold o inputs0 context0 = Ok (inputs, context) →
  comment_intents (di_snapshot inputs) = Ok allowed → "continue" ∈ allowed →
  snapshot_bool (di_snapshot inputs0) "continuation_candidate" false = Ok true
  ∧ snapshot_bool (di_snapshot inputs0) "allow_continuation" false = Ok true
  ∧ snapshot_bool (di_snapshot inputs0) "writer_unavailable" false = Ok false
  ∧ is_continuation_candidate casefold o context0 = Ok true.
Proof.
  unfold apply_continuation_candidate. cbv zeta. intros (hint & Eh & (cand & Ec & (allow & Ea & (unav & Eu & Hx)%rbind_Ok)%rbind_Ok)%rbind_Ok)%rbind_Ok.
  apply rbind_Ok in Hx as (configured & _ & (actions & _ & (limits & _ & [= <- <-])%rbind_Ok)%rbind_Ok). cbn [di_snapshot].
  set (comment := if cand && allow && negb unav then _ else _).
  unfold comment_intents, snapshot_value, dict_has. rewrite dict_get_set. cbn [is_some]. unfold iterate_or, strings.
  intros Hal Hin. assert (allowed = order_by String.leb comment) as ->.
  { revert Hal. clear Hin. generalize (order_by String.leb comment). intros [|x l]; simpl; [by intros [= <-]|].
    rewrite map_py_str. by intros [= <-]. }
  rewrite (elem_of_order_by String.leb) in Hin. subst comment. destruct cand; cbn [andb] in Hin.
  2:{ by apply list_elem_of_In, filter_In in Hin as [_ ?]. }
  destruct allow; cbn [andb] in Hin; [|by apply list_elem_of_In, filter_In in Hin as [_ ?]].
  destruct unav; cbn [andb negb] in Hin; [by apply list_elem_of_In, filter_In in Hin as [_ ?]|].
  destruct hint; [done|]. by injection Ec.
Qed.

Lemma with_meme_offer_snapshot outcome inputs context inputs' context' :
  with_meme_offer outcome inputs context = Ok (inputs', context') → di_snapshot inputs' = di_snapshot inputs
  ∧ ∀ a, a ∈ IMAGE_ACTIONS → a ∈ di_allowed_actions inputs' → ∃ offer, outcome = Ok offer ∧ mo_templates offer ≠ [].
Proof.
  unfold with_meme_offer. destruct (negb (existsb _ _)) eqn:Ei.
  { intros [= <- <-]. split; [done|]. intros a Ha Hin. apply negb_true_iff in Ei.
    assert (existsb (λ a, str_in a IMAGE_ACTIONS) (di_allowed_actions inputs) = true); [|congruence].
    apply existsb_exists. exists a. split; [by apply list_elem_of_In|by apply str_in_spec]. }
  intros ([offer|] & Eo & [= <- <-])%rbind_Ok.
  - split; [done|]. intros _ _ _. destruct outcome as [offer'|e]; [|by destruct (is_history_paused e)].
    exists offer'. split; [done|]. intros Hnil. rewrite Hnil in Eo. done.
  - split; [done|]. cbn [di_allowed_actions set_field]. intros a Ha [_ Hf]%list_elem_of_In%filter_In. apply str_in_spec in Ha. change (negb (str_in a IMAGE_ACTIONS) = true) in Hf. by rewrite Ha in Hf.
Qed.

(** ** The decision *)

Lemma validated_target d o inputs context :
  validate_decision casefold d o inputs context = Ok tt → pn_action d ≠ "silence" →
  pn_action d ∈ di_allowed_actions inputs
  ∧ (pn_action d ∈ "react" :: "comment" :: IMAGE_ACTIONS → ∃ t, pn_target_message_id d = Some t ∧ py_strip t ∈ op_sources o).
Proof.
  intros Hx Hs. unfold validate_decision in Hx. cbv zeta in Hx.
  destruct (pn_action d =?s "silence") eqn:E; [by apply str_eqb_eq in E|].
  destruct (negb (str_in (pn_action d) _)) eqn:Ea; [done|]. apply negb_false_iff, str_in_spec in Ea. split; [done|].
  apply rbind_Ok in Hx as (u & Ht & _). intros Hin%str_in_spec. rewrite Hin in Ht.
  destruct (negb (str_true _)) eqn:Etr; [done|]. destruct (str_in _ (op_sources o)) eqn:Eso; [|done]. apply str_in_spec in Eso.
  destruct (pn_target_message_id d) as [t|]; [by exists t|done].
Qed.

(** A validated comment. *)
Lemma validated_comment d o inputs context :
  validate_decision casefold d o inputs context = Ok tt → pn_action d ∉ "silence" :: "react" :: IMAGE_ACTIONS →
  (∃ allowed, comment_intents (di_snapshot inputs) = Ok allowed ∧ pn_intent d ∈ allowed)
  ∧ pn_intent d ∈ di_allowed_intents inputs
  ∧ (∃ types, contribution_types (di_snapshot inputs) = Ok types ∧ py_strip (default "" (pn_contribution_type d)) ∈ types)
  ∧ (pn_intent d = "continue" →
     is_continuation_candidate casefold o context = Ok true ∧ anchor_is_eligible context (pn_anchor_message_id d) = true).
Proof.
  intros Hx Hs. unfold validate_decision in Hx. cbv zeta in Hx.
  destruct (pn_action d =?s "silence") eqn:E; [apply str_eqb_eq in E; set_solver|].
  destruct (negb (str_in (pn_action d) _)); [done|]. apply rbind_Ok in Hx as (_ & _ & Hx).
  destruct (pn_action d =?s "react") eqn:Er; [apply str_eqb_eq in Er; set_solver|].
  destruct (str_in (pn_action d) IMAGE_ACTIONS) eqn:Ei; [apply str_in_spec in Ei; set_solver|].
  destruct (negb (str_in (pn_intent d) (di_allowed_intents inputs))) eqn:E1; [done|].
  apply rbind_Ok in Hx as (allowed & Hal & Hx). destruct (negb (str_in _ allowed)) eqn:E2; [done|].
  apply rbind_Ok in Hx as (types & Hty & Hx). destruct (negb (str_in _ types)) eqn:E3; [done|].
  apply negb_false_iff, str_in_spec in E1, E2, E3. split; [by exists allowed|]. split; [done|]. split; [by exists types|].
  intros Hc. rewrite Hc, str_eqb_refl in Hx. destruct (negb (has_delivered_anchor _)); [done|].
  apply rbind_Ok in Hx as (cand & Hcand & Hx). destruct (negb cand) eqn:Ec; [done|]. apply negb_false_iff in Ec. subst cand.
  destruct (negb (anchor_is_eligible _ _)) eqn:Ee; [done|]. by apply negb_false_iff in Ee.
Qed.

End GuardProps.

(** What a decision that is not silent is bound to. *)
Record bound (casefold : string → string) (o : ParticipationOpportunity) (snapshot : dict) (outcome : result MemeOffer)
    (inputs : DecisionInputs) (context : dict) (d : ParticipationDecision) : Prop := {
  (** an action that is offered, aimed at one of the sources that triggered it *)
  bd_action : pn_action d ∈ di_allowed_actions inputs;
  bd_target : ∃ t, pn_target_message_id d = Some t ∧ py_strip t ∈ op_sources o;
  bd_image : pn_action d ∈ IMAGE_ACTIONS → ∃ offer, outcome = Ok offer ∧ mo_templates offer ≠ [];
  (** a comment with an offered intent and category *)
  bd_comment : pn_action d = "comment" → pn_intent d ∈ di_allowed_intents inputs
    ∧ ∃ types, contribution_types (di_snapshot inputs) = Ok types ∧ py_strip (default "" (pn_contribution_type d)) ∈ types;
  (** which continues only what the chat allows to be continued, where a current message of a
      person follows up on an open delivered reply, and names such a reply *)
  bd_continue : pn_action d = "comment" → pn_intent d = "continue" →
    snapshot_bool snapshot "continuation_candidate" false = Ok true ∧ snapshot_bool snapshot "allow_continuation" false = Ok true
    ∧ snapshot_bool snapshot "writer_unavailable" false = Ok false
    ∧ (∃ anchor source, open_anchor context anchor ∧ follows_up casefold o context anchor source)
    ∧ ∃ name anchor, pn_anchor_message_id d = Some name ∧ open_anchor context anchor ∧ name ∈ anchor_tokens anchor;
}.

(** The anchor the judge names is a stripped token. *)
Lemma parse_anchor_stripped loads hw emojis raw view d a :
  parse_decision loads hw emojis raw view = Ok d → pn_anchor_message_id d = Some a → py_strip a = a ∧ str_true a = true.
Proof.
  unfold parse_decision. intros (payload & _ & Hx)%rbind_Ok. revert Hx. destruct payload as [payload|]; [|done]. destruct (alias _ _) as [action|]; [|done].
  destruct (negb _); [done|]. cbv zeta. destruct (action =?s "silence"); [by intros [= <-]|].
  intros (intent & _ & (evidence & _ & Hx)%rbind_Ok)%rbind_Ok. revert Hx.
  destruct (match _ with Some a => negb _ | None => false end); [done|]. intros (target & _ & Hx)%rbind_Ok. revert Hx.
  destruct (_ && _); [by intros [= <-]|]. destruct (_ && _); [done|]. destruct (_ && _); [done|].
  intros (emoji & _ & (meme & _ & [= <-])%rbind_Ok)%rbind_Ok. simpl. destruct (action =?s "comment"); [|done]. apply bounded_id_stripped.
Qed.

Lemma decided_anchor_stripped loads hw max emojis tokens view call d a :
  decide_participation loads hw max emojis tokens view call = Ok d → pn_anchor_message_id d = Some a →
  py_strip a = a ∧ str_true a = true.
Proof.
  unfold decide_participation. destruct (_ <? _); [done|]. destruct call; try done. cbv zeta.
  destruct (_ =?s _); [done|]. destruct (_ || _); [done|]. destruct (opt_str_eqb _ _); [done|].
  destruct (str_true _); [apply parse_anchor_stripped|done].
Qed.

Lemma eligible_name context a :
  anchor_is_eligible context (Some a) = true → py_strip a = a → str_true a = true →
  ∃ anchor, open_anchor context anchor ∧ a ∈ anchor_tokens anchor.
Proof.
  unfold anchor_is_eligible. change (default "" (Some a)) with a. intros Hx Hs Ht. rewrite Hs in Hx.
  apply existsb_exists in Hx as (row & Hin%list_elem_of_In & Hel).
  apply mappings_elem in Hin. destruct (eligible_anchor_open _ _ _ Hin Hel) as [Ho Hn]. exists row. split; [done|by apply Hn].
Qed.

Lemma decided_within loads hw max emojis tokens view call d :
  decide_participation loads hw max emojis tokens view call = Ok d → pn_action d = "silence" ∨ within_view emojis view d.
Proof.
  unfold decide_participation. destruct (_ <? _); [done|]. destruct call; try done. cbv zeta.
  destruct (_ =?s _); [done|]. destruct (_ || _); [done|]. destruct (opt_str_eqb _ _); [done|].
  destruct (str_true _); [apply parse_decision_within|done].
Qed.

Lemma view_actions context view : from_mapping context = Ok view → ∀ a, a ∈ jc_allowed_actions view → a ∈ ALL_ACTIONS.
Proof.
  unfold from_mapping. cbv zeta. intros (raw & _ & (n1 & _ & (n2 & _ & (types & _ & Hx)%rbind_Ok)%rbind_Ok)%rbind_Ok)%rbind_Ok a.
  destruct (meme_view context) as [[templates photos] backgrounds]. injection Hx as <-. cbn [jc_allowed_actions].
  destruct (List.filter _ (map _ raw)) as [|x l] eqn:E; [intros ->%list_elem_of_singleton; left|].
  rewrite <- E. intros [_ Hin]%list_elem_of_In%filter_In. by apply (str_in_spec a ALL_ACTIONS).
Qed.

(** C5: The language model can neither choose where to act nor open an exchange: for every text
    it answers, a decision that passes the second check of the runtime on the inputs and
    the context it was offered is silent or stays within the view and is bound - to an
    offered action and a source of this opportunity; as an image to what was offered; as a
    comment to an offered intent and category; and as a continuation to an exchange the
    chat allows to be continued, in which a current message of a person follows up on an
    open delivered reply of this chat, and it names such a reply. *)
Theorem decision_bound_to_opportunity casefold loads has_word_char max_tokens emojis tokens o inputs0 context0 inputs1 context1
    outcome inputs context view call d :
  apply_continuation_candidate casefold o inputs0 context0 = Ok (inputs1, context1) →
  with_meme_offer outcome inputs1 context1 = Ok (inputs, context) →
  from_mapping context = Ok view →
  decide_participation loads has_word_char max_tokens emojis tokens view call = Ok d →
  validate_decision casefold d o inputs context = Ok tt →
  pn_action d = "silence" ∨ within_view emojis view d ∧ bound casefold o (di_snapshot inputs0) outcome inputs context d.
Proof.
  intros Happ Hmeme Hview Hdec Hval. destruct (decide (pn_action d = "silence")) as [|Hs]; [by left|]. right.
  destruct (with_meme_offer_snapshot _ _ _ _ _ Hmeme) as [Hsnap Himg].
  destruct (decided_within _ _ _ _ _ _ _ _ Hdec) as [?|Hw]; [done|]. split; [done|].
  destruct (validated_target _ _ _ _ _ Hval Hs) as [Hact Htgt].
  assert (pn_action d = "comment" → pn_action d ∉ "silence" :: "react" :: IMAGE_ACTIONS) as Hcom.
  { intros ->. apply (bool_decide_unpack _). by vm_compute. }
  pose proof (view_actions _ _ Hview _ (wv_action _ _ _ Hw)) as Hall.
  split.
  - done.
  - apply Htgt. unfold ALL_ACTIONS, IMAGE_ACTIONS in *. set_solver.
  - intros Hi. by apply (Himg _ Hi).
  - intros Hc. destruct (validated_comment _ _ _ _ _ Hval (Hcom Hc)) as (_ & ? & ? & _). done.
  - intros Hc Hcont. destruct (validated_comment _ _ _ _ _ Hval (Hcom Hc)) as ((allowed & Hal & Hin) & _ & _ & Hev).
    destruct (Hev Hcont) as [Hcand Helig]. rewrite Hsnap in Hal. rewrite Hcont in Hin.
    destruct (applied_intents _ _ _ _ _ _ _ Happ Hal Hin) as (? & ? & ? & _).
    split; [done|]. split; [done|]. split; [done|]. split; [by apply candidate_evidence|].
    destruct (wv_comment _ _ _ Hw Hc) as (_ & _ & _ & Hcc & _). destruct (Hcc Hcont) as [_ [name Hname]].
    destruct (decided_anchor_stripped _ _ _ _ _ _ _ _ _ Hdec Hname) as [? ?]. rewrite Hname in Helig.
    destruct (eligible_name _ _ Helig) as (anchor & ? & ?); [done..|]. by exists name, anchor.
Qed.

(** ** An example *)

(** Alice asks on after a delivered reply, in a chat that lets exchanges go on. *)
Definition asked_on : ParticipationOpportunity := MkOpportunity "o1" "whatsapp" "group" "message" ["m2"] 3 1 0 "production".

Definition delivered_reply : dict :=
  [("provider_message_id", JStr "p1"); ("effect_id", JStr "p-effect"); ("delivery_state", JStr "delivered"); ("timestamp", JInt 1000)].
Definition follow_up_message : dict :=
  [("event_id", JStr "m2"); ("sender_id", JStr "alice"); ("text", JStr "And tomorrow?"); ("timestamp", JInt 2000)].
Definition open_context : dict :=
  [("channel", JStr "whatsapp"); ("chat_id", JStr "group"); ("messages", JArr [JObj follow_up_message]);
   ("anchors", JArr [JObj delivered_reply]); ("current_source_ids", JArr [JStr "m2"]);
   ("allowed_contribution_types", JArr [JStr "observation"])].
Definition open_inputs : DecisionInputs :=
  MkInputs [("continuation_candidate", JBool true); ("allow_continuation", JBool true);
            ("allowed_contribution_types", JArr [JStr "observation"])] default_bounds ["silence"; "comment"] [] [] [] false 0 ["m2"] true.

(** What the judge is offered there, and the view it gets. *)
Definition offered_round : DecisionInputs * dict := Eval vm_compute in
  match apply_continuation_candidate py_lower asked_on open_inputs open_context with Ok p => p | Raise _ => (open_inputs, []) end.
Definition offered_view : JudgeContext := Eval vm_compute in
  match from_mapping offered_round.2 with Ok view => view | Raise _ => closed_view end.
Definition no_offer : result MemeOffer := Ok (MkMemeOffer [] [] false).
Definition continuing_reply : judge_call_outcome := CallReply (Some "stop") None false sample_answer.

Example offered_round_intents : (di_allowed_intents offered_round.1, jc_allowed_intents offered_view, jc_anchor_ids offered_view)
  = (["continue"], ["continue"], ["p1"; "p-effect"]).
Proof. reflexivity. Qed.

Lemma decision_bound_to_opportunity_witness :
  validate_decision py_lower sample_decision asked_on offered_round.1 offered_round.2 = Ok tt
  ∧ (pn_action sample_decision = "silence"
     ∨ within_view ["X"] offered_view sample_decision
       ∧ bound py_lower asked_on (di_snapshot open_inputs) no_offer offered_round.1 offered_round.2 sample_decision).
Proof.
  assert (apply_continuation_candidate py_lower asked_on open_inputs open_context = Ok (offered_round.1, offered_round.2)) as Ha
    by by vm_compute.
  assert (with_meme_offer no_offer offered_round.1 offered_round.2 = Ok (offered_round.1, offered_round.2)) as Hm by by vm_compute.
  assert (from_mapping offered_round.2 = Ok offered_view) as Hv by by vm_compute.
  assert (decide_participation sample_loads (λ _, false) 4000 ["X"] 100 offered_view continuing_reply = Ok sample_decision) as Hd
    by by vm_compute.
  assert (validate_decision py_lower sample_decision asked_on offered_round.1 offered_round.2 = Ok tt) as Hc by by vm_compute.
  split; [exact Hc|]. exact (decision_bound_to_opportunity _ _ _ _ _ _ _ _ _ _ _ _ _ _ _ _ _ Ha Hm Hv Hd Hc).
Defined.
