(* ===== verification/Inputs.v ===== *)
(** * Inputs

    The pure reads of [processing/participation_runtime.py]: settings of the activation
    snapshot, quiet hours and deadlines, the revision token that tells whether the material
    of a decision changed, and what the runtime keeps of a decision.

    Dicts are as in [JudgeGuard]; an object such as the knowledge selection is the dict of
    its attributes. *)

From Stdlib Require Import ZArith Lia Ascii.
From S2P Require Import Prelude Tables Json Models PolicyEngine Identity Projection Signals Scheduler Judge JudgeGuard Ledger.

(** ** Settings *)

(** [d.pop(k, None)] *)
Definition dict_pop (k : string) (d : dict) : dict := List.filter (λ p : string * json, negb (p.1 =?s k)) d.

(** [_snapshot_int] *)
Fixpoint snapshot_int (snapshot : dict) (names : list string) (default_value : Z) : result Z :=
  match names with
  | [] => Ok default_value
  | name :: names' =>
      match snapshot_value snapshot name with
      | None | Some JNull => snapshot_int snapshot names' default_value
      | Some (JInt z) => if z <? 0 then Raise (ParticipationBlockedError "invalid_snapshot") else Ok z
      | Some _ => Raise (ParticipationBlockedError "invalid_snapshot")
      end
  end.

(** [_snapshot_positive_int] *)
Definition snapshot_positive_int (snapshot : dict) (name : string) (default_value : Z) : result Z :=
  let! value := snapshot_int snapshot [name] default_value in
  if value <=? 0 then Raise (ParticipationBlockedError "invalid_snapshot") else Ok value.

(** [_snapshot_context_mode] *)
Definition snapshot_context_mode (snapshot : dict) : result string :=
  match snapshot_value snapshot "context_mode" with
  | None | Some JNull => Ok "window"
  | Some (JStr s) => if str_in s ["window"; "conversation"] then Ok s else Raise (ParticipationBlockedError "invalid_snapshot")
  | Some (JArr _) | Some (JObj _) => Raise (TypeError "unhashable type")
  | Some _ => Raise (ParticipationBlockedError "invalid_snapshot")
  end.

Definition judge_limit_of (snapshot : dict) : result Z :=
  snapshot_int snapshot ["judge_calls_per_hour"; "max_unaddressed_judge_calls_per_hour"] 0.
Definition judge_gap_ms_of (snapshot : dict) : result Z :=
  let! seconds := snapshot_int snapshot ["min_gap_seconds"; "min_unaddressed_judge_gap_seconds"] 0 in Ok (seconds * 1000).
Definition continuation_reserve_of (snapshot : dict) : result Z :=
  snapshot_int snapshot ["continuation_reserve"; "continuation_judge_reserve"] 0.
Definition daily_cap_of (snapshot : dict) : result Z :=
  snapshot_int snapshot ["spontaneity_daily_cap"; "initiation_daily_cap"; "daily_cap"] 0.

(** [_max_reevaluations] *)
Definition max_reevaluations (snapshot : dict) : result Z :=
  let! value := snapshot_int snapshot ["max_reevaluations"; "maxReevaluations"] 1 in
  if 2 <? value then Raise (ParticipationBlockedError "invalid_snapshot") else Ok value.

(** [_within_opportunity_deadline] *)
Definition within_opportunity_deadline (o : ParticipationOpportunity) (snapshot : dict) (now_ms : Z) : result bool :=
  let! ttl_seconds := snapshot_int snapshot ["opportunity_ttl_seconds"; "ttl_seconds"] 120 in
  Ok (negb (ttl_seconds <=? 0) && (now_ms <=? op_created_ms o + ttl_seconds * 1000)).

(** [str(snapshot.get("lane") or opportunity.lane)] *)
Definition lane_of (snapshot : dict) (o : ParticipationOpportunity) : string :=
  match dict_get "lane" snapshot with
  | Some v => if truthy v then py_str v else op_lane o
  | None => op_lane o
  end.

(** [int(snapshot.get("activation_epoch", opportunity.activation_epoch))] *)
Definition epoch_of (snapshot : dict) (o : ParticipationOpportunity) : result Z :=
  match dict_get "activation_epoch" snapshot with
  | Some v => int_of_json v
  | None => Ok (op_epoch o)
  end.

(** ** Quiet hours *)

(** [_clock_minutes] *)
Definition clock_minutes (value : string) : result Z :=
  match split_char 58 "" (py_strip value) with
  | [h; m] =>
      match py_int h, py_int m with
      | Some hours, Some minutes =>
          if negb ((0 <=? hours) && (hours <=? 23)) || negb ((0 <=? minutes) && (minutes <=? 59))
          then Raise (ValueError value) else Ok (hours * 60 + minutes)
      | _, _ => Raise (ValueError "invalid literal for int()")
      end
  | _ => Raise (ValueError value)
  end.

Definition unset (value : option json) : bool :=
  match value with None | Some JNull => true | Some (JStr s) => s =?s "" | Some _ => false end.

(** [_in_quiet_hours] *)
Definition in_quiet_hours (snapshot : dict) (now_ms : Z) : bool :=
  let start := snapshot_value snapshot "spontaneity_quiet_hours_start" in
  let stop := snapshot_value snapshot "spontaneity_quiet_hours_end" in
  if unset start || unset stop then false else
  match clock_minutes (py_str (default JNull start)), clock_minutes (py_str (default JNull stop)) with
  | Ok start_minutes, Ok end_minutes =>
      let current := now_ms / 60000 mod 1440 in
      if start_minutes =? end_minutes then true
      else if start_minutes <? end_minutes then (start_minutes <=? current) && (current <? end_minutes)
      else (start_minutes <=? current) || (current <? end_minutes)
  | _, _ => true
  end.

(** ** The soft budget of memes *)

(** [round(cap * 2 / 3)] *)
Definition two_thirds (cap : Z) : Z := (4 * cap + 3) / 6.

(** [_meme_budget_text] *)
Definition meme_budget_text (meme_limits : list ledger_limit) (meme_left : Z) (sticker_limits : list ledger_limit) (sticker_left : Z)
    (last : option (Z * Z)) (o : ParticipationOpportunity) (now_ms : Z) : string :=
  let cap l := match l with x :: _ => ll_limit x | [] => 0 end in
  let num z := py_str (JInt z) in
  let meme_cap := cap meme_limits in
  let sticker_cap := cap sticker_limits in
  join " "
    ["Memes: " +:+ num meme_left +:+ " of " +:+ num meme_cap +:+ " left in the last 7 days (aim for about "
       +:+ num (Z.max 1 (two_thirds meme_cap)) +:+ " a week at most).";
     "Stickers: " +:+ num sticker_left +:+ " of " +:+ num sticker_cap +:+ " left in the last 24 hours (aim for about "
       +:+ num (Z.max 1 (two_thirds sticker_cap)) +:+ " a day at most).";
     match last with
     | None => "No autonomous meme or sticker was posted here yet."
     | Some (revision, at_ms) =>
         let hours := Z.max 0 ((now_ms - at_ms) / 3600000) in
         let ago := if 48 <=? hours then num (hours / 24) +:+ " days" else num hours +:+ " hours" in
         "Last meme or sticker: about " +:+ ago +:+ " and " +:+ num (Z.max 0 (op_revision o - revision)) +:+ " messages ago."
     end].

(** ** Selected knowledge *)

(** [str(getattr(selection, name, "") or "")] *)
Definition attribute (selection : option json) (name : string) : string :=
  match selection with Some (JObj d) => str_or_empty (dict_get name d) | _ => "" end.

(** [_selected_knowledge] *)
Definition selected_knowledge (context : dict) : option json :=
  let selection := dict_get "_knowledge_selection" context in
  if str_true (py_strip (attribute selection "text")) then selection else None.

(** [_selected_knowledge_token] *)
Definition selected_knowledge_token `{Sha256} (context : dict) : option (string * string) :=
  match selected_knowledge context with
  | None => None
  | selection => Some (attribute selection "revision", canonical_hash (JStr (attribute selection "text")))
  end.

(** ** Freshness *)

(** [tuple(dict.fromkeys(...))] *)
Definition each_once (l : list string) : list string := foldl (λ acc x, if str_in x acc then acc else acc ++ [x]) [] l.

(** [_snapshot_sequence] *)
Fixpoint snapshot_sequence (snapshot : dict) (names : list string) : option (list string) :=
  match names with
  | [] => None
  | name :: names' =>
      match snapshot_value snapshot name with
      | None | Some JNull => snapshot_sequence snapshot names'
      | Some (JArr l) => Some (each_once (stripped l))
      | Some _ => None
      end
  end.

Definition SOURCE_FIELDS : list string := ["current_source_ids"; "source_event_ids"; "material_source_ids"].
Definition REVISION_FIELDS : list string :=
  ["context_revision"; "observed_revision"; "material_revision"; "source_revision"; "latest_revision"].

(** [_revision_value] *)
Fixpoint revision_value (value : dict) (names : list string) (default_value : Z) : Z :=
  match names with
  | [] => default_value
  | name :: names' =>
      match snapshot_value value name with
      | None | Some JNull => revision_value value names' default_value
      | Some (JInt z) => if z <? 0 then default_value else z
      | Some _ => default_value
      end
  end.

Definition supplied_sources (value : dict) (otherwise : list string) : list string :=
  match snapshot_sequence value SOURCE_FIELDS with
  | Some (x :: l) => x :: l
  | _ => otherwise
  end.

#[export] Instance eta_opportunity : Updatable ParticipationOpportunity :=
  λ o, MkOpportunity (op_id o) (op_channel o) (op_chat_id o) (op_trigger o) (op_sources o) (op_revision o) (op_epoch o)
         (op_created_ms o) (op_lane o).

(** [_opportunity_from_snapshot] *)
Definition opportunity_from_snapshot (o : ParticipationOpportunity) (snapshot : dict) : ParticipationOpportunity :=
  o <| op_sources := supplied_sources snapshot (op_sources o) |>
    <| op_revision := Z.max (revision_value snapshot REVISION_FIELDS (op_revision o)) (op_revision o) |>.

Record revision_token := MkToken {
  tk_revision : Z;
  tk_sources : list string;
  tk_knowledge : string;
  tk_policy : string;
}.

#[export] Instance revision_token_eq_dec : EqDecision revision_token.
Proof. solve_decision. Defined.

Definition POLICY_FIELDS : list string :=
  ["policy_hash"; "policy_version"; "policy_revision"; "arbitration_revision"; "approval_revision"; "activation_epoch"; "lane"].

Section Token.
Context `{Sha256}.

(** The revision of the knowledge a context carries. *)
Definition knowledge_revision (value : dict) (otherwise : string) : string :=
  match selected_knowledge value with
  | None => otherwise
  | selection => let revision := attribute selection "revision" in
                 if str_true revision then revision else canonical_hash (JStr (attribute selection "text"))
  end.

Definition policy_inputs (value : dict) : json :=
  JArr (map (λ name, JArr [JStr name; default JNull (dict_get name value)]) POLICY_FIELDS).

(** [_revision_token] *)
Definition revision_token_of (snapshot : dict) (o : ParticipationOpportunity) (context : dict) : revision_token :=
  let r1 := Z.max (op_revision o) (revision_value snapshot REVISION_FIELDS (op_revision o)) in
  {| tk_revision := Z.max r1 (revision_value context REVISION_FIELDS r1);
     tk_sources := supplied_sources context (supplied_sources snapshot (op_sources o));
     tk_knowledge := knowledge_revision context (knowledge_revision snapshot "");
     tk_policy := canonical_hash (JArr [policy_inputs snapshot; policy_inputs context]) |}.

End Token.

(** [_revision_token_changed] *)
Definition revision_token_changed (baseline observed : revision_token) : bool :=
  (tk_revision baseline <? tk_revision observed)
  || negb (bool_decide (tk_sources observed = tk_sources baseline)) || negb (tk_knowledge observed =?s tk_knowledge baseline)
  || negb (tk_policy observed =?s tk_policy baseline).

(** [baseline[:2] != observed[:2] or baseline[3:] != observed[3:]] *)
Definition needs_rebuild (baseline observed : revision_token) : bool :=
  negb (tk_revision observed =? tk_revision baseline) || negb (bool_decide (tk_sources observed = tk_sources baseline))
  || negb (tk_policy observed =?s tk_policy baseline).

(** ** Decisions *)

(** [_decision_signature] *)
Definition comment_signature (d : ParticipationDecision) : list string :=
  [pn_action d; pn_intent d; pn_purpose d; default "" (pn_contribution_type d); default "" (pn_anchor_message_id d);
   default "" (pn_target_message_id d)].

(** [_reservation_for_intent] *)
Definition reservation_for_intent (inputs : DecisionInputs) (intent : string) : list ledger_limit :=
  match List.find (λ r : string * list ledger_limit, r.1 =?s intent) (di_reservations inputs) with
  | Some r => r.2
  | None => []
  end.

(** A dimension as the ledger takes it. *)
Definition limit_entry_of (l : ledger_limit) : limit_entry :=
  MkLimit (ll_category l) (ll_limit l) (ll_window l) (default "rolling" (ll_kind l)).

(** [.reason] and [.detail] of a [ParticipationDecisionError] *)
Definition failure_parts (printed : string) : string * option string :=
  match String.index 0 ": " printed with
  | Some i => (String.substring 0 i printed, Some (drop_str (i + 2) printed))
  | None => (printed, None)
  end.
