(* ===== verification/Runtime.v ===== *)
(** * Runtime

    [ParticipationRuntime] of [processing/participation_runtime.py]: one admitted opportunity
    from the preflight to the hand-over of its effect - the decision inputs, the charged
    attempt of the judge, the reservation, the draft and its bounded reconsideration - over
    the ledger of [Ledger] and [LedgerDelivery].

    The collaborators the runtime is constructed with are the fields of [runtime_env]. Each
    answer depends on the number of calls made so far, so every behaviour in time is covered;
    where the code awaits something outside, other tasks may change the ledger meanwhile
    ([re_others]). Counters and log lines are left out. The group-notes shadow, a task of its
    own that asks the judge a second time and only records the answer, is started by an event
    of the evaluation that carries what the task holds, and runs in [run_shadows]. *)

From Stdlib Require Import ZArith Lia Ascii.
From S2P Require Import Prelude Tables Json Models ThreadStore Registry PolicyEngine Router Signals Scheduler Projection Continuation.
From S2P Require Import Ledger LedgerDelivery Judge JudgeGuard Inputs.

(** ** The world *)

Inductive delivery_route := ToReactor | ToMedia | ToApproval | ToSubmission.

(** How a decision ended: a decision, a classified failure as it prints, another exception. *)
Inductive shadow_outcome :=
| Decided (d : ParticipationDecision)
| Failed (printed : string)
| Errored (type_name : string).

(** What the task of the group-notes shadow holds: the unfitted context and the live outcome. *)
Record shadow_task := MkShadowTask {
  st_opportunity : ParticipationOpportunity;
  st_inputs : DecisionInputs;
  st_base : dict;
  st_live : shadow_outcome;
}.

(** What happened, in order, as far as it matters outside; and, with [EvActsOn], which
    decision the code goes on to carry out. *)
Inductive rt_event :=
| EvAttempt (attempt_id : string) (charged : bool)
| EvJudge (attempt_id : string)
| EvOutcome (attempt_id outcome : string)
| EvReserve (effect_id : string) (granted : bool)
| EvRelease (effect_id reason : string)
| EvDirect (active : bool)
| EvPaused (paused : bool)
| EvSource (allowed : bool)
| EvDraft
| EvHandOver (route : delivery_route) (effect_id : string)
| EvActsOn (o : ParticipationOpportunity) (d : ParticipationDecision) (inputs : DecisionInputs) (context : dict)
| EvShadow (task : shadow_task)
| EvShadowCall.

Record runtime_world := MkRuntimeWorld {
  pt_ledger : ledger;
  pt_tick : nat;
  pt_trace : list rt_event;
}.
#[export] Instance eta_runtime_world : Updatable runtime_world :=
  λ w, MkRuntimeWorld (pt_ledger w) (pt_tick w) (pt_trace w).

Abbreviation rprog A := (prog runtime_world A).

(** What a transport reports: accepted, state, the provider id of a receipt, the attempt. *)
Record transport_outcome := MkOutcome {
  to_accepted : bool;
  to_state : string;
  to_receipt : option string;
  to_has_receipt : bool;
  to_attempt_id : string;
}.

(** The draft-only writer, the approval queue and the delivery of [participation_submission]. *)
Record Submission := MkSubmission {
  sb_generate_draft : nat → ParticipationOpportunity → ParticipationDecision → dict → result string;
  sb_queue_approval : option (nat → ParticipationAdmission → string → string → option json → result string);
  sb_submit : nat → ParticipationAdmission → string → string → string → result string;
}.

Record ParticipationMemes := MkMemes {
  pm_offer : nat → string → string → list dict → result MemeOffer;
  pm_render : nat → MemePlan → string → string → bool → result string;
}.

(** The arguments of [ParticipationRuntime.__init__]. *)
Record runtime_env := MkRuntimeEnv {
  re_clock : nat → Z;
  re_others : nat → ledger → ledger;
  re_snapshot : nat → ParticipationOpportunity → result dict;
  re_paused : nat → string → string → result (option string);
  re_source_allowed : nat → string → string → list string → result bool;
  re_source_principals : nat → string → string → list string → result (option (list json));
  re_participant_allowed : nat → string → string → string → result bool;
  re_direct : option (nat → string → string → result bool);
  re_judge : option (nat → ParticipationOpportunity → dict → result ParticipationDecision * dict);
  re_build : nat → ParticipationOpportunity → DecisionInputs → result dict;
  re_submission : option Submission;
  re_reactor : option (nat → string → string → string → ParticipationAdmission → result transport_outcome);
  re_writer_available : bool;
  re_history : bool;
  re_history_turn : nat → result unit;
  re_revalidate : option (nat → ParticipationOpportunity → dict → json → result (option json));
  re_evidence : nat → ParticipationAdmission → dict → option json;
  re_memes : option ParticipationMemes;
  re_media_sender : option (nat → string → string → ParticipationAdmission → result transport_outcome);
  re_group_notes : option (nat → shadow_task → shadow_outcome → dict → Z → result unit);
}.

(** ** Errors *)

Definition error_type (e : py_error) : string :=
  match e with
  | ValueError _ => "ValueError" | TypeError _ => "TypeError" | ProcessingError _ => "ProcessingError"
  | JournalConflictError _ => "JournalConflictError" | EffectConflictError _ => "EffectConflictError"
  | InvalidTransitionError _ => "InvalidTransitionError" | TurnStateError _ => "TurnStateError"
  | IntegrityError _ => "IntegrityError" | IndexError _ => "IndexError"
  | EffectPayloadRejectedError _ => "EffectPayloadRejectedError" | EffectNotDeliveredError _ => "EffectNotDeliveredError"
  | ParticipationPreDispatchDenied _ => "ParticipationPreDispatchDenied"
  | OtherError ty _ => ty
  | CancelledError => "CancelledError"
  end.

Definition error_named (name : string) (e : py_error) : option string :=
  match e with OtherError ty msg => if ty =?s name then Some msg else None | _ => None end.

(** [except ParticipationBlockedError], [except ParticipationDecisionError],
    [except ParticipationDraftError] *)
Definition is_blocked : py_error → option string := error_named "ParticipationBlockedError".
Definition is_failure : py_error → option string := error_named "ParticipationDecisionError".
Definition is_draft_error : py_error → option string := error_named "ParticipationDraftError".

(** [except HistoryPaused: raise; except Exception] *)
Definition is_exception (e : py_error) : option string :=
  match e with CancelledError => None | _ => if is_history_paused e then None else Some (error_type e) end.
(** [except asyncio.CancelledError: raise; except Exception] *)
Definition is_plain (e : py_error) : option string := match e with CancelledError => None | _ => Some (error_type e) end.
(** [except BaseException] *)
Definition is_any (e : py_error) : option string := Some (error_type e).

(** [ParticipationDraftError(reason)] *)
Definition ParticipationDraftError (reason : string) : py_error :=
  OtherError "ParticipationDraftError" (if str_in reason ["provider_error"; "timeout"] then reason else "provider_error").

(** The body of a [try], and what its [except] clause saw. *)
Definition catch {A} (clause : py_error → option string) (m : rprog A) : rprog (string + A) :=
  λ w, match m w with
       | (Ok a, w') => (Ok (inr a), w')
       | (Raise e, w') => match clause e with Some r => (Ok (inl r), w') | None => (Raise e, w') end
       end.

(** ** Early returns *)

Definition ebind {A B} (m : rprog (dict + A)) (k : A → rprog (dict + B)) : rprog (dict + B) :=
  let* r := m in match r with inl d => pret (inl d) | inr a => k a end.
Notation "'let?' x ':=' m 'in' k" := (ebind m (λ x, k)) (at level 10, x pattern, m at level 100, k at level 200) : yeoman_scope.
Notation "'do?' m 'in' k" := (ebind m (λ _, k)) (at level 10, m at level 100, k at level 200) : yeoman_scope.

Definition early {A} (m : rprog dict) : rprog (dict + A) := let* d := m in pret (inl d).
Definition returned (m : rprog (dict + dict)) : rprog dict := let* r := m in pret (match r with inl d | inr d => d end).

Definition status_reason (status reason : string) : dict := [("status", JStr status); ("reason", JStr reason)].
Definition direct_superseded : dict := status_reason "skipped" "direct_request".

(** [try: ... except ParticipationBlockedError as blocked: return ...] *)
Definition or_blocked {A} (m : rprog A) (stop : string → rprog dict) : rprog (dict + A) :=
  let* r := catch is_blocked m in match r with inl reason => early (stop reason) | inr a => pret (inr a) end.

Definition lift {A} (r : result A) : rprog A := λ w, (r, w).
Definition log (e : rt_event) : rprog unit := λ w, (Ok tt, w <| pt_trace ::= (λ l, l ++ [e]) |>).
Definition on_ledger {A} (p : prog ledger A) : rprog A :=
  λ w, let (r, l) := p (pt_ledger w) in (r, w <| pt_ledger := l |>).
Definition block {A} (reason : string) : rprog A := praise (ParticipationBlockedError reason).

Section Runtime.
Context `{Sha256} (casefold : string → string) (env : runtime_env).

(** A call of a collaborator, and one that suspends the task. *)
Definition consult {A} (f : nat → result A) : rprog A := λ w, (f (pt_tick w), w <| pt_tick ::= S |>).
Definition await {A} (f : nat → result A) : rprog A :=
  λ w, (f (pt_tick w), w <| pt_ledger ::= re_others env (pt_tick w) |> <| pt_tick ::= S |>).
Definition clock_ms : rprog Z := consult (λ n, Ok (re_clock env n)).

(** ** Recording *)

(** [_record] *)
Definition record_end (o : ParticipationOpportunity) (what reason : string) : rprog unit :=
  let* _ := catch is_exception
    (let* now := clock_ms in
     on_ledger (record_disposition
       (MkDisposition (op_id o) (op_channel o) (op_chat_id o) (op_revision o) (op_epoch o) (op_lane o) (op_trigger o) (op_sources o)
          what (Some (first_chars 160 reason)) now now))) in
  pret tt.

(** [record_judge_outcome], and [_record_judge_failure] with the detail of a failure *)
Definition record_outcome (attempt_id outcome : string) (detail : option string) : rprog unit :=
  do* on_ledger (record_judge_outcome attempt_id outcome detail) in log (EvOutcome attempt_id outcome).
Definition record_judge_failure (attempt_id printed : string) : rprog unit :=
  let (reason, detail) := failure_parts printed in
  record_outcome attempt_id reason (match detail with Some d => nonempty (Some (py_strip d)) | None => None end).

(** A recorded end. *)
Definition ends (o : ParticipationOpportunity) (what reason : string) (answer : dict) : rprog dict :=
  do* record_end o what reason in pret answer.

(** ** Fences *)

(** [_direct_active] *)
Definition direct_active (o : ParticipationOpportunity) : rprog bool :=
  match re_direct env with
  | None => do* log (EvDirect false) in pret false
  | Some checker =>
      let* r := catch is_exception (consult (λ n, checker n (op_channel o) (op_chat_id o))) in
      let active := match r with inl _ => true | inr b => b end in
      do* log (EvDirect active) in pret active
  end.

Definition unless_direct (o : ParticipationOpportunity) (stop : rprog dict) : rprog (dict + unit) :=
  let* active := direct_active o in if active : bool then early stop else pret (inr tt).

Definition unless_expired (o : ParticipationOpportunity) (snapshot : dict) (stop : rprog dict) : rprog (dict + unit) :=
  let* now := clock_ms in
  let* within := lift (within_opportunity_deadline o snapshot now) in
  if within : bool then pret (inr tt) else early stop.

(** The frozen principals: one sender for each source. *)
Fixpoint freeze_principals (ids : list string) (values : list json) (frozen : list (string * string)) : option (list (string * string)) :=
  match values with
  | [] => Some frozen
  | JArr [a; b] :: values' =>
      let source := py_strip (str_or_empty (Some a)) in
      let sender := py_strip (str_or_empty (Some b)) in
      if negb (str_true source) || negb (str_true sender) || negb (str_in source ids) || str_in source (map fst frozen) then None
      else freeze_principals ids values' (frozen ++ [(source, sender)])
  | _ :: _ => None
  end.

Definition source_ids_of (o : ParticipationOpportunity) : list string := map py_strip (op_sources o).

(** [_source_principal_values] *)
Definition source_principal_values (o : ParticipationOpportunity) : rprog (list (string * string)) :=
  let* r := catch is_exception (consult (λ n, re_source_principals env n (op_channel o) (op_chat_id o) (op_sources o))) in
  match r with
  | inl _ | inr None => block "source_principals_unavailable"
  | inr (Some values) =>
      let ids := source_ids_of o in
      if is_none (head ids) || existsb (λ x, negb (str_true x)) ids then block "source_events_missing"
      else if negb (length (each_once ids) =? length ids)%nat then block "source_principals_unavailable"
      else match freeze_principals ids values [] with
           | Some frozen => if (length frozen =? length ids)%nat then pret frozen else block "source_principals_unavailable"
           | None => block "source_principals_unavailable"
           end
  end.

Fixpoint all_participants_allowed (o : ParticipationOpportunity) (l : list (string * string)) : rprog unit :=
  match l with
  | [] => pret tt
  | (_, sender) :: l' =>
      let* allowed := consult (λ n, re_participant_allowed env n (op_channel o) (op_chat_id o) sender) in
      if allowed : bool then all_participants_allowed o l' else block "source_principal_not_authorized"
  end.

Definition paused (o : ParticipationOpportunity) : rprog (option string) :=
  let* pause := consult (λ n, re_paused env n (op_channel o) (op_chat_id o)) in
  do* log (EvPaused (is_some (nonempty pause))) in pret (nonempty pause).
Definition source_allowed (o : ParticipationOpportunity) : rprog bool :=
  let* allowed := consult (λ n, re_source_allowed env n (op_channel o) (op_chat_id o) (op_sources o)) in
  do* log (EvSource allowed) in pret allowed.

Definition unhashable (v : json) : bool := match v with JArr _ | JObj _ => true | _ => false end.

(** [_preflight] *)
Definition preflight (o : ParticipationOpportunity) (snapshot : dict) : rprog unit :=
  let* enabled := lift (snapshot_bool snapshot "enabled" false) in
  if negb enabled then block "feature_disabled" else
  let* opted_in := lift (snapshot_bool snapshot "opted_in" false) in
  if negb opted_in then block "chat_not_opted_in" else
  let invalid := str_or_empty (dict_get "invalid_reason" snapshot) in
  if str_true invalid then block invalid else
  let* epoch := lift (epoch_of snapshot o) in
  if negb (epoch =? op_epoch o) then block "epoch_changed" else
  let* pause := paused o in
  match pause with Some reason => block reason | None =>
  let* allowed := source_allowed o in
  if negb allowed then block "source_not_authorized" else
  let* principals := source_principal_values o in
  do* all_participants_allowed o principals in
  match dict_get "allowed_actions" snapshot with
  | Some (JArr actions) =>
      if existsb unhashable actions then praise (TypeError "unhashable type")
      else if forallb (λ v, match v with JStr s => s =?s "silence" | _ => false end) actions then block "no_feasible_action"
      else pret tt
  | _ => pret tt
  end
  end.

(** [_final_submission_veto] *)
Definition final_submission_veto (o : ParticipationOpportunity) (snapshot : dict) : rprog (option string) :=
  let* active := direct_active o in
  if active : bool then pret (Some "direct_request") else
  let* pause := catch is_exception (paused o) in
  match pause with
  | inl _ => pret (Some "pause_state_unavailable")
  | inr (Some reason) => pret (Some reason)
  | inr None =>
      let* allowed := catch is_exception (source_allowed o) in
      match allowed with
      | inl _ | inr false => pret (Some "source_not_authorized")
      | inr true =>
          match epoch_of snapshot o with
          | Raise (TypeError _) | Raise (ValueError _) => pret (Some "epoch_changed")
          | Raise e => praise e
          | Ok epoch =>
              if negb (epoch =? op_epoch o) then pret (Some "epoch_changed")
              else if lane_of snapshot o =?s "shadow" then pret (Some "shadow_lane") else pret None
          end
      end
  end.

(** ** Knowledge *)

(** [_revalidate_selected_knowledge]: whether the evidence changed, and the context as it leaves it *)
Definition revalidate_selected_knowledge (o : ParticipationOpportunity) (context : dict) : rprog (bool * dict) :=
  match selected_knowledge context with
  | None =>
      if str_true (py_strip (str_or_empty (dict_get "selected_knowledge_text" context)))
      then block "knowledge_revalidation_failed" else pret (false, context)
  | Some selection =>
      match re_revalidate env with
      | None => block "knowledge_revalidation_failed"
      | Some revalidate =>
          let* r := catch is_exception (consult (λ n, revalidate n o context selection)) in
          match r with
          | inr (Some (JObj updated)) =>
              if negb (dict_has "text" updated) then block "knowledge_revalidation_failed" else
              let fresh := attribute (Some (JObj updated)) in
              let context1 := dict_set "knowledge_revalidation_revision" (JStr (fresh "revision"))
                                (dict_set "knowledge_revalidated" (JBool true) context) in
              if (fresh "text" =?s attribute (Some selection) "text") && (fresh "revision" =?s attribute (Some selection) "revision")
              then pret (false, context1)
              else
                let context2 := dict_set "_knowledge_selection" (JObj updated) context1 in
                pret (true,
                  if str_true (fresh "text")
                  then dict_set "knowledge_rendered_chars" (JInt (py_len (fresh "text")))
                         (dict_set "knowledge_selection_status" (JStr "selected")
                            (dict_set "selected_knowledge_text" (JStr (fresh "text")) context2))
                  else dict_set "knowledge_rendered_chars" (JInt 0)
                         (dict_set "knowledge_selected_count" (JInt 0)
                            (dict_set "knowledge_selection_status" (JStr "empty") (dict_pop "selected_knowledge_text" context2))))
          | _ => block "knowledge_revalidation_failed"
          end
      end
  end.

(** ** The decision inputs *)

(** [_remaining_capacity] *)
Definition remaining_capacity (o : ParticipationOpportunity) (limits : list ledger_limit) (now_ms : Z) : rprog Z :=
  on_ledger (pget (λ l,
    match map (λ e, Z.max 0 (ll_limit e - consumed_slots (op_channel o) (op_chat_id o) (ll_category e) now_ms (ll_window e)
                                               (default "rolling" (ll_kind e)) l)) limits with
    | [] => 0
    | x :: rest => foldl Z.min x rest
    end)).

(** [_remaining_judge_capacity] *)
Definition remaining_judge_capacity (o : ParticipationOpportunity) (limit now_ms : Z) : rprog Z :=
  if limit <=? 0 then pret 0 else
  on_ledger (pget (λ l,
    Z.max 0 (limit - Z.of_nat (length (judge_attempts_since (op_channel o) (op_chat_id o) (now_ms - 3600000) l))))).

(** [_reaction_spacing_met] *)
Definition reaction_spacing_met (o : ParticipationOpportunity) (snapshot : dict) : rprog bool :=
  let* spacing := lift (snapshot_int snapshot ["min_messages_between_reactions"] 0) in
  if spacing <=? 0 then pret true else
  on_ledger (pget (λ l, match last_reaction_revision (op_channel o) (op_chat_id o) l with
                        | None => true
                        | Some last => spacing <=? op_revision o - last
                        end)).

(** [_image_actions] *)
Definition image_actions (o : ParticipationOpportunity) (snapshot : dict) (meme_limits sticker_limits : list ledger_limit) (now_ms : Z)
    : rprog (list string * string) :=
  let* allowed := lift (snapshot_bool snapshot "allow_memes" false) in
  if negb allowed || is_none (re_memes env) || is_none (re_media_sender env) then pret ([], "") else
  let* meme_left := remaining_capacity o meme_limits now_ms in
  let* sticker_left := remaining_capacity o sticker_limits now_ms in
  let* last := on_ledger (pget (last_meme_activity (op_channel o) (op_chat_id o))) in
  let spaced := match snapshot_int snapshot ["min_messages_between_memes"] 0 with
                | Ok spacing => match last with None => true | Some (revision, _) => spacing <=? op_revision o - revision end
                | Raise _ => false
                end in
  pret ((if spaced then (if 0 <? meme_left then ["meme"] else []) ++ (if 0 <? sticker_left then ["sticker"] else []) else []),
        meme_budget_text meme_limits meme_left sticker_limits sticker_left last o now_ms).

(** What a configured reply action leaves of the actions. *)
Definition reply_allowed (reply_action : option json) : result (option (list string)) :=
  match reply_action with
  | None | Some JNull => Ok None
  | Some (JStr s) =>
      if s =?s "answer" then Ok (Some ["silence"; "react"; "comment"; "meme"; "sticker"])
      else if s =?s "react" then Ok (Some ["silence"; "react"])
      else if s =?s "silence" then Ok (Some ["silence"])
      else Raise (ParticipationBlockedError "invalid_snapshot")
  | Some (JArr _) | Some (JObj _) => Raise (TypeError "unhashable type")
  | Some _ => Raise (ParticipationBlockedError "invalid_snapshot")
  end.

Definition only_allowed (allowed : option (list string)) (l : list string) : list string :=
  match allowed with None => l | Some a => List.filter (λ x, str_in x a) l end.

(** The intents of comments the budgets and the settings leave. *)
Definition comment_intents_of (continuation initiation direct : bool) : list string :=
  (if continuation then ["continue"] else []) ++ (if initiation then ["initiate"] else []) ++ (if direct then ["direct"] else []).

Definition limits_json (l : list ledger_limit) : json :=
  JArr (map (λ e, JArr ([JStr (ll_category e); JInt (ll_limit e); JInt (ll_window e)]
                         ++ match ll_kind e with Some k => [JStr k] | None => [] end)) l).

(** [_decision_inputs]: what the budgets and the settings leave to decide *)
Definition decision_inputs (o : ParticipationOpportunity) (snapshot : dict) : rprog DecisionInputs :=
  let* now_ms := clock_ms in
  let* comment_limits := lift (snapshot_limits snapshot "comment_limits" "comment") in
  let* reaction_limits := lift (snapshot_limits snapshot "reaction_limits" "reaction") in
  let* configured := lift (snapshot_limits snapshot "initiation_limits" "initiation") in
  let* initiation_limits :=
    match configured with
    | [] => let* daily := lift (daily_cap_of snapshot) in
            pret (if 0 <? daily then [MkLedgerLimit "initiation" daily 86400000 (Some "calendar_day")] else [])
    | l => pret l
    end in
  let* comment_remaining := remaining_capacity o comment_limits now_ms in
  let* reaction_remaining := remaining_capacity o reaction_limits now_ms in
  let* initiation_remaining := remaining_capacity o initiation_limits now_ms in
  let* judge_limit := lift (judge_limit_of snapshot) in
  let* judge_remaining := remaining_judge_capacity o judge_limit now_ms in
  let* allow_initiation := lift (snapshot_bool snapshot "allow_initiation" false) in
  let* allow_continuation := lift (snapshot_bool snapshot "allow_continuation" false) in
  let* allow_reactions := lift (snapshot_bool snapshot "allow_reactions" false) in
  let* spontaneity_enabled := lift (snapshot_bool snapshot "spontaneity_enabled" false) in
  let* daily_cap := lift (daily_cap_of snapshot) in
  let* types := lift (contribution_types snapshot) in
  let typed := negb (is_none (head types)) in
  let* hint := if allow_continuation : bool then lift (snapshot_bool snapshot "continuation_candidate" false) else pret false in
  let* direct_addressed := lift (snapshot_bool snapshot "direct_addressed" false) in
  let comments := comment_intents_of (hint && (0 <? comment_remaining) && typed)
    (allow_initiation && spontaneity_enabled && (0 <? daily_cap) && (0 <? initiation_remaining) && (0 <? comment_remaining)
     && typed && negb (in_quiet_hours snapshot now_ms)) (direct_addressed && (0 <? comment_remaining)) in
  let* reaction_allowed := if allow_reactions && (0 <? reaction_remaining) then reaction_spacing_met o snapshot else pret false in
  let* meme_limits := lift (snapshot_limits snapshot "meme_limits" "meme") in
  let* sticker_limits := lift (snapshot_limits snapshot "sticker_limits" "sticker") in
  let* (images, budget_text) := image_actions o snapshot meme_limits sticker_limits now_ms in
  let candidates := "silence" :: (if 0 <? judge_remaining
                      then (if reaction_allowed : bool then ["react"] else []) ++ (if is_none (head comments) then [] else ["comment"]) ++ images
                      else []) in
  let* requested_actions := lift (snapshot_tokens snapshot "allowed_actions") in
  let* replies := lift (reply_allowed (snapshot_value snapshot "reply_action")) in
  let candidates := only_allowed replies (only_allowed requested_actions candidates) in
  let unavailable := negb (re_writer_available env) && str_in "comment" candidates in
  let candidates := if unavailable then without "comment" candidates else candidates in
  let comments := if unavailable then [] else comments in
  if unavailable && is_none (head (without "silence" candidates)) then block "writer_unavailable" else
  let actions := List.filter (λ a, str_in a (with_member "silence" candidates)) ALL_ACTIONS in
  let* requested_intents := lift (snapshot_tokens snapshot "allowed_intents") in
  let intents := if reaction_allowed || negb (is_none (head images))
                 then with_member (if allow_continuation then "continue" else "initiate") comments else comments in
  let intents := only_allowed requested_intents intents in
  let trusted := dict_update snapshot
    [("allow_initiation", JBool allow_initiation); ("allow_continuation", JBool allow_continuation);
     ("allow_reactions", JBool allow_reactions); ("spontaneity_enabled", JBool spontaneity_enabled);
     ("spontaneity_daily_cap", JInt daily_cap); ("allowed_contribution_types", strings types);
     ("comment_allowed_intents", strings (order_by String.leb comments)); ("reaction_limits", limits_json reaction_limits);
     ("comment_limits", limits_json comment_limits); ("initiation_limits", limits_json initiation_limits);
     ("meme_limits", limits_json meme_limits); ("sticker_limits", limits_json sticker_limits);
     ("meme_budget_text", JStr budget_text); ("writer_unavailable", JBool unavailable)] in
  let* window := lift (snapshot_positive_int snapshot "context_window_minutes" 120) in
  let* messages := lift (snapshot_positive_int snapshot "context_max_messages" 40) in
  let* anchors := lift (snapshot_positive_int snapshot "context_max_anchors" 10) in
  let* mode := lift (snapshot_context_mode snapshot) in
  let* lull := lift (snapshot_positive_int snapshot "conversation_lull_minutes" 25) in
  let* burst := lift (snapshot_positive_int snapshot "conversation_burst_messages" 8) in
  let* burst_minutes := lift (snapshot_positive_int snapshot "conversation_burst_minutes" 15) in
  let* floor := lift (snapshot_int snapshot ["conversation_min_messages"] 8) in
  let* approval := lift (snapshot_bool snapshot "approval_required" false) in
  let* arbitration := lift (snapshot_int snapshot ["arbitration_revision"] 0) in
  let* candidate := lift (snapshot_bool snapshot "continuation_candidate" false) in
  pret {| di_snapshot := trusted; di_bounds := MkBounds window messages anchors mode lull burst burst_minutes floor;
          di_allowed_actions := actions; di_allowed_intents := intents;
          di_budgets := [("judge_calls_per_hour", judge_remaining); ("initiation_per_day", initiation_remaining);
                         ("comments_per_window", comment_remaining); ("reactions_per_window", reaction_remaining)];
          di_reservations := (if str_in "initiate" comments then [("initiate", initiation_limits ++ comment_limits)] else [])
                             ++ (if str_in "continue" comments then [("continue", comment_limits)] else [])
                             ++ (if str_in "direct" comments then [("direct", comment_limits)] else []);
          di_approval_required := approval; di_arbitration_revision := arbitration;
          di_current_source_ids := List.filter (λ x, str_true (py_strip x)) (op_sources o);
          di_continuation_candidate := candidate |}.

(** ** Anchors *)

Fixpoint any_closed (channel chat_id : string) (tokens : list string) (l : ledger) : bool :=
  match tokens with
  | [] => false
  | t :: tokens' => social_anchor_closed channel chat_id t l || any_closed channel chat_id tokens' l
  end.

(** [_hydrate_social_anchor_closures] *)
Definition hydrate_social_anchor_closures (context : dict) : rprog dict :=
  match dict_get "anchors" context with
  | Some (JArr anchors) =>
      let (channel, chat_id) := context_target context in
      if negb (str_true channel) || negb (str_true chat_id) then pret context else
      on_ledger (pget (λ l,
        let newly := λ v, match v with
                          | JObj a => negb (anchor_is_closed a) && any_closed channel chat_id (anchor_tokens a) l
                          | _ => false
                          end in
        if existsb newly anchors
        then dict_set "anchors" (JArr (map (λ v, match v with
               | JObj a => if newly v then JObj (dict_set "social_closed" (JBool true) a) else v
               | _ => v
               end) anchors)) context
        else context))
  | _ => pret context
  end.

(** ** The evaluation *)

Definition has_action (inputs : DecisionInputs) : bool := existsb (λ a, negb (a =?s "silence")) (di_allowed_actions inputs).

(** The meme offer of [_with_meme_offer], which only images ask for. *)
Definition offer_memes (o : ParticipationOpportunity) (inputs : DecisionInputs) (context : dict) : rprog (DecisionInputs * dict) :=
  if existsb (λ a, str_in a IMAGE_ACTIONS) (di_allowed_actions inputs) then
    let* outcome := λ w, let (r, w') := consult (λ n, match re_memes env with
                          | Some m => pm_offer m n (op_channel o) (op_chat_id o) (mappings (items_of (dict_get "messages" context)))
                          | None => Raise (OtherError "AttributeError" "offer")
                          end) w in (Ok r, w') in
    lift (with_meme_offer outcome inputs context)
  else pret (inputs, context).

(** The arguments of a judge attempt. *)
Definition attempt_args (o : ParticipationOpportunity) (id : string) (limit gap : Z) (candidate : bool) (reserve : Z) : judge_args :=
  MkJudgeArgs id (op_channel o) (op_chat_id o) limit gap candidate reserve.

Definition charge (attempt_id : string) (args : judge_args) (now_ms : Z) : rprog bool :=
  let* charged := on_ledger (reserve_judge_attempt attempt_id args now_ms) in
  do* log (EvAttempt attempt_id charged) in pret charged.

(** A call of the judge: its decision and the context as it leaves it. *)
Definition judge_decide (judge : nat → ParticipationOpportunity → dict → result ParticipationDecision * dict) (attempt_id : string)
    (o : ParticipationOpportunity) (context : dict) : rprog (result ParticipationDecision * dict) :=
  do* log (EvJudge attempt_id) in await (λ n, Ok (judge n o context)).

Definition evaluated : Type := ParticipationDecision * DecisionInputs * dict * dict.

(** A skip before the judge was paid for. *)
Definition preflight_skipped (o : ParticipationOpportunity) (reason : string) : rprog dict :=
  ends o "preflight_skipped" reason (status_reason "skipped" reason).
Definition stale (o : ParticipationOpportunity) (reason : string) (answer : dict) : rprog dict := ends o "stale_discarded" reason answer.

(** [_execute_decision] of a silent decision. *)
Definition decided_silence (o : ParticipationOpportunity) (d : ParticipationDecision) : rprog dict :=
  ends o "decided_silence" (pn_reason d) [("status", JStr "silence"); ("intent", JStr (pn_intent d))].

(** What [_evaluate_participation] does up to the paid call. *)
Definition prepare_decision (o : ParticipationOpportunity) : rprog (dict + (dict * DecisionInputs * dict)) :=
  do? unless_direct o (pret direct_superseded) in
  let* r := catch is_exception (catch is_blocked (consult (λ n, re_snapshot env n o))) in
  let? snapshot := match r with
                   | inl _ => early (preflight_skipped o "snapshot_error")
                   | inr (inl reason) => early (preflight_skipped o reason)
                   | inr (inr s) => pret (inr s)
                   end in
  do? unless_direct o (pret direct_superseded) in
  do? or_blocked (preflight o snapshot) (preflight_skipped o) in
  do? (match re_judge env with None => early (preflight_skipped o "no_judge") | Some _ => pret (inr tt) end) in
  let? inputs := or_blocked (let* inputs := decision_inputs o snapshot in
                             if has_action inputs then pret inputs else block "no_feasible_action") (preflight_skipped o) in
  do? unless_direct o (pret direct_superseded) in
  let* built := catch (λ e, match is_failure e with Some m => Some (failure_parts m).1
                                                  | None => const "context_error" <$> is_exception e end)
                  (await (λ n, re_build env n o inputs)) in
  let? context := match built with inl reason => early (preflight_skipped o reason) | inr c => pret (inr c) end in
  let* context := hydrate_social_anchor_closures context in
  let* (inputs, context) := lift (apply_continuation_candidate casefold o inputs context) in
  let* (inputs, context) := offer_memes o inputs context in
  if negb (has_action inputs) then early (preflight_skipped o "no_feasible_action") else
  do? unless_direct o (pret direct_superseded) in
  do? unless_expired o snapshot (stale o "deadline_expired" (status_reason "skipped" "deadline_expired")) in
  pret (inr (snapshot, inputs, context)).

(** Fences between the charge and the call, which close the attempt. *)
Definition closes (attempt_id outcome : string) (m : rprog dict) : rprog dict := do* record_outcome attempt_id outcome None in m.

(** [SHADOW_NOTE_KEY] *)
Definition SHADOW_NOTE_KEY : string := "_group_notes_shadow".

(** [_group_notes_shadow_base]: the unfitted context, when this chat has a shadow note *)
Definition group_notes_shadow_base (context : dict) : option dict :=
  match re_group_notes env, dict_get SHADOW_NOTE_KEY context with
  | Some _, Some (JObj note) => if str_true (py_strip (str_or_empty (dict_get "text" note))) then Some context else None
  | _, _ => None
  end.

(** [_start_group_notes_shadow] *)
Definition start_group_notes_shadow (o : ParticipationOpportunity) (inputs : DecisionInputs) (base : option dict) (live : shadow_outcome)
    : rprog unit :=
  match base with Some b => log (EvShadow (MkShadowTask o inputs b live)) | None => pret tt end.

(** The paid call and the second check. *)
Definition judged (o : ParticipationOpportunity) (snapshot : dict) (inputs : DecisionInputs) (context : dict) (attempt_id : string)
    (judge : nat → ParticipationOpportunity → dict → result ParticipationDecision * dict) : rprog (dict + (ParticipationDecision * dict)) :=
  let late := closes attempt_id "deadline_expired" (stale o "deadline_expired" (status_reason "skipped" "deadline_expired")) in
  let direct := closes attempt_id "direct_superseded" (pret direct_superseded) in
  do? unless_direct o direct in
  do? unless_expired o snapshot late in
  let? (_, context) := or_blocked (revalidate_selected_knowledge o context)
                         (λ reason, closes attempt_id reason (stale o reason (status_reason "skipped" reason))) in
  do? unless_expired o snapshot late in
  do? unless_direct o direct in
  let shadow := start_group_notes_shadow o inputs (group_notes_shadow_base context) in
  let* (r, context) := judge_decide judge attempt_id o context in
  let failed := λ printed, let reason := (failure_parts printed).1 in
    do* shadow (Failed printed) in
    do* record_judge_failure attempt_id printed in ends o "judge_failed" reason (status_reason "judge_failed" reason) in
  let* r := catch is_exception (catch is_failure (lift r)) in
  let? d := match r with
            | inl ty => early (do* shadow (Errored ty) in closes attempt_id "provider_error"
                                (ends o "judge_failed" "provider_error" (status_reason "judge_failed" "provider_error")))
            | inr (inl printed) => early (failed printed)
            | inr (inr d) => pret (inr d)
            end in
  do? unless_direct o direct in
  let* v := catch is_failure (lift (validate_decision casefold d o inputs context)) in
  do? (match v with inl printed => early (failed printed) | inr _ => pret (inr tt) end) in
  do* shadow (Decided d) in
  do* record_outcome attempt_id (pn_action d) None in
  pret (inr (d, context)).

(** [_evaluate_participation] *)
Definition evaluate_opportunity (o : ParticipationOpportunity) : rprog (dict + evaluated) :=
  let? (snapshot, inputs, context) := prepare_decision o in
  match re_judge env with
  | None => pret (inl [])
  | Some judge =>
      let attempt_id := op_id o +:+ ":0" in
      let? charged := or_blocked
        (let* now := clock_ms in
         let* limit := lift (judge_limit_of snapshot) in
         let* gap := lift (judge_gap_ms_of snapshot) in
         let* reserve := lift (continuation_reserve_of (di_snapshot inputs)) in
         charge attempt_id (attempt_args o (op_id o) limit gap (di_continuation_candidate inputs) reserve) now) (preflight_skipped o) in
      if negb charged then early (ends o "skipped" "attempt_not_available" (status_reason "skipped" "attempt_not_available")) else
      let? (d, context) := judged o snapshot inputs context attempt_id judge in
      if lane_of snapshot o =?s "shadow" then
        early (ends o ("shadow_" +:+ pn_action d) (pn_reason d)
                 [("status", JStr "shadow"); ("action", JStr (pn_action d)); ("intent", JStr (pn_intent d))])
      else if pn_action d =?s "silence" then early (decided_silence o d)
      else pret (inr (d, inputs, context, snapshot))
  end.

(** ** Admissions and reservations *)

(** [_build_admission] *)
Definition build_admission (o : ParticipationOpportunity) (snapshot : dict) (d : ParticipationDecision) (effect_id : string)
    (payload : EffectPayload) (evaluation_index : Z) : rprog (ParticipationAdmission * string) :=
  let ids := source_ids_of o in
  if is_none (head ids) || existsb (λ x, negb (str_true x)) ids then block "source_events_missing" else
  let* principals := source_principal_values o in
  let payload_hash := canonical_hash (JObj (payload_to_dict payload)) in
  if negb (str_true payload_hash) then block "payload_hash_missing" else
  let given := py_strip (str_or_empty (dict_get "policy_hash" snapshot)) in
  let policy_hash := if str_true given then given else canonical_hash (JObj snapshot) in
  let version := py_strip (str_or_empty (dict_get "policy_version" snapshot)) in
  let policy_version := if str_true version then version else "snapshot:" +:+ first_chars 16 policy_hash in
  let* revisions := lift (match
      (let! epoch := epoch_of snapshot o in
       let! arbitration := snapshot_int snapshot ["arbitration_revision"] 0 in
       let! approval := snapshot_int snapshot ["approval_revision"] 0 in Ok (epoch, arbitration, approval)) with
    | Raise (TypeError _) | Raise (ValueError _) => Raise (ParticipationBlockedError "invalid_admission_revision")
    | r => r
    end) in
  let '(epoch, arbitration, approval) := revisions in
  if negb (epoch =? op_epoch o) then block "epoch_changed" else
  let action := py_strip (pn_action d) in
  let intent := py_strip (pn_intent d) in
  if negb (str_in action ALL_ACTIONS) || negb (str_true intent) then block "invalid_admission_decision" else
  let opt_str := λ v, match v with Some s => JStr s | None => JNull end in
  let admission_id := "adm-" +:+ effect_id
    +:+ (if 0 <? evaluation_index
         then "-r" +:+ py_str (JInt (op_revision o)) +:+ "-e" +:+ py_str (JInt evaluation_index) else "") in
  pret (Router.MkParticipation admission_id (op_id o)
    [("opportunity_id", JStr (op_id o)); ("channel", JStr (op_channel o)); ("chat_id", JStr (op_chat_id o));
     ("activation_epoch", JInt epoch); ("lane", JStr (lane_of snapshot o)); ("observed_revision", JInt (op_revision o));
     ("action", JStr action); ("intent", JStr intent); ("purpose", JStr (pn_purpose d)); ("emoji", opt_str (pn_emoji d));
     ("target_message_id", opt_str (pn_target_message_id d)); ("anchor_message_id", opt_str (pn_anchor_message_id d));
     ("admission_id", JStr admission_id); ("source_event_ids", strings ids);
     ("source_principals", JArr (map (λ p : string * string, strings [p.1; p.2]) principals));
     ("policy_version", JStr policy_version); ("policy_hash", JStr policy_hash); ("arbitration_revision", JInt arbitration);
     ("contribution_type", JStr (default "" (pn_contribution_type d))); ("payload_hash", JStr payload_hash);
     ("approval_revision", JInt approval)], payload_hash).

Definition effect_of (o : ParticipationOpportunity) (operation : string) : string :=
  deterministic_effect_id (op_channel o) (op_chat_id o) operation (op_id o) 1.

(** [reserve_delivery] as every effect of the runtime asks for it *)
Definition reserve (o : ParticipationOpportunity) (effect_id : string) (limits : list ledger_limit) : rprog bool :=
  let* now := clock_ms in
  let* granted := on_ledger (reserve_delivery
    {| rv_proposal_id := op_id o; rv_effect_id := effect_id; rv_channel := op_channel o; rv_chat_id := op_chat_id o;
       rv_limits := map limit_entry_of limits; rv_proposal_revision := 1; rv_observed_revision := Some (op_revision o);
       rv_activation_epoch := Some (op_epoch o); rv_lane := op_lane o; rv_origin := "participation" |} now) in
  do* log (EvReserve effect_id granted) in pret granted.

(** [_release_comment], and every other release *)
Definition release (o : ParticipationOpportunity) (effect_id reason : string) : rprog unit :=
  let* now := clock_ms in
  do* on_ledger (release_delivery (op_id o) effect_id "failed" reason now) in
  log (EvRelease effect_id reason).

(** A release with the record_end and the answer that follow it. *)
Definition released (o recorded : ParticipationOpportunity) (effect_id reason what why : string) (answer : dict) : rprog dict :=
  do* release o effect_id reason in ends recorded what why answer.

(** A release that records nothing: the direct request took over. *)
Definition superseded (o : ParticipationOpportunity) (effect_id : string) : rprog dict :=
  do* release o effect_id "direct_superseded" in pret direct_superseded.

(** [_close_social_association] *)
Definition close_social_association (o : ParticipationOpportunity) (d : ParticipationDecision) : rprog unit :=
  match pn_anchor_message_id d with
  | Some anchor =>
      if negb (pn_closes_exchange d) || negb (str_true (py_strip anchor)) then pret tt else
      let* _ := catch is_exception
        (let* now := clock_ms in on_ledger (close_social_anchor (op_channel o) (op_chat_id o) (py_strip anchor) now)) in pret tt
  | None => pret tt
  end.

Definition FAILED_STATES : list string := ["failed"; "not_executed"; "blocked"; "cancelled"; "expired"].

(** What a transport's report makes of a reservation: [None] when the effect went out. *)
Definition settle_report (o : ParticipationOpportunity) (effect_id kind : string) (r : transport_outcome) : rprog (dict + unit) :=
  if to_accepted r && (to_state r =?s "sent") && to_has_receipt r then
    let provider := match to_receipt r with Some p => nonempty (Some (py_strip p)) | None => None end in
    let* now := clock_ms in
    do* on_ledger (project_transport_accepted (op_id o) effect_id
      (MkEvidence provider "transport_receipt" (if str_true (to_attempt_id r) then to_attempt_id r else effect_id)) now) in
    pret (inr tt)
  else if str_in (to_state r) FAILED_STATES then
    early (released o o effect_id (kind +:+ "_" +:+ to_state r) (kind +:+ "_failed") (to_state r)
             (status_reason (kind +:+ "_failed") (to_state r)))
  else
    let state := if str_true (to_state r) then to_state r else "no_receipt" in
    early (ends o (kind +:+ "_unknown") state (status_reason (kind +:+ "_unknown") state)).

(** ** Reactions *)

Definition skipped_as (o : ParticipationOpportunity) (status reason : string) : rprog dict := ends o status reason (status_reason status reason).

(** [_run_reaction] *)
Definition run_reaction (o : ParticipationOpportunity) (d : ParticipationDecision) (inputs : DecisionInputs) (context : dict) : rprog dict :=
  match re_reactor env, nonempty (pn_target_message_id d), nonempty (pn_emoji d) with
  | Some reactor, Some target, Some emoji => returned
      (let effect_id := effect_of o "reaction" in
       let snapshot := di_snapshot inputs in
       let? (admission, _) := or_blocked (build_admission o snapshot d effect_id (ReactionPayload target emoji None None) 0)
                                (skipped_as o "reaction_skipped") in
       let* limits := lift (snapshot_limits snapshot "reaction_limits" "reaction") in
       let* granted := reserve o effect_id limits in
       if negb granted then early (skipped_as o "skipped" "reaction_budget_exhausted") else
       let gone := λ reason, released o o effect_id reason "stale_discarded" reason (status_reason "reaction_skipped" reason) in
       do? unless_direct o (superseded o effect_id) in
       let? (changed, context) := or_blocked (revalidate_selected_knowledge o context) gone in
       if changed : bool then early (gone "knowledge_changed") else
       do? unless_expired o snapshot (gone "deadline_expired") in
       do? unless_direct o (superseded o effect_id) in
       do* log (EvHandOver ToReactor effect_id) in
       let* report := catch is_any (await (λ n, reactor n target emoji effect_id admission)) in
       let? r := match report with
                 | inl ty => early (skipped_as o "reaction_unknown" ty)
                 | inr r => pret (inr r)
                 end in
       do? settle_report o effect_id "reaction" r in
       do* close_social_association o d in
       early (ends o "reaction_submitted" (pn_reason d) [("status", JStr "reaction_submitted"); ("effect_id", JStr effect_id)]))
  | _, _, _ => skipped_as o "reaction_skipped" "no_reaction_path"
  end.

(** ** Images *)

(** [_image_veto] *)
Definition image_veto (o : ParticipationOpportunity) (inputs : DecisionInputs) (context : dict) : rprog (option string * dict) :=
  let* active := direct_active o in
  if active : bool then pret (Some "direct_superseded", context) else
  let* r := catch is_blocked (revalidate_selected_knowledge o context) in
  match r with
  | inl reason => pret (Some reason, context)
  | inr (true, context) => pret (Some "knowledge_changed", context)
  | inr (false, context) =>
      let* now := clock_ms in
      let* within := lift (within_opportunity_deadline o (di_snapshot inputs) now) in
      pret (if within : bool then None else Some "deadline_expired", context)
  end.

(** A veto releases the slot. *)
Definition unless_vetoed (o : ParticipationOpportunity) (inputs : DecisionInputs) (context : dict) (effect_id kind : string)
    : rprog (dict + dict) :=
  let* (veto, context) := image_veto o inputs context in
  match veto with
  | None => pret (inr context)
  | Some reason =>
      early (if reason =?s "direct_superseded" then superseded o effect_id
             else released o o effect_id reason "stale_discarded" reason (status_reason (kind +:+ "_skipped") reason))
  end.

(** [_run_image] *)
Definition run_image (o : ParticipationOpportunity) (d : ParticipationDecision) (inputs : DecisionInputs) (context : dict) : rprog dict :=
  let kind := pn_action d in
  match re_memes env, re_media_sender env, pn_meme d, nonempty (pn_target_message_id d) with
  | Some memes, Some sender, Some plan, Some _ => returned
      (let snapshot := di_snapshot inputs in
       let* limits := lift (snapshot_limits snapshot (kind +:+ "_limits") kind) in
       let exhausted := skipped_as o "skipped" (kind +:+ "_budget_exhausted") in
       if is_none (head limits) then early exhausted else
       let effect_id := effect_of o kind in
       let* granted := reserve o effect_id limits in
       if negb granted then early exhausted else
       let? context := unless_vetoed o inputs context effect_id kind in
       let failed := λ reason what, released o o effect_id reason what reason (status_reason what reason) in
       let* path := λ w,
         match catch is_exception (await (λ n, pm_render memes n plan (op_channel o) (op_chat_id o) (kind =?s "sticker"))) w with
         | (Raise e, w') => if is_history_paused e then (let* _ := release o effect_id "history_paused" in praise e) w' else (Raise e, w')
         | r => r
         end in
       let? path := match path with
                    | inl ty => early (failed (first_chars 60 ("render_" +:+ ty)) (kind +:+ "_failed"))
                    | inr p => pret (inr p)
                    end in
       let? (admission, _) := or_blocked (build_admission o snapshot d effect_id (MediaPayload [path] None) 0)
                                (λ reason, failed reason (kind +:+ "_skipped")) in
       let? _ := unless_vetoed o inputs context effect_id kind in
       do* log (EvHandOver ToMedia effect_id) in
       let* report := catch is_any (await (λ n, sender n path effect_id admission)) in
       let? r := match report with
                 | inl ty => early (skipped_as o (kind +:+ "_unknown") ty)
                 | inr r => pret (inr r)
                 end in
       do? settle_report o effect_id kind r in
       early (ends o (kind +:+ "_submitted") (pn_reason d)
                [("status", JStr (kind +:+ "_submitted")); ("effect_id", JStr effect_id)]))
  | _, _, _, _ => skipped_as o (kind +:+ "_skipped") "no_meme_path"
  end.

(** ** Comments *)

(** [_draft]: a trend card verbatim, else the writer *)
Definition draft (s : Submission) (o : ParticipationOpportunity) (d : ParticipationDecision) (context : dict) : rprog string :=
  if is_trend_source (pn_target_message_id d) then
    let text := match dict_get "trend_posts" context with
                | Some (JObj posts) => str_or_empty (dict_get (default "" (pn_target_message_id d)) posts)
                | _ => ""
                end in
    if str_true (py_strip text) then pret text else praise (ParticipationDraftError "trend_card_unavailable")
  else do* log EvDraft in await (λ n, sb_generate_draft s n o d context).

(** [_FreshCommentState] *)
Record FreshCommentState := MkFresh {
  fc_opportunity : ParticipationOpportunity;
  fc_snapshot : dict;
  fc_inputs : DecisionInputs;
  fc_context : dict;
  fc_knowledge_changed : bool;
}.
#[export] Instance eta_fresh : Updatable FreshCommentState :=
  λ f, MkFresh (fc_opportunity f) (fc_snapshot f) (fc_inputs f) (fc_context f) (fc_knowledge_changed f).

(** What a rebuilt context keeps of knowledge the judge dropped for its budget. *)
Definition keep_dropped (context fresh : dict) : dict :=
  if str_or_empty (dict_get "knowledge_selection_status" context) =?s "budget_dropped" then
    let fresh := dict_pop "selected_knowledge_text" fresh in
    let fresh := match dict_get "_knowledge_selection" context with
                 | None | Some JNull => fresh
                 | Some _ => dict_set "_knowledge_selection" (JObj [("text", JStr ""); ("revision", JStr ""); ("reason", JStr "budget_dropped")]) fresh
                 end in
    dict_update fresh [("knowledge_selection_status", JStr "budget_dropped"); ("knowledge_selected_count", JInt 0);
                       ("knowledge_rendered_chars", JInt 0)]
  else fresh.

(** [_fresh_comment_state]: the fresh state if something changed, and the context it was read with *)
Definition fresh_comment_state (o : ParticipationOpportunity) (snapshot : dict) (context : dict) : rprog (option FreshCommentState * dict) :=
  let* raw := catch is_exception (consult (λ n, re_snapshot env n o)) in
  match raw with
  | inl _ => block "freshness_unavailable"
  | inr fresh_snapshot =>
      let fresh_o := opportunity_from_snapshot o fresh_snapshot in
      do* preflight fresh_o fresh_snapshot in
      let* _ := lift (max_reevaluations fresh_snapshot) in
      if lane_of fresh_snapshot fresh_o =?s "shadow" then block "shadow_lane" else
      let baseline := revision_token_of snapshot o context in
      let* (knowledge_changed, context) := revalidate_selected_knowledge o context in
      let observed := revision_token_of fresh_snapshot fresh_o context in
      if negb (re_history env) && negb knowledge_changed && negb (revision_token_changed baseline observed) then pret (None, context) else
      let* fresh_inputs := decision_inputs fresh_o fresh_snapshot in
      let* rebuilt :=
        if re_history env || needs_rebuild baseline observed then
          let* built := await (λ n, re_build env n fresh_o fresh_inputs) in
          let* (changed, fresh_context) := revalidate_selected_knowledge fresh_o (keep_dropped context built) in
          if changed : bool then block "knowledge_changed" else
          let observed := revision_token_of fresh_snapshot fresh_o fresh_context in
          pret (if negb knowledge_changed && negb (revision_token_changed baseline observed) then None else Some (fresh_context, observed))
        else pret (Some (context, observed)) in
      match rebuilt with
      | None => pret (None, context)
      | Some (fresh_context, observed) =>
          let* hydrated := hydrate_social_anchor_closures fresh_context in
          let* (inputs, final_context) := lift (apply_continuation_candidate casefold fresh_o fresh_inputs hydrated) in
          if negb (has_action inputs) then block "no_feasible_action" else
          pret (Some (MkFresh fresh_o (di_snapshot inputs) inputs final_context
                        (knowledge_changed || negb (tk_knowledge baseline =?s tk_knowledge observed))), context)
      end
  end.

(** The text of an outcome's status. *)
Definition status_or (status otherwise : string) : string := if str_true status then status else otherwise.

(** [_submit_comment] *)
Definition submit_comment (s : Submission) (o : ParticipationOpportunity) (snapshot : dict) (d : ParticipationDecision) (text : string)
    (context : dict) (effect_id : string) (evaluation_index : Z) (deadline_snapshot : dict) : rprog dict := returned
  (let gone := λ why what, released o o effect_id why what why (status_reason "comment_skipped" why) in
   let expired := gone "deadline_expired" "stale_discarded" in
   do? unless_expired o deadline_snapshot expired in
   let? (changed, context) := or_blocked (revalidate_selected_knowledge o context) (λ reason, gone reason "stale_discarded") in
   if changed : bool then early (gone "knowledge_changed" "stale_discarded") else
   do? unless_expired o deadline_snapshot expired in
   let reply_to := if is_trend_source (pn_target_message_id d) then None else pn_target_message_id d in
   let* asks := lift (snapshot_bool snapshot "approval_required" false) in
   let approval := asks && (pn_intent d =?s "initiate") in
   let* admission_snapshot :=
     if approval then let* revision := lift (snapshot_int snapshot ["approval_revision"] 0) in
                      pret (dict_set "approval_revision" (JInt (Z.max 1 revision)) snapshot)
     else pret snapshot in
   let? (admission, payload_hash) := or_blocked
     (build_admission o admission_snapshot d effect_id (TextPayload text reply_to) evaluation_index) (λ reason, gone reason "comment_skipped") in
   let* veto := final_submission_veto o snapshot in
   do? (match veto with
        | None => pret (inr tt)
        | Some reason => early (if reason =?s "direct_request" then superseded o effect_id else gone reason "stale_discarded")
        end) in
   if approval then
     let* evidence := consult (λ n, Ok (re_evidence env n admission context)) in
     if is_some (selected_knowledge context) && is_none evidence
     then early (gone "approval_knowledge_revalidation_unavailable" "comment_skipped") else
     match sb_queue_approval s with
     | None => early (gone "approval_path_unavailable" "comment_skipped")
     | Some queue =>
         do* log (EvHandOver ToApproval effect_id) in
         let* status := await (λ n, queue n admission effect_id text evidence) in
         if status =?s "awaiting_approval"
         then early (ends o "awaiting_approval" (pn_reason d) [("status", JStr status); ("effect_id", JStr effect_id)])
         else early (gone (status_or status "approval_queue_failed") "comment_skipped")
     end
   else
     do* log (EvHandOver ToSubmission effect_id) in
     let* outcome := await (λ n, sb_submit s n admission effect_id text payload_hash) in
     let status := status_or outcome "submitted" in
     do* (if str_in status ["submitted"; "transport_accepted"; "sent"; "delivered"] then close_social_association o d else pret tt) in
     early (ends o ("comment_" +:+ status) (pn_reason d) [("status", JStr status); ("effect_id", JStr effect_id)])).

(** ** Reconsideration *)

(** The variables of the loop of [_reconsider_comment]. *)
Record reconsideration := MkReconsider {
  rc_current : FreshCommentState;
  rc_text : option string;
  rc_token : option (string * string);
  rc_generated : bool;
  rc_index : Z;
  rc_max : Z;
  rc_knowledge_used : bool;
}.
#[export] Instance eta_reconsideration : Updatable reconsideration :=
  λ r, MkReconsider (rc_current r) (rc_text r) (rc_token r) (rc_generated r) (rc_index r) (rc_max r) (rc_knowledge_used r).

(** What stays from the first decision. *)
Record reconsider_args := MkReconsiderArgs {
  ra_submission : Submission;
  ra_judge : nat → ParticipationOpportunity → dict → result ParticipationDecision * dict;
  ra_opportunity : ParticipationOpportunity;
  ra_snapshot : dict;
  ra_decision : ParticipationDecision;
  ra_effect_id : string;
  ra_limit : Z;
  ra_gap : Z;
  ra_reserve : Z;
}.

Definition with_context (r : reconsideration) (context : dict) : reconsideration := r <| rc_current ::= (λ c, c <| fc_context := context |>) |>.

(** A retained draft whose knowledge changed is dropped. *)
Definition drop_stale_text (r : reconsideration) : reconsideration :=
  match rc_text r, rc_token r with
  | Some _, Some token =>
      if bool_decide (selected_knowledge_token (fc_context (rc_current r)) = Some token) then r else r <| rc_text := None |>
  | _, _ => r
  end.

Definition capped (used : bool) (limit : Z) : Z := if used then Z.min limit 1 else limit.
Definition knowledge_in (context : dict) : bool := opt_truthy (dict_get "knowledge_rendered_to_judge" context).

Section Reconsider.
Context (a : reconsider_args).
Notation first := (ra_opportunity a).
Notation effect := (ra_effect_id a).

Definition drop_expired (current : ParticipationOpportunity) : rprog dict :=
  released first current effect "deadline_expired" "stale_discarded" "deadline_expired" (status_reason "comment_skipped" "deadline_expired").
Definition changed_answer : dict := status_reason "comment_skipped" "context_changed".
Definition drop_changed (current : ParticipationOpportunity) (why : string) : rprog dict :=
  released first current effect why "stale_discarded" why changed_answer.
Definition drop_blocked (current : ParticipationOpportunity) (reason : string) : rprog dict :=
  released first current effect reason "stale_discarded" reason (status_reason "comment_skipped" reason).
Definition quiet_release (reason : string) (answer : dict) : rprog dict := do* release first effect reason in pret answer.

(** The charge of one more attempt, within the first settings and the current ones. *)
Definition recharge (r : reconsideration) (attempt_id : string) : rprog (dict + unit) :=
  let current := fc_opportunity (rc_current r) in
  let snapshot := fc_snapshot (rc_current r) in
  let? charged := or_blocked
    (let* now := clock_ms in
     let* limit := lift (judge_limit_of snapshot) in
     let* gap := lift (judge_gap_ms_of snapshot) in
     let* reserve := lift (continuation_reserve_of snapshot) in
     charge attempt_id (attempt_args current (op_id first) (Z.min (ra_limit a) limit) (Z.max (ra_gap a) gap)
                          (di_continuation_candidate (fc_inputs (rc_current r))) (Z.min (ra_reserve a) reserve)) now) (drop_blocked current) in
  if charged : bool then pret (inr tt)
  else early (drop_blocked current "reevaluation_budget_exhausted").

(** The fences between the charge and the call, and the call with its second check. *)
Definition rejudge (r : reconsideration) (attempt_id : string) : rprog (dict + (ParticipationDecision * reconsideration)) :=
  let current := fc_opportunity (rc_current r) in
  let direct := closes attempt_id "direct_superseded" (superseded first effect) in
  let late := closes attempt_id "deadline_expired" (quiet_release "deadline_expired" (status_reason "comment_skipped" "deadline_expired")) in
  do? unless_direct current direct in
  do? unless_expired first (ra_snapshot a) late in
  let? (_, context) := or_blocked (revalidate_selected_knowledge current (fc_context (rc_current r)))
                         (λ reason, closes attempt_id reason (quiet_release reason (status_reason "comment_skipped" reason))) in
  let r := drop_stale_text (with_context r context) in
  do? unless_direct current direct in
  do? unless_expired first (ra_snapshot a) late in
  let* (answer, context) := judge_decide (ra_judge a) attempt_id current context in
  let r := with_context r context in
  let failed := λ printed, let reason := (failure_parts printed).1 in
    do* record_judge_failure attempt_id printed in
    released first current effect reason "judge_failed" reason (status_reason "judge_failed" reason) in
  let* answer := catch is_exception (catch is_failure (lift answer)) in
  let? d := match answer with
            | inl _ => early (closes attempt_id "provider_error"
                         (released first current effect "provider_error" "judge_failed" "provider_error"
                            (status_reason "judge_failed" "provider_error")))
            | inr (inl printed) => early (failed printed)
            | inr (inr d) => pret (inr d)
            end in
  let used := rc_knowledge_used r || knowledge_in context in
  let r := r <| rc_knowledge_used := used |> <| rc_max ::= capped used |> in
  do? unless_direct current direct in
  let* v := catch is_failure (lift (validate_decision casefold d current (fc_inputs (rc_current r)) context)) in
  do? (match v with inl printed => early (failed printed) | inr _ => pret (inr tt) end) in
  do* record_outcome attempt_id (pn_action d) None in
  if pn_action d =?s "silence" then
    early (released first current effect "reevaluated_silence" "stale_discarded" "reevaluated_silence"
             [("status", JStr "silence"); ("intent", JStr (pn_intent d))])
  else if negb (pn_action d =?s "comment") then early (drop_changed current "reevaluated_action_changed")
  else if negb (pn_intent d =?s pn_intent (ra_decision a)) then early (drop_changed current "reservation_intent_changed")
  else do* log (EvActsOn current d (fc_inputs (rc_current r)) context) in pret (inr (d, r)).

(** The replacement draft, and its text. *)
Definition redraft (r : reconsideration) (d : ParticipationDecision) (noted : bool) : rprog (dict + reconsideration) :=
  let current := fc_opportunity (rc_current r) in
  let context := fc_context (rc_current r) in
  let failed := λ reason answer, if noted then released first current effect reason "generation_failed" reason answer
                                 else quiet_release reason answer in
  let* written := catch is_exception (catch (λ e, if noted then is_draft_error e else None) (draft (ra_submission a) current d context)) in
  let? text := match written with
               | inl _ => early (failed "generation_failed" (status_reason "generation_failed" "generation_failed"))
               | inr (inl reason) => early (failed reason (status_reason "generation_failed" reason))
               | inr (inr t) => pret (inr (py_strip t))
               end in
  if negb (str_true text) then early (failed "empty_draft" (status_reason "generation_failed" "empty_draft")) else
  let r := r <| rc_text := Some text |> <| rc_token := selected_knowledge_token context |> <| rc_generated := true |> in
  do? (if noted then unless_direct current (superseded first effect) else pret (inr tt)) in
  pret (inr r).

(** A text for the new decision: the retained one, or one replacement. *)
Definition retext (r : reconsideration) (d : ParticipationDecision) : rprog (dict + reconsideration) :=
  let current := fc_opportunity (rc_current r) in
  if negb (bool_decide (comment_signature d = comment_signature (ra_decision a))) then
    if rc_generated r then early (drop_changed current "decision_changed_again") else
    do? or_blocked (preflight current (fc_snapshot (rc_current r))) (drop_blocked current) in
    do? unless_direct current (superseded first effect) in
    do? unless_expired first (ra_snapshot a) (drop_expired current) in
    redraft r d true
  else match rc_text r with
  | Some _ => pret (inr r)
  | None =>
      if rc_generated r then early (quiet_release "replacement_already_generated" changed_answer) else
      do? unless_direct current (superseded first effect) in
      do? unless_expired first (ra_snapshot a) (drop_expired current) in
      redraft r d false
  end.

(** One round of the loop: the answer, or the variables of the next round. *)
Definition reconsider_round (r : reconsideration) : rprog (dict + reconsideration) :=
  let current := fc_opportunity (rc_current r) in
  if rc_max r <? rc_index r
  then early (released first current effect "context_changed" "stale_discarded" "reevaluation_limit" changed_answer) else
  do? unless_expired first (ra_snapshot a) (drop_expired current) in
  do? unless_direct current (superseded first effect) in
  let attempt_id := op_id first +:+ ":" +:+ py_str (JInt (rc_index r)) in
  do? recharge r attempt_id in
  let? (d, r) := rejudge r attempt_id in
  let? (_, context) := or_blocked
    (let* (changed, context) := revalidate_selected_knowledge current (fc_context (rc_current r)) in
     if changed : bool then block "knowledge_changed" else pret (changed, context)) (drop_blocked current) in
  let r := drop_stale_text (with_context r context) in
  let? r := retext r d in
  let? (newer, context) := or_blocked (fresh_comment_state current (fc_snapshot (rc_current r)) (fc_context (rc_current r)))
                             (drop_blocked current) in
  let r := with_context r context in
  match newer with
  | Some fresh =>
      if rc_generated r then
        early (released first (fc_opportunity fresh) effect "context_changed_again" "stale_discarded" "context_changed_again" changed_answer)
      else
        let* limit := lift (max_reevaluations (fc_snapshot fresh)) in
        pret (inr (r <| rc_max ::= Z.min limit |> <| rc_current := fresh |> <| rc_index ::= Z.succ |>))
  | None =>
      early (submit_comment (ra_submission a) current (fc_snapshot (rc_current r)) d (default "" (rc_text r)) context effect
               (rc_index r) (ra_snapshot a))
  end.

(** The loop, for a number of rounds. *)
Fixpoint reconsider_rounds (rounds : nat) (r : reconsideration) : rprog dict :=
  match rounds with
  | O => praise (OtherError "OutOfRounds" "")
  | S rounds' => let* next := reconsider_round r in match next with inl d => pret d | inr r' => reconsider_rounds rounds' r' end
  end.

End Reconsider.

(** The rounds the bound on re-evaluations leaves, and the one that ends the loop. *)
Definition RECONSIDER_ROUNDS : nat := 3.

(** [_reconsider_comment] *)
Definition reconsider_comment (s : Submission) (judge : nat → ParticipationOpportunity → dict → result ParticipationDecision * dict)
    (o : ParticipationOpportunity) (snapshot context : dict) (d : ParticipationDecision) (effect_id : string) (text : option string)
    (fresh : FreshCommentState) : rprog dict :=
  let* m1 := lift (max_reevaluations snapshot) in
  let* m2 := lift (max_reevaluations (fc_snapshot fresh)) in
  let used := knowledge_in context in
  let* limit := lift (judge_limit_of snapshot) in
  let* gap := lift (judge_gap_ms_of snapshot) in
  let* reserve := lift (continuation_reserve_of snapshot) in
  reconsider_rounds (MkReconsiderArgs s judge o snapshot d effect_id limit gap reserve) RECONSIDER_ROUNDS
    (MkReconsider fresh text (match text with Some _ => selected_knowledge_token (fc_context fresh) | None => None end) false 1
       (capped used (Z.min m1 m2)) used).

(** ** Running a comment *)

(** [_run_comment] *)
Definition run_comment (o : ParticipationOpportunity) (snapshot : dict) (d : ParticipationDecision) (context : dict)
    (inputs : DecisionInputs) : rprog dict :=
  match re_submission env with
  | Some s => returned
      (let judge := match re_judge env with
                    | Some j => j
                    | None => λ _ _ c, (Raise (OtherError "AttributeError" "decide"), c)
                    end in
       let limits := reservation_for_intent inputs (pn_intent d) in
       if is_none (head limits) then early (skipped_as o "comment_skipped" "no_comment_limits") else
       do? or_blocked (lift (max_reevaluations snapshot)) (skipped_as o "comment_skipped") in
       let effect_id := effect_of o "comment" in
       let* granted := reserve o effect_id limits in
       if negb granted then early (skipped_as o "comment_skipped" "comment_budget_exhausted") else
       let answer := status_reason "comment_skipped" in
       let stale_release := λ reason, released o o effect_id reason "stale_discarded" reason (answer reason) in
       do? unless_expired o snapshot (released o o effect_id "stale_context" "stale_discarded" "deadline_expired" (answer "deadline_expired")) in
       let? (fresh, context) := or_blocked (fresh_comment_state o snapshot context) stale_release in
       match fresh with
       | Some f => early (reconsider_comment s judge o snapshot context d effect_id None f)
       | None =>
           do? unless_direct o (superseded o effect_id) in
           do? unless_expired o snapshot (stale_release "deadline_expired") in
           let failed := λ reason, released o o effect_id reason "generation_failed" reason (status_reason "generation_failed" reason) in
           let* written := catch is_exception (catch is_draft_error (draft s o d context)) in
           let? text := match written with
                        | inl _ => early (failed "generation_failed")
                        | inr (inl reason) => early (failed reason)
                        | inr (inr t) => pret (inr (py_strip t))
                        end in
           if negb (str_true text) then early (failed "empty_draft") else
           do? unless_direct o (superseded o effect_id) in
           let? (fresh, context) := or_blocked (fresh_comment_state o snapshot context) stale_release in
           match fresh with
           | Some f => early (reconsider_comment s judge o snapshot context d effect_id
                                (if fc_knowledge_changed f then None else Some text) f)
           | None => early (submit_comment s o snapshot d text context effect_id 0 snapshot)
           end
       end)
  | None => skipped_as o "comment_skipped" "no_submission_path"
  end.

(** ** The entry point *)

(** [_execute_decision] *)
Definition execute_decision (o : ParticipationOpportunity) (e : evaluated) : rprog dict :=
  let '(d, inputs, context, snapshot) := e in
  if pn_action d =?s "silence" then decided_silence o d else
  do* log (EvActsOn o d inputs context) in
  if pn_action d =?s "react" then run_reaction o d inputs context
  else if str_in (pn_action d) IMAGE_ACTIONS then run_image o d inputs context
  else run_comment o snapshot d context inputs.

Definition history_turn : rprog unit := await (re_history_turn env).

(** The part under the history of one turn and the part under a second one. *)
Definition participate (o : ParticipationOpportunity) : rprog dict :=
  let selected := re_history env && (op_channel o =?s "whatsapp") in
  do* (if selected then history_turn else pret tt) in
  let* result := evaluate_opportunity o in
  match result with
  | inl answer => pret answer
  | inr (d, inputs, context, snapshot) =>
      if selected then
        do* history_turn in
        let* inputs := decision_inputs o snapshot in
        let* context := await (λ n, re_build env n o inputs) in
        do* lift (validate_decision casefold d o inputs context) in
        execute_decision o (d, inputs, context, snapshot)
      else execute_decision o (d, inputs, context, snapshot)
  end.

(** [evaluate_participation] *)
Definition evaluate_participation (o : ParticipationOpportunity) : rprog dict :=
  λ w, match participate o w with
       | (Raise e, w') =>
           if is_history_paused e then (Ok (status_reason "skipped" "history_paused"), w')
           else match is_failure e with
                | Some printed => (Ok (status_reason "skipped" (failure_parts printed).1), w')
                | None => (Raise e, w')
                end
       | r => r
       end.

(** ** The group-notes shadow *)

(** The base context with the note in its place. *)
Definition with_group_notes (base : dict) : dict :=
  match dict_get SHADOW_NOTE_KEY base with
  | Some (JObj note) =>
      dict_update (dict_pop SHADOW_NOTE_KEY base)
        [("group_notes_text", JStr (str_or_empty (dict_get "text" note))); ("group_notes_week", JStr (str_or_empty (dict_get "week" note)));
         ("group_notes_digest_id", JStr (str_or_empty (dict_get "digest_id" note)))]
  | _ => base
  end.

(** [_run_group_notes_shadow] *)
Definition run_group_notes_shadow (t : shadow_task) : rprog unit :=
  let base := with_group_notes (st_base t) in
  let* (answer, base) := match re_judge env with
    | None => pret (Raise (ParticipationDecisionError "provider_error" "no_judge"), base)
    | Some judge => do* log EvShadowCall in await (λ n, Ok (judge n (st_opportunity t) base))
    end in
  let* outcome := catch is_plain (catch is_failure (lift
    (let! d := answer in let! _ := validate_decision casefold d (st_opportunity t) (st_inputs t) base in Ok d))) in
  let outcome := match outcome with inl ty => Errored ty | inr (inl printed) => Failed printed | inr (inr d) => Decided d end in
  match re_group_notes env with
  | None => pret tt
  | Some record =>
      let* _ := catch is_plain (let* now := clock_ms in consult (λ n, record n t outcome base now)) in pret tt
  end.

(** The tasks an evaluation started. *)
Definition shadow_tasks (trace : list rt_event) : list shadow_task := omap (λ e, match e with EvShadow t => Some t | _ => None end) trace.

(** [wait_group_notes_shadow]: whatever a task ends with stays in the task. A task changes
    nothing the evaluation reads, so its steps are those after the evaluation. *)
Fixpoint run_shadows (tasks : list shadow_task) (w : runtime_world) : runtime_world :=
  match tasks with [] => w | t :: tasks' => run_shadows tasks' (run_group_notes_shadow t w).2 end.

(** An evaluation and the tasks it started. *)
Definition evaluate_with_shadows (o : ParticipationOpportunity) : rprog dict :=
  λ w, let (r, w') := evaluate_participation o w in
       (r, run_shadows (shadow_tasks (drop (length (pt_trace w)) (pt_trace w'))) w').

End Runtime.
