(* ===== verification/RuntimeFixtures.v ===== *)
(** * RuntimeFixtures

    Collaborators of the participation runtime for concrete runs: a chat where Alice asks on
    after a delivered reply, a judge that continues the exchange, a writer and a transport
    that succeed; and variants of them. *)

From Stdlib Require Import ZArith Lia Ascii.
From S2P Require Import Prelude Tables Json Models ThreadStore Registry PolicyEngine Router Signals Scheduler Projection Continuation.
From S2P Require Import Ledger LedgerDelivery Judge JudgeGuard JudgeProps GuardProps Inputs Runtime.

Definition group_snapshot (lane : string) : dict :=
 [("enabled", JBool true); ("opted_in", JBool true); ("activation_epoch", JInt 1); ("lane", JStr lane);
  ("allow_continuation", JBool true); ("continuation_candidate", JBool true); ("allowed_contribution_types", JArr [JStr "observation"]);
  ("comment_limits", JArr [JArr [JStr "comment"; JInt 3; JInt 3600000]]); ("judge_calls_per_hour", JInt 5);
  ("policy_hash", JStr "h"); ("opportunity_ttl_seconds", JInt 120)].
Definition ready_writer : Submission := MkSubmission (λ _ _ _ _, Ok "Tomorrow it rains.") None (λ _ _ _ _ _, Ok "").

Definition group_env : runtime_env := {|
  re_clock := λ n, 3000; re_others := λ _ l, l; re_snapshot := λ _ _, Ok (group_snapshot "production"); re_paused := λ _ _ _, Ok None;
  re_source_allowed := λ _ _ _ _, Ok true; re_source_principals := λ _ _ _ ids, Ok (Some (map (λ i, JArr [JStr i; JStr "alice"]) ids));
  re_participant_allowed := λ _ _ _ _, Ok true; re_direct := None;
  re_judge := Some (λ _ _ c, (Ok sample_decision, c)); re_build := λ _ _ _, Ok open_context; re_submission := Some ready_writer;
  re_reactor := None; re_writer_available := true; re_history := false; re_history_turn := λ _, Ok tt; re_revalidate := None;
  re_evidence := λ _ _ _, None; re_memes := None; re_media_sender := None; re_group_notes := None |}.

Definition quiet_world : runtime_world := MkRuntimeWorld (empty_ledger 0) 0 [].

(** The same chat, with other settings and another context builder. *)
Definition chat_env (snapshot : nat → dict) (build : nat → result dict) : runtime_env :=
  {| re_clock := re_clock group_env; re_others := re_others group_env; re_snapshot := λ n _, Ok (snapshot n);
     re_paused := re_paused group_env; re_source_allowed := re_source_allowed group_env;
     re_source_principals := re_source_principals group_env; re_participant_allowed := re_participant_allowed group_env;
     re_direct := None; re_judge := re_judge group_env; re_build := λ n _ _, build n; re_submission := re_submission group_env;
     re_reactor := None; re_writer_available := true; re_history := false; re_history_turn := re_history_turn group_env;
     re_revalidate := None; re_evidence := re_evidence group_env; re_memes := None; re_media_sender := None; re_group_notes := None |}.

(** The same chat with a weekly note to compare the decision with, and a recorder for it. *)
Definition notes_context : dict := ("_group_notes_shadow", JObj [("text", JStr "They plan a hike."); ("week", JStr "2025-W10")]) :: open_context.
Definition notes_env : runtime_env :=
  {| re_clock := re_clock group_env; re_others := re_others group_env; re_snapshot := re_snapshot group_env;
     re_paused := re_paused group_env; re_source_allowed := re_source_allowed group_env;
     re_source_principals := re_source_principals group_env; re_participant_allowed := re_participant_allowed group_env;
     re_direct := None; re_judge := re_judge group_env; re_build := λ _ _ _, Ok notes_context; re_submission := re_submission group_env;
     re_reactor := None; re_writer_available := true; re_history := false; re_history_turn := re_history_turn group_env;
     re_revalidate := None; re_evidence := re_evidence group_env; re_memes := None; re_media_sender := None;
     re_group_notes := Some (λ _ _ _ _ _, Ok tt) |}.

(** The settings only shadow. *)
Definition shadow_env : runtime_env := chat_env (λ _, group_snapshot "shadow") (λ _, Ok open_context).

(** New messages arrive while the comment is written. *)
Definition moving_snapshot (n : nat) : dict :=
  if (n <? 6)%nat then group_snapshot "production" else ("context_revision", JInt 9) :: group_snapshot "production".
Definition moving_env : runtime_env := chat_env moving_snapshot (λ _, Ok open_context).
(** And one of the sources was taken back: the rebuilt context is refused. *)
Definition withdrawn_env : runtime_env :=
  chat_env moving_snapshot (λ n, if (n <? 8)%nat then Ok open_context else Raise (ParticipationDecisionError "source_unavailable" "m2")).

(** One comment and one reaction in an hour. *)
Definition spent_snapshot : dict :=
  dict_update (group_snapshot "production")
    [("comment_limits", JArr [JArr [JStr "comment"; JInt 1; JInt 3600000]]); ("allow_reactions", JBool true);
     ("reaction_limits", JArr [JArr [JStr "reaction"; JInt 1; JInt 3600000]])].
Definition spent_env : runtime_env := chat_env (λ _, spent_snapshot) (λ _, Ok open_context).

(** A reconsideration of the comment. *)
Definition group_judge : nat → ParticipationOpportunity → dict → result ParticipationDecision * dict := λ _ _ c, (Ok sample_decision, c).
Definition sample_args : reconsider_args :=
  MkReconsiderArgs ready_writer group_judge asked_on (group_snapshot "production") sample_decision "spk-1" 5 0 0.
Definition sample_reconsideration : reconsideration :=
  MkReconsider (MkFresh asked_on (group_snapshot "production") offered_round.1 offered_round.2 false) (Some "Tomorrow it rains.") None false 1 1 false.
