(* ===== verification/RuntimeSpec.v ===== *)
(** * RuntimeSpec

    The protocol one evaluation of the participation runtime follows, as an abstract machine
    over its events, and the rules by which a program of [Runtime] is shown to follow it. *)

From Stdlib Require Import ZArith Lia Ascii.
From S2P Require Import Prelude Tables Json Models Router Scheduler Ledger Judge JudgeGuard Inputs Runtime.

(** ** The machine *)

(** The delivery slot of the evaluation. *)
Inductive slot :=
| NoSlot
(** a decision is carried out, and nothing was reserved for it yet *)
| Chosen
| HeldSlot (effect_id : string)
| HandedOver (effect_id : string)
| ReleasedSlot.

(** A paid attempt: the judge was not called for it yet, was called, or was called and the
    group-notes shadow was started beside it. *)
Inductive judging := Unasked | Asked | Compared.

Record phase := MkPhase {
  ph_slot : slot;
  (** the paid attempt without outcome *)
  ph_open : option (string * judging);
  ph_paid : nat;
  ph_drafts : nat;
  (** the fences that were found open last: the direct request, the pause, the sources *)
  ph_clear : nat;
}.
#[export] Instance eta_phase : Updatable phase :=
  λ p, MkPhase (ph_slot p) (ph_open p) (ph_paid p) (ph_drafts p) (ph_clear p).

#[export] Instance slot_eq_dec : EqDecision slot.
Proof. solve_decision. Defined.

Definition start_phase : phase := MkPhase NoSlot None 0 0 0.

Definition MAX_PAID : nat := 3.
Definition MAX_DRAFTS : nat := 2.

(** The fences a route asks for directly before the hand-over. *)
Definition fences_of (route : delivery_route) : nat :=
  match route with ToReactor | ToMedia => 1%nat | ToApproval | ToSubmission => 3%nat end.

Section Machine.
Context (opportunity_id : string).

(** The id of the next attempt. *)
Definition attempt_name (n : nat) : string := opportunity_id +:+ ":" +:+ py_str (JInt (Z.of_nat n)).

(** One event; [None]: the protocol does not allow it. *)
Definition protocol (p : phase) (e : rt_event) : option phase :=
  match e with
  | EvAttempt id charged =>
      if negb (id =?s attempt_name (ph_paid p)) || is_some (ph_open p) then None
      else if negb charged then Some (p <| ph_clear := 0%nat |>)
      else if (ph_paid p <? MAX_PAID)%nat
      then Some (p <| ph_open := Some (id, Unasked) |> <| ph_paid ::= S |> <| ph_clear := 0%nat |>) else None
  | EvJudge id =>
      match ph_open p with
      | Some (id', Unasked) => if id =?s id' then Some (p <| ph_open := Some (id, Asked) |> <| ph_clear := 0%nat |>) else None
      | _ => None
      end
  | EvOutcome id _ =>
      match ph_open p with
      | Some (id', _) => if id =?s id' then Some (p <| ph_open := None |> <| ph_clear := 0%nat |>) else None
      | None => None
      end
  | EvShadow _ =>
      match ph_open p with
      | Some (id, Asked) => if (ph_paid p =? 1)%nat then Some (p <| ph_open := Some (id, Compared) |> <| ph_clear := 0%nat |>) else None
      | _ => None
      end
  | EvShadowCall => None
  | EvActsOn _ _ _ _ =>
      match ph_slot p, ph_open p with
      | NoSlot, None => if (0 <? ph_paid p)%nat then Some (p <| ph_slot := Chosen |> <| ph_clear := 0%nat |>) else None
      | HeldSlot _, None => Some (p <| ph_clear := 0%nat |>)
      | _, _ => None
      end
  | EvReserve effect granted =>
      match ph_slot p, ph_open p with
      | Chosen, None => Some (p <| ph_slot := if granted then HeldSlot effect else Chosen |> <| ph_clear := 0%nat |>)
      | _, _ => None
      end
  | EvRelease effect _ =>
      match ph_slot p, ph_open p with
      | HeldSlot effect', None | HandedOver effect', None =>
          if effect =?s effect' then Some (p <| ph_slot := ReleasedSlot |> <| ph_clear := 0%nat |>) else None
      | _, _ => None
      end
  | EvDraft =>
      match ph_slot p, ph_open p with
      | HeldSlot _, None => if (ph_drafts p <? MAX_DRAFTS)%nat then Some (p <| ph_drafts ::= S |> <| ph_clear := 0%nat |>) else None
      | _, _ => None
      end
  | EvHandOver route effect =>
      match ph_slot p, ph_open p with
      | HeldSlot effect', None =>
          if (effect =?s effect') && (ph_clear p =? fences_of route)%nat
          then Some (p <| ph_slot := HandedOver effect |> <| ph_clear := 0%nat |>) else None
      | _, _ => None
      end
  | EvDirect active => Some (p <| ph_clear := if active then 0%nat else 1%nat |>)
  | EvPaused paused => Some (p <| ph_clear := if negb paused && (ph_clear p =? 1)%nat then 2%nat else 0%nat |>)
  | EvSource allowed => Some (p <| ph_clear := if allowed && (ph_clear p =? 2)%nat then 3%nat else 0%nat |>)
  end.

(** The phase after a trace. *)
Fixpoint follows (p : phase) (trace : list rt_event) : option phase :=
  match trace with
  | [] => Some p
  | e :: trace' => match protocol p e with Some p' => follows p' trace' | None => None end
  end.

Definition phase_of (w : runtime_world) : option phase := follows start_phase (pt_trace w).

(** Nothing is left open: no paid attempt without outcome, no slot that was reserved and
    neither handed over nor released. *)
Definition nothing_open (p : phase) : Prop := ph_open p = None ∧ ∀ e, ph_slot p ≠ HeldSlot e.

Lemma follows_app p l1 l2 : follows p (l1 ++ l2) = match follows p l1 with Some p' => follows p' l2 | None => None end.
Proof. revert p. induction l1 as [|e l1 IH]; intros p; simpl; [done|]. destruct (protocol p e); [apply IH|done]. Qed.

(** ** Programs that follow it *)

(** From a phase with [P], the program stays within the protocol; a result satisfies [Q], and
    when it raises the phase satisfies [E]. *)
Definition triple {A} (P : phase → Prop) (m : rprog A) (Q : A → phase → Prop) (E : phase → Prop) : Prop :=
  ∀ w p, phase_of w = Some p → P p →
    ∃ p', phase_of (m w).2 = Some p' ∧ match (m w).1 with Ok a => Q a p' | Raise _ => E p' end.

Lemma triple_bind {A B} P (m : rprog A) R (k : A → rprog B) Q E :
  triple P m R E → (∀ a, triple (R a) (k a) Q E) → triple P (pbind m k) Q E.
Proof.
  intros Hm Hk w p Hw Hp. destruct (Hm w p Hw Hp) as (p1 & H1 & HR). unfold pbind.
  destruct (m w) as [[a|e] w1]; simpl in *; [by apply (Hk a w1 p1)|by exists p1].
Qed.

Lemma triple_weaken {A} (P P' : phase → Prop) (m : rprog A) (Q Q' : A → phase → Prop) (E E' : phase → Prop) :
  triple P' m Q' E' → (∀ p, P p → P' p) → (∀ a p, Q' a p → Q a p) → (∀ p, E' p → E p) → triple P m Q E.
Proof.
  intros Hm HP HQ HE w p Hw Hp. destruct (Hm w p Hw (HP _ Hp)) as (p1 & H1 & HR). exists p1. split; [done|].
  destruct (m w).1; auto.
Qed.

Lemma triple_ret {A} (P : phase → Prop) (a : A) (Q : A → phase → Prop) E : (∀ p, P p → Q a p) → triple P (pret a) Q E.
Proof. intros HQ w p Hw Hp. exists p. split; [done|]. by apply HQ. Qed.

Lemma triple_raise {A} P e (Q : A → phase → Prop) (E : phase → Prop) : (∀ p, P p → E p) → triple P (praise e) Q E.
Proof. intros HE w p Hw Hp. exists p. split; [done|]. by apply HE. Qed.

Lemma triple_lift {A} P (r : result A) (Q : A → phase → Prop) E :
  (∀ a p, P p → Q a p) → (∀ p, P p → E p) → triple P (lift r) Q E.
Proof. intros HQ HE w p Hw Hp. exists p. split; [done|]. simpl. destruct r; auto. Qed.

Lemma triple_log P e (Q : unit → phase → Prop) E :
  (∀ p, P p → ∃ p', protocol p e = Some p' ∧ Q tt p') → triple P (log e) Q E.
Proof.
  intros HQ w p Hw Hp. destruct (HQ p Hp) as (p' & He & HQ'). exists p'. split; [|done].
  unfold phase_of in *. simpl. by rewrite follows_app, Hw, <- He; simpl; rewrite He.
Qed.

Lemma triple_catch {A} clause P (m : rprog A) (Q : string + A → phase → Prop) (E : phase → Prop) (Q' : A → phase → Prop) (E' : phase → Prop) :
  triple P m Q' E' → (∀ a p, Q' a p → Q (inr a) p) → (∀ r p, E' p → Q (inl r) p) → (∀ p, E' p → E p) → triple P (catch clause m) Q E.
Proof.
  intros Hm HQ HC HE w p Hw Hp. destruct (Hm w p Hw Hp) as (p1 & H1 & HR). unfold catch.
  destruct (m w) as [[a|e] w1]; simpl in *; [exists p1; split; [done|]; by apply HQ|].
  destruct (clause e); exists p1; (split; [done|]); [by apply HC|by apply HE].
Qed.

(** ** Programs without events *)

Class Mute {A} (m : rprog A) : Prop := mute : ∀ w, pt_trace (m w).2 = pt_trace w.

Lemma mute_triple {A} (m : rprog A) `{!Mute m} P : triple P m (λ _, P) P.
Proof.
  intros w p Hw Hp. exists p. unfold phase_of in *. rewrite (mute w). split; [done|]. by destruct (m w).1.
Qed.

Lemma mute_step_triple {A} (m : rprog A) P (E : phase → Prop) : Mute m → (∀ p, P p → E p) → triple P m (λ _, P) E.
Proof. intros Hm HE w p Hw Hp. destruct (mute_triple m P w p Hw Hp) as (p1 & ? & Hx). exists p1. split; [done|]. destruct (m w).1; auto. Qed.

#[export] Instance mute_ret {A} (a : A) : Mute (pret a). Proof. by intros w. Qed.
#[export] Instance mute_raise {A} e : Mute (praise e : rprog A). Proof. by intros w. Qed.
#[export] Instance mute_block {A} reason : Mute (block reason : rprog A). Proof. by intros w. Qed.
#[export] Instance mute_lift {A} (r : result A) : Mute (lift r). Proof. by intros w. Qed.
#[export] Instance mute_ledger {A} (p : prog ledger A) : Mute (on_ledger p).
Proof. intros w. unfold on_ledger. by destruct (p (pt_ledger w)). Qed.
#[export] Instance mute_consult {A} (f : nat → result A) : Mute (consult f). Proof. by intros w. Qed.
#[export] Instance mute_await env {A} (f : nat → result A) : Mute (await env f). Proof. by intros w. Qed.
#[export] Instance mute_clock env : Mute (clock_ms env). Proof. by intros w. Qed.
Lemma mute_bind {A B} (m : rprog A) (k : A → rprog B) : Mute m → (∀ a, Mute (k a)) → Mute (pbind m k).
Proof.
  intros Hm Hk w. unfold pbind. specialize (Hm w). destruct (m w) as [[a|e] w1]; [|done]. simpl in Hm. by rewrite (Hk a w1).
Qed.
Lemma mute_catch {A} clause (m : rprog A) : Mute m → Mute (catch clause m).
Proof. intros Hm w. unfold catch. specialize (Hm w). destruct (m w) as [[a|e] w1]; [done|]. by destruct (clause e). Qed.

(** ** Programs that only look at the fences *)

(** The same phase, whatever the fences said last. *)
Definition same (c p : phase) : Prop :=
  ph_slot p = ph_slot c ∧ ph_open p = ph_open c ∧ ph_paid p = ph_paid c ∧ ph_drafts p = ph_drafts c.

Lemma same_refl p : same p p.
Proof. done. Qed.
Lemma same_clear c p n : same c p → same c (p <| ph_clear := n |>).
Proof. done. Qed.

Class Fenced {A} (m : rprog A) : Prop := fenced : ∀ c, triple (same c) m (λ _, same c) (same c).

#[export] Instance fenced_mute {A} (m : rprog A) : Mute m → Fenced m | 10.
Proof. intros Hm c. by apply mute_triple. Qed.
Lemma fenced_bind {A B} (m : rprog A) (k : A → rprog B) : Fenced m → (∀ a, Fenced (k a)) → Fenced (pbind m k).
Proof. intros Hm Hk c. eapply triple_bind; [apply Hm|]. intros a. apply Hk. Qed.
Lemma fenced_catch {A} clause (m : rprog A) : Fenced m → Fenced (catch clause m).
Proof. intros Hm c. by eapply triple_catch; [apply Hm|..]. Qed.
#[export] Instance fenced_direct b : Fenced (log (EvDirect b)).
Proof. intros c. apply triple_log. intros p Hp. by eexists. Qed.
#[export] Instance fenced_paused b : Fenced (log (EvPaused b)).
Proof. intros c. apply triple_log. intros p Hp. by eexists. Qed.
#[export] Instance fenced_source b : Fenced (log (EvSource b)).
Proof. intros c. apply triple_log. intros p Hp. by eexists. Qed.

End Machine.

#[export] Typeclasses Opaque pbind pret praise block lift log on_ledger consult await clock_ms catch early ebind returned or_blocked
  record_end record_outcome record_judge_failure ends direct_active unless_direct unless_expired source_principal_values
  all_participants_allowed paused source_allowed preflight final_submission_veto revalidate_selected_knowledge remaining_capacity
  remaining_judge_capacity reaction_spacing_met image_actions decision_inputs hydrate_social_anchor_closures offer_memes charge
  judge_decide preflight_skipped stale decided_silence closes build_admission reserve release released superseded
  close_social_association settle_report skipped_as image_veto draft fresh_comment_state.

(** The steps of a program one by one, each branch of its own. *)
Ltac mute_step :=
  lazymatch goal with
  | |- Mute (pbind _ _) => apply mute_bind; [|intros]
  | |- Mute (catch _ _) => apply mute_catch
  | |- Mute (let _ := _ in _) => cbv zeta
  | |- Mute (match ?x with _ => _ end) => destruct x
  | |- Mute ((λ _, _) _) => cbv beta
  | |- Mute _ => apply _
  end.
Ltac solve_mute := intros; repeat mute_step.

Ltac fenced_step :=
  lazymatch goal with
  | |- Fenced _ (pbind _ _) => apply fenced_bind; [|intros]
  | |- Fenced _ (catch _ _) => apply fenced_catch
  | |- Fenced _ (let _ := _ in _) => cbv zeta
  | |- Fenced _ (match ?x with _ => _ end) => destruct x
  | |- Fenced _ ((λ _, _) _) => cbv beta
  | |- Fenced _ _ => apply _
  end.
Ltac solve_fenced := intros; repeat fenced_step.

Section Instances.
Context `{Sha256} (casefold : string → string) (env : runtime_env) (opportunity_id : string).

#[export] Instance mute_record_end o what reason : Mute (record_end env o what reason).
Proof. unfold record_end. solve_mute. Qed.
#[export] Instance mute_ends o what reason answer : Mute (ends env o what reason answer).
Proof. unfold ends. solve_mute. Qed.
#[export] Instance mute_preflight_skipped o reason : Mute (preflight_skipped env o reason).
Proof. unfold preflight_skipped. solve_mute. Qed.
#[export] Instance mute_stale o reason answer : Mute (stale env o reason answer).
Proof. unfold stale. solve_mute. Qed.
#[export] Instance mute_decided_silence o d : Mute (decided_silence env o d).
Proof. unfold decided_silence. solve_mute. Qed.
#[export] Instance mute_skipped_as o status reason : Mute (skipped_as env o status reason).
Proof. unfold skipped_as. solve_mute. Qed.
#[export] Instance mute_principals o : Mute (source_principal_values env o).
Proof. unfold source_principal_values. solve_mute. Qed.
#[export] Instance mute_participants o l : Mute (all_participants_allowed env o l).
Proof. induction l as [|[s p] l IH]; simpl; solve_mute. Qed.
#[export] Instance mute_revalidate o context : Mute (revalidate_selected_knowledge env o context).
Proof. unfold revalidate_selected_knowledge. solve_mute. Qed.
#[export] Instance mute_capacity o l now : Mute (remaining_capacity o l now).
Proof. unfold remaining_capacity. solve_mute. Qed.
#[export] Instance mute_judge_capacity o limit now : Mute (remaining_judge_capacity o limit now).
Proof. unfold remaining_judge_capacity. solve_mute. Qed.
#[export] Instance mute_spacing o s : Mute (reaction_spacing_met o s).
Proof. unfold reaction_spacing_met. solve_mute. Qed.
#[export] Instance mute_image_actions o s ml sl now : Mute (image_actions env o s ml sl now).
Proof. unfold image_actions. solve_mute. Qed.
#[export] Instance mute_decision_inputs o s : Mute (decision_inputs env o s).
Proof. unfold decision_inputs. solve_mute. Qed.
#[export] Instance mute_hydrate context : Mute (hydrate_social_anchor_closures context).
Proof. unfold hydrate_social_anchor_closures. solve_mute. Qed.
#[export] Instance mute_admission o s d e p i : Mute (build_admission env o s d e p i).
Proof. unfold build_admission. solve_mute. Qed.
#[export] Instance mute_close_association o d : Mute (close_social_association env o d).
Proof. unfold close_social_association. solve_mute. Qed.

End Instances.
