(* ===== verification/RuntimeProps.v ===== *)
(** * RuntimeProps

    What one evaluation of the participation runtime does outside, whatever its
    collaborators answer and whatever other tasks do to the ledger meanwhile: it follows the
    protocol of [RuntimeSpec]. *)

From Stdlib Require Import ZArith Lia Ascii.
From S2P Require Import Prelude Tables Json Models ThreadStore Router Scheduler Ledger LedgerDelivery Judge JudgeGuard Inputs Runtime RuntimeSpec.

Section Protocol.
Context `{Sha256} (casefold : string → string) (env : runtime_env) (first : string).
Notation triple := (triple first).
Notation Fenced := (Fenced first).

(** ** Rules for early returns *)

(** An early return leaves nothing open; otherwise [R] holds. *)
Definition fin {A} (R : A → phase → Prop) (r : dict + A) (p : phase) : Prop :=
  match r with inl _ => nothing_open p | inr a => R a p end.

Definition anything (p : phase) : Prop := True.

Lemma triple_ebind {A B} P (m : rprog (dict + A)) R (k : A → rprog (dict + B)) Q E :
  triple P m (fin R) E → (∀ a, triple (R a) (k a) (fin Q) E) → triple P (ebind m k) (fin Q) E.
Proof.
  intros Hm Hk. eapply triple_bind; [exact Hm|]. intros [d|a]; [|apply Hk]. apply triple_ret. by intros p.
Qed.

Lemma triple_early {A} P (m : rprog dict) (R : A → phase → Prop) E : triple P m (λ _, nothing_open) E → triple P (early m) (fin R) E.
Proof. intros Hm. eapply triple_bind; [exact Hm|]. intros d. apply triple_ret. by intros p. Qed.

Lemma triple_inr {A} P (a : A) R E : (∀ p, P p → R a p) → triple P (pret (inr a)) (fin R) E.
Proof. intros HR. by apply triple_ret. Qed.

Lemma triple_returned P m E : triple P m (fin (λ _, nothing_open)) E → triple P (returned m) (λ _, nothing_open) E.
Proof. intros Hm. eapply triple_bind; [exact Hm|]. intros [d|d]; by apply triple_ret. Qed.

Lemma triple_or_blocked {A} P (m : rprog A) stop R P' E :
  triple P m R P' → (∀ reason, triple P' (stop reason) (λ _, nothing_open) E) → (∀ p, P' p → E p) → triple P (or_blocked m stop) (fin R) E.
Proof.
  intros Hm Hs HE. eapply (triple_bind _ _ _ (λ r p, match r with inl _ => P' p | inr a => R a p end)).
  - by eapply triple_catch; [exact Hm|..].
  - intros [reason|a]; [apply triple_early, Hs|by apply triple_inr].
Qed.

Lemma or_blocked_mute {A} P (m : rprog A) stop (E : phase → Prop) :
  Mute m → (∀ reason, triple P (stop reason) (λ _, nothing_open) E) → (∀ p, P p → E p) → triple P (or_blocked m stop) (fin (λ _, P)) E.
Proof. intros Hm. apply triple_or_blocked. by apply mute_triple. Qed.

Lemma or_blocked_fenced {A} c (m : rprog A) stop (E : phase → Prop) :
  Fenced m → (∀ reason, triple (same c) (stop reason) (λ _, nothing_open) E) → (∀ p, same c p → E p) →
  triple (same c) (or_blocked m stop) (fin (λ _, same c)) E.
Proof. intros Hm. apply triple_or_blocked. apply Hm. Qed.

(** ** The fences *)

(** The phase, with the fences found open last. *)
Definition clear (n : nat) (c p : phase) : Prop := same c p ∧ ph_clear p = n.

Lemma direct_spec c o : triple (same c) (direct_active env o) (λ b, if b then same c else clear 1 c) (same c).
Proof.
  unfold direct_active. destruct (re_direct env) as [checker|].
  - eapply triple_bind; [apply mute_triple; solve_mute|]. intros r. cbv zeta.
    eapply (triple_bind _ _ _ (λ _, if match r with inl _ => true | inr b => b end then same c else clear 1 c)).
    + apply triple_log. intros p Hp. eexists. split; [done|]. by destruct (match r with inl _ => true | inr b => b end).
    + intros _. by apply triple_ret.
  - eapply (triple_bind _ _ _ (λ _, clear 1 c)); [|intros ?; by apply triple_ret].
    apply triple_log. intros p Hp. by eexists.
Qed.

#[export] Instance direct_fenced o : Fenced (direct_active env o).
Proof. intros c. eapply triple_weaken; [apply direct_spec|done| |done]. by intros [] p; [|intros [? _]]. Qed.

Lemma unless_direct_spec c o stop (E : phase → Prop) :
  triple (same c) stop (λ _, nothing_open) E → (∀ p, same c p → E p) → triple (same c) (unless_direct env o stop) (fin (λ _, clear 1 c)) E.
Proof.
  intros Hs HE. eapply triple_bind.
  - eapply triple_weaken; [apply direct_spec|done|by intros a p Hp; exact Hp|done].
  - intros [|]; [by apply triple_early|by apply triple_inr].
Qed.

(** The same for the code that goes on after it. *)
Lemma unless_direct_same c o stop (E : phase → Prop) :
  triple (same c) stop (λ _, nothing_open) E → (∀ p, same c p → E p) → triple (same c) (unless_direct env o stop) (fin (λ _, same c)) E.
Proof.
  intros Hs HE. eapply triple_weaken; [by apply unless_direct_spec|done| |done]. by intros [d|a] p; [|intros [? _]].
Qed.

Lemma unless_expired_spec P o snapshot stop (E : phase → Prop) :
  triple P stop (λ _, nothing_open) E → (∀ p, P p → E p) → triple P (unless_expired env o snapshot stop) (fin (λ _, P)) E.
Proof.
  intros Hs HE. unfold unless_expired. eapply triple_bind; [apply mute_step_triple; [solve_mute|exact HE]|]. intros now.
  eapply triple_bind; [apply mute_step_triple; [solve_mute|exact HE]|]. intros [|]; [by apply triple_inr|by apply triple_early].
Qed.

#[export] Instance paused_fenced o : Fenced (paused env o).
Proof. unfold paused. solve_fenced. Qed.
#[export] Instance source_allowed_fenced o : Fenced (source_allowed env o).
Proof. unfold source_allowed. solve_fenced. Qed.
#[export] Instance preflight_fenced o snapshot : Fenced (preflight env o snapshot).
Proof. unfold preflight. solve_fenced. Qed.
#[export] Instance fresh_fenced o snapshot context : Fenced (fresh_comment_state casefold env o snapshot context).
Proof. unfold fresh_comment_state. solve_fenced. Qed.
#[export] Instance veto_fenced o snapshot : Fenced (final_submission_veto env o snapshot).
Proof. unfold final_submission_veto. solve_fenced. Qed.

(** ** The slot *)

(** Between attempts, with the slot reserved. *)
Record holding (effect : string) (c : phase) : Prop := {
  hd_slot : ph_slot c = HeldSlot effect;
  hd_open : ph_open c = None;
}.

(** The slot is given back, from a held or handed-over slot. *)
Definition owns (effect : string) (c : phase) : Prop :=
  (ph_slot c = HeldSlot effect ∨ ph_slot c = HandedOver effect) ∧ ph_open c = None.

Lemma holding_owns effect c : holding effect c → owns effect c.
Proof. intros [? ?]. split; [by left|done]. Qed.
#[local] Hint Resolve holding_owns : core.

Lemma release_spec c o effect reason : owns effect c → triple (same c) (release env o effect reason) (λ _, nothing_open) anything.
Proof.
  intros [Hs Ho]. unfold release. eapply triple_bind; [apply mute_step_triple; [solve_mute|done]|]. intros now.
  eapply triple_bind; [apply mute_step_triple; [solve_mute|done]|]. intros ?. cbv beta. apply triple_log. intros p (Es & Eo & _).
  simpl. rewrite Es, Eo, Ho. destruct Hs as [Hslot|Hslot]; rewrite Hslot, str_eqb_refl; (eexists; split; [done|]);
    (split; [simpl; congruence|done]).
Qed.

Lemma released_spec c o recorded effect reason what why answer :
  owns effect c → triple (same c) (released env o recorded effect reason what why answer) (λ _, nothing_open) anything.
Proof.
  intros Hc. eapply triple_bind; [by apply release_spec|]. intros ?. cbv beta. apply mute_step_triple; [solve_mute|done].
Qed.

Lemma superseded_spec c o effect : owns effect c → triple (same c) (superseded env o effect) (λ _, nothing_open) anything.
Proof.
  intros Hc. eapply triple_bind; [by apply release_spec|]. intros ?. cbv beta. apply mute_step_triple; [solve_mute|done].
Qed.

(** A program without events that ends where nothing is open. *)
Lemma mute_settled {A} c (m : rprog A) : Mute m → nothing_open c → triple (same c) m (λ _, nothing_open) anything.
Proof.
  intros Hm [Ho Hs]. eapply triple_weaken; [by apply mute_triple|done| |done].
  intros a p (Es & Eo & _). split; [by rewrite Eo|]. intros e. rewrite Es. apply Hs.
Qed.

(** The phase with the slot in another state. *)
Definition with_slot (s : slot) (c : phase) : phase := c <| ph_slot := s |>.

Lemma reserve_spec c o effect limits :
  ph_slot c = Chosen → ph_open c = None →
  triple (same c) (reserve env o effect limits) (λ b, same (if b then with_slot (HeldSlot effect) c else c)) (same c).
Proof.
  intros Hs Ho. unfold reserve. eapply triple_bind; [apply mute_step_triple; [solve_mute|done]|]. intros now.
  eapply triple_bind; [apply mute_step_triple; [solve_mute|done]|]. intros granted.
  eapply (triple_bind _ _ _ (λ _, same (if granted then with_slot (HeldSlot effect) c else c))); [|intros ?; by apply triple_ret].
  apply triple_log. intros p (Es & Eo & Ep & Ed). simpl. rewrite Es, Hs, Eo, Ho. eexists. split; [done|].
  destruct granted; (split; [|split; [|split]]); simpl; congruence.
Qed.

Lemma hand_over_triple c n route effect :
  holding effect c → n = fences_of route →
  triple (clear n c) (log (EvHandOver route effect)) (λ _, same (with_slot (HandedOver effect) c)) anything.
Proof.
  intros [Hs Ho] ->. apply triple_log. intros p [(Es & Eo & Ep & Ed) Hn]. simpl. rewrite Es, Hs, Eo, Ho, Hn, str_eqb_refl, Nat.eqb_refl.
  eexists. split; [done|]. (split; [|split; [|split]]); simpl; congruence.
Qed.

Lemma handed_settled effect c : ph_open c = None → nothing_open (with_slot (HandedOver effect) c).
Proof. intros Ho. by split. Qed.
Lemma handed_owns effect c : ph_open c = None → owns effect (with_slot (HandedOver effect) c).
Proof. intros Ho. split; [by right|done]. Qed.
#[local] Hint Resolve handed_settled handed_owns : core.

Lemma settle_report_spec c o effect kind r :
  ph_open c = None →
  triple (same (with_slot (HandedOver effect) c)) (settle_report env o effect kind r) (fin (λ _, same (with_slot (HandedOver effect) c))) anything.
Proof.
  intros Ho. unfold settle_report. destruct (_ && _); [|destruct (str_in _ _)].
  - cbv zeta. eapply triple_bind; [apply mute_step_triple; [solve_mute|done]|]. intros now.
    eapply triple_bind; [apply mute_step_triple; [solve_mute|done]|]. intros ?. cbv beta. by apply triple_inr.
  - apply triple_early, released_spec. auto.
  - cbv zeta. apply triple_early, mute_settled; [solve_mute|auto].
Qed.

(** ** Reactions and images *)

(** A decision is carried out and nothing was reserved yet. *)
Record undecided (c : phase) : Prop := {
  un_slot : ph_slot c = Chosen;
  un_open : ph_open c = None;
}.

Lemma undecided_settled c : undecided c → nothing_open c.
Proof. intros [Hs Ho]. split; [done|]. by rewrite Hs. Qed.
Lemma with_slot_holding effect c : ph_open c = None → holding effect (with_slot (HeldSlot effect) c).
Proof. by split. Qed.
Lemma with_slot_owns effect c : ph_open c = None → owns effect (with_slot (HeldSlot effect) c).
Proof. intros Ho. by apply holding_owns, with_slot_holding. Qed.
#[local] Hint Resolve undecided_settled with_slot_holding with_slot_owns un_open : core.

(** The slot, or the early return that found none. *)
Lemma reserve_or c o effect limits {A} (refused : rprog dict) (k : rprog (dict + A)) (R : A → phase → Prop) :
  undecided c → Mute refused → triple (same (with_slot (HeldSlot effect) c)) k (fin R) anything →
  triple (same c) (let* granted := reserve env o effect limits in if negb granted then early refused else k) (fin R) anything.
Proof.
  intros Hu Hm Hk. destruct Hu as [Hs Ho]. eapply triple_bind; [eapply triple_weaken; [by apply reserve_spec|done|by intros b p Hx; exact Hx|done]|].
  intros [|]; [exact Hk|]. by apply triple_early, mute_settled; [|apply undecided_settled].
Qed.

(** What comes of a transport call. *)
Lemma after_hand_over c o effect kind (m : rprog transport_outcome) (unknown : string → rprog dict) {A} (k : rprog (dict + A))
    (R : A → phase → Prop) :
  ph_open c = None → Mute m → (∀ ty, Mute (unknown ty)) → triple (same (with_slot (HandedOver effect) c)) k (fin R) anything →
  triple (same (with_slot (HandedOver effect) c))
    (let* report := catch is_any m in
     let? r := match report with inl ty => early (unknown ty) | inr r => pret (inr r) end in
     do? settle_report env o effect kind r in k) (fin R) anything.
Proof.
  intros Ho Hm Hn Hk. eapply triple_bind; [apply mute_step_triple; [solve_mute|done]|]. intros report.
  eapply (triple_ebind _ _ (λ _, same (with_slot (HandedOver effect) c))).
  { destruct report as [ty|r]; [apply triple_early, mute_settled; [apply Hn|auto]|by apply triple_inr]. }
  intros r. eapply triple_ebind; [by apply settle_report_spec|]. intros ?. exact Hk.
Qed.

Lemma run_reaction_spec c o d inputs context :
  undecided c → triple (same c) (run_reaction env o d inputs context) (λ _, nothing_open) anything.
Proof.
  intros Hu. pose proof (un_open _ Hu) as Ho. unfold run_reaction.
  destruct (re_reactor env) as [reactor|]; [|apply mute_settled; [solve_mute|auto]].
  destruct (nonempty (pn_target_message_id d)) as [target|]; [|apply mute_settled; [solve_mute|auto]].
  destruct (nonempty (pn_emoji d)) as [emoji|]; [|apply mute_settled; [solve_mute|auto]].
  apply triple_returned. cbv zeta.
  eapply triple_ebind; [apply or_blocked_mute; [solve_mute| |done]; intros; apply mute_settled; [solve_mute|auto]|]. intros [admission hash].
  eapply triple_bind; [apply mute_step_triple; [solve_mute|done]|]. intros limits. cbv beta.
  apply reserve_or; [done|solve_mute|]. set (e := effect_of o "reaction"). set (h := with_slot (HeldSlot e) c).
  assert (∀ reason, triple (same h) (released env o o e reason "stale_discarded" reason (status_reason "reaction_skipped" reason))
                      (λ _, nothing_open) anything) as Hgone by (intros; apply released_spec; subst h; auto).
  assert (triple (same h) (superseded env o e) (λ _, nothing_open) anything) as Hsup by (apply superseded_spec; subst h; auto).
  eapply triple_ebind; [by apply unless_direct_same|]. intros ?. cbv beta.
  eapply triple_ebind; [by apply or_blocked_mute; [solve_mute|intros; apply Hgone|]|]. intros [changed context']. cbv beta.
  destruct changed; [by apply triple_early|].
  eapply triple_ebind; [by apply unless_expired_spec|]. intros ?. cbv beta.
  eapply triple_ebind; [by apply unless_direct_spec|]. intros ?. cbv beta.
  eapply triple_bind; [by apply hand_over_triple; [subst h; auto|]|]. intros ?. cbv beta.
  apply (after_hand_over h); [done|solve_mute|solve_mute|].
  eapply triple_bind; [apply mute_step_triple; [solve_mute|done]|]. intros ?. cbv beta.
  apply triple_early, mute_settled; [solve_mute|auto].
Qed.

(** A veto on an image gives its slot back. *)
Lemma unless_vetoed_spec c o inputs context effect kind :
  owns effect c → triple (same c) (unless_vetoed env o inputs context effect kind) (fin (λ _, clear 1 c)) anything.
Proof.
  intros Hc. unfold unless_vetoed.
  eapply (triple_bind _ _ _ (λ r p, if is_none r.1 then clear 1 c p else same c p)).
  - unfold image_veto. eapply triple_bind; [eapply triple_weaken; [apply direct_spec|done|by intros a p Hx; exact Hx|done]|].
    intros [|]; [by apply triple_ret|]. eapply triple_bind; [apply mute_step_triple; [solve_mute|done]|]. intros r. cbv beta.
    destruct r as [reason|[[|] context']]; [apply triple_ret; by intros p [? _]..|].
    eapply triple_bind; [apply mute_step_triple; [solve_mute|done]|]. intros now. cbv beta.
    eapply triple_bind; [apply mute_step_triple; [solve_mute|done]|]. intros within. cbv beta.
    apply triple_ret. destruct within; [done|by intros p [? _]].
  - intros [[reason|] context']; cbn [fst is_none]; [|by apply triple_inr].
    apply triple_early. destruct (reason =?s "direct_superseded"); [by apply superseded_spec|by apply released_spec].
Qed.

Lemma clear_same n c {A} (m : rprog A) Q E : triple (same c) m Q E → triple (clear n c) m Q E.
Proof. intros Hm. eapply triple_weaken; [exact Hm| |done|done]. by intros p [? _]. Qed.

Lemma run_image_spec c o d inputs context :
  undecided c → triple (same c) (run_image env o d inputs context) (λ _, nothing_open) anything.
Proof.
  intros Hu. pose proof (un_open _ Hu) as Ho. unfold run_image. cbv zeta. set (kind := pn_action d).
  destruct (re_memes env) as [memes|]; [|apply mute_settled; [solve_mute|auto]].
  destruct (re_media_sender env) as [sender|]; [|apply mute_settled; [solve_mute|auto]].
  destruct (pn_meme d) as [plan|]; [|apply mute_settled; [solve_mute|auto]].
  destruct (nonempty (pn_target_message_id d)) as [target|]; [|apply mute_settled; [solve_mute|auto]].
  apply triple_returned. eapply triple_bind; [apply mute_step_triple; [solve_mute|done]|]. intros limits. cbv beta.
  destruct (is_none (head limits)); [apply triple_early, mute_settled; [solve_mute|auto]|].
  apply reserve_or; [done|solve_mute|]. set (e := effect_of o kind). set (h := with_slot (HeldSlot e) c).
  assert (owns e h) as Hown by (subst h; auto).
  assert (∀ reason what, triple (same h) (released env o o e reason what reason (status_reason what reason)) (λ _, nothing_open) anything)
    as Hgone by (intros; by apply released_spec).
  eapply triple_ebind; [by apply unless_vetoed_spec|]. intros context'. cbv beta. apply clear_same.
  eapply (triple_bind _ _ _ (λ _, same h)).
  { intros w p Hw Hp.
    destruct (mute_step_triple first (catch is_exception (await env (λ n, pm_render memes n plan (op_channel o) (op_chat_id o) (kind =?s "sticker"))))
      (same h) (same h) ltac:(solve_mute) (λ _, id) w p Hw Hp) as (p1 & H1 & HQ).
    destruct (catch _ _ w) as [[a|x] w1]; [by exists p1|]. destruct (is_history_paused x); [|by exists p1].
    simpl in H1. destruct (release_spec h o e "history_paused" Hown w1 p1 H1) as (p2 & H2 & _); [done|].
    exists p2. unfold pbind. destruct (release env o e "history_paused" w1) as [[b|y] w2]; by split. }
  intros path. eapply (triple_ebind _ _ (λ _, same h)).
  { destruct path as [ty|q]; [by apply triple_early|by apply triple_inr]. }
  intros q. eapply triple_ebind; [by apply or_blocked_mute; [solve_mute|intros; apply Hgone|]|]. intros [admission hash]. cbv beta.
  eapply triple_ebind; [by apply unless_vetoed_spec|]. intros ?. cbv beta.
  eapply triple_bind; [by apply hand_over_triple; [subst h; auto|]|]. intros ?. cbv beta.
  apply (after_hand_over h); [done|solve_mute|solve_mute|]. apply triple_early, mute_settled; [solve_mute|auto].
Qed.

(** ** Stages *)

(** The slot, the open attempt, a bound on the drafts and the attempts paid so far. *)
Definition stage (s : slot) (o : option (string * judging)) (drafts paid : nat) (p : phase) : Prop :=
  ph_slot p = s ∧ ph_open p = o ∧ (ph_drafts p ≤ drafts)%nat ∧ ph_paid p = paid.

Lemma stage_same s o k n c p : stage s o k n c → same c p → stage s o k n p.
Proof. intros (Hs & Ho & Hd & Hp) (Es & Eo & Ep & Ed). unfold stage. rewrite Es, Eo, Ep, Ed. done. Qed.

Lemma stage_more s o k k' n p : stage s o k n p → (k ≤ k')%nat → stage s o k' n p.
Proof. intros (? & ? & ? & ?) ?. unfold stage. split; [done|]. split; [done|]. split; [lia|done]. Qed.

Lemma triple_stage {A} s o k n (m : rprog A) Q E :
  (∀ c, stage s o k n c → triple (same c) m Q E) → triple (stage s o k n) m Q E.
Proof. intros Hm w p Hw Hp. by apply (Hm p Hp w p Hw). Qed.

Lemma stage_fenced {A} s o k n (m : rprog A) : Fenced m → triple (stage s o k n) m (λ _, stage s o k n) (stage s o k n).
Proof.
  intros Hm. apply triple_stage. intros c Hc. eapply triple_weaken; [apply Hm|done|..].
  - intros a p. by apply stage_same.
  - intros p. by apply stage_same.
Qed.

Lemma stage_step {A} s o k n (m : rprog A) (E : phase → Prop) :
  Fenced m → (∀ p, stage s o k n p → E p) → triple (stage s o k n) m (λ _, stage s o k n) E.
Proof. intros Hm HE. eapply triple_weaken; [by apply stage_fenced|done|by intros a p Hx; exact Hx|exact HE]. Qed.

Lemma stage_or_blocked {A} s o k n (m : rprog A) stop :
  Fenced m → (∀ reason, triple (stage s o k n) (stop reason) (λ _, nothing_open) anything) →
  triple (stage s o k n) (or_blocked m stop) (fin (λ _, stage s o k n)) anything.
Proof. intros Hm Hs. eapply triple_or_blocked; [by apply stage_fenced|exact Hs|done]. Qed.

Lemma stage_unless_direct s o k n op stop :
  triple (stage s o k n) stop (λ _, nothing_open) anything →
  triple (stage s o k n) (unless_direct env op stop) (fin (λ _, stage s o k n)) anything.
Proof.
  intros Hs. eapply triple_bind; [apply stage_step; [apply direct_fenced|done]|]. intros [|]; [by apply triple_early|by apply triple_inr].
Qed.

Lemma held_owns e k n c : stage (HeldSlot e) None k n c → owns e c.
Proof. intros (? & ? & _). split; [by left|done]. Qed.
#[local] Hint Resolve held_owns : core.

Lemma stage_release e k n o reason (answer : dict) :
  triple (stage (HeldSlot e) None k n) (do* release env o e reason in pret answer) (λ _, nothing_open) anything.
Proof.
  apply triple_stage. intros c Hc. eapply triple_bind; [apply release_spec; eauto|]. intros ?. cbv beta. apply mute_step_triple; [solve_mute|done].
Qed.

Lemma stage_released e k n o recorded reason what why answer :
  triple (stage (HeldSlot e) None k n) (released env o recorded e reason what why answer) (λ _, nothing_open) anything.
Proof. apply triple_stage. intros c Hc. apply released_spec. eauto. Qed.

Lemma stage_superseded e k n o : triple (stage (HeldSlot e) None k n) (superseded env o e) (λ _, nothing_open) anything.
Proof. apply stage_release. Qed.

Lemma stage_settled {A} s k n (m : rprog A) :
  Mute m → (∀ e, s ≠ HeldSlot e) → triple (stage s None k n) m (λ _, nothing_open) anything.
Proof. intros Hm Hn. apply triple_stage. intros c (Hs & Ho & _). apply mute_settled; [done|]. split; [done|]. by rewrite Hs. Qed.
Lemma stage_mute_settled {A} k n (m : rprog A) : Mute m → triple (stage NoSlot None k n) m (λ _, nothing_open) anything.
Proof. intros Hm. by apply stage_settled. Qed.

(** ** Attempts *)

Lemma charge_spec s k n id args now :
  id = attempt_name first n → (n < MAX_PAID)%nat →
  triple (stage s None k n) (charge id args now)
    (λ b, if b then stage s (Some (id, Unasked)) k (S n) else stage s None k n) (stage s None k n).
Proof.
  intros -> Hn. unfold charge. eapply triple_bind; [by apply mute_step_triple; [solve_mute|]|]. intros charged. cbv beta.
  eapply (triple_bind _ _ _ (λ _ p, (if charged then stage s (Some (attempt_name first n, Unasked)) k (S n) else stage s None k n) p)).
  - apply triple_log. intros p (Hs & Ho & Hd & Hp). simpl. rewrite Hp, Ho, str_eqb_refl. simpl.
    destruct charged; simpl; [|by eexists]. assert ((n <? MAX_PAID)%nat = true) as -> by by apply Nat.ltb_lt.
    eexists. split; [done|]. split; [done|]. split; [done|]. split; done.
  - intros ?. cbv beta. apply triple_ret. by destruct charged.
Qed.

Lemma judge_decide_spec s k n id judge o context :
  triple (stage s (Some (id, Unasked)) k n) (judge_decide env judge id o context) (λ _, stage s (Some (id, Asked)) k n) anything.
Proof.
  unfold judge_decide. eapply (triple_bind _ _ _ (λ _, stage s (Some (id, Asked)) k n)).
  - apply triple_log. intros p (Hs & Ho & Hd & Hp). simpl. rewrite Ho, str_eqb_refl. by eexists.
  - intros ?. cbv beta. apply mute_step_triple; [solve_mute|done].
Qed.

Lemma outcome_spec s k n id b outcome detail :
  triple (stage s (Some (id, b)) k n) (record_outcome id outcome detail) (λ _, stage s None k n) anything.
Proof.
  unfold record_outcome. eapply triple_bind; [apply mute_step_triple; [solve_mute|done]|]. intros ?. cbv beta.
  apply triple_log. intros p (Hs & Ho & Hd & Hp). simpl. rewrite Ho, str_eqb_refl. by eexists.
Qed.

Lemma closes_spec s k n id b outcome (m : rprog dict) :
  triple (stage s None k n) m (λ _, nothing_open) anything → triple (stage s (Some (id, b)) k n) (closes id outcome m) (λ _, nothing_open) anything.
Proof. intros Hm. eapply triple_bind; [apply outcome_spec|]. intros ?. exact Hm. Qed.

Lemma failure_spec s k n id b printed (m : rprog dict) :
  triple (stage s None k n) m (λ _, nothing_open) anything →
  triple (stage s (Some (id, b)) k n) (do* record_judge_failure id printed in m) (λ _, nothing_open) anything.
Proof.
  intros Hm. unfold record_judge_failure. destruct (failure_parts printed) as [reason detail].
  eapply triple_bind; [apply outcome_spec|]. intros ?. exact Hm.
Qed.

(** Starting the shadow, or not, changes neither the slot nor the counts. *)
Lemma shadow_spec {A} s k id o inputs base live (m : rprog A) Q :
  (∀ b, triple (stage s (Some (id, b)) k 1) m Q anything) →
  triple (stage s (Some (id, Asked)) k 1) (do* start_group_notes_shadow o inputs base live in m) Q anything.
Proof.
  intros Hk. unfold start_group_notes_shadow. destruct base as [b|].
  - eapply (triple_bind _ _ _ (λ _, stage s (Some (id, Compared)) k 1)); [|intros ?; apply Hk].
    apply triple_log. intros p (Hs & Ho & Hd & Hp). simpl. rewrite Ho, Hp. by eexists.
  - eapply triple_bind; [by apply mute_step_triple; [solve_mute|]|]. intros ?. apply Hk.
Qed.

(** ** The paid decision *)

Lemma prepare_decision_spec o :
  triple (stage NoSlot None 0 0) (prepare_decision casefold env o) (fin (λ _, stage NoSlot None 0 0)) anything.
Proof.
  unfold prepare_decision.
  assert (∀ m : rprog dict, Mute m → triple (stage NoSlot None 0 0) m (λ _, nothing_open) anything) as Hend by (intros; by apply stage_mute_settled).
  eapply triple_ebind; [apply stage_unless_direct, Hend, _|]. intros ?. cbv beta.
  eapply triple_bind; [apply mute_step_triple; [solve_mute|done]|]. intros r. cbv beta.
  eapply (triple_ebind _ _ (λ _, stage NoSlot None 0 0)).
  { destruct r as [|[reason|snapshot]]; [apply triple_early, Hend, _..|by apply triple_inr]. }
  intros snapshot. eapply triple_ebind; [apply stage_unless_direct, Hend, _|]. intros ?. cbv beta.
  eapply triple_ebind; [apply stage_or_blocked; [apply _|intros; apply Hend, _]|]. intros ?. cbv beta.
  eapply (triple_ebind _ _ (λ _, stage NoSlot None 0 0)).
  { destruct (re_judge env); [by apply triple_inr|apply triple_early, Hend, _]. }
  intros ?. cbv beta. eapply triple_ebind; [apply stage_or_blocked; [apply fenced_mute; solve_mute|intros; apply Hend, _]|]. intros inputs. cbv beta.
  eapply triple_ebind; [apply stage_unless_direct, Hend, _|]. intros ?. cbv beta.
  eapply triple_bind; [apply mute_step_triple; [solve_mute|done]|]. intros built. cbv beta.
  eapply (triple_ebind _ _ (λ _, stage NoSlot None 0 0)).
  { destruct built; [apply triple_early, Hend, _|by apply triple_inr]. }
  intros context. eapply triple_bind; [apply mute_step_triple; [solve_mute|done]|]. intros context1. cbv beta.
  eapply triple_bind; [apply mute_step_triple; [solve_mute|done]|]. intros [inputs1 context2].
  eapply triple_bind; [apply mute_step_triple; [|done]|].
  { unfold offer_memes. destruct (existsb _ _); [|solve_mute]. apply mute_bind; [by intros w|solve_mute]. }
  intros [inputs2 context3]. destruct (negb _); [apply triple_early, Hend, _|].
  eapply triple_ebind; [apply stage_unless_direct, Hend, _|]. intros ?. cbv beta.
  eapply triple_ebind; [by apply unless_expired_spec; [apply Hend, _|]|]. intros ?. by apply triple_inr.
Qed.

Lemma judged_spec o snapshot inputs context id judge :
  triple (stage NoSlot (Some (id, Unasked)) 0 1) (judged casefold env o snapshot inputs context id judge)
    (fin (λ _, stage NoSlot None 0 1)) anything.
Proof.
  unfold judged. cbv zeta.
  assert (∀ b outcome (m : rprog dict), Mute m →
    triple (stage NoSlot (Some (id, b)) 0 1) (closes id outcome m) (λ _, nothing_open) anything) as Hend
    by (intros; by apply closes_spec, stage_mute_settled).
  assert (∀ printed live base (m : rprog dict), Mute m → triple (stage NoSlot (Some (id, Asked)) 0 1)
     (do* start_group_notes_shadow o inputs base live in do* record_judge_failure id printed in m) (λ _, nothing_open) anything) as Hfail
    by (intros; apply shadow_spec; intros b; by apply failure_spec, stage_mute_settled).
  eapply triple_ebind; [apply stage_unless_direct, Hend, _|]. intros ?. cbv beta.
  eapply triple_ebind; [by apply unless_expired_spec; [apply Hend, _|]|]. intros ?. cbv beta.
  eapply triple_ebind; [apply stage_or_blocked; [apply _|intros; apply Hend, _]|]. intros [changed context1].
  eapply triple_ebind; [by apply unless_expired_spec; [apply Hend, _|]|]. intros ?. cbv beta.
  eapply triple_ebind; [apply stage_unless_direct, Hend, _|]. intros ?. cbv beta.
  eapply triple_bind; [apply judge_decide_spec|]. intros [r context2].
  eapply triple_bind; [apply mute_step_triple; [solve_mute|done]|]. intros answer. cbv beta.
  eapply (triple_ebind _ _ (λ _, stage NoSlot (Some (id, Asked)) 0 1)).
  { destruct answer as [|[printed|d]]; [|apply triple_early, Hfail, _|by apply triple_inr].
    apply triple_early, shadow_spec. intros b. apply Hend, _. }
  intros d. eapply triple_ebind; [apply stage_unless_direct, Hend, _|]. intros ?. cbv beta.
  eapply triple_bind; [apply mute_step_triple; [solve_mute|done]|]. intros v. cbv beta.
  eapply (triple_ebind _ _ (λ _, stage NoSlot (Some (id, Asked)) 0 1)).
  { destruct v; [apply triple_early, Hfail, _|by apply triple_inr]. }
  intros ?. apply shadow_spec. intros b. eapply triple_bind; [apply outcome_spec|]. intros ?. by apply triple_inr.
Qed.

Lemma evaluate_spec o :
  first = op_id o → triple (stage NoSlot None 0 0) (evaluate_opportunity casefold env o) (fin (λ _, stage NoSlot None 0 1)) anything.
Proof.
  intros Hf. unfold evaluate_opportunity. eapply triple_ebind; [apply prepare_decision_spec|]. intros [[snapshot inputs] context].
  assert (∀ n (m : rprog dict), Mute m → triple (stage NoSlot None 0 n) m (λ _, nothing_open) anything) as Hend
    by (intros; by apply stage_mute_settled).
  destruct (re_judge env) as [judge|]; cbv zeta; [|apply triple_ret; by intros p (Hs & Ho & _); split; [|rewrite Hs]].
  eapply (triple_ebind _ _ (λ b : bool, if b then stage NoSlot (Some (op_id o +:+ ":0", Unasked)) 0 1 else stage NoSlot None 0 0)).
  { eapply triple_or_blocked; [|intros; apply Hend, _|done].
    eapply triple_bind; [by apply mute_step_triple; [solve_mute|intros p Hx; exact Hx]|]. intros now. cbv beta.
    do 3 (eapply triple_bind; [by apply mute_step_triple; [solve_mute|]|]; intros ?; cbv beta).
    apply charge_spec; [by rewrite Hf|unfold MAX_PAID; lia]. }
  intros [|]; cbn [negb]; [|apply triple_early, Hend, _].
  eapply triple_ebind; [apply judged_spec|]. intros [d context'].
  destruct (lane_of snapshot o =?s "shadow"); [apply triple_early, Hend, _|].
  destruct (pn_action d =?s "silence"); [apply triple_early, Hend, _|by apply triple_inr].
Qed.

(** ** Comments *)

Lemma paused_spec c o : triple (clear 1 c) (paused env o) (λ r, if is_none r then clear 2 c else same c) (same c).
Proof.
  unfold paused. eapply triple_bind; [apply mute_step_triple; [solve_mute|by intros p [? _]]|]. intros pause. cbv beta.
  eapply (triple_bind _ _ _ (λ _, if is_none (nonempty pause) then clear 2 c else same c)); [|intros ?; by apply triple_ret].
  apply triple_log. intros p [Hp Hn]. simpl. rewrite Hn. eexists. split; [done|].
  destruct (nonempty pause); simpl; [by apply same_clear|]. split; [by apply same_clear|done].
Qed.

Lemma source_spec c o : triple (clear 2 c) (source_allowed env o) (λ b, if b then clear 3 c else same c) (same c).
Proof.
  unfold source_allowed. eapply triple_bind; [apply mute_step_triple; [solve_mute|by intros p [? _]]|]. intros allowed. cbv beta.
  eapply (triple_bind _ _ _ (λ _, if allowed then clear 3 c else same c)); [|intros ?; by apply triple_ret].
  apply triple_log. intros p [Hp Hn]. simpl. rewrite Hn. eexists. split; [done|].
  destruct allowed; simpl; [|by apply same_clear]. split; [by apply same_clear|done].
Qed.

Lemma veto_spec c o snapshot :
  triple (same c) (final_submission_veto env o snapshot) (λ r, if is_none r then clear 3 c else same c) anything.
Proof.
  unfold final_submission_veto.
  eapply triple_bind; [by eapply triple_weaken; [apply direct_spec| |intros a p Hx; exact Hx|]|]. intros [|]; [by apply triple_ret|].
  eapply (triple_bind _ _ _ (λ r, match r with inr None => clear 2 c | _ => same c end)).
  { by eapply triple_catch; [apply paused_spec|intros [a|] p|..]. }
  intros [ty|[reason|]]; [by apply triple_ret..|].
  eapply (triple_bind _ _ _ (λ r, match r with inr true => clear 3 c | _ => same c end)).
  { by eapply triple_catch; [apply source_spec|intros [|] p|..]. }
  intros [ty|[|]]; [by apply triple_ret| |by apply triple_ret].
  destruct (epoch_of snapshot o) as [epoch|e].
  - destruct (negb _); [by apply triple_ret; intros p [? _]|]. destruct (lane_of snapshot o =?s "shadow"); apply triple_ret; [by intros p [? _]|done].
  - destruct e; first [by apply triple_raise|by apply triple_ret; intros p [? _]].
Qed.

(** Going on with a decision: for the first time, or again with the slot held. *)
Lemma chosen_spec k n o d inputs context :
  triple (stage NoSlot None k (S n)) (log (EvActsOn o d inputs context)) (λ _, stage Chosen None k (S n)) anything.
Proof. apply triple_log. intros p (Hs & Ho & Hd & Hp). simpl. rewrite Hs, Ho, Hp. by eexists. Qed.
Lemma chosen_again e k n o d inputs context :
  triple (stage (HeldSlot e) None k n) (log (EvActsOn o d inputs context)) (λ _, stage (HeldSlot e) None k n) anything.
Proof. apply triple_log. intros p (Hs & Ho & Hd & Hp). simpl. rewrite Hs, Ho. by eexists. Qed.

(** The text goes out at most once, with all fences found open, or the slot is given back. *)
Lemma submit_spec c s o snapshot d text context effect index deadline :
  holding effect c →
  triple (same c) (submit_comment env s o snapshot d text context effect index deadline) (λ _, nothing_open) anything.
Proof.
  intros Hc. pose proof (hd_open _ _ Hc) as Ho. unfold submit_comment. apply triple_returned. cbv zeta.
  assert (∀ why what, triple (same c) (released env o o effect why what why (status_reason "comment_skipped" why)) (λ _, nothing_open) anything)
    as Hgone by (intros; apply released_spec; auto).
  eapply triple_ebind; [by apply unless_expired_spec|]. intros ?. cbv beta.
  eapply triple_ebind; [by apply or_blocked_mute; [solve_mute|intros; apply Hgone|]|]. intros [changed context1]. cbv beta.
  destruct changed; [by apply triple_early|].
  eapply triple_ebind; [by apply unless_expired_spec|]. intros ?. cbv beta.
  eapply triple_bind; [apply mute_step_triple; [solve_mute|done]|]. intros asks. cbv beta.
  eapply triple_bind; [apply mute_step_triple; [solve_mute|done]|]. intros admission_snapshot. cbv beta.
  eapply triple_ebind; [by apply or_blocked_mute; [solve_mute|intros; apply Hgone|]|]. intros [admission hash]. cbv beta.
  eapply triple_bind; [apply veto_spec|]. intros veto. cbv beta.
  eapply (triple_ebind _ _ (λ _, clear 3 c)).
  { destruct veto as [reason|]; [|by apply triple_inr]. apply triple_early. destruct (reason =?s "direct_request"); [apply superseded_spec; auto|apply Hgone]. }
  intros ?. cbv beta. destruct (asks && _).
  - eapply triple_bind; [apply mute_step_triple; [solve_mute|done]|]. intros evidence. cbv beta.
    destruct (_ && _); [by apply triple_early, clear_same|]. destruct (sb_queue_approval s) as [queue|]; [|by apply triple_early, clear_same].
    eapply triple_bind; [by apply hand_over_triple|]. intros ?. cbv beta.
    eapply triple_bind; [apply mute_step_triple; [solve_mute|done]|]. intros status. cbv beta.
    destruct (status =?s _); apply triple_early; [apply mute_settled; [solve_mute|auto]|apply released_spec; auto].
  - eapply triple_bind; [by apply hand_over_triple|]. intros ?. cbv beta.
    eapply triple_bind; [apply mute_step_triple; [solve_mute|done]|]. intros outcome. cbv beta.
    eapply triple_bind; [apply mute_step_triple; [destruct (str_in _ _); solve_mute|done]|]. intros ?. cbv beta.
    apply triple_early, mute_settled; [solve_mute|auto].
Qed.

(** ** Reconsideration *)

Lemma triple_pure {A} (φ : Prop) P (m : rprog A) Q E : (φ → triple P m Q E) → triple (λ p, φ ∧ P p) m Q E.
Proof. intros Hm w p Hw [Hφ Hp]. by apply (Hm Hφ w p). Qed.

Lemma draft_spec e k n s o d context :
  (k < MAX_DRAFTS)%nat →
  triple (stage (HeldSlot e) None k n) (draft env s o d context) (λ _, stage (HeldSlot e) None (S k) n) (stage (HeldSlot e) None (S k) n).
Proof.
  intros Hk. unfold draft. destruct (is_trend_source _).
  - destruct (str_true _); [apply triple_ret|apply triple_raise]; intros p Hp; by apply (stage_more _ _ k); [|lia].
  - eapply (triple_bind _ _ _ (λ _, stage (HeldSlot e) None (S k) n)).
    + apply triple_log. intros p (Hs & Ho & Hd & Hp). simpl. rewrite Hs, Ho.
      assert ((ph_drafts p <? MAX_DRAFTS)%nat = true) as -> by (apply Nat.ltb_lt; lia). eexists. split; [done|].
      split; [done|]. split; [done|]. split; [simpl; lia|done].
    + intros ?. cbv beta. by apply mute_step_triple; [solve_mute|].
Qed.

(** The drafts a reconsideration may have asked for. *)
Definition drafted (r : reconsideration) : nat := if rc_generated r then 2 else 1.

(** What the steps between the charge and the new text keep. *)
Definition round_kept (r r' : reconsideration) : Prop :=
  rc_generated r' = rc_generated r ∧ rc_index r' = rc_index r ∧ rc_max r' ≤ rc_max r.

Lemma kept_refl r : round_kept r r.
Proof. by split. Qed.
Lemma kept_trans r1 r2 r3 : round_kept r1 r2 → round_kept r2 r3 → round_kept r1 r3.
Proof. intros (? & ? & ?) (? & ? & ?). split; [congruence|]. split; [congruence|lia]. Qed.
Lemma kept_context r context : round_kept r (with_context r context).
Proof. by split. Qed.
Lemma kept_drop r : round_kept r (drop_stale_text r).
Proof. unfold drop_stale_text. destruct (rc_text r), (rc_token r); try apply kept_refl. case_bool_decide; [apply kept_refl|by split]. Qed.
Lemma kept_capped r used used' : round_kept r (r <| rc_knowledge_used := used |> <| rc_max ::= capped used' |>).
Proof. split; [done|]. split; [done|]. destruct used'; simpl; [apply Z.le_min_l|done]. Qed.
Lemma kept_stale r context : round_kept r (drop_stale_text (with_context r context)).
Proof. eapply kept_trans; [apply kept_context|apply kept_drop]. Qed.

Section Round.
Context (a : reconsider_args) (Hfirst : first = op_id (ra_opportunity a)).
Notation effect := (ra_effect_id a).
Notation held := (stage (HeldSlot effect) None).

Lemma held_ends k n o recorded reason what why answer :
  triple (held k n) (released env o recorded effect reason what why answer) (λ _, nothing_open) anything.
Proof. apply stage_released. Qed.

Lemma quiet_spec k n reason answer : triple (held k n) (quiet_release env a reason answer) (λ _, nothing_open) anything.
Proof. apply stage_release. Qed.

Lemma recharge_spec r k n :
  (n < MAX_PAID)%nat →
  triple (held k n) (recharge env a r (attempt_name first n))
    (fin (λ _, stage (HeldSlot effect) (Some (attempt_name first n, Unasked)) k (S n))) anything.
Proof.
  intros Hn. unfold recharge, drop_blocked. cbv zeta.
  eapply (triple_ebind _ _ (λ b : bool, if b then stage (HeldSlot effect) (Some (attempt_name first n, Unasked)) k (S n) else held k n)).
  { eapply triple_or_blocked; [|intros; apply held_ends|done].
    eapply triple_bind; [by apply mute_step_triple; [solve_mute|intros p Hx; exact Hx]|]. intros now. cbv beta.
    do 3 (eapply triple_bind; [by apply mute_step_triple; [solve_mute|]|]; intros ?; cbv beta). by apply charge_spec. }
  intros [|]; [by apply triple_inr|apply triple_early, held_ends].
Qed.

Lemma rejudge_spec r k n id :
  triple (stage (HeldSlot effect) (Some (id, Unasked)) k n) (rejudge casefold env a r id) (fin (λ dr p, round_kept r dr.2 ∧ held k n p)) anything.
Proof.
  unfold rejudge, drop_changed. cbv zeta.
  assert (∀ b outcome (m : rprog dict), triple (held k n) m (λ _, nothing_open) anything →
    triple (stage (HeldSlot effect) (Some (id, b)) k n) (closes id outcome m) (λ _, nothing_open) anything) as Hend
    by (intros; by apply closes_spec).
  assert (∀ printed (m : rprog dict), triple (held k n) m (λ _, nothing_open) anything →
    triple (stage (HeldSlot effect) (Some (id, Asked)) k n) (do* record_judge_failure id printed in m) (λ _, nothing_open) anything) as Hfail
    by (intros; by apply failure_spec).
  eapply triple_ebind; [apply stage_unless_direct, Hend, stage_superseded|]. intros ?. cbv beta.
  eapply triple_ebind; [by apply unless_expired_spec; [apply Hend, quiet_spec|]|]. intros ?. cbv beta.
  eapply triple_ebind; [apply stage_or_blocked; [apply _|intros; apply Hend, quiet_spec]|]. intros [changed context].
  eapply triple_ebind; [apply stage_unless_direct, Hend, stage_superseded|]. intros ?. cbv beta.
  eapply triple_ebind; [by apply unless_expired_spec; [apply Hend, quiet_spec|]|]. intros ?. cbv beta.
  eapply triple_bind; [apply judge_decide_spec|]. intros [answer context'].
  eapply triple_bind; [apply mute_step_triple; [solve_mute|done]|]. intros v. cbv beta.
  eapply (triple_ebind _ _ (λ _, stage (HeldSlot effect) (Some (id, Asked)) k n)).
  { destruct v as [|[printed|d]]; [apply triple_early, Hend, held_ends|apply triple_early, Hfail, held_ends|by apply triple_inr]. }
  intros d. eapply triple_ebind; [apply stage_unless_direct, Hend, stage_superseded|]. intros ?. cbv beta.
  eapply triple_bind; [apply mute_step_triple; [solve_mute|done]|]. intros checked. cbv beta.
  eapply (triple_ebind _ _ (λ _, stage (HeldSlot effect) (Some (id, Asked)) k n)).
  { destruct checked; [apply triple_early, Hfail, held_ends|by apply triple_inr]. }
  intros ?. eapply triple_bind; [apply outcome_spec|]. intros ?. cbv beta.
  destruct (pn_action d =?s "silence"); [apply triple_early, held_ends|].
  destruct (negb (pn_action d =?s "comment")); [apply triple_early, held_ends|].
  destruct (negb _); [apply triple_early, held_ends|]. eapply triple_bind; [apply chosen_again|]. intros ?. cbv beta.
  apply triple_inr. intros p Hp. split; [|exact Hp].
  eapply kept_trans; [apply kept_stale|]. eapply kept_trans; [apply kept_context|]. apply kept_capped.
Qed.

Lemma redraft_spec r d noted n :
  triple (held 1 n) (redraft env a r d noted)
    (fin (λ r' p, (rc_generated r' = true ∧ rc_index r' = rc_index r ∧ rc_max r' = rc_max r) ∧ held 2 n p)) anything.
Proof.
  unfold redraft. cbv zeta.
  assert (∀ reason answer, triple (held 2 n) (if noted then released env (ra_opportunity a) (fc_opportunity (rc_current r)) effect reason
     "generation_failed" reason answer else quiet_release env a reason answer) (λ _, nothing_open) anything) as Hfail
    by (intros; destruct noted; [apply held_ends|apply quiet_spec]).
  eapply (triple_bind _ _ _ (λ _, held 2 n)).
  { eapply triple_catch; [eapply (triple_catch _ _ _ _ (λ _, held 2 n) (held 2 n)); [apply draft_spec; unfold MAX_DRAFTS; lia|..]|..]; by intros. }
  intros written. eapply (triple_ebind _ _ (λ _, held 2 n)).
  { destruct written as [|[reason|t]]; [apply triple_early, Hfail..|by apply triple_inr]. }
  intros text. destruct (negb _); [apply triple_early, Hfail|].
  eapply (triple_ebind _ _ (λ _, held 2 n)).
  { destruct noted; [apply stage_unless_direct, stage_superseded|by apply triple_inr]. }
  intros ?. apply triple_inr. intros p Hp. by split.
Qed.

Lemma retext_spec r d n :
  triple (held (drafted r) n) (retext env a r d)
    (fin (λ r' p, (rc_index r' = rc_index r ∧ rc_max r' = rc_max r) ∧ held (drafted r') n p)) anything.
Proof.
  assert (∀ noted, rc_generated r = false → triple (held (drafted r) n) (redraft env a r d noted)
    (fin (λ r' p, (rc_index r' = rc_index r ∧ rc_max r' = rc_max r) ∧ held (drafted r') n p)) anything) as Hre.
  { intros noted Hg. unfold drafted at 1. rewrite Hg. eapply triple_weaken; [apply redraft_spec|done| |done].
    intros [d'|r'] p; simpl; [done|]. intros [(Hg' & ? & ?) Hp]. unfold drafted. by rewrite Hg'. }
  unfold retext, drop_changed, drop_blocked, drop_expired. cbv zeta. destruct (negb _).
  - destruct (rc_generated r) eqn:Hg; [apply triple_early, held_ends|].
    eapply triple_ebind; [apply stage_or_blocked; [apply _|intros; apply held_ends]|]. intros ?. cbv beta.
    eapply triple_ebind; [apply stage_unless_direct, stage_superseded|]. intros ?. cbv beta.
    eapply triple_ebind; [by apply unless_expired_spec; [apply held_ends|]|]. intros ?. by apply Hre.
  - destruct (rc_text r); [by apply triple_inr; intros p Hp|].
    destruct (rc_generated r) eqn:Hg; [apply triple_early, quiet_spec|].
    eapply triple_ebind; [apply stage_unless_direct, stage_superseded|]. intros ?. cbv beta.
    eapply triple_ebind; [by apply unless_expired_spec; [apply held_ends|]|]. intros ?. by apply Hre.
Qed.

Lemma attempt_index i : 1 ≤ i → op_id (ra_opportunity a) +:+ ":" +:+ py_str (JInt i) = attempt_name first (Z.to_nat i).
Proof. intros Hi. unfold attempt_name. rewrite Hfirst, Z2Nat.id by lia. done. Qed.

Lemma reconsider_round_spec r :
  1 ≤ rc_index r → rc_max r ≤ 2 →
  triple (held (drafted r) (Z.to_nat (rc_index r))) (reconsider_round casefold env a r)
    (fin (λ r' p, (rc_index r' = rc_index r + 1 ∧ rc_max r' ≤ rc_max r) ∧ held (drafted r') (Z.to_nat (rc_index r')) p)) anything.
Proof.
  intros Hi Hm. unfold reconsider_round, drop_blocked, drop_expired. cbv zeta. rewrite attempt_index by done. set (n := Z.to_nat (rc_index r)).
  destruct (rc_max r <? rc_index r) eqn:Hlt; [apply triple_early, held_ends|]. apply Z.ltb_ge in Hlt.
  eapply triple_ebind; [by apply unless_expired_spec; [apply held_ends|]|]. intros ?. cbv beta.
  eapply triple_ebind; [apply stage_unless_direct, stage_superseded|]. intros ?. cbv beta.
  eapply triple_ebind; [apply recharge_spec; unfold MAX_PAID; lia|]. intros ?. cbv beta.
  eapply triple_ebind; [apply rejudge_spec|]. intros [d r1]. cbn [snd]. apply triple_pure. intros Hk1.
  eapply triple_ebind; [apply stage_or_blocked; [apply fenced_mute; solve_mute|intros; apply held_ends]|]. intros [changed context].
  set (r2 := drop_stale_text (with_context r1 context)).
  assert (round_kept r r2) as (Hg & Hx & Hy) by (eapply kept_trans; [exact Hk1|apply kept_stale]).
  assert (drafted r = drafted r2) as -> by (unfold drafted; by rewrite Hg).
  eapply triple_ebind; [apply retext_spec|]. intros r3. cbv beta. apply triple_pure. intros [Hx3 Hy3].
  eapply triple_ebind; [apply stage_or_blocked; [apply _|intros; apply held_ends]|]. intros [newer context'].
  destruct newer as [fresh|].
  - cbn [rc_generated with_context]. destruct (rc_generated (with_context r3 context')) eqn:Hg3; [apply triple_early, held_ends|].
    eapply triple_bind; [apply mute_step_triple; [solve_mute|done]|]. intros limit. cbv beta. apply triple_inr. intros p Hp. simpl.
    split; [split; lia|]. assert (Z.to_nat (Z.succ (rc_index r3)) = S n) as -> by (subst n; rewrite Hx3, Hx; lia). exact Hp.
  - apply triple_early, triple_stage. intros c (Hs & Ho & _). by apply (submit_spec c); split.
Qed.

Lemma rounds_spec fuel r :
  1 ≤ rc_index r → rc_max r ≤ 2 →
  triple (held (drafted r) (Z.to_nat (rc_index r))) (reconsider_rounds casefold env a fuel r) (λ _, nothing_open) anything.
Proof.
  revert r. induction fuel as [|fuel IH]; intros r Hi Hm; simpl; [by apply triple_raise|].
  eapply triple_bind; [by apply reconsider_round_spec|]. intros [d|r']; simpl; [by apply triple_ret|].
  apply triple_pure. intros [Hx Hy]. apply IH; lia.
Qed.

End Round.

Lemma max_reevaluations_le s m : max_reevaluations s = Ok m → m ≤ 2.
Proof.
  unfold max_reevaluations. destruct (snapshot_int _ _ _) as [v|]; simpl; [|done]. destruct (2 <? v) eqn:Hv; [done|].
  intros [= <-]. by apply Z.ltb_ge.
Qed.

Lemma triple_lift_ok {A} P (r : result A) (φ : A → Prop) : (∀ a, r = Ok a → φ a) → triple P (lift r) (λ a p, φ a ∧ P p) anything.
Proof. intros Hr w p Hw Hp. exists p. split; [done|]. simpl. destruct r; [by split; [apply Hr|]|done]. Qed.

Lemma reconsider_spec s judge o snapshot context d effect text fresh :
  first = op_id o →
  triple (stage (HeldSlot effect) None 1 1) (reconsider_comment casefold env s judge o snapshot context d effect text fresh) (λ _, nothing_open) anything.
Proof.
  intros Hf. unfold reconsider_comment.
  eapply triple_bind; [apply triple_lift_ok, (max_reevaluations_le snapshot)|]. intros m1. cbv beta. apply triple_pure. intros H1.
  eapply triple_bind; [by apply mute_step_triple; [solve_mute|]|]. intros m2. cbv beta.
  do 3 (eapply triple_bind; [by apply mute_step_triple; [solve_mute|]|]; intros ?; cbv beta).
  lazymatch goal with |- RuntimeSpec.triple _ _ (reconsider_rounds _ _ ?a ?n ?r) _ _ => apply (rounds_spec a Hf n r) end; simpl; [done|].
  destruct (knowledge_in context); simpl; lia.
Qed.

Lemma comment_spec o snapshot d context inputs :
  first = op_id o → triple (stage Chosen None 0 1) (run_comment casefold env o snapshot d context inputs) (λ _, nothing_open) anything.
Proof.
  intros Hf. unfold run_comment.
  assert (∀ m : rprog dict, Mute m → triple (stage Chosen None 0 1) m (λ _, nothing_open) anything) as Hend by (intros; by apply stage_settled).
  destruct (re_submission env) as [s|]; [|apply Hend, _]. apply triple_returned. cbv zeta.
  set (judge := match re_judge env with Some j => j | None => _ end).
  destruct (is_none _); [apply triple_early, Hend, _|].
  eapply triple_ebind; [apply stage_or_blocked; [apply fenced_mute; solve_mute|intros; apply Hend, _]|]. intros m. cbv beta.
  set (e := effect_of o "comment").
  eapply (triple_bind _ _ _ (λ b : bool, if b then stage (HeldSlot e) None 0 1 else stage Chosen None 0 1)).
  { apply triple_stage. intros c (Hs & Ho & Hd & Hp).
    eapply triple_weaken; [by apply reserve_spec|done| |done].
    intros b p Hsame. assert (stage Chosen None 0 1 c) as Hc by done. destruct b; eapply stage_same; [|exact Hsame|exact Hc|exact Hsame]. done. }
  intros [|]; cbn [negb]; [|apply triple_early, Hend, _].
  assert (∀ k recorded reason what why answer, triple (stage (HeldSlot e) None k 1) (released env o recorded e reason what why answer) (λ _, nothing_open) anything)
    as Hgone by (intros; apply stage_released).
  assert (∀ k n, (k ≤ 1)%nat → n = 1%nat → ∀ p, stage (HeldSlot e) None k n p → stage (HeldSlot e) None 1 1 p) as Hone
    by (intros k n ? -> p Hx; by apply (stage_more _ _ k)).
  assert (∀ k text f ctx, (k ≤ 1)%nat → triple (stage (HeldSlot e) None k 1)
    (early (reconsider_comment casefold env s judge o snapshot ctx d e text f)) (fin (λ _ : dict, nothing_open)) anything) as Hre
    by (intros; apply triple_early; eapply triple_weaken; [by apply reconsider_spec|by apply Hone|done|done]).
  eapply triple_ebind; [by apply unless_expired_spec; [apply Hgone|]|]. intros ?. cbv beta.
  eapply triple_ebind; [apply stage_or_blocked; [apply _|intros; apply Hgone]|]. intros [fresh context1].
  destruct fresh as [f|]; [apply Hre; lia|].
  eapply triple_ebind; [apply stage_unless_direct, stage_superseded|]. intros ?. cbv beta.
  eapply triple_ebind; [by apply unless_expired_spec; [apply Hgone|]|]. intros ?. cbv beta.
  eapply (triple_bind _ _ _ (λ _, stage (HeldSlot e) None 1 1)).
  { eapply triple_catch; [eapply (triple_catch _ _ _ _ (λ _, stage (HeldSlot e) None 1 1) (stage (HeldSlot e) None 1 1));
      [apply draft_spec; unfold MAX_DRAFTS; lia|..]|..]; by intros. }
  intros written. eapply (triple_ebind _ _ (λ _, stage (HeldSlot e) None 1 1)).
  { destruct written as [|[reason|t]]; [apply triple_early, Hgone..|by apply triple_inr]. }
  intros text. destruct (negb _); [apply triple_early, Hgone|].
  eapply triple_ebind; [apply stage_unless_direct, stage_superseded|]. intros ?. cbv beta.
  eapply triple_ebind; [apply stage_or_blocked; [apply _|intros; apply Hgone]|]. intros [fresh context2].
  destruct fresh as [f|]; [apply Hre; lia|].
  apply triple_early, triple_stage. intros c (Hs & Ho & _). by apply (submit_spec c); split.
Qed.

Lemma execute_spec o ev :
  first = op_id o → triple (stage NoSlot None 0 1) (execute_decision casefold env o ev) (λ _, nothing_open) anything.
Proof.
  intros Hf. destruct ev as [[[d inputs] context] snapshot]. unfold execute_decision.
  assert (∀ c, stage Chosen None 0 1 c → undecided c) as Hun by (intros c (? & ? & _); by split).
  destruct (pn_action d =?s "silence"); [apply stage_mute_settled, _|].
  eapply triple_bind; [apply chosen_spec|]. intros ?. cbv beta.
  destruct (pn_action d =?s "react"); [apply triple_stage; intros c Hc; by apply run_reaction_spec, Hun|].
  destruct (str_in (pn_action d) IMAGE_ACTIONS); [apply triple_stage; intros c Hc; by apply run_image_spec, Hun|by apply comment_spec].
Qed.

Lemma participate_spec o :
  first = op_id o → triple (stage NoSlot None 0 0) (participate casefold env o) (λ _, nothing_open) anything.
Proof.
  intros Hf. unfold participate. cbv zeta. set (selected := re_history env && _).
  eapply triple_bind; [apply mute_step_triple; [destruct selected; unfold history_turn; solve_mute|done]|]. intros ?. cbv beta.
  eapply triple_bind; [by apply evaluate_spec|]. intros [answer|[[[d inputs] context] snapshot]]; cbn [fin]; [by apply triple_ret|].
  destruct selected; [|by apply execute_spec].
  eapply triple_bind; [apply mute_step_triple; [unfold history_turn; solve_mute|done]|]. intros ?. cbv beta.
  do 3 (eapply triple_bind; [apply mute_step_triple; [solve_mute|done]|]; intros ?; cbv beta). by apply execute_spec.
Qed.

End Protocol.

(** What interrupts an evaluation becomes an answer, and no event. *)
Lemma trace_of_participate `{Sha256} casefold env o w : (evaluate_participation casefold env o w).2 = (participate casefold env o w).2.
Proof.
  unfold evaluate_participation. destruct (participate casefold env o w) as [[d|e] w']; [done|].
  destruct (is_history_paused e); [done|]. by destruct (is_failure e).
Qed.
