(* ===== verification/RuntimeLanes.v ===== *)
(** * RuntimeLanes

    Which events a program of the participation runtime can cause, and what its results say:
    the shadow lane deliberates and does nothing else, what is carried out passed its check,
    and the loop that reconsiders a comment ends within its bound. *)

From Stdlib Require Import ZArith Lia Ascii.
From S2P Require Import Prelude Tables Json Models ThreadStore Registry Signals Router Scheduler Projection Continuation Ledger LedgerDelivery.
From S2P Require Import PolicyEngine Judge JudgeGuard JudgeProps GuardProps Inputs Runtime RuntimeFixtures RuntimeSpec RuntimeProps.

(** ** Programs that only cause certain events *)

Class Only (φ : rt_event → Prop) {A} (m : rprog A) : Prop :=
  only : ∀ w, Forall φ (pt_trace w) → Forall φ (pt_trace (m w).2).

#[export] Instance only_mute φ {A} (m : rprog A) : Mute m → Only φ m | 10.
Proof. intros Hm w Hw. by rewrite (Hm w). Qed.
Lemma only_log φ e : φ e → Only φ (log e).
Proof. intros He w Hw. simpl. apply Forall_app. by repeat constructor. Qed.
Lemma only_bind φ {A B} (m : rprog A) (k : A → rprog B) : Only φ m → (∀ a, Only φ (k a)) → Only φ (pbind m k).
Proof.
  intros Hm Hk w Hw. unfold pbind. specialize (Hm w Hw). destruct (m w) as [[a|e] w1]; [|done]. by apply (Hk a w1).
Qed.
Lemma only_catch φ {A} clause (m : rprog A) : Only φ m → Only φ (catch clause m).
Proof. intros Hm w Hw. unfold catch. specialize (Hm w Hw). destruct (m w) as [[a|e] w1]; [done|]. by destruct (clause e). Qed.

(** The events of an evaluation that looks and asks, and those of one that acts. *)
Class Looks (φ : rt_event → Prop) : Prop := {
  looks_direct b : φ (EvDirect b);
  looks_paused b : φ (EvPaused b);
  looks_source b : φ (EvSource b);
  looks_attempt id b : φ (EvAttempt id b);
  looks_judge id : φ (EvJudge id);
  looks_outcome id x : φ (EvOutcome id x);
}.
Class Acts (φ : rt_event → Prop) : Prop := {
  acts_reserve e b : φ (EvReserve e b);
  acts_release e x : φ (EvRelease e x);
  acts_draft : φ EvDraft;
  acts_hand route e : φ (EvHandOver route e);
}.
#[export] Instance only_direct `{Looks φ} b : Only φ (log (EvDirect b)). Proof. apply only_log, looks_direct. Qed.
#[export] Instance only_paused `{Looks φ} b : Only φ (log (EvPaused b)). Proof. apply only_log, looks_paused. Qed.
#[export] Instance only_source `{Looks φ} b : Only φ (log (EvSource b)). Proof. apply only_log, looks_source. Qed.
#[export] Instance only_attempt `{Looks φ} id b : Only φ (log (EvAttempt id b)). Proof. apply only_log, looks_attempt. Qed.
#[export] Instance only_judge `{Looks φ} id : Only φ (log (EvJudge id)). Proof. apply only_log, looks_judge. Qed.
#[export] Instance only_outcome `{Looks φ} id x : Only φ (log (EvOutcome id x)). Proof. apply only_log, looks_outcome. Qed.
#[export] Instance only_reserve `{Acts φ} e b : Only φ (log (EvReserve e b)). Proof. apply only_log, acts_reserve. Qed.
#[export] Instance only_release `{Acts φ} e x : Only φ (log (EvRelease e x)). Proof. apply only_log, acts_release. Qed.
#[export] Instance only_draft `{Acts φ} : Only φ (log EvDraft). Proof. apply only_log, acts_draft. Qed.
#[export] Instance only_hand `{Acts φ} route e : Only φ (log (EvHandOver route e)). Proof. apply only_log, acts_hand. Qed.

Ltac only_step :=
  lazymatch goal with
  | |- Only _ (pbind _ _) => apply only_bind; [|intros]
  | |- Only _ (catch _ _) => apply only_catch
  | |- Only _ (let _ := _ in _) => cbv zeta
  | |- Only _ (match ?x with _ => _ end) => destruct x
  | |- Only _ ((λ _, _) _) => cbv beta
  | |- Only _ (ebind _ _) => unfold ebind
  | |- Only _ (early _) => unfold early
  | |- Only _ (returned _) => unfold returned
  | |- Only _ (or_blocked _ _) => unfold or_blocked
  | |- Only _ (unless_direct _ _ _) => unfold unless_direct
  | |- Only _ (unless_expired _ _ _ _) => unfold unless_expired
  | |- Only _ _ => apply _
  end.
Ltac solve_only := intros; repeat only_step.

(** ** What a result says *)

Definition yields {A} (m : rprog A) (φ : A → Prop) : Prop := ∀ w a, (m w).1 = Ok a → φ a.

Definition goes_on {A} (φ : A → Prop) (r : dict + A) : Prop := match r with inl _ => True | inr a => φ a end.

Lemma yields_bind {A B} (m : rprog A) (k : A → rprog B) φ ψ : yields m φ → (∀ a, φ a → yields (k a) ψ) → yields (pbind m k) ψ.
Proof.
  intros Hm Hk w b. unfold pbind. specialize (Hm w). destruct (m w) as [[a|e] w1]; [|done]. simpl in Hm. intros Hb. by apply (Hk a (Hm a eq_refl) w1).
Qed.
Lemma yields_skip {A B} (m : rprog A) (k : A → rprog B) ψ : (∀ a, yields (k a) ψ) → yields (pbind m k) ψ.
Proof. intros Hk. by apply (yields_bind _ _ (λ _, True)). Qed.
Lemma yields_ret {A} (a : A) (φ : A → Prop) : φ a → yields (pret a) φ.
Proof. intros Ha w b Hb. by simplify_eq/=. Qed.
Lemma yields_ebind {A B} (m : rprog (dict + A)) (k : A → rprog (dict + B)) φ ψ :
  yields m (goes_on φ) → (∀ a, φ a → yields (k a) (goes_on ψ)) → yields (ebind m k) (goes_on ψ).
Proof. intros Hm Hk. eapply yields_bind; [exact Hm|]. intros [d|a]; [intros _; by apply yields_ret|apply Hk]. Qed.
Lemma yields_eskip {A B} (m : rprog (dict + A)) (k : A → rprog (dict + B)) ψ :
  (∀ a, yields (k a) (goes_on ψ)) → yields (ebind m k) (goes_on ψ).
Proof. intros Hk. apply (yields_ebind _ _ (λ _, True)); [by intros w [|]|]. intros a _. apply Hk. Qed.
Lemma yields_early {A} m (φ : A → Prop) : yields (early m) (goes_on φ).
Proof. apply yields_skip. intros d. by apply yields_ret. Qed.
Lemma yields_catch {A} clause (m : rprog A) φ : yields m φ → yields (catch clause m) (λ r, match r with inr a => φ a | inl _ => True end).
Proof.
  intros Hm w r. unfold catch. specialize (Hm w). destruct (m w) as [[a|e] w1]; [|destruct (clause e); [by intros [= <-]|done]].
  intros [= <-]. by apply Hm.
Qed.
Lemma yields_lift {A} (r : result A) : yields (lift r) (λ a, r = Ok a).
Proof. by intros w a. Qed.
Lemma yields_consult {A} (f : nat → result A) : yields (consult f) (λ a, ∃ n, f n = Ok a).
Proof. intros w a Ha. by exists (pt_tick w). Qed.

(** The judge answers with a decision when asked about an opportunity. *)
Definition answers (judge : nat → ParticipationOpportunity → dict → result ParticipationDecision * dict)
    (o : ParticipationOpportunity) (d : ParticipationDecision) : Prop := ∃ n context, (judge n o context).1 = Ok d.

Lemma judge_yields env judge id o context : yields (judge_decide env judge id o context) (λ r, ∀ d, r.1 = Ok d → answers judge o d).
Proof. unfold judge_decide. apply yields_skip. intros ? w r [= <-] d Hd. by eexists _, _. Qed.
Lemma answer_yields (r : result ParticipationDecision) :
  yields (catch is_exception (catch is_failure (lift r))) (λ a, match a with inr (inr d) => r = Ok d | _ => True end).
Proof.
  intros w a Ha. pose proof (yields_catch is_exception _ _ (yields_catch is_failure _ _ (yields_lift r)) w a Ha) as Hy.
  by destruct a as [|[|]].
Qed.

(** What a step yields helps with the rest. *)
Lemma only_bind_yields φ {A B} (m : rprog A) (k : A → rprog B) ψ :
  yields m ψ → Only φ m → (∀ a, ψ a → Only φ (k a)) → Only φ (pbind m k).
Proof.
  intros Hy Hm Hk w Hw. unfold pbind. specialize (Hy w). specialize (Hm w Hw). destruct (m w) as [[a|e] w1]; [|done].
  by apply (Hk a (Hy a eq_refl) w1).
Qed.
Lemma only_ebind_yields φ {A B} (m : rprog (dict + A)) (k : A → rprog (dict + B)) ψ :
  yields m (goes_on ψ) → Only φ m → (∀ a, ψ a → Only φ (k a)) → Only φ (ebind m k).
Proof. intros Hy Hm Hk. eapply only_bind_yields; [exact Hy|done|]. intros [d|a] Ha; [apply _|by apply Hk]. Qed.

Lemma only_ended φ {A B} m (k : A → rprog (dict + B)) : Only φ m → Only φ (ebind (early m) k).
Proof.
  intros Hm w Hw. specialize (Hm w Hw). unfold ebind, early, pbind, pret. by destruct (m w) as [[d|e] w1].
Qed.
Lemma only_goes_on φ {A B} (a : A) (k : A → rprog (dict + B)) : Only φ (k a) → Only φ (ebind (pret (inr a)) k).
Proof. done. Qed.

Section Lanes.
Context `{Sha256} (casefold : string → string) (env : runtime_env) (φ : rt_event → Prop) `{!Looks φ}.
Context (starts_shadow : ∀ t, is_some (re_group_notes env) = true → φ (EvShadow t)).

#[local] Instance only_direct_active o : Only φ (direct_active env o).
Proof. unfold direct_active. solve_only. Qed.
#[local] Instance only_paused_check o : Only φ (paused env o).
Proof. unfold paused. solve_only. Qed.
#[local] Instance only_source_check o : Only φ (source_allowed env o).
Proof. unfold source_allowed. solve_only. Qed.
#[local] Instance only_preflight o snapshot : Only φ (preflight env o snapshot).
Proof. unfold preflight. solve_only. Qed.
#[local] Instance only_charge id args now : Only φ (charge id args now).
Proof. unfold charge. solve_only. Qed.
#[local] Instance only_judge_decide judge id o context : Only φ (judge_decide env judge id o context).
Proof. unfold judge_decide. solve_only. Qed.
#[local] Instance only_record id x detail : Only φ (record_outcome id x detail).
Proof. unfold record_outcome. solve_only. Qed.
#[local] Instance only_failure id printed : Only φ (record_judge_failure id printed).
Proof. unfold record_judge_failure. solve_only. Qed.
#[local] Instance only_closes id x m : Only φ m → Only φ (closes id x m).
Proof. intros Hm. unfold closes. solve_only. Qed.
#[local] Instance only_offer o inputs context : Only φ (offer_memes env o inputs context).
Proof. unfold offer_memes. solve_only. by intros w. Qed.
#[local] Instance only_shadow o inputs context live : Only φ (start_group_notes_shadow o inputs (group_notes_shadow_base env context) live).
Proof.
  unfold start_group_notes_shadow, group_notes_shadow_base. destruct (re_group_notes env) eqn:Hr; [|apply _].
  destruct (dict_get _ _) as [[]|]; try apply _. destruct (str_true _); [|apply _]. apply only_log, starts_shadow. done.
Qed.
#[local] Instance only_prepare o : Only φ (prepare_decision casefold env o).
Proof. unfold prepare_decision. solve_only. Qed.
#[local] Instance only_judged o snapshot inputs context id judge : Only φ (judged casefold env o snapshot inputs context id judge).
Proof. unfold judged. solve_only. Qed.

(** An evaluation that has not begun to act only looks and asks. *)
Lemma evaluate_looks o : Only φ (evaluate_opportunity casefold env o).
Proof. unfold evaluate_opportunity. solve_only. Qed.

(** *** Acting *)

Context `{!Acts φ}.
(** What is known of a decision that is carried out. *)
Context (answered : ParticipationOpportunity → ParticipationDecision → Prop).
Context (acts_on : ∀ o d inputs context, validate_decision casefold d o inputs context = Ok tt → pn_action d ≠ "silence" →
  answered o d → φ (EvActsOn o d inputs context)).

#[local] Instance only_veto o snapshot : Only φ (final_submission_veto env o snapshot).
Proof. unfold final_submission_veto. solve_only. Qed.
#[local] Instance only_reserve_slot o effect limits : Only φ (reserve env o effect limits).
Proof. unfold reserve. solve_only. Qed.
#[local] Instance only_release_slot o effect reason : Only φ (release env o effect reason).
Proof. unfold release. solve_only. Qed.
#[local] Instance only_released o recorded effect reason what why answer : Only φ (released env o recorded effect reason what why answer).
Proof. unfold released. solve_only. Qed.
#[local] Instance only_superseded o effect : Only φ (superseded env o effect).
Proof. unfold superseded. solve_only. Qed.
#[local] Instance only_settle o effect kind r : Only φ (settle_report env o effect kind r).
Proof. unfold settle_report. solve_only. Qed.
#[local] Instance only_reaction o d inputs context : Only φ (run_reaction env o d inputs context).
Proof. unfold run_reaction. solve_only. Qed.
#[local] Instance only_image_veto o inputs context : Only φ (image_veto env o inputs context).
Proof. unfold image_veto. solve_only. Qed.
#[local] Instance only_unless_vetoed o inputs context effect kind : Only φ (unless_vetoed env o inputs context effect kind).
Proof. unfold unless_vetoed. solve_only. Qed.
#[local] Instance only_image o d inputs context : Only φ (run_image env o d inputs context).
Proof.
  unfold run_image. solve_only. intros w Hw.
  assert (Mute (catch is_exception (await env (λ n, pm_render p n m (op_channel o) (op_chat_id o) (pn_action d =?s "sticker"))))) as Hm
    by solve_mute.
  specialize (Hm w). destruct (catch _ _ w) as [[a1|e] w']; simpl in Hm |- *; [by rewrite Hm|].
  destruct (is_history_paused e); [|simpl; by rewrite Hm].
  assert (∀ A, Only φ (do* release env o (effect_of o (pn_action d)) "history_paused" in (praise e : rprog A))) as Hr by solve_only.
  apply (Hr _ w'). by rewrite Hm.
Qed.
#[local] Instance only_draft_text s o d context : Only φ (draft env s o d context).
Proof. unfold draft. solve_only. Qed.
#[local] Instance only_fresh o snapshot context : Only φ (fresh_comment_state casefold env o snapshot context).
Proof. unfold fresh_comment_state. solve_only. Qed.
#[local] Instance only_submit s o snapshot d text context effect index deadline :
  Only φ (submit_comment env s o snapshot d text context effect index deadline).
Proof. unfold submit_comment. solve_only. Qed.

#[local] Instance only_recharge a r id : Only φ (recharge env a r id).
Proof. unfold recharge, drop_blocked. solve_only. Qed.
#[local] Instance only_quiet a reason answer : Only φ (quiet_release env a reason answer).
Proof. unfold quiet_release. solve_only. Qed.
#[local] Instance only_redraft a r d noted : Only φ (redraft env a r d noted).
Proof. unfold redraft. solve_only. Qed.
#[local] Instance only_retext a r d : Only φ (retext env a r d).
Proof. unfold retext, drop_changed, drop_blocked, drop_expired. solve_only. Qed.

(** The re-evaluated decision passed its check when the code goes on with it. *)
Lemma only_rejudge a r id : (∀ o d, answers (ra_judge a) o d → answered o d) → Only φ (rejudge casefold env a r id).
Proof.
  intros Hans. unfold rejudge, drop_changed. cbv zeta. do 5 (apply only_bind; [solve_only|intros [?|?]; [solve_only|]]; try destruct p).
  eapply only_bind_yields; [apply judge_yields|solve_only|intros [answer context] Hj]. cbn [fst] in Hj.
  eapply only_bind_yields; [apply answer_yields|solve_only|intros [ty|[printed|d]] Hd; [apply only_ended; solve_only..|]].
  apply only_goes_on. apply only_bind; [solve_only|intros [?|?]; [solve_only|]].
  eapply only_bind_yields; [apply yields_catch, yields_lift|solve_only|]. intros [printed|[]] Hv; [apply only_ended; solve_only|].
  apply only_goes_on. apply only_bind; [solve_only|intros ?]. destruct (pn_action d =?s "silence") eqn:Ea; [solve_only|].
  destruct (negb _); [solve_only|]. destruct (negb _); [solve_only|]. apply only_bind; [|solve_only].
  apply only_log, acts_on; [exact Hv|by apply str_eqb_neq|apply Hans, Hj, Hd].
Qed.
Lemma only_round a r : (∀ o d, answers (ra_judge a) o d → answered o d) → Only φ (reconsider_round casefold env a r).
Proof. intros Hans. pose proof (λ r id, only_rejudge a r id Hans). unfold reconsider_round, drop_expired, drop_blocked. solve_only. Qed.
Lemma only_rounds a fuel r : (∀ o d, answers (ra_judge a) o d → answered o d) → Only φ (reconsider_rounds casefold env a fuel r).
Proof.
  intros Hans. revert r. induction fuel as [|fuel IH]; intros r; simpl; [apply _|].
  apply only_bind; [by apply only_round|]. solve_only.
Qed.
Lemma only_reconsider s judge o snapshot context d effect text fresh :
  (∀ o d, answers judge o d → answered o d) →
  Only φ (reconsider_comment casefold env s judge o snapshot context d effect text fresh).
Proof.
  intros Hans. unfold reconsider_comment. do 2 (apply only_bind; [solve_only|intros ?]). cbv zeta.
  do 3 (apply only_bind; [solve_only|intros ?]). by apply only_rounds.
Qed.

Context (judge_answered : ∀ judge o d, re_judge env = Some judge → answers judge o d → answered o d).

#[local] Instance only_comment o snapshot d context inputs : Only φ (run_comment casefold env o snapshot d context inputs).
Proof.
  unfold run_comment. destruct (re_submission env) as [s|]; [|solve_only]. cbv zeta. set (judge := match re_judge env with Some j => j | None => _ end).
  assert (∀ s o snapshot context d effect text fresh, Only φ (reconsider_comment casefold env s judge o snapshot context d effect text fresh)).
  { intros. apply only_reconsider. intros o' d'. subst judge. destruct (re_judge env) as [j|]; [by apply judge_answered|].
    intros (n & c & [=]). }
  solve_only.
Qed.
Lemma execute_only o d inputs context snapshot :
  validate_decision casefold d o inputs context = Ok tt → answered o d → Only φ (execute_decision casefold env o (d, inputs, context, snapshot)).
Proof.
  intros Hv Hans. unfold execute_decision. destruct (pn_action d =?s "silence") eqn:Ea; [apply _|].
  apply only_bind; [by apply only_log, acts_on; [|by apply str_eqb_neq|]|]. solve_only.
Qed.
End Lanes.

(** Events without effect outside: the paid attempts, the fences, the start of the shadow. *)
Definition deliberation (e : rt_event) : bool :=
  match e with
  | EvAttempt _ _ | EvJudge _ | EvOutcome _ _ | EvDirect _ | EvPaused _ | EvSource _ | EvShadow _ | EvShadowCall => true
  | EvReserve _ _ | EvRelease _ _ | EvDraft | EvHandOver _ _ | EvActsOn _ _ _ _ => false
  end.
#[export] Instance deliberation_looks : Looks (λ e, deliberation e = true).
Proof. by constructor. Qed.

Section Decisions.
Context `{Sha256} (casefold : string → string) (env : runtime_env).

(** What is known of a decision that is executed. *)
Definition fit_to_execute (o : ParticipationOpportunity) (e : evaluated) : Prop :=
  let '(d, inputs, context, snapshot) := e in
  validate_decision casefold d o inputs context = Ok tt ∧ (∃ judge, re_judge env = Some judge ∧ answers judge o d)
  ∧ (lane_of snapshot o =?s "shadow") = false ∧ (pn_action d =?s "silence") = false ∧ ∃ n, re_snapshot env n o = Ok snapshot.

Lemma prepare_yields o :
  yields (prepare_decision casefold env o)
    (goes_on (λ '(snapshot, inputs, context), ∃ n, re_snapshot env n o = Ok snapshot)).
Proof.
  unfold prepare_decision. apply yields_eskip. intros _.
  eapply yields_bind; [apply yields_catch, yields_catch, yields_consult|]. intros r Hr.
  eapply (yields_ebind _ _ (λ snapshot, ∃ n, re_snapshot env n o = Ok snapshot)).
  { destruct r as [|[|snapshot]]; [apply yields_early..|by apply yields_ret]. }
  intros snapshot Hs. do 5 (apply yields_eskip; intros ?). apply yields_skip. intros built. apply yields_eskip. intros context.
  apply yields_skip. intros context1. apply yields_skip. intros [inputs1 context2]. apply yields_skip. intros [inputs2 context3].
  destruct (negb (has_action inputs2)); [apply yields_early|]. do 2 (apply yields_eskip; intros ?). by apply yields_ret.
Qed.

Lemma judged_yields o snapshot inputs context id judge :
  yields (judged casefold env o snapshot inputs context id judge)
    (goes_on (λ '(d, context'), validate_decision casefold d o inputs context' = Ok tt ∧ answers judge o d)).
Proof.
  unfold judged. cbv zeta. do 2 (apply yields_eskip; intros ?). apply yields_eskip. intros [changed context1].
  do 2 (apply yields_eskip; intros ?). eapply yields_bind; [apply judge_yields|]. intros [r context2] Hj. cbn [fst] in Hj.
  eapply yields_bind; [apply answer_yields|]. intros answer Hd.
  eapply (yields_ebind _ _ (λ d, answers judge o d)).
  { destruct answer as [|[|d]]; [apply yields_early..|apply yields_ret, Hj, Hd]. }
  intros d Hans. apply yields_eskip. intros ?.
  eapply yields_bind; [apply yields_catch, yields_lift|]. intros v Hv.
  eapply (yields_ebind _ _ (λ _, validate_decision casefold d o inputs context2 = Ok tt)).
  { destruct v as [printed|[]]; [apply yields_early|by apply yields_ret]. }
  intros ? Hok. do 2 (apply yields_skip; intros ?). by apply yields_ret.
Qed.

Lemma evaluate_yields o : yields (evaluate_opportunity casefold env o) (goes_on (fit_to_execute o)).
Proof.
  unfold evaluate_opportunity. eapply yields_ebind; [apply prepare_yields|]. intros [[snapshot inputs] context] Hs.
  destruct (re_judge env) as [judge|] eqn:Hr; cbv zeta; [|by apply yields_ret]. apply yields_eskip. intros [|]; cbn [negb]; [|apply yields_early].
  eapply yields_ebind; [apply judged_yields|]. intros [d context'] [Hv Hans].
  destruct (lane_of snapshot o =?s "shadow") eqn:Hl; [apply yields_early|].
  destruct (pn_action d =?s "silence") eqn:Hd; [apply yields_early|]. apply yields_ret. split; [done|]. split; [by exists judge|done].
Qed.

(** C8: The shadow lane has no effect outside: while every snapshot of the settings says
    shadow, an evaluation pays for the judge and looks at the fences, and never reserves a
    slot, releases one, asks for a draft or hands anything over. *)
Theorem shadow_only_deliberates o l tick :
  (∀ n snapshot, re_snapshot env n o = Ok snapshot → lane_of snapshot o = "shadow") →
  forallb deliberation (pt_trace (evaluate_participation casefold env o (MkRuntimeWorld l tick [])).2) = true.
Proof.
  intros Hlane. rewrite trace_of_participate. unfold participate. set (selected := re_history env && _).
  apply forallb_forall. intros x Hx%list_elem_of_In. revert x Hx. rewrite <- (Forall_forall (λ e, deliberation e = true)).
  assert (Only (λ e, deliberation e = true) (if selected then history_turn env else pret tt)) as Hh
    by (destruct selected; unfold history_turn; solve_only).
  unfold pbind at 1. specialize (Hh (MkRuntimeWorld l tick []) (Forall_nil_2 _)).
  destruct ((if selected then history_turn env else pret tt) (MkRuntimeWorld l tick [])) as [[u|e] w1]; [|done].
  unfold pbind at 1.
  pose proof (evaluate_looks casefold env (λ e, deliberation e = true) (λ _ _, eq_refl) o w1 Hh) as Hdel.
  pose proof (evaluate_yields o w1) as Hfit.
  destruct (evaluate_opportunity casefold env o w1) as [[[answer|e]|e] w2]; [done| |done].
  specialize (Hfit _ eq_refl). destruct e as [[[d inputs] context] snapshot]. destruct Hfit as (_ & _ & Hl & _ & n & Hs).
  rewrite (Hlane _ _ Hs) in Hl. done.
Qed.

(** A whole evaluation, with every decision checked before it is carried out - after the
    judge's first call, on the inputs and context read again under the history of a second
    turn, or after a re-evaluation. *)
Lemma participate_only (φ : rt_event → Prop) `{!Looks φ, !Acts φ} o :
  (∀ t, is_some (re_group_notes env) = true → φ (EvShadow t)) →
  (∀ o d inputs context, validate_decision casefold d o inputs context = Ok tt → pn_action d ≠ "silence" →
    (∃ judge, re_judge env = Some judge ∧ answers judge o d) → φ (EvActsOn o d inputs context)) →
  Only φ (participate casefold env o).
Proof.
  intros Hsh Hacts. unfold participate. cbv zeta. set (selected := re_history env && _).
  apply only_bind; [destruct selected; unfold history_turn; solve_only|]. intros ?.
  eapply only_bind_yields; [apply evaluate_yields|by apply evaluate_looks|].
  intros [answer|[[[d inputs] context] snapshot]] Hfit; [apply _|]. destruct Hfit as (Hv & Hans & _).
  assert (∀ i c, validate_decision casefold d o i c = Ok tt → Only φ (execute_decision casefold env o (d, i, c, snapshot))) as Hex.
  { intros i c Hok. eapply (execute_only casefold env φ _ Hacts); eauto. }
  destruct selected; [|by apply Hex]. apply only_bind; [unfold history_turn; solve_only|]. intros ?.
  do 2 (apply only_bind; [solve_only|]; intros ?). eapply only_bind_yields; [apply yields_lift|solve_only|].
  intros [] Hok. by apply Hex.
Qed.

(** ** The loop *)

Lemma rejudge_yields a r id : yields (rejudge casefold env a r id) (goes_on (λ dr, round_kept r dr.2)).
Proof.
  unfold rejudge. cbv zeta. do 2 (apply yields_eskip; intros ?). apply yields_eskip. intros [changed context].
  do 2 (apply yields_eskip; intros ?). apply yields_skip. intros [answer context']. apply yields_skip. intros v.
  apply yields_eskip. intros d. apply yields_eskip. intros ?. apply yields_skip. intros checked. apply yields_eskip. intros ?.
  apply yields_skip. intros ?. destruct (_ =?s _); [apply yields_early|]. destruct (negb _); [apply yields_early|].
  destruct (negb _); [apply yields_early|]. apply yields_ret.
  eapply kept_trans; [apply kept_stale|]. eapply kept_trans; [apply kept_context|]. apply kept_capped.
Qed.

Lemma retext_yields a r d : yields (retext env a r d) (goes_on (λ r', rc_index r' = rc_index r ∧ rc_max r' = rc_max r)).
Proof.
  assert (∀ noted, yields (redraft env a r d noted) (goes_on (λ r', rc_index r' = rc_index r ∧ rc_max r' = rc_max r))) as Hre.
  { intros noted. unfold redraft. cbv zeta. apply yields_skip. intros written. apply yields_eskip. intros text.
    destruct (negb _); [apply yields_early|]. apply yields_eskip. intros ?. by apply yields_ret. }
  unfold retext. cbv zeta. destruct (negb _).
  - destruct (rc_generated r); [apply yields_early|]. do 3 (apply yields_eskip; intros ?). apply Hre.
  - destruct (rc_text r); [by apply yields_ret|]. destruct (rc_generated r); [apply yields_early|].
    do 2 (apply yields_eskip; intros ?). apply Hre.
Qed.

(** A further round only below the bound, with the next index and no larger bound. *)
Lemma round_yields a r :
  yields (reconsider_round casefold env a r)
    (goes_on (λ r', rc_index r ≤ rc_max r ∧ rc_index r' = rc_index r + 1 ∧ rc_max r' ≤ rc_max r)).
Proof.
  unfold reconsider_round. cbv zeta. destruct (rc_max r <? rc_index r) eqn:Hlt; [apply yields_early|]. apply Z.ltb_ge in Hlt.
  do 3 (apply yields_eskip; intros ?). eapply yields_ebind; [apply rejudge_yields|]. intros [d r1] Hk. simpl in Hk.
  apply yields_eskip. intros [changed context]. set (r2 := drop_stale_text (with_context r1 context)).
  assert (round_kept r r2) as (_ & Hx & Hy) by (eapply kept_trans; [exact Hk|apply kept_stale]).
  eapply yields_ebind; [apply retext_yields|]. intros r3 [Hx3 Hy3]. apply yields_eskip. intros [[fresh|] context']; [|apply yields_early].
  destruct (rc_generated _); [apply yields_early|]. apply yields_skip. intros limit. apply yields_ret. simpl. lia.
Qed.

(** The loop as the code writes it, without a number of rounds: it runs until a round ends it. *)
Inductive reconsiders (a : reconsider_args) : reconsideration → runtime_world → result dict * runtime_world → Prop :=
| reconsider_ends r w d w' :
    reconsider_round casefold env a r w = (Ok (inl d), w') → reconsiders a r w (Ok d, w')
| reconsider_raises r w e w' :
    reconsider_round casefold env a r w = (Raise e, w') → reconsiders a r w (Raise e, w')
| reconsider_again r w r' w' out :
    reconsider_round casefold env a r w = (Ok (inr r'), w') → reconsiders a r' w' out → reconsiders a r w out.

Lemma rounds_enough a fuel : ∀ r w,
  rc_max r - rc_index r + 1 < Z.of_nat fuel → (0 < fuel)%nat → reconsiders a r w (reconsider_rounds casefold env a fuel r w).
Proof.
  induction fuel as [|fuel IH]; intros r w Hk Hf; [lia|]. simpl. unfold pbind.
  pose proof (round_yields a r w) as Hr. destruct (reconsider_round casefold env a r w) as [[[d|r']|e] w'] eqn:He.
  - by apply reconsider_ends.
  - destruct (Hr _ eq_refl) as (Hle & Hi & Hb). eapply reconsider_again; [exact He|]. apply IH; lia.
  - by apply reconsider_raises.
Qed.

(** C11: The loop that reconsiders a comment ends: from its first round, with the bound on
    re-evaluations the settings can at most ask for, the code's unbounded loop reaches its
    end, and the version with a number of rounds gives exactly its answer and state from
    three rounds on, whatever the collaborators answer. *)
Theorem reconsideration_ends a r fuel w :
  1 ≤ rc_index r → rc_max r ≤ 2 → (RECONSIDER_ROUNDS ≤ fuel)%nat →
  reconsiders a r w (reconsider_rounds casefold env a fuel r w).
Proof. unfold RECONSIDER_ROUNDS. intros. apply rounds_enough; lia. Qed.

End Decisions.

(** ** Examples *)

#[local] Existing Instance plain_sha256.

(** The shadow lane pays for the judge, which wants to comment, and that is all. *)
Lemma shadow_only_deliberates_witness :
  let r := evaluate_participation py_lower shadow_env asked_on quiet_world in
  r.1 = Ok [("status", JStr "shadow"); ("action", JStr "comment"); ("intent", JStr "continue")]
  ∧ existsb (λ e, match e with EvJudge _ => true | _ => false end) (pt_trace r.2) = true
  ∧ forallb deliberation (pt_trace r.2) = true.
Proof.
  split; [by vm_compute|]. split; [by vm_compute|]. apply (shadow_only_deliberates py_lower shadow_env asked_on (empty_ledger 0) 0).
  intros n snapshot Hs. simpl in Hs. injection Hs as <-. by vm_compute.
Defined.

Lemma reconsideration_ends_witness :
  (reconsider_rounds py_lower group_env sample_args 5 sample_reconsideration quiet_world).1
    = Ok [("status", JStr "submitted"); ("effect_id", JStr "spk-1")]
  ∧ reconsiders py_lower group_env sample_args sample_reconsideration quiet_world
      (reconsider_rounds py_lower group_env sample_args 5 sample_reconsideration quiet_world).
Proof.
  split; [by vm_compute|]. apply (reconsideration_ends py_lower group_env sample_args sample_reconsideration 5 quiet_world);
    [by vm_compute..|unfold RECONSIDER_ROUNDS; lia].
Defined.
