(* ===== verification/RuntimeGuarantees.v ===== *)
(** * RuntimeGuarantees

    What follows from the protocol of [RuntimeSpec] for one evaluation of the participation
    runtime: how often it pays, asks, drafts and hands over - the group-notes shadow it starts
    included -, which fences directly precede a hand-over, and that nothing stays open. *)

From Stdlib Require Import ZArith Lia Ascii.
From S2P Require Import Prelude Tables Json Models ThreadStore Registry Signals Router Scheduler Projection Continuation Ledger LedgerDelivery.
From S2P Require Import PolicyEngine Judge JudgeGuard JudgeProps GuardProps Inputs Runtime RuntimeFixtures RuntimeSpec RuntimeProps RuntimeLanes.

(** ** Accounts of a trace *)

Definition is_paid (e : rt_event) : bool := match e with EvAttempt _ charged => charged | _ => false end.
Definition is_judge (e : rt_event) : bool := match e with EvJudge _ => true | _ => false end.
Definition is_draft (e : rt_event) : bool := match e with EvDraft => true | _ => false end.
Definition is_hand_over (e : rt_event) : bool := match e with EvHandOver _ _ => true | _ => false end.
Definition is_acts (e : rt_event) : bool := match e with EvActsOn _ _ _ _ => true | _ => false end.
Definition is_reserve (e : rt_event) : bool := match e with EvReserve _ _ => true | _ => false end.
Definition is_shadow (e : rt_event) : bool := match e with EvShadow _ => true | _ => false end.
Definition is_shadow_call (e : rt_event) : bool := match e with EvShadowCall => true | _ => false end.

Definition count (f : rt_event → bool) (l : list rt_event) : nat := length (List.filter f l).

Lemma count_snoc f l e : count f (l ++ [e]) = (count f l + if f e then 1 else 0)%nat.
Proof. unfold count. rewrite List.filter_app, length_app. simpl. by destruct (f e). Qed.
Lemma count_app f l1 l2 : count f (l1 ++ l2) = (count f l1 + count f l2)%nat.
Proof. unfold count. by rewrite List.filter_app, length_app. Qed.

(** The fences found open, in their order. *)
Definition open_fences (n : nat) : list rt_event :=
  match n with 1%nat => [EvDirect false] | 2%nat => [EvDirect false; EvPaused false] | 3%nat => [EvDirect false; EvPaused false; EvSource true]
  | _ => [] end.

(** The reserved slots and what became of them. *)
Definition slot_account (s : slot) (l : list rt_event) : Prop :=
  match s with
  | NoSlot | Chosen => ∀ e, EvReserve e true ∉ l
  | HeldSlot e' => EvReserve e' true ∈ l ∧ ∀ e, EvReserve e true ∈ l → e = e'
  | HandedOver e' => EvReserve e' true ∈ l ∧ (∀ e, EvReserve e true ∈ l → e = e') ∧ ∃ route, EvHandOver route e' ∈ l
  | ReleasedSlot => ∀ e, EvReserve e true ∈ l → ∃ reason, EvRelease e reason ∈ l
  end.

Record trace_accounts (l : list rt_event) (p : phase) : Prop := {
  ac_paid : count is_paid l = ph_paid p;
  ac_paid_max : (ph_paid p ≤ MAX_PAID)%nat;
  ac_judge : (count is_judge l + match ph_open p with Some (_, Unasked) => 1 | _ => 0 end ≤ ph_paid p)%nat;
  ac_shadow : (count is_shadow l
    + match ph_open p with Some (_, Unasked) | Some (_, Asked) => if ph_paid p =? 1 then 1 else 0 | _ => 0 end
    ≤ Nat.min 1 (ph_paid p))%nat;
  ac_calls : count is_shadow_call l = 0%nat;
  ac_acts : ph_slot p ≠ NoSlot → existsb is_acts l = true;
  ac_drafts : count is_draft l = ph_drafts p;
  ac_drafts_max : (ph_drafts p ≤ MAX_DRAFTS)%nat;
  ac_hand : (count is_hand_over l ≤ match ph_slot p with NoSlot | Chosen | HeldSlot _ => 0 | _ => 1 end)%nat;
  ac_slot : slot_account (ph_slot p) l;
  ac_clear : ∃ l0, l = l0 ++ open_fences (ph_clear p);
}.

Lemma slot_account_other s l e :
  (∀ x, e ≠ EvReserve x true) → slot_account s l → slot_account s (l ++ [e]).
Proof.
  intros He Hs.
  assert (∀ x, EvReserve x true ∈ l ++ [e] → EvReserve x true ∈ l) as Hin.
  { intros x [Hx|Hx%list_elem_of_singleton]%elem_of_app; [done|]. by destruct (He x). }
  assert (∀ x, x ∈ l → x ∈ l ++ [e]) as Hback by (intros; apply elem_of_app; by left).
  destruct s as [| |e'|e'|]; simpl in *.
  - intros x Hx. by apply (Hs x), Hin.
  - intros x Hx. by apply (Hs x), Hin.
  - destruct Hs as [? Hu]. split; [by apply Hback|]. intros x Hx. by apply Hu, Hin.
  - destruct Hs as (? & Hu & route & ?). split; [by apply Hback|]. split; [intros x Hx; by apply Hu, Hin|]. exists route. by apply Hback.
  - intros x Hx. destruct (Hs x) as [reason ?]; [by apply Hin|]. exists reason. by apply Hback.
Qed.

Lemma fences_reset l e : ∃ l0, l ++ [e] = l0 ++ open_fences 0.
Proof. exists (l ++ [e]). by rewrite app_nil_r. Qed.

(** The clauses an event leaves alone. *)
Ltac account_for :=
  constructor; rewrite ?count_snoc; simpl in *;
  repeat match goal with
         | Hx : ph_open ?p = _ |- context [ph_open ?p] => rewrite Hx
         | Hx : ph_slot ?p = _ |- context [ph_slot ?p] => rewrite Hx
         end; rewrite ?Nat.add_0_r; try lia; try done;
  try (apply slot_account_other; [done|done]); try apply fences_reset;
  try (rewrite existsb_app; simpl; intros; first [by rewrite orb_true_r|apply orb_true_iff; left; auto]).

Lemma accounts_step opportunity_id l p e p' :
  trace_accounts l p → protocol opportunity_id p e = Some p' → trace_accounts (l ++ [e]) p'.
Proof.
  intros [Hpaid Hmax Hjudge Hshadow Hcalls Hacts Hdr Hdmax Hhand Hslot Hclear] Hp. destruct e; simpl in Hp.
  - destruct (_ || _) eqn:Hg; [done|]. apply orb_false_iff in Hg as [_ Hopen]. destruct (ph_open p) eqn:Ho; [done|].
    destruct charged; simpl in Hp; [|simplify_eq; account_for].
    destruct (_ <? _)%nat eqn:Hlt; simplify_eq. apply Nat.ltb_lt in Hlt. account_for. destruct (ph_paid p); simpl in *; lia.
  - destruct (ph_open p) as [[id' []]|] eqn:Ho; try done. destruct (_ =?s _); simplify_eq. account_for.
  - destruct (ph_open p) as [[id' b]|] eqn:Ho; [|done]. destruct (_ =?s _); simplify_eq. account_for.
  - destruct (ph_slot p) eqn:Hs; try done. destruct (ph_open p) eqn:Ho; [done|]. simplify_eq.
    destruct granted; account_for.
    + split; [apply elem_of_app; right; by constructor|].
      intros x [Hx|Hx%list_elem_of_singleton]%elem_of_app; [by destruct (Hslot x)|congruence].
    + intros x [Hx|Hx%list_elem_of_singleton]%elem_of_app; [by destruct (Hslot x)|done].
  - assert (∀ e', ph_slot p = HeldSlot e' ∨ ph_slot p = HandedOver e' → ∀ e, EvReserve e true ∈ l → e = e') as Hall.
    { intros e' [Hs|Hs]; rewrite Hs in Hslot; [apply Hslot|]. by destruct Hslot as (_ & ? & _). }
    destruct (ph_slot p) as [| |e'|e'|] eqn:Hs; try done; (destruct (ph_open p) eqn:Ho; [done|]);
      destruct (effect_id =?s e') eqn:He; simplify_eq; apply String.eqb_eq in He as ->; account_for;
      intros x [Hx|Hx%list_elem_of_singleton]%elem_of_app; try done;
      exists reason; apply elem_of_app; right; apply list_elem_of_singleton; f_equal; apply Hall; auto.
  - simplify_eq. account_for. destruct active; [apply fences_reset|by exists l].
  - simplify_eq. account_for. destruct paused; simpl; [apply fences_reset|].
    destruct (ph_clear p =? 1)%nat eqn:Hc; [|apply fences_reset]. apply Nat.eqb_eq in Hc. rewrite Hc in Hclear.
    destruct Hclear as [l0 ->]. exists l0. by rewrite <- app_assoc.
  - simplify_eq. account_for. destruct allowed; simpl; [|apply fences_reset].
    destruct (ph_clear p =? 2)%nat eqn:Hc; [|apply fences_reset]. apply Nat.eqb_eq in Hc. rewrite Hc in Hclear.
    destruct Hclear as [l0 ->]. exists l0. by rewrite <- app_assoc.
  - destruct (ph_slot p) eqn:Hs; try done. destruct (ph_open p) eqn:Ho; [done|]. destruct (_ <? _)%nat eqn:Hlt; simplify_eq.
    apply Nat.ltb_lt in Hlt. account_for. by apply (slot_account_other (HeldSlot effect_id)).
  - destruct (ph_slot p) as [| |e'| |] eqn:Hs; try done. destruct (ph_open p) eqn:Ho; [done|]. destruct (_ && _) eqn:Hg; simplify_eq.
    apply andb_true_iff in Hg as [He _]. apply String.eqb_eq in He as ->. account_for.
    destruct Hslot as [Hin Hu]. split; [apply elem_of_app; by left|]. split.
    + intros x [Hx|Hx%list_elem_of_singleton]%elem_of_app; [by apply Hu|done].
    + exists route. apply elem_of_app. right. by constructor.
  - destruct (ph_slot p) eqn:Hs; try done; (destruct (ph_open p) eqn:Ho; [done|]).
    + destruct (_ <? _)%nat; simplify_eq. account_for. by apply (slot_account_other Chosen).
    + simplify_eq. account_for. by apply (slot_account_other (HeldSlot effect_id)).
  - destruct (ph_open p) as [[id []]|] eqn:Ho; try done. destruct (ph_paid p =? 1)%nat eqn:H1; simplify_eq. apply Nat.eqb_eq in H1.
    rewrite H1 in *. account_for.
  - done.
Qed.

Lemma accounts_start : trace_accounts [] start_phase.
Proof.
  constructor; simpl; try done; try lia; try (unfold MAX_PAID, MAX_DRAFTS; lia); [|by exists []].
  intros e He. by apply not_elem_of_nil in He.
Qed.

Lemma accounts_follow opportunity_id l : ∀ p, follows opportunity_id start_phase l = Some p → trace_accounts l p.
Proof.
  induction l as [|e l IH] using rev_ind; intros p Hp; [simpl in Hp; simplify_eq; apply accounts_start|].
  rewrite follows_app in Hp. destruct (follows opportunity_id start_phase l) as [p1|] eqn:H1; [|done]. simpl in Hp.
  destruct (protocol opportunity_id p1 e) as [p2|] eqn:H2; simplify_eq. eapply accounts_step; [by apply IH|exact H2].
Qed.

(** ** One evaluation *)

Section Guarantees.
Context `{Sha256} (casefold : string → string) (env : runtime_env) (o : ParticipationOpportunity).

(** The trace of an evaluation from a ledger and a number of past calls. *)
Definition run_trace (l : ledger) (tick : nat) : list rt_event :=
  pt_trace (evaluate_participation casefold env o (MkRuntimeWorld l tick [])).2.

(** Whether the evaluation ended by itself, and not by the history's pause or an error. *)
Definition completed (l : ledger) (tick : nat) : bool :=
  match (participate casefold env o (MkRuntimeWorld l tick [])).1 with Ok _ => true | Raise _ => false end.

Lemma participate_follows l tick :
  ∃ p, follows (op_id o) start_phase (run_trace l tick) = Some p ∧ trace_accounts (run_trace l tick) p ∧ (completed l tick = true → nothing_open p).
Proof.
  destruct (participate_spec casefold env (op_id o) o eq_refl (MkRuntimeWorld l tick []) start_phase) as (p & Hp & Hq); [done|done|].
  exists p. unfold run_trace, completed. rewrite trace_of_participate. split; [exact Hp|]. split; [eapply accounts_follow, Hp|].
  by destruct (participate casefold env o (MkRuntimeWorld l tick [])).1.
Qed.

(** C6: Whatever the collaborators answer and whatever other tasks do to the ledger meanwhile,
    one evaluation implements the abstract protocol: every event it causes is one the machine
    allows next - attempts carry the next number and are paid only when none is open, a slot
    is reserved at most once and only after a paid attempt, drafts and the hand-over need the
    held slot, a release is of the slot that is held - and an evaluation that ends by itself
    leaves no attempt without outcome and no slot neither handed over nor released. *)
Theorem evaluation_follows_protocol l tick :
  ∃ p, follows (op_id o) start_phase (run_trace l tick) = Some p ∧ (completed l tick = true → nothing_open p).
Proof. destruct (participate_follows l tick) as (p & Hp & _ & Hs). by exists p. Qed.

(** The trace with the tasks of the group-notes shadow the evaluation started. *)
Definition full_trace (l : ledger) (tick : nat) : list rt_event :=
  pt_trace (evaluate_with_shadows casefold env o (MkRuntimeWorld l tick [])).2.

(** One task asks the judge at most once and does nothing else that matters outside. *)
Lemma shadow_task_trace t w :
  ∃ calls, pt_trace (run_group_notes_shadow casefold env t w).2 = pt_trace w ++ calls ∧ (calls = [] ∨ calls = [EvShadowCall]).
Proof.
  assert (∀ A (m : rprog A), Mute m → ∀ w1, pt_trace (m w1).2 = pt_trace w1) as Hm by (intros A m Hx w1; apply Hx).
  unfold run_group_notes_shadow. cbv zeta. destruct (re_judge env) as [judge|].
  - unfold pbind at 1 2. cbn [log]. unfold await at 1.
    lazymatch goal with |- context [pt_trace (?m ?w1).2] => exists [EvShadowCall]; split; [|by right]; rewrite (Hm _ m); [done|] end.
    solve_mute.
  - unfold pbind at 1. cbn [pret].
    lazymatch goal with |- context [pt_trace (?m ?w1).2] => exists []; split; [|by left]; rewrite (Hm _ m); [by rewrite app_nil_r|] end.
    solve_mute.
Qed.
Lemma run_shadows_trace tasks w :
  ∃ n, (n ≤ length tasks)%nat ∧ pt_trace (run_shadows casefold env tasks w) = pt_trace w ++ repeat EvShadowCall n.
Proof.
  revert w. induction tasks as [|t tasks IH]; intros w; simpl; [exists 0%nat; by rewrite app_nil_r|].
  destruct (IH (run_group_notes_shadow casefold env t w).2) as (n & Hn & ->). destruct (shadow_task_trace t w) as (calls & -> & [->| ->]).
  - exists n. rewrite app_nil_r. split; [lia|done].
  - exists (S n). rewrite <- app_assoc. split; [lia|done].
Qed.

Lemma count_repeat f e n : count f (repeat e n) = (if f e then n else 0)%nat.
Proof. induction n as [|n IH]; [by destruct (f e)|]. change (repeat e (S n)) with ([e] ++ repeat e n). rewrite count_app, IH. unfold count. simpl. by destruct (f e). Qed.

Lemma shadow_tasks_count l : length (shadow_tasks l) = count is_shadow l.
Proof. induction l as [|e l IH]; [done|]. unfold count in *. destruct e; simpl; rewrite ?IH; done. Qed.

(** The trace of the evaluation, and after it one call for each task at most. *)
Lemma full_trace_calls l tick :
  ∃ n, (n ≤ count is_shadow (run_trace l tick))%nat ∧ full_trace l tick = run_trace l tick ++ repeat EvShadowCall n.
Proof.
  unfold full_trace, run_trace, evaluate_with_shadows. destruct (evaluate_participation casefold env o (MkRuntimeWorld l tick [])) as [r w].
  cbn [fst snd pt_trace length]. rewrite drop_0, <- shadow_tasks_count. apply run_shadows_trace.
Qed.

(** Every decision carried out passed its check, and tasks are started only with a recorder. *)
Definition sound_event (e : rt_event) : Prop :=
  match e with
  | EvActsOn o' d inputs context =>
      validate_decision casefold d o' inputs context = Ok tt ∧ pn_action d ≠ "silence"
      ∧ ∃ judge, re_judge env = Some judge ∧ answers judge o' d
  | EvShadow _ => is_some (re_group_notes env) = true
  | _ => True
  end.
#[local] Instance sound_looks : Looks sound_event.
Proof. by constructor. Qed.
#[local] Instance sound_acts : Acts sound_event.
Proof. by constructor. Qed.

Lemma run_trace_sound l tick : Forall sound_event (run_trace l tick).
Proof.
  unfold run_trace. rewrite trace_of_participate. by apply (participate_only casefold env sound_event o).
Qed.

(** C10: One evaluation is bounded, the group-notes shadow it starts included: the live judge is
    called at most once for each paid attempt, at most three attempts are paid (the first and
    two re-evaluations), the writer is asked for at most two drafts, and at most one effect is
    handed over - however often the context changes meanwhile. Beside that the judge is asked
    at most once more, unpaid, by the task that compares the first decision with the one under
    group notes; not at all without a recorder for it or without a paid attempt. *)
Theorem evaluation_bounded l tick :
  let full := full_trace l tick in
  (count is_judge full ≤ count is_paid full)%nat ∧ (count is_paid full ≤ 3)%nat
  ∧ (count is_draft full ≤ 2)%nat ∧ (count is_hand_over full ≤ 1)%nat
  ∧ (count is_shadow_call full ≤ Nat.min 1 (count is_paid full))%nat
  ∧ (re_group_notes env = None → count is_shadow_call full = 0%nat).
Proof.
  cbv zeta. destruct (full_trace_calls l tick) as (n & Hn & ->).
  destruct (participate_follows l tick) as (p & _ & [Hpaid Hmax Hjudge Hshadow Hcalls _ Hdr Hdmax Hhand _ _] & _).
  unfold MAX_PAID, MAX_DRAFTS in *. rewrite !count_app, !count_repeat. cbn [is_judge is_paid is_draft is_hand_over is_shadow_call].
  rewrite Hpaid, Hdr, Hcalls. split_and!; try lia; [destruct (ph_slot p); lia|].
  intros Hnone. assert (count is_shadow (run_trace l tick) = 0%nat) as H0; [|lia].
  pose proof (run_trace_sound l tick) as Hs. clear -Hs Hnone. unfold count. induction Hs as [|e l' He _ IH]; [done|].
  destruct e; try exact IH. unfold sound_event in He. rewrite Hnone in He. done.
Qed.

(** C9: Only a decision that passed its check is carried out. Whenever an evaluation goes on to
    carry a decision out - the first one, the one it took up again under the history of a
    second turn, or the one of a re-evaluation -, the decision is what the judge of the runtime
    answered when it was asked about this opportunity, it is not silence, and it is valid for
    the opportunity on the inputs and the context it goes on with. And nothing is reserved,
    drafted or handed over before a decision is carried out. *)
Theorem executed_decision_checked l tick :
  (∀ o' d inputs context, EvActsOn o' d inputs context ∈ run_trace l tick →
     validate_decision casefold d o' inputs context = Ok tt ∧ pn_action d ≠ "silence"
     ∧ ∃ judge, re_judge env = Some judge ∧ answers judge o' d)
  ∧ (∀ l1 e l2, run_trace l tick = l1 ++ e :: l2 → is_reserve e || is_draft e || is_hand_over e = true → existsb is_acts l1 = true).
Proof.
  split.
  - intros o' d inputs context Hin. pose proof (run_trace_sound l tick) as Hs. rewrite Forall_forall in Hs. exact (Hs _ Hin).
  - intros l1 e l2 Htrace He. destruct (participate_follows l tick) as (p & Hp & _ & _). rewrite Htrace, follows_app in Hp.
    destruct (follows (op_id o) start_phase l1) as [p1|] eqn:H1; [|done]. destruct (accounts_follow _ _ _ H1) as [_ _ _ _ _ Hacts _ _ _ _ _].
    apply Hacts. intros Hslot. simpl in Hp. destruct e; try done; simpl in Hp; by rewrite Hslot in Hp.
Qed.

(** C7: Nothing goes out unfenced or twice: whenever an evaluation hands an effect over, the
    last thing it did was to find no direct request - and for a comment, sent or queued for
    approval, no pause and the sources still allowed, in that order, with nothing in between;
    the effect has a granted reservation of this evaluation, and it is the only hand-over. *)
Theorem hand_over_guarded l tick l1 route effect l2 :
  run_trace l tick = l1 ++ EvHandOver route effect :: l2 →
  (∃ l0, l1 = l0 ++ open_fences (fences_of route)) ∧ EvReserve effect true ∈ l1 ∧ count is_hand_over l1 = 0%nat ∧ count is_hand_over l2 = 0%nat.
Proof.
  intros Htrace. destruct (participate_follows l tick) as (p & Hp & [_ _ _ _ _ _ _ _ Hhand _ _] & _).
  rewrite Htrace in Hp, Hhand. rewrite follows_app in Hp.
  destruct (follows (op_id o) start_phase l1) as [p1|] eqn:H1; [|done]. destruct (accounts_follow _ _ _ H1) as [_ _ _ _ _ _ _ _ _ Hslot Hclear].
  simpl in Hp. destruct (ph_slot p1) as [| |e'| |]; try done. destruct (ph_open p1); [done|].
  destruct (_ && _) eqn:Hg; [|done]. apply andb_true_iff in Hg as [He Hn]. apply String.eqb_eq in He as ->. apply Nat.eqb_eq in Hn as <-.
  rewrite count_app in Hhand. change (EvHandOver route e' :: l2) with ([EvHandOver route e'] ++ l2) in Hhand. rewrite count_app in Hhand.
  change (count is_hand_over [EvHandOver route e']) with 1%nat in Hhand. split; [done|]. split; [apply Hslot|].
  destruct (ph_slot p); lia.
Qed.

End Guarantees.

(** ** Examples *)

#[local] Existing Instance plain_sha256.

(** Alice's exchange goes on: the judge is asked once, one draft, one hand-over. *)
Definition group_trace : list rt_event := Eval vm_compute in run_trace py_lower group_env asked_on (empty_ledger 0) 0.
Definition comment_effect : string := Eval vm_compute in effect_of asked_on "comment".

Example group_trace_ends :
  drop 21 group_trace = [EvDirect false; EvPaused false; EvSource true; EvHandOver ToSubmission comment_effect]
  ∧ completed py_lower group_env asked_on (empty_ledger 0) 0 = true.
Proof. split; by vm_compute. Qed.

Lemma hand_over_guarded_witness :
  run_trace py_lower group_env asked_on (empty_ledger 0) 0 = take 24 group_trace ++ [EvHandOver ToSubmission comment_effect]
  ∧ (∃ l0, take 24 group_trace = l0 ++ open_fences (fences_of ToSubmission)) ∧ EvReserve comment_effect true ∈ take 24 group_trace
  ∧ count is_hand_over (take 24 group_trace) = 0%nat ∧ count is_hand_over [] = 0%nat.
Proof.
  assert (run_trace py_lower group_env asked_on (empty_ledger 0) 0 = take 24 group_trace ++ EvHandOver ToSubmission comment_effect :: []) as Ht
    by by vm_compute.
  split; [exact Ht|]. exact (hand_over_guarded py_lower group_env asked_on (empty_ledger 0) 0 (take 24 group_trace) ToSubmission comment_effect [] Ht).
Defined.

(** The decision is carried out before its slot is reserved. *)
Example group_trace_acts : existsb is_acts (take 13 group_trace) = true ∧ existsb is_reserve (take 13 group_trace) = false.
Proof. split; by vm_compute. Qed.

(** With a note to compare: one live call, which is paid, and one of the task, which is not. *)
Example compared_trace_counts :
  let l := full_trace py_lower notes_env asked_on (empty_ledger 0) 0 in
  (count is_paid l, count is_judge l, count is_shadow_call l, count is_draft l, count is_hand_over l) = (1, 1, 1, 1, 1)%nat.
Proof. by vm_compute. Qed.

(** The context moves once: a second paid attempt, one draft, one hand-over. *)
Example moved_trace_counts :
  let l := run_trace py_lower moving_env asked_on (empty_ledger 0) 0 in
  (count is_paid l, count is_judge l, count is_draft l, count is_hand_over l) = (2, 2, 1, 1)%nat.
Proof. by vm_compute. Qed.

(** A source taken back while the comment waits: the rebuilt context is refused, the answer is
    a skip like any other, and the slot stays reserved until its lease ends. *)
Theorem refused_rebuild_keeps_slot :
  let r := evaluate_participation py_lower withdrawn_env asked_on quiet_world in
  r.1 = Ok (status_reason "skipped" "source_unavailable")
  ∧ EvReserve comment_effect true ∈ pt_trace r.2
  ∧ forallb (λ e, match e with EvRelease _ _ | EvHandOver _ _ => false | _ => true end) (pt_trace r.2) = true.
Proof.
  split; [by vm_compute|]. split; [|by vm_compute]. apply list_elem_of_lookup. exists 13%nat. by vm_compute.
Qed.

(** After the only comment of the hour, with a reaction left: the budgets offer silence and a
    reaction, and the continuation puts the comment back, for which the judge is then paid. *)
Definition after_comment : runtime_world := Eval vm_compute in
  (evaluate_participation py_lower group_env asked_on quiet_world).2 <| pt_trace := [] |>.
Definition asked_again : ParticipationOpportunity := asked_on <| op_id := "o2" |>.

Theorem spent_comment_offered_again :
  (di_allowed_actions <$> (let r := (decision_inputs spent_env asked_again spent_snapshot after_comment).1 in
                           match r with Ok i => Some i | Raise _ => None end)) = Some ["silence"; "react"]
  ∧ match (prepare_decision py_lower spent_env asked_again after_comment).1 with
    | Ok (inr (_, inputs, _)) => di_allowed_actions inputs = ["silence"; "react"; "comment"]
    | _ => False
    end
  ∧ (evaluate_participation py_lower spent_env asked_again after_comment).1
    = Ok (status_reason "comment_skipped" "comment_budget_exhausted").
Proof. split; [by vm_compute|]. split; by vm_compute. Qed.

(** A trend card without text is not reported under its own reason. *)
Theorem missing_card_is_provider_error env s o d context w :
  is_trend_source (pn_target_message_id d) = true → dict_get "trend_posts" context = None →
  draft env s o d context w = (Raise (OtherError "ParticipationDraftError" "provider_error"), w).
Proof. intros Ht Hc. unfold draft. by rewrite Ht, Hc. Qed.
