(* ===== verification/Cron.v ===== *)
(** * Cron

    [CronService] of [cron/service.py] with the types of [cron/types.py]: the jobs and
    their file, the timer, the execution of due jobs with its suspension points, and the
    public operations; [cron/workflow_chain.py] and [cron/workflow_state.py] beside it.

    Jobs are mutable objects that the list of the store, a tick and a manual run share, so
    the state keeps a heap of jobs and the store lists references into it. croniter is the
    parameter [next_cron]. Session files and log lines are left out. *)

From Stdlib Require Import ZArith Lia Ascii.
From S2P Require Import Prelude Tables Json ThreadStore Receipts PolicyEngine Signals Judge JudgeGuard Projection Continuation.

(** ** Types *)

Record CronSchedule := MkCronSchedule {
  cs_kind : string;
  cs_at_ms : option Z;
  cs_every_ms : option Z;
  cs_expr : option string;
  cs_tz : option string;
}.

Record CronPayload := MkCronPayload {
  cp_kind : string;
  cp_message : string;
  cp_deliver : bool;
  cp_channel : option string;
  cp_to : option string;
  cp_voice_messages : list string;
  cp_voice_random : bool;
  cp_voice_group : option string;
  cp_voice_chat_id : option string;
  cp_voice_channel : option string;
  cp_voice_name : option string;
  cp_voice_tts_route : option string;
  cp_voice_verbatim : bool;
  cp_voice_max_sentences : option Z;
  cp_voice_max_chars : option Z;
  cp_voice_wait_for_quiet : bool;
  cp_voice_quiet_minutes : option Z;
  cp_voice_retry_minutes : option Z;
  cp_voice_window_end : option string;
  cp_voice_generate : bool;
  cp_voice_prompt : option string;
  cp_voice_recent_messages : list string;
  cp_model_profile : option string;
  cp_next_job_id : option string;
  cp_requires_approval : bool;
  cp_approval_channel : option string;
  cp_input_from_previous : bool;
  cp_workflow_id : option string;
  cp_workflow_step : Z;
  cp_max_chain_depth : Z;
  cp_created_by : option string;
  cp_source_chat : option string;
}.

Record CronJobState := MkCronJobState {
  ct_next_run_at_ms : option Z;
  ct_last_run_at_ms : option Z;
  ct_last_status : option string;
  ct_last_error : option string;
  ct_consecutive_failures : Z;
  ct_failure_alerted_at_ms : option Z;
}.
#[export] Instance eta_cron_job_state : Updatable CronJobState :=
  λ s, MkCronJobState (ct_next_run_at_ms s) (ct_last_run_at_ms s) (ct_last_status s) (ct_last_error s)
         (ct_consecutive_failures s) (ct_failure_alerted_at_ms s).

Record CronJob := MkCronJob {
  cj_id : string;
  cj_name : string;
  cj_enabled : bool;
  cj_schedule : CronSchedule;
  cj_payload : CronPayload;
  cj_state : CronJobState;
  cj_created_at_ms : Z;
  cj_updated_at_ms : Z;
  cj_delete_after_run : bool;
}.
#[export] Instance eta_cron_job : Updatable CronJob :=
  λ j, MkCronJob (cj_id j) (cj_name j) (cj_enabled j) (cj_schedule j) (cj_payload j) (cj_state j)
         (cj_created_at_ms j) (cj_updated_at_ms j) (cj_delete_after_run j).

(** ** The file *)

(** The code takes most values of the file as they are. Values of another type than the
    dataclasses declare are outside this model. *)
Definition OutsideModel : py_error := OtherError "OutsideModel" "".
Definition is_outside (e : py_error) : bool := match e with OtherError ty _ => ty =?s "OutsideModel" | _ => false end.
Definition KeyError (key : string) : py_error := OtherError "KeyError" key.
Definition AttributeError (name : string) : py_error := OtherError "AttributeError" name.

(** [d[k]] and [d.get(k, otherwise)] *)
Definition item_of (k : string) (v : json) : result json :=
  match v with
  | JObj d => match dict_get k d with Some x => Ok x | None => Raise (KeyError k) end
  | _ => Raise (TypeError "indices must be integers")
  end.
Definition member_or (k : string) (otherwise v : json) : result json :=
  match v with JObj d => Ok (default otherwise (dict_get k d)) | _ => Raise (AttributeError "get") end.

Definition read_str (v : json) : result string := match v with JStr s => Ok s | _ => Raise OutsideModel end.
Definition read_flag (v : json) : result bool := match v with JBool b => Ok b | _ => Raise OutsideModel end.
Definition read_num (v : json) : result Z := match v with JInt z => Ok z | _ => Raise OutsideModel end.
Definition read_opt_str (v : json) : result (option string) :=
  match v with JNull => Ok None | JStr s => Ok (Some s) | _ => Raise OutsideModel end.
Definition read_opt_num (v : json) : result (option Z) :=
  match v with JNull => Ok None | JInt z => Ok (Some z) | _ => Raise OutsideModel end.
(** [list(v or [])] *)
Definition read_strs (v : json) : result (list string) :=
  if truthy v then let! items := iterate v in map_result read_str items else Ok [].

Definition get_str (k : string) (v : json) (otherwise : string) : result string := let! x := member_or k (JStr otherwise) v in read_str x.
Definition get_opt_str (k : string) (v : json) : result (option string) := let! x := member_or k JNull v in read_opt_str x.
Definition get_opt_num (k : string) (v : json) : result (option Z) := let! x := member_or k JNull v in read_opt_num x.
Definition get_num (k : string) (v : json) (otherwise : Z) : result Z := let! x := member_or k (JInt otherwise) v in read_num x.
Definition get_flag (k : string) (v : json) (otherwise : bool) : result bool := let! x := member_or k (JBool otherwise) v in read_flag x.
(** [bool(d.get(k, otherwise))], [list(d.get(k, []) or [])], [int(d.get(k, otherwise))] *)
Definition get_bool (k : string) (v : json) (otherwise : bool) : result bool := let! x := member_or k (JBool otherwise) v in Ok (truthy x).
Definition get_strs (k : string) (v : json) : result (list string) := let! x := member_or k (JArr []) v in read_strs x.
Definition get_int (k : string) (v : json) (otherwise : Z) : result Z := let! x := member_or k (JInt otherwise) v in int_of_json x.

Definition load_schedule (v : json) : result CronSchedule :=
  let! kind := item_of "kind" v in
  let! kind := read_str kind in
  let! at_ms := get_opt_num "atMs" v in
  let! every_ms := get_opt_num "everyMs" v in
  let! expr := get_opt_str "expr" v in
  let! tz := get_opt_str "tz" v in
  Ok (MkCronSchedule kind at_ms every_ms expr tz).

Definition load_payload (v : json) : result CronPayload :=
  let! kind := get_str "kind" v "agent_turn" in
  let! message := get_str "message" v "" in
  let! deliver := get_flag "deliver" v false in
  let! channel := get_opt_str "channel" v in
  let! to := get_opt_str "to" v in
  let! voice_messages := get_strs "voiceMessages" v in
  let! voice_random := get_bool "voiceRandom" v false in
  let! voice_group := get_opt_str "voiceGroup" v in
  let! voice_chat_id := get_opt_str "voiceChatId" v in
  let! voice_channel := get_opt_str "voiceChannel" v in
  let! voice_name := get_opt_str "voiceName" v in
  let! voice_tts_route := get_opt_str "voiceTtsRoute" v in
  let! voice_verbatim := get_bool "voiceVerbatim" v true in
  let! voice_max_sentences := get_opt_num "voiceMaxSentences" v in
  let! voice_max_chars := get_opt_num "voiceMaxChars" v in
  let! voice_wait_for_quiet := get_bool "voiceWaitForQuiet" v false in
  let! voice_quiet_minutes := get_opt_num "voiceQuietMinutes" v in
  let! voice_retry_minutes := get_opt_num "voiceRetryMinutes" v in
  let! voice_window_end := get_opt_str "voiceWindowEnd" v in
  let! voice_generate := get_bool "voiceGenerate" v false in
  let! voice_prompt := get_opt_str "voicePrompt" v in
  let! voice_recent_messages := get_strs "voiceRecentMessages" v in
  let! model_profile := get_opt_str "modelProfile" v in
  let! next_job_id := get_opt_str "nextJobId" v in
  let! requires_approval := get_bool "requiresApproval" v false in
  let! approval_channel := get_opt_str "approvalChannel" v in
  let! input_from_previous := get_bool "inputFromPrevious" v false in
  let! workflow_id := get_opt_str "workflowId" v in
  let! workflow_step := get_int "workflowStep" v 0 in
  let! max_chain_depth := get_int "maxChainDepth" v 5 in
  let! created_by := get_opt_str "createdBy" v in
  let! source_chat := get_opt_str "sourceChat" v in
  Ok (MkCronPayload kind message deliver channel to voice_messages voice_random voice_group voice_chat_id voice_channel voice_name
        voice_tts_route voice_verbatim voice_max_sentences voice_max_chars voice_wait_for_quiet voice_quiet_minutes
        voice_retry_minutes voice_window_end voice_generate voice_prompt voice_recent_messages model_profile next_job_id
        requires_approval approval_channel input_from_previous workflow_id workflow_step max_chain_depth created_by source_chat).

Definition load_job_state (v : json) : result CronJobState :=
  let! next_run := get_opt_num "nextRunAtMs" v in
  let! last_run := get_opt_num "lastRunAtMs" v in
  let! last_status := get_opt_str "lastStatus" v in
  let! last_error := get_opt_str "lastError" v in
  let! failures := member_or "consecutiveFailures" JNull v in
  let! failures := if truthy failures then int_of_json failures else Ok 0 in
  let! alerted := get_opt_num "failureAlertedAtMs" v in
  Ok (MkCronJobState next_run last_run last_status last_error failures alerted).

Definition load_job (v : json) : result CronJob :=
  let! id := item_of "id" v in
  let! id := read_str id in
  let! name := item_of "name" v in
  let! name := read_str name in
  let! enabled := get_flag "enabled" v true in
  let! schedule := item_of "schedule" v in
  let! schedule := load_schedule schedule in
  let! payload := item_of "payload" v in
  let! payload := load_payload payload in
  let! state := member_or "state" (JObj []) v in
  let! state := load_job_state state in
  let! created := get_num "createdAtMs" v 0 in
  let! updated := get_num "updatedAtMs" v 0 in
  let! delete_after := get_flag "deleteAfterRun" v false in
  Ok (MkCronJob id name enabled schedule payload state created updated delete_after).

(** The body of the [try] of [_load_store] *)
Definition load_jobs (data : json) : result (list CronJob) :=
  let! jobs := member_or "jobs" (JArr []) data in
  let! items := iterate jobs in
  map_result load_job items.

Definition save_schedule (s : CronSchedule) : json :=
  JObj [("kind", JStr (cs_kind s)); ("atMs", json_int (cs_at_ms s)); ("everyMs", json_int (cs_every_ms s)); ("expr", json_opt (cs_expr s));
        ("tz", json_opt (cs_tz s))].

Definition save_payload (p : CronPayload) : json :=
  JObj [("kind", JStr (cp_kind p)); ("message", JStr (cp_message p)); ("deliver", JBool (cp_deliver p)); ("channel", json_opt (cp_channel p));
        ("to", json_opt (cp_to p)); ("voiceMessages", strings (cp_voice_messages p)); ("voiceRandom", JBool (cp_voice_random p));
        ("voiceGroup", json_opt (cp_voice_group p)); ("voiceChatId", json_opt (cp_voice_chat_id p));
        ("voiceChannel", json_opt (cp_voice_channel p)); ("voiceName", json_opt (cp_voice_name p));
        ("voiceTtsRoute", json_opt (cp_voice_tts_route p)); ("voiceVerbatim", JBool (cp_voice_verbatim p));
        ("voiceMaxSentences", json_int (cp_voice_max_sentences p)); ("voiceMaxChars", json_int (cp_voice_max_chars p));
        ("voiceWaitForQuiet", JBool (cp_voice_wait_for_quiet p)); ("voiceQuietMinutes", json_int (cp_voice_quiet_minutes p));
        ("voiceRetryMinutes", json_int (cp_voice_retry_minutes p)); ("voiceWindowEnd", json_opt (cp_voice_window_end p));
        ("voiceGenerate", JBool (cp_voice_generate p)); ("voicePrompt", json_opt (cp_voice_prompt p));
        ("voiceRecentMessages", strings (cp_voice_recent_messages p)); ("modelProfile", json_opt (cp_model_profile p));
        ("nextJobId", json_opt (cp_next_job_id p)); ("requiresApproval", JBool (cp_requires_approval p));
        ("approvalChannel", json_opt (cp_approval_channel p)); ("inputFromPrevious", JBool (cp_input_from_previous p));
        ("workflowId", json_opt (cp_workflow_id p)); ("workflowStep", JInt (cp_workflow_step p));
        ("maxChainDepth", JInt (cp_max_chain_depth p)); ("createdBy", json_opt (cp_created_by p));
        ("sourceChat", json_opt (cp_source_chat p))].

Definition save_job_state (s : CronJobState) : json :=
  JObj [("nextRunAtMs", json_int (ct_next_run_at_ms s)); ("lastRunAtMs", json_int (ct_last_run_at_ms s));
        ("lastStatus", json_opt (ct_last_status s)); ("lastError", json_opt (ct_last_error s));
        ("consecutiveFailures", JInt (ct_consecutive_failures s)); ("failureAlertedAtMs", json_int (ct_failure_alerted_at_ms s))].

Definition save_job (j : CronJob) : json :=
  JObj [("id", JStr (cj_id j)); ("name", JStr (cj_name j)); ("enabled", JBool (cj_enabled j)); ("schedule", save_schedule (cj_schedule j));
        ("payload", save_payload (cj_payload j)); ("state", save_job_state (cj_state j)); ("createdAtMs", JInt (cj_created_at_ms j));
        ("updatedAtMs", JInt (cj_updated_at_ms j)); ("deleteAfterRun", JBool (cj_delete_after_run j))].

(** The document [_save_store] writes *)
Definition save_data (jobs : list CronJob) : json := JObj [("version", JInt 1); ("jobs", JArr (map save_job jobs))].

(** ** The service *)

(** One execution of a job by a tick or a manual run: suspended in the job, or in the alert
    that follows it. *)
Record flight := MkFlight {
  fl_job : nat;
  fl_start_ms : Z;
  fl_alert : option bool;
}.

#[export] Instance eta_flight : Updatable flight := λ f, MkFlight (fl_job f) (fl_start_ms f) (fl_alert f).

(** The timer task: asleep until a time, executing a due job with the others still to come,
    or past the jobs and waiting for the expired approvals. *)
Inductive cron_timer :=
| NoTimer
| Sleeping (wake_ms : Z)
| Executing (current : flight) (due : list nat)
| Wrapping.

(** What the callbacks see. *)
Inductive cron_event :=
| JobStarted (job : nat) (at_ms : Z)
| JobAlert (job : nat) (recovered : bool) (at_ms : Z).

Record cron_service := MkCronService {
  cr_objects : list CronJob;
  cr_jobs : list nat;
  cr_loaded : bool;
  cr_running : bool;
  cr_timer : cron_timer;
  cr_manual : list flight;
  cr_file : option json;
  cr_events : list cron_event;
}.
#[export] Instance eta_cron_service : Updatable cron_service :=
  λ s, MkCronService (cr_objects s) (cr_jobs s) (cr_loaded s) (cr_running s) (cr_timer s) (cr_manual s) (cr_file s) (cr_events s).

(** How a job ended: [CronJobDeferredError], [CronJobSkippedError], or another exception
    with its [str(e) or type(e).__name__]. *)
Inductive job_outcome :=
| JobOk
| JobDeferred (reason : string) (retry_at_ms : Z)
| JobSkipped (reason : string)
| JobFailed (printed : string).

Definition FAILURE_ALERT_INTERVAL_MS : Z := 24 * 60 * 60 * 1000.
Definition PURGE_GRACE_MS : Z := 7 * 24 * 3600 * 1000.

(** [x and x ...] on an optional time *)
Definition set_time (o : option Z) : option Z := match o with Some z => if z =? 0 then None else Some z | None => None end.

(** [_in_scope] *)
Definition in_cron_scope (chat_id created_by : option string) (j : CronJob) : bool :=
  (cp_kind (cj_payload j) =?s "plain_text")
  && (is_none chat_id || bool_decide (cp_to (cj_payload j) = chat_id))
  && (is_none created_by || bool_decide (cp_created_by (cj_payload j) = created_by)).

Section Service.
Context (next_cron : string → Z → option Z) (alerts : bool).

(** [_compute_next_run] *)
Definition compute_next_run (s : CronSchedule) (now_ms : Z) : option Z :=
  if cs_kind s =?s "at" then match set_time (cs_at_ms s) with Some t => if now_ms <? t then Some t else None | None => None end
  else if cs_kind s =?s "every" then match set_time (cs_every_ms s) with Some d => if d <=? 0 then None else Some (now_ms + d) | None => None end
  else if cs_kind s =?s "cron" then match nonempty (cs_expr s) with Some e => next_cron e now_ms | None => None end
  else None.

(** The jobs of the store. *)
Definition job_at (s : cron_service) (r : nat) : option CronJob := cr_objects s !! r.
Definition stored_jobs (s : cron_service) : list (nat * CronJob) := omap (λ r, (λ j, (r, j)) <$> job_at s r) (cr_jobs s).
Definition set_job (r : nat) (f : CronJob → CronJob) (s : cron_service) : cron_service := s <| cr_objects ::= alter f r |>.
Definition set_state (r : nat) (f : CronJobState → CronJobState) : cron_service → cron_service := set_job r (λ j, j <| cj_state ::= f |>).
Definition keep_jobs (keep : CronJob → bool) (s : cron_service) : cron_service :=
  s <| cr_jobs := List.filter (λ r, match job_at s r with Some j => keep j | None => false end) (cr_jobs s) |>.

(** [_save_store] *)
Definition save_store (s : cron_service) : cron_service :=
  if cr_loaded s then s <| cr_file := Some (save_data (map snd (stored_jobs s))) |> else s.

(** [_load_store] *)
Definition load_store (s : cron_service) : result cron_service :=
  if cr_loaded s then Ok s else
  let! jobs := match cr_file s with
               | None => Ok []
               | Some data => match load_jobs data with Raise e => if is_outside e then Raise e else Ok [] | r => r end
               end in
  Ok (s <| cr_loaded := true |> <| cr_jobs := seq (length (cr_objects s)) (length jobs) |> <| cr_objects ::= (λ l, l ++ jobs) |>).

(** [_get_next_wake_ms] *)
Definition next_run_of (j : CronJob) : option Z := if cj_enabled j then set_time (ct_next_run_at_ms (cj_state j)) else None.
Definition next_wake (s : cron_service) : option Z :=
  foldr (λ p m, match next_run_of p.2, m with Some a, Some b => Some (Z.min a b) | Some a, None => Some a | None, m => m end) None (stored_jobs s).

(** [_arm_timer]: the old task is cancelled wherever it is *)
Definition arm_timer (now_ms : Z) (s : cron_service) : cron_service :=
  s <| cr_timer := match set_time (next_wake s) with
                   | Some w => if cr_running s then Sleeping (Z.max now_ms w) else NoTimer
                   | None => NoTimer
                   end |>.

(** [_purge_stale_jobs] *)
Definition is_stale (now_ms : Z) (j : CronJob) : bool :=
  (cs_kind (cj_schedule j) =?s "at")
  && ((negb (cj_enabled j) && is_some (set_time (ct_last_run_at_ms (cj_state j))))
      || (cj_enabled j
          && match set_time (cs_at_ms (cj_schedule j)) with Some t => t <? now_ms - PURGE_GRACE_MS | None => false end
          && is_none (set_time (ct_last_run_at_ms (cj_state j))))).
Definition purge_stale_jobs (now_ms : Z) (s : cron_service) : cron_service :=
  let ids := map (λ p : nat * CronJob, cj_id p.2) (List.filter (λ p, is_stale now_ms p.2) (stored_jobs s)) in
  keep_jobs (λ j, negb (str_in (cj_id j) ids)) s.

(** [_recompute_next_runs] *)
Definition recompute_job (now_ms : Z) (j : CronJob) : CronJob :=
  if cj_enabled j then j <| cj_state ::= (λ t, t <| ct_next_run_at_ms := compute_next_run (cj_schedule j) now_ms |>) |> else j.
Definition recompute_next_runs (now_ms : Z) (s : cron_service) : cron_service :=
  foldl (λ s r, set_job r (recompute_job now_ms) s) s (cr_jobs s).

(** [start] and [stop] *)
Definition start_service (now_ms : Z) (s : cron_service) : result cron_service :=
  let! s := load_store (s <| cr_running := true |>) in
  Ok (arm_timer now_ms (save_store (recompute_next_runs now_ms (purge_stale_jobs now_ms s)))).
Definition stop_service (s : cron_service) : cron_service := s <| cr_running := false |> <| cr_timer := NoTimer |>.

(** ** Executing jobs *)

Definition emit (e : cron_event) (s : cron_service) : cron_service := s <| cr_events ::= (λ l, l ++ [e]) |>.

(** The start of [_execute_job] *)
Definition start_job (r : nat) (now_ms : Z) (s : cron_service) : cron_service * flight :=
  (emit (JobStarted r now_ms) s, MkFlight r now_ms None).

(** The end of [_execute_job], after the outcome was noted *)
Definition finish_run (f : flight) (now_ms : Z) (s : cron_service) : cron_service :=
  let r := fl_job f in
  let s := set_job r (λ j, j <| cj_state ::= (λ t, t <| ct_last_run_at_ms := Some (fl_start_ms f) |>) |> <| cj_updated_at_ms := now_ms |>) s in
  match job_at s r with
  | None => s
  | Some j =>
      if cs_kind (cj_schedule j) =?s "at" then
        if cj_delete_after_run j then keep_jobs (λ k, negb (cj_id k =?s cj_id j)) s
        else set_job r (λ j, j <| cj_enabled := false |> <| cj_state ::= (λ t, t <| ct_next_run_at_ms := None |>) |>) s
      else set_state r (λ t, t <| ct_next_run_at_ms := compute_next_run (cj_schedule j) now_ms |>) s
  end.

(** [_alert_failure], when somebody listens: the execution waits for it *)
Definition alert_failure (f : flight) (recovered : bool) (s : cron_service) : cron_service * flight :=
  (emit (JobAlert (fl_job f) recovered (fl_start_ms f)) s, f <| fl_alert := Some recovered |>).

Definition clear_failures (r : nat) : cron_service → cron_service :=
  set_state r (λ t, t <| ct_consecutive_failures := 0 |> <| ct_failure_alerted_at_ms := None |>).

Definition note_status (r : nat) (status : string) (error : option string) : cron_service → cron_service :=
  set_state r (λ t, t <| ct_last_status := Some status |> <| ct_last_error := error |>).

(** The job returned: the state after it, and the execution when it waits for an alert *)
Definition job_returned (f : flight) (o : job_outcome) (now_ms : Z) (s : cron_service) : cron_service * option flight :=
  let r := fl_job f in
  let alerted := match job_at s r with Some j => ct_failure_alerted_at_ms (cj_state j) | None => None end in
  match o with
  | JobOk =>
      let s := note_status r "ok" None s in
      if is_some alerted && alerts then let (s, f) := alert_failure f true s in (s, Some f)
      else (finish_run f now_ms (clear_failures r s), None)
  | JobDeferred reason retry_at_ms =>
      (set_job r (λ j, j <| cj_updated_at_ms := now_ms |> <| cj_state ::= (λ t, t <| ct_last_run_at_ms := Some (fl_start_ms f) |>
                                                                            <| ct_next_run_at_ms := Some retry_at_ms |>) |>)
         (note_status r "skipped" (Some reason) s), None)
  | JobSkipped reason => (finish_run f now_ms (note_status r "skipped" (Some reason) s), None)
  | JobFailed printed =>
      let s := set_state r (λ t, t <| ct_consecutive_failures ::= Z.succ |>) (note_status r "error" (Some printed) s) in
      if match alerted with None => true | Some t => FAILURE_ALERT_INTERVAL_MS <=? fl_start_ms f - t end then
        let s := set_state r (λ t, t <| ct_failure_alerted_at_ms := Some (fl_start_ms f) |>) s in
        if alerts then let (s, f) := alert_failure f false s in (s, Some f) else (finish_run f now_ms s, None)
      else (finish_run f now_ms s, None)
  end.

(** The alert was sent, or failed *)
Definition alert_returned (f : flight) (now_ms : Z) (s : cron_service) : cron_service :=
  finish_run f now_ms (if match fl_alert f with Some true => true | _ => false end then clear_failures (fl_job f) s else s).

(** ** The timer *)

(** [due_jobs] *)
Definition is_due (now_ms : Z) (j : CronJob) : bool := match next_run_of j with Some t => t <=? now_ms | None => false end.
Definition due_jobs (now_ms : Z) (s : cron_service) : list nat := map fst (List.filter (λ p, is_due now_ms p.2) (stored_jobs s)).

Definition next_due (due : list nat) (now_ms : Z) (s : cron_service) : cron_service :=
  match due with
  | [] => s <| cr_timer := Wrapping |>
  | r :: due' => let (s, f) := start_job r now_ms s in s <| cr_timer := Executing f due' |>
  end.

(** The sleep of [tick] ended: [_on_timer] up to the first suspension *)
Definition timer_fires (now_ms : Z) (s : cron_service) : cron_service :=
  match cr_timer s with
  | Sleeping _ => if negb (cr_running s) then s <| cr_timer := NoTimer |> else next_due (due_jobs now_ms s) now_ms s
  | _ => s
  end.

(** The job, or the alert, the tick waits for has ended *)
Definition tick_job_returns (o : job_outcome) (now_ms : Z) (s : cron_service) : cron_service :=
  match cr_timer s with
  | Executing f due =>
      if is_some (fl_alert f) then s else
      match job_returned f o now_ms s with
      | (s, Some f') => s <| cr_timer := Executing f' due |>
      | (s, None) => next_due due now_ms s
      end
  | _ => s
  end.
Definition tick_alert_returns (now_ms : Z) (s : cron_service) : cron_service :=
  match cr_timer s with
  | Executing f due => if is_some (fl_alert f) then next_due due now_ms (alert_returned f now_ms s) else s
  | _ => s
  end.

(** The expired approvals were handled: the end of [_on_timer] *)
Definition tick_wraps (now_ms : Z) (s : cron_service) : cron_service :=
  match cr_timer s with Wrapping => arm_timer now_ms (save_store s) | _ => s end.

(** ** The public operations *)

(** The job with an id, as the loops of the operations find it: the first *)
Definition find_job (id : string) (s : cron_service) : option (nat * CronJob) :=
  List.find (λ p : nat * CronJob, cj_id p.2 =?s id) (stored_jobs s).

(** [get_job] *)
Definition get_cron_job (id : string) (s : cron_service) : option CronJob := snd <$> find_job id s.

(** [list_jobs] *)
Definition run_key_leb (a b : CronJob) : bool :=
  match set_time (ct_next_run_at_ms (cj_state a)), set_time (ct_next_run_at_ms (cj_state b)) with
  | Some x, Some y => x <=? y
  | Some _, None => true
  | None, Some _ => false
  | None, None => true
  end.
Definition list_cron_jobs (include_disabled : bool) (chat_id created_by : option string) (s : cron_service) : list CronJob :=
  let jobs := map snd (stored_jobs s) in
  let jobs := if include_disabled then jobs else List.filter cj_enabled jobs in
  let jobs := if is_some chat_id || is_some created_by then List.filter (in_cron_scope chat_id created_by) jobs else jobs in
  order_by run_key_leb jobs.

Definition append_job (j : CronJob) (now_ms : Z) (s : cron_service) : cron_service :=
  arm_timer now_ms (save_store (s <| cr_jobs ::= (λ l, l ++ [length (cr_objects s)]) |> <| cr_objects ::= (λ l, l ++ [j]) |>)).

Definition plain_payload (kind message : string) (deliver : bool) (channel to model_profile : option string) (created_by source_chat : option string)
    : CronPayload :=
  MkCronPayload kind message deliver channel to [] false None None None None None true None None false None None None false None []
    model_profile None false None false None 0 5 created_by source_chat.

Definition new_job (id name : string) (schedule : CronSchedule) (payload : CronPayload) (delete_after_run : bool) (now_ms : Z) : CronJob :=
  MkCronJob id name true schedule payload (MkCronJobState (compute_next_run schedule now_ms) None None None 0 None) now_ms now_ms delete_after_run.

(** [add_job] *)
Definition add_job (id name : string) (schedule : CronSchedule) (message : string) (deliver : bool) (channel to : option string)
    (delete_after_run : bool) (model_profile : option string) (now_ms : Z) (s : cron_service) : result cron_service :=
  let! s := load_store s in
  Ok (append_job (new_job id name schedule (plain_payload "agent_turn" message deliver channel to model_profile None None) delete_after_run now_ms)
        now_ms s).

(** [add_plain_text_job] *)
Definition add_plain_text_job (id : string) (at_ms : Z) (message channel chat_id created_by : string) (now_ms : Z) (s : cron_service)
    : result cron_service :=
  let! s := load_store s in
  Ok (append_job (new_job id "group reminder" (MkCronSchedule "at" (Some at_ms) None None None)
                    (plain_payload "plain_text" message true (Some channel) (Some chat_id) None (Some created_by) (Some chat_id)) true now_ms)
        now_ms s).

(** [str(x or "").strip() or None] *)
Definition stripped_or_none (o : option string) : option string := nonempty (Some (py_strip (default "" (nonempty o)))).

(** The arguments of [add_voice_job] *)
Record voice_args := MkVoiceArgs {
  va_name : string;
  va_schedule : CronSchedule;
  va_messages : list string;
  va_randomize : bool;
  va_group : option string;
  va_chat_id : option string;
  va_channel : option string;
  va_voice : option string;
  va_tts_route : option string;
  va_verbatim : bool;
  va_max_sentences : option Z;
  va_max_chars : option Z;
  va_wait_for_quiet : bool;
  va_quiet_minutes : option Z;
  va_retry_minutes : option Z;
  va_window_end : option string;
  va_generate : bool;
  va_prompt : option string;
  va_delete_after_run : bool;
}.

(** [add_voice_job] *)
Definition add_voice_job (id : string) (a : voice_args) (now_ms : Z) (s : cron_service) : result cron_service :=
  match List.filter str_true (map py_strip (va_messages a)) with
  | [] => Raise (ValueError "voice job requires at least one non-empty message")
  | m :: ms =>
      if is_none (stripped_or_none (va_group a)) && is_none (stripped_or_none (va_chat_id a))
      then Raise (ValueError "voice job requires either group or chat_id target") else
      let! s := load_store s in
      let payload := MkCronPayload "voice_broadcast" m false None None (m :: ms) (va_randomize a) (stripped_or_none (va_group a))
        (stripped_or_none (va_chat_id a)) (stripped_or_none (va_channel a)) (stripped_or_none (va_voice a))
        (stripped_or_none (va_tts_route a)) (va_verbatim a) (va_max_sentences a) (va_max_chars a) (va_wait_for_quiet a)
        (va_quiet_minutes a) (va_retry_minutes a) (stripped_or_none (va_window_end a)) (va_generate a) (stripped_or_none (va_prompt a))
        [] None None false None false None 0 5 None None in
      Ok (append_job (new_job id (va_name a) (va_schedule a) payload (va_delete_after_run a) now_ms) now_ms s)
  end.

(** [remove_job] *)
Definition removable (id : string) (chat_id created_by : option string) (j : CronJob) : bool :=
  (cj_id j =?s id) && (negb (is_some chat_id || is_some created_by) || in_cron_scope chat_id created_by j).
Definition remove_job (id : string) (chat_id created_by : option string) (now_ms : Z) (s : cron_service) : result (bool * cron_service) :=
  let! s := load_store s in
  let s' := keep_jobs (λ j, negb (removable id chat_id created_by j)) s in
  if (length (cr_jobs s') <? length (cr_jobs s))%nat then Ok (true, arm_timer now_ms (save_store s')) else Ok (false, s').

(** [enable_job] *)
Definition enabled_job (enabled : bool) (now_ms : Z) (j : CronJob) : CronJob :=
  let j := j <| cj_enabled := enabled |> <| cj_updated_at_ms := now_ms |> in
  if enabled
  then j <| cj_state ::= (λ t, t <| ct_consecutive_failures := 0 |> <| ct_failure_alerted_at_ms := None |>
                                 <| ct_next_run_at_ms := compute_next_run (cj_schedule j) now_ms |>) |>
  else j <| cj_state ::= (λ t, t <| ct_next_run_at_ms := None |>) |>.
Definition enable_job (id : string) (enabled : bool) (now_ms : Z) (s : cron_service) : result (bool * cron_service) :=
  let! s := load_store s in
  match find_job id s with
  | None => Ok (false, s)
  | Some (r, _) => Ok (true, arm_timer now_ms (save_store (set_job r (enabled_job enabled now_ms) s)))
  end.

(** [run_job]: up to the job, after it, and after its alert *)
Definition run_job (id : string) (force : bool) (now_ms : Z) (s : cron_service) : result (bool * cron_service) :=
  let! s := load_store s in
  match find_job id s with
  | None => Ok (false, s)
  | Some (r, j) =>
      if negb force && negb (cj_enabled j) then Ok (false, s)
      else let (s, f) := start_job r now_ms s in Ok (true, s <| cr_manual ::= (λ l, l ++ [f]) |>)
  end.
Definition manual_ends (i : nat) (now_ms : Z) (s : cron_service) : cron_service :=
  arm_timer now_ms (save_store (s <| cr_manual ::= delete i |>)).
Definition manual_job_returns (i : nat) (o : job_outcome) (now_ms : Z) (s : cron_service) : cron_service :=
  match cr_manual s !! i with
  | Some f =>
      if is_some (fl_alert f) then s else
      match job_returned f o now_ms s with
      | (s, Some f') => s <| cr_manual ::= <[i := f']> |>
      | (s, None) => manual_ends i now_ms s
      end
  | None => s
  end.
Definition manual_alert_returns (i : nat) (now_ms : Z) (s : cron_service) : cron_service :=
  match cr_manual s !! i with
  | Some f => if is_some (fl_alert f) then manual_ends i now_ms (alert_returned f now_ms s) else s
  | None => s
  end.

(** [status] *)
Definition service_status (s : cron_service) : bool * nat * option Z := (cr_running s, length (cr_jobs s), next_wake s).

End Service.

(** ** One run of the service *)

(** What happens to the service, each with the clock at that moment. *)
Inductive cron_op :=
| OpStart (now_ms : Z)
| OpStop
| OpAdd (id name : string) (schedule : CronSchedule) (message : string) (delete_after_run : bool) (now_ms : Z)
| OpAddPlain (id : string) (at_ms : Z) (message channel chat_id created_by : string) (now_ms : Z)
| OpAddVoice (id : string) (a : voice_args) (now_ms : Z)
| OpRemove (id : string) (chat_id created_by : option string) (now_ms : Z)
| OpEnable (id : string) (enabled : bool) (now_ms : Z)
| OpRun (id : string) (force : bool) (now_ms : Z)
| OpTimer (now_ms : Z)
| OpJobReturns (o : job_outcome) (now_ms : Z)
| OpAlertReturns (now_ms : Z)
| OpWraps (now_ms : Z)
| OpManualReturns (i : nat) (o : job_outcome) (now_ms : Z)
| OpManualAlert (i : nat) (now_ms : Z)
| OpManualCancelled (i : nat).

Section Runs.
Context (next_cron : string → Z → option Z) (alerts : bool).

(** An operation that raises changes nothing. *)
Definition done_or (s : cron_service) (r : result cron_service) : cron_service := match r with Ok s' => s' | Raise _ => s end.

Definition cron_step (op : cron_op) (s : cron_service) : cron_service :=
  match op with
  | OpStart now => done_or s (start_service next_cron now s)
  | OpStop => stop_service s
  | OpAdd id name schedule message once now => done_or s (add_job next_cron id name schedule message false None None once None now s)
  | OpAddPlain id at_ms message channel chat_id created_by now =>
      done_or s (add_plain_text_job next_cron id at_ms message channel chat_id created_by now s)
  | OpAddVoice id a now => done_or s (add_voice_job next_cron id a now s)
  | OpRemove id chat_id created_by now => done_or s (let! r := remove_job id chat_id created_by now s in Ok r.2)
  | OpEnable id enabled now => done_or s (let! r := enable_job next_cron id enabled now s in Ok r.2)
  | OpRun id force now => done_or s (let! r := run_job id force now s in Ok r.2)
  | OpTimer now => timer_fires now s
  | OpJobReturns o now => tick_job_returns next_cron alerts o now s
  | OpAlertReturns now => tick_alert_returns next_cron now s
  | OpWraps now => tick_wraps now s
  | OpManualReturns i o now => manual_job_returns next_cron alerts i o now s
  | OpManualAlert i now => manual_alert_returns next_cron i now s
  | OpManualCancelled i => s <| cr_manual ::= delete i |>
  end.

Definition run_cron (ops : list cron_op) (s : cron_service) : cron_service := foldl (λ s op, cron_step op s) s ops.

End Runs.

(** A new process over a file. *)
Definition fresh_service (file : option json) : cron_service := MkCronService [] [] false false NoTimer [] file [].

(** ** Workflow chains *)

Definition MAX_PREVIOUS_OUTPUT_CHARS : nat := 4000.

(** [build_chained_prompt] *)
Definition build_chained_prompt (previous_output next_message : string) (input_from_previous : bool) : string :=
  if negb input_from_previous then next_message else
  let truncated := first_chars MAX_PREVIOUS_OUTPUT_CHARS previous_output
    +:+ (if (MAX_PREVIOUS_OUTPUT_CHARS <? length (utf8_chars previous_output))%nat then LINE_FEED +:+ "...[truncated]" else "") in
  "[Previous step output]" +:+ LINE_FEED +:+ truncated +:+ LINE_FEED +:+ LINE_FEED +:+ "[Your task]" +:+ LINE_FEED +:+ next_message.

(** [detect_chain_cycle] *)
Fixpoint walk_chain (jobs : string → option CronJob) (steps : nat) (visited : list string) (current : option string) : bool :=
  match steps, nonempty current with
  | S steps', Some id =>
      if str_in id visited then true else
      match jobs id with
      | None => false
      | Some j => walk_chain jobs steps' (visited ++ [id]) (cp_next_job_id (cj_payload j))
      end
  | _, _ => false
  end.
Definition detect_chain_cycle (start_job_id : string) (jobs : string → option CronJob) (max_depth : nat) : bool :=
  walk_chain jobs max_depth [] (Some start_job_id).

(** [is_chain_failure] *)
Definition is_chain_failure (response : option string) : bool :=
  match response with None => true | Some r => String.prefix "Error calling LLM:" r end.

(** ** Pending approvals *)

(** Times are the seconds of [time.time()], in any fixed unit. *)
Record PendingApproval := MkPendingApproval {
  pa_approval_id : string;
  pa_next_job_id : string;
  pa_previous_output : string;
  pa_channel : string;
  pa_chat_id : string;
  pa_created_at : Z;
  pa_expires_at : Z;
  pa_workflow_id : option string;
  pa_remaining_depth : Z;
}.

(** [WorkflowState.add] *)
Definition approval_added (a : PendingApproval) (l : list PendingApproval) : list PendingApproval := l ++ [a].

(** [WorkflowState.match_and_consume] *)
Fixpoint match_and_consume (text : string) (now : Z) (l : list PendingApproval) : option PendingApproval * list PendingApproval :=
  match l with
  | [] => (None, [])
  | a :: l' =>
      if pa_approval_id a =?s text then (if pa_expires_at a <? now then None else Some a, l')
      else let (r, rest) := match_and_consume text now l' in (r, a :: rest)
  end.

(** [WorkflowState.purge_expired] *)
Definition purge_expired (now : Z) (l : list PendingApproval) : list PendingApproval * list PendingApproval :=
  (List.filter (λ a, pa_expires_at a <? now) l, List.filter (λ a, now <=? pa_expires_at a) l).

(** ** Plain-text jobs *)

(** [PlainTextDeliveryError] *)
Definition PlainTextDeliveryError (message : string) : py_error := OtherError "PlainTextDeliveryError" message.

(** What a plain-text job asks of the service: the reference of the operation, the target
    and the text. *)
Record reminder := MkReminder {
  rm_operation_ref : string;
  rm_channel : string;
  rm_chat_id : string;
  rm_content : string;
}.

Definition REMINDER_PREFIX : string := "⏰ ".

(** [plain_text_deliverer] up to the transport *)
Definition plain_text_delivery (j : CronJob) : result reminder :=
  let p := cj_payload j in
  let channel := py_strip (default "" (nonempty (cp_channel p))) in
  let chat_id := py_strip (default "" (nonempty (cp_to p))) in
  if negb (cp_deliver p) || negb (str_true channel) || negb (str_true chat_id)
  then Raise (PlainTextDeliveryError "plain_text job needs an explicit target")
  else if match nonempty (cp_source_chat p) with Some source => negb (source =?s chat_id) | None => false end
  then Raise (PlainTextDeliveryError "plain_text job target differs from its source chat")
  else Ok (MkReminder ("cron:" +:+ cj_id j +:+ ":" +:+ match set_time (ct_next_run_at_ms (cj_state j)) with Some t => py_str (JInt t) | None => "" end)
             channel chat_id (REMINDER_PREFIX +:+ cp_message p)).

(** Its end: the state of the receipt, [None] without one *)
Definition plain_text_outcome (receipt_state : option string) : job_outcome :=
  let state := default "sent" receipt_state in
  if state =?s "sent" then JobOk else JobFailed ("group reminder not delivered: " +:+ state).

(** [failure_alert_label] and [failure_alert_error] *)
Definition failure_alert_label (j : CronJob) : string :=
  if cp_kind (cj_payload j) =?s "plain_text" then "Group reminder " +:+ cj_id j else "Cron job '" +:+ cj_name j +:+ "'".
Definition failure_alert_error (j : CronJob) : option string :=
  if cp_kind (cj_payload j) =?s "plain_text" then None
  else Some (default "unknown error" (nonempty (ct_last_error (cj_state j)))).
