(* ===== verification/CronProps.v ===== *)
(** * CronProps

    What [Cron] promises: the file gives back the jobs, the timer is always set for the next
    due job, a tick runs every due job once and in order, a one-shot job that ran is spent;
    and what an operation during a tick does to it. *)

From Stdlib Require Import ZArith Lia Ascii.
From S2P Require Import Prelude Tables Json ThreadStore Receipts PolicyEngine Signals Judge JudgeGuard Projection Continuation Cron.

(** ** The file *)

Lemma read_opt_str_saved o : read_opt_str (json_opt o) = Ok o.
Proof. by destruct o. Qed.
Lemma read_opt_num_saved o : read_opt_num (json_int o) = Ok o.
Proof. by destruct o. Qed.
Lemma map_result_strings l : map_result read_str (map JStr l) = Ok l.
Proof. induction l as [|x l IH]; simpl; [done|]. by rewrite IH. Qed.
Lemma read_strs_saved l : read_strs (strings l) = Ok l.
Proof. destruct l as [|x l]; [done|]. unfold read_strs, strings. simpl. by rewrite map_result_strings. Qed.
Lemma load_schedule_saved s : load_schedule (save_schedule s) = Ok s.
Proof.
  destruct s as [kind at_ms every_ms expr tz]. unfold load_schedule, save_schedule, get_opt_num, get_opt_str. simpl.
  by rewrite !read_opt_num_saved, !read_opt_str_saved.
Qed.

Lemma load_payload_saved p : load_payload (save_payload p) = Ok p.
Proof.
  destruct p. unfold load_payload, save_payload, get_str, get_flag, get_opt_str, get_opt_num, get_strs, get_bool, get_int.
  cbn -[read_opt_str read_opt_num read_strs json_opt json_int strings].
  rewrite !read_opt_str_saved; cbn -[read_opt_str read_opt_num read_strs json_opt json_int strings].
  repeat (rewrite ?read_opt_str_saved, ?read_opt_num_saved, ?read_strs_saved; cbn -[read_opt_str read_opt_num read_strs json_opt json_int strings]).
  done.
Qed.

Lemma load_job_state_saved s : load_job_state (save_job_state s) = Ok s.
Proof.
  destruct s as [a b c d n f]. unfold load_job_state, save_job_state, get_opt_num, get_opt_str.
  cbn -[read_opt_str read_opt_num json_opt json_int].
  repeat (rewrite ?read_opt_str_saved, ?read_opt_num_saved; cbn -[read_opt_str read_opt_num json_opt json_int]).
  by destruct n.
Qed.

Lemma load_job_saved j : load_job (save_job j) = Ok j.
Proof.
  destruct j. unfold load_job, save_job, get_flag, get_num.
  cbn -[load_schedule load_payload load_job_state save_schedule save_payload save_job_state].
  rewrite load_schedule_saved. cbn -[load_payload load_job_state save_payload save_job_state].
  rewrite load_payload_saved. cbn -[load_job_state save_job_state]. by rewrite load_job_state_saved.
Qed.

(** C37: The file of the jobs loses nothing: what [_save_store] writes loads back to exactly
    the jobs, whatever their schedules, payloads and states hold. *)
Theorem saved_jobs_load jobs : load_jobs (save_data jobs) = Ok jobs.
Proof.
  unfold load_jobs, save_data. simpl. induction jobs as [|j jobs IH]; [done|].
  cbn [map map_result]. rewrite load_job_saved. simpl. by rewrite IH.
Qed.

(** ** The heap of jobs *)

Section Heap.
Context (next_cron : string → Z → option Z) (alerts : bool).

Lemma set_job_at r f s r' : job_at (set_job r f s) r' = if decide (r' = r) then f <$> job_at s r else job_at s r'.
Proof. unfold job_at, set_job. simpl. rewrite list_lookup_alter. by repeat case_decide; subst. Qed.
Lemma set_job_length r f s : length (cr_objects (set_job r f s)) = length (cr_objects s).
Proof. apply length_alter. Qed.

(** What decides the next wake-up: the stored references and their next runs. *)
Definition wake_times (s : cron_service) : list (option Z) := omap (λ r, next_run_of <$> job_at s r) (cr_jobs s).
Definition earlier (a m : option Z) : option Z :=
  match a, m with Some a, Some b => Some (Z.min a b) | Some a, None => Some a | None, m => m end.

Lemma next_wake_times s : next_wake s = foldr earlier None (wake_times s).
Proof.
  unfold next_wake, wake_times, stored_jobs. induction (cr_jobs s) as [|r l IH]; [done|]. csimpl.
  destruct (job_at s r) as [j|]; csimpl; [by rewrite IH|exact IH].
Qed.

Lemma wake_times_ext s s' :
  cr_jobs s' = cr_jobs s → (∀ r, next_run_of <$> job_at s' r = next_run_of <$> job_at s r) → wake_times s' = wake_times s.
Proof.
  intros Hj Hr. unfold wake_times. rewrite Hj. clear Hj. induction (cr_jobs s) as [|r l IH]; [done|]. csimpl. by rewrite Hr, IH.
Qed.

Lemma next_run_nonzero j : next_run_of j ≠ Some 0.
Proof.
  unfold next_run_of, set_time. destruct (cj_enabled j); [|done]. destruct (ct_next_run_at_ms _) as [z|]; [|done].
  destruct (z =? 0) eqn:Hz; [done|]. apply Z.eqb_neq in Hz. congruence.
Qed.

Lemma next_wake_in s m : next_wake s = Some m → Some m ∈ wake_times s.
Proof.
  rewrite next_wake_times. revert m. induction (wake_times s) as [|a l IH]; intros m; [done|]. simpl.
  destruct a as [a|], (foldr earlier None l) as [b|]; simpl; intros [= <-]; try (right; by apply IH); [|left].
  destruct (Z.min_spec a b) as [[_ ->]|[_ ->]]; [left|right; by apply IH].
Qed.

Lemma next_wake_le s t : Some t ∈ wake_times s → ∃ m, next_wake s = Some m ∧ m ≤ t.
Proof.
  rewrite next_wake_times. induction (wake_times s) as [|a l IH]; [by intros ?%not_elem_of_nil|]. simpl.
  intros [<-|Hin]%elem_of_cons.
  - destruct (foldr earlier None l) as [b|]; simpl; eexists; (split; [done|]); lia.
  - destruct (IH Hin) as (m & -> & Hm). destruct a as [a|]; simpl; eexists; (split; [done|]); lia.
Qed.

Lemma wake_times_in s o : o ∈ wake_times s ↔ ∃ r j, r ∈ cr_jobs s ∧ job_at s r = Some j ∧ o = next_run_of j.
Proof.
  unfold wake_times. rewrite list_elem_of_omap. split.
  - intros (r & Hr & Ho). destruct (job_at s r) as [j|] eqn:Hj; simplify_eq/=. by exists r, j.
  - intros (r & j & Hr & Hj & ->). exists r. by rewrite Hj.
Qed.

Lemma next_wake_nonzero s : next_wake s ≠ Some 0.
Proof.
  intros H0. apply next_wake_in, wake_times_in in H0 as (r & j & _ & _ & Hj). by destruct (next_run_nonzero j).
Qed.

Lemma set_wake s : set_time (next_wake s) = next_wake s.
Proof.
  pose proof (next_wake_nonzero s) as Hn. destruct (next_wake s) as [w|]; [|done]. simpl.
  destruct (w =? 0) eqn:Hw; [|done]. apply Z.eqb_eq in Hw. congruence.
Qed.

Lemma stored_in s r j : (r, j) ∈ stored_jobs s ↔ r ∈ cr_jobs s ∧ job_at s r = Some j.
Proof.
  unfold stored_jobs. rewrite list_elem_of_omap. split.
  - intros (r' & Hr & Ho). destruct (job_at s r') eqn:Hj; simplify_eq/=. done.
  - intros [Hr Hj]. exists r. by rewrite Hj.
Qed.

Lemma due_in now s r : r ∈ due_jobs now s ↔ r ∈ cr_jobs s ∧ ∃ j, job_at s r = Some j ∧ is_due now j = true.
Proof.
  unfold due_jobs. rewrite list_elem_of_fmap. split.
  - intros ([r' j] & -> & Hin). apply list_elem_of_In, filter_In in Hin as [Hin%list_elem_of_In Hd]. apply stored_in in Hin as [? ?]. simpl in *.
    split; [done|]. by exists j.
  - intros (Hr & j & Hj & Hd). exists (r, j). split; [done|]. apply list_elem_of_In, filter_In. split; [|done].
    by apply list_elem_of_In, stored_in.
Qed.

Lemma stored_fst_sub s : sublist (map fst (stored_jobs s)) (cr_jobs s).
Proof.
  unfold stored_jobs. induction (cr_jobs s) as [|r l IH]; csimpl; [constructor|].
  destruct (job_at s r); csimpl; by constructor.
Qed.

Lemma filter_fst_sub {A} (f : nat * A → bool) l : sublist (map fst (List.filter f l)) (map fst l).
Proof. induction l as [|x l IH]; simpl; [constructor|]. destruct (f x); simpl; by constructor. Qed.

Lemma due_nodup now s : NoDup (cr_jobs s) → NoDup (due_jobs now s).
Proof. intros Hn. eapply sublist_NoDup; [exact Hn|]. etrans; [apply filter_fst_sub|apply stored_fst_sub]. Qed.

(** ** What an execution touches *)

(** The jobs that were started. *)
Definition starts (s : cron_service) : list nat := omap (λ e, match e with JobStarted r _ => Some r | JobAlert _ _ _ => None end) (cr_events s).

(** A job object later on: the same job, and not enabled by itself. *)
Definition follows_job (j j' : CronJob) : Prop :=
  cj_id j' = cj_id j ∧ cj_schedule j' = cj_schedule j ∧ (cj_enabled j = false → cj_enabled j' = false).

(** The job objects and the list may change; nothing is started, enabled or added, and the
    tasks stay where they are. *)
Record touched (s s' : cron_service) : Prop := {
  tc_timer : cr_timer s' = cr_timer s;
  tc_running : cr_running s' = cr_running s;
  tc_loaded : cr_loaded s' = cr_loaded s;
  tc_manual : cr_manual s' = cr_manual s;
  tc_starts : starts s' = starts s;
  tc_objects : length (cr_objects s') = length (cr_objects s);
  tc_jobs : sublist (cr_jobs s') (cr_jobs s);
  tc_follow : ∀ r j, job_at s r = Some j → ∃ j', job_at s' r = Some j' ∧ follows_job j j';
}.

Lemma follows_refl j : follows_job j j.
Proof. done. Qed.
Lemma follows_trans j1 j2 j3 : follows_job j1 j2 → follows_job j2 j3 → follows_job j1 j3.
Proof. intros (? & ? & ?) (? & ? & ?). split; [congruence|]. split; [congruence|auto]. Qed.

Lemma touched_refl s : touched s s.
Proof. constructor; try done. intros r j Hj. by exists j. Qed.
Lemma touched_trans s1 s2 s3 : touched s1 s2 → touched s2 s3 → touched s1 s3.
Proof.
  intros [] []. constructor; try congruence; [by etrans|].
  intros r j Hj. destruct (tc_follow0 r j Hj) as (j2 & H2 & F2). destruct (tc_follow1 r j2 H2) as (j3 & H3 & F3).
  exists j3. split; [done|]. by eapply follows_trans.
Qed.
Lemma touched_set r f s : (∀ j, follows_job j (f j)) → touched s (set_job r f s).
Proof.
  intros Hf. constructor; try done; [apply set_job_length|]. intros r' j Hj. rewrite set_job_at. case_decide; [|by exists j].
  subst. rewrite Hj. by exists (f j).
Qed.
Lemma touched_state r f s : touched s (set_state r f s).
Proof. apply touched_set. by intros []. Qed.
Lemma filter_sub {A} (f : A → bool) l : sublist (List.filter f l) l.
Proof. induction l as [|x l IH]; simpl; [constructor|]. destruct (f x); by constructor. Qed.
Lemma touched_keep keep s : touched s (keep_jobs keep s).
Proof. constructor; try done; [apply filter_sub|]. intros r j Hj. by exists j. Qed.
Lemma touched_alert r b t s : touched s (emit (JobAlert r b t) s).
Proof.
  constructor; try done; [|intros r' j Hj; by exists j]. unfold starts, emit. simpl. rewrite omap_app. apply app_nil_r.
Qed.

Lemma finish_run_touched f now s : touched s (finish_run next_cron f now s).
Proof.
  unfold finish_run. set (s1 := set_job _ _ s).
  assert (touched s s1) as H1 by by apply touched_set.
  destruct (job_at s1 (fl_job f)) as [j|]; [|done]. destruct (_ =?s "at").
  - destruct (cj_delete_after_run j); (eapply touched_trans; [exact H1|]); [apply touched_keep|]. by apply touched_set.
  - eapply touched_trans; [exact H1|apply touched_state].
Qed.

Lemma noted_wake r f s :
  (∀ t, ct_next_run_at_ms (f t) = ct_next_run_at_ms t) → wake_times (set_state r f s) = wake_times s.
Proof.
  intros Hf. apply wake_times_ext; [done|]. intros r'. unfold set_state. rewrite set_job_at. case_decide; [|done]. subst.
  destruct (job_at s r) as [[]|]; simpl; [|done]. unfold next_run_of. simpl. by rewrite Hf.
Qed.

(** A returned job: the state is touched; when an alert is awaited, no next run moved. *)
Lemma job_returned_touched f o now s s' waits :
  job_returned next_cron alerts f o now s = (s', waits) →
  touched s s' ∧ ∀ f', waits = Some f' → fl_job f' = fl_job f ∧ is_some (fl_alert f') = true ∧ wake_times s' = wake_times s.
Proof.
  unfold job_returned. cbv zeta. set (r := fl_job f).
  assert (∀ a b, touched s (note_status r a b s)) as Hn by (intros; apply touched_state).
  assert (∀ a b, wake_times (note_status r a b s) = wake_times s) as Hw by (intros; by apply noted_wake).
  destruct o as [|reason retry|reason|printed].
  - destruct (_ && alerts).
    + intros [= <- <-]. split; [eapply touched_trans; [apply Hn|apply touched_alert]|]. intros f' [= <-]. split; [done|]. split; [done|].
      change (wake_times (note_status r "ok" None s) = wake_times s). apply Hw.
    + intros [= <- <-]. split; [|done]. eapply touched_trans; [apply Hn|]. eapply touched_trans; [apply touched_state|apply finish_run_touched].
  - intros [= <- <-]. split; [|done]. eapply touched_trans; [apply Hn|]. by apply touched_set.
  - intros [= <- <-]. split; [|done]. eapply touched_trans; [apply Hn|apply finish_run_touched].
  - set (s1 := set_state _ _ (note_status r "error" (Some printed) s)).
    assert (touched s s1) as H1 by (eapply touched_trans; [apply Hn|apply touched_state]).
    assert (wake_times s1 = wake_times s) as W1 by (unfold s1; rewrite noted_wake; [apply Hw|done]).
    destruct (match _ with None => true | Some t => _ end).
    + set (s2 := set_state _ _ s1). assert (touched s s2) as H2 by (eapply touched_trans; [exact H1|apply touched_state]).
      assert (wake_times s2 = wake_times s) as W2 by (unfold s2; by rewrite noted_wake).
      destruct alerts.
      * intros [= <- <-]. split; [eapply touched_trans; [exact H2|apply touched_alert]|]. intros f' [= <-]. done.
      * intros [= <- <-]. split; [|done]. eapply touched_trans; [exact H2|apply finish_run_touched].
    + intros [= <- <-]. split; [|done]. eapply touched_trans; [exact H1|apply finish_run_touched].
Qed.

Lemma alert_returned_touched f now s : touched s (alert_returned next_cron f now s).
Proof.
  unfold alert_returned. destruct (match fl_alert f with Some true => true | _ => false end); [|apply finish_run_touched].
  eapply touched_trans; [apply touched_state|apply finish_run_touched].
Qed.

End Heap.

(** ** Well-formed services *)

Record cron_core (s : cron_service) : Prop := {
  cc_refs : ∀ r, r ∈ cr_jobs s → (r < length (cr_objects s))%nat;
  cc_nodup : NoDup (cr_jobs s);
  cc_loaded : cr_loaded s = false → cr_jobs s = [] ∧ cr_objects s = [];
  cc_running : cr_running s = true → cr_loaded s = true;
}.

(** The timer belongs to the jobs: a stopped service has none; a running one sleeps no
    shorter than until the next due job and has no timer only when nothing is due; the jobs
    of a tick are different ones. *)
Definition timer_ok (s : cron_service) : Prop :=
  match cr_timer s with
  | NoTimer => cr_running s = true → next_wake s = None
  | Sleeping w => cr_running s = true ∧ ∃ m, next_wake s = Some m ∧ m ≤ w
  | Executing f due => cr_running s = true ∧ NoDup (fl_job f :: due)
  | Wrapping => cr_running s = true
  end.

Definition cron_wf (s : cron_service) : Prop := cron_core s ∧ timer_ok s.

Section Wf.
Context (next_cron : string → Z → option Z) (alerts : bool).

Lemma core_touched s s' : cron_core s → touched s s' → cron_core s'.
Proof.
  intros [Hr Hn Hl Hu] [Ht Hrun Hload Hm Hst Ho Hj Hf]. constructor.
  - intros r Hin. rewrite Ho. apply Hr. by eapply elem_of_sublist.
  - by eapply sublist_NoDup.
  - rewrite Hload. intros H0. destruct (Hl H0) as [Ej Eo]. rewrite Ej in Hj. rewrite Eo in Ho.
    split; [by apply sublist_nil_r in Hj|by apply length_zero_iff_nil].
  - by rewrite Hrun, Hload.
Qed.

Lemma core_file s file : cron_core s → cron_core (s <| cr_file := file |>).
Proof. by intros []. Qed.
Lemma core_timer s t : cron_core s → cron_core (s <| cr_timer := t |>).
Proof. by intros []. Qed.
Lemma core_manual s f : cron_core s → cron_core (s <| cr_manual ::= f |>).
Proof. by intros []. Qed.
Lemma core_event s e : cron_core s → cron_core (emit e s).
Proof. by intros []. Qed.
Lemma core_save s : cron_core s → cron_core (save_store s).
Proof. intros Hc. unfold save_store. destruct (cr_loaded s); [by apply core_file|done]. Qed.

Lemma armed_wf now s : cron_core s → cron_wf (arm_timer now s).
Proof.
  intros Hc. unfold arm_timer. rewrite set_wake. split; [by apply core_timer|]. unfold timer_ok. simpl.
  destruct (next_wake s) as [w|] eqn:Hw; [|by intros _]. destruct (cr_running s) eqn:Hr; simpl; [|congruence].
  split; [done|]. exists w. split; [exact Hw|]. lia.
Qed.

Lemma saved_wf now s : cron_core s → cron_wf (arm_timer now (save_store s)).
Proof. intros Hc. by apply armed_wf, core_save. Qed.

(** Loading, once: later it changes nothing. *)
Lemma load_spec s s' :
  cron_core s → load_store s = Ok s' →
  cron_core s' ∧ cr_loaded s' = true ∧ cr_timer s' = cr_timer s ∧ cr_running s' = cr_running s ∧ starts s' = starts s
  ∧ (cr_loaded s = true → s' = s).
Proof.
  intros Hc. pose proof Hc as [Hr Hn Hl Hu]. unfold load_store. destruct (cr_loaded s) eqn:Hld; [by intros [= <-]|].
  destruct (Hl eq_refl) as [Ej Eo]. destruct (match cr_file s with None => _ | Some _ => _ end) as [jobs|e]; simpl; [|done].
  intros [= <-]. rewrite Eo. simpl. split; [|done]. constructor; simpl; try done; [|apply NoDup_seq].
  intros r Hin. apply elem_of_seq in Hin. lia.
Qed.

Lemma load_running s b : load_store (s <| cr_running := b |>) = (let! s' := load_store s in Ok (s' <| cr_running := b |>)).
Proof.
  unfold load_store. destruct (cr_loaded s) eqn:Hld; simpl; rewrite Hld; [done|].
  by destruct (match cr_file s with None => _ | Some _ => _ end).
Qed.

Lemma append_wf j now s : cron_core s → cr_loaded s = true → cron_wf (append_job j now s).
Proof.
  intros [Hr Hn Hl Hu] Hld. apply saved_wf. constructor; simpl.
  - intros r [Hin| ->%list_elem_of_singleton]%elem_of_app; rewrite length_app; simpl; [specialize (Hr r Hin)|]; lia.
  - apply NoDup_app. split; [done|]. split; [|apply NoDup_singleton]. intros r Hin ->%list_elem_of_singleton. specialize (Hr _ Hin). lia.
  - by rewrite Hld.
  - done.
Qed.

Lemma next_due_wf due now s : cron_core s → cr_running s = true → NoDup due → cron_wf (next_due due now s).
Proof.
  intros Hc Hr Hd. destruct due as [|r due]; simpl; [by split; [apply core_timer|]|].
  split; [by destruct Hc; constructor|done].
Qed.

(** A state of the same tasks whose jobs and wake-ups stay. *)
Lemma touched_timer_ok s s' : touched s s' → wake_times s' = wake_times s → timer_ok s → timer_ok s'.
Proof.
  intros Ht Hw. unfold timer_ok. rewrite (tc_timer _ _ Ht), (tc_running _ _ Ht), !next_wake_times, Hw. done.
Qed.

Lemma recompute_touched now s : touched s (recompute_next_runs next_cron now s).
Proof.
  unfold recompute_next_runs. generalize (cr_jobs s). intros l. revert s. induction l as [|r l IH]; intros s; [apply touched_refl|]. simpl.
  eapply touched_trans; [|apply IH]. apply touched_set. intros j. unfold recompute_job. by destruct (cj_enabled j).
Qed.

Lemma start_wf now s s' : cron_core s → start_service next_cron now s = Ok s' → cron_wf s'.
Proof.
  intros Hc. unfold start_service. rewrite load_running. destruct (load_store s) as [s1|e] eqn:Hl; [|done]. simpl. intros [= <-].
  destruct (load_spec s s1 Hc Hl) as (Hc1 & Hld & _). apply saved_wf.
  eapply core_touched; [|apply recompute_touched]. eapply core_touched; [|apply touched_keep]. by destruct Hc1; constructor.
Qed.

Lemma filter_all {A} (f : A → bool) l : (length l ≤ length (List.filter f l))%nat → List.filter f l = l.
Proof.
  induction l as [|x l IH]; simpl; [done|]. pose proof (List.filter_length_le f l). destruct (f x); simpl; intros; [f_equal; apply IH|]; lia.
Qed.

Lemma keep_same keep s : (length (cr_jobs (keep_jobs keep s)) <? length (cr_jobs s))%nat = false → cr_jobs (keep_jobs keep s) = cr_jobs s.
Proof. intros Hl. apply Nat.ltb_ge in Hl. by apply filter_all. Qed.

(** After a job returned, the tick goes on; after a manual run, the timer is set anew. *)
Lemma returned_core f o now s s' waits :
  cron_core s → job_returned next_cron alerts f o now s = (s', waits) → cron_core s' ∧ cr_running s' = cr_running s.
Proof. intros Hc Hr. destruct (job_returned_touched _ _ _ _ _ _ _ _ Hr) as [Ht _]. split; [by eapply core_touched|apply Ht]. Qed.

Lemma tick_returns_wf o now s : cron_wf s → cron_wf (tick_job_returns next_cron alerts o now s).
Proof.
  intros [Hc Ht]. unfold tick_job_returns. destruct (cr_timer s) as [| |f due|] eqn:Etimer; try done. destruct (is_some (fl_alert f)); [done|].
  unfold timer_ok in Ht. rewrite Etimer in Ht. destruct Ht as [Hrun Hnd]. apply NoDup_cons in Hnd as [Hnot Hnd].
  destruct (job_returned next_cron alerts f o now s) as [s' [f'|]] eqn:Hret; destruct (returned_core _ _ _ _ _ _ Hc Hret) as [Hc' Hr'].
  - split; [by apply core_timer|]. unfold timer_ok. simpl. rewrite Hr'. split; [done|].
    destruct (job_returned_touched _ _ _ _ _ _ _ _ Hret) as [_ Hw]. destruct (Hw f' eq_refl) as [-> _]. by apply NoDup_cons.
  - apply next_due_wf; [done|congruence|done].
Qed.

Lemma tick_alert_wf now s : cron_wf s → cron_wf (tick_alert_returns next_cron now s).
Proof.
  intros [Hc Ht]. unfold tick_alert_returns. destruct (cr_timer s) as [| |f due|] eqn:Etimer; try done. destruct (is_some (fl_alert f)); [|done].
  unfold timer_ok in Ht. rewrite Etimer in Ht. destruct Ht as [Hrun Hnd]. apply NoDup_cons in Hnd as [_ Hnd].
  pose proof (alert_returned_touched next_cron f now s) as Hto. apply next_due_wf; [by eapply core_touched| |done].
  by rewrite (tc_running _ _ Hto).
Qed.

Lemma manual_returns_wf i o now s : cron_wf s → cron_wf (manual_job_returns next_cron alerts i o now s).
Proof.
  intros [Hc Ht]. unfold manual_job_returns. destruct (cr_manual s !! i) as [f|]; [|done]. destruct (is_some (fl_alert f)); [done|].
  destruct (job_returned next_cron alerts f o now s) as [s' [f'|]] eqn:Hret; destruct (returned_core _ _ _ _ _ _ Hc Hret) as [Hc' Hr'].
  - split; [by apply core_manual|]. destruct (job_returned_touched _ _ _ _ _ _ _ _ Hret) as [Hto Hw]. destruct (Hw f' eq_refl) as (_ & _ & Hwt).
    exact (touched_timer_ok s s' Hto Hwt Ht).
  - apply saved_wf. by apply core_manual.
Qed.

Lemma timer_fires_wf now s : cron_wf s → cron_wf (timer_fires now s).
Proof.
  intros [Hc Ht]. unfold timer_fires. destruct (cr_timer s) eqn:Etimer; try done. unfold timer_ok in Ht. rewrite Etimer in Ht.
  destruct Ht as [Hrun _]. rewrite Hrun. simpl. apply next_due_wf; [done|done|]. apply due_nodup, Hc.
Qed.

Lemma loaded_wf s s1 : cron_wf s → load_store s = Ok s1 → cron_wf s1.
Proof.
  intros [Hc Ht] Hl. destruct (load_spec s s1 Hc Hl) as (Hc1 & Hld1 & Etimer & Erun & _ & Hsame). split; [done|].
  destruct (cr_loaded s) eqn:Hld; [by rewrite Hsame|]. unfold timer_ok in *. rewrite Etimer, Erun.
  assert (cr_running s = false) as Hrun.
  { destruct (cr_running s) eqn:Hr; [|done]. apply Hc in Hr. congruence. }
  rewrite Hrun in *. destruct (cr_timer s); [done|by destruct Ht..|done].
Qed.

Lemma cron_step_wf op s : cron_wf s → cron_wf (cron_step next_cron alerts op s).
Proof.
  intros Hwf. pose proof Hwf as [Hc Ht].
  assert (∀ s1, load_store s = Ok s1 → cron_wf s1 ∧ cr_loaded s1 = true) as Hload.
  { intros s1 Hl. split; [by eapply loaded_wf|]. by destruct (load_spec s s1 Hc Hl) as (_ & ? & _). }
  destruct op; simpl.
  - destruct (start_service next_cron now_ms s) eqn:Hs; [by eapply start_wf|done].
  - split; [by destruct Hc; constructor|]. done.
  - unfold add_job. destruct (load_store s) as [s1|] eqn:Hl; [|done]. destruct (Hload s1 eq_refl) as [[? _] ?]. by apply append_wf.
  - unfold add_plain_text_job. destruct (load_store s) as [s1|] eqn:Hl; [|done]. destruct (Hload s1 eq_refl) as [[? _] ?]. by apply append_wf.
  - unfold add_voice_job. destruct (List.filter _ _); [done|]. destruct (_ && _); [done|].
    destruct (load_store s) as [s1|] eqn:Hl; [|done]. destruct (Hload s1 eq_refl) as [[? _] ?]. by apply append_wf.
  - unfold remove_job. destruct (load_store s) as [s1|] eqn:Hl; [|done]. destruct (Hload s1 eq_refl) as [Hwf1 _]. simpl.
    destruct (_ <? _)%nat eqn:Hlt; simpl; [apply saved_wf; eapply core_touched; [apply Hwf1|apply touched_keep]|].
    split; [eapply core_touched; [apply Hwf1|apply touched_keep]|]. eapply (touched_timer_ok s1); [apply touched_keep| |apply Hwf1].
    apply wake_times_ext; [by apply keep_same|done].
  - unfold enable_job. destruct (load_store s) as [s1|] eqn:Hl; [|done]. destruct (Hload s1 eq_refl) as [[Hc1 Ht1] _]. simpl.
    destruct (find_job id s1) as [[r j]|]; simpl; [|by split].
    apply saved_wf. destruct Hc1. constructor; simpl; try done; [by intros; rewrite length_alter; auto|].
    intros Hld. destruct (cc_loaded0 Hld) as [? ->]. done.
  - unfold run_job. destruct (load_store s) as [s1|] eqn:Hl; [|done]. destruct (Hload s1 eq_refl) as [Hwf1 _]. simpl.
    destruct (find_job id s1) as [[r j]|]; simpl; [|done]. destruct (_ && _); simpl; [done|].
    destruct Hwf1 as [Hc1 Ht1]. split; [by destruct Hc1; constructor|exact Ht1].
  - by apply timer_fires_wf.
  - by apply tick_returns_wf.
  - by apply tick_alert_wf.
  - unfold tick_wraps. destruct (cr_timer s); try done. by apply saved_wf.
  - by apply manual_returns_wf.
  - unfold manual_alert_returns. destruct (cr_manual s !! i) as [f|]; [|done]. destruct (is_some (fl_alert f)); [|done].
    apply saved_wf, core_manual. eapply core_touched; [exact Hc|apply alert_returned_touched].
  - split; [by apply core_manual|exact Ht].
Qed.

Lemma run_cron_wf ops s : cron_wf s → cron_wf (run_cron next_cron alerts ops s).
Proof. revert s. induction ops as [|op ops IH]; intros s Hs; [done|]. simpl. by apply IH, cron_step_wf. Qed.

Lemma fresh_wf file : cron_wf (fresh_service file).
Proof. split; [|done]. constructor; simpl; try done. - by intros r ?%not_elem_of_nil. - constructor. Qed.

End Wf.

(** ** Jobs that are out of the schedule *)

(** The job is not in the list, or not enabled. *)
Definition gone (r : nat) (id : string) (s : cron_service) : Prop :=
  ∃ j, job_at s r = Some j ∧ cj_id j = id ∧ (r ∉ cr_jobs s ∨ cj_enabled j = false).

Definition is_deferred (o : job_outcome) : bool := match o with JobDeferred _ _ => true | _ => false end.

Section Tick.
Context (next_cron : string → Z → option Z) (alerts : bool).

Lemma gone_touched r id s s' : touched s s' → gone r id s → gone r id s'.
Proof.
  intros Ht (j & Hj & Hid & Hg). destruct (tc_follow _ _ Ht r j Hj) as (j' & Hj' & Hid' & _ & He).
  exists j'. split; [done|]. split; [congruence|]. destruct Hg as [Hnot|Hoff]; [left|right; auto].
  intros Hin. apply Hnot. by eapply elem_of_sublist; [|apply Ht].
Qed.

Lemma finish_run_gone f now s j :
  job_at s (fl_job f) = Some j → cs_kind (cj_schedule j) = "at" → gone (fl_job f) (cj_id j) (finish_run next_cron f now s).
Proof.
  intros Hj Hk. unfold finish_run. set (s1 := set_job _ _ s).
  assert (∃ j1, job_at s1 (fl_job f) = Some j1 ∧ cj_id j1 = cj_id j ∧ cs_kind (cj_schedule j1) = "at") as (j1 & Hj1 & Hid & Hk1).
  { unfold s1. rewrite set_job_at, decide_True, Hj by done. by eexists. }
  rewrite Hj1, Hk1. cbn [String.eqb Ascii.eqb Bool.eqb]. change ("at" =?s "at") with true. cbn match.
  destruct (cj_delete_after_run j1).
  - exists j1. split; [done|]. split; [done|]. left. unfold keep_jobs. simpl. intros Hin. apply list_elem_of_In, filter_In in Hin as [_ Hin].
    rewrite Hj1, str_eqb_refl in Hin. done.
  - eexists. rewrite set_job_at, decide_True, Hj1 by done. split; [done|]. split; [done|]. by right.
Qed.

Lemma touched_gone f now s s0 j :
  touched s s0 → job_at s (fl_job f) = Some j → cs_kind (cj_schedule j) = "at" → gone (fl_job f) (cj_id j) (finish_run next_cron f now s0).
Proof.
  intros Ht Hj Hk. destruct (tc_follow _ _ Ht _ _ Hj) as (j' & Hj' & <- & Hs & _). apply finish_run_gone; [done|by rewrite Hs].
Qed.

Lemma job_returned_gone f o now s s' j :
  job_at s (fl_job f) = Some j → cs_kind (cj_schedule j) = "at" → is_deferred o = false →
  job_returned next_cron alerts f o now s = (s', None) → gone (fl_job f) (cj_id j) s'.
Proof.
  intros Hj Hk Ho. unfold job_returned. cbv zeta.
  assert (∀ a b, touched s (note_status (fl_job f) a b s)) as Hn by (intros; apply touched_state).
  destruct o as [|reason retry|reason|printed]; [|done|..].
  - destruct (_ && alerts); [done|]. intros [= <-]. eapply touched_gone; [|exact Hj|exact Hk]. eapply touched_trans; [apply Hn|apply touched_state].
  - intros [= <-]. eapply touched_gone; [apply Hn|exact Hj|exact Hk].
  - destruct (match _ with None => true | Some t => _ end); [destruct alerts; [done|]|]; intros [= <-];
      (eapply touched_gone; [|exact Hj|exact Hk]); repeat (eapply touched_trans; [|apply touched_state]); apply touched_refl.
Qed.

Lemma alert_returned_gone f now s j :
  job_at s (fl_job f) = Some j → cs_kind (cj_schedule j) = "at" → gone (fl_job f) (cj_id j) (alert_returned next_cron f now s).
Proof.
  intros Hj Hk. unfold alert_returned. eapply touched_gone; [|exact Hj|exact Hk].
  destruct (match fl_alert f with Some true => true | _ => false end); [apply touched_state|apply touched_refl].
Qed.

(** ** A tick *)

(** The job of a tick returns, and so does the alert it may ask for. *)
Definition serve (o : job_outcome * Z) (s : cron_service) : cron_service :=
  tick_alert_returns next_cron o.2 (tick_job_returns next_cron alerts o.1 o.2 s).
Definition serve_all (outcomes : list (job_outcome * Z)) (s : cron_service) : cron_service := foldl (λ s o, serve o s) s outcomes.

Lemma next_due_again due now now' s : tick_alert_returns next_cron now' (next_due due now s) = next_due due now s.
Proof. by destruct due. Qed.

(** Once a job is served, its tick goes on with the next one; a one-shot job that was not
    deferred is out of the schedule. *)
Lemma serve_next o now s f due :
  cr_timer s = Executing f due → fl_alert f = None →
  ∃ s1, serve (o, now) s = next_due due now s1 ∧ starts s1 = starts s ∧ cr_running s1 = cr_running s ∧
    (∀ j, job_at s (fl_job f) = Some j → cs_kind (cj_schedule j) = "at" → is_deferred o = false → gone (fl_job f) (cj_id j) s1).
Proof.
  intros Ht Ha. unfold serve, tick_job_returns. simpl. rewrite Ht, Ha. simpl.
  destruct (job_returned next_cron alerts f o now s) as [s' [f'|]] eqn:Hret; destruct (job_returned_touched _ _ _ _ _ _ _ _ Hret) as [Hto Hw].
  - destruct (Hw f' eq_refl) as (Hjob & Halert & _). unfold tick_alert_returns. simpl. rewrite Halert.
    set (s2 := s' <| cr_timer := Executing f' due |>). pose proof (alert_returned_touched next_cron f' now s2) as Hto2.
    exists (alert_returned next_cron f' now s2). split; [done|]. rewrite (tc_starts _ _ Hto2), (tc_running _ _ Hto2).
    split; [apply Hto|]. split; [apply Hto|]. intros j Hj Hk _. destruct (tc_follow _ _ Hto _ _ Hj) as (j' & Hj' & <- & Hs & _).
    rewrite <- Hjob. apply alert_returned_gone; [by rewrite Hjob|by rewrite Hs].
  - exists s'. split; [apply next_due_again|]. split; [apply Hto|]. split; [apply Hto|]. intros j Hj Hk Ho. by eapply job_returned_gone.
Qed.

Lemma starts_event r now s : starts (emit (JobStarted r now) s) = starts s ++ [r].
Proof. unfold starts, emit. simpl. by rewrite omap_app. Qed.

Lemma serve_all_starts outcomes : ∀ due f s,
  cr_timer s = Executing f due → fl_alert f = None → length outcomes = S (length due) →
  starts (serve_all outcomes s) = starts s ++ due ∧ cr_timer (serve_all outcomes s) = Wrapping ∧ cr_running (serve_all outcomes s) = cr_running s.
Proof.
  induction outcomes as [|[o now] outcomes IH]; intros due f s Ht Ha Hl; [done|]. simpl in Hl. simpl.
  destruct (serve_next o now s f due Ht Ha) as (s1 & -> & Hst & Hrun & _).
  destruct due as [|r due]; simpl.
  - destruct outcomes; [|done]. simpl. rewrite app_nil_r. unfold starts in *. simpl. by rewrite Hst.
  - simpl in Hl. lazymatch goal with |- context [serve_all outcomes ?s2] =>
      destruct (IH due (MkFlight r now None) s2) as (H1 & H2 & H3); [done|done|lia|] end. rewrite H1, H2, H3. split; [|done].
    change (starts (emit (JobStarted r now) s1) ++ due = starts s ++ r :: due). by rewrite starts_event, Hst, <- app_assoc.
Qed.

Lemma arm_timer_cases now s : cr_timer (arm_timer now s) = NoTimer ∨ ∃ w, cr_timer (arm_timer now s) = Sleeping w.
Proof. unfold arm_timer. simpl. destruct (set_time (next_wake s)) as [w|]; [|by left]. destruct (cr_running s); [right; by eexists|by left]. Qed.

Lemma serve_all_wf outcomes s : cron_wf s → cron_wf (serve_all outcomes s).
Proof.
  revert s. induction outcomes as [|o outcomes IH]; intros s Hs; simpl; [done|]. apply IH, tick_alert_wf. by apply tick_returns_wf.
Qed.

(** The timer that the end of a tick leaves: at the next run, and none when no job has one. *)
Lemma tick_wraps_timer now s :
  cr_timer s = Wrapping → cr_running s = true →
  next_wake (tick_wraps now s) = next_wake s ∧
  cr_timer (tick_wraps now s) = match next_wake s with Some m => Sleeping (Z.max now m) | None => NoTimer end.
Proof.
  intros Ht Hr. unfold tick_wraps. rewrite Ht. assert (next_wake (save_store s) = next_wake s ∧ cr_running (save_store s) = true) as [Hn Hr'].
  { unfold save_store. by destruct (cr_loaded s). }
  unfold arm_timer. rewrite Hn, Hr', set_wake. split; [exact Hn|done].
Qed.

(** C35: No due job is forgotten by a tick that no other operation disturbs: a running service
    that sleeps wakes up no earlier than a job is due; when its timer fires and the tick runs
    to its end with no operation of anybody else in between, every enabled job whose time has
    come is started, each once and in the order of the list, whatever the jobs before it did;
    after the last one the service sleeps until the next run of a job, or has no timer when no
    job has a next run. (An operation that arms the timer anew interrupts a tick;
    [interrupted_job_starts_again] shows what happens then.) *)
Theorem due_jobs_run s w now later outcomes :
  cron_wf s → cr_timer s = Sleeping w → w ≤ now → length outcomes = length (due_jobs now s) →
  let s1 := serve_all outcomes (timer_fires now s) in
  due_jobs now s ≠ [] ∧ NoDup (due_jobs now s)
  ∧ (∀ r j, r ∈ cr_jobs s → job_at s r = Some j → is_due now j = true → r ∈ due_jobs now s)
  ∧ starts s1 = starts s ++ due_jobs now s ∧ cr_timer s1 = Wrapping
  ∧ next_wake (tick_wraps later s1) = next_wake s1
  ∧ cr_timer (tick_wraps later s1) = match next_wake s1 with Some m => Sleeping (Z.max later m) | None => NoTimer end.
Proof.
  intros Hwf Ht Hw Hl s1. pose proof Hwf as [Hc Hok]. unfold timer_ok in Hok. rewrite Ht in Hok. destruct Hok as (Hrun & m & Hm & Hmw).
  assert (due_jobs now s ≠ []) as Hne.
  { apply next_wake_in, wake_times_in in Hm as (r & j & Hr & Hj & Hnext). intros He.
    assert (r ∈ due_jobs now s) as Hin; [|rewrite He in Hin; by apply not_elem_of_nil in Hin].
    apply due_in. split; [done|]. exists j. split; [done|]. unfold is_due. rewrite <- Hnext. apply Z.leb_le. lia. }
  assert (starts s1 = starts s ++ due_jobs now s ∧ cr_timer s1 = Wrapping ∧ cr_running s1 = true) as (Hs & Htw & Hr1).
  { unfold s1, timer_fires. rewrite Ht, Hrun. simpl. destruct (due_jobs now s) as [|r due] eqn:Hd; [done|]. simpl.
    lazymatch goal with |- context [serve_all outcomes ?s2] =>
      destruct (serve_all_starts outcomes due (MkFlight r now None) s2) as (H1 & H2 & H3); [done..|] end. rewrite H1, H2, H3. split; [|done].
    change (starts (emit (JobStarted r now) s) ++ due = starts s ++ r :: due). by rewrite starts_event, <- app_assoc. }
  split; [done|]. split; [by apply due_nodup, Hc|]. split; [intros r j Hr Hj Hd; apply due_in; eauto|]. split; [done|]. split; [done|].
  by apply tick_wraps_timer.
Qed.

(** ** One-shot jobs *)

(** Operations that do not put a job back into the schedule by hand. *)
Definition leaves_alone (id : string) (op : cron_op) : bool :=
  match op with
  | OpEnable id' true _ | OpRun id' _ _ => negb (id' =?s id)
  | _ => true
  end.

(** Out of the schedule, and not among the jobs a tick still has to start. *)
Definition spent (r : nat) (id : string) (s : cron_service) : Prop :=
  gone r id s ∧ match cr_timer s with Executing _ due => r ∉ due | _ => True end.

(** Jobs were started, but not this one. *)
Definition not_started (r : nat) (s s' : cron_service) : Prop := ∃ l, starts s' = starts s ++ l ∧ r ∉ l.

Lemma not_started_same r s s' : starts s' = starts s → not_started r s s'.
Proof. intros Hs. exists []. split; [by rewrite app_nil_r|apply not_elem_of_nil]. Qed.
Lemma not_started_trans r s1 s2 s3 : not_started r s1 s2 → not_started r s2 s3 → not_started r s1 s3.
Proof.
  intros (l1 & E1 & H1) (l2 & E2 & H2). exists (l1 ++ l2). split; [by rewrite E2, E1, app_assoc|].
  by intros [?|?]%elem_of_app.
Qed.

Lemma spent_due r id due now s : gone r id s → r ∉ due → spent r id (next_due due now s) ∧ not_started r s (next_due due now s).
Proof.
  intros Hg Hd. destruct due as [|x due]; simpl; [by split; [|apply not_started_same]|].
  apply not_elem_of_cons in Hd as [Hx Hd]. split; [by split|]. exists [x]. split; [apply starts_event|]. by rewrite list_elem_of_singleton.
Qed.

Lemma gone_not_due r id now s : gone r id s → r ∉ due_jobs now s.
Proof.
  intros (j & Hj & _ & Hg) (Hr & j' & Hj' & Hd)%due_in. rewrite Hj in Hj'. injection Hj' as <-.
  destruct Hg as [Hnot|Hoff]; [done|]. unfold is_due, next_run_of in Hd. by rewrite Hoff in Hd.
Qed.

Lemma spent_armed r id now s : gone r id s → spent r id (arm_timer now (save_store s)) ∧ not_started r s (arm_timer now (save_store s)).
Proof.
  intros Hg. assert (gone r id (save_store s) ∧ starts (save_store s) = starts s) as [Hg1 Hs1] by (unfold save_store; by destruct (cr_loaded s)).
  split; [|by apply not_started_same]. split; [exact Hg1|]. by destruct (arm_timer_cases now (save_store s)) as [->|[w ->]].
Qed.

Lemma gone_loaded r id s s1 : cron_wf s → gone r id s → load_store s = Ok s1 → s1 = s.
Proof.
  intros [Hc _] (j & Hj & _) Hl. apply (load_spec s s1 Hc Hl). destruct (cr_loaded s) eqn:Hld; [done|].
  destruct (cc_loaded _ Hc Hld) as [_ He]. unfold job_at in Hj. by rewrite He in Hj.
Qed.

Lemma find_job_in id s r j : find_job id s = Some (r, j) → r ∈ cr_jobs s ∧ job_at s r = Some j ∧ cj_id j = id.
Proof.
  intros Hf. apply List.find_some in Hf as [Hin Hid]. apply list_elem_of_In, stored_in in Hin as [? ?].
  by apply String.eqb_eq in Hid.
Qed.

Lemma append_spent r id j now s : cron_wf s → gone r id s → spent r id (append_job j now s) ∧ not_started r s (append_job j now s).
Proof.
  intros [Hc _] (j0 & Hj0 & Hid & Hg). set (s1 := s <| cr_jobs ::= (λ l, l ++ [length (cr_objects s)]) |> <| cr_objects ::= (λ l, l ++ [j]) |>).
  assert (r < length (cr_objects s))%nat as Hr by (by apply lookup_lt_is_Some; exists j0).
  assert (gone r id s1) as Hg1.
  { exists j0. split; [unfold job_at; simpl; by rewrite lookup_app_l|]. split; [done|]. destruct Hg as [Hnot|Hoff]; [left|by right].
    simpl. intros [?| ->%list_elem_of_singleton]%elem_of_app; [done|lia]. }
  exact (spent_armed r id now s1 Hg1).
Qed.

Lemma spent_step op r id s :
  cron_wf s → spent r id s → leaves_alone id op = true → spent r id (cron_step next_cron alerts op s) ∧ not_started r s (cron_step next_cron alerts op s).
Proof.
  intros Hwf [Hg Hd] Hop. pose proof Hwf as [Hc _]. assert (spent r id s) as Hsp by by split.
  assert (spent r id s ∧ not_started r s s) as Hsame by by split; [|apply not_started_same].
  destruct op; simpl.
  - unfold start_service. rewrite load_running. destruct (load_store s) as [s1|e] eqn:Hl; [|done]. simpl.
    rewrite (gone_loaded r id s s1 Hwf Hg Hl). set (s2 := recompute_next_runs _ _ _).
    assert (gone r id s2 ∧ starts s2 = starts s) as [Hg2 Hs2].
    { unfold s2. split.
      - eapply gone_touched; [apply recompute_touched|]. eapply gone_touched; [apply touched_keep|exact Hg].
      - by rewrite (tc_starts _ _ (recompute_touched _ _ _)). }
    destruct (spent_armed r id now_ms s2 Hg2) as [? ?]. split; [done|]. eapply not_started_trans; [by apply not_started_same|done].
  - split; [by split|by apply not_started_same].
  - unfold add_job. destruct (load_store s) as [s1|e] eqn:Hl; [|done]. simpl. rewrite (gone_loaded r id s s1 Hwf Hg Hl). by apply append_spent.
  - unfold add_plain_text_job. destruct (load_store s) as [s1|e] eqn:Hl; [|done]. simpl. rewrite (gone_loaded r id s s1 Hwf Hg Hl). by apply append_spent.
  - unfold add_voice_job. destruct (List.filter _ _); [done|]. destruct (_ && _); [done|].
    destruct (load_store s) as [s1|e] eqn:Hl; [|done]. simpl. rewrite (gone_loaded r id s s1 Hwf Hg Hl). by apply append_spent.
  - unfold remove_job. destruct (load_store s) as [s1|e] eqn:Hl; [|done]. simpl. rewrite (gone_loaded r id s s1 Hwf Hg Hl).
    set (s2 := keep_jobs (λ j, negb (removable id0 chat_id created_by j)) s).
    assert (gone r id s2) as Hg1 by (eapply gone_touched; [apply touched_keep|exact Hg]).
    destruct (_ <? _)%nat; simpl; [exact (spent_armed r id now_ms s2 Hg1)|]. split; [by split|by apply not_started_same].
  - unfold enable_job. destruct (load_store s) as [s1|e] eqn:Hl; [|done]. simpl. rewrite (gone_loaded r id s s1 Hwf Hg Hl).
    destruct (find_job id0 s) as [[r' j']|] eqn:Hf; simpl; [|done]. destruct (find_job_in _ _ _ _ Hf) as (Hin & Hj' & Hid').
    set (s2 := set_job r' _ s). assert (gone r id s2) as Hg2; [|exact (spent_armed r id now_ms s2 Hg2)].
    destruct Hg as (j & Hj & Hid & Hgg). unfold gone, s2. rewrite set_job_at. case_decide as Hrr; [|by exists j].
    subst r'. rewrite Hj. rewrite Hj in Hj'. injection Hj' as <-. destruct enabled; simpl in Hop.
    + rewrite <- Hid', Hid, str_eqb_refl in Hop. done.
    + eexists. split; [done|]. split; [done|]. by right.
  - unfold run_job. destruct (load_store s) as [s1|e] eqn:Hl; [|done]. simpl. rewrite (gone_loaded r id s s1 Hwf Hg Hl).
    destruct (find_job id0 s) as [[r' j']|] eqn:Hf; simpl; [|done]. destruct (_ && _); simpl; [done|].
    destruct (find_job_in _ _ _ _ Hf) as (Hin & Hj' & Hid'). split; [by split|]. exists [r']. split; [apply starts_event|].
    intros ->%list_elem_of_singleton. destruct Hg as (j & Hj & Hid & _). rewrite Hj in Hj'. injection Hj' as <-.
    simpl in Hop. by rewrite <- Hid', Hid, str_eqb_refl in Hop.
  - unfold timer_fires. destruct (cr_timer s) eqn:Ht; try done. destruct (negb (cr_running s)); [by split; [|apply not_started_same]|].
    apply spent_due; [done|]. by eapply gone_not_due.
  - unfold tick_job_returns. destruct (cr_timer s) as [| |f due|] eqn:Ht; try done. destruct (is_some (fl_alert f)); [done|].
    destruct (job_returned next_cron alerts f o now_ms s) as [s' [f'|]] eqn:Hret; destruct (job_returned_touched _ _ _ _ _ _ _ _ Hret) as [Hto _].
    + split; [split; [exact (gone_touched r id s s' Hto Hg)|exact Hd]|]. apply not_started_same, Hto.
    + destruct (spent_due r id due now_ms s') as [? ?]; [by eapply gone_touched|done|]. split; [done|].
      eapply not_started_trans; [apply not_started_same, Hto|done].
  - unfold tick_alert_returns. destruct (cr_timer s) as [| |f due|] eqn:Ht; try done. destruct (is_some (fl_alert f)); [|done].
    pose proof (alert_returned_touched next_cron f now_ms s) as Hto.
    destruct (spent_due r id due now_ms (alert_returned next_cron f now_ms s)) as [? ?]; [by eapply gone_touched|done|]. split; [done|].
    eapply not_started_trans; [apply not_started_same, Hto|done].
  - unfold tick_wraps. destruct (cr_timer s); try done. by apply spent_armed.
  - unfold manual_job_returns. destruct (cr_manual s !! i) as [f|]; [|done]. destruct (is_some (fl_alert f)); [done|].
    destruct (job_returned next_cron alerts f o now_ms s) as [s' [f'|]] eqn:Hret; destruct (job_returned_touched _ _ _ _ _ _ _ _ Hret) as [Hto _].
    + split; [split; [exact (gone_touched r id s s' Hto Hg)|simpl; by rewrite (tc_timer _ _ Hto)]|]. apply not_started_same, Hto.
    + unfold manual_ends. set (s2 := s' <| cr_manual ::= delete i |>). assert (gone r id s2) as Hg2 by exact (gone_touched r id s s' Hto Hg).
      destruct (spent_armed r id now_ms s2 Hg2) as [? ?]. split; [done|]. eapply not_started_trans; [|done]. apply not_started_same, Hto.
  - unfold manual_alert_returns. destruct (cr_manual s !! i) as [f|]; [|done]. destruct (is_some (fl_alert f)); [|done].
    pose proof (alert_returned_touched next_cron f now_ms s) as Hto. unfold manual_ends.
    set (s2 := (alert_returned next_cron f now_ms s) <| cr_manual ::= delete i |>).
    assert (gone r id s2) as Hg2 by exact (gone_touched r id s _ Hto Hg).
    destruct (spent_armed r id now_ms s2 Hg2) as [? ?]. split; [done|]. eapply not_started_trans; [|done]. apply not_started_same, Hto.
  - split; [by split|by apply not_started_same].
Qed.

Lemma spent_run ops r id : ∀ s,
  cron_wf s → spent r id s → forallb (leaves_alone id) ops = true →
  spent r id (run_cron next_cron alerts ops s) ∧ not_started r s (run_cron next_cron alerts ops s).
Proof.
  induction ops as [|op ops IH]; intros s Hwf Hs Ho; simpl; [by split; [|apply not_started_same]|].
  simpl in Ho. apply andb_true_iff in Ho as [Hop Ho]. destruct (spent_step op r id s Hwf Hs Hop) as [H1 H2].
  destruct (IH _ (cron_step_wf next_cron alerts op s Hwf) H1 Ho) as [H3 H4]. split; [done|]. by eapply not_started_trans.
Qed.

(** C36: A one-shot job runs once: when its execution by a tick ends - well, skipped or with an
    error, and not deferred - this service object never starts it again, whatever operations
    follow, stopping and starting the service included, until somebody enables or runs that
    job by hand. (A job that a new process reads back from the file is a new one.) *)
Theorem one_shot_runs_once s f due j o now ops :
  cron_wf s → cr_timer s = Executing f due → fl_alert f = None → job_at s (fl_job f) = Some j → cs_kind (cj_schedule j) = "at" →
  is_deferred o = false → forallb (leaves_alone (cj_id j)) ops = true →
  not_started (fl_job f) s (run_cron next_cron alerts ops (serve (o, now) s)).
Proof.
  intros Hwf Ht Ha Hj Hk Ho Hops. destruct (serve_next o now s f due Ht Ha) as (s1 & Hserve & Hst & _ & Hg).
  assert (fl_job f ∉ due) as Hnot by (destruct Hwf as [_ Hok]; unfold timer_ok in Hok; rewrite Ht in Hok; by destruct Hok as [_ [? _]%NoDup_cons]).
  destruct (spent_due (fl_job f) (cj_id j) due now s1 (Hg j Hj Hk Ho) Hnot) as [Hsp Hns]. rewrite <- Hserve in Hsp, Hns.
  assert (cron_wf (serve (o, now) s)) as Hwf1 by (apply tick_alert_wf; by apply tick_returns_wf).
  destruct (spent_run ops (fl_job f) (cj_id j) _ Hwf1 Hsp Hops) as [_ Hrun].
  eapply not_started_trans; [apply not_started_same, Hst|]. by eapply not_started_trans.
Qed.

End Tick.

(** ** What an operation does to a running tick *)

Section Interrupted.
Context (next_cron : string → Z → option Z) (alerts : bool).

(** Adding a job, also a reminder from another chat, cancels the timer task wherever it is:
    the job it was executing keeps its due time, nothing is noted of the execution, and the
    new timer starts it again at once. *)
Theorem interrupted_job_starts_again s f due j id at_ms message channel chat_id created_by now :
  cron_wf s → cr_timer s = Executing f due → fl_job f ∈ cr_jobs s → job_at s (fl_job f) = Some j → is_due now j = true →
  let s1 := cron_step next_cron alerts (OpAddPlain id at_ms message channel chat_id created_by now) s in
  cr_timer s1 = Sleeping now ∧ job_at s1 (fl_job f) = Some j ∧ fl_job f ∈ due_jobs now s1
  ∧ ∃ f' due', cr_timer (timer_fires now s1) = Executing f' due' ∧ fl_job f ∈ fl_job f' :: due'.
Proof.
  intros [Hc Hok] Ht Hin Hj Hd s1. unfold timer_ok in Hok. rewrite Ht in Hok. destruct Hok as [Hrun _].
  assert (load_store s = Ok s) as Hl by (unfold load_store; by rewrite (cc_running _ Hc Hrun)).
  set (j0 := new_job next_cron id "group reminder" (MkCronSchedule "at" (Some at_ms) None None None)
    (plain_payload "plain_text" message true (Some channel) (Some chat_id) None (Some created_by) (Some chat_id)) true now).
  set (s0 := save_store (s <| cr_jobs ::= (λ l, l ++ [length (cr_objects s)]) |> <| cr_objects ::= (λ l, l ++ [j0]) |>)).
  assert (s1 = arm_timer now s0) as -> by (unfold s1; simpl; unfold add_plain_text_job; by rewrite Hl).
  assert (cr_jobs s0 = cr_jobs s ++ [length (cr_objects s)] ∧ cr_objects s0 = cr_objects s ++ [j0] ∧ cr_running s0 = true) as (E1 & E2 & E3)
    by (unfold s0, save_store; simpl; destruct (cr_loaded s); done).
  assert (job_at s0 (fl_job f) = Some j) as Hj0 by (unfold job_at; rewrite E2; by apply lookup_app_l_Some).
  assert (fl_job f ∈ cr_jobs s0) as Hin0 by (rewrite E1; apply elem_of_app; by left).
  assert (∃ m, next_wake s0 = Some m ∧ m ≤ now) as (m & Hm & Hle).
  { unfold is_due in Hd. destruct (next_run_of j) as [t|] eqn:Hn; [|done]. apply Z.leb_le in Hd.
    destruct (next_wake_le s0 t) as (m & ? & ?); [apply wake_times_in; by exists (fl_job f), j|]. exists m. split; [done|lia]. }
  assert (cr_timer (arm_timer now s0) = Sleeping now) as Harm.
  { unfold arm_timer. rewrite set_wake, Hm. simpl. rewrite E3. f_equal. lia. }
  assert (fl_job f ∈ due_jobs now (arm_timer now s0)) as Hdue by (apply due_in; split; [exact Hin0|by exists j]).
  split; [exact Harm|]. split; [exact Hj0|]. split; [exact Hdue|].
  unfold timer_fires. rewrite Harm. change (cr_running (arm_timer now s0)) with (cr_running s0). rewrite E3. simpl.
  destruct (due_jobs now (arm_timer now s0)) as [|r due'] eqn:Hl'; [by apply not_elem_of_nil in Hdue|]. simpl. eexists _, _. split; [done|]. exact Hdue.
Qed.

(** A file that does not load is overwritten by an empty one when the service starts. *)
Theorem unreadable_file_is_wiped data e now :
  load_jobs data = Raise e → is_outside e = false →
  ∃ s, start_service next_cron now (fresh_service (Some data)) = Ok s ∧ cr_file s = Some (save_data []) ∧ cr_jobs s = [].
Proof. intros Hl He. unfold start_service, load_store. simpl. rewrite Hl, He. simpl. eexists. done. Qed.

(** A one-shot job whose time passed while the service was down gets no next run. *)
Theorem missed_one_shot_has_no_next_run j t now :
  cs_kind (cj_schedule j) = "at" → cs_at_ms (cj_schedule j) = Some t → t ≤ now → cj_enabled j = true →
  next_run_of (recompute_job next_cron now j) = None ∧ cj_enabled (recompute_job next_cron now j) = true.
Proof.
  intros Hk Ht Hle He. unfold recompute_job, next_run_of. rewrite He. simpl. rewrite He. split; [|done].
  unfold compute_next_run. rewrite Hk, Ht. simpl. unfold set_time. destruct (t =? 0); [done|].
  assert ((now <? t) = false) as -> by (apply Z.ltb_ge; lia). done.
Qed.

(** The time zone of a schedule changes nothing. *)
Theorem time_zone_ignored s tz now :
  compute_next_run next_cron s now
  = compute_next_run next_cron (MkCronSchedule (cs_kind s) (cs_at_ms s) (cs_every_ms s) (cs_expr s) tz) now.
Proof. done. Qed.

(** ** Failure alerts *)

(** A failing job alerts exactly when it did not alert within a day, and then notes the time. *)
Lemma failure_alert_exact f printed now s j :
  job_at s (fl_job f) = Some j →
  let alerted := ct_failure_alerted_at_ms (cj_state j) in
  let fresh := match alerted with None => true | Some t => FAILURE_ALERT_INTERVAL_MS <=? fl_start_ms f - t end in
  is_some (job_returned next_cron true f (JobFailed printed) now s).2 = fresh
  ∧ ∃ j', job_at (job_returned next_cron true f (JobFailed printed) now s).1 (fl_job f) = Some j'
    ∧ ct_last_status (cj_state j') = Some "error" ∧ ct_last_error (cj_state j') = Some printed
    ∧ ct_consecutive_failures (cj_state j') = ct_consecutive_failures (cj_state j) + 1
    ∧ ct_failure_alerted_at_ms (cj_state j') = if fresh then Some (fl_start_ms f) else alerted.
Proof.
  intros Hj alerted fresh. unfold job_returned. cbv zeta. rewrite Hj. fold alerted. fold fresh.
  set (s1 := set_state (fl_job f) (λ t, t <| ct_consecutive_failures ::= Z.succ |>) (note_status (fl_job f) "error" (Some printed) s)).
  assert (∃ j1, job_at s1 (fl_job f) = Some j1 ∧ ct_last_status (cj_state j1) = Some "error" ∧ ct_last_error (cj_state j1) = Some printed
    ∧ ct_consecutive_failures (cj_state j1) = ct_consecutive_failures (cj_state j) + 1 ∧ ct_failure_alerted_at_ms (cj_state j1) = alerted) as (j1 & H1 & H2).
  { unfold s1, note_status, set_state. rewrite !set_job_at, !decide_True, Hj by done. by eexists. }
  destruct fresh.
  - split; [done|].
    change (∃ j', job_at (set_state (fl_job f) (λ t, t <| ct_failure_alerted_at_ms := Some (fl_start_ms f) |>) s1) (fl_job f) = Some j'
      ∧ ct_last_status (cj_state j') = Some "error" ∧ ct_last_error (cj_state j') = Some printed
      ∧ ct_consecutive_failures (cj_state j') = ct_consecutive_failures (cj_state j) + 1
      ∧ ct_failure_alerted_at_ms (cj_state j') = Some (fl_start_ms f)).
    unfold set_state. rewrite set_job_at, decide_True, H1 by done. eexists. split; [done|]. simpl. by destruct H2 as (? & ? & ? & _).
  - cbn [fst snd is_some]. split; [done|]. unfold finish_run. set (s2 := set_job _ _ s1).
    assert (∃ j2, job_at s2 (fl_job f) = Some j2 ∧ ct_last_status (cj_state j2) = Some "error" ∧ ct_last_error (cj_state j2) = Some printed
      ∧ ct_consecutive_failures (cj_state j2) = ct_consecutive_failures (cj_state j) + 1 ∧ ct_failure_alerted_at_ms (cj_state j2) = alerted) as (j2 & H3 & H4).
    { unfold s2. rewrite set_job_at, decide_True, H1 by done. eexists. split; [done|]. simpl. exact H2. }
    rewrite H3. destruct (_ =?s "at"); [destruct (cj_delete_after_run j2)|].
    + exists j2. by split.
    + rewrite set_job_at, decide_True, H3 by done. eexists. split; [done|]. simpl. exact H4.
    + unfold set_state. rewrite set_job_at, decide_True, H3 by done. eexists. split; [done|]. simpl. exact H4.
Qed.

End Interrupted.

(** ** Chains and approvals *)

(** The id after some steps of a chain. *)
Fixpoint chain_at (jobs : string → option CronJob) (n : nat) (current : option string) : option string :=
  match n with
  | O => nonempty current
  | S n' => match nonempty current with
            | Some id => match jobs id with Some j => chain_at jobs n' (cp_next_job_id (cj_payload j)) | None => None end
            | None => None
            end
  end.

Lemma walk_finds jobs steps : ∀ visited current,
  walk_chain jobs steps visited current = true ↔
  ∃ n id, (n < steps)%nat ∧ chain_at jobs n current = Some id ∧ (id ∈ visited ∨ ∃ m, (m < n)%nat ∧ chain_at jobs m current = Some id).
Proof.
  induction steps as [|steps IH]; intros visited current; simpl; [split; [done|]; intros (n & _ & Hn & _); lia|].
  destruct (nonempty current) as [x|] eqn:Hx.
  - destruct (str_in x visited) eqn:Hin.
    { split; [intros _|done]. exists 0%nat, x. simpl. rewrite Hx. split; [lia|]. split; [done|]. left. by apply str_in_spec. }
    assert (x ∉ visited) as Hout by (intros Hi; apply str_in_spec in Hi; congruence).
    destruct (jobs x) as [j|] eqn:Hj.
    + rewrite IH. split.
      * intros (n & id & Hn & Hid & Hseen). exists (S n), id. simpl. rewrite Hx, Hj. split; [lia|]. split; [done|].
        destruct Hseen as [[Hv|Hv%list_elem_of_singleton]%elem_of_app|(m & Hm & Hc)]; [by left|right|right].
        -- exists 0%nat. simpl. rewrite Hx. split; [lia|]. congruence.
        -- exists (S m). simpl. rewrite Hx, Hj. split; [lia|done].
      * intros ([|n] & id & Hn & Hid & Hseen); simpl in Hid; rewrite Hx, ?Hj in Hid.
        -- simplify_eq. destruct Hseen as [Hv|(m & Hm & _)]; [done|lia].
        -- exists n, id. split; [lia|]. split; [done|]. destruct Hseen as [Hv|([|m] & Hm & Hc)].
           ++ left. apply elem_of_app. by left.
           ++ simpl in Hc. rewrite Hx in Hc. simplify_eq. left. apply elem_of_app. right. by constructor.
           ++ simpl in Hc. rewrite Hx, Hj in Hc. right. exists m. split; [lia|done].
    + split; [done|]. intros ([|n] & id & Hn & Hid & Hseen); simpl in Hid; rewrite Hx, ?Hj in Hid; [|done].
      simplify_eq. destruct Hseen as [Hv|(m & Hm & _)]; [done|lia].
  - split; [done|]. intros ([|n] & id & Hn & Hid & _); simpl in Hid; by rewrite Hx in Hid.
Qed.

(** A cycle is reported exactly when an id repeats within the steps that are followed. *)
Theorem chain_cycle_exact start jobs depth :
  detect_chain_cycle start jobs depth = true ↔
  ∃ m n id, (m < n < depth)%nat ∧ chain_at jobs m (Some start) = Some id ∧ chain_at jobs n (Some start) = Some id.
Proof.
  unfold detect_chain_cycle. rewrite walk_finds. split.
  - intros (n & id & Hn & Hid & [Hv|(m & Hm & Hc)]); [by apply not_elem_of_nil in Hv|]. by exists m, n, id.
  - intros (m & n & id & [Hm Hn] & Hc & Hid). exists n, id. split; [done|]. split; [done|]. right. by exists m.
Qed.

(** An approval is honoured at most once and never after it expired; the others stay. *)
Theorem approval_honoured_once text now l a l' :
  match_and_consume text now l = (Some a, l') →
  pa_approval_id a = text ∧ now ≤ pa_expires_at a ∧ ∃ l1 l2, l = l1 ++ a :: l2 ∧ l' = l1 ++ l2 ∧ Forall (λ b, pa_approval_id b ≠ text) l1.
Proof.
  revert l'. induction l as [|b l IH]; intros l'; simpl; [done|]. destruct (pa_approval_id b =?s text) eqn:Hb.
  - destruct (pa_expires_at b <? now) eqn:He; [done|]. intros [= <- <-]. apply String.eqb_eq in Hb. apply Z.ltb_ge in He.
    split; [done|]. split; [done|]. by exists [], l.
  - destruct (match_and_consume text now l) as [r rest]. intros [= -> <-]. destruct (IH rest eq_refl) as (? & ? & l1 & l2 & -> & -> & Hf).
    split; [done|]. split; [done|]. exists (b :: l1), l2. split; [done|]. split; [done|]. constructor; [by apply String.eqb_neq|done].
Qed.

(** ** Reminders stay in their group *)

(** With a scope, only a plain-text job of that chat and creator is removed. *)
Theorem scoped_removal id chat_id created_by now s b s' r j :
  cr_loaded s = true → is_some chat_id || is_some created_by = true → remove_job id chat_id created_by now s = Ok (b, s') →
  r ∈ cr_jobs s → job_at s r = Some j → r ∉ cr_jobs s' →
  cj_id j = id ∧ cp_kind (cj_payload j) = "plain_text" ∧ (∀ c, chat_id = Some c → cp_to (cj_payload j) = Some c)
  ∧ (∀ c, created_by = Some c → cp_created_by (cj_payload j) = Some c).
Proof.
  intros Hl Hscope Hr Hin Hj Hout. unfold remove_job, load_store in Hr. rewrite Hl in Hr. simpl in Hr.
  assert (removable id chat_id created_by j = true) as Hrem.
  { destruct (removable id chat_id created_by j) eqn:He; [done|]. exfalso. apply Hout.
    assert (r ∈ cr_jobs (keep_jobs (λ j, negb (removable id chat_id created_by j)) s)) as Hk.
    { unfold keep_jobs. simpl. apply list_elem_of_In, filter_In. split; [by apply list_elem_of_In|]. by rewrite Hj, He. }
    destruct (_ <? _)%nat; simplify_eq; [|done]. unfold arm_timer, save_store. simpl. by rewrite Hl. }
  unfold removable in Hrem. rewrite Hscope in Hrem. simpl in Hrem. apply andb_true_iff in Hrem as [Hid Hs]. apply String.eqb_eq in Hid.
  unfold in_cron_scope in Hs. apply andb_true_iff in Hs as [Hs Hby]. apply andb_true_iff in Hs as [Hk Hto]. apply String.eqb_eq in Hk.
  split; [done|]. split; [done|]. split.
  - intros c ->. simpl in Hto. by apply bool_decide_eq_true in Hto.
  - intros c ->. simpl in Hby. by apply bool_decide_eq_true in Hby.
Qed.

(** ** Examples *)

Definition no_cron : string → Z → option Z := λ _ _, None.
Definition every_second : CronSchedule := MkCronSchedule "every" None (Some 1000) None None.

(** A digest every second and one reminder. *)
Definition two_jobs : cron_service := Eval vm_compute in
  run_cron no_cron true [OpStart 0; OpAdd "digest" "digest" every_second "Sum up." false 0;
                         OpAddPlain "tea" 500 "Tea is ready." "whatsapp" "group" "alice" 0] (fresh_service None).
Definition tea_time : cron_service := Eval vm_compute in timer_fires 600 two_jobs.
Definition tea_job : CronJob := Eval vm_compute in
  match job_at tea_time 1 with Some j => j | None => new_job no_cron "" "" every_second (plain_payload "" "" false None None None None None) false 0 end.

Lemma two_jobs_wf : cron_wf two_jobs.
Proof.
  change two_jobs with (run_cron no_cron true [OpStart 0; OpAdd "digest" "digest" every_second "Sum up." false 0;
                         OpAddPlain "tea" 500 "Tea is ready." "whatsapp" "group" "alice" 0] (fresh_service None)).
  apply run_cron_wf, fresh_wf.
Qed.
Lemma tea_time_wf : cron_wf tea_time.
Proof. change tea_time with (timer_fires 600 two_jobs). apply timer_fires_wf, two_jobs_wf. Qed.

(** Both are due at second one: the digest fails, the reminder is sent. *)
Lemma due_jobs_run_witness :
  cr_timer two_jobs = Sleeping 500 ∧ due_jobs 1000 two_jobs = [0; 1]%nat
  ∧ starts (serve_all no_cron true [(JobFailed "no model", 1000); (JobOk, 1001)] (timer_fires 1000 two_jobs)) = [0; 1]%nat.
Proof.
  split; [reflexivity|]. split; [by vm_compute|].
  destruct (due_jobs_run no_cron true two_jobs 500 1000 1002 [(JobFailed "no model", 1000); (JobOk, 1001)] two_jobs_wf eq_refl)
    as (_ & _ & _ & Hs & _); [lia|by vm_compute|]. exact Hs.
Defined.

(** The reminder went out; the digest comes and goes, the service is restarted. *)
Lemma one_shot_runs_once_witness :
  let ops := [OpWraps 601; OpTimer 1000; OpJobReturns JobOk 1001; OpWraps 1002; OpStop; OpStart 2000; OpTimer 3000] in
  starts (run_cron no_cron true ops (serve no_cron true (JobOk, 600) tea_time)) = [1; 0; 0]%nat
  ∧ not_started 1 tea_time (run_cron no_cron true ops (serve no_cron true (JobOk, 600) tea_time)).
Proof.
  split; [by vm_compute|].
  exact (one_shot_runs_once no_cron true tea_time (MkFlight 1 600 None) [] tea_job JobOk 600
    [OpWraps 601; OpTimer 1000; OpJobReturns JobOk 1001; OpWraps 1002; OpStop; OpStart 2000; OpTimer 3000]
    tea_time_wf eq_refl eq_refl eq_refl eq_refl eq_refl eq_refl).
Defined.

(** Bob sets a reminder while Alice's is being sent: hers is executed a second time. *)
Example reminder_started_twice :
  starts (run_cron no_cron true [OpAddPlain "bus" 9000 "Bus leaves." "whatsapp" "other" "bob" 601; OpTimer 602] tea_time) = [1; 1]%nat.
Proof. by vm_compute. Qed.
