(* ===== verification/Bus.v ===== *)
(** * Bus

    [MessageBus] of [bus/queue.py] with the events of [bus/events.py]: the bounded queues
    that drop their oldest entry, the observation of every inbound message, the guard in
    front of the outbound queue, the subscribers and the three dispatch loops.

    Between two awaits the code is one atomic step. A queue that is not full takes a message
    without waiting, so publishing is atomic; a dispatcher suspends in the wait for a message
    and in every callback, and other tasks run in between. The model lets them run also
    between taking a message and the first callback, which the code does not: its runs include
    those of the code. A callback that fails is logged and the loop goes on, so its result is
    not part of the state. Each loop runs at most once at a time; cancelling a loop and log
    lines are left out. *)

From Stdlib Require Import ZArith Lia Ascii.
From S2P Require Import Prelude Tables Json ThreadStore Registry Executor.

(** ** Events *)

(** Times are the seconds of [timestamp()], in any fixed unit. *)
Record InboundMessage := MkInboundMessage {
  im_channel : string;
  im_sender_id : string;
  im_chat_id : string;
  im_content : string;
  im_timestamp : Z;
  im_media : list string;
  im_metadata : dict;
}.

Record InboundObservedEvent := MkObserved {
  io_channel : string;
  io_chat_id : string;
  io_sender_id : string;
  io_content : string;
  io_timestamp : Z;
  io_message_id : option string;
  io_source_event_ids : list string;
  io_is_group : bool;
  io_metadata : dict;
}.

Inductive GatewayEvent :=
| Observed (e : InboundObservedEvent)
| WebhookEvent (source event_type : string) (payload : dict) (signature_verified : bool) (received_at : Z)
| OverseerCommand (command : string) (args : dict) (correlation_id : string)
| SystemEvent (kind : string) (detail : dict) (timestamp : Z).

(** [type(event).__name__] *)
Definition event_type_name (e : GatewayEvent) : string :=
  match e with
  | Observed _ => "InboundObservedEvent"
  | WebhookEvent _ _ _ _ _ => "WebhookEvent"
  | OverseerCommand _ _ _ => "OverseerCommand"
  | SystemEvent _ _ _ => "SystemEvent"
  end.
Definition is_command (e : GatewayEvent) : bool := match e with OverseerCommand _ _ _ => true | _ => false end.

(** ** The observation of an inbound message *)

(** The first of some keys whose value satisfies a reader *)
Fixpoint first_member {A} (keys : list string) (read : json → option A) (d : dict) : option A :=
  match keys with
  | [] => None
  | k :: keys' =>
      match match dict_get k d with None => None | Some v => read v end with
      | Some a => Some a
      | None => first_member keys' read d
      end
  end.

(** [_metadata_message_id] *)
Definition metadata_message_id (metadata : dict) : option string :=
  first_member ["message_id"; "messageId"; "id"]
    (λ v, match v with JNull => None | _ => nonempty (Some (py_strip (py_str v))) end) metadata.

(** One key of [_metadata_source_event_ids] *)
Definition add_token (cleaned : list string) (value : string) : list string :=
  let token := py_strip value in if str_true token && negb (str_in token cleaned) then cleaned ++ [token] else cleaned.
Definition source_values (raw : json) : list string :=
  match raw with JStr s => [s] | JArr items => map py_str items | _ => [] end.
Definition some_tokens (raw : json) : option (list string) :=
  match foldl add_token [] (source_values raw) with [] => None | l => Some l end.

(** [_metadata_source_event_ids] *)
Definition metadata_source_event_ids (metadata : dict) (message_id : option string) : list string :=
  match first_member ["source_event_ids"; "source_ids"; "batch_source_ids"] some_tokens metadata with
  | Some l => l
  | None => match nonempty message_id with Some m => [m] | None => [] end
  end.

(** [_metadata_is_group] *)
Definition metadata_is_group (m : InboundMessage) : bool :=
  match dict_get "is_group" (im_metadata m) with
  | Some JNull => py_endswith "@g.us" (im_chat_id m)
  | Some v => truthy v
  | None =>
      match dict_get "isGroup" (im_metadata m) with
      | Some JNull | None => py_endswith "@g.us" (im_chat_id m)
      | Some v => truthy v
      end
  end.

(** The event of [publish_inbound] *)
Definition observation (m : InboundMessage) : GatewayEvent :=
  Observed (MkObserved (im_channel m) (im_chat_id m) (im_sender_id m) (im_content m) (im_timestamp m)
              (metadata_message_id (im_metadata m)) (metadata_source_event_ids (im_metadata m) (metadata_message_id (im_metadata m)))
              (metadata_is_group m) (im_metadata m)).

(** ** Queues *)

(** [asyncio.Queue]: a size of 0 is no bound *)
Record bounded (A : Type) := MkQueue { q_items : list A; q_max : Z }.
Arguments MkQueue {A}.
Arguments q_items {A}.
Arguments q_max {A}.

Definition new_queue {A} (maxsize : Z) : bounded A := MkQueue [] (Z.max 0 maxsize).
Definition queue_full {A} (q : bounded A) : bool := (0 <? q_max q) && (q_max q <=? Z.of_nat (length (q_items q))).
Definition put {A} (x : A) (q : bounded A) : bounded A := MkQueue (q_items q ++ [x]) (q_max q).
Definition behind {A} (q : bounded A) : bounded A := MkQueue (drop 1 (q_items q)) (q_max q).

(** The queue after [_put_bounded], and whether an entry was dropped *)
Definition put_bounded {A} (x : A) (q : bounded A) : bounded A * bool :=
  if queue_full q then match q_items q with [] => (put x q, false) | _ :: _ => (put x (behind q), true) end else (put x q, false).

(** ** The bus *)

(** A dispatch loop over one queue: not running, waiting for a message, or inside the
    callback with some index of the message's subscribers. *)
Inductive dispatcher (A : Type) :=
| Off
| Waiting
| Calling (m : A) (i : nat).
Arguments Off {A}.
Arguments Waiting {A}.
Arguments Calling {A}.

(** [dispatch_events]: about to look into the command queue or the event queue, or inside a
    handler. *)
Inductive event_dispatcher :=
| EventsOff
| Polling (commands : bool)
| Handling (commands : bool) (e : GatewayEvent) (i : nat).

(** The guard in front of the outbound queue: allowed or not, and the reason *)
Definition outbound_guard : Type := OutboundMessage → result (bool * string).

(** What leaves the bus: messages taken from a queue and the callbacks called with them. *)
Inductive bus_output :=
| TookInbound (m : InboundMessage)
| TookOutbound (m : OutboundMessage)
| TookReaction (m : ReactionMessage)
| TookEvent (e : GatewayEvent)
| SentOutbound (callback : nat) (m : OutboundMessage)
| SentReaction (callback : nat) (m : ReactionMessage)
| HandledEvent (handler : nat) (e : GatewayEvent).

Record message_bus := MkBus {
  mb_inbound : bounded InboundMessage;
  mb_outbound : bounded OutboundMessage;
  mb_reaction : bounded ReactionMessage;
  mb_events : bounded GatewayEvent;
  mb_commands : bounded GatewayEvent;
  mb_outbound_subscribers : gmap string (list nat);
  mb_reaction_subscribers : gmap string (list nat);
  mb_event_handlers : gmap string (list nat);
  mb_guard : option outbound_guard;
  mb_running : bool;
  mb_inbound_dropped : Z;
  mb_outbound_dropped : Z;
  mb_reaction_dropped : Z;
  mb_event_dropped : Z;
  mb_outbound_task : dispatcher OutboundMessage;
  mb_reaction_task : dispatcher ReactionMessage;
  mb_event_task : event_dispatcher;
  mb_log : list bus_output;
}.
#[export] Instance eta_message_bus : Updatable message_bus :=
  λ b, MkBus (mb_inbound b) (mb_outbound b) (mb_reaction b) (mb_events b) (mb_commands b) (mb_outbound_subscribers b)
         (mb_reaction_subscribers b) (mb_event_handlers b) (mb_guard b) (mb_running b) (mb_inbound_dropped b) (mb_outbound_dropped b)
         (mb_reaction_dropped b) (mb_event_dropped b) (mb_outbound_task b) (mb_reaction_task b) (mb_event_task b) (mb_log b).

(** [MessageBus.__init__] *)
Definition new_bus (inbound_maxsize outbound_maxsize reaction_maxsize event_maxsize : Z) : message_bus :=
  MkBus (new_queue inbound_maxsize) (new_queue outbound_maxsize) (new_queue reaction_maxsize) (new_queue event_maxsize) (new_queue 0)
    ∅ ∅ ∅ None false 0 0 0 0 Off Off EventsOff [].

Definition output (o : bus_output) (b : message_bus) : message_bus := b <| mb_log ::= (λ l, l ++ [o]) |>.

(** [_put_event_best_effort] *)
Definition put_event_best_effort (e : GatewayEvent) (b : message_bus) : message_bus :=
  let b := if queue_full (mb_events b)
           then match q_items (mb_events b) with
                | [] => b
                | _ :: _ => b <| mb_events ::= behind |> <| mb_event_dropped ::= Z.succ |>
                end
           else b in
  if queue_full (mb_events b) then b <| mb_event_dropped ::= Z.succ |> else b <| mb_events ::= put e |>.

(** [publish_inbound] and [consume_inbound]; with nothing there the consumer waits *)
Definition publish_inbound (m : InboundMessage) (b : message_bus) : message_bus :=
  let (q, dropped) := put_bounded m (mb_inbound b) in
  put_event_best_effort (observation m)
    (b <| mb_inbound := q |> <| mb_inbound_dropped ::= (λ n, if dropped then Z.succ n else n) |>).
Definition consume_inbound (b : message_bus) : message_bus :=
  match q_items (mb_inbound b) with
  | [] => b
  | m :: _ => output (TookInbound m) (b <| mb_inbound ::= behind |>)
  end.

(** [set_managed_outbound_guard] and [publish_outbound]: a guard that raises stops the publisher *)
Definition set_managed_outbound_guard (guard : option outbound_guard) (b : message_bus) : message_bus := b <| mb_guard := guard |>.
Definition publish_outbound (m : OutboundMessage) (b : message_bus) : result message_bus :=
  let! verdict := match mb_guard b with None => Ok true | Some g => let! v := g m in Ok v.1 end in
  if verdict : bool then
    let (q, dropped) := put_bounded m (mb_outbound b) in
    Ok (b <| mb_outbound := q |> <| mb_outbound_dropped ::= (λ n, if dropped then Z.succ n else n) |>)
  else Ok b.

Definition consume_outbound (b : message_bus) : message_bus :=
  match q_items (mb_outbound b) with
  | [] => b
  | m :: _ => output (TookOutbound m) (b <| mb_outbound ::= behind |>)
  end.

(** [publish_reaction] and [consume_reaction]: the channel name is neither "inbound" nor "event",
    so a drop counts as one of the outbound queue *)
Definition publish_reaction (m : ReactionMessage) (b : message_bus) : message_bus :=
  let (q, dropped) := put_bounded m (mb_reaction b) in
  b <| mb_reaction := q |> <| mb_outbound_dropped ::= (λ n, if dropped then Z.succ n else n) |>.

Definition consume_reaction (b : message_bus) : message_bus :=
  match q_items (mb_reaction b) with
  | [] => b
  | m :: _ => output (TookReaction m) (b <| mb_reaction ::= behind |>)
  end.

(** [publish_event] *)
Definition publish_event (e : GatewayEvent) (b : message_bus) : message_bus :=
  if is_command e then b <| mb_commands ::= put e |> else
  let (q, dropped) := put_bounded e (mb_events b) in
  b <| mb_events := q |> <| mb_event_dropped ::= (λ n, if dropped then Z.succ n else n) |>.

(** The subscriptions *)
Definition subscribed (channel : string) (callback : nat) (subs : gmap string (list nat)) : gmap string (list nat) :=
  <[channel := default [] (subs !! channel) ++ [callback]]> subs.
Definition subscribe_outbound (channel : string) (callback : nat) (b : message_bus) : message_bus :=
  b <| mb_outbound_subscribers ::= subscribed channel callback |>.
Definition subscribe_reaction (channel : string) (callback : nat) (b : message_bus) : message_bus :=
  b <| mb_reaction_subscribers ::= subscribed channel callback |>.
Definition subscribe_event (event_type : string) (handler : nat) (b : message_bus) : message_bus :=
  b <| mb_event_handlers ::= subscribed event_type handler |>.

(** ** The dispatch loops *)

(** The head of a loop *)
Definition loop_head {A} (b : message_bus) : dispatcher A := if mb_running b then Waiting else Off.
Definition event_head (b : message_bus) : event_dispatcher := if mb_running b then Polling true else EventsOff.

(** [dispatch_outbound]: it begins, its wait ends with a message or a timeout, its callback
    ends. The subscribers are a live list, and a fresh empty one for a channel without. *)
Definition start_outbound (b : message_bus) : message_bus :=
  match mb_outbound_task b with Off => b <| mb_running := true |> <| mb_outbound_task := Waiting |> | _ => b end.
Definition outbound_waits (timeout : bool) (b : message_bus) : message_bus :=
  match mb_outbound_task b, q_items (mb_outbound b) with
  | Waiting, m :: _ =>
      let b := output (TookOutbound m) (b <| mb_outbound ::= behind |>) in
      b <| mb_outbound_task := match mb_outbound_subscribers b !! om_channel m with Some _ => Calling m 0 | None => loop_head b end |>
  | Waiting, [] => if timeout then b <| mb_outbound_task := loop_head b |> else b
  | _, _ => b
  end.
Definition outbound_calls (b : message_bus) : message_bus :=
  match mb_outbound_task b with
  | Calling m i =>
      match default [] (mb_outbound_subscribers b !! om_channel m) !! i with
      | Some callback => output (SentOutbound callback m) (b <| mb_outbound_task := Calling m (S i) |>)
      | None => b <| mb_outbound_task := loop_head b |>
      end
  | _ => b
  end.

(** [dispatch_reactions] *)
Definition start_reactions (b : message_bus) : message_bus :=
  match mb_reaction_task b with Off => b <| mb_running := true |> <| mb_reaction_task := Waiting |> | _ => b end.
Definition reactions_wait (timeout : bool) (b : message_bus) : message_bus :=
  match mb_reaction_task b, q_items (mb_reaction b) with
  | Waiting, m :: _ =>
      let b := output (TookReaction m) (b <| mb_reaction ::= behind |>) in
      b <| mb_reaction_task := match mb_reaction_subscribers b !! rm_channel m with Some _ => Calling m 0 | None => loop_head b end |>
  | Waiting, [] => if timeout then b <| mb_reaction_task := loop_head b |> else b
  | _, _ => b
  end.
Definition reactions_call (b : message_bus) : message_bus :=
  match mb_reaction_task b with
  | Calling m i =>
      match default [] (mb_reaction_subscribers b !! rm_channel m) !! i with
      | Some callback => output (SentReaction callback m) (b <| mb_reaction_task := Calling m (S i) |>)
      | None => b <| mb_reaction_task := loop_head b |>
      end
  | _ => b
  end.

(** [dispatch_events]: the command queue and then the event queue, in every round *)
Definition start_events (b : message_bus) : message_bus :=
  match mb_event_task b with EventsOff => b <| mb_running := true |> <| mb_event_task := Polling true |> | _ => b end.
Definition after_queue (commands : bool) (b : message_bus) : event_dispatcher := if commands then Polling false else event_head b.
Definition events_step (b : message_bus) : message_bus :=
  match mb_event_task b with
  | EventsOff => b
  | Polling commands =>
      match q_items (if commands then mb_commands b else mb_events b) with
      | [] => b <| mb_event_task := after_queue commands b |>
      | e :: _ =>
          let b := output (TookEvent e) (if commands then b <| mb_commands ::= behind |> else b <| mb_events ::= behind |>) in
          b <| mb_event_task := match mb_event_handlers b !! event_type_name e with
                                | Some _ => Handling commands e 0
                                | None => after_queue commands b
                                end |>
      end
  | Handling commands e i =>
      match default [] (mb_event_handlers b !! event_type_name e) !! i with
      | Some handler => output (HandledEvent handler e) (b <| mb_event_task := Handling commands e (S i) |>)
      | None => b <| mb_event_task := after_queue commands b |>
      end
  end.

(** [stop] *)
Definition stop_bus (b : message_bus) : message_bus := b <| mb_running := false |>.

(** ** Runs *)

Inductive bus_op :=
| PublishInbound (m : InboundMessage)
| ConsumeInbound
| SetGuard (guard : option outbound_guard)
| PublishOutbound (m : OutboundMessage)
| ConsumeOutbound
| PublishReaction (m : ReactionMessage)
| ConsumeReaction
| PublishEvent (e : GatewayEvent)
| SubscribeOutbound (channel : string) (callback : nat)
| SubscribeReaction (channel : string) (callback : nat)
| SubscribeEvent (event_type : string) (handler : nat)
| StartOutbound
| OutboundWaits (timeout : bool)
| OutboundCalls
| StartReactions
| ReactionsWait (timeout : bool)
| ReactionsCall
| StartEvents
| EventsStep
| StopBus.

Definition bus_step (op : bus_op) (b : message_bus) : message_bus :=
  match op with
  | PublishInbound m => publish_inbound m b
  | ConsumeInbound => consume_inbound b
  | SetGuard guard => set_managed_outbound_guard guard b
  | ConsumeOutbound => consume_outbound b
  | ConsumeReaction => consume_reaction b
  | PublishOutbound m => match publish_outbound m b with Ok b' => b' | Raise _ => b end
  | PublishReaction m => publish_reaction m b
  | PublishEvent e => publish_event e b
  | SubscribeOutbound channel callback => subscribe_outbound channel callback b
  | SubscribeReaction channel callback => subscribe_reaction channel callback b
  | SubscribeEvent event_type handler => subscribe_event event_type handler b
  | StartOutbound => start_outbound b
  | OutboundWaits timeout => outbound_waits timeout b
  | OutboundCalls => outbound_calls b
  | StartReactions => start_reactions b
  | ReactionsWait timeout => reactions_wait timeout b
  | ReactionsCall => reactions_call b
  | StartEvents => start_events b
  | EventsStep => events_step b
  | StopBus => stop_bus b
  end.

Definition bus_run (ops : list bus_op) (b : message_bus) : message_bus := foldl (λ b op, bus_step op b) b ops.
