(* ===== verification/BusProps.v ===== *)
(** * BusProps

    The message bus keeps its books: every published message leaves in order exactly once,
    is still queued within the bound, or is counted as dropped; and every inbound message is
    observed with its sources. *)

From Stdlib Require Import ZArith Lia Ascii.
From S2P Require Import Prelude Tables Json ThreadStore Registry Executor Bus.

(** ** The tokens of the observation *)

Definition clean (l : list string) : Prop := NoDup l ∧ Forall (λ x, x ≠ "" ∧ ∃ y, x = py_strip y) l.

Lemma clean_nil : clean [].
Proof. split; constructor. Qed.
Lemma add_token_clean l v : clean l → clean (add_token l v).
Proof.
  intros [Hn Hf]. unfold add_token. destruct (str_true (py_strip v) && negb (str_in (py_strip v) l)) eqn:E; [|done].
  apply andb_true_iff in E as [Ht Hi]. apply negb_true_iff in Hi. split.
  - apply NoDup_app. split_and!; [done| |apply NoDup_singleton]. intros x Hx ->%list_elem_of_singleton.
    apply str_in_spec in Hx. congruence.
  - apply Forall_app. split; [done|]. constructor; [|constructor]. apply str_true_spec in Ht. eauto.
Qed.
Lemma add_tokens_clean vs l : clean l → clean (foldl add_token l vs).
Proof. revert l. induction vs as [|v vs IH]; intros l Hl; [done|]. simpl. apply IH, add_token_clean, Hl. Qed.

Lemma first_member_P {A} (P : A → Prop) keys read d a :
  (∀ v a, read v = Some a → P a) → first_member keys read d = Some a → P a.
Proof.
  intros HP. induction keys as [|k keys IH]; simpl; [done|]. destruct (dict_get k d) as [v|]; [|apply IH].
  destruct (read v) as [a'|] eqn:Hr; [|apply IH]. intros [= <-]. by eapply HP.
Qed.

Lemma nonempty_some o x : nonempty o = Some x → o = Some x ∧ x ≠ "".
Proof. unfold nonempty. destruct o as [s|]; [|done]. destruct (str_true s) eqn:E; [|done]. intros [= <-]. by apply str_true_spec in E. Qed.

Lemma message_id_clean metadata m : metadata_message_id metadata = Some m → clean [m].
Proof.
  intros Hm. apply (first_member_P (λ m, clean [m])) in Hm; [done|]. intros v a Hv.
  assert (nonempty (Some (py_strip (py_str v))) = Some a) as Hn by by destruct v.
  apply nonempty_some in Hn as [[= <-] He]. split; [apply NoDup_singleton|]. constructor; [eauto|constructor].
Qed.

Lemma source_event_ids_clean metadata : clean (metadata_source_event_ids metadata (metadata_message_id metadata)).
Proof.
  unfold metadata_source_event_ids. destruct (first_member _ some_tokens metadata) as [l|] eqn:Hf.
  - revert Hf. apply first_member_P. intros v a. unfold some_tokens. pose proof (add_tokens_clean (source_values v) [] clean_nil) as Hc.
    destruct (foldl add_token [] (source_values v)); [done|]. by intros [= <-].
  - destruct (nonempty (metadata_message_id metadata)) as [m|] eqn:Hm; [|apply clean_nil].
    apply nonempty_some in Hm as [Hm _]. by eapply message_id_clean.
Qed.

Lemma message_id_gives_source metadata m :
  metadata_message_id metadata = Some m → metadata_source_event_ids metadata (metadata_message_id metadata) ≠ [].
Proof.
  intros Hm. unfold metadata_source_event_ids. destruct (first_member _ some_tokens metadata) as [l|] eqn:Hf.
  - revert Hf. apply (first_member_P (λ l, l ≠ [])). intros v a. unfold some_tokens. by destruct (foldl _ _ _); [|intros [= <-]].
  - pose proof (message_id_clean _ _ Hm) as [_ Hc]. rewrite Hm. unfold nonempty.
    apply Forall_cons in Hc as [[Hne _] _]. apply str_true_spec in Hne. by rewrite Hne.
Qed.

(** ** One queue *)

(** [published] left the queue in order as [taken], is in [q], or is one of [lost]. *)
Record flows {A} (published taken : list A) (q : bounded A) (lost : Z) : Prop := {
  fl_order : sublist (taken ++ q_items q) published;
  fl_count : Z.of_nat (length published) = Z.of_nat (length taken + length (q_items q)) + lost;
  fl_newest : last (taken ++ q_items q) = last published;
  fl_bound : 0 ≤ q_max q ∧ (0 < q_max q → Z.of_nat (length (q_items q)) ≤ q_max q);
  fl_unbounded : q_max q = 0 → lost = 0;
}.

Definition one_if (b : bool) : Z := if b then 1 else 0.

Lemma flows_new {A} n : flows (A:=A) [] [] (new_queue n) 0.
Proof. constructor; simpl; [done|done|done|lia|done]. Qed.

Lemma last_put {A} (l : list A) x : last (l ++ [x]) = Some x.
Proof. by rewrite last_snoc. Qed.

Lemma put_bounded_flows {A} p t (q : bounded A) n x q' dropped :
  flows p t q n → put_bounded x q = (q', dropped) → flows (p ++ [x]) t q' (n + one_if dropped).
Proof.
  intros [Ho Hc Hn [H0 Hb] Hu]. unfold put_bounded, queue_full, put, behind. destruct (_ && _) eqn:E.
  - apply andb_true_iff in E as [E1%Z.ltb_lt E2%Z.leb_le].
    destruct (q_items q) as [|y l] eqn:Hq; [simpl in E2; lia|]. intros [= <- <-]. simpl in *. rewrite ?drop_0.
    constructor; simpl; rewrite ?app_assoc, ?last_put, ?length_app; simpl; try done; try lia.
    apply sublist_app; [|done]. etrans; [|exact Ho]. apply sublist_app; [done|by apply sublist_cons].
  - intros [= <- <-]. simpl in *. apply andb_false_iff in E.
    constructor; simpl; rewrite ?app_assoc, ?last_put, ?length_app; simpl; try done; try lia.
    by apply sublist_app.
Qed.
Lemma take_flows {A} p t (q : bounded A) n x l : flows p t q n → q_items q = x :: l → flows p (t ++ [x]) (behind q) n.
Proof.
  intros [Ho Hc Hn [H0 Hb] Hu] Hq. unfold behind. constructor; simpl; rewrite Hq in *; simpl in *; rewrite ?drop_0, <- ?app_assoc, ?length_app; simpl; try done; lia.
Qed.

(** ** The books of the bus *)

(** The guard installed after some operations, and what the guards let through. *)
Definition guard_after (ops : list bus_op) : option outbound_guard :=
  foldl (λ g op, match op with SetGuard g' => g' | _ => g end) None ops.
Definition passes (guard : option outbound_guard) (m : OutboundMessage) : bool :=
  match guard with None => true | Some g => match g m with Ok v => v.1 | Raise _ => false end end.
Definition inbound_published (op : bus_op) : list InboundMessage := match op with PublishInbound m => [m] | _ => [] end.
Definition admitted_by (guard : option outbound_guard) (op : bus_op) : list OutboundMessage :=
  match op with PublishOutbound m => if passes guard m then [m] else [] | _ => [] end.
Definition outbound_admitted (ops : list bus_op) : list OutboundMessage :=
  concat (imap (λ i op, admitted_by (guard_after (take i ops)) op) ops).
Definition reactions_published (op : bus_op) : list ReactionMessage := match op with PublishReaction m => [m] | _ => [] end.
Definition events_published (op : bus_op) : list GatewayEvent :=
  match op with PublishInbound m => [observation m] | PublishEvent e => if is_command e then [] else [e] | _ => [] end.
Definition commands_published (op : bus_op) : list GatewayEvent :=
  match op with PublishEvent e => if is_command e then [e] else [] | _ => [] end.

Definition took_inbound (o : bus_output) : option InboundMessage := match o with TookInbound m => Some m | _ => None end.
Definition took_outbound (o : bus_output) : option OutboundMessage := match o with TookOutbound m => Some m | _ => None end.
Definition took_reaction (o : bus_output) : option ReactionMessage := match o with TookReaction m => Some m | _ => None end.
Definition took_event (commands : bool) (o : bus_output) : option GatewayEvent :=
  match o with TookEvent e => if eqb (is_command e) commands then Some e else None | _ => None end.

(** Everything published by [ops] is accounted for in the bus. *)
Record books (ops : list bus_op) (b : message_bus) : Prop := {
  bk_inbound : flows (ops ≫= inbound_published) (omap took_inbound (mb_log b)) (mb_inbound b) (mb_inbound_dropped b);
  bk_events : flows (ops ≫= events_published) (omap (took_event false) (mb_log b)) (mb_events b) (mb_event_dropped b);
  bk_commands : flows (ops ≫= commands_published) (omap (took_event true) (mb_log b)) (mb_commands b) 0 ∧ q_max (mb_commands b) = 0;
  bk_outbound : ∃ lost, flows (outbound_admitted ops) (omap took_outbound (mb_log b)) (mb_outbound b) lost
                ∧ flows (ops ≫= reactions_published) (omap took_reaction (mb_log b)) (mb_reaction b) (mb_outbound_dropped b - lost);
  bk_guard : mb_guard b = guard_after ops;
  bk_reaction_dropped : mb_reaction_dropped b = 0;
}.

Lemma bind_snoc {A B} (f : A → list B) l x : (l ++ [x]) ≫= f = (l ≫= f) ++ f x.
Proof. rewrite bind_app. simpl. by rewrite app_nil_r. Qed.

Lemma admitted_snoc ops op : outbound_admitted (ops ++ [op]) = outbound_admitted ops ++ admitted_by (guard_after ops) op.
Proof.
  unfold outbound_admitted. rewrite imap_app, concat_app. f_equal.
  - f_equal. apply imap_ext. intros i x Hx. apply lookup_lt_Some in Hx. simpl. rewrite take_app_le; [done|lia].
  - simpl. by rewrite Nat.add_0_r, take_app_length, app_nil_r.
Qed.
Lemma guard_after_snoc ops op : guard_after (ops ++ [op]) = match op with SetGuard g => g | _ => guard_after ops end.
Proof. unfold guard_after. by rewrite foldl_app. Qed.

(** What an operation does to one queue: it publishes [pub], takes [took] and drops [d]. *)
Definition queue_moves {A} (pub took : list A) (q : bounded A) (d : Z) (q' : bounded A) : Prop :=
  ∀ p t n, flows p t q n → flows (p ++ pub) (t ++ took) q' (n + d).

Lemma queue_moves_none {A} (q : bounded A) : queue_moves [] [] q 0 q.
Proof. intros p t n. by rewrite !app_nil_r, Z.add_0_r. Qed.
Lemma queue_moves_put {A} x (q q' : bounded A) dropped : put_bounded x q = (q', dropped) → queue_moves [x] [] q (one_if dropped) q'.
Proof. intros Hp p t n Hf. rewrite app_nil_r. by eapply put_bounded_flows. Qed.
Lemma queue_moves_take {A} x l (q : bounded A) : q_items q = x :: l → queue_moves [] [x] q 0 (behind q).
Proof. intros Hq p t n Hf. rewrite app_nil_r, Z.add_0_r. by eapply take_flows. Qed.

Lemma books_step ops op b b' l di de d_o dr :
  books ops b → mb_log b' = mb_log b ++ l →
  queue_moves (inbound_published op) (omap took_inbound l) (mb_inbound b) di (mb_inbound b') → mb_inbound_dropped b' = mb_inbound_dropped b + di →
  queue_moves (events_published op) (omap (took_event false) l) (mb_events b) de (mb_events b') → mb_event_dropped b' = mb_event_dropped b + de →
  queue_moves (commands_published op) (omap (took_event true) l) (mb_commands b) 0 (mb_commands b') → q_max (mb_commands b') = q_max (mb_commands b) →
  queue_moves (admitted_by (mb_guard b) op) (omap took_outbound l) (mb_outbound b) d_o (mb_outbound b') →
  queue_moves (reactions_published op) (omap took_reaction l) (mb_reaction b) dr (mb_reaction b') →
  mb_outbound_dropped b' = mb_outbound_dropped b + d_o + dr → mb_reaction_dropped b' = mb_reaction_dropped b →
  mb_guard b' = match op with SetGuard g => g | _ => mb_guard b end →
  books (ops ++ [op]) b'.
Proof.
  intros [Hi He [Hc Hm] (lost & Ho & Hre) Hg Hr] Hl M1 E1 M2 E2 M3 E3 M4 M5 E5 E6 E7.
  constructor; rewrite ?bind_snoc, ?admitted_snoc, ?guard_after_snoc, <- ?Hg, ?Hl, ?omap_app, ?E1, ?E2, ?E3.
  - by apply M1.
  - by apply M2.
  - split; [by apply (M3 _ _ 0)|done].
  - exists (lost + d_o). rewrite E5. split; [by apply M4|].
    replace (mb_outbound_dropped b + d_o + dr - (lost + d_o)) with (mb_outbound_dropped b - lost + dr) by lia. by apply M5.
  - exact E7.
  - congruence.
Qed.

Lemma published_kind {A} (f : bus_op → list A) (P : A → Prop) ops : (∀ op, Forall P (f op)) → Forall P (ops ≫= f).
Proof. intros HP. induction ops as [|op ops IH]; [constructor|]. simpl. by apply Forall_app. Qed.
Lemma queued_kind {A} p t (q : bounded A) n P x l : flows p t q n → Forall P p → q_items q = x :: l → P x.
Proof.
  intros [Ho _ _ _ _] HP Hq. rewrite Forall_forall in HP. apply HP. eapply elem_of_sublist, Ho. rewrite Hq. set_solver.
Qed.

(** The next event of a queue is of its kind. *)
Lemma next_event_kind ops b commands e l :
  books ops b → q_items (if commands : bool then mb_commands b else mb_events b) = e :: l → is_command e = commands.
Proof.
  intros [_ He [Hc _] _ _ _]. destruct commands; intros Hq.
  - eapply (queued_kind _ _ _ _ (λ e, is_command e = true)); [exact Hc| |exact Hq]. apply published_kind.
    intros []; simpl; try constructor. destruct (is_command _) eqn:E; by repeat constructor.
  - eapply (queued_kind _ _ _ _ (λ e, is_command e = false)); [exact He| |exact Hq]. apply published_kind.
    intros []; simpl; try constructor; try done. destruct (is_command _) eqn:E; by repeat constructor.
Qed.

(** After a drop there is room, so the best effort is the bounded put. *)
Lemma best_effort_put e b q dropped :
  (∀ n p t, flows p t (mb_events b) n → put_bounded e (mb_events b) = (q, dropped) →
   put_event_best_effort e b = b <| mb_events := q |> <| mb_event_dropped ::= (λ n, n + one_if dropped) |>).
Proof.
  intros n p t [_ _ _ [H0 Hb] _]. unfold put_event_best_effort, put_bounded. destruct (queue_full (mb_events b)) eqn:E.
  - assert (queue_full (behind (mb_events b)) = false ∧ q_items (mb_events b) ≠ []) as [Hf Hne].
    { unfold queue_full in *. apply andb_true_iff in E as [E1%Z.ltb_lt E2%Z.leb_le].
      assert (q_items (mb_events b) ≠ []) as Hne by (intros Hx; rewrite Hx in E2; simpl in E2; lia). split; [|done].
      simpl. apply andb_false_iff. right. apply Z.leb_gt. rewrite length_drop. destruct (q_items (mb_events b)); simpl in *; [done|lia]. }
    destruct (q_items (mb_events b)) eqn:Hq; [done|]. intros [= <- <-]. simpl. by rewrite Hf.
  - intros [= <- <-]. rewrite E. unfold set_field. simpl. destruct b; simpl. by rewrite Z.add_0_r.
Qed.

Lemma succ_if n (b : bool) : (if b then Z.succ n else n) = n + one_if b.
Proof. destruct b; simpl; lia. Qed.

Local Ltac still := first [apply queue_moves_none | by rewrite Z.add_0_r | done | lia].

Lemma books_publish_inbound ops m b : books ops b → books (ops ++ [PublishInbound m]) (publish_inbound m b).
Proof.
  intros Hb. unfold publish_inbound. destruct (put_bounded m (mb_inbound b)) as [q dropped] eqn:Hq.
  set (b1 := b <| mb_inbound := q |> <| mb_inbound_dropped ::= (λ n, if dropped then Z.succ n else n) |>).
  destruct (put_bounded (observation m) (mb_events b)) as [q2 dropped2] eqn:Hq2.
  rewrite (best_effort_put (observation m) b1 q2 dropped2 _ _ _ (bk_events _ _ Hb) Hq2).
  eapply (books_step _ _ _ _ [] (one_if dropped) (one_if dropped2) 0 0 Hb); simpl; rewrite ?app_nil_r, ?succ_if; try still; by apply queue_moves_put.
Qed.

Lemma books_publish ops op b : books ops b →
  match op with PublishOutbound _ | PublishReaction _ | PublishEvent _ => True | _ => False end →
  books (ops ++ [op]) (bus_step op b).
Proof.
  intros Hb. destruct op as [| | |m| |m| |e| | | | | | | | | | | |]; try done; intros _; simpl.
  - destruct (passes (mb_guard b) m) eqn:Hg.
    + destruct (put_bounded m (mb_outbound b)) as [q dropped] eqn:Hq.
      assert (publish_outbound m b = Ok (b <| mb_outbound := q |> <| mb_outbound_dropped ::= (λ n, if dropped then Z.succ n else n) |>)) as ->.
      { unfold publish_outbound, passes in *. destruct (mb_guard b) as [g|]; simpl; [destruct (g m) as [v|]; [simpl in *; rewrite Hg|done]|]; by rewrite Hq. }
      eapply (books_step _ _ _ _ [] 0 0 (one_if dropped) 0 Hb); simpl; rewrite ?Hg, ?app_nil_r, ?succ_if; try still. by apply queue_moves_put.
    + assert (match publish_outbound m b with Ok b' => b' | Raise _ => b end = b) as ->.
      { unfold publish_outbound, passes in *. destruct (mb_guard b) as [g|]; [|done]. simpl. destruct (g m) as [v|]; [|done]. simpl in *. by rewrite Hg. }
      eapply (books_step _ _ _ _ [] 0 0 0 0 Hb); simpl; rewrite ?Hg, ?app_nil_r; still.
  - unfold publish_reaction. destruct (put_bounded m (mb_reaction b)) as [q dropped] eqn:Hq.
    eapply (books_step _ _ _ _ [] 0 0 0 (one_if dropped) Hb); simpl; rewrite ?app_nil_r, ?succ_if; try still. by apply queue_moves_put.
  - unfold publish_event. destruct (is_command e) eqn:He.
    + eapply (books_step _ _ _ _ [] 0 0 0 0 Hb); simpl; rewrite ?He, ?app_nil_r; try still.
      pose proof (bk_commands _ _ Hb) as [Hc Hm]. apply (queue_moves_put e (mb_commands b) (put e (mb_commands b)) false).
      unfold put_bounded, queue_full. by rewrite Hm.
    + destruct (put_bounded e (mb_events b)) as [q dropped] eqn:Hq.
      eapply (books_step _ _ _ _ [] 0 (one_if dropped) 0 0 Hb); simpl; rewrite ?He, ?app_nil_r, ?succ_if; try still. by apply queue_moves_put.
Qed.

Lemma books_take_event ops b commands e l task :
  books ops b → q_items (if commands : bool then mb_commands b else mb_events b) = e :: l →
  books (ops ++ [EventsStep])
    (output (TookEvent e) (if commands then b <| mb_commands ::= behind |> else b <| mb_events ::= behind |>) <| mb_event_task := task |>).
Proof.
  intros Hb Hq. pose proof (next_event_kind _ _ _ _ _ Hb Hq) as Hk.
  eapply (books_step _ _ _ _ [TookEvent e] 0 0 0 0 Hb); simpl; rewrite ?Hk; destruct commands; simpl; try still; by eapply queue_moves_take.
Qed.

Lemma books_bus_step ops op b : books ops b → books (ops ++ [op]) (bus_step op b).
Proof.
  intros Hb.
  assert (∀ b' l, mb_log b' = mb_log b ++ l → omap took_inbound l = [] → omap took_outbound l = [] → omap took_reaction l = [] →
    omap (took_event false) l = [] → omap (took_event true) l = [] → mb_inbound b' = mb_inbound b → mb_outbound b' = mb_outbound b →
    mb_reaction b' = mb_reaction b → mb_events b' = mb_events b → mb_commands b' = mb_commands b →
    mb_inbound_dropped b' = mb_inbound_dropped b → mb_outbound_dropped b' = mb_outbound_dropped b →
    mb_reaction_dropped b' = mb_reaction_dropped b → mb_event_dropped b' = mb_event_dropped b → mb_guard b' = mb_guard b →
    match op with PublishInbound _ | PublishOutbound _ | PublishReaction _ | PublishEvent _ | SetGuard _ => False | _ => True end →
    books (ops ++ [op]) b') as Hquiet.
  { intros b' l Hl T1 T2 T3 T4 T5 Q1 Q2 Q3 Q4 Q5 D1 D2 D3 D4 G Hop.
    eapply (books_step _ _ _ _ l 0 0 0 0 Hb); rewrite ?T1, ?T2, ?T3, ?T4, ?T5, ?Q1, ?Q2, ?Q3, ?Q4, ?Q5; try still; destruct op; try done; apply queue_moves_none. }

  destruct op; try (by apply books_publish); try (by apply books_publish_inbound); simpl;
    try (by eapply (books_step _ _ _ _ [] 0 0 0 0 Hb); simpl; rewrite ?app_nil_r; still);
    unfold subscribe_outbound, subscribe_reaction, subscribe_event, stop_bus, start_outbound, start_reactions, start_events,
      consume_inbound, consume_outbound, consume_reaction, outbound_waits, outbound_calls, reactions_wait, reactions_call, events_step;
    repeat (lazymatch goal with
      | |- context [match mb_event_task b with _ => _ end] => destruct (mb_event_task b)
      | |- context [match mb_outbound_task b with _ => _ end] => destruct (mb_outbound_task b)
      | |- context [match mb_reaction_task b with _ => _ end] => destruct (mb_reaction_task b)
      | |- context [match q_items ?q with _ => _ end] => destruct (q_items q) eqn:Hq
      | c : bool |- _ => destruct c
      | |- context [match default [] _ !! ?i with _ => _ end] => destruct (default [] _ !! i)
      end; simpl);
    try (eapply (Hquiet _ []); [by rewrite app_nil_r|done..]); try (by eapply (Hquiet _ [_])).
  all: try (eapply (books_step _ _ _ _ [_] 0 0 0 0 Hb); simpl; try still; by eapply queue_moves_take).
  all: first [exact (books_take_event _ _ true _ _ _ Hb Hq) | exact (books_take_event _ _ false _ _ _ Hb Hq)].
Qed.

(** C40: Whatever is published, taken, subscribed, dispatched, guarded or stopped and in whatever
    order: every message a queue accepted leaves it once and in the order of publication, is
    still in it, or is counted as dropped; the newest message is never the dropped one, a
    bounded queue never exceeds its bound and one without a bound - the commands of the
    overseer have none - drops nothing. Accepted are all inbound messages, with one event
    each, all reactions and events, and the outbound messages the guard installed at that
    time lets through. Reactions that were dropped are counted with the outbound messages. *)
Theorem bus_keeps_books ops i o r e : books ops (bus_run ops (new_bus i o r e)).
Proof.
  induction ops as [|op ops IH] using rev_ind.
  - constructor; simpl; try apply flows_new; [by split; [apply flows_new|]| |done|done]. exists 0. split; apply flows_new.
  - unfold bus_run. rewrite foldl_app. by apply books_bus_step.
Qed.

(** ** Examples *)

Definition thumbs_up : ReactionMessage := MkReaction "whatsapp" "g@g.us" "m1" "+" None [].
Definition hello_outbound : OutboundMessage := MkOutbound "whatsapp" "g@g.us" "hello" None [] [].
Definition refuse_all : outbound_guard := λ _, Ok (false, "managed").

(** A dropped reaction is counted as a dropped outbound message, never as a reaction. *)
Example reaction_drop_miscounted :
  let b := bus_run [PublishReaction thumbs_up; PublishReaction thumbs_up] (new_bus 0 0 1 0) in
  (length (q_items (mb_reaction b)), mb_reaction_dropped b, mb_outbound_dropped b) = (1%nat, 0, 1).
Proof. by vm_compute. Qed.

(** The guard decides when the message is published. *)
Example guard_admits :
  outbound_admitted [PublishOutbound hello_outbound; SetGuard (Some refuse_all); PublishOutbound hello_outbound] = [hello_outbound].
Proof. by vm_compute. Qed.
